(* ===== verification/_CoqProject ===== *)
-Q . S2P
Prelude.v
Text.v
Seq.v
Bytes.v
Options.v
Sack.v
Mbuf.v
Linearize.v
Reassembly.v
Retrans.v
Rtt.v
Rack.v
Tlp.v
TimerWheel.v
Ip.v
Output.v
Segment.v
Conn.v
FlowTable.v
Input.v
Receive.v
Dispatch.v
InputSpec.v
DispatchFrame.v
AckBuild.v
Listen.v
Arp.v
Icmp.v
Iss.v
ProcFiles.v
Clock.v
Nic.v
Fault.v
FaultConfig.v
Events.v
Readable.v
Stream.v
Engine.v
Counters.v
EngineTx.v
EngineTimers.v
EngineListen.v
EngineRx.v
EngineApi.v
EngineInv.v
EngineSafe.v
EngineStep.v
EngineLoop.v
EngineSend.v
EngineSpec.v
EndToEnd.v
Connect.v
Inject.v
Bringup.v
Lifetime.v
Server.v
Backlog.v
EngineBacklog.v
ServerBacklog.v
ServerSpec.v
Observe.v
Workload.v
Oracle.v
Scenario.v
TestPacket.v
CApi.v
Normalize.v
NormalizeSpec.v
