(* ===== verification/Prelude.v ===== *)
(** * A verified model of the dpdk-net-core TCP stack

    dpdk-net-core (src/crates/dpdk-net-core/src/) is a user-space TCP/IPv4 client stack
    on top of DPDK: one engine, polled by one application thread, that owns its
    connections, a timing wheel, an event queue and references to the driver's packet
    buffers.  This library translates the stack into executable Rocq functions and proves
    what makes it correct, from the sequence-number comparisons up to the statement that
    no sequence of calls and received packets makes the engine panic, break its
    invariant or lose count of a packet reference.

    ** Conventions

    Machine integers are [Z] with the wrap-around written out ([wadd32], [u16], ...);
    arithmetic that Rust leaves to the overflow check of the build is modelled as the
    release build computes it.  Bytes are lists of [Z].  A panic (an index out of range, an
    [unwrap] of nothing, an assertion) is [None] of the outer [option]; an error the code
    returns is [Err] of [result].  [x <| f := v |>] is a field assignment.  A call on a
    packet buffer is a value of [MbufOp], so a function returns the calls it makes; the class
    [Owner] says which references a value holds, and the conservation theorems relate
    the two.

    ** Parts

    - Arithmetic and bytes: [Prelude] (record update, automation, list lemmas), [Bytes]
      (big-endian reads and writes), [Text] (the string operations of the standard library
      that the sources use), [Seq] (tcp_seq.rs).
    - Wire formats: [Ip] (l2.rs, l3_ip.rs), [Options] (tcp_options.rs), [Output]
      (tcp_output.rs), [Segment] (parse_segment of tcp_input.rs), [Arp] (arp.rs), [Icmp]
      (icmp.rs).
    - State machines of a connection: [Sack] (tcp_sack.rs), [Mbuf] (mempool.rs),
      [Linearize] (the copy of a packet chain, lib.rs), [Reassembly]
      (tcp_reassembly.rs), [Retrans] (tcp_retrans.rs), [Rtt] (tcp_rtt.rs,
      rtt_histogram.rs), [Rack] (tcp_rack.rs), [Tlp] (tcp_tlp.rs), [Conn] (tcp_conn.rs).
    - Segment processing: [Input] is [dispatch] and the handlers of tcp_input.rs, one
      definition per block of the source.  [Receive] specifies the data path, [Dispatch]
      and [DispatchFrame] say what each handler may change, [InputSpec] has the
      properties of one segment, [Stream] what a run of segments delivers.
    - Services of the engine: [TimerWheel] (tcp_timer_wheel.rs), [FlowTable]
      (flow_table.rs), [Events] (tcp_events.rs), [Readable] (the pop loop of
      deliver_readable), [AckBuild] (the pure helpers of engine.rs), [Iss] (iss.rs,
      siphash24.rs), [Fault] and [FaultConfig] (fault_injector.rs and its configuration),
      [Counters] (the groups and the registry of names of counters.rs).
    - The engine: [Engine] has its state and the state monad its methods run in,
      [EngineTx] transmission, transitions and close, [EngineTimers] retransmission, the
      timer handlers, forced close, the TIME_WAIT reaper and ARP probing, [EngineRx] the
      receive path from the frame to the outcome of a segment, [EngineApi] connect, send,
      events and [poll_once].  Each method of engine.rs is one definition of the same
      name; a block of a long method that has a name here says so in its comment.
    - The engine's proofs: [EngineInv] defines triples, the invariant [inv] and the
      ledger of references; [EngineSafe], [EngineStep] and [EngineLoop] prove one rule
      per operation; [EngineSend] says what a send and a retransmission put on the wire;
      [EngineSpec] has the properties and an evaluated session; [Connect] what an active
      open leaves behind; [EndToEnd] joins a sending engine to a receiving connection.
    - The listening side (feature test-server): [Listen] (test_server.rs and the slot
      table), [EngineListen] the passive open, [Server] the calls only that build has and
      the sessions mixed of them, [Backlog] and [EngineBacklog] the correspondence of busy
      slots and half-open connections, [ServerBacklog] a Hoare logic that carries it through
      every call, [ServerSpec] the properties and an evaluated handshake of two engines,
      [TestPacket] the packet builders and readers its tests script a peer with.
    - The injection of received packets (feature test-inject): [Inject].
    - Start and end: [ProcFiles] (the readers of /proc in arp.rs and iss.rs), [Clock]
      (clock.rs), [Nic] (ena_xstats.rs, llq_verify.rs, wc_verify.rs, eal_init), [Bringup]
      (Engine::new: validation, packet pools, negotiation of the offloads, port start) in a
      monad that records every call on the driver, [Lifetime] (Drop for Engine).
    - The C interface: [CApi] (crates/dpdk-net), one definition per extern "C" function.
    - Beside the stack: [Normalize] (normalize.rs of tools/bench-vs-linux), which rewrites
      captures of two stacks so that their bytes can be compared, and [NormalizeSpec];
      [Workload] (workload.rs and attribution.rs of tools/bench-e2e), the round trips a
      benchmark makes with an engine; [Oracle] and [Scenario] (tools/layer-h-correctness),
      the watch over a connection, the matrix of scenarios and one scenario from connect to
      verdict.  [Observe] says what an operation of the engine leaves alone.

    ** How the parts interact

    [poll_once] takes a burst, and for each packet runs l2_decode, ip_decode, tcp_input:
    parse, look the 4-tuple up in the flow table, take a reference to the packet,
    [dispatch] on the connection, give the reference back unless the outcome says it was
    kept, then act on the outcome (counters, RACK retransmissions, pruning and timers,
    state change, ACK or reset, events, removal).  The timer wheel then fires into the
    timer handlers, the reaper frees connections in TIME_WAIT and the pending ring goes to
    the driver.  [dispatch] is a function of the connection and the segment; the engine
    never looks inside it, and the proofs of the engine use only [conn_ok] and the
    frame lemmas of [DispatchFrame].

    ** What the theorems show

    - The engine as a whole: [EngineSpec.engine_never_panics] and
      [EngineSpec.engine_conserves_refs], over arbitrary call sequences, bursts and answers of
      the driver; [send_bytes_exact], [connect_exact], [transition_conn_exact],
      [reap_time_wait_exact].
    - The whole life: [Lifetime.engine_lifetime] and, through the C interface and from any C
      configuration, [CApi.c_lifetime]: creation, any session of calls and destruction run
      without a panic and give back every packet reference and every pool.
      [Bringup.engine_create_error] says what a failed creation leaves, and
      [c_connect_exact], [c_send_exact], [c_poll_exact], [c_timer_roundtrip] what the C
      caller is told.
    - End to end: [EndToEnd.sent_bytes_are_read], what the application of one engine sends,
      carried by a network that loses, repeats and reorders frames, is read by the other side
      as a prefix of it; [send_puts_bytes_on_wire] and [retransmission_resends] describe
      the frames of a send and of a retransmission byte for byte.
    - The listening side: [ServerSpec.server_sessions], over any session the engine does not
      panic and every listener that waits waits for a connection that is there;
      [ServerSpec.inbound_syn_exact] says what a SYN does, case by case.
    - A connection: [Stream.connection_refines_stream], for any run of segments of a peer
      that writes a stream, lost, repeated or reordered, the application is handed a
      prefix of it.
    - One segment: [InputSpec.dispatch_delivers_stream] (what is appended is the next bytes
      of the stream), [dispatch_invariant], [dispatch_conserves_refs],
      [dispatch_transition] (the transitions are those of the TCP diagram),
      [dispatch_inert] (a rejected segment changes nothing).
    - Data structures against a simpler specification: reassembly against the stream,
      SACK against a set of sequence numbers, the wheel against a set of deadlines, the
      flow table against two maps, the event queue against a window over what was
      pushed, the delivery loop against [firstn].
    - Wire formats: frames, options and ARP round-trip; the decoders accept only what
      their checks promise; the checksum is RFC 1071's and the hash is SipHash-2-4.  The
      /proc readers find what a lookup in the printed table would find.
    - Capture normalisation: [NormalizeSpec.canonicalize_exact] (total, every frame rewritten,
      checksums the stack accepts), [canonicalize_idempotent], and
      [canonicalize_same_traffic]: what differs only in freely chosen numbers becomes equal.
    - The tools around an engine: [Workload.workload_never_panics] and
      [Scenario.scenario_sound], every run ends in order and a pass means the counters moved
      as the row says; [Oracle.fsm_replay_exact], [gate_exact], [Scenario.pre_flight_suffices],
      [partition_exact]; [Workload.attribution_sums], the buckets of a round trip against
      its time.
    - Around these, [Counters.registry_exact] and [names_exact] (the names are the atomics),
      [FaultConfig.fault_config_roundtrip], [Inject.inject_chain_conserves],
      [TestPacket.script_packets].
    - Where the code does not do what it means to, the behaviour is a theorem as well:
      [in_flight_released_only_on_timeout], [closing_ack_keeps_in_flight],
      [multi_segment_payload_dropped], [fin_accepted_when_full],
      [unsent_ack_completes_close], [advertised_window_not_accepted],
      [stale_llq_verdict], [conn_stats_ignore_flight], [wide_handle_aliases],
      [syn_ack_offers_peer_mss], [server_build_never_transmits],
      [scenario_hides_transitions].

    ** Outside the source

    What DPDK, the clock, the process's random sources and the NIC answer is the class
    [Engine.Platform]: a function of the number of the request, so no two answers are
    assumed related.  Statements that need more say so ([driver_ready], [packet_ok]).
    What the driver, the files and the processor answer during bring-up is the class
    [Bringup.Bringup].  The configuration of a running engine is the class [EngineConfig],
    which [running_config] fills from what the caller gave; [config_ok] is what
    validation leaves.  Floating point (the rates of the fault injector) appears
    only as the outcome of the comparisons made with it, and its reader as a parameter.

    ** Fuel

    Recursion follows the data wherever the loop does.  Elsewhere: [parse_loop] takes the
    length of the options plus one, and every turn moves past a byte
    ([parse_options_total]); [fold_carries] takes two rounds, shown sufficient in [Ip];
    [ws_shift_loop] counts the fourteen shifts of its guard; [sip_words] and [send_loop]
    take the length of their input, every turn consuming a byte
    ([siphash24_is_reference], [send_bytes_exact]), and so do the option walkers of
    [Normalize]; the wheel's [advance] follows the
    bound of 2048 ticks in its source.  A loop that ends with the wall clock ([Workload],
    [Scenario]) recurses over what each of its turns meets, and running out of turns is a
    result of its own; the drains in it take the length of the queue plus one.

    ** Not modelled

    The builds under obs-none and the bench features; the redirection of the log stream
    around eal_init, whose captured text is an argument; counters that only report (the
    model records every bump the engine's logic makes); the bindings; the other tools, and of
    the correctness gate the command line, netem and the reports, which drive remote hosts
    and write files.  Memory
    itself is not modelled beyond the bytes of packet buffers: pointer validity is the
    contract of DPDK and of the C caller. *)

From stdpp Require Export base list numbers option gmap.
From Stdlib Require Export ZArith Lia.

#[export] Set Default Goal Selector "!".

Declare Scope wire_scope.
Delimit Scope wire_scope with wire.

Global Open Scope Z_scope.

(** ** Record update

    A Rust field assignment [x.f = v] is written [x <| f := v |>].  The setter
    of a projection is found by abstracting the projection out of the record's
    eta-expansion, which every record declares as a [Settable] instance. *)

Class Settable (R : Type) := settable_eta : R -> R.

Class FieldSetter {R T : Type} (proj : R -> T) := field_set : (T -> T) -> R -> R.

Arguments field_set {R T proj FieldSetter} _ _ /.

Ltac mk_field_setter :=
  match goal with
  | |- @FieldSetter ?R ?T ?proj =>
      let inst := constr:(_ : Settable R) in
      let eta := eval hnf in inst in
      let abst := eval pattern proj in eta in
      match abst with
      | ?body _ =>
          let s := constr:(fun (f : T -> T) => body (fun r : R => f (proj r))) in
          let s := eval cbv beta in s in
          exact s
      end
  end.

#[export] Hint Extern 1 (FieldSetter _) => mk_field_setter : typeclass_instances.

Notation "x <| proj := v |>" := (field_set (proj := proj) (fun _ => v) x)
  (at level 1, proj at level 9, v at level 99, left associativity, format "x <| proj  :=  v |>").
Notation "x <| proj ::= f |>" := (field_set (proj := proj) f x)
  (at level 1, proj at level 9, f at level 99, left associativity, format "x <| proj  ::=  f |>").

(** ** Machine integers

    A [uN] value is a [Z] in [0, 2^N); every operation that can leave that
    range says what the source does there. *)

Definition two8 : Z := 256.
Definition two16 : Z := 65536.
Definition two31 : Z := 2147483648.
Definition two32 : Z := 4294967296.
Definition two64 : Z := 18446744073709551616.

(** [as u8], [as u16], [as u32], [as u64]: truncation. *)
Definition u8 (z : Z) : Z := z mod two8.
Definition u16 (z : Z) : Z := z mod two16.
Definition u32 (z : Z) : Z := z mod two32.
Definition u64 (z : Z) : Z := z mod two64.

Definition U8_MAX : Z := 255.
Definition U16_MAX : Z := 65535.
Definition U32_MAX : Z := 4294967295.
Definition U64_MAX : Z := 18446744073709551615.

(** [x as i32] of a [u32]: two's complement reading. *)
Definition as_i32 (z : Z) : Z := if z <? two31 then z else z - two32.

(** [wrapping_add], [wrapping_sub] on [u32]; the plain [+]/[-] of a release
    build wraps the same way. *)
Definition wadd32 (a b : Z) : Z := u32 (a + b).
Definition wsub32 (a b : Z) : Z := u32 (a - b).

(** [saturating_sub] of any unsigned width; [saturating_add]/[saturating_mul]
    at 32 and 64 bits. *)
Definition sat_sub (a b : Z) : Z := Z.max 0 (a - b).
Definition sat_add32 (a b : Z) : Z := Z.min U32_MAX (a + b).
Definition sat_mul32 (a b : Z) : Z := Z.min U32_MAX (a * b).
Definition sat_add64 (a b : Z) : Z := Z.min U64_MAX (a + b).
Definition sat_mul64 (a b : Z) : Z := Z.min U64_MAX (a * b).

Definition is_u8 (z : Z) : Prop := 0 <= z < two8.
Definition is_u16 (z : Z) : Prop := 0 <= z < two16.
Definition is_u32 (z : Z) : Prop := 0 <= z < two32.
Definition is_u64 (z : Z) : Prop := 0 <= z < two64.

(** [Result<A, E>]. *)
Inductive result (A E : Type) : Type :=
  | Ok (a : A)
  | Err (e : E).
Arguments Ok {A E} a.
Arguments Err {A E} e.

(** Length of a slice as an integer. *)
Definition zlen {A} (l : list A) : Z := Z.of_nat (length l).

(** Arithmetic closing tactic: exposes the widths to [lia]. *)
Ltac widths := unfold is_u8, is_u16, is_u32, is_u64, U8_MAX, U16_MAX, U32_MAX, U64_MAX,
  two8, two16, two31, two32, two64 in *.
Ltac width_lia := widths; lia.

(** [lia] with divisions and remainders by constants. *)
Ltac div_lia := widths; Z.to_euclidean_division_equations; lia.

(** Case analysis on the boolean tests and matches of the translated code. *)
Ltac case_tests :=
  repeat match goal with
  | |- context [if ?b then _ else _] => destruct b eqn:?
  | H : context [if ?b then _ else _] |- _ => destruct b eqn:?
  end.

(** Turn boolean comparisons into propositions. *)
Ltac breflect :=
  repeat match goal with
  | H : (_ <? _) = true |- _ => apply Z.ltb_lt in H
  | H : (_ <? _) = false |- _ => apply Z.ltb_ge in H
  | H : (_ <=? _) = true |- _ => apply Z.leb_le in H
  | H : (_ <=? _) = false |- _ => apply Z.leb_gt in H
  | H : (_ =? _) = true |- _ => apply Z.eqb_eq in H
  | H : (_ =? _) = false |- _ => apply Z.eqb_neq in H
  | H : (_ && _)%bool = true |- _ => apply andb_true_iff in H; destruct H
  | H : (_ || _)%bool = false |- _ => apply orb_false_iff in H; destruct H
  | H : negb _ = true |- _ => apply negb_true_iff in H
  | H : negb _ = false |- _ => apply negb_false_iff in H
  end.

Create HintDb width discriminated.
Create Rewrite HintDb zsums.

Lemma u8_range z : is_u8 (u8 z).
Proof. unfold is_u8, u8, two8. apply Z.mod_pos_bound. lia. Qed.
Lemma u16_range z : is_u16 (u16 z).
Proof. unfold is_u16, u16, two16. apply Z.mod_pos_bound. lia. Qed.
Lemma u32_range z : is_u32 (u32 z).
Proof. unfold is_u32, u32, two32. apply Z.mod_pos_bound. lia. Qed.
Lemma u64_range z : is_u64 (u64 z).
Proof. unfold is_u64, u64, two64. apply Z.mod_pos_bound. lia. Qed.

Lemma u8_id z : is_u8 z -> u8 z = z.
Proof. intros H. apply Z.mod_small. exact H. Qed.
Lemma u16_id z : is_u16 z -> u16 z = z.
Proof. intros H. apply Z.mod_small. exact H. Qed.
Lemma u32_id z : is_u32 z -> u32 z = z.
Proof. intros H. apply Z.mod_small. exact H. Qed.
Lemma u64_id z : is_u64 z -> u64 z = z.
Proof. intros H. apply Z.mod_small. exact H. Qed.

#[export] Hint Resolve u8_range u16_range u32_range u64_range : width.

Lemma wadd32_range a b : is_u32 (wadd32 a b).
Proof. apply u32_range. Qed.
Lemma wsub32_range a b : is_u32 (wsub32 a b).
Proof. apply u32_range. Qed.

#[export] Hint Resolve wadd32_range wsub32_range : width.

Lemma u32_add_l a b : u32 (u32 a + b) = u32 (a + b).
Proof. unfold u32. apply Zplus_mod_idemp_l. Qed.
Lemma u32_add_r a b : u32 (a + u32 b) = u32 (a + b).
Proof. unfold u32. apply Zplus_mod_idemp_r. Qed.
Lemma u32_sub_l a b : u32 (u32 a - b) = u32 (a - b).
Proof. unfold u32. apply Zminus_mod_idemp_l. Qed.
Lemma u32_sub_r a b : u32 (a - u32 b) = u32 (a - b).
Proof. unfold u32. apply Zminus_mod_idemp_r. Qed.
Lemma u32_period a k : u32 (a + k * two32) = u32 a.
Proof. unfold u32. apply Z_mod_plus_full. Qed.

Lemma wadd32_u32_l a b : wadd32 (u32 a) b = u32 (a + b).
Proof. apply u32_add_l. Qed.
Lemma wadd32_assoc a b c : wadd32 (wadd32 a b) c = wadd32 a (b + c).
Proof. unfold wadd32. rewrite u32_add_l. f_equal. lia. Qed.
Lemma wsub32_u32 a b : wsub32 (u32 a) (u32 b) = u32 (a - b).
Proof. unfold wsub32. rewrite u32_sub_l, u32_sub_r. reflexivity. Qed.
Lemma wadd32_0_r a : is_u32 a -> wadd32 a 0 = a.
Proof. intros. unfold wadd32. rewrite Z.add_0_r. by apply u32_id. Qed.

Lemma wadd32_id a b : is_u32 (a + b) -> wadd32 a b = a + b.
Proof. apply u32_id. Qed.
Lemma wsub32_id a b : is_u32 (a - b) -> wsub32 a b = a - b.
Proof. apply u32_id. Qed.

(** ** Lists *)

Lemma zlen_nonneg {A} (l : list A) : 0 <= zlen l.
Proof. unfold zlen. lia. Qed.
Lemma zlen_app {A} (l k : list A) : zlen (l ++ k) = zlen l + zlen k.
Proof. unfold zlen. rewrite length_app. lia. Qed.
Lemma zlen_cons {A} (x : A) l : zlen (x :: l) = 1 + zlen l.
Proof. unfold zlen. cbn [length]. lia. Qed.
Lemma zlen_nil {A} : zlen (@nil A) = 0.
Proof. reflexivity. Qed.
Lemma zlen_replicate {A} n (x : A) : zlen (replicate n x) = Z.of_nat n.
Proof. unfold zlen. by rewrite length_replicate. Qed.

Lemma lookup_map {A B} (f : A -> B) l i : map f l !! i = f <$> l !! i.
Proof. revert i. by induction l as [|x l IH]; intros [|i]; cbn. Qed.

(** Sum of a measure over a list. *)
Definition zsum {A} (f : A -> Z) (l : list A) : Z := foldr (fun x acc => f x + acc) 0 l.

Lemma zsum_nil {A} (f : A -> Z) : zsum f [] = 0.
Proof. reflexivity. Qed.
Lemma zsum_cons {A} (f : A -> Z) x l : zsum f (x :: l) = f x + zsum f l.
Proof. reflexivity. Qed.
Lemma zsum_app {A} (f : A -> Z) l k : zsum f (l ++ k) = zsum f l + zsum f k.
Proof. induction l as [|x l IH]; cbn [app]; rewrite ?zsum_cons, ?zsum_nil; [lia|]. rewrite IH. lia. Qed.
Lemma zsum_nonneg {A} (f : A -> Z) l : (forall x, x ∈ l -> 0 <= f x) -> 0 <= zsum f l.
Proof.
  induction l as [|x l IH]; intros H; rewrite ?zsum_nil, ?zsum_cons; [lia|].
  specialize (H x ltac:(set_solver)) as Hx. specialize (IH ltac:(set_solver)). lia.
Qed.

Lemma zsum_perm {A} (f : A -> Z) l k : l ≡ₚ k -> zsum f l = zsum f k.
Proof. induction 1; rewrite ?zsum_cons; lia. Qed.

#[export] Hint Rewrite @zsum_nil @zsum_cons @zsum_app @zlen_nil @zlen_cons @zlen_app : zsums.

(** Inverting a bind whose continuation always succeeds. *)
Lemma bind_ret_inv {A B} (m : option A) (f : A -> B) y :
  (x ← m; Some (f x)) = Some y -> exists x, m = Some x /\ f x = y.
Proof. destruct m as [x|]; cbn; [intros [= <-]; eauto|done]. Qed.
Lemma bind_inv {A B} (m : option A) (f : A -> option B) y :
  (x ← m; f x) = Some y -> exists x, m = Some x /\ f x = Some y.
Proof. destruct m as [x|]; cbn; [eauto|done]. Qed.
