(* ===== verification/Text.v ===== *)
(** * Text: the operations of Rust's [str] the parsers use

    A string is the list of its characters' code points, so splitting and searching are
    list operations and Unicode white space is what it is in the source.  The integer
    parsers follow [from_str_radix]: an optional [+], at least one digit, and an
    overflow is an error. *)

From S2P Require Import Prelude.
From Stdlib Require Import Ascii.
From Stdlib Require Export (notations) String.

Notation text := (list Z) (only parsing).

(** An ASCII literal. *)
Fixpoint txt (s : String.string) : text :=
  match s with
  | String.EmptyString => []
  | String.String a s => Z.of_nat (nat_of_ascii a) :: txt s
  end.
Arguments txt s%_string_scope.

Definition NEWLINE : Z := 10.
Definition CARRIAGE_RETURN : Z := 13.
Definition PLUS : Z := 43.

(** ** Characters *)

(** [char::is_whitespace]. *)
Definition is_whitespace (c : Z) : bool :=
  ((9 <=? c) && (c <=? 13)) || (c =? 32) || (c =? 133) || (c =? 160) || (c =? 5760) ||
  ((8192 <=? c) && (c <=? 8202)) || (c =? 8232) || (c =? 8233) || (c =? 8239) || (c =? 8287) || (c =? 12288).

(** [to_ascii_lowercase]. *)
Definition ascii_lower (c : Z) : Z := if (65 <=? c) && (c <=? 90) then c + 32 else c.

Definition eq_ignore_ascii_case (a b : text) : bool := bool_decide (map ascii_lower a = map ascii_lower b).

(** [char::to_digit(radix)]. *)
Definition to_digit (radix c : Z) : option Z :=
  let d :=
    if (48 <=? c) && (c <=? 57) then c - 48
    else if (97 <=? c) && (c <=? 122) then c - 97 + 10
    else if (65 <=? c) && (c <=? 90) then c - 65 + 10
    else radix in
  if d <? radix then Some d else None.

(** The digit [d] as the formatter writes it, lower case. *)
Definition digit_char (d : Z) : Z := if d <? 10 then 48 + d else 87 + d.

(** ** Splitting and searching *)

(** [split(p)]: the pieces between the characters that match. *)
Fixpoint split_on (p : Z -> bool) (t : text) : list text :=
  match t with
  | [] => [[]]
  | c :: t =>
      if p c then [] :: split_on p t
      else match split_on p t with [] => [[c]] | w :: ws => (c :: w) :: ws end
  end.

Definition split_char (c : Z) : text -> list text := split_on (Z.eqb c).

(** [split_whitespace]. *)
Definition split_whitespace (t : text) : list text := filter (fun w => w <> []) (split_on is_whitespace t).

(** [trim_start] and [trim]. *)
Fixpoint trim_start (t : text) : text :=
  match t with [] => [] | c :: rest => if is_whitespace c then trim_start rest else t end.
Definition trim_text (t : text) : text := rev (trim_start (rev (trim_start t))).

Definition strip_cr (l : text) : text :=
  match rev l with c :: r => if c =? CARRIAGE_RETURN then rev r else l | [] => l end.

(** [lines]: a carriage return goes with the line feed after it, and nothing follows the
    last line feed. *)
Fixpoint line_pieces (ps : list text) : list text :=
  match ps with
  | [] => []
  | [last] => match last with [] => [] | _ => [last] end
  | p :: ps => strip_cr p :: line_pieces ps
  end.
Definition lines (t : text) : list text := line_pieces (split_char NEWLINE t).

Fixpoint starts_with (p t : text) : bool :=
  match p, t with
  | [], _ => true
  | a :: p, b :: t => (a =? b) && starts_with p t
  | _ :: _, [] => false
  end.

(** [find(p)]: the text from the first occurrence on. *)
Fixpoint find_text (p t : text) : option text :=
  if starts_with p t then Some t
  else match t with [] => None | _ :: t => find_text p t end.

Definition contains (t p : text) : bool := match find_text p t with Some _ => true | None => false end.

(** [&t[..t.find(c)?]]. *)
Fixpoint before_char (c : Z) (t : text) : option text :=
  match t with
  | [] => None
  | a :: t => if a =? c then Some [] else (cons a) <$> before_char c t
  end.

(** ** Integers *)

Fixpoint digits_value (radix max acc : Z) (t : text) : option Z :=
  match t with
  | [] => Some acc
  | c :: t =>
      d ← to_digit radix c;
      let acc := acc * radix in
      if max <? acc then None else
      if max <? acc + d then None else digits_value radix max (acc + d) t
  end.

(** [from_str_radix] of an unsigned type whose largest value is [max]; [parse] is
    radix 10. *)
Definition from_str_radix (radix max : Z) (t : text) : option Z :=
  match t with
  | [] => None
  | [c] => digits_value radix max 0 [c]
  | c :: rest => if c =? PLUS then digits_value radix max 0 rest else digits_value radix max 0 t
  end.

(** The digits of [n], most significant first: what the formatter prints. *)
Fixpoint digits_acc (fuel : nat) (radix n : Z) (acc : text) : text :=
  match fuel with
  | O => acc
  | S fuel =>
      let acc := digit_char (n mod radix) :: acc in
      if n / radix =? 0 then acc else digits_acc fuel radix (n / radix) acc
  end.

(** [u64] has at most 64 digits in any radix. *)
Definition show (radix n : Z) : text := digits_acc 64 radix n [].

Definition ZERO_CHAR : Z := 48.
Definition pad_left (width : nat) (c : Z) (t : text) : text := replicate (width - length t) c ++ t.

(** [{:0w x}]. *)
Definition show_hex_padded (width : nat) (n : Z) : text := pad_left width ZERO_CHAR (show 16 n).

(** ** Laws *)

(** Pieces joined by one separator. *)
Fixpoint join (sep : Z) (ps : list text) : text :=
  match ps with
  | [] => []
  | [p] => p
  | p :: ps => p ++ sep :: join sep ps
  end.

Definition free_of (p : Z -> bool) (t : text) : Prop := Forall (fun c => p c = false) t.

Lemma split_on_nonempty p t : split_on p t <> [].
Proof. destruct t as [|c t]; cbn; [done|]. destruct (p c); [done|]. by destruct (split_on p t). Qed.

Lemma split_on_app p w t :
  free_of p w -> split_on p (w ++ t) = match split_on p t with [] => [w] | x :: xs => (w ++ x) :: xs end.
Proof.
  unfold free_of. induction 1 as [|c w Hc Hw IH]; cbn [app].
  - pose proof (split_on_nonempty p t). by destruct (split_on p t).
  - cbn [split_on]. rewrite Hc, IH. by destruct (split_on p t).
Qed.

Lemma split_on_free p w : free_of p w -> split_on p w = [w].
Proof. intros. rewrite <- (app_nil_r w) at 1. rewrite split_on_app by done. cbn. by rewrite app_nil_r. Qed.

Lemma split_on_sep p w c t : free_of p w -> p c = true -> split_on p (w ++ c :: t) = w :: split_on p t.
Proof. intros Hw Hc. rewrite split_on_app by done. cbn [split_on]. by rewrite Hc, app_nil_r. Qed.

Lemma split_join p sep ps :
  p sep = true -> Forall (free_of p) ps -> ps <> [] -> split_on p (join sep ps) = ps.
Proof.
  intros Hsep. induction 1 as [|w ws Hw Hws IH]; [done|]. intros _.
  destruct ws as [|w' ws]; [by apply split_on_free|].
  change (join sep (w :: w' :: ws)) with (w ++ sep :: join sep (w' :: ws)).
  rewrite split_on_sep by done. f_equal. by apply IH.
Qed.

(** A word followed by white space is the first field. *)
Lemma split_whitespace_word w s t :
  free_of is_whitespace w -> w <> [] -> is_whitespace s = true ->
  split_whitespace (w ++ s :: t) = w :: split_whitespace t.
Proof.
  intros Hw Hne Hs. unfold split_whitespace. rewrite split_on_sep by done. by rewrite filter_cons_True.
Qed.

Lemma split_whitespace_skip s t : is_whitespace s = true -> split_whitespace (s :: t) = split_whitespace t.
Proof.
  intros Hs. unfold split_whitespace. cbn [split_on]. rewrite Hs. by rewrite filter_cons_False by (intros []; done).
Qed.

Lemma split_whitespace_pad n s t :
  is_whitespace s = true -> split_whitespace (replicate n s ++ t) = split_whitespace t.
Proof. intros Hs. induction n as [|n IH]; cbn [replicate app]; [done|]. by rewrite split_whitespace_skip, IH. Qed.

(** ** Laws of the integer parsers *)

Lemma to_digit_char radix d : 0 <= d < radix -> radix <= 36 -> to_digit radix (digit_char d) = Some d.
Proof.
  intros Hd Hr. unfold to_digit, digit_char.
  case_tests; breflect; cbn [andb] in *; try lia; try (f_equal; lia).
Qed.

Lemma digit_char_range d : 0 <= d < 36 -> 48 <= digit_char d < 123 /\ digit_char d <> 58.
Proof. intros. unfold digit_char. destruct (d <? 10) eqn:E; breflect; lia. Qed.

(** Digits are accumulated as long as the value fits. *)
Lemma digits_value_snoc radix max acc n k :
  0 <= n -> 0 < radix <= 36 -> 0 <= k < radix -> 
  digits_value radix max acc [digit_char k] =
    if max <? acc * radix then None else if max <? acc * radix + k then None else Some (acc * radix + k).
Proof. intros. cbn [digits_value]. rewrite to_digit_char by lia. cbn. done. Qed.

Lemma digits_value_app radix max acc a b :
  digits_value radix max acc (a ++ b) = v ← digits_value radix max acc a; digits_value radix max v b.
Proof.
  revert acc. induction a as [|c a IH]; intros acc; cbn [app digits_value]; [done|].
  destruct (to_digit radix c) as [d|]; cbn; [|done].
  destruct (max <? acc * radix); [done|]. destruct (max <? acc * radix + d); [done|]. apply IH.
Qed.

Lemma digits_acc_app fuel radix n acc : digits_acc fuel radix n acc = digits_acc fuel radix n [] ++ acc.
Proof.
  revert n acc. induction fuel as [|fuel IH]; intros n acc; cbn [digits_acc]; [done|].
  destruct (n / radix =? 0); [done|]. rewrite (IH _ (_ :: acc)), (IH _ [_]). by rewrite <- app_assoc.
Qed.

Lemma digits_acc_value fuel radix max n :
  2 <= radix <= 36 -> 0 <= n <= max -> n < radix ^ Z.of_nat fuel -> (0 < fuel)%nat ->
  digits_value radix max 0 (digits_acc fuel radix n []) = Some n.
Proof.
  intros Hr. revert n. induction fuel as [|fuel IH]; intros n Hn Hlt Hf; [lia|].
  cbn [digits_acc]. pose proof (Z.mod_pos_bound n radix ltac:(lia)) as Hm.
  pose proof (Z.div_mod n radix ltac:(lia)) as Hdm.
  destruct (n / radix =? 0) eqn:E; breflect.
  - rewrite (digits_value_snoc radix max 0 0) by lia. rewrite Z.mul_0_l.
    assert (n mod radix = n) as -> by nia.
    rewrite (proj2 (Z.ltb_ge max 0)) by lia. rewrite (proj2 (Z.ltb_ge max (0 + n))) by lia. done.
  - assert (Hd : 0 < n / radix) by (pose proof (Z.div_pos n radix); lia).
    assert (Hf' : (0 < fuel)%nat).
    { destruct fuel; [|lia]. exfalso. change (Z.of_nat 1) with 1 in Hlt. rewrite Z.pow_1_r in Hlt.
      rewrite Z.div_small in Hd by lia. lia. }
    assert (Hs : n / radix < radix ^ Z.of_nat fuel).
    { apply Z.div_lt_upper_bound; [lia|]. rewrite Nat2Z.inj_succ, Z.pow_succ_r in Hlt by lia. lia. }
    rewrite digits_acc_app, digits_value_app, IH by nia. cbn [mbind option_bind].
    rewrite (digits_value_snoc radix max _ 0) by lia.
    rewrite (proj2 (Z.ltb_ge _ _)) by nia. rewrite (proj2 (Z.ltb_ge _ _)) by nia. f_equal. nia.
Qed.

Lemma digits_acc_chars fuel radix n acc :
  2 <= radix <= 36 -> 0 <= n -> Forall (fun c => 48 <= c < 123 /\ c <> 58) acc ->
  Forall (fun c => 48 <= c < 123 /\ c <> 58) (digits_acc fuel radix n acc).
Proof.
  intros Hr. revert n acc. induction fuel as [|fuel IH]; intros n acc Hn Ha; cbn [digits_acc]; [done|].
  pose proof (Z.mod_pos_bound n radix ltac:(lia)).
  assert (Forall (fun c => 48 <= c < 123 /\ c <> 58) (digit_char (n mod radix) :: acc)).
  { constructor; [apply digit_char_range; lia|done]. }
  destruct (n / radix =? 0); [done|]. apply IH; [apply Z.div_pos; lia|done].
Qed.

Lemma digits_acc_nonempty fuel radix n acc : (0 < fuel)%nat \/ acc <> [] -> digits_acc fuel radix n acc <> [].
Proof.
  revert n acc. induction fuel as [|fuel IH]; intros n acc Ha; cbn [digits_acc]; [by destruct Ha as [?|?]; [lia|]|].
  destruct (_ =? 0); [done|]. apply IH. by right.
Qed.

Lemma show_nonempty radix n : show radix n <> [].
Proof. apply digits_acc_nonempty. left. lia. Qed.

Lemma show_chars radix n : 2 <= radix <= 36 -> 0 <= n -> Forall (fun c => 48 <= c < 123 /\ c <> 58) (show radix n).
Proof. intros. apply digits_acc_chars; [lia|lia|constructor]. Qed.

(** No digit is white space, a dot, a colon or a plus sign. *)
Lemma show_free p radix n :
  2 <= radix <= 36 -> 0 <= n -> (forall c, 48 <= c < 123 -> c <> 58 -> p c = false) -> free_of p (show radix n).
Proof. intros Hr Hn Hp. eapply Forall_impl; [by apply show_chars|]. intros c [? ?]. by apply Hp. Qed.

(** Without a sign the parser reads digits. *)
Lemma from_str_radix_digits radix max t :
  t <> [] -> Forall (fun c => 48 <= c < 123 /\ c <> 58) t -> from_str_radix radix max t = digits_value radix max 0 t.
Proof.
  intros Hne Ht. destruct t as [|c [|c' t]]; [done|done|]. cbn [from_str_radix].
  apply Forall_cons in Ht as [Hc _]. by rewrite (proj2 (Z.eqb_neq c PLUS)) by (unfold PLUS; lia).
Qed.

(** Leading zeros do not change the value. *)
Lemma digits_value_zeros radix max k t :
  0 < radix <= 36 -> 0 <= max ->
  digits_value radix max 0 (replicate k ZERO_CHAR ++ t) = digits_value radix max 0 t.
Proof.
  intros Hr Hm. induction k as [|k IH]; cbn [replicate app]; [done|]. cbn [digits_value].
  rewrite (to_digit_char radix 0 : _ -> _ -> to_digit radix ZERO_CHAR = _) by lia. cbn [mbind option_bind].
  rewrite !Z.mul_0_l, (proj2 (Z.ltb_ge max 0)) by lia. rewrite Z.add_0_r, (proj2 (Z.ltb_ge max 0)) by lia. exact IH.
Qed.

(** Printing then parsing gives the number back. *)
Lemma from_str_radix_show radix max n :
  2 <= radix <= 36 -> 0 <= n <= max -> is_u64 n -> from_str_radix radix max (show radix n) = Some n.
Proof.
  intros Hr Hn Hu. rewrite from_str_radix_digits; [|apply show_nonempty|apply show_chars; lia].
  apply digits_acc_value; [done|done| |lia].
  apply Z.lt_le_trans with (2 ^ Z.of_nat 64); [unfold is_u64, two64 in Hu; change (2 ^ Z.of_nat 64) with 18446744073709551616; lia|].
  apply Z.pow_le_mono_l. lia.
Qed.

Lemma from_str_radix_padded width max n :
  0 <= n <= max -> is_u64 n -> from_str_radix 16 max (show_hex_padded width n) = Some n.
Proof.
  intros Hn Hu. unfold show_hex_padded, pad_left. rewrite from_str_radix_digits.
  - rewrite digits_value_zeros by lia. rewrite <- from_str_radix_digits; [|apply show_nonempty|apply show_chars; lia].
    apply from_str_radix_show; lia || done.
  - intros E. apply app_eq_nil in E as [_ E]. by apply show_nonempty in E.
  - apply Forall_app. split; [|apply show_chars; lia]. apply Forall_replicate. unfold ZERO_CHAR. lia.
Qed.

(** A number below [radix ^ k] has at most [k] digits. *)
Lemma length_digits_acc k fuel radix n acc :
  2 <= radix -> 0 <= n < radix ^ Z.of_nat k -> (0 < k)%nat ->
  (length (digits_acc fuel radix n acc) <= k + length acc)%nat.
Proof.
  intros Hr. revert k n acc. induction fuel as [|fuel IH]; intros k n acc Hn Hk; cbn [digits_acc]; [lia|].
  destruct (n / radix =? 0) eqn:E; breflect; cbn [length]; [lia|].
  destruct k as [|[|k]]; [lia| |].
  - change (Z.of_nat 1) with 1 in Hn. rewrite Z.pow_1_r in Hn. rewrite Z.div_small in E by lia. done.
  - etrans; [apply (IH (S k)); [|lia]|cbn [length]; lia].
    split; [apply Z.div_pos; lia|]. apply Z.div_lt_upper_bound; [lia|].
    rewrite Nat2Z.inj_succ, Z.pow_succ_r in Hn by lia. lia.
Qed.

Lemma length_show k radix n :
  2 <= radix -> 0 <= n < radix ^ Z.of_nat k -> (0 < k)%nat -> (length (show radix n) <= k)%nat.
Proof. intros. unfold show. etrans; [by apply (length_digits_acc k)|]. cbn [length]. lia. Qed.

(** ** Characters a text is free of *)

Lemma free_of_app p a b : free_of p (a ++ b) <-> free_of p a /\ free_of p b.
Proof. apply Forall_app. Qed.
Lemma free_of_cons p c t : free_of p (c :: t) <-> p c = false /\ free_of p t.
Proof. unfold free_of. by rewrite Forall_cons. Qed.
Lemma free_of_nil p : free_of p [].
Proof. constructor. Qed.
Lemma free_of_replicate p n c : p c = false -> free_of p (replicate n c).
Proof. intros Hc. unfold free_of. by apply (Forall_replicate (fun c => p c = false)). Qed.
Lemma free_of_join p sep ps : p sep = false -> Forall (free_of p) ps -> free_of p (join sep ps).
Proof.
  intros Hs. induction 1 as [|w ws Hw Hws IH]; [apply free_of_nil|].
  destruct ws as [|w' ws]; [done|]. change (join sep (w :: w' :: ws)) with (w ++ sep :: join sep (w' :: ws)).
  rewrite free_of_app, free_of_cons. done.
Qed.
Lemma free_of_show p radix n :
  2 <= radix <= 36 -> 0 <= n -> (forall c, 48 <= c < 123 -> c <> 58 -> p c = false) -> free_of p (show radix n).
Proof. apply show_free. Qed.
Lemma free_of_padded p width n :
  0 <= n -> (forall c, 48 <= c < 123 -> c <> 58 -> p c = false) -> free_of p (show_hex_padded width n).
Proof.
  intros Hn Hp. apply free_of_app. split; [apply free_of_replicate, Hp; unfold ZERO_CHAR; lia|].
  apply show_free; [lia|done|done].
Qed.
Lemma free_of_weaken p q t : (forall c, q c = true -> p c = true) -> free_of p t -> free_of q t.
Proof.
  intros Hpq H. eapply Forall_impl; [exact H|]. intros c Hc. cbn. destruct (q c) eqn:E; [|done]. apply Hpq in E. congruence.
Qed.

Lemma whitespace_not_digit c : 48 <= c < 123 -> is_whitespace c = false.
Proof. intros. unfold is_whitespace. repeat (apply orb_false_intro); try apply andb_false_iff; lia. Qed.

(** ** Lines *)

(** Lines with the line feed after each. *)
Definition unlines (ls : list text) : text := concat (map (fun l => l ++ [NEWLINE]) ls).

Lemma line_pieces_snoc ls : line_pieces (ls ++ [[]]) = map strip_cr ls.
Proof. induction ls as [|l ls IH]; [done|]. cbn [app]. destruct ls as [|l' ls]; [done|]. cbn [map] in *. by rewrite <- IH. Qed.

Lemma lines_unlines ls :
  Forall (free_of (Z.eqb NEWLINE)) ls -> lines (unlines ls) = map strip_cr ls.
Proof.
  intros H. unfold lines, split_char. rewrite <- line_pieces_snoc. f_equal.
  induction H as [|l ls Hl Hls IH]; [done|]. unfold unlines in *. cbn [map concat app].
  rewrite <- app_assoc. cbn [app]. rewrite split_on_sep by (done || apply Z.eqb_refl). by rewrite IH.
Qed.

Lemma strip_cr_last l c : c <> CARRIAGE_RETURN -> strip_cr (l ++ [c]) = l ++ [c].
Proof. intros Hc. unfold strip_cr. rewrite rev_app_distr. cbn. by rewrite (proj2 (Z.eqb_neq _ _)). Qed.

Lemma suffix_app_r (a b w : text) : (exists p, b = p ++ w) -> exists p, a ++ b = p ++ w.
Proof. intros [p ->]. exists (a ++ p). by rewrite app_assoc. Qed.
Lemma suffix_cons_r c (b w : text) : (exists p, b = p ++ w) -> exists p, c :: b = p ++ w.
Proof. apply (suffix_app_r [c]). Qed.

Lemma strip_cr_word l w : w <> [] -> free_of is_whitespace w -> strip_cr (l ++ w) = l ++ w.
Proof.
  intros Hne Hw. destruct w as [|c w] using rev_ind; [done|]. rewrite app_assoc. apply strip_cr_last.
  apply free_of_app in Hw as [_ Hc]. apply free_of_cons in Hc as [Hc _]. intros ->. done.
Qed.

(** ** Fields *)

(** A word: a field of a line. *)
Definition is_word (t : text) : Prop := t <> [] /\ free_of is_whitespace t.

Lemma split_whitespace_field w s n t :
  is_word w -> is_whitespace s = true -> (0 < n)%nat ->
  split_whitespace (w ++ replicate n s ++ t) = w :: split_whitespace t.
Proof.
  intros [Hne Hw] Hs Hn. destruct n as [|n]; [lia|]. cbn [replicate app].
  rewrite split_whitespace_word by done. by rewrite split_whitespace_pad.
Qed.

Lemma split_whitespace_last w : is_word w -> split_whitespace w = [w].
Proof. intros [Hne Hw]. unfold split_whitespace. rewrite split_on_free by done. by rewrite filter_cons_True. Qed.

Lemma split_whitespace_cons w s t :
  is_word w -> is_whitespace s = true -> split_whitespace (w ++ s :: t) = w :: split_whitespace t.
Proof. intros [? ?]. by apply split_whitespace_word. Qed.

Lemma word_show radix n : 2 <= radix <= 36 -> 0 <= n -> is_word (show radix n).
Proof.
  intros. split; [apply show_nonempty|]. apply show_free; [done|done|]. intros. by apply whitespace_not_digit.
Qed.

Lemma word_padded width n : 0 <= n -> is_word (show_hex_padded width n).
Proof.
  intros. split.
  - intros E. apply app_eq_nil in E as [_ E]. by apply show_nonempty in E.
  - apply free_of_padded; [done|]. intros. by apply whitespace_not_digit.
Qed.

Lemma word_newline w : is_word w -> free_of (Z.eqb NEWLINE) w.
Proof. intros [_ H]. revert H. apply free_of_weaken. intros c Hc. apply Z.eqb_eq in Hc. by subst. Qed.

(** ** Upper-case hexadecimal *)

Definition ascii_upper (c : Z) : Z := if (97 <=? c) && (c <=? 122) then c - 32 else c.

(** [{:0wX}]. *)
Definition show_HEX_padded (width : nat) (n : Z) : text := map ascii_upper (show_hex_padded width n).

Lemma to_digit_upper radix c : to_digit radix (ascii_upper c) = to_digit radix c.
Proof. unfold to_digit, ascii_upper. case_tests; breflect; cbn [andb] in *; try lia; f_equal; lia. Qed.

Lemma digits_value_upper radix max t : forall acc, digits_value radix max acc (map ascii_upper t) = digits_value radix max acc t.
Proof.
  induction t as [|c t IH]; intros acc; cbn [map digits_value]; [done|]. rewrite to_digit_upper.
  destruct (to_digit radix c); cbn; [|done]. by rewrite IH.
Qed.

Lemma ascii_upper_range c : 48 <= c < 123 -> c <> 58 -> 48 <= ascii_upper c < 123 /\ ascii_upper c <> 58.
Proof. intros. unfold ascii_upper. destruct (_ && _) eqn:E; breflect; lia. Qed.

Lemma padded_chars width n : 0 <= n -> Forall (fun c => 48 <= c < 123 /\ c <> 58) (show_hex_padded width n).
Proof.
  intros. apply Forall_app. split; [|apply show_chars; lia]. apply Forall_replicate. unfold ZERO_CHAR. lia.
Qed.

Lemma HEX_chars width n : 0 <= n -> Forall (fun c => 48 <= c < 123 /\ c <> 58) (show_HEX_padded width n).
Proof.
  intros. apply Forall_map. eapply Forall_impl; [by apply padded_chars|]. intros c [? ?]. by apply ascii_upper_range.
Qed.

Lemma word_HEX width n : 0 <= n -> is_word (show_HEX_padded width n).
Proof.
  intros Hn. split.
  - destruct (word_padded width n Hn) as [Hne _]. intros E. by apply fmap_nil_inv in E.
  - eapply Forall_impl; [by apply HEX_chars|]. intros c [? ?]. by apply whitespace_not_digit.
Qed.

Lemma from_str_radix_HEX width max n :
  0 <= n <= max -> is_u64 n -> from_str_radix 16 max (show_HEX_padded width n) = Some n.
Proof.
  intros Hn Hu. destruct (word_HEX width n ltac:(lia)) as [Hne _].
  rewrite from_str_radix_digits by (done || (apply HEX_chars; lia)).
  unfold show_HEX_padded. rewrite digits_value_upper. rewrite <- from_str_radix_digits.
  - by apply from_str_radix_padded.
  - by destruct (word_padded width n ltac:(lia)).
  - apply padded_chars; lia.
Qed.

(** ** Case *)

Lemma to_digit_lower radix c : to_digit radix (ascii_lower c) = to_digit radix c.
Proof. unfold to_digit, ascii_lower. case_tests; breflect; cbn [andb] in *; try lia; f_equal; lia. Qed.

Lemma digits_value_lower radix max t : forall acc, digits_value radix max acc (map ascii_lower t) = digits_value radix max acc t.
Proof.
  induction t as [|c t IH]; intros acc; cbn [map digits_value]; [done|]. rewrite to_digit_lower.
  destruct (to_digit radix c); cbn; [|done]. by rewrite IH.
Qed.

(** Hexadecimal digits go up to the letter f. *)
Lemma hex_digits_acc fuel n acc :
  0 <= n -> Forall (fun c => 48 <= c <= 102) acc -> Forall (fun c => 48 <= c <= 102) (digits_acc fuel 16 n acc).
Proof.
  revert n acc. induction fuel as [|fuel IH]; intros n acc Hn Ha; cbn [digits_acc]; [done|].
  pose proof (Z.mod_pos_bound n 16 ltac:(lia)).
  assert (Forall (fun c => 48 <= c <= 102) (digit_char (n mod 16) :: acc)).
  { constructor; [|done]. unfold digit_char. destruct (_ <? 10) eqn:E; breflect; lia. }
  destruct (n / 16 =? 0); [done|]. apply IH; [apply Z.div_pos; lia|done].
Qed.

Lemma hex_padded_chars w n : 0 <= n -> Forall (fun c => 48 <= c <= 102) (show_hex_padded w n).
Proof.
  intros. apply Forall_app. split; [apply Forall_replicate; unfold ZERO_CHAR; lia|]. by apply hex_digits_acc.
Qed.

(** ** UTF-8

    The length of the first character of a non-empty byte string and whether it is well
    formed; for an ill-formed one, the length of what [Utf8Chunks] replaces as one. *)

Definition is_continuation (b : Z) : bool := (0x80 <=? b) && (b <=? 0xBF).

(** The range the second byte must be in after the lead [b], and how many follow it. *)
Definition utf8_lead (b : Z) : option (Z * Z * nat) :=
  if (0xC2 <=? b) && (b <=? 0xDF) then Some (0x80, 0xBF, 0%nat) else
  if b =? 0xE0 then Some (0xA0, 0xBF, 1%nat) else
  if b =? 0xED then Some (0x80, 0x9F, 1%nat) else
  if (0xE1 <=? b) && (b <=? 0xEF) then Some (0x80, 0xBF, 1%nat) else
  if b =? 0xF0 then Some (0x90, 0xBF, 2%nat) else
  if (0xF1 <=? b) && (b <=? 0xF3) then Some (0x80, 0xBF, 2%nat) else
  if b =? 0xF4 then Some (0x80, 0x8F, 2%nat) else None.

(** [n] continuation bytes; [seen] bytes precede them. *)
Fixpoint utf8_rest (n seen : nat) (bs : list Z) : nat * bool :=
  match n with
  | O => (seen, true)
  | S n => match bs with
           | b :: bs => if is_continuation b then utf8_rest n (S seen) bs else (seen, false)
           | [] => (seen, false)
           end
  end.

Definition utf8_char (b : Z) (bs : list Z) : nat * bool :=
  if b <? 0x80 then (1%nat, true) else
  match utf8_lead b, bs with
  | Some (lo, hi, n), b2 :: bs => if (lo <=? b2) && (b2 <=? hi) then utf8_rest n 2 bs else (1%nat, false)
  | _, _ => (1%nat, false)
  end.

(** [str::from_utf8(..).is_ok()]; the fuel is the length. *)
Fixpoint utf8_valid_loop (fuel : nat) (bs : list Z) : bool :=
  match fuel, bs with
  | _, [] => true
  | O, _ => false
  | S fuel, b :: rest => let '(n, ok) := utf8_char b rest in ok && utf8_valid_loop fuel (drop n bs)
  end.
Definition utf8_valid (bs : list Z) : bool := utf8_valid_loop (length bs) bs.

Definition REPLACEMENT : text := [0xEF; 0xBF; 0xBD].

(** [to_string_lossy]. *)
Fixpoint lossy_loop (fuel : nat) (bs : list Z) : text :=
  match fuel, bs with
  | _, [] => []
  | O, _ => []
  | S fuel, b :: rest =>
      let '(n, ok) := utf8_char b rest in (if ok then take n bs else REPLACEMENT) ++ lossy_loop fuel (drop n bs)
  end.
Definition to_string_lossy (bs : list Z) : text := lossy_loop (length bs) bs.

Lemma utf8_rest_length n seen bs : (seen <= (utf8_rest n seen bs).1)%nat.
Proof.
  revert seen bs. induction n as [|n IH]; intros seen bs; cbn [utf8_rest]; [done|].
  destruct bs as [|b bs]; [done|]. destruct (is_continuation b); [|done]. specialize (IH (S seen) bs). lia.
Qed.

Lemma utf8_char_length b bs : (1 <= (utf8_char b bs).1)%nat.
Proof.
  unfold utf8_char. destruct (b <? 0x80); [done|]. destruct (utf8_lead b) as [[[lo hi] n]|]; [|done].
  destruct bs as [|b2 bs]; [done|]. destruct (_ && _); [|done]. pose proof (utf8_rest_length n 2 bs). cbn [fst] in *. lia.
Qed.

(** A well-formed string is its own lossy reading, and none introduces a NUL. *)
Lemma lossy_valid bs : utf8_valid bs = true -> to_string_lossy bs = bs.
Proof.
  unfold utf8_valid, to_string_lossy. set (fuel := length bs). clearbody fuel. revert bs.
  induction fuel as [|fuel IH]; intros [|b rest]; try done. cbn [utf8_valid_loop lossy_loop].
  destruct (utf8_char b rest) as [n ok]. intros [-> H]%andb_true_iff. rewrite IH by done. by rewrite take_drop.
Qed.

Lemma lossy_free p bs : free_of p REPLACEMENT -> free_of p bs -> free_of p (to_string_lossy bs).
Proof.
  intros Hr. unfold to_string_lossy. set (fuel := length bs). clearbody fuel. revert bs.
  induction fuel as [|fuel IH]; intros [|b rest] H; try constructor. cbn [lossy_loop].
  destruct (utf8_char b rest) as [n ok]. apply free_of_app. split; [|by apply IH, Forall_drop].
  destruct ok; [by apply Forall_take|done].
Qed.

(** The fuel is enough: every turn takes a byte. *)
Lemma lossy_fuel fuel bs : (length bs <= fuel)%nat -> lossy_loop fuel bs = to_string_lossy bs.
Proof.
  unfold to_string_lossy. remember (length bs) as k eqn:E. revert fuel k E.
  enough (forall f1 f2 l, (length l <= f1)%nat -> (length l <= f2)%nat -> lossy_loop f1 l = lossy_loop f2 l) as H
    by (intros fuel k ->; intros; by apply H).
  induction f1 as [|f1 IH]; intros f2 [|b rest] H1 H2; cbn [length] in *; try lia.
  - by destruct f2.
  - by destruct f2.
  - destruct f2 as [|f2]; [lia|]. cbn [lossy_loop]. pose proof (utf8_char_length b rest) as Hn.
    destruct (utf8_char b rest) as [n ok]. cbn [fst] in Hn. f_equal. apply IH; rewrite length_drop; cbn [length]; lia.
Qed.
