(* ===== verification/Seq.v ===== *)
(** * TCP sequence-number comparisons ([tcp_seq.rs])

    Sequence numbers are [u32] values compared through the sign of their
    wrapped difference.  The theory below relates them to unbounded stream
    positions: [u32 P] is the number on the wire of the byte at position [P]. *)

From S2P Require Import Prelude.

(** ** Definitions *)

Definition seq_lt (a b : Z) : bool := as_i32 (wsub32 a b) <? 0.
Definition seq_le (a b : Z) : bool := as_i32 (wsub32 a b) <=? 0.
Definition seq_gt (a b : Z) : bool := 0 <? as_i32 (wsub32 a b).
Definition seq_ge (a b : Z) : bool := 0 <=? as_i32 (wsub32 a b).

Definition in_window (start seq len : Z) : bool :=
  if len =? 0 then false
  else
    let offset := wsub32 seq start in
    offset <? len.

(** Distance of [x] ahead of [base] in the sequence circle. *)
Definition off (base x : Z) : Z := wsub32 x base.

(** Two stream positions are close when the comparison between their wire
    numbers is meaningful: less than half the circle apart. *)
Definition close (A B : Z) : Prop := - two31 < A - B < two31.

(** ** Stream positions *)

Lemma as_i32_small d : - two31 <= d < two31 -> as_i32 (u32 d) = d.
Proof.
  intros H. unfold as_i32, u32, two31, two32 in *.
  destruct (Z.ltb_spec (d mod 4294967296) 2147483648) as [Hlt|Hge].
  - destruct (Z_lt_ge_dec d 0).
    + rewrite <- (Z_mod_plus_full d 1), Z.mod_small in Hlt by lia. lia.
    + rewrite Z.mod_small by lia. reflexivity.
  - destruct (Z_lt_ge_dec d 0).
    + rewrite <- (Z_mod_plus_full d 1), Z.mod_small by lia. lia.
    + rewrite Z.mod_small in Hge by lia. lia.
Qed.

Section Lift.
Context (A B : Z) (HAB : close A B).

Lemma diff_lift : as_i32 (wsub32 (u32 A) (u32 B)) = A - B.
Proof. rewrite wsub32_u32. apply as_i32_small. unfold close in HAB. lia. Qed.

Lemma seq_lt_lift : seq_lt (u32 A) (u32 B) = (A <? B).
Proof. unfold seq_lt. rewrite diff_lift. apply eq_true_iff_eq. rewrite !Z.ltb_lt. lia. Qed.
Lemma seq_le_lift : seq_le (u32 A) (u32 B) = (A <=? B).
Proof. unfold seq_le. rewrite diff_lift. apply eq_true_iff_eq. rewrite !Z.leb_le. lia. Qed.
Lemma seq_gt_lift : seq_gt (u32 A) (u32 B) = (B <? A).
Proof. unfold seq_gt. rewrite diff_lift. apply eq_true_iff_eq. rewrite !Z.ltb_lt. lia. Qed.
Lemma seq_ge_lift : seq_ge (u32 A) (u32 B) = (B <=? A).
Proof. unfold seq_ge. rewrite diff_lift. apply eq_true_iff_eq. rewrite !Z.leb_le. lia. Qed.

Lemma in_window_lift len :
  0 <= len <= two31 -> in_window (u32 A) (u32 B) len = ((A <=? B) && (B <? A + len))%bool.
Proof.
  intros Hlen. unfold in_window, close in *.
  destruct (Z.eqb_spec len 0) as [->|Hne].
  { symmetry. apply andb_false_iff. destruct (Z.leb_spec A B); [right|by left]. apply Z.ltb_ge. lia. }
  rewrite wsub32_u32. apply eq_true_iff_eq.
  rewrite andb_true_iff, Z.leb_le, !Z.ltb_lt. unfold u32, two31, two32 in *.
  destruct (Z_lt_ge_dec B A).
  - rewrite <- (Z_mod_plus_full (B - A) 1), Z.mod_small by lia. lia.
  - rewrite Z.mod_small by lia. lia.
Qed.
End Lift.

(** ** Offsets from a base *)

Lemma off_range base x : is_u32 (off base x).
Proof. apply wsub32_range. Qed.

Lemma off_base base : off base base = 0.
Proof. unfold off, wsub32. by rewrite Z.sub_diag. Qed.

Lemma u32_off base x : is_u32 x -> u32 (base + off base x) = x.
Proof.
  intros H. unfold off, wsub32. rewrite u32_add_r.
  replace (base + (x - base)) with x by lia. by apply u32_id.
Qed.

Lemma off_inj base x y : is_u32 x -> is_u32 y -> off base x = off base y -> x = y.
Proof. intros Hx Hy E. rewrite <- (u32_off base x), <- (u32_off base y) by done. by rewrite E. Qed.

Lemma off_wadd base x k : 0 <= off base x + k < two32 -> off base (wadd32 x k) = off base x + k.
Proof.
  intros H. unfold off, wsub32, wadd32 in *. rewrite u32_sub_l.
  replace (x + k - base) with (x - base + k) by lia.
  rewrite <- u32_add_l. by apply u32_id.
Qed.

Lemma wsub_off base x y : off base y <= off base x -> wsub32 x y = off base x - off base y.
Proof.
  intros H. unfold off, wsub32 in *.
  replace (x - y) with ((x - base) - (y - base)) by lia.
  rewrite <- u32_sub_l, <- u32_sub_r. apply u32_id.
  pose proof (u32_range (x - base)). pose proof (u32_range (y - base)). unfold is_u32 in *. lia.
Qed.

Section OffOrder.
Context (base x y : Z) (Hx : is_u32 x) (Hy : is_u32 y)
        (Hxy : close (off base x) (off base y)).

Lemma off_close : close (base + off base x) (base + off base y).
Proof. unfold close in *. lia. Qed.

Lemma seq_lt_off : seq_lt x y = (off base x <? off base y).
Proof.
  rewrite <- (u32_off base x), <- (u32_off base y) at 1 by done.
  rewrite seq_lt_lift by apply off_close. apply eq_true_iff_eq. rewrite !Z.ltb_lt. lia.
Qed.
Lemma seq_le_off : seq_le x y = (off base x <=? off base y).
Proof.
  rewrite <- (u32_off base x), <- (u32_off base y) at 1 by done.
  rewrite seq_le_lift by apply off_close. apply eq_true_iff_eq. rewrite !Z.leb_le. lia.
Qed.
End OffOrder.

Lemma seq_le_refl x : seq_le x x = true.
Proof. unfold seq_le, wsub32. rewrite Z.sub_diag. reflexivity. Qed.
Lemma seq_lt_irrefl x : seq_lt x x = false.
Proof. unfold seq_lt, wsub32. rewrite Z.sub_diag. reflexivity. Qed.

(** Outside the ambiguous half-circle distance, [seq_lt] is the strict order
    whose reflexive closure is [seq_le]. *)
Lemma seq_le_lt_negb a b : seq_le a b = negb (seq_gt a b).
Proof. unfold seq_le, seq_gt. by rewrite Z.leb_antisym. Qed.
Lemma seq_ge_lt_negb a b : seq_ge a b = negb (seq_lt a b).
Proof. unfold seq_ge, seq_lt. by rewrite Z.leb_antisym. Qed.

Lemma seq_lt_le a b : seq_lt a b = true -> seq_le a b = true.
Proof. unfold seq_lt, seq_le. rewrite Z.ltb_lt, Z.leb_le. lia. Qed.

Lemma in_window_spec start s len :
  is_u32 len -> in_window start s len = true <-> off start s < len.
Proof.
  intros Hl. unfold in_window, off.
  pose proof (wsub32_range s start) as Hr. unfold is_u32 in *.
  destruct (Z.eqb_spec len 0) as [->|]; [split; [done|lia]|]. by rewrite Z.ltb_lt.
Qed.

(** ** Properties *)

(** The four wrap-safe comparators and the window test decide exactly the
    order of the unbounded stream positions behind the two sequence numbers,
    whenever those positions are less than 2^31 bytes apart (windows of up to
    2^31 bytes). *)
Theorem seq_compare_refines_stream (A B len : Z) (HAB : close A B) (Hlen : 0 <= len <= two31) :
  seq_lt (u32 A) (u32 B) = (A <? B) /\
  seq_le (u32 A) (u32 B) = (A <=? B) /\
  seq_gt (u32 A) (u32 B) = (B <? A) /\
  seq_ge (u32 A) (u32 B) = (B <=? A) /\
  in_window (u32 A) (u32 B) len = ((A <=? B) && (B <? A + len))%bool.
Proof.
  split_and!; [by apply seq_lt_lift|by apply seq_le_lift|by apply seq_gt_lift|by apply seq_ge_lift|].
  by apply in_window_lift.
Qed.

Lemma seq_compare_refines_stream_witness :
  close 4294967290 4294967300 /\
  seq_lt (u32 4294967290) (u32 4294967300) = true /\
  in_window (u32 4294967290) (u32 4294967300) 11 = true.
Proof.
  assert (close 4294967290 4294967300) as Hc by (unfold close, two31; lia).
  pose proof (seq_compare_refines_stream 4294967290 4294967300 11 Hc ltac:(unfold two31; lia))
    as (H1 & _ & _ & _ & H2).
  split_and!; [exact Hc|exact H1|exact H2].
Defined.
