(* ===== verification/Bytes.v ===== *)
(** * Byte buffers

    Slices are [list Z] of byte values.  A read [bytes !! i] that yields
    [None] is an out-of-bounds index, which panics in the source; the decoders
    are written in the option monad so that panics are visible. *)

From S2P Require Import Prelude.

(** ** Big- and little-endian integers *)

(** [u16::to_be_bytes], [u32::to_be_bytes]. *)
Definition to_be16 (v : Z) : list Z := [(v / 256) mod 256; v mod 256].
Definition to_be32 (v : Z) : list Z :=
  [(v / 16777216) mod 256; (v / 65536) mod 256; (v / 256) mod 256; v mod 256].

(** [u16::from_be_bytes], [u32::from_be_bytes]. *)
Definition from_be16 (a b : Z) : Z := a * 256 + b.
Definition from_be32 (a b c d : Z) : Z := ((a * 256 + b) * 256 + c) * 256 + d.

Definition is_bytes (l : list Z) : Prop := Forall is_u8 l.

(** Reads of two and four consecutive bytes at an index. *)
Definition read_be16 (bytes : list Z) (i : nat) : option Z :=
  a ← bytes !! i; b ← bytes !! (i + 1)%nat; Some (from_be16 a b).
Definition read_be32 (bytes : list Z) (i : nat) : option Z :=
  a ← bytes !! i; b ← bytes !! (i + 1)%nat;
  c ← bytes !! (i + 2)%nat; d ← bytes !! (i + 3)%nat;
  Some (from_be32 a b c d).

(** [&bytes[i..j]]. *)
Definition slice (i j : nat) (bytes : list Z) : list Z := take (j - i) (drop i bytes).

(** [out[i..i + bs.len()].copy_from_slice(bs)] and [out[i] = b]. *)
Definition copy_at (i : nat) (bs out : list Z) : list Z :=
  take i out ++ bs ++ drop (i + length bs) out.
Definition set_byte (i : nat) (b : Z) (out : list Z) : list Z := copy_at i [b] out.

(** ** Lemmas *)

Lemma length_to_be16 v : length (to_be16 v) = 2%nat.
Proof. reflexivity. Qed.
Lemma length_to_be32 v : length (to_be32 v) = 4%nat.
Proof. reflexivity. Qed.

Lemma from_to_be16 v : is_u16 v -> from_be16 ((v / 256) mod 256) (v mod 256) = v.
Proof.
  intros H. unfold is_u16, two16, from_be16 in *.
  rewrite (Z.mod_small (v / 256)).
  - rewrite Z.mul_comm. symmetry. apply Z.div_mod. lia.
  - split; [apply Z.div_pos; lia|apply Z.div_lt_upper_bound; lia].
Qed.

Lemma from_to_be32 v : is_u32 v ->
  from_be32 ((v / 16777216) mod 256) ((v / 65536) mod 256) ((v / 256) mod 256) (v mod 256) = v.
Proof.
  intros H. unfold is_u32, two32, from_be32 in *.
  change 16777216 with (256 * (256 * 256)). change 65536 with (256 * 256).
  rewrite <- !Z.div_div by lia.
  rewrite (Z.mod_small (v / 256 / 256 / 256)).
  - pose proof (Z.div_mod v 256). pose proof (Z.div_mod (v / 256) 256).
    pose proof (Z.div_mod (v / 256 / 256) 256). lia.
  - split; [repeat apply Z.div_pos; lia|]. repeat (apply Z.div_lt_upper_bound; [lia|]). lia.
Qed.

Lemma mod_byte x : is_u8 (x mod 256).
Proof. unfold is_u8, two8. apply Z.mod_pos_bound. lia. Qed.
#[export] Hint Resolve mod_byte : width.

Ltac bytes_tac :=
  unfold is_bytes in *;
  repeat first [ apply Forall_nil_2 | apply Forall_cons_2 | apply Forall_app_2 ];
  eauto with width.

Lemma to_be16_bytes v : is_bytes (to_be16 v).
Proof. unfold to_be16. bytes_tac. Qed.
Lemma to_be32_bytes v : is_bytes (to_be32 v).
Proof. unfold to_be32. bytes_tac. Qed.

Lemma from_be16_range a b : is_u8 a -> is_u8 b -> is_u16 (from_be16 a b).
Proof. unfold from_be16. width_lia. Qed.
Lemma from_be32_range a b c d :
  is_u8 a -> is_u8 b -> is_u8 c -> is_u8 d -> is_u32 (from_be32 a b c d).
Proof. unfold from_be32. width_lia. Qed.

#[export] Hint Resolve from_be16_range from_be32_range to_be16_bytes to_be32_bytes : width.

Lemma is_bytes_lookup l i b : is_bytes l -> l !! i = Some b -> is_u8 b.
Proof. intros H. apply Forall_lookup_1. exact H. Qed.
#[export] Hint Resolve is_bytes_lookup : width.

Lemma read_be16_range l i v : is_bytes l -> read_be16 l i = Some v -> is_u16 v.
Proof.
  intros Hl H. unfold read_be16 in H. simplify_option_eq. eauto with width.
Qed.
Lemma read_be32_range l i v : is_bytes l -> read_be32 l i = Some v -> is_u32 v.
Proof.
  intros Hl H. unfold read_be32 in H. simplify_option_eq. apply from_be32_range; eauto with width.
Qed.

Lemma lookup_some {A} (l : list A) i : (i < length l)%nat -> exists x, l !! i = Some x.
Proof. intros H. apply lookup_lt_is_Some_2 in H as [x Hx]. eauto. Qed.

Lemma read_be16_some l i : (i + 1 < length l)%nat -> exists v, read_be16 l i = Some v.
Proof.
  intros H. unfold read_be16.
  destruct (lookup_some l i ltac:(lia)) as [a ->], (lookup_some l (i + 1) ltac:(lia)) as [b ->].
  cbn. eauto.
Qed.
Lemma read_be32_some l i : (i + 3 < length l)%nat -> exists v, read_be32 l i = Some v.
Proof.
  intros H. unfold read_be32.
  destruct (lookup_some l i ltac:(lia)) as [a ->], (lookup_some l (i + 1) ltac:(lia)) as [b ->],
    (lookup_some l (i + 2) ltac:(lia)) as [c ->], (lookup_some l (i + 3) ltac:(lia)) as [d ->].
  cbn. eauto.
Qed.

Lemma read_be16_drop l i k : read_be16 (drop i l) k = read_be16 l (i + k).
Proof. unfold read_be16. rewrite !lookup_drop. by rewrite Nat.add_assoc. Qed.
Lemma read_be32_drop l i k : read_be32 (drop i l) k = read_be32 l (i + k).
Proof. unfold read_be32. rewrite !lookup_drop. by rewrite !Nat.add_assoc. Qed.

(** Reading what was written. *)
Lemma read_be16_app p v q : is_u16 v -> read_be16 (p ++ to_be16 v ++ q) (length p) = Some v.
Proof.
  intros H. rewrite <- (Nat.add_0_r (length p)), <- read_be16_drop, drop_app_length.
  unfold read_be16, to_be16. cbn. by rewrite from_to_be16.
Qed.
Lemma read_be32_app p v q : is_u32 v -> read_be32 (p ++ to_be32 v ++ q) (length p) = Some v.
Proof.
  intros H. rewrite <- (Nat.add_0_r (length p)), <- read_be32_drop, drop_app_length.
  unfold read_be32, to_be32. cbn. by rewrite from_to_be32.
Qed.

(** A cursor write after a completed prefix extends the prefix. *)
Lemma copy_at_app p bs rest :
  copy_at (length p) bs (p ++ rest) = (p ++ bs) ++ drop (length bs) rest.
Proof.
  unfold copy_at. rewrite take_app_length.
  rewrite drop_app_add. by rewrite <- app_assoc.
Qed.

Lemma copy_at_app_eq i p bs rest :
  i = length p -> copy_at i bs (p ++ rest) = (p ++ bs) ++ drop (length bs) rest.
Proof. intros ->. apply copy_at_app. Qed.

Lemma length_copy_at i bs out :
  (i + length bs <= length out)%nat -> length (copy_at i bs out) = length out.
Proof.
  intros H. unfold copy_at. rewrite !length_app, length_take, length_drop. lia.
Qed.

Lemma read_be16_at l i p v q :
  l = p ++ to_be16 v ++ q -> i = length p -> is_u16 v -> read_be16 l i = Some v.
Proof. intros -> ->. apply read_be16_app. Qed.
Lemma read_be32_at l i p v q :
  l = p ++ to_be32 v ++ q -> i = length p -> is_u32 v -> read_be32 l i = Some v.
Proof. intros -> ->. apply read_be32_app. Qed.

(** ** Checked slices *)

(** [&bytes[i..j]] with its bounds check. *)
Definition get_slice (i j : nat) (bytes : list Z) : option (list Z) :=
  if ((i <=? j) && (j <=? length bytes))%nat then Some (slice i j bytes) else None.

Lemma get_slice_some i j bytes :
  (i <= j <= length bytes)%nat -> get_slice i j bytes = Some (slice i j bytes).
Proof.
  intros H. unfold get_slice. rewrite (proj2 (Nat.leb_le i j)), (proj2 (Nat.leb_le j _)) by lia.
  reflexivity.
Qed.

Lemma is_bytes_slice i j l : is_bytes l -> is_bytes (slice i j l).
Proof. intros H. unfold slice, is_bytes. by apply Forall_take, Forall_drop. Qed.

Lemma length_slice i j l : (j <= length l)%nat -> length (slice i j l) = (j - i)%nat.
Proof. intros H. unfold slice. rewrite length_take, length_drop. lia. Qed.

Lemma slice_app_mid p m q i j :
  i = length p -> j = (length p + length m)%nat -> slice i j (p ++ m ++ q) = m.
Proof.
  intros -> ->. unfold slice. rewrite drop_app_length.
  replace (length p + length m - length p)%nat with (length m) by lia. apply take_app_length.
Qed.

Lemma lookup_app_at (p : list Z) x q i : i = length p -> (p ++ x :: q) !! i = Some x.
Proof. intros ->. by apply list_lookup_middle. Qed.

Lemma read_be16_split p a b q i : i = length p -> read_be16 (p ++ a :: b :: q) i = Some (from_be16 a b).
Proof.
  intros ->. rewrite <- (Nat.add_0_r (length p)), <- read_be16_drop, drop_app_length. reflexivity.
Qed.
