(* ===== verification/Options.v ===== *)
(** * TCP option encode and decode ([tcp_options.rs]) *)

From S2P Require Import Prelude.
From S2P Require Import Bytes.

(** ** Data *)

Definition OPT_END : Z := 0.
Definition OPT_NOP : Z := 1.
Definition OPT_MSS : Z := 2.
Definition OPT_WSCALE : Z := 3.
Definition OPT_SACK_PERMITTED : Z := 4.
Definition OPT_SACK : Z := 5.
Definition OPT_TIMESTAMP : Z := 8.

Definition LEN_MSS : nat := 4.
Definition LEN_WSCALE : nat := 3.
Definition LEN_SACK_PERMITTED : nat := 2.
Definition LEN_TIMESTAMP : nat := 10.

Definition MAX_SACK_BLOCKS_EMIT : nat := 3.
Definition MAX_SACK_BLOCKS_DECODE : nat := 4.

Record SackBlock := mkSackBlock { sb_left : Z; sb_right : Z }.

#[export] Instance SackBlock_eq_dec : EqDecision SackBlock.
Proof. solve_decision. Defined.

Record TcpOpts := mkTcpOpts {
  mss : option Z;
  wscale : option Z;
  sack_permitted : bool;
  timestamps : option (Z * Z);
  sack_blocks : list SackBlock;
  sack_block_count : nat;
  ws_clamped : bool;
}.

#[export] Instance TcpOpts_eta : Settable TcpOpts := fun o =>
  mkTcpOpts (mss o) (wscale o) (sack_permitted o) (timestamps o)
            (sack_blocks o) (sack_block_count o) (ws_clamped o).

Definition zero_blocks : list SackBlock := replicate MAX_SACK_BLOCKS_DECODE (mkSackBlock 0 0).

(** [TcpOpts::default()]. *)
Definition TcpOpts_default : TcpOpts := mkTcpOpts None None false None zero_blocks 0 false.

Inductive OptionParseError := ShortUnknown | BadKnownLen | Truncated | BadSackBlockCount.

(** ** Operations *)

Definition push_sack_block (o : TcpOpts) (block : SackBlock) : bool * TcpOpts :=
  if (MAX_SACK_BLOCKS_EMIT <=? sack_block_count o)%nat then (false, o)
  else (true, o <| sack_blocks ::= <[sack_block_count o := block]> |>
                <| sack_block_count ::= S |>).

Definition push_sack_block_decode (o : TcpOpts) (block : SackBlock) : bool * TcpOpts :=
  if (MAX_SACK_BLOCKS_DECODE <=? sack_block_count o)%nat then (false, o)
  else (true, o <| sack_blocks ::= <[sack_block_count o := block]> |>
                <| sack_block_count ::= S |>).

Definition encoded_len (o : TcpOpts) : nat :=
  let n := 0%nat in
  let n := match mss o with Some _ => n + LEN_MSS | None => n end%nat in
  let n := match wscale o with Some _ => n + (1 + LEN_WSCALE) | None => n end%nat in
  let n := match sack_permitted o, timestamps o with
           | true, Some _ => n + (LEN_SACK_PERMITTED + LEN_TIMESTAMP)
           | true, None => n + (2 + LEN_SACK_PERMITTED)
           | false, Some _ => n + (2 + LEN_TIMESTAMP)
           | false, None => n
           end%nat in
  if (0 <? sack_block_count o)%nat then (n + (2 + 2 + 8 * sack_block_count o))%nat else n.

(** The SACK-block writing loop of [encode]. *)
Fixpoint encode_blocks (blocks : list SackBlock) (i : nat) (out : list Z) : nat * list Z :=
  match blocks with
  | [] => (i, out)
  | block :: rest =>
      let out := copy_at i (to_be32 (sb_left block)) out in
      let out := copy_at (i + 4) (to_be32 (sb_right block)) out in
      encode_blocks rest (i + 8) out
  end.

(** The four groups [encode] emits, each moving the cursor [i] over [out]. *)
Definition encode_mss (o : TcpOpts) (st : nat * list Z) : nat * list Z :=
  let '(i, out) := st in
  match mss o with
  | Some m =>
      let out := set_byte i OPT_MSS out in
      let out := set_byte (i + 1) (Z.of_nat LEN_MSS) out in
      let out := copy_at (i + 2) (to_be16 m) out in
      ((i + LEN_MSS)%nat, out)
  | None => (i, out)
  end.

Definition encode_wscale (o : TcpOpts) (st : nat * list Z) : nat * list Z :=
  let '(i, out) := st in
  match wscale o with
  | Some ws =>
      let out := set_byte i OPT_NOP out in
      let out := set_byte (i + 1) OPT_WSCALE out in
      let out := set_byte (i + 2) (Z.of_nat LEN_WSCALE) out in
      let out := set_byte (i + 3) ws out in
      ((i + (1 + LEN_WSCALE))%nat, out)
  | None => (i, out)
  end.

Definition encode_sackp_ts (o : TcpOpts) (st : nat * list Z) : nat * list Z :=
  let '(i, out) := st in
  match sack_permitted o, timestamps o with
  | true, Some (tsval, tsecr) =>
      let out := set_byte i OPT_SACK_PERMITTED out in
      let out := set_byte (i + 1) (Z.of_nat LEN_SACK_PERMITTED) out in
      let i := (i + LEN_SACK_PERMITTED)%nat in
      let out := set_byte i OPT_TIMESTAMP out in
      let out := set_byte (i + 1) (Z.of_nat LEN_TIMESTAMP) out in
      let out := copy_at (i + 2) (to_be32 tsval) out in
      let out := copy_at (i + 6) (to_be32 tsecr) out in
      ((i + LEN_TIMESTAMP)%nat, out)
  | true, None =>
      let out := set_byte i OPT_NOP out in
      let out := set_byte (i + 1) OPT_NOP out in
      let out := set_byte (i + 2) OPT_SACK_PERMITTED out in
      let out := set_byte (i + 3) (Z.of_nat LEN_SACK_PERMITTED) out in
      ((i + (2 + LEN_SACK_PERMITTED))%nat, out)
  | false, Some (tsval, tsecr) =>
      let out := set_byte i OPT_NOP out in
      let out := set_byte (i + 1) OPT_NOP out in
      let i := (i + 2)%nat in
      let out := set_byte i OPT_TIMESTAMP out in
      let out := set_byte (i + 1) (Z.of_nat LEN_TIMESTAMP) out in
      let out := copy_at (i + 2) (to_be32 tsval) out in
      let out := copy_at (i + 6) (to_be32 tsecr) out in
      ((i + LEN_TIMESTAMP)%nat, out)
  | false, None => (i, out)
  end.

Definition encode_sack (o : TcpOpts) (st : nat * list Z) : nat * list Z :=
  let '(i, out) := st in
  if (0 <? sack_block_count o)%nat then
    let n := sack_block_count o in
    let out := set_byte i OPT_NOP out in
    let out := set_byte (i + 1) OPT_NOP out in
    let out := set_byte (i + 2) OPT_SACK out in
    let out := set_byte (i + 3) (u8 (Z.of_nat (2 + 8 * n))) out in
    encode_blocks (take n (sack_blocks o)) (i + 4) out
  else (i, out).

(** [encode(&self, out)]: the number of bytes written and the buffer after
    the call, or [None] when [out] is too short. *)
Definition encode (o : TcpOpts) (out : list Z) : option (nat * list Z) :=
  let need := encoded_len o in
  if (length out <? need)%nat then None
  else Some (encode_sack o (encode_sackp_ts o (encode_wscale o (encode_mss o (0%nat, out))))).

(** ** Decoder *)

(** The loop over the blocks of one SACK option, [bi] being the read index. *)
Fixpoint parse_sack_blocks (n : nat) (opts : list Z) (bi : nat) (out : TcpOpts)
  : option TcpOpts :=
  match n with
  | O => Some out
  | S n =>
      left_ ← read_be32 opts bi;
      right_ ← read_be32 opts (bi + 4);
      let '(_, out) := push_sack_block_decode out (mkSackBlock left_ right_) in
      parse_sack_blocks n opts (bi + 8) out
  end.

(** The inner [match kind] for one option of declared length [olen] at [i]. *)
Definition parse_option_body (kind : Z) (olen : nat) (opts : list Z) (i : nat) (out : TcpOpts)
  : option (result TcpOpts OptionParseError) :=
  if kind =? OPT_MSS then
    if negb (olen =? LEN_MSS)%nat then Some (Err BadKnownLen) else
    m ← read_be16 opts (i + 2);
    Some (Ok (out <| mss := Some m |>))
  else if kind =? OPT_WSCALE then
    if negb (olen =? LEN_WSCALE)%nat then Some (Err BadKnownLen) else
    shift ← opts !! (i + 2)%nat;
    if 14 <? shift then Some (Ok (out <| wscale := Some 14 |> <| ws_clamped := true |>))
    else Some (Ok (out <| wscale := Some shift |>))
  else if kind =? OPT_SACK_PERMITTED then
    if negb (olen =? LEN_SACK_PERMITTED)%nat then Some (Err BadKnownLen) else
    Some (Ok (out <| sack_permitted := true |>))
  else if kind =? OPT_TIMESTAMP then
    if negb (olen =? LEN_TIMESTAMP)%nat then Some (Err BadKnownLen) else
    tsval ← read_be32 opts (i + 2);
    tsecr ← read_be32 opts (i + 6);
    Some (Ok (out <| timestamps := Some (tsval, tsecr) |>))
  else if kind =? OPT_SACK then
    let block_bytes := (olen - 2)%nat in
    if ((block_bytes =? 0) || negb (block_bytes mod 8 =? 0)
        || (MAX_SACK_BLOCKS_DECODE <? block_bytes / 8))%nat%bool
    then Some (Err BadSackBlockCount) else
    out ← parse_sack_blocks (block_bytes / 8) opts (i + 2) out;
    Some (Ok out)
  else Some (Ok out).

(** The [while i < opts.len()] loop; each turn consumes at least one byte, so
    [S (length opts)] turns are enough ([parse_options_total]). *)
Fixpoint parse_loop (fuel : nat) (opts : list Z) (i : nat) (out : TcpOpts)
  : option (result TcpOpts OptionParseError) :=
  match fuel with
  | O => None
  | S fuel =>
      if negb (i <? length opts)%nat then Some (Ok out) else
      kind ← opts !! i;
      if kind =? OPT_END then Some (Ok out)
      else if kind =? OPT_NOP then parse_loop fuel opts (i + 1) out
      else if (length opts <=? i + 1)%nat then Some (Err Truncated)
      else
        ol ← opts !! (i + 1)%nat;
        let olen := Z.to_nat ol in
        if (olen <? 2)%nat then Some (Err ShortUnknown)
        else if (length opts <? i + olen)%nat then Some (Err Truncated)
        else
          r ← parse_option_body kind olen opts i out;
          match r with
          | Err e => Some (Err e)
          | Ok out => parse_loop fuel opts (i + olen) out
          end
  end.

Definition parse_general (opts : list Z) : option (result TcpOpts OptionParseError) :=
  parse_loop (S (length opts)) opts 0 TcpOpts_default.

(** [parse_options]: the timestamp-only fast path, then the general loop. *)
Definition parse_options (opts : list Z) : option (result TcpOpts OptionParseError) :=
  let is_at (i : nat) (v : Z) := bool_decide (opts !! i = Some v) in
  if ((length opts =? 12)%nat && is_at 0%nat OPT_TIMESTAMP && is_at 1%nat (Z.of_nat LEN_TIMESTAMP)
      && is_at 10%nat OPT_NOP && is_at 11%nat OPT_NOP)%bool
  then
    tsval ← read_be32 opts 2;
    tsecr ← read_be32 opts 6;
    Some (Ok (mkTcpOpts None None false (Some (tsval, tsecr)) zero_blocks 0 false))
  else parse_general opts.

(** ** Specification of the emitted bytes *)

Definition mss_wire (o : TcpOpts) : list Z :=
  match mss o with Some m => [OPT_MSS; 4] ++ to_be16 m | None => [] end.
Definition wscale_wire (o : TcpOpts) : list Z :=
  match wscale o with Some ws => [OPT_NOP; OPT_WSCALE; 3; ws] | None => [] end.
Definition sackp_ts_wire (o : TcpOpts) : list Z :=
  match sack_permitted o, timestamps o with
  | true, Some (v, e) => [OPT_SACK_PERMITTED; 2; OPT_TIMESTAMP; 10] ++ to_be32 v ++ to_be32 e
  | true, None => [OPT_NOP; OPT_NOP; OPT_SACK_PERMITTED; 2]
  | false, Some (v, e) => [OPT_NOP; OPT_NOP; OPT_TIMESTAMP; 10] ++ to_be32 v ++ to_be32 e
  | false, None => []
  end.
Definition blocks_wire (bs : list SackBlock) : list Z :=
  concat (map (fun b => to_be32 (sb_left b) ++ to_be32 (sb_right b)) bs).
Definition sack_wire (o : TcpOpts) : list Z :=
  if (0 <? sack_block_count o)%nat then
    [OPT_NOP; OPT_NOP; OPT_SACK; u8 (Z.of_nat (2 + 8 * sack_block_count o))] ++
    blocks_wire (take (sack_block_count o) (sack_blocks o))
  else [].
Definition opts_wire (o : TcpOpts) : list Z :=
  mss_wire o ++ wscale_wire o ++ sackp_ts_wire o ++ sack_wire o.

(** Well-formed option records: what [TcpOpts] values the stack builds and
    [parse_options] returns. *)
Record opts_wf (o : TcpOpts) : Prop := {
  wf_mss : forall m, mss o = Some m -> is_u16 m;
  wf_wscale : forall w, wscale o = Some w -> 0 <= w <= 14;
  wf_ts : forall v e, timestamps o = Some (v, e) -> is_u32 v /\ is_u32 e;
  wf_len : length (sack_blocks o) = MAX_SACK_BLOCKS_DECODE;
  wf_count : (sack_block_count o <= MAX_SACK_BLOCKS_DECODE)%nat;
  wf_blocks : Forall (fun b => is_u32 (sb_left b) /\ is_u32 (sb_right b)) (sack_blocks o);
  wf_unused : forall i, (sack_block_count o <= i < 4)%nat ->
    sack_blocks o !! i = Some (mkSackBlock 0 0);
}.

Lemma TcpOpts_default_wf : opts_wf TcpOpts_default.
Proof.
  split; cbn; try done; try lia.
  - repeat constructor; cbn; lia.
  - intros i Hi. do 4 (destruct i as [|i]; [reflexivity|]). lia.
Qed.

(** ** Encoder lemmas *)

(** [emits f w]: the group [f] appends [w] at the cursor, consuming as many
    bytes of what was ahead. *)
Definition emits (f : nat * list Z -> nat * list Z) (w : list Z) : Prop :=
  forall p rest, f (length p, p ++ rest) = (length (p ++ w), (p ++ w) ++ drop (length w) rest).

Lemma emits_comp f g v w : emits f v -> emits g w -> emits (fun st => g (f st)) (v ++ w).
Proof.
  intros Hf Hg p rest. rewrite Hf, Hg, drop_drop, <- !app_assoc, !length_app. reflexivity.
Qed.

Lemma emits_nil : emits (fun st => st) [].
Proof. intros p rest. rewrite app_nil_r. reflexivity. Qed.

Ltac write_step :=
  rewrite copy_at_app_eq by (rewrite ?length_app; cbn [length]; rewrite ?length_to_be32, ?length_to_be16; lia).
Ltac write_group :=
  unfold set_byte, LEN_MSS, LEN_WSCALE, LEN_SACK_PERMITTED, LEN_TIMESTAMP; repeat write_step;
  rewrite ?drop_drop, ?length_app, ?length_to_be16, ?length_to_be32, <- ?app_assoc;
  cbn [length app Nat.add]; f_equal; rewrite ?length_app; cbn; try lia.

Lemma encode_mss_emits o : emits (encode_mss o) (mss_wire o).
Proof.
  unfold encode_mss, mss_wire. destruct (mss o) as [m|]; [|apply emits_nil].
  intros p rest. write_group.
Qed.
Lemma encode_wscale_emits o : emits (encode_wscale o) (wscale_wire o).
Proof.
  unfold encode_wscale, wscale_wire. destruct (wscale o) as [m|]; [|apply emits_nil].
  intros p rest. write_group.
Qed.
Lemma encode_sackp_ts_emits o : emits (encode_sackp_ts o) (sackp_ts_wire o).
Proof.
  unfold encode_sackp_ts, sackp_ts_wire.
  destruct (sack_permitted o), (timestamps o) as [[v e]|]; [| | |apply emits_nil];
    intros p rest; write_group.
Qed.

Lemma encode_blocks_emits bs : emits (fun '(i, out) => encode_blocks bs i out) (blocks_wire bs).
Proof.
  induction bs as [|b bs IH]; intros p rest; cbn [encode_blocks blocks_wire].
  { rewrite app_nil_r. reflexivity. }
  repeat write_step.
  replace (length p + 8)%nat with (length ((p ++ to_be32 (sb_left b)) ++ to_be32 (sb_right b)))
    by (rewrite !length_app, !length_to_be32; lia).
  rewrite (IH ((p ++ to_be32 (sb_left b)) ++ to_be32 (sb_right b))).
  unfold blocks_wire. cbn [map concat].
  rewrite !drop_drop, <- !app_assoc. rewrite !length_app, !length_to_be32. reflexivity.
Qed.

Lemma encode_sack_emits o : emits (encode_sack o) (sack_wire o).
Proof.
  unfold encode_sack, sack_wire. destruct (0 <? sack_block_count o)%nat; [|apply emits_nil].
  intros p rest. unfold set_byte. repeat write_step.
  set (h := (((p ++ [_]) ++ [_]) ++ [_]) ++ [_]).
  replace (length p + 4)%nat with (length h) by (subst h; rewrite !length_app; cbn; lia).
  rewrite (encode_blocks_emits _ h). subst h.
  rewrite !drop_drop, <- !app_assoc, !length_app. cbn [length app Nat.add]. reflexivity.
Qed.

Lemma length_blocks_wire bs : length (blocks_wire bs) = (8 * length bs)%nat.
Proof.
  induction bs as [|b bs IH]; [reflexivity|]. unfold blocks_wire in *. cbn [map concat length].
  rewrite length_app, IH. cbn. lia.
Qed.

Lemma encoded_len_wire o :
  (sack_block_count o <= length (sack_blocks o))%nat -> encoded_len o = length (opts_wire o).
Proof.
  intros Hc. unfold encoded_len, opts_wire, mss_wire, wscale_wire, sackp_ts_wire, sack_wire,
    LEN_MSS, LEN_WSCALE, LEN_SACK_PERMITTED, LEN_TIMESTAMP.
  rewrite !length_app.
  destruct (mss o), (wscale o), (sack_permitted o), (timestamps o) as [[]|],
    (Nat.ltb_spec 0 (sack_block_count o));
    rewrite ?length_app, ?length_blocks_wire, ?length_take, ?length_to_be16, ?length_to_be32; cbn; lia.
Qed.

Lemma encode_exact o out :
  (sack_block_count o <= length (sack_blocks o))%nat -> (encoded_len o <= length out)%nat ->
  encode o out = Some (encoded_len o, opts_wire o ++ drop (encoded_len o) out).
Proof.
  intros Hc Hlen. unfold encode.
  rewrite (proj2 (Nat.ltb_ge _ _) Hlen). f_equal.
  pose proof (emits_comp _ _ _ _ (emits_comp _ _ _ _ (emits_comp _ _ _ _ (encode_mss_emits o)
    (encode_wscale_emits o)) (encode_sackp_ts_emits o)) (encode_sack_emits o) [] out) as E.
  cbn [app length] in E. rewrite E, encoded_len_wire by done.
  unfold opts_wire. by rewrite <- !app_assoc.
Qed.

(** ** Decoder lemmas *)

(** The loop seen from the unread suffix, without the index. *)
Fixpoint parse_sfx (fuel : nat) (s : list Z) (out : TcpOpts)
  : option (result TcpOpts OptionParseError) :=
  match fuel with
  | O => None
  | S fuel =>
      match s with
      | [] => Some (Ok out)
      | kind :: s' =>
          if kind =? OPT_END then Some (Ok out)
          else if kind =? OPT_NOP then parse_sfx fuel s' out
          else match s' with
          | [] => Some (Err Truncated)
          | ol :: _ =>
              let olen := Z.to_nat ol in
              if (olen <? 2)%nat then Some (Err ShortUnknown)
              else if (length s <? olen)%nat then Some (Err Truncated)
              else
                r ← parse_option_body kind olen s 0 out;
                match r with
                | Err e => Some (Err e)
                | Ok out => parse_sfx fuel (drop olen s) out
                end
          end
      end
  end.

Lemma parse_sack_blocks_drop n opts i k out :
  parse_sack_blocks n opts (i + k) out = parse_sack_blocks n (drop i opts) k out.
Proof.
  revert k out. induction n as [|n IH]; intros k out; [reflexivity|]. cbn [parse_sack_blocks].
  rewrite !read_be32_drop, Nat.add_assoc.
  destruct (read_be32 opts (i + k)) as [l|]; [cbn|done].
  destruct (read_be32 opts (i + k + 4)) as [r|]; [cbn|done].
  destruct (push_sack_block_decode out (mkSackBlock l r)) as [b o]. rewrite <- IH. f_equal. lia.
Qed.

Lemma parse_option_body_drop kind olen opts i out :
  parse_option_body kind olen opts i out = parse_option_body kind olen (drop i opts) 0 out.
Proof.
  unfold parse_option_body. rewrite read_be16_drop, !read_be32_drop, lookup_drop.
  change (0 + 2)%nat with 2%nat. change (0 + 6)%nat with 6%nat. by rewrite parse_sack_blocks_drop.
Qed.

Lemma parse_loop_sfx fuel opts i out :
  (i <= length opts)%nat -> parse_loop fuel opts i out = parse_sfx fuel (drop i opts) out.
Proof.
  revert i out. induction fuel as [|fuel IH]; intros i out Hi; [reflexivity|]. cbn [parse_loop parse_sfx].
  destruct (Nat.ltb_spec i (length opts)) as [Hlt|Hge]; cbn [negb].
  2:{ rewrite drop_ge by lia. reflexivity. }
  destruct (lookup_some opts i Hlt) as [kind Hk]. rewrite Hk. cbn [mbind option_bind].
  rewrite (drop_S _ _ _ Hk).
  destruct (kind =? OPT_END); [reflexivity|].
  destruct (kind =? OPT_NOP); [rewrite IH by lia; f_equal; f_equal; lia|].
  destruct (Nat.leb_spec (length opts) (i + 1)).
  { rewrite drop_ge by lia. reflexivity. }
  destruct (lookup_some opts (i + 1) ltac:(lia)) as [ol Ho]. rewrite Ho. cbn [mbind option_bind].
  replace (i + 1)%nat with (S i) in Ho by lia. rewrite (drop_S _ _ _ Ho).
  destruct (Z.to_nat ol <? 2)%nat; [reflexivity|].
  rewrite <- (drop_S _ _ _ Ho), <- (drop_S _ _ _ Hk), length_drop.
  destruct (Nat.ltb_spec (length opts) (i + Z.to_nat ol)), (Nat.ltb_spec (length opts - i) (Z.to_nat ol));
    try lia; try reflexivity.
  rewrite <- parse_option_body_drop. destruct (parse_option_body _ _ _ _ _) as [[o|e]|]; [cbn|done|done].
  rewrite IH by lia. by rewrite drop_drop.
Qed.

(** More fuel than bytes never changes the result. *)
Lemma parse_sfx_fuel f1 f2 s out :
  (length s < f1)%nat -> (length s < f2)%nat -> parse_sfx f1 s out = parse_sfx f2 s out.
Proof.
  revert f2 s out. induction f1 as [|f1 IH]; intros f2 s out H1 H2; [lia|].
  destruct f2 as [|f2]; [lia|]. cbn [parse_sfx]. destruct s as [|kind s']; [reflexivity|].
  cbn [length] in *. destruct (kind =? OPT_END); [reflexivity|].
  destruct (kind =? OPT_NOP); [apply IH; lia|].
  destruct s' as [|ol s']; [reflexivity|]. cbn [length] in *.
  destruct (Nat.ltb_spec (Z.to_nat ol) 2); [reflexivity|].
  destruct (_ <? _)%nat; [reflexivity|].
  destruct (parse_option_body _ _ _ _ _) as [[o|e]|]; [cbn|done|done].
  apply IH; rewrite length_drop; cbn; lia.
Qed.

(** Parsing a suffix with the fuel [parse_general] starts from. *)
Definition parse_rest (s : list Z) (out : TcpOpts) := parse_sfx (S (length s)) s out.

Lemma parse_general_rest opts : parse_general opts = parse_rest opts TcpOpts_default.
Proof. unfold parse_general. rewrite parse_loop_sfx by lia. by rewrite drop_0. Qed.

Lemma parse_rest_nop s out : parse_rest (OPT_NOP :: s) out = parse_rest s out.
Proof. reflexivity. Qed.

(** One complete option at the front of the suffix. *)
Lemma parse_rest_option kind olen body rest out out' :
  kind <> OPT_END -> kind <> OPT_NOP -> (2 <= olen)%nat -> length body = (olen - 2)%nat ->
  parse_option_body kind olen (kind :: Z.of_nat olen :: body ++ rest) 0 out = Some (Ok out') ->
  parse_rest (kind :: Z.of_nat olen :: body ++ rest) out = parse_rest rest out'.
Proof.
  intros Hk0 Hk1 Ho Hb Hbody. unfold parse_rest at 1.
  assert (exists n, length (kind :: Z.of_nat olen :: body ++ rest) = n) as [n Hn] by eauto.
  rewrite Hn. cbn [parse_sfx].
  rewrite (proj2 (Z.eqb_neq _ _) Hk0), (proj2 (Z.eqb_neq _ _) Hk1), Nat2Z.id.
  destruct (Nat.ltb_spec olen 2); [lia|].
  rewrite Hn. cbn [length] in Hn. rewrite length_app in Hn.
  destruct (Nat.ltb_spec n olen) as [Hl|_]; [lia|].
  rewrite Hbody. cbn [mbind option_bind].
  replace (drop olen (kind :: Z.of_nat olen :: body ++ rest)) with rest.
  2:{ destruct olen as [|[|n0]]; try lia. cbn [drop].
      replace n0 with (length body) by lia. by rewrite drop_app_length. }
  unfold parse_rest. apply parse_sfx_fuel; rewrite ?length_app; lia.
Qed.

(** [push_sack_block_decode] on a record whose tail blocks are still zero. *)
Lemma push_decode_fresh out pre b k :
  sack_blocks out = pre ++ replicate (S k) (mkSackBlock 0 0) ->
  sack_block_count out = length pre -> (length pre + S k = MAX_SACK_BLOCKS_DECODE)%nat ->
  push_sack_block_decode out b =
    (true, out <| sack_blocks := (pre ++ [b]) ++ replicate k (mkSackBlock 0 0) |>
               <| sack_block_count := length (pre ++ [b]) |>).
Proof.
  intros Hb Hc Hl. unfold push_sack_block_decode.
  destruct (Nat.leb_spec MAX_SACK_BLOCKS_DECODE (sack_block_count out)); [lia|].
  f_equal. cbn. rewrite Hb, Hc, length_app. cbn [length].
  f_equal; [|lia].
  rewrite (insert_app_r_alt pre) by lia. rewrite Nat.sub_diag. cbn. by rewrite <- app_assoc.
Qed.

Lemma parse_sack_blocks_wire bs pre k opts bi rest out :
  drop bi opts = blocks_wire bs ++ rest ->
  Forall (fun b => is_u32 (sb_left b) /\ is_u32 (sb_right b)) bs ->
  sack_blocks out = pre ++ replicate (length bs + k) (mkSackBlock 0 0) ->
  sack_block_count out = length pre ->
  (length pre + (length bs + k) = MAX_SACK_BLOCKS_DECODE)%nat ->
  parse_sack_blocks (length bs) opts bi out =
    Some (out <| sack_blocks := (pre ++ bs) ++ replicate k (mkSackBlock 0 0) |>
              <| sack_block_count := length (pre ++ bs) |>).
Proof.
  revert pre bi out. induction bs as [|b bs IH]; intros pre bi out Hd Hu Hb Hc Hl.
  { cbn [length parse_sack_blocks]. rewrite app_nil_r. f_equal. destruct out. cbn in *. by subst. }
  apply Forall_cons in Hu as [[Hul Hur] Hu]. cbn [length parse_sack_blocks] in *.
  unfold blocks_wire in Hd. cbn [map concat] in Hd. rewrite <- !app_assoc in Hd.
  assert (read_be32 opts bi = Some (sb_left b)) as ->.
  { rewrite <- (Nat.add_0_r bi), <- read_be32_drop, Hd. by apply (read_be32_app []). }
  assert (read_be32 opts (bi + 4) = Some (sb_right b)) as ->.
  { rewrite <- read_be32_drop, Hd.
    apply (read_be32_app (to_be32 (sb_left b))). done. }
  cbn [mbind option_bind]. destruct b as [l r]. cbn [sb_left sb_right] in *.
  rewrite (push_decode_fresh out pre _ (length bs + k)) by (done || (cbn in *; lia)).
  rewrite (IH (pre ++ [mkSackBlock l r])); cbn; rewrite <- ?app_assoc; try done.
  - assert (drop 8 (drop bi opts) = blocks_wire bs ++ rest) as E.
    { rewrite Hd. reflexivity. }
    rewrite drop_drop in E. exact E.
  - rewrite length_app. cbn. lia.
Qed.

Definition with_mss (o out : TcpOpts) : TcpOpts :=
  match mss o with Some m => out <| mss := Some m |> | None => out end.
Definition with_wscale (o out : TcpOpts) : TcpOpts :=
  match wscale o with Some w => out <| wscale := Some w |> | None => out end.
Definition with_sackp_ts (o out : TcpOpts) : TcpOpts :=
  let out := if sack_permitted o then out <| sack_permitted := true |> else out in
  match timestamps o with Some t => out <| timestamps := Some t |> | None => out end.

Section Groups.
Context (o : TcpOpts) (Hwf : opts_wf o).

Lemma parse_mss_wire rest out :
  parse_rest (mss_wire o ++ rest) out = parse_rest rest (with_mss o out).
Proof.
  unfold mss_wire, with_mss. destruct (mss o) as [m|] eqn:E; [|reflexivity].
  pose proof (wf_mss o Hwf m E).
  apply (parse_rest_option OPT_MSS 4 (to_be16 m)); try done; try lia.
  unfold parse_option_body. cbn [Z.eqb OPT_MSS Pos.eqb Nat.eqb LEN_MSS negb].
  rewrite (read_be16_at _ _ [OPT_MSS; Z.of_nat 4] m rest) by done. reflexivity.
Qed.

Lemma parse_wscale_wire rest out :
  parse_rest (wscale_wire o ++ rest) out = parse_rest rest (with_wscale o out).
Proof.
  unfold wscale_wire, with_wscale. destruct (wscale o) as [w|] eqn:E; [|reflexivity].
  pose proof (wf_wscale o Hwf w E). cbn [app]. rewrite parse_rest_nop.
  apply (parse_rest_option OPT_WSCALE 3 [w]); try done; try lia.
  unfold parse_option_body. cbn [Z.eqb OPT_MSS OPT_WSCALE Pos.eqb Nat.eqb LEN_WSCALE negb].
  assert ((OPT_WSCALE :: Z.of_nat 3 :: [w] ++ rest) !! (0 + 2)%nat = Some w) as -> by reflexivity.
  cbn [mbind option_bind]. destruct (Z.ltb_spec 14 w); [lia|reflexivity].
Qed.

Lemma parse_ts_wire v e rest out :
  is_u32 v -> is_u32 e ->
  parse_rest ([OPT_TIMESTAMP; 10] ++ to_be32 v ++ to_be32 e ++ rest) out =
  parse_rest rest (out <| timestamps := Some (v, e) |>).
Proof.
  intros Hv He.
  rewrite (app_assoc (to_be32 v)). apply (parse_rest_option OPT_TIMESTAMP 10 (to_be32 v ++ to_be32 e));
    try done; try lia.
  unfold parse_option_body. cbn [Z.eqb OPT_TIMESTAMP OPT_MSS OPT_WSCALE OPT_SACK_PERMITTED Pos.eqb
    Nat.eqb LEN_TIMESTAMP negb].
  rewrite <- app_assoc.
  rewrite (read_be32_at _ (0 + 2) [OPT_TIMESTAMP; Z.of_nat 10] v (to_be32 e ++ rest)) by done.
  cbn [mbind option_bind].
  rewrite (read_be32_at _ _ ([OPT_TIMESTAMP; Z.of_nat 10] ++ to_be32 v) e rest) by done. reflexivity.
Qed.

Lemma parse_sackp_wire rest out :
  parse_rest ([OPT_SACK_PERMITTED; 2] ++ rest) out = parse_rest rest (out <| sack_permitted := true |>).
Proof. apply (parse_rest_option OPT_SACK_PERMITTED 2 []); done || lia. Qed.

Lemma parse_sackp_ts_wire rest out :
  parse_rest (sackp_ts_wire o ++ rest) out = parse_rest rest (with_sackp_ts o out).
Proof.
  unfold sackp_ts_wire, with_sackp_ts.
  destruct (sack_permitted o), (timestamps o) as [[v e]|] eqn:E; try (destruct (wf_ts o Hwf v e E));
    rewrite <- ?app_assoc; cbn [app]; rewrite ?parse_rest_nop; [| |by apply parse_ts_wire|reflexivity].
  - etrans; [apply (parse_sackp_wire (OPT_TIMESTAMP :: 10 :: _))|]. by apply parse_ts_wire.
  - apply parse_sackp_wire.
Qed.

Lemma wf_blocks_split :
  sack_blocks o = take (sack_block_count o) (sack_blocks o)
    ++ replicate (4 - sack_block_count o) (mkSackBlock 0 0).
Proof.
  pose proof (wf_len o Hwf) as Hl. pose proof (wf_count o Hwf) as Hc.
  rewrite <- (take_drop (sack_block_count o) (sack_blocks o)) at 1. f_equal.
  unfold MAX_SACK_BLOCKS_DECODE in *. apply list_eq. intros i. rewrite lookup_drop.
  destruct (decide (i < 4 - sack_block_count o)%nat).
  - rewrite (wf_unused o Hwf) by lia. symmetry. apply lookup_replicate_2. lia.
  - rewrite lookup_ge_None_2 by lia. symmetry. apply lookup_ge_None_2. rewrite length_replicate. lia.
Qed.

Lemma parse_sack_wire rest out :
  sack_blocks out = zero_blocks -> sack_block_count out = 0%nat ->
  parse_rest (sack_wire o ++ rest) out =
  parse_rest rest (out <| sack_blocks := sack_blocks o |> <| sack_block_count := sack_block_count o |>).
Proof.
  intros Hz Hc0. pose proof (wf_len o Hwf) as Hl. pose proof (wf_count o Hwf) as Hc.
  pose proof (wf_blocks o Hwf) as Hu.
  unfold sack_wire. destruct (Nat.ltb_spec 0 (sack_block_count o)).
  2:{ f_equal. replace (sack_blocks o) with zero_blocks.
      - replace (sack_block_count o) with 0%nat by lia. destruct out; cbn in *; by subst.
      - rewrite wf_blocks_split. replace (sack_block_count o) with 0%nat by lia. reflexivity. }
  unfold MAX_SACK_BLOCKS_DECODE in *.
  assert (length (take (sack_block_count o) (sack_blocks o)) = sack_block_count o) as Ht
    by (rewrite length_take; lia).
  rewrite u8_id by (unfold is_u8, two8; lia). rewrite <- app_assoc. cbn [app]. rewrite !parse_rest_nop.
  apply (parse_rest_option OPT_SACK (2 + 8 * sack_block_count o)); try done; try lia.
  { rewrite length_blocks_wire, Ht. lia. }
  unfold parse_option_body. cbn [Z.eqb OPT_SACK OPT_TIMESTAMP OPT_MSS OPT_WSCALE OPT_SACK_PERMITTED Pos.eqb].
  replace (2 + 8 * sack_block_count o - 2)%nat with (sack_block_count o * 8)%nat by lia.
  rewrite Nat.Div0.mod_mul, Nat.div_mul by lia. cbn [Nat.eqb negb orb].
  destruct (Nat.eqb_spec (sack_block_count o * 8) 0); [lia|].
  destruct (Nat.ltb_spec MAX_SACK_BLOCKS_DECODE (sack_block_count o)); [unfold MAX_SACK_BLOCKS_DECODE in *; lia|].
  cbn [orb]. rewrite <- Ht at 1.
  rewrite (parse_sack_blocks_wire _ [] (4 - sack_block_count o) _ _ rest).
  - cbn [app mbind option_bind]. rewrite <- wf_blocks_split, Ht. reflexivity.
  - reflexivity.
  - by apply Forall_take.
  - rewrite Hz, Ht. cbn [app]. unfold zero_blocks, MAX_SACK_BLOCKS_DECODE. f_equal. lia.
  - done.
  - rewrite Ht. unfold MAX_SACK_BLOCKS_DECODE in *. cbn [length]. lia.
Qed.
End Groups.

Lemma parse_rest_nil out : parse_rest [] out = Some (Ok out).
Proof. reflexivity. Qed.

Lemma parse_general_wire o :
  opts_wf o -> ws_clamped o = false -> parse_general (opts_wire o) = Some (Ok o).
Proof.
  intros Hwf Hcl. rewrite parse_general_rest. unfold opts_wire.
  rewrite parse_mss_wire, parse_wscale_wire, parse_sackp_ts_wire by done.
  rewrite <- (app_nil_r (sack_wire o)), parse_sack_wire, parse_rest_nil.
  - unfold with_sackp_ts, with_wscale, with_mss. destruct o as [[m|] [w|] [|] [t|] bs c cl]; cbn in *; by subst.
  - done.
  - unfold with_sackp_ts, with_wscale, with_mss. by destruct (mss o), (wscale o), (sack_permitted o), (timestamps o).
  - unfold with_sackp_ts, with_wscale, with_mss. by destruct (mss o), (wscale o), (sack_permitted o), (timestamps o).
Qed.

(** ** Totality and typing of the decoder *)

Lemma parse_sack_blocks_some n opts bi out :
  (bi + 8 * n <= length opts)%nat -> exists out', parse_sack_blocks n opts bi out = Some out'.
Proof.
  revert bi out. induction n as [|n IH]; intros bi out H; cbn [parse_sack_blocks]; [eauto|].
  destruct (read_be32_some opts bi ltac:(lia)) as [l ->].
  destruct (read_be32_some opts (bi + 4) ltac:(lia)) as [r ->]. cbn [mbind option_bind].
  destruct (push_sack_block_decode _ _) as [b o]. apply IH. lia.
Qed.

Lemma parse_option_body_some kind olen s out :
  (2 <= olen <= length s)%nat -> exists r, parse_option_body kind olen s 0 out = Some r.
Proof.
  intros Ho. unfold parse_option_body, LEN_MSS, LEN_WSCALE, LEN_SACK_PERMITTED, LEN_TIMESTAMP.
  destruct (kind =? OPT_MSS).
  { destruct (Nat.eqb_spec olen 4); cbn [negb]; [|eauto].
    destruct (read_be16_some s (0 + 2) ltac:(lia)) as [v ->]. cbn. eauto. }
  destruct (kind =? OPT_WSCALE).
  { destruct (Nat.eqb_spec olen 3); cbn [negb]; [|eauto].
    destruct (lookup_some s (0 + 2) ltac:(lia)) as [v ->]. cbn [mbind option_bind]. case_tests; eauto. }
  destruct (kind =? OPT_SACK_PERMITTED).
  { destruct (Nat.eqb_spec olen 2); cbn [negb]; eauto. }
  destruct (kind =? OPT_TIMESTAMP).
  { destruct (Nat.eqb_spec olen 10); cbn [negb]; [|eauto].
    destruct (read_be32_some s (0 + 2) ltac:(lia)) as [v ->].
    destruct (read_be32_some s (0 + 6) ltac:(lia)) as [w ->]. cbn. eauto. }
  destruct (kind =? OPT_SACK); [|eauto].
  destruct ((_ || _) || _)%bool; [eauto|].
  destruct (parse_sack_blocks_some ((olen - 2) / 8) s (0 + 2) out) as [o ->]; [|cbn; eauto].
  pose proof (Nat.Div0.mul_div_le (olen - 2) 8). lia.
Qed.

Lemma parse_sfx_some fuel s out :
  (length s < fuel)%nat -> exists r, parse_sfx fuel s out = Some r.
Proof.
  revert s out. induction fuel as [|fuel IH]; intros s out H; [lia|]. cbn [parse_sfx].
  destruct s as [|kind s']; [eauto|]. cbn [length] in H.
  destruct (kind =? OPT_END); [eauto|].
  destruct (kind =? OPT_NOP); [apply IH; lia|].
  destruct s' as [|ol s']; [eauto|]. cbn [length] in *.
  destruct (Nat.ltb_spec (Z.to_nat ol) 2); [eauto|].
  destruct (Nat.ltb_spec (S (S (length s'))) (Z.to_nat ol)); [eauto|].
  destruct (parse_option_body_some kind (Z.to_nat ol) (kind :: ol :: s') out) as [[o|e] ->];
    [cbn; lia| |cbn; eauto].
  cbn [mbind option_bind]. apply IH. rewrite length_drop. cbn [length]. lia.
Qed.

Lemma push_decode_wf o b ok o' :
  opts_wf o -> is_u32 (sb_left b) -> is_u32 (sb_right b) ->
  push_sack_block_decode o b = (ok, o') -> opts_wf o'.
Proof.
  intros Hwf Hl Hr. unfold push_sack_block_decode, MAX_SACK_BLOCKS_DECODE.
  pose proof (wf_len o Hwf) as Hlen. unfold MAX_SACK_BLOCKS_DECODE in Hlen.
  destruct (Nat.leb_spec 4 (sack_block_count o)); intros [= <- <-]; [done|].
  split; cbn; try apply Hwf.
  - rewrite length_insert. exact Hlen.
  - unfold MAX_SACK_BLOCKS_DECODE. lia.
  - apply Forall_insert; [apply Hwf|done].
  - intros i Hi. rewrite list_lookup_insert_ne by lia. apply Hwf. lia.
Qed.

Lemma parse_sack_blocks_wf n opts bi out out' :
  is_bytes opts -> opts_wf out -> parse_sack_blocks n opts bi out = Some out' -> opts_wf out'.
Proof.
  intros Hb. revert bi out. induction n as [|n IH]; intros bi out Hwf H; cbn [parse_sack_blocks] in H.
  { by simplify_eq. }
  destruct (read_be32 opts bi) as [l|] eqn:El; [cbn in H|done].
  destruct (read_be32 opts (bi + 4)) as [r|] eqn:Er; [cbn in H|done].
  destruct (push_sack_block_decode _ _) as [b o] eqn:E. eapply IH; [|exact H].
  eapply push_decode_wf; [exact Hwf| | |exact E]; cbn; eapply read_be32_range; eauto.
Qed.

Lemma parse_option_body_wf kind olen s i out out' :
  is_bytes s -> opts_wf out -> parse_option_body kind olen s i out = Some (Ok out') -> opts_wf out'.
Proof.
  intros Hb Hwf H. unfold parse_option_body in H.
  destruct (kind =? OPT_MSS).
  { case_match; [done|]. destruct (read_be16 _ _) eqn:E; simplify_eq/=.
    split; cbn; try apply Hwf. intros m [= <-]. eapply read_be16_range; eauto. }
  destruct (kind =? OPT_WSCALE).
  { case_match; [done|]. destruct (s !! _) as [sh|] eqn:E; [cbn in H|done].
    pose proof (is_bytes_lookup _ _ _ Hb E). unfold is_u8 in *.
    destruct (Z.ltb_spec 14 sh); simplify_eq/=; split; cbn; try apply Hwf; intros w [= <-]; lia. }
  destruct (kind =? OPT_SACK_PERMITTED).
  { case_match; simplify_eq/=. split; cbn; apply Hwf. }
  destruct (kind =? OPT_TIMESTAMP).
  { case_match; [done|]. destruct (read_be32 s (i + 2)) eqn:E1; [cbn in H|done].
    destruct (read_be32 s (i + 6)) eqn:E2; simplify_eq/=.
    split; cbn; try apply Hwf. intros v e [= <- <-]. split; eapply read_be32_range; eauto. }
  destruct (kind =? OPT_SACK); [|by simplify_eq].
  destruct ((_ || _) || _)%bool; [done|].
  destruct (parse_sack_blocks _ _ _ _) eqn:E; simplify_eq/=. eapply parse_sack_blocks_wf; eauto.
Qed.

Lemma parse_sfx_wf fuel s out o :
  is_bytes s -> opts_wf out -> parse_sfx fuel s out = Some (Ok o) -> opts_wf o.
Proof.
  revert s out. induction fuel as [|fuel IH]; intros s out Hb Hwf H; [done|]. cbn [parse_sfx] in H.
  destruct s as [|kind s']; [by simplify_eq|].
  destruct (kind =? OPT_END); [by simplify_eq|].
  destruct (kind =? OPT_NOP). { eapply IH; [|exact Hwf|exact H]. by inversion Hb. }
  destruct s' as [|ol s']; [done|].
  destruct (_ <? 2)%nat; [done|]. destruct (_ <? _)%nat; [done|].
  destruct (parse_option_body _ _ _ _ _) as [[o'|e]|] eqn:E; try done. cbn in H.
  eapply IH; [|eapply parse_option_body_wf; [exact Hb|exact Hwf|exact E]|exact H].
  by apply Forall_drop.
Qed.

(** The fast path answers what the loop would have. *)
Lemma fast_path_general opts :
  length opts = 12%nat -> opts !! 0%nat = Some OPT_TIMESTAMP -> opts !! 1%nat = Some 10 ->
  opts !! 10%nat = Some OPT_NOP -> opts !! 11%nat = Some OPT_NOP ->
  exists v e, read_be32 opts 2 = Some v /\ read_be32 opts 6 = Some e /\
    parse_general opts = Some (Ok (mkTcpOpts None None false (Some (v, e)) zero_blocks 0 false)).
Proof.
  intros Hlen H0 H1 H10 H11.
  destruct opts as [|k0 [|k1 [|a [|b [|c [|d [|e [|f [|g [|h [|n0 [|n1 [|]]]]]]]]]]]]]; try done.
  cbn in H0, H1, H10, H11. injection H0 as ->. injection H1 as ->. injection H10 as ->. injection H11 as ->.
  exists (from_be32 a b c d), (from_be32 e f g h). split_and!; [reflexivity|reflexivity|].
  rewrite parse_general_rest.
  etrans; [apply (parse_rest_option OPT_TIMESTAMP 10 [a; b; c; d; e; f; g; h] [OPT_NOP; OPT_NOP]);
    try done; try lia; reflexivity|reflexivity].
Qed.

Lemma parse_options_general opts : parse_options opts = parse_general opts.
Proof.
  unfold parse_options. case_match; [|done].
  rewrite !andb_true_iff, !bool_decide_eq_true, Nat.eqb_eq in *. destruct_and!.
  edestruct (fast_path_general opts) as (v & e & -> & -> & ->); try done.
Qed.

(** ** Properties *)

(** C27. Decoding what the encoder emits gives back the option record: for every
    well-formed [o] (MSS and timestamps of their widths, shift at most 14, at
    most four SACK blocks, unused slots zero) and any large enough buffer,
    [encode] writes exactly [encoded_len o] bytes at the front, leaves the rest
    of the buffer alone, and [parse_options] of the written bytes is [o]. *)
Theorem options_roundtrip (o : TcpOpts) (out : list Z)
  (Hwf : opts_wf o) (Hcl : ws_clamped o = false) (Hlen : (encoded_len o <= length out)%nat) :
  exists wire, encode o out = Some (encoded_len o, wire ++ drop (encoded_len o) out) /\
    length wire = encoded_len o /\ parse_options wire = Some (Ok o).
Proof.
  assert (sack_block_count o <= length (sack_blocks o))%nat as Hc
    by (rewrite (wf_len o Hwf); apply (wf_count o Hwf)).
  exists (opts_wire o). split_and!; [by apply encode_exact|by rewrite encoded_len_wire|].
  rewrite parse_options_general. by apply parse_general_wire.
Qed.

Definition sample_opts : TcpOpts :=
  mkTcpOpts (Some 1460) (Some 7) true (Some (123456, 0)) zero_blocks 0 false.

Lemma sample_opts_wf : opts_wf sample_opts.
Proof.
  split; cbn; try (intros; simplify_eq; width_lia); try reflexivity.
  - repeat apply Forall_cons_2; try apply Forall_nil_2; split; cbn; width_lia.
  - intros i Hi. do 4 (destruct i as [|i]; [reflexivity|]). lia.
Defined.

Lemma options_roundtrip_witness :
  exists wire, encode sample_opts (replicate 40 0) =
    Some (encoded_len sample_opts, wire ++ drop (encoded_len sample_opts) (replicate 40 0)) /\
    length wire = encoded_len sample_opts /\ parse_options wire = Some (Ok sample_opts).
Proof.
  apply (options_roundtrip sample_opts (replicate 40 0)).
  - exact sample_opts_wf.
  - reflexivity.
  - vm_compute. lia.
Defined.

(** [parse_options] always returns, without an out-of-bounds read, on every
    byte string: it never panics and its loop terminates. *)
Theorem parse_options_total (opts : list Z) : exists r, parse_options opts = Some r.
Proof.
  rewrite parse_options_general, parse_general_rest. apply parse_sfx_some. lia.
Qed.

(** The timestamp-only fast path is only an optimisation: on every input
    [parse_options] answers exactly what the general loop answers. *)
Theorem parse_options_fast_path (opts : list Z) : parse_options opts = parse_general opts.
Proof. apply parse_options_general. Qed.

(** Whatever bytes a peer sends, an accepted option list is well formed:
    the window shift is at most 14, at most four SACK blocks are recorded, all
    numbers have their wire width and unused block slots are zero. *)
Theorem parse_options_wf (opts : list Z) (o : TcpOpts)
  (Hb : is_bytes opts) (H : parse_options opts = Some (Ok o)) : opts_wf o.
Proof.
  rewrite parse_options_general, parse_general_rest in H.
  eapply parse_sfx_wf; [exact Hb|exact TcpOpts_default_wf|exact H].
Qed.

Lemma parse_options_wf_witness :
  is_bytes [3; 3; 200; 4; 2] /\
  opts_wf (mkTcpOpts None (Some 14) true None zero_blocks 0 true).
Proof.
  assert (is_bytes [3; 3; 200; 4; 2]) as Hb
    by (repeat apply Forall_cons_2; try apply Forall_nil_2; width_lia).
  split; [exact Hb|].
  apply (parse_options_wf [3; 3; 200; 4; 2]); [exact Hb|reflexivity].
Defined.
