(* ===== verification/Sack.v ===== *)
(** * Received-SACK scoreboard ([tcp_sack.rs])

    A fixed four-entry array with a live count.  The array operations are
    shown to implement operations on the list of live blocks, and those to
    maintain a set of sequence numbers. *)

From S2P Require Import Prelude.
From S2P Require Import Seq.
From S2P Require Import Bytes.
From S2P Require Import Options.

(** ** State and operations *)

Definition MAX_SACK_SCOREBOARD_ENTRIES : nat := 4.

Record SackScoreboard := mkSackScoreboard {
  sc_blocks : list SackBlock;
  sc_count : nat;
}.

#[export] Instance SackScoreboard_eta : Settable SackScoreboard := fun s =>
  mkSackScoreboard (sc_blocks s) (sc_count s).

(** [SackScoreboard::new]. *)
Definition scoreboard_new : SackScoreboard :=
  mkSackScoreboard (replicate MAX_SACK_SCOREBOARD_ENTRIES (mkSackBlock 0 0)) 0.

Definition scoreboard_is_empty (s : SackScoreboard) : bool := (sc_count s =? 0)%nat.

(** [blocks()]: the live prefix. *)
Definition live (s : SackScoreboard) : list SackBlock := take (sc_count s) (sc_blocks s).

Definition block_at (i : nat) (bs : list SackBlock) : SackBlock :=
  default (mkSackBlock 0 0) (bs !! i).

Definition block_contains (x : Z) (b : SackBlock) : bool :=
  seq_le (sb_left b) x && seq_lt x (sb_right b).

Definition is_sacked (s : SackScoreboard) (x : Z) : bool := existsb (block_contains x) (live s).

(** The merge test and the merged range of [insert] and [collapse]. *)
Definition touches (a b : SackBlock) : bool :=
  seq_le (sb_left a) (sb_right b) && seq_le (sb_left b) (sb_right a).

Definition merge_blocks (a b : SackBlock) : SackBlock :=
  mkSackBlock
    (if seq_le (sb_left a) (sb_left b) then sb_left a else sb_left b)
    (if seq_le (sb_right b) (sb_right a) then sb_right a else sb_right b).

(** [for k in k..k+n { blocks[k - 1] = blocks[k] }]. *)
Fixpoint shift_left (n k : nat) (bs : list SackBlock) : list SackBlock :=
  match n with
  | O => bs
  | S n => shift_left n (S k) (<[(k - 1)%nat := block_at k bs]> bs)
  end.

(** First index in [i, i+n) whose block touches [b]. *)
Fixpoint scan_touch (n i : nat) (bs : list SackBlock) (b : SackBlock) : option nat :=
  match n with
  | O => None
  | S n => if touches b (block_at i bs) then Some i else scan_touch n (S i) bs b
  end.

(** First pair [i < j] of touching blocks among the first [count]. *)
Fixpoint scan_pair (n i count : nat) (bs : list SackBlock) : option (nat * nat) :=
  match n with
  | O => None
  | S n =>
      match scan_touch (count - (i + 1)) (i + 1) bs (block_at i bs) with
      | Some j => Some (i, j)
      | None => scan_pair n (S i) count bs
      end
  end.

(** The [collapse] loop; every turn removes one block, so [count] turns are
    enough ([collapse_separated]). *)
Fixpoint collapse_loop (fuel : nat) (s : SackScoreboard) : SackScoreboard :=
  match fuel with
  | O => s
  | S fuel =>
      match scan_pair (sc_count s) 0 (sc_count s) (sc_blocks s) with
      | None => s
      | Some (i, j) =>
          let a := block_at i (sc_blocks s) in
          let b := block_at j (sc_blocks s) in
          let bs := <[i := merge_blocks a b]> (sc_blocks s) in
          let bs := shift_left (sc_count s - (j + 1)) (j + 1) bs in
          collapse_loop fuel (mkSackScoreboard bs (sc_count s - 1))
      end
  end.

Definition collapse (s : SackScoreboard) : SackScoreboard := collapse_loop (sc_count s) s.

Definition sack_insert (s : SackScoreboard) (block : SackBlock) : SackScoreboard :=
  match scan_touch (sc_count s) 0 (sc_blocks s) block with
  | Some i =>
      let cur := block_at i (sc_blocks s) in
      collapse (s <| sc_blocks ::= <[i := merge_blocks cur block]> |>)
  | None =>
      if (sc_count s <? MAX_SACK_SCOREBOARD_ENTRIES)%nat then
        s <| sc_blocks ::= <[sc_count s := block]> |> <| sc_count ::= S |>
      else
        let bs := shift_left (MAX_SACK_SCOREBOARD_ENTRIES - 1) 1 (sc_blocks s) in
        s <| sc_blocks := <[(MAX_SACK_SCOREBOARD_ENTRIES - 1)%nat := block]> bs |>
  end.

Fixpoint prune_loop (n i w : nat) (snd_una : Z) (bs : list SackBlock) : list SackBlock * nat :=
  match n with
  | O => (bs, w)
  | S n =>
      let b := block_at i bs in
      if seq_le (sb_right b) snd_una then prune_loop n (S i) w snd_una bs
      else
        let pruned := mkSackBlock
          (if seq_le (sb_left b) snd_una then snd_una else sb_left b) (sb_right b) in
        prune_loop n (S i) (S w) snd_una (<[w := pruned]> bs)
  end.

Definition sack_prune_below (s : SackScoreboard) (snd_una : Z) : SackScoreboard :=
  let '(bs, w) := prune_loop (sc_count s) 0 0 snd_una (sc_blocks s) in
  mkSackScoreboard bs w.

(** ** Specification on the list of live blocks *)

Record scoreboard_wf (s : SackScoreboard) : Prop := {
  sc_wf_len : length (sc_blocks s) = MAX_SACK_SCOREBOARD_ENTRIES;
  sc_wf_count : (sc_count s <= MAX_SACK_SCOREBOARD_ENTRIES)%nat;
}.

Lemma scoreboard_new_wf : scoreboard_wf scoreboard_new.
Proof. split; [reflexivity|cbn; lia]. Qed.

Lemma length_live s : scoreboard_wf s -> length (live s) = sc_count s.
Proof. intros [Hl Hc]. unfold live. rewrite length_take. lia. Qed.

Lemma block_at_live s i : (i < sc_count s)%nat -> block_at i (live s) = block_at i (sc_blocks s).
Proof. intros H. unfold block_at, live. by rewrite lookup_take_lt. Qed.

Lemma lookup_live s i b :
  scoreboard_wf s -> live s !! i = Some b -> (i < sc_count s)%nat /\ block_at i (sc_blocks s) = b.
Proof.
  intros Hwf H. pose proof (lookup_lt_Some _ _ _ H) as Hi. rewrite length_live in Hi by done.
  split; [done|]. rewrite <- block_at_live by done. unfold block_at. by rewrite H.
Qed.

Lemma length_shift_left n k bs : length (shift_left n k bs) = length bs.
Proof. revert k bs. induction n as [|n IH]; intros k bs; cbn; [done|]. by rewrite IH, length_insert. Qed.

Lemma shift_left_lookup n k bs x :
  (1 <= k)%nat -> (k + n <= length bs)%nat ->
  shift_left n k bs !! x =
    if decide (k - 1 <= x < k - 1 + n)%nat then bs !! S x else bs !! x.
Proof.
  revert k bs. induction n as [|n IH]; intros k bs Hk Hn; cbn [shift_left].
  { case_decide; [lia|done]. }
  rewrite IH by (rewrite ?length_insert; lia).
  destruct (lookup_some bs k ltac:(lia)) as [b Hb].
  unfold block_at. rewrite Hb. cbn [default].
  repeat case_decide; try lia.
  - rewrite list_lookup_insert_ne by lia. done.
  - assert (x = k - 1)%nat as -> by lia. rewrite list_lookup_insert_eq by lia.
    replace (S (k - 1)) with k by lia. done.
  - rewrite list_lookup_insert_ne by lia. done.
Qed.

Lemma lookup_delete_list {A} (l : list A) j x :
  delete j l !! x = if decide (x < j)%nat then l !! x else l !! S x.
Proof. case_decide; [by apply list_lookup_delete_lt|apply list_lookup_delete_ge; lia]. Qed.

(** Closing the gap left by block [j] deletes it from the live prefix. *)
Lemma live_delete bs c j :
  (j < c)%nat -> (c <= length bs)%nat ->
  take (c - 1) (shift_left (c - (j + 1)) (j + 1) bs) = delete j (take c bs).
Proof.
  intros Hj Hc. apply list_eq. intros x. rewrite lookup_delete_list.
  destruct (decide (x < c - 1)%nat).
  - rewrite lookup_take_lt, shift_left_lookup by lia.
    repeat case_decide; try lia; rewrite lookup_take_lt by lia; done.
  - rewrite lookup_take_ge by lia. case_decide; [lia|]. by rewrite lookup_take_ge by lia.
Qed.

(** Evicting the oldest block. *)
Lemma live_evict bs b :
  length bs = MAX_SACK_SCOREBOARD_ENTRIES ->
  <[(MAX_SACK_SCOREBOARD_ENTRIES - 1)%nat := b]> (shift_left (MAX_SACK_SCOREBOARD_ENTRIES - 1) 1 bs)
    = drop 1 bs ++ [b].
Proof.
  unfold MAX_SACK_SCOREBOARD_ENTRIES. intros H.
  destruct bs as [|b0 [|b1 [|b2 [|b3 [|]]]]]; try discriminate. reflexivity.
Qed.

Definition covers (bs : list SackBlock) (x : Z) : bool := existsb (block_contains x) bs.

Lemma covers_perm bs bs' x : bs ≡ₚ bs' -> covers bs x = covers bs' x.
Proof.
  unfold covers. induction 1; cbn; try congruence.
  destruct (block_contains x x0), (block_contains x y); done.
Qed.

(** A pairwise property stated on indices. *)
Definition separated (bs : list SackBlock) : Prop :=
  forall i j a b, (i < j)%nat -> bs !! i = Some a -> bs !! j = Some b -> touches a b = false.

(** [b] is a non-empty range ahead of [base], within half the circle. *)
Definition block_ok (base : Z) (b : SackBlock) : Prop :=
  is_u32 (sb_left b) /\ is_u32 (sb_right b) /\
  off base (sb_left b) < off base (sb_right b) < two31.

Section Coverage.
Context (base : Z).

Lemma block_contains_off b x :
  block_ok base b -> is_u32 x -> off base x < two31 ->
  block_contains x b = true <-> off base (sb_left b) <= off base x < off base (sb_right b).
Proof.
  intros (Hl & Hr & Ho) Hx Hox. unfold block_contains.
  pose proof (off_range base (sb_left b)). pose proof (off_range base x). unfold is_u32 in *.
  rewrite (seq_le_off base), (seq_lt_off base) by (done || unfold close; lia).
  rewrite andb_true_iff, Z.leb_le, Z.ltb_lt. done.
Qed.

Lemma touches_off a b :
  block_ok base a -> block_ok base b ->
  touches a b = true <->
    off base (sb_left a) <= off base (sb_right b) /\ off base (sb_left b) <= off base (sb_right a).
Proof.
  intros (Hl & Hr & Ho) (Hl' & Hr' & Ho'). unfold touches.
  pose proof (off_range base (sb_left a)). pose proof (off_range base (sb_left b)). unfold is_u32 in *.
  rewrite !(seq_le_off base) by (done || unfold close; lia).
  by rewrite andb_true_iff, !Z.leb_le.
Qed.

Lemma merge_off a b :
  block_ok base a -> block_ok base b ->
  block_ok base (merge_blocks a b) /\
  off base (sb_left (merge_blocks a b)) = Z.min (off base (sb_left a)) (off base (sb_left b)) /\
  off base (sb_right (merge_blocks a b)) = Z.max (off base (sb_right a)) (off base (sb_right b)).
Proof.
  intros (Hl & Hr & Ho) (Hl' & Hr' & Ho'). unfold merge_blocks, block_ok. cbn.
  pose proof (off_range base (sb_left a)). pose proof (off_range base (sb_left b)). unfold is_u32 in *.
  rewrite !(seq_le_off base) by (done || unfold close; lia).
  destruct (Z.leb_spec (off base (sb_left a)) (off base (sb_left b)));
    destruct (Z.leb_spec (off base (sb_right b)) (off base (sb_right a))); split_and!; try done; lia.
Qed.

Lemma merge_contains a b x :
  block_ok base a -> block_ok base b -> is_u32 x -> off base x < two31 -> touches a b = true ->
  block_contains x (merge_blocks a b) = block_contains x a || block_contains x b.
Proof.
  intros Ha Hb Hx Hox Ht. apply touches_off in Ht; try done.
  destruct (merge_off a b Ha Hb) as (Hm & El & Er).
  apply eq_true_iff_eq. rewrite orb_true_iff, !block_contains_off, El, Er by done.
  destruct Ha as (_ & _ & ?), Hb as (_ & _ & ?). lia.
Qed.

(** One turn of [collapse] on the live list. *)
Lemma merge_pair_perm bs i j a b :
  (i < j)%nat -> bs !! i = Some a -> bs !! j = Some b ->
  exists rest, bs ≡ₚ b :: a :: rest /\ delete j (<[i := merge_blocks a b]> bs) ≡ₚ merge_blocks a b :: rest.
Proof.
  intros Hij Hi Hj. exists (delete i (delete j bs)). split.
  - rewrite (delete_Permutation bs j b Hj) at 1. constructor.
    apply delete_Permutation. rewrite lookup_delete_list. by rewrite decide_True.
  - rewrite (delete_Permutation (delete j (<[i:=merge_blocks a b]> bs)) i (merge_blocks a b)).
    2:{ rewrite lookup_delete_list, decide_True by done.
        rewrite list_lookup_insert_eq by by eapply lookup_lt_Some. done. }
    apply reflexive_eq. f_equal. apply list_eq. intros x. rewrite !lookup_delete_list.
    repeat case_decide; try lia; rewrite list_lookup_insert_ne by lia; done.
Qed.

Lemma merge_pair_ok bs i j a b x :
  Forall (block_ok base) bs -> is_u32 x -> off base x < two31 ->
  (i < j)%nat -> bs !! i = Some a -> bs !! j = Some b -> touches a b = true ->
  Forall (block_ok base) (delete j (<[i := merge_blocks a b]> bs)) /\
  covers (delete j (<[i := merge_blocks a b]> bs)) x = covers bs x.
Proof.
  intros Hok Hx Hox Hij Hi Hj Ht. destruct (merge_pair_perm bs i j a b Hij Hi Hj) as (rest & E1 & E2).
  rewrite (covers_perm _ _ x E2), (covers_perm _ _ x E1). rewrite E1 in Hok. rewrite E2.
  apply Forall_cons in Hok as [Hb Hok]. apply Forall_cons in Hok as [Ha Hok].
  split; [constructor; [by apply merge_off|done]|].
  unfold covers; cbn. rewrite merge_contains by done. by rewrite (orb_comm (block_contains x a)), orb_assoc.
Qed.
End Coverage.

(** ** Scans *)

Lemma scan_touch_some n i bs b k :
  scan_touch n i bs b = Some k -> (i <= k < i + n)%nat /\ touches b (block_at k bs) = true.
Proof.
  revert i. induction n as [|n IH]; intros i H; cbn in H; [done|].
  destruct (touches b (block_at i bs)) eqn:E; [injection H as <-; split; [lia|done]|].
  apply IH in H as [? ?]. split; [lia|done].
Qed.

Lemma scan_touch_none n i bs b k :
  scan_touch n i bs b = None -> (i <= k < i + n)%nat -> touches b (block_at k bs) = false.
Proof.
  revert i. induction n as [|n IH]; intros i H Hk; cbn in H; [lia|].
  destruct (touches b (block_at i bs)) eqn:E; [done|].
  destruct (decide (k = i)) as [->|]; [done|]. apply (IH (S i) H). lia.
Qed.

Lemma scan_pair_some n i count bs a b :
  scan_pair n i count bs = Some (a, b) ->
  (a < b < count)%nat /\ touches (block_at a bs) (block_at b bs) = true.
Proof.
  revert i. induction n as [|n IH]; intros i H; cbn [scan_pair] in H; [done|].
  destruct (scan_touch _ _ _ _) as [j|] eqn:E; [|by eapply IH].
  injection H as <- <-. apply scan_touch_some in E as [? ?]. split; [lia|done].
Qed.

Lemma scan_pair_none n i count bs a b :
  scan_pair n i count bs = None -> (i <= a < i + n)%nat -> (a < b < count)%nat ->
  touches (block_at a bs) (block_at b bs) = false.
Proof.
  revert i. induction n as [|n IH]; intros i H Ha Hb; cbn [scan_pair] in H; [lia|].
  destruct (scan_touch _ _ _ _) as [j|] eqn:E; [done|].
  destruct (decide (a = i)) as [->|]; [eapply scan_touch_none; [done|lia]|].
  apply (IH (S i) H); lia.
Qed.

Lemma block_at_lookup s i :
  scoreboard_wf s -> (i < sc_count s)%nat -> live s !! i = Some (block_at i (sc_blocks s)).
Proof.
  intros Hwf Hi. destruct (lookup_some (live s) i) as [b Hb]; [by rewrite length_live|].
  apply lookup_live in Hb as E; [|done]. destruct E as [_ ->]. done.
Qed.

Lemma scan_pair_none_separated s :
  scoreboard_wf s -> scan_pair (sc_count s) 0 (sc_count s) (sc_blocks s) = None ->
  separated (live s).
Proof.
  intros Hwf H i j a b Hij Hi Hj.
  apply lookup_live in Hi as [? <-]; [|done]. apply lookup_live in Hj as [? <-]; [|done].
  eapply scan_pair_none; [done|lia|lia].
Qed.

(** ** The invariant and the operations *)

(** The scoreboard invariant: at most four live blocks, each a non-empty range
    ahead of [base], no two of which touch. *)
Record scoreboard_ok (base : Z) (s : SackScoreboard) : Prop := {
  sc_ok_wf : scoreboard_wf s;
  sc_ok_blocks : Forall (block_ok base) (live s);
  sc_ok_sep : separated (live s);
}.

Lemma scoreboard_new_ok base : scoreboard_ok base scoreboard_new.
Proof. split; [apply scoreboard_new_wf|by cbn|]. intros i j a b _ Hi. by cbn in Hi. Qed.

Section Operations.
Context (base : Z).

Lemma collapse_loop_spec fuel s x :
  scoreboard_wf s -> Forall (block_ok base) (live s) -> (sc_count s <= fuel)%nat ->
  is_u32 x -> off base x < two31 ->
  scoreboard_ok base (collapse_loop fuel s) /\
  is_sacked (collapse_loop fuel s) x = is_sacked s x.
Proof.
  intros Hwf Hok Hf Hx Hox. revert s Hwf Hok Hf.
  induction fuel as [|fuel IH]; intros s Hwf Hok Hf; cbn [collapse_loop].
  { split; [|done]. split; [done..|]. apply scan_pair_none_separated; [done|].
    by replace (sc_count s) with 0%nat by lia. }
  destruct (scan_pair _ _ _ _) as [[i j]|] eqn:E.
  2:{ split; [|done]. split; [done..|]. by apply scan_pair_none_separated. }
  apply scan_pair_some in E as [Hij Ht].
  pose proof (block_at_lookup s i Hwf ltac:(lia)) as Hi.
  pose proof (block_at_lookup s j Hwf ltac:(lia)) as Hj.
  destruct (merge_pair_ok base _ i j _ _ x Hok Hx Hox ltac:(lia) Hi Hj Ht) as [Hok' Hcov].
  set (m := merge_blocks _ _) in *.
  set (s' := mkSackScoreboard _ _).
  assert (live s' = delete j (<[i := m]> (live s))) as El.
  { unfold s', live; cbn [sc_count sc_blocks]. destruct Hwf as [Hl Hc].
    rewrite live_delete by (rewrite ?length_insert; lia).
    f_equal. rewrite take_insert_lt by lia. done. }
  destruct (IH s') as [H1 H2].
  - destruct Hwf as [Hl Hc]. split; unfold s'; cbn [sc_count sc_blocks]; [|lia].
    by rewrite length_shift_left, length_insert.
  - by rewrite El.
  - unfold s'; cbn [sc_count]. lia.
  - split; [done|]. rewrite H2. unfold is_sacked. fold (covers (live s') x). by rewrite El.
Qed.

(** Whether [sack_insert] throws the oldest block away. *)
Definition evicts (s : SackScoreboard) (b : SackBlock) : bool :=
  negb (existsb (touches b) (live s)) && (sc_count s =? MAX_SACK_SCOREBOARD_ENTRIES)%nat.

Lemma scan_touch_live s b :
  scoreboard_wf s ->
  match scan_touch (sc_count s) 0 (sc_blocks s) b with
  | Some i => existsb (touches b) (live s) = true /\ (i < sc_count s)%nat /\
              touches b (block_at i (sc_blocks s)) = true
  | None => existsb (touches b) (live s) = false
  end.
Proof.
  intros Hwf. destruct (scan_touch _ _ _ _) as [i|] eqn:E.
  - apply scan_touch_some in E as [Hi Ht]. split; [|split; [lia|done]].
    apply existsb_exists. eexists. split; [|exact Ht].
    apply list_elem_of_In. eapply list_elem_of_lookup_2, block_at_lookup; [done|lia].
  - apply not_true_iff_false. intros (c & Hc & Ht)%existsb_exists.
    apply list_elem_of_In, list_elem_of_lookup_1 in Hc as [i Hi].
    apply lookup_live in Hi as [Hi <-]; [|done].
    rewrite (scan_touch_none _ _ _ _ i E) in Ht by lia. done.
Qed.

Lemma touches_sym a b : touches a b = touches b a.
Proof. apply andb_comm. Qed.

Lemma separated_snoc bs b :
  separated bs -> existsb (touches b) bs = false -> separated (bs ++ [b]).
Proof.
  intros Hs Hb i j a c Hij Hi Hj.
  apply lookup_app_Some in Hj as [Hj|[Hlen Hj]].
  - eapply (Hs i j); [done| |done]. rewrite lookup_app_l in Hi; [done|].
    apply lookup_lt_Some in Hj. lia.
  - apply list_lookup_singleton_Some in Hj as [Hj <-].
    rewrite lookup_app_l in Hi by lia. rewrite touches_sym.
    apply not_true_iff_false. intros Ht. apply not_true_iff_false in Hb. apply Hb.
    apply existsb_exists. exists a. split; [|done]. by eapply list_elem_of_In, list_elem_of_lookup_2.
Qed.

Lemma separated_drop bs n : separated bs -> separated (drop n bs).
Proof.
  intros Hs i j a b Hij Hi Hj. rewrite lookup_drop in Hi, Hj. eapply (Hs (n + i)%nat); [|done..]. lia.
Qed.

Lemma sack_insert_merge s b i x :
  scoreboard_ok base s -> block_ok base b -> is_u32 x -> off base x < two31 ->
  (i < sc_count s)%nat -> touches b (block_at i (sc_blocks s)) = true ->
  let s' := collapse (s <| sc_blocks ::= <[i := merge_blocks (block_at i (sc_blocks s)) b]> |>) in
  scoreboard_ok base s' /\ is_sacked s' x = is_sacked s x || block_contains x b.
Proof.
  intros [Hwf Hok Hsep] Hb Hx Hox Hi Ht. cbn zeta.
  pose proof (block_at_lookup s i Hwf Hi) as Hl. set (cur := block_at i _) in *.
  set (s1 := field_set _ s). assert (live s1 = <[i := merge_blocks cur b]> (live s)) as El.
  { unfold s1, live; cbn. by rewrite take_insert_lt by done. }
  assert (block_ok base cur) as Hcur by by eapply Forall_lookup_1.
  destruct (collapse_loop_spec (sc_count s1) s1 x) as [H1 H2]; try done.
  - destruct Hwf. split; cbn; [by rewrite length_insert|done].
  - rewrite El. apply Forall_insert; [done|]. by apply merge_off.
  - split; [exact H1|]. unfold collapse. rewrite H2. unfold is_sacked. rewrite El.
    change (covers (<[i:=merge_blocks cur b]> (live s)) x = covers (live s) x || block_contains x b).
    rewrite (covers_perm _ _ x (delete_Permutation (live s) i cur Hl)).
    assert (<[i:=merge_blocks cur b]> (live s) !! i = Some (merge_blocks cur b)) as Hl'
      by (apply list_lookup_insert_eq; by rewrite length_live).
    rewrite (covers_perm _ _ x (delete_Permutation _ _ _ Hl')).
    replace (delete i (<[i:=merge_blocks cur b]> (live s))) with (delete i (live s)).
    2:{ apply list_eq. intros k. rewrite !lookup_delete_list.
        case_decide; rewrite list_lookup_insert_ne by lia; done. }
    unfold covers; cbn. rewrite (merge_contains base) by (done || by rewrite touches_sym).
    by rewrite <- !orb_assoc, (orb_comm (block_contains x b)).
Qed.

Lemma sack_insert_spec s b x :
  scoreboard_ok base s -> block_ok base b -> is_u32 x -> off base x < two31 ->
  scoreboard_ok base (sack_insert s b) /\
  is_sacked (sack_insert s b) x =
    covers (if evicts s b then drop 1 (live s) else live s) x || block_contains x b.
Proof.
  intros Hs Hb Hx Hox. pose proof Hs as [Hwf Hok Hsep].
  pose proof (scan_touch_live s b Hwf) as Hscan. unfold sack_insert, evicts.
  destruct (scan_touch _ _ _ _) as [i|] eqn:E.
  - destruct Hscan as (-> & Hi & Ht). cbn [negb andb]. by apply sack_insert_merge.
  - rewrite Hscan. cbn [negb andb]. destruct Hwf as [Hl Hc].
    destruct (Nat.ltb_spec (sc_count s) MAX_SACK_SCOREBOARD_ENTRIES) as [Hlt|Hge].
    + set (s1 := field_set _ _). assert (live s1 = live s ++ [b]) as El.
      { unfold s1, live; cbn. rewrite (take_S_r _ _ b) by (apply list_lookup_insert_eq; lia).
        by rewrite take_insert_ge. }
      rewrite (proj2 (Nat.eqb_neq _ _)) by lia. split.
      * split; [split; cbn; rewrite ?length_insert; lia| |]; rewrite El; [apply Forall_app_2; [done|by apply Forall_singleton]|].
        by apply separated_snoc.
      * unfold is_sacked. rewrite El, existsb_app. cbn. by rewrite orb_false_r.
    + assert (sc_count s = MAX_SACK_SCOREBOARD_ENTRIES) as Ec by lia.
      rewrite Ec, Nat.eqb_refl. set (s1 := field_set _ _).
      assert (live s = sc_blocks s) as Els by (unfold live; rewrite Ec, <- Hl; apply firstn_all).
      assert (live s1 = drop 1 (live s) ++ [b]) as El.
      { unfold s1, live at 1; cbn [field_set sc_blocks sc_count]. rewrite live_evict, Els, Ec by done.
        apply take_ge. rewrite length_app, length_drop, Hl. unfold MAX_SACK_SCOREBOARD_ENTRIES in *; cbn; lia. }
      split.
      * split; [split; cbn [sc_blocks sc_count s1]| |].
        { unfold s1. cbn [field_set sc_blocks]. rewrite live_evict, length_app, length_drop, Hl by done.
          reflexivity. }
        { unfold s1; cbn; lia. }
        { rewrite El. apply Forall_app_2; [by apply Forall_drop|by apply Forall_singleton]. }
        { rewrite El. apply separated_snoc; [by apply separated_drop|].
          apply not_true_iff_false. intros (c & Hc' & Ht)%existsb_exists.
          apply not_true_iff_false in Hscan. apply Hscan, existsb_exists. exists c. split; [|done].
          apply list_elem_of_In in Hc'. apply list_elem_of_In.
          apply list_elem_of_lookup_1 in Hc' as [k Hk]. rewrite lookup_drop in Hk.
          by eapply list_elem_of_lookup_2. }
      * unfold is_sacked. rewrite El, existsb_app. cbn [existsb]. by rewrite orb_false_r.
Qed.
End Operations.

(** ** Pruning *)

Definition clip_block (una : Z) (b : SackBlock) : SackBlock :=
  mkSackBlock (if seq_le (sb_left b) una then una else sb_left b) (sb_right b).

Fixpoint prune_list (una : Z) (bs : list SackBlock) : list SackBlock :=
  match bs with
  | [] => []
  | b :: bs => if seq_le (sb_right b) una then prune_list una bs
               else clip_block una b :: prune_list una bs
  end.

Lemma prune_loop_spec n i w una bs bs' w' :
  prune_loop n i w una bs = (bs', w') -> (w <= i)%nat -> (i + n <= length bs)%nat ->
  length bs' = length bs /\ (w <= w' <= w + n)%nat /\
  take w' bs' = take w bs ++ prune_list una (take n (drop i bs)).
Proof.
  revert i w bs. induction n as [|n IH]; intros i w bs H Hw Hn; cbn [prune_loop] in H.
  { injection H as <- <-. rewrite app_nil_r. split_and!; (done || lia). }
  destruct (lookup_some bs i ltac:(lia)) as [b Hb].
  unfold block_at in H. rewrite Hb in H. cbn [default id] in H.
  rewrite (drop_S _ _ _ Hb). cbn [take prune_list].
  destruct (seq_le (sb_right b) una) eqn:E.
  - apply IH in H as (? & ? & ->); [|lia..]. split_and!; (done || lia).
  - apply IH in H as (Hl & ? & Ht); [|lia|rewrite length_insert; lia].
    rewrite length_insert in Hl. split_and!; [done|lia..|]. rewrite Ht.
    rewrite drop_insert_lt by lia.
    rewrite (take_S_r _ _ (clip_block una b)) by (apply list_lookup_insert_eq; lia).
    rewrite take_insert_ge by lia. by rewrite <- app_assoc.
Qed.

Lemma sack_prune_live s una :
  scoreboard_wf s ->
  scoreboard_wf (sack_prune_below s una) /\ live (sack_prune_below s una) = prune_list una (live s).
Proof.
  intros [Hl Hc]. unfold sack_prune_below. destruct (prune_loop _ _ _ _ _) as [bs w] eqn:E.
  apply prune_loop_spec in E as (Hl' & Hw & Ht); [|lia..]. rewrite drop_0 in Ht.
  split; [split; cbn; lia|]. unfold live. cbn. by rewrite Ht.
Qed.

Lemma prune_list_elem una bs b' :
  b' ∈ prune_list una bs <-> exists b, b ∈ bs /\ seq_le (sb_right b) una = false /\ b' = clip_block una b.
Proof.
  induction bs as [|b bs IH]; cbn; [set_solver|].
  destruct (seq_le (sb_right b) una) eqn:E; [rewrite IH|rewrite elem_of_cons, IH]; clear IH; split.
  - intros (c & ? & ? & ?). exists c. set_solver.
  - intros (c & [->|?]%elem_of_cons & ? & ?); [congruence|]. by exists c.
  - intros [->|(c & ? & ? & ?)]; [exists b|exists c]; set_solver.
  - intros (c & [->|?]%elem_of_cons & ? & ->); [by left|]. right. by exists c.
Qed.

Section Prune.
Context (base una : Z) (Hu : is_u32 una) (Hou : off base una < two31).

Lemma clip_ok b :
  block_ok base b -> seq_le (sb_right b) una = false ->
  block_ok base (clip_block una b) /\
  off base (sb_left (clip_block una b)) = Z.max (off base una) (off base (sb_left b)) /\
  sb_right (clip_block una b) = sb_right b.
Proof.
  intros (Hl & Hr & Ho) Hgt. unfold clip_block, block_ok. cbn.
  pose proof (off_range base una). pose proof (off_range base (sb_left b)). unfold is_u32 in *.
  rewrite (seq_le_off base) by (done || unfold close; lia).
  rewrite (seq_le_off base) in Hgt by (done || unfold close; lia).
  apply Z.leb_gt in Hgt.
  destruct (Z.leb_spec (off base (sb_left b)) (off base una)); split_and!; try done; lia.
Qed.

Lemma prune_list_ok bs :
  Forall (block_ok base) bs -> separated bs ->
  Forall (block_ok base) (prune_list una bs) /\ separated (prune_list una bs).
Proof.
  intros Hok Hsep. split.
  { apply Forall_forall. intros c (b & Hb & Hgt & ->)%prune_list_elem.
    rewrite Forall_forall in Hok. by apply clip_ok; [apply Hok|]. }
  induction bs as [|b bs IH]; cbn; [done|]. apply Forall_cons in Hok as [Hb Hok].
  assert (separated bs) as Hsep' by (intros i j c d Hij; apply (Hsep (S i) (S j)); lia).
  destruct (seq_le (sb_right b) una) eqn:E; [by apply IH|].
  intros i j c d Hij Hc Hd. destruct j as [|j]; [lia|]. cbn in Hd. destruct i as [|i].
  2:{ cbn in Hc. apply (IH Hok Hsep' i j); [lia|done..]. }
  cbn in Hc. injection Hc as <-. apply list_elem_of_lookup_2, prune_list_elem in Hd as (e & He & Hgt & ->).
  rewrite Forall_forall in Hok. specialize (Hok e He).
  apply list_elem_of_lookup_1 in He as [k Hk].
  specialize (Hsep 0%nat (S k) b e ltac:(lia) eq_refl Hk).
  destruct (clip_ok b Hb E) as (Hb' & El & Er). destruct (clip_ok e Hok Hgt) as (He' & El' & Er').
  apply not_true_iff_false. intros Ht. apply not_true_iff_false in Hsep. apply Hsep.
  apply (touches_off base) in Ht; try done. apply (touches_off base); try done.
  rewrite El, El', Er, Er' in Ht. destruct Hb as (_ & _ & ?), Hok as (_ & _ & ?). lia.
Qed.

Lemma prune_list_covers bs x :
  Forall (block_ok base) bs -> is_u32 x -> off base x < two31 ->
  covers (prune_list una bs) x = covers bs x && seq_le una x.
Proof.
  intros Hok Hx Hox. induction Hok as [|b bs Hb Hok IH]; [done|]. cbn [prune_list].
  unfold covers in *; cbn [existsb].
  rewrite andb_orb_distrib_l, <- IH.
  destruct (seq_le (sb_right b) una) eqn:E; [|cbn [existsb]; f_equal].
  - rewrite (proj2 (andb_false_iff _ _)); [done|].
    destruct (block_contains x b) eqn:Hc; [right|by left].
    apply (block_contains_off base) in Hc; try done. pose proof Hb as (? & ? & ?).
    pose proof (off_range base una). pose proof (off_range base (sb_left b)). unfold is_u32 in *.
    rewrite (seq_le_off base) in E by (done || unfold close; lia).
    rewrite (seq_le_off base) by (done || unfold close; lia). lia.
  - destruct (clip_ok b Hb E) as (Hb' & El & Er). pose proof (off_range base una). pose proof (off_range base x).
    unfold is_u32 in *.
    apply eq_true_iff_eq. rewrite andb_true_iff, !(block_contains_off base), El, Er by done.
    rewrite (seq_le_off base) by (done || unfold close; lia). lia.
Qed.
End Prune.

(** ** Properties *)

(** C28. Inserting a block keeps the scoreboard invariant (at most four
    non-empty, pairwise non-touching ranges) and adds exactly the block's
    sequence numbers to the covered set; what can be lost is only the oldest
    block, and only when the array is full and the block touches none of its
    entries. *)
Theorem sack_insert_refines_set (base : Z) (s : SackScoreboard) (b : SackBlock)
    (Hs : scoreboard_ok base s) (Hb : block_ok base b) :
  scoreboard_ok base (sack_insert s b) /\
  (forall x, is_u32 x -> off base x < two31 ->
    is_sacked (sack_insert s b) x =
      covers (if evicts s b then drop 1 (live s) else live s) x || block_contains x b).
Proof.
  split; [|intros x Hx Hox; by eapply sack_insert_spec].
  apply (sack_insert_spec base s b (sb_left b)); try done; destruct Hb as (? & ? & ?); [done|lia].
Qed.

Lemma sack_insert_refines_set_witness :
  let s := sack_insert scoreboard_new (mkSackBlock 4294967290 10) in
  scoreboard_ok 4294967000 (sack_insert s (mkSackBlock 10 30)) /\
  is_sacked (sack_insert s (mkSackBlock 10 30)) 29 = true.
Proof.
  assert (forall l r, is_u32 l -> is_u32 r -> off 4294967000 l < off 4294967000 r < two31 ->
    block_ok 4294967000 (mkSackBlock l r)) as Hok by done.
  pose proof (sack_insert_refines_set 4294967000 scoreboard_new (mkSackBlock 4294967290 10)
    (scoreboard_new_ok _) ltac:(apply Hok; by vm_compute)) as [H1 _].
  pose proof (sack_insert_refines_set 4294967000 _ (mkSackBlock 10 30) H1
    ltac:(apply Hok; by vm_compute)) as [H2 H3].
  split; [exact H2|]. rewrite H3 by (by vm_compute). by vm_compute.
Defined.

(** Pruning at the cumulative ACK keeps the scoreboard invariant and
    removes exactly the sequence numbers below the ACK from the covered set. *)
Theorem sack_prune_refines_set (base una : Z) (s : SackScoreboard)
    (Hs : scoreboard_ok base s) (Hu : is_u32 una) (Hou : off base una < two31) :
  scoreboard_ok base (sack_prune_below s una) /\
  (forall x, is_u32 x -> off base x < two31 ->
    is_sacked (sack_prune_below s una) x = is_sacked s x && seq_le una x).
Proof.
  destruct Hs as [Hwf Hok Hsep]. destruct (sack_prune_live s una Hwf) as [Hwf' El].
  destruct (prune_list_ok base una Hu Hou (live s) Hok Hsep) as [Hok' Hsep']. split.
  - split; [done|by rewrite El..].
  - intros x Hx Hox. unfold is_sacked. rewrite El. by apply prune_list_covers with base.
Qed.

Lemma sack_prune_refines_set_witness :
  let s := sack_insert scoreboard_new (mkSackBlock 100 200) in
  is_sacked (sack_prune_below s 150) 149 = false /\ is_sacked (sack_prune_below s 150) 150 = true.
Proof.
  assert (scoreboard_ok 0 (sack_insert scoreboard_new (mkSackBlock 100 200))) as Hs.
  { eapply sack_insert_spec with (x := 100); [apply scoreboard_new_ok|by vm_compute..]. }
  destruct (sack_prune_refines_set 0 150 _ Hs ltac:(by vm_compute) ltac:(by vm_compute)) as [_ H].
  cbn zeta. rewrite !H by (by vm_compute). by vm_compute.
Defined.
