(* ===== verification/Mbuf.v ===== *)
(** * Packet-buffer references ([mempool.rs], and [InOrderSegment] of [tcp_conn.rs])

    An mbuf is named by its address.  The code never computes with the
    reference count: it calls DPDK to change it.  Operations therefore return
    the list of those calls, and [ref_delta] is their documented effect on the
    count of one mbuf.  [Owner] says how many references a structure holds, so
    that conservation is "owned after = owned before + calls made". *)

From S2P Require Import Prelude.

Definition MbufId : Type := Z.

(** The DPDK calls that change a reference count. *)
Inductive MbufOp :=
  | RefcntUpdate (m : MbufId) (delta : Z)
  | FreeSeg (m : MbufId).

#[export] Instance MbufOp_eq_dec : EqDecision MbufOp.
Proof. solve_decision. Defined.

(** Effect of one call on the count of [m]. *)
Definition op_delta (m : MbufId) (op : MbufOp) : Z :=
  match op with
  | RefcntUpdate m' d => if m' =? m then d else 0
  | FreeSeg m' => if m' =? m then -1 else 0
  end.

Definition ref_delta (m : MbufId) (ops : list MbufOp) : Z := zsum (op_delta m) ops.

(** ** Owners of references *)

Class Owner (A : Type) := owned : MbufId -> A -> Z.

#[export] Instance list_owner {A} `{Owner A} : Owner (list A) := fun m l => zsum (owned m) l.
#[export] Instance option_owner {A} `{Owner A} : Owner (option A) :=
  fun m o => match o with Some a => owned m a | None => 0 end.
#[export] Instance prod_owner {A B} `{Owner A} `{Owner B} : Owner (A * B) :=
  fun m p => owned m (fst p) + owned m (snd p).

(** [MbufHandle]: owns exactly one reference. *)
Record MbufHandle := mkMbufHandle { h_ptr : MbufId }.

#[export] Instance MbufHandle_owner : Owner MbufHandle :=
  fun m h => if h_ptr h =? m then 1 else 0.

(** [MbufHandle::try_clone]. *)
Definition try_clone (h : MbufHandle) : MbufHandle * list MbufOp :=
  (mkMbufHandle (h_ptr h), [RefcntUpdate (h_ptr h) 1]).

Definition MBUF_DROP_UNEXPECTED_THRESHOLD : Z := 8.

(** [Drop for MbufHandle]: given the count read before the release, the calls
    made and whether the [mbuf_refcnt_drop_unexpected] diagnostic fires. *)
Definition handle_drop (pre : Z) (h : MbufHandle) : list MbufOp * bool :=
  let post := sat_sub pre 1 in
  ([FreeSeg (h_ptr h)], (pre =? 0) || (MBUF_DROP_UNEXPECTED_THRESHOLD <? post)).

(** [InOrderSegment]: a view of [len] bytes at [offset] of a held mbuf. *)
Record InOrderSegment := mkInOrderSegment {
  io_mbuf : MbufHandle;
  io_offset : Z;
  io_len : Z;
}.

#[export] Instance InOrderSegment_eta : Settable InOrderSegment := fun s =>
  mkInOrderSegment (io_mbuf s) (io_offset s) (io_len s).

#[export] Instance InOrderSegment_owner : Owner InOrderSegment := fun m s => owned m (io_mbuf s).

(** ** Laws *)

Lemma ref_delta_nil m : ref_delta m [] = 0.
Proof. done. Qed.
Lemma ref_delta_app m a b : ref_delta m (a ++ b) = ref_delta m a + ref_delta m b.
Proof. apply zsum_app. Qed.
Lemma ref_delta_cons m op a : ref_delta m (op :: a) = op_delta m op + ref_delta m a.
Proof. done. Qed.

Section ListOwner.
Context {A : Type} `{Owner A} (m : MbufId).

Lemma owned_nil : owned m (@nil A) = 0.
Proof. done. Qed.
Lemma owned_cons (x : A) l : owned m (x :: l) = owned m x + owned m l.
Proof. done. Qed.
Lemma owned_app (l k : list A) : owned m (l ++ k) = owned m l + owned m k.
Proof. apply zsum_app. Qed.
Lemma owned_perm (l k : list A) : l ≡ₚ k -> owned m l = owned m k.
Proof. induction 1; rewrite ?owned_cons; lia. Qed.
End ListOwner.

#[export] Hint Rewrite @owned_nil @owned_cons @owned_app @ref_delta_nil @ref_delta_app @ref_delta_cons : zsums.

Ltac refs := autorewrite with zsums; cbn [op_delta]; try lia.

Lemma try_clone_conserves m h :
  owned m (fst (try_clone h)) + owned m h = owned m h + ref_delta m (snd (try_clone h)).
Proof. unfold try_clone. cbn [fst snd]. refs. unfold owned, MbufHandle_owner. cbn. lia. Qed.

Lemma handle_drop_conserves m pre h :
  0 = owned m h + ref_delta m (fst (handle_drop pre h)).
Proof. unfold handle_drop. cbn [fst]. refs. unfold owned, MbufHandle_owner. destruct (h_ptr h =? m); lia. Qed.
