(* ===== verification/Linearize.v ===== *)
(** * Packet chains: lib.rs

    [mbuf_data_slice_for_rx] reads the bytes of a received packet: those of its only
    segment, or the segments of a chain copied one after the other.  What the driver's
    memory holds is the function [data] and the links are [next], neither assumed well formed. *)

From S2P Require Import Prelude.
From S2P Require Import Mbuf.

Section Chain.
Context (data : MbufId -> list Z) (next : MbufId -> option MbufId).

(** The walk of at most [links] segments, [room] bytes of the packet's length being left. *)
Fixpoint linearize_loop (links : nat) (cur : option MbufId) (room : nat) : list Z :=
  match links, cur with
  | S links, Some m =>
      if (room =? 0)%nat then [] else
      let take_ := Nat.min (length (data m)) room in
      take take_ (data m) ++ linearize_loop links (next m) (room - take_)
  | _, _ => []
  end.

(** The bytes, and whether [eth.rx_multi_seg_linearized] is bumped. *)
Definition mbuf_data_slice_for_rx (nb_segs pkt_len : nat) (m : MbufId) : list Z * bool :=
  if (nb_segs <=? 1)%nat then (data m, false) else (linearize_loop nb_segs (Some m) pkt_len, true).

(** The segments a walk of [links] steps visits. *)
Fixpoint walked (links : nat) (cur : option MbufId) : list MbufId :=
  match links, cur with
  | S links, Some m => m :: walked links (next m)
  | _, _ => []
  end.

(** [l] is the chain from [cur], properly ended. *)
Fixpoint chained (cur : option MbufId) (l : list MbufId) : Prop :=
  match l with
  | [] => cur = None
  | m :: l => cur = Some m /\ chained (next m) l
  end.

Lemma linearize_walked links cur room :
  linearize_loop links cur room = take room (mjoin (data <$> walked links cur)).
Proof.
  revert cur room. induction links as [|links IH]; intros [m|] room; cbn [linearize_loop walked].
  1, 2, 4: by destruct room.
  change (mjoin (data <$> m :: walked links (next m))) with (data m ++ mjoin (data <$> walked links (next m))).
  destruct (Nat.eqb_spec room 0) as [->|Hr]; [by rewrite take_0|]. rewrite IH.
  destruct (Nat.le_gt_cases (length (data m)) room).
  - rewrite Nat.min_l, take_ge, take_app_ge by lia. done.
  - rewrite Nat.min_r, Nat.sub_diag, take_0, app_nil_r, take_app_le by lia. done.
Qed.

Lemma walked_chained l : forall cur links, chained cur l -> (length l <= links)%nat -> walked links cur = l.
Proof.
  induction l as [|m l IH]; intros cur links; cbn [chained length].
  - intros -> _. by destruct links.
  - intros [-> Hc] Hl. destruct links as [|links]; [lia|]. cbn [walked]. f_equal. apply IH; [done|lia].
Qed.

(** Reading a received packet: for a chain as DPDK describes it (as many links as the head
    says, ended by null, lengths summing up to the packet's) the bytes are those of
    all its segments in order.  Whatever the chain looks like, cycles, empty segments and
    wrong counts included, the walk ends, no byte beyond the packet's length is produced and
    the bytes are a prefix of those of the segments visited. *)
Lemma mbuf_data_slice_exact (nb_segs pkt_len : nat) (m : MbufId) : (1 < nb_segs)%nat ->
  let out := (mbuf_data_slice_for_rx nb_segs pkt_len m).1 in
  (length out <= pkt_len)%nat /\ (exists rest, mjoin (data <$> walked nb_segs (Some m)) = out ++ rest) /\
  forall l, chained (Some m) l -> length l = nb_segs -> pkt_len = length (mjoin (data <$> l)) ->
    out = mjoin (data <$> l).
Proof.
  intros Hn out. subst out. unfold mbuf_data_slice_for_rx. rewrite (proj2 (Nat.leb_gt _ _)) by lia. cbn [fst].
  rewrite linearize_walked. split_and!.
  - rewrite length_take. lia.
  - exists (drop pkt_len (mjoin (data <$> walked nb_segs (Some m)))). by rewrite take_drop.
  - intros l Hc <- ->. rewrite (walked_chained l) by done. by rewrite take_ge.
Qed.
End Chain.

(** A chain of three with an empty middle, and one that runs in a circle. *)
Example linearize_three :
  mbuf_data_slice_for_rx (fun m => if m =? 1 then [10; 11] else if m =? 2 then [] else [12])
    (fun m => if m <? 3 then Some (m + 1) else None) 3 3 1 = ([10; 11; 12], true).
Proof. reflexivity. Qed.

Example linearize_cycle :
  mbuf_data_slice_for_rx (fun m => [m]) (fun m => Some (3 - m)) 3 9 1 = ([1; 2; 1], true).
Proof. reflexivity. Qed.
