(* ===== verification/Reassembly.v ===== *)
(** * Out-of-order reassembly queue ([tcp_reassembly.rs])

    The queue stores views into mbufs, sorted by sequence number.  Positions
    are measured from a base sequence number ([off base]); [sview] gives the
    stream interval of a stored view, and the theorems relate the queue to the
    byte stream behind the views. *)

From stdpp Require Import sorting.
From S2P Require Import Prelude.
From S2P Require Import Seq.
From S2P Require Import Mbuf.

(** ** Data *)

Record OooSegment := mkOooSegment {
  os_seq : Z;
  os_mbuf : MbufId;
  os_offset : Z;
  os_len : Z;
}.

#[export] Instance OooSegment_owner : Owner OooSegment := fun m s => if os_mbuf s =? m then 1 else 0.

Definition end_seq (s : OooSegment) : Z := wadd32 (os_seq s) (os_len s).

Record InsertOutcome := mkInsertOutcome {
  newly_buffered : Z;
  cap_dropped : Z;
  mbuf_ref_retained : bool;
}.

Record ReorderQueue := mkReorderQueue {
  segments : list OooSegment;
  rq_cap : Z;
  total_bytes : Z;
}.

#[export] Instance ReorderQueue_eta : Settable ReorderQueue := fun q =>
  mkReorderQueue (segments q) (rq_cap q) (total_bytes q).

#[export] Instance ReorderQueue_owner : Owner ReorderQueue := fun m q => owned m (segments q).

(** [ReorderQueue::new]. *)
Definition reorder_new (cap : Z) : ReorderQueue := mkReorderQueue [] cap 0.

Definition reorder_is_empty (q : ReorderQueue) : bool :=
  match segments q with [] => true | _ => false end.

(** ** Operations *)

Definition drop_segment_mbuf_ref (s : OooSegment) : MbufOp := FreeSeg (os_mbuf s).

(** [clear]: the queue emptied and the calls made. *)
Definition reorder_clear (q : ReorderQueue) : ReorderQueue * list MbufOp :=
  (q <| segments := [] |> <| total_bytes := 0 |>, map drop_segment_mbuf_ref (segments q)).

(** [Drop for ReorderQueue]. *)
Definition reorder_drop (q : ReorderQueue) : list MbufOp := map drop_segment_mbuf_ref (segments q).

(** The locals of [insert]. *)
Record Carve := mkCarve {
  cv_cursor : Z;
  cv_newly : Z;
  cv_dropped : Z;
  cv_pending : list (Z * Z * Z);
}.

#[export] Instance Carve_eta : Settable Carve := fun c =>
  mkCarve (cv_cursor c) (cv_newly c) (cv_dropped c) (cv_pending c).

Section Insert.
Context (q : ReorderQueue) (seq plen : Z) (mbuf : MbufId) (mbuf_payload_offset : Z).

(** Store what fits of the [want] bytes at the cursor ([off] bytes into the
    payload), count the rest as dropped. *)
Definition carve_take (off want : Z) (c : Carve) : Carve :=
  let remaining_cap := sat_sub (rq_cap q) (wadd32 (total_bytes q) (cv_newly c)) in
  let take := Z.min want remaining_cap in
  let c := if 0 <? take then
             c <| cv_pending ::= fun p =>
                    p ++ [(cv_cursor c, u16 (mbuf_payload_offset + u16 off), u16 take)] |>
               <| cv_newly := wadd32 (cv_newly c) (u32 take) |>
           else c in
  if take <? want then c <| cv_dropped := wadd32 (cv_dropped c) (u32 (want - take)) |> else c.

(** One turn of the scan; [None] is [break]. *)
Definition carve_step (existing : OooSegment) (c : Carve) : option Carve :=
  let incoming_end := wadd32 seq (u32 plen) in
  let existing_seq := os_seq existing in
  let existing_end := end_seq existing in
  if seq_le incoming_end existing_seq then None
  else if seq_le existing_end (cv_cursor c) then Some c
  else
    let c :=
      if seq_lt (cv_cursor c) existing_seq then
        let gap_len := wsub32 existing_seq (cv_cursor c) in
        let off := wsub32 (cv_cursor c) seq in
        let want := Z.min gap_len (u64 (plen - off)) in
        let c' := carve_take off want c in
        c' <| cv_cursor := wadd32 (cv_cursor c) (u32 want) |>
      else c in
    Some (if seq_lt (cv_cursor c) existing_end then c <| cv_cursor := existing_end |> else c).

Fixpoint carve_scan (segs : list OooSegment) (c : Carve) : Carve :=
  match segs with
  | [] => c
  | existing :: segs =>
      match carve_step existing c with
      | None => c
      | Some c => carve_scan segs c
      end
  end.

(** The bytes past the last stored segment. *)
Definition carve_tail (c : Carve) : Carve :=
  let incoming_end := wadd32 seq (u32 plen) in
  if seq_lt (cv_cursor c) incoming_end then
    let off := wsub32 (cv_cursor c) seq in
    carve_take off (u64 (plen - off)) c
  else c.
End Insert.

Fixpoint insert_merged (new : OooSegment) (segs : list OooSegment) : list OooSegment :=
  match segs with
  | [] => [new]
  | s :: rest =>
      if seq_lt (os_seq new) (os_seq s) then new :: s :: rest else s :: insert_merged new rest
  end.

Definition pending_segment (mbuf : MbufId) (p : Z * Z * Z) : OooSegment :=
  let '(cursor_seq, sub_offset, take_len) := p in mkOooSegment cursor_seq mbuf sub_offset take_len.

(** [as i16]. *)
Definition as_i16 (z : Z) : Z := let w := z mod two16 in if w <? 32768 then w else w - two16.

Definition reorder_insert (q : ReorderQueue) (seq plen : Z) (mbuf : MbufId) (mbuf_payload_offset : Z)
    : ReorderQueue * InsertOutcome * list MbufOp :=
  if plen =? 0 then (q, mkInsertOutcome 0 0 false, [])
  else
    let c := carve_scan q seq plen mbuf_payload_offset (segments q) (mkCarve seq 0 0 []) in
    let c := carve_tail q seq plen mbuf_payload_offset c in
    let stored_count := u32 (zlen (cv_pending c)) in
    let segs := fold_left (fun segs p => insert_merged (pending_segment mbuf p) segs)
                          (cv_pending c) (segments q) in
    (q <| segments := segs |> <| total_bytes ::= fun t => wadd32 t (cv_newly c) |>,
     mkInsertOutcome (cv_newly c) (cv_dropped c) (0 <? stored_count),
     if 1 <? stored_count then [RefcntUpdate mbuf (as_i16 (stored_count - 1))] else []).

(** State of the drain loop: the locals and the queue's byte count. *)
Record Drain := mkDrain {
  dr_rcv_nxt : Z;
  dr_room : Z;
  dr_total_bytes : Z;
  dr_out : list InOrderSegment;
  dr_total : Z;
  dr_dropped : Z;
  dr_ops : list MbufOp;
}.

#[export] Instance Drain_eta : Settable Drain := fun d =>
  mkDrain (dr_rcv_nxt d) (dr_room d) (dr_total_bytes d) (dr_out d) (dr_total d) (dr_dropped d) (dr_ops d).

(** Body of the drain loop for a head segment not beyond [rcv_nxt]. *)
Definition drain_head (s : OooSegment) (d : Drain) : Drain :=
  let d := d <| dr_total_bytes ::= fun t => sat_sub t (os_len s) |> in
  if seq_le (end_seq s) (dr_rcv_nxt d) then
    d <| dr_ops ::= fun o => o ++ [drop_segment_mbuf_ref s] |>
  else
    let skip := u16 (wsub32 (dr_rcv_nxt d) (os_seq s)) in
    let kept_bytes := wsub32 (os_len s) skip in
    let appended := u16 (Z.min kept_bytes (dr_room d)) in
    let overshoot := wsub32 kept_bytes appended in
    let d :=
      if 0 <? appended then
        d <| dr_out ::= fun o => o ++ [mkInOrderSegment (mkMbufHandle (os_mbuf s))
                                         (u16 (os_offset s + skip)) appended] |>
          <| dr_total ::= fun t => wadd32 t appended |>
          <| dr_room ::= fun r => wsub32 r appended |>
      else d <| dr_ops ::= fun o => o ++ [drop_segment_mbuf_ref s] |> in
    d <| dr_dropped ::= fun c => wadd32 c overshoot |>
      <| dr_rcv_nxt ::= fun n => wadd32 n appended |>.

Fixpoint drain_loop (segs : list OooSegment) (d : Drain) : list OooSegment * Drain :=
  match segs with
  | [] => ([], d)
  | s :: rest =>
      if seq_lt (dr_rcv_nxt d) (os_seq s) then (segs, d) else drain_loop rest (drain_head s d)
  end.

(** Result of [drain_contiguous_into]: the queue, the segments appended to the
    caller's deque, the bytes appended, the bytes dropped, the calls made. *)
Definition drain_contiguous_into (q : ReorderQueue) (rcv_nxt cap_room : Z)
    : ReorderQueue * list InOrderSegment * Z * Z * list MbufOp :=
  let '(segs, d) := drain_loop (segments q)
                      (mkDrain rcv_nxt cap_room (total_bytes q) [] 0 0 []) in
  (q <| segments := segs |> <| total_bytes := dr_total_bytes d |>,
   dr_out d, dr_total d, dr_dropped d, dr_ops d).

Example carve_two_gaps :
  let q := mkReorderQueue [mkOooSegment 110 7 0 10; mkOooSegment 130 7 0 10] 1000 20 in
  let '(q', o, ops) := reorder_insert q 100 50 9 40 in
  map os_seq (segments q') = [100; 110; 120; 130; 140] /\ newly_buffered o = 30 /\ ops = [RefcntUpdate 9 2].
Proof. by vm_compute. Qed.

(** ** Stored views as stream intervals *)

Section Intervals.
Context (base : Z).

Definition so (s : OooSegment) : Z := off base (os_seq s).
Definition eo (s : OooSegment) : Z := so s + os_len s.

(** A non-empty view inside a 16-bit data room, ending less than half the
    circle past the base. *)
Record seg_ok (s : OooSegment) : Prop := {
  seg_ok_seq : is_u32 (os_seq s);
  seg_ok_len : 0 < os_len s;
  seg_ok_off : 0 <= os_offset s;
  seg_ok_room : os_offset s + os_len s < two16;
  seg_ok_end : eo s < two31;
}.

Definition before (a b : OooSegment) : Prop := eo a <= so b.
Definition disj (a b : OooSegment) : Prop := before a b \/ before b a.

(** Stream position [x] is stored. *)
Definition stored (segs : list OooSegment) (x : Z) : Prop := Exists (fun s => so s <= x < eo s) segs.

Record rq_ok (q : ReorderQueue) : Prop := {
  rq_ok_segs : Forall seg_ok (segments q);
  rq_ok_sorted : StronglySorted before (segments q);
  rq_ok_total : total_bytes q = zsum os_len (segments q);
  rq_ok_bound : total_bytes q <= rq_cap q;
  rq_ok_cap : is_u32 (rq_cap q);
}.

Lemma so_nonneg s : 0 <= so s.
Proof. apply off_range. Qed.

Lemma so_eo s : seg_ok s -> 0 <= so s < eo s /\ eo s < two31.
Proof. intros []. pose proof (so_nonneg s). unfold eo in *. lia. Qed.

Lemma end_seq_range s : is_u32 (end_seq s).
Proof. apply wadd32_range. Qed.

Lemma off_end s : seg_ok s -> off base (end_seq s) = eo s.
Proof.
  intros [? ? ? ? He]. unfold end_seq, eo, so in *. pose proof (off_range base (os_seq s)).
  apply off_wadd. width_lia.
Qed.

(** *** Sorted insertion *)

Lemma insert_merged_perm new segs : insert_merged new segs ≡ₚ new :: segs.
Proof.
  induction segs as [|s segs IH]; cbn; [done|]. destruct (seq_lt _ _); [done|].
  rewrite IH. constructor.
Qed.

Lemma insert_merged_sorted new segs :
  seg_ok new -> Forall seg_ok segs -> Forall (disj new) segs ->
  StronglySorted before segs -> StronglySorted before (insert_merged new segs).
Proof.
  intros Hn Hok Hd Hs. induction segs as [|s segs IH]; cbn; [by repeat constructor|].
  apply Forall_cons in Hok as [Hs1 Hok]. apply Forall_cons in Hd as [Hd1 Hd].
  apply StronglySorted_inv in Hs as [Hs Hb]. pose proof Hn as [? ? ? ? ?]. pose proof Hs1 as [? ? ? ? ?].
  pose proof (so_nonneg s). pose proof (so_nonneg new). unfold eo in *.
  rewrite (seq_lt_off base); [|done..|unfold close, so in *; lia].
  fold (so new) (so s). destruct (Z.ltb_spec (so new) (so s)) as [Hlt|Hge].
  - constructor; [by constructor|]. constructor.
    + destruct Hd1; unfold before, eo in *; [done|lia].
    + eapply Forall_impl; [exact Hb|]. intros t Ht. unfold before, eo in *.
      destruct Hd1; unfold before, eo in *; lia.
  - constructor; [by apply IH|]. rewrite insert_merged_perm. constructor; [|done].
    destruct Hd1; unfold before, eo in *; [lia|done].
Qed.

Lemma insert_all_spec news segs :
  Forall seg_ok news -> Forall seg_ok segs ->
  Forall (fun n => Forall (disj n) segs) news -> StronglySorted before news ->
  StronglySorted before segs ->
  let segs' := fold_left (fun segs p => insert_merged p segs) news segs in
  StronglySorted before segs' /\ segs' ≡ₚ news ++ segs.
Proof.
  revert segs. induction news as [|n news IH]; intros segs Hn Hok Hd Hsn Hs; cbn; [done|].
  apply Forall_cons in Hn as [Hn1 Hn]. apply Forall_cons in Hd as [Hd1 Hd].
  apply StronglySorted_inv in Hsn as [Hsn Hb].
  destruct (IH (insert_merged n segs)) as [H1 H2].
  - done.
  - rewrite insert_merged_perm. by constructor.
  - apply Forall_forall. intros m Hm. rewrite insert_merged_perm.
    rewrite Forall_forall in Hd, Hb. constructor; [right; by apply Hb|by apply Hd].
  - done.
  - by apply insert_merged_sorted.
  - split; [done|]. rewrite H2, insert_merged_perm. symmetry. apply Permutation_middle.
Qed.
End Intervals.

(** ** The carve *)

Section CarveProof.
Context (base : Z) (q : ReorderQueue) (Hq : rq_ok base q).
Context (seq plen mbuf moff : Z).
Context (Hseq : is_u32 seq) (Hplen : 0 < plen) (Hend : off base seq + plen < two31)
        (Hmoff : 0 <= moff) (Hroom : moff + plen < two16).

Abbreviation A := (off base seq).
Abbreviation E := (off base seq + plen).
Abbreviation pend c := (map (pending_segment mbuf) (cv_pending c)).

(** A view carved out of the payload: inside it, at the matching offset of
    the mbuf, clear of everything stored. *)
Record carved (s : OooSegment) : Prop := {
  carved_ok : seg_ok base s;
  carved_mbuf : os_mbuf s = mbuf;
  carved_in : A <= so base s /\ eo base s <= E;
  carved_off : os_offset s = moff + (so base s - A);
  carved_clear : Forall (disj base s) (segments q);
}.

(** The scan invariant at cursor position [C]: [done] are the segments passed. *)
Record carve_inv (slack : Z) (done : list OooSegment) (c : Carve) : Prop := {
  ci_cursor : is_u32 (cv_cursor c);
  ci_pos : A <= off base (cv_cursor c) < two31;
  ci_done : Forall (fun s => eo base s <= off base (cv_cursor c)) done;
  ci_pend : Forall (fun s => carved s /\ eo base s <= off base (cv_cursor c)) (pend c);
  ci_sorted : StronglySorted (before base) (pend c);
  ci_newly : cv_newly c = zsum os_len (pend c);
  ci_cap : total_bytes q + cv_newly c <= rq_cap q;
  ci_dropped : 0 <= cv_dropped c /\ cv_newly c + cv_dropped c <= Z.min (off base (cv_cursor c)) E - A;
  ci_count : 2 * zlen (cv_pending c) <= Z.min (off base (cv_cursor c)) E - A + slack;
  ci_cover : cv_dropped c = 0 -> forall x, A <= x < Z.min (off base (cv_cursor c)) E ->
    stored base (segments q) x \/ stored base (pend c) x;
}.

Lemma total_nonneg : 0 <= total_bytes q.
Proof.
  rewrite (rq_ok_total _ _ Hq). apply zsum_nonneg. intros s Hs.
  pose proof (rq_ok_segs _ _ Hq) as H. rewrite Forall_forall in H. destruct (H s Hs). lia.
Qed.

Lemma incoming_end_off : off base (wadd32 seq (u32 plen)) = E.
Proof.
  pose proof (off_range base seq). rewrite u32_id by width_lia. apply off_wadd. width_lia.
Qed.

Lemma carve_init : carve_inv 0 [] (mkCarve seq 0 0 []).
Proof.
  pose proof (rq_ok_bound _ _ Hq). pose proof total_nonneg. split; cbn; unfold zlen; cbn [length];
    try done; try lia; try by constructor.
Qed.

Lemma carve_inv_nonneg slack done c : carve_inv slack done c -> 0 <= cv_newly c.
Proof.
  intros I. rewrite (ci_newly _ _ _ I). apply zsum_nonneg. intros s Hs.
  pose proof (ci_pend _ _ _ I) as H. rewrite Forall_forall in H. destruct (H s Hs) as [[[]] _]. lia.
Qed.

(** [carve_take] with the wraps discharged. *)
Lemma carve_take_eq slack done c want :
  carve_inv slack done c -> off base (cv_cursor c) < E ->
  0 < want -> off base (cv_cursor c) + want <= E ->
  let d := off base (cv_cursor c) - A in
  let take := Z.min want (rq_cap q - (total_bytes q + cv_newly c)) in
  carve_take q moff (wsub32 (cv_cursor c) seq) want c =
    mkCarve (cv_cursor c) (cv_newly c + take) (cv_dropped c + (want - take))
      (cv_pending c ++ if 0 <? take then [(cv_cursor c, moff + d, take)] else []).
Proof.
  intros I HC Hw HE. pose proof (carve_inv_nonneg _ _ _ I) as Hnn.
  pose proof total_nonneg as Htn. pose proof (rq_ok_cap _ _ Hq) as Hcap.
  pose proof (ci_pos _ _ _ I) as Hpos. pose proof (ci_cap _ _ _ I). pose proof (ci_dropped _ _ _ I).
  pose proof (off_range base seq) as HA. cbn zeta.
  rewrite (wsub_off base) by lia. set (d := off base (cv_cursor c) - A) in *.
  unfold carve_take. cbn zeta.
  rewrite (wadd32_id (total_bytes q) (cv_newly c)) by width_lia.
  unfold sat_sub. rewrite Z.max_r by lia.
  set (take := Z.min want _) in *. assert (0 <= take <= want) by (unfold take; lia).
  rewrite (u32_id take), (u16_id d), (u16_id (moff + d)), (u16_id take), (u32_id (want - take)) by width_lia.
  assert (wadd32 (cv_newly c) take = cv_newly c + take) as En by (apply u32_id; width_lia).
  assert (wadd32 (cv_dropped c) (want - take) = cv_dropped c + (want - take)) as Ed by (apply u32_id; width_lia).
  destruct c as [cur nw dr pe]; cbn in *.
  destruct (Z.ltb_spec 0 take), (Z.ltb_spec take want); cbn; rewrite ?app_nil_r, ?En, ?Ed; f_equal; lia.
Qed.

Lemma view_carved cur take :
  is_u32 cur -> A <= off base cur -> 0 < take -> off base cur + take <= E ->
  Forall (fun s => eo base s <= off base cur \/ off base cur + take <= so base s) (segments q) ->
  carved (mkOooSegment cur mbuf (moff + (off base cur - A)) take).
Proof.
  intros Hc HA Ht HE Hcl. pose proof (off_range base seq).
  split; [split|..]; unfold eo, so; cbn; try done; try width_lia.
  eapply Forall_impl; [exact Hcl|]. intros s Hs. unfold disj, before, eo, so in *. cbn. lia.
Qed.

(** The view stored by [carve_take] at the cursor. *)
Lemma carve_take_inv slack done c want :
  carve_inv slack done c -> off base (cv_cursor c) < E ->
  0 < want -> off base (cv_cursor c) + want <= E ->
  Forall (fun s => eo base s <= off base (cv_cursor c) \/ off base (cv_cursor c) + want <= so base s)
    (segments q) ->
  let c' := carve_take q moff (wsub32 (cv_cursor c) seq) want c in
  off base (wadd32 (cv_cursor c) (u32 want)) = off base (cv_cursor c) + want /\
  carve_inv (slack + 1) done (c' <| cv_cursor := wadd32 (cv_cursor c) (u32 want) |>).
Proof.
  intros I HC Hw HE Hclear. cbn zeta. erewrite carve_take_eq by eassumption. cbn zeta.
  pose proof (off_range base seq) as HA. pose proof (carve_inv_nonneg _ _ _ I) as Hnn.
  destruct I as [Icur Ipos Idone Ipend Isort Inew Icap Idrop Icnt Icov].
  assert (off base (wadd32 (cv_cursor c) (u32 want)) = off base (cv_cursor c) + want) as Hcur'.
  { rewrite u32_id by width_lia. apply off_wadd. width_lia. }
  set (C := off base (cv_cursor c)) in *. set (take := Z.min want _).
  assert (0 <= take <= want) by (unfold take; lia).
  set (ext := if 0 <? take then _ else _). split; [done|].
  assert (Forall (fun s => carved s /\ so base s = C /\ eo base s = C + take)
            (map (pending_segment mbuf) ext)) as Hext.
  { unfold ext. destruct (Z.ltb_spec 0 take); [|constructor]. apply Forall_singleton.
    split; [|unfold eo, so; cbn; by fold C]. apply view_carved; fold C; try done; try lia.
    eapply Forall_impl; [exact Hclear|]. intros s Hs. cbn in Hs. lia. }
  assert (zsum os_len (map (pending_segment mbuf) ext) = take) as Hlen.
  { unfold ext. destruct (Z.ltb_spec 0 take); cbn; lia. }
  split; cbn [field_set cv_cursor cv_newly cv_dropped cv_pending]; rewrite ?Hcur', ?map_app.
  - apply wadd32_range.
  - width_lia.
  - eapply Forall_impl; [exact Idone|]. cbn. lia.
  - apply Forall_app_2; (eapply Forall_impl; [eassumption|]); cbn; intros ? ?; naive_solver lia.
  - apply StronglySorted_app. split_and!; [|done|].
    + intros a b Ha Hb. rewrite Forall_forall in Ipend, Hext.
      destruct (Ipend a Ha) as [_ ?], (Hext b Hb) as (_ & ? & _). unfold before. lia.
    + unfold ext. destruct (0 <? take); by repeat constructor.
  - rewrite zsum_app, Hlen. lia.
  - lia.
  - lia.
  - unfold ext. rewrite zlen_app. destruct (0 <? take); unfold zlen in *; cbn [length]; lia.
  - intros Hd0 x Hx. assert (take = want) as Etk by lia.
    destruct (decide (x < C)) as [Hlt|Hge].
    + destruct (Icov ltac:(lia) x ltac:(lia)); [by left|right]. apply Exists_app. by left.
    + right. apply Exists_app. right. unfold ext. rewrite (proj2 (Z.ltb_lt _ _)) by lia.
      apply Exists_cons. left. unfold eo, so; cbn. fold C. lia.
Qed.

(** Jumping over the segment under the cursor. *)
Lemma carve_jump slack done x c :
  carve_inv slack done c -> x ∈ segments q -> slack <= 1 ->
  (off base (cv_cursor c) < E \/ slack = 0) ->
  so base x <= off base (cv_cursor c) < eo base x ->
  carve_inv 0 (done ++ [x]) (c <| cv_cursor := end_seq x |>).
Proof.
  intros [Icur Ipos Idone Ipend Isort Inew Icap Idrop Icnt Icov] Hx Hsl Hor Hpos.
  pose proof (rq_ok_segs _ _ Hq) as Hok. rewrite Forall_forall in Hok. specialize (Hok x Hx) as Hxok.
  pose proof (off_end base x Hxok) as He. pose proof (seg_ok_end _ _ Hxok).
  split; cbn; rewrite ?He; try done; try lia.
  - apply end_seq_range.
  - apply Forall_app_2; [eapply Forall_impl; [exact Idone|]; cbn; lia|]. by apply Forall_singleton.
  - eapply Forall_impl; [exact Ipend|]. cbn. intros ? [? ?]. split; [done|lia].
  - intros Hd y Hy. destruct (decide (y < off base (cv_cursor c))) as [Hlt|Hge].
    + apply (Icov Hd). lia.
    + left. apply Exists_exists. exists x. split; [done|lia].
Qed.

Lemma carve_inv_snoc slack done x c :
  carve_inv slack done c -> eo base x <= off base (cv_cursor c) -> carve_inv slack (done ++ [x]) c.
Proof.
  intros [Icur Ipos Idone Ipend Isort Inew Icap Idrop Icnt Icov] Hx. split; try done.
  apply Forall_app_2; [done|]. by apply Forall_singleton.
Qed.

Lemma segs_split done x rest :
  segments q = done ++ x :: rest ->
  seg_ok base x /\ x ∈ segments q /\ Forall (fun s => eo base x <= so base s) rest.
Proof.
  intros E. pose proof (rq_ok_segs _ _ Hq) as Hok. pose proof (rq_ok_sorted _ _ Hq) as Hs.
  assert (x ∈ segments q) as Hx by (rewrite E; set_solver).
  rewrite Forall_forall in Hok. split_and!; [by apply Hok|done|].
  rewrite E in Hs. apply StronglySorted_app in Hs as (_ & _ & Hs). by apply StronglySorted_cons in Hs as [? _].
Qed.

Lemma carve_step_inv done x rest c :
  segments q = done ++ x :: rest -> carve_inv 0 done c ->
  match carve_step q seq plen moff x c with
  | None => E <= so base x
  | Some c' => carve_inv 0 (done ++ [x]) c'
  end.
Proof.
  intros Hsp I. destruct (segs_split _ _ _ Hsp) as (Hxok & Hx & Hrest).
  pose proof (off_range base seq) as HA. pose proof (ci_pos _ _ _ I) as Hpos. pose proof (ci_cursor _ _ _ I).
  pose proof (so_eo base x Hxok). pose proof (seg_ok_seq _ _ Hxok). pose proof (off_end base x Hxok) as He. pose proof (end_seq_range x).
  pose proof incoming_end_off as HEnd. unfold is_u32 in HA.
  unfold carve_step. cbn zeta.
  rewrite (seq_le_off base) by (apply wadd32_range || done || rewrite HEnd; fold (so base x); unfold close; lia).
  rewrite HEnd. fold (so base x). destruct (Z.leb_spec E (so base x)) as [|HxE]; [done|].
  rewrite (seq_le_off base) by (done || rewrite He; unfold close; lia). rewrite He.
  destruct (Z.leb_spec (eo base x) (off base (cv_cursor c))); [by apply carve_inv_snoc|].
  rewrite (seq_lt_off base (cv_cursor c) (os_seq x)) by (done || fold (so base x); unfold close; lia). fold (so base x).
  destruct (Z.ltb_spec (off base (cv_cursor c)) (so base x)) as [Hgap|Hin].
  - assert (wsub32 (os_seq x) (cv_cursor c) = so base x - off base (cv_cursor c)) as ->
      by (apply wsub_off; fold (so base x); lia).
    replace (u64 (plen - wsub32 (cv_cursor c) seq)) with (E - off base (cv_cursor c))
      by (rewrite (wsub_off base (cv_cursor c) seq), u64_id by width_lia; lia).
    rewrite Z.min_l by lia. set (want := so base x - _) in *.
    destruct (carve_take_inv 0 done c want I) as [Hc' I']; try (unfold want; lia).
    { apply Forall_forall. intros s Hs. rewrite Hsp in Hs.
      apply elem_of_app in Hs as [Hs|[->|Hs]%elem_of_cons]; [left|right; unfold want; lia|right].
      - pose proof (ci_done _ _ _ I) as Hd. rewrite Forall_forall in Hd. by apply Hd.
      - rewrite Forall_forall in Hrest. specialize (Hrest s Hs). unfold eo, want in *. lia. }
    set (c1 := field_set _ (carve_take _ _ _ _ _)) in *.
    assert (off base (cv_cursor c1) = so base x) as Hc1 by (unfold c1; cbn; rewrite Hc'; unfold want; lia).
    pose proof (ci_cursor _ _ _ I').
    rewrite (seq_lt_off base), He by (done || rewrite He, Hc1; unfold close; lia).
    rewrite (proj2 (Z.ltb_lt _ _)) by lia. eapply carve_jump; [exact I'|done|lia|lia|lia].
  - rewrite (seq_lt_off base), He by (done || rewrite He; unfold close; lia).
    rewrite (proj2 (Z.ltb_lt _ _)) by lia. eapply carve_jump; [exact I|done|lia|lia|lia].
Qed.

Lemma carve_scan_inv done rest c :
  segments q = done ++ rest -> carve_inv 0 done c ->
  let c' := carve_scan q seq plen moff rest c in
  exists done', carve_inv 0 done' c' /\
    Forall (fun s => s ∈ done' \/ E <= so base s) (segments q).
Proof.
  revert done c. induction rest as [|x rest IH]; intros done c Hsp I; cbn [carve_scan].
  { exists done. split; [done|]. rewrite app_nil_r in Hsp. rewrite Hsp. apply Forall_forall. by left. }
  pose proof (carve_step_inv _ _ _ _ Hsp I) as Hst.
  destruct (carve_step _ _ _ _ _ _) as [c'|]; cbn zeta.
  - apply (IH (done ++ [x])); [by rewrite <- app_assoc|done].
  - exists done. split; [done|]. destruct (segs_split _ _ _ Hsp) as (Hxok & Hx & Hrest).
    rewrite Hsp. apply Forall_app_2; [apply Forall_forall; by left|].
    pose proof (seg_ok_len _ _ Hxok).
    constructor; [by right|]. eapply Forall_impl; [exact Hrest|]. cbn. unfold eo. lia.
Qed.


(** The views added by one [insert]. *)
Lemma carve_final :
  let c := carve_tail q seq plen moff
             (carve_scan q seq plen moff (segments q) (mkCarve seq 0 0 [])) in
  Forall carved (pend c) /\ StronglySorted (before base) (pend c) /\
  cv_newly c = zsum os_len (pend c) /\ total_bytes q + cv_newly c <= rq_cap q /\
  0 <= cv_dropped c /\ cv_newly c + cv_dropped c <= plen /\
  2 * zlen (cv_pending c) <= plen + 1 /\
  (cv_dropped c = 0 -> forall x, A <= x < E -> stored base (segments q) x \/ stored base (pend c) x).
Proof.
  cbn zeta.
  destruct (carve_scan_inv [] (segments q) _ eq_refl carve_init) as (dn & I & Hall). cbn zeta in I.
  set (c := carve_scan _ _ _ _ _ _) in *.
  pose proof (ci_pos _ _ _ I) as Hpos. pose proof (ci_cursor _ _ _ I) as Hcu.
  pose proof incoming_end_off as HEnd. pose proof (off_range base seq) as HA. unfold is_u32 in HA.
  unfold carve_tail. cbn zeta.
  rewrite (seq_lt_off base), HEnd by (done || apply wadd32_range || rewrite HEnd; unfold close; lia).
  assert (forall (P : OooSegment -> Prop) Q l, Forall (fun s => P s /\ Q s) l -> Forall P l) as Hfst.
  { intros P Q l H. eapply Forall_impl; [exact H|]. by intros ? [? _]. }
  destruct (Z.ltb_spec (off base (cv_cursor c)) E) as [Hlt|Hge].
  - replace (u64 (plen - wsub32 (cv_cursor c) seq)) with (E - off base (cv_cursor c))
      by (rewrite (wsub_off base (cv_cursor c) seq), u64_id by width_lia; lia).
    destruct (carve_take_inv 0 dn c (E - off base (cv_cursor c)) I) as [Hc' I']; [lia..| |].
    { eapply Forall_impl; [exact Hall|]. cbn. intros s [Hs|Hs]; [left|right; lia].
      pose proof (ci_done _ _ _ I) as Hd. rewrite Forall_forall in Hd. by apply Hd. }
    destruct I' as [_ _ _ Ipend Isort Inew Icap Idrop Icnt Icov].
    cbn [field_set cv_cursor cv_newly cv_dropped cv_pending] in *. rewrite Hc' in *.
    split_and!; [exact (Hfst _ _ _ Ipend)|try done; try lia..].
    intros H0 x Hx. apply Icov; [done|lia].
  - destruct I as [_ _ _ Ipend Isort Inew Icap Idrop Icnt Icov].
    split_and!; [exact (Hfst _ _ _ Ipend)|try done; try lia..].
    intros H0 x Hx. apply Icov; [done|lia].
Qed.
End CarveProof.

(** ** The drain *)

Section DrainProof.
Context (base : Z).

Lemma drain_head_stale s d :
  seg_ok base s -> is_u32 (dr_rcv_nxt d) -> off base (dr_rcv_nxt d) < two31 ->
  eo base s <= off base (dr_rcv_nxt d) ->
  drain_head s d =
    d <| dr_total_bytes ::= fun t => sat_sub t (os_len s) |>
      <| dr_ops ::= fun o => o ++ [FreeSeg (os_mbuf s)] |>.
Proof.
  intros Hs Hr HR Hle. unfold drain_head.
  cbn [field_set dr_rcv_nxt dr_room dr_out dr_total dr_dropped dr_ops dr_total_bytes].
  pose proof (so_eo base s Hs). pose proof (off_range base (dr_rcv_nxt d)) as H0. unfold is_u32 in H0.
  rewrite (seq_le_off base), off_end
    by (done || apply end_seq_range || rewrite off_end by done; unfold close; lia).
  by rewrite (proj2 (Z.leb_le _ _)).
Qed.

Lemma drain_head_live s d :
  seg_ok base s -> is_u32 (dr_rcv_nxt d) -> off base (dr_rcv_nxt d) < two31 ->
  so base s <= off base (dr_rcv_nxt d) < eo base s -> is_u32 (dr_room d) ->
  let skip := off base (dr_rcv_nxt d) - so base s in
  let kept := eo base s - off base (dr_rcv_nxt d) in
  let appended := Z.min kept (dr_room d) in
  drain_head s d =
    mkDrain (wadd32 (dr_rcv_nxt d) appended) (dr_room d - appended)
      (sat_sub (dr_total_bytes d) (os_len s))
      (dr_out d ++ if 0 <? appended
                   then [mkInOrderSegment (mkMbufHandle (os_mbuf s)) (os_offset s + skip) appended] else [])
      (if 0 <? appended then wadd32 (dr_total d) appended else dr_total d)
      (wadd32 (dr_dropped d) (kept - appended))
      (dr_ops d ++ if 0 <? appended then [] else [FreeSeg (os_mbuf s)]).
Proof.
  intros Hs Hr HR Hin Hroom. cbn zeta. unfold drain_head.
  cbn [field_set dr_rcv_nxt dr_room dr_out dr_total dr_dropped dr_ops dr_total_bytes].
  pose proof (so_eo base s Hs). pose proof (off_range base (dr_rcv_nxt d)) as H0. unfold is_u32 in H0.
  pose proof Hs as [? ? ? Hw ?].
  rewrite (seq_le_off base), off_end
    by (done || apply end_seq_range || rewrite off_end by done; unfold close; lia).
  rewrite (proj2 (Z.leb_gt _ _)) by lia.
  assert (wsub32 (dr_rcv_nxt d) (os_seq s) = off base (dr_rcv_nxt d) - so base s) as ->
    by (apply wsub_off; fold (so base s); lia).
  set (skip := off base (dr_rcv_nxt d) - so base s).
  assert (0 <= skip < os_len s) by (unfold skip, eo in *; lia).
  rewrite (u16_id skip) by width_lia.
  rewrite (wsub32_id (os_len s) skip) by width_lia.
  replace (os_len s - skip) with (eo base s - off base (dr_rcv_nxt d)) by (unfold skip, eo; lia).
  set (kept := eo base s - _). assert (0 < kept < two16) by (unfold kept, eo in *; width_lia).
  unfold is_u32 in Hroom.
  set (app := Z.min kept _). assert (0 <= app <= kept /\ app <= dr_room d) by (unfold app; lia).
  rewrite (u16_id app), (wsub32_id kept app), (u16_id (os_offset s + skip)) by width_lia.
  destruct d; cbn in *. destruct (Z.ltb_spec 0 app); cbn; rewrite ?app_nil_r.
  - rewrite (wsub32_id dr_room0 app) by width_lia. done.
  - f_equal. lia.
Qed.

(** Content: [mem] gives the bytes of the mbufs, [S] the bytes of the stream
    at positions relative to the base. *)
Definition carries (mem : MbufId -> Z -> Z) (S : Z -> Z) (s : OooSegment) : Prop :=
  forall i, 0 <= i < os_len s -> mem (os_mbuf s) (os_offset s + i) = S (so base s + i).

Definition view_bytes (mem : MbufId -> Z -> Z) (v : InOrderSegment) : list Z :=
  map (fun i => mem (h_ptr (io_mbuf v)) (io_offset v + i)) (seqZ 0 (io_len v)).

Definition stream (S : Z -> Z) (a n : Z) : list Z := map (fun i => S (a + i)) (seqZ 0 n).

Lemma stream_app S a n k : 0 <= n -> 0 <= k -> stream S a (n + k) = stream S a n ++ stream S (a + n) k.
Proof.
  intros. unfold stream. rewrite seqZ_app, map_app by lia. f_equal.
  rewrite <- (fmap_add_seqZ (0 + n) 0) at 1 || rewrite <- (Z.add_0_r (0 + n)), <- (fmap_add_seqZ (0 + n) 0).
  rewrite map_map. apply map_ext. intros i. f_equal. lia.
Qed.

Lemma stream_nil S a : stream S a 0 = [].
Proof. done. Qed.

Lemma view_stream mem S v a :
  (forall i, 0 <= i < io_len v -> mem (h_ptr (io_mbuf v)) (io_offset v + i) = S (a + i)) ->
  view_bytes mem v = stream S a (io_len v).
Proof.
  intros H. apply map_ext_in. intros i Hi. apply H.
  apply list_elem_of_In, elem_of_seqZ in Hi. lia.
Qed.

(** What one run of the loop does: [outs] are the views appended, [ops] the
    calls made, [n] the bytes appended. *)
Record drained (segs : list OooSegment) (d : Drain) (segs' : list OooSegment) (d' : Drain)
    (outs : list InOrderSegment) (ops : list MbufOp) (n : Z) : Prop := {
  dn_out : dr_out d' = dr_out d ++ outs;
  dn_ops : dr_ops d' = dr_ops d ++ ops;
  dn_len : n = zsum io_len outs;
  dn_total : dr_total d' = dr_total d + n;
  dn_room : 0 <= n <= dr_room d;
  dn_rcv : dr_rcv_nxt d' = wadd32 (dr_rcv_nxt d) n;
  dn_rcv_off : off base (dr_rcv_nxt d') = off base (dr_rcv_nxt d) + n;
  dn_rcv_bound : off base (dr_rcv_nxt d') < two31;
  dn_suffix : exists k, segs' = drop k segs;
  dn_rest : Forall (fun s => off base (dr_rcv_nxt d') < so base s) segs';
  dn_bytes : dr_total_bytes d' = zsum os_len segs';
  dn_refs : forall m, owned m segs' + owned m outs = owned m segs + ref_delta m ops;
  dn_views : Forall (fun v => 0 < io_len v < two16) outs;
  dn_dropped : dr_dropped d <= dr_dropped d';
  dn_cover : dr_dropped d' = dr_dropped d -> forall x,
    stored base segs x -> off base (dr_rcv_nxt d') <= x -> stored base segs' x;
  dn_content : forall mem S, Forall (carries mem S) segs ->
    concat (map (view_bytes mem) outs) = stream S (off base (dr_rcv_nxt d)) n;
}.

Lemma drained_nothing segs d :
  0 <= dr_room d -> is_u32 (dr_rcv_nxt d) -> off base (dr_rcv_nxt d) < two31 ->
  Forall (fun s => off base (dr_rcv_nxt d) < so base s) segs ->
  dr_total_bytes d = zsum os_len segs -> drained segs d segs d [] [] 0.
Proof.
  intros Hr Hu HR Hf Ht.
  split; try done; rewrite ?app_nil_r, ?wadd32_0_r, ?Z.add_0_r; try done; try lia.
  by exists 0%nat.
Qed.

(** One head turn prepended to a run. *)
Lemma drained_cons s segs d d1 segs' d' outs ops n outs1 ops1 n1 :
  drained segs d1 segs' d' outs ops n ->
  is_u32 (dr_rcv_nxt d) -> 0 <= n1 <= dr_room d -> off base (dr_rcv_nxt d) + n1 < two31 ->
  dr_out d1 = dr_out d ++ outs1 -> dr_ops d1 = dr_ops d ++ ops1 ->
  n1 = zsum io_len outs1 -> Forall (fun v => 0 < io_len v < two16) outs1 ->
  dr_total d1 = dr_total d + n1 -> dr_room d1 = dr_room d - n1 ->
  dr_rcv_nxt d1 = wadd32 (dr_rcv_nxt d) n1 ->
  (forall m, owned m outs1 = owned m s + ref_delta m ops1) ->
  dr_dropped d <= dr_dropped d1 ->
  (dr_dropped d1 = dr_dropped d -> eo base s <= off base (dr_rcv_nxt d) + n1) ->
  (forall mem S, carries mem S s ->
    concat (map (view_bytes mem) outs1) = stream S (off base (dr_rcv_nxt d)) n1) ->
  drained (s :: segs) d segs' d' (outs1 ++ outs) (ops1 ++ ops) (n1 + n).
Proof.
  intros D Hu Hn1 Hb Eo Eops En1 Hv Et Er Ercv Hrefs Hdr Hcov Hcont.
  pose proof (off_range base (dr_rcv_nxt d)) as HR. unfold is_u32 in HR.
  assert (off base (dr_rcv_nxt d1) = off base (dr_rcv_nxt d) + n1) as Eoff
    by (rewrite Ercv; apply off_wadd; width_lia).
  destruct D as [D1 D2 D3 D4 D5 D6 D7 D8 D9 D10 D11 D12 D13 D14 D15 D16].
  split; try done; try lia.
  - by rewrite D1, Eo, app_assoc.
  - by rewrite D2, Eops, app_assoc.
  - rewrite zsum_app. lia.
  - rewrite D6, Ercv. apply wadd32_assoc.
  - destruct D9 as [k ->]. by exists (S k).
  - intros m. rewrite owned_app, owned_cons, ref_delta_app. specialize (D12 m). specialize (Hrefs m). lia.
  - by apply Forall_app_2.
  - intros Hd x Hx Hge. apply Exists_cons in Hx as [Hx|Hx]; [|apply D15; [lia|done|done]].
    specialize (Hcov ltac:(lia)). lia.
  - intros mem S Hc. apply Forall_cons in Hc as [Hs Hc].
    rewrite map_app, concat_app, (Hcont _ S), (D16 _ S), Eoff by done. symmetry. apply stream_app; lia.
Qed.

Lemma drain_loop_spec segs d :
  Forall (seg_ok base) segs -> StronglySorted (before base) segs ->
  is_u32 (dr_rcv_nxt d) -> off base (dr_rcv_nxt d) < two31 -> is_u32 (dr_room d) ->
  0 <= dr_total d -> dr_total d + zsum os_len segs < two32 ->
  0 <= dr_dropped d -> dr_dropped d + zsum os_len segs < two32 ->
  dr_total_bytes d = zsum os_len segs ->
  exists segs' d' outs ops n, drain_loop segs d = (segs', d') /\ drained segs d segs' d' outs ops n.
Proof.
  revert d. induction segs as [|s segs IH]; intros d Hok Hs Hu HR Hroom Ht Htb Hd Hdb Htot.
  { exists [], d, [], [], 0. split; [done|]. apply drained_nothing; (done || unfold is_u32 in Hroom; lia). }
  cbn [drain_loop]. apply Forall_cons in Hok as [Hs1 Hok]. apply StronglySorted_cons in Hs as [Hb Hs].
  pose proof (so_eo base s Hs1) as Hse. pose proof (off_range base (dr_rcv_nxt d)) as HR0. unfold is_u32 in HR0, Hroom.
  pose proof (seg_ok_seq _ _ Hs1). pose proof (seg_ok_len _ _ Hs1). pose proof (seg_ok_room _ _ Hs1). pose proof (seg_ok_off _ _ Hs1).
  assert (0 <= zsum os_len segs) as Hnn.
  { apply zsum_nonneg. intros t Ht'. rewrite Forall_forall in Hok. destruct (Hok t Ht'). lia. }
  rewrite zsum_cons in *.
  rewrite (seq_lt_off base) by (done || fold (so base s); unfold close; lia). fold (so base s).
  destruct (Z.ltb_spec (off base (dr_rcv_nxt d)) (so base s)) as [Hlt|Hge].
  { exists (s :: segs), d, [], [], 0. split; [done|]. apply drained_nothing; try done; try lia.
    constructor; [done|]. eapply Forall_impl; [exact Hb|]. unfold before. cbn. lia. }
  destruct (Z_le_gt_dec (eo base s) (off base (dr_rcv_nxt d))) as [Hst|Hlive].
  - pose proof (drain_head_stale s d Hs1 Hu HR Hst) as E.
    destruct (IH (drain_head s d)) as (segs' & d' & outs & ops & n & El & D); try done;
      try (rewrite E; cbn; unfold sat_sub; done || lia).
    exists segs', d', outs, (FreeSeg (os_mbuf s) :: ops), n. split; [done|].
    apply (drained_cons s segs d _ _ _ _ _ n [] [FreeSeg (os_mbuf s)] 0) in D; try done; rewrite ?E; cbn;
      rewrite ?app_nil_r, ?wadd32_0_r; try done; try lia.
    intros m. unfold owned, list_owner, OooSegment_owner. cbn. destruct (os_mbuf s =? m); lia.
  - pose proof (drain_head_live s d Hs1 Hu HR ltac:(lia) Hroom) as E. cbn zeta in E.
    set (kept := eo base s - off base (dr_rcv_nxt d)) in *. set (app := Z.min _ _) in *.
    assert (0 <= app <= kept /\ app <= dr_room d /\ kept <= os_len s) by (unfold app, kept, eo in *; lia).
    assert (app + zsum os_len segs < two32) by lia.
    assert (wadd32 (dr_total d) app = dr_total d + app) as Et by (apply wadd32_id; width_lia).
    assert (wadd32 (dr_dropped d) (kept - app) = dr_dropped d + (kept - app)) as Ed by (apply wadd32_id; width_lia).
    assert (off base (wadd32 (dr_rcv_nxt d) app) = off base (dr_rcv_nxt d) + app) as Er
      by (apply off_wadd; unfold kept, eo in *; width_lia).
    assert (dr_total (drain_head s d) = dr_total d + app) as Et'.
    { rewrite E. cbn. destruct (Z.ltb_spec 0 app); lia. }
    destruct (IH (drain_head s d)) as (segs' & d' & outs & ops & n & El & D); try done;
      try (rewrite E; cbn; rewrite ?Er, ?Ed; unfold sat_sub, kept, eo in *; apply wadd32_range || width_lia);
      try (rewrite Et'; lia).
    do 5 eexists. split; [exact El|].
    apply (drained_cons s segs d _ _ _ _ _ n
      (if 0 <? app then [mkInOrderSegment (mkMbufHandle (os_mbuf s))
         (os_offset s + (off base (dr_rcv_nxt d) - so base s)) app] else [])
      (if 0 <? app then [] else [FreeSeg (os_mbuf s)]) app) in D;
      [exact D|try done; try lia; try (rewrite E; cbn; done || lia)..].
    + destruct (Z.ltb_spec 0 app); cbn; lia.
    + destruct (Z.ltb_spec 0 app); [apply Forall_singleton; cbn; lia|constructor].
    + intros m. unfold owned, list_owner, InOrderSegment_owner, OooSegment_owner, owned, MbufHandle_owner.
      destruct (Z.ltb_spec 0 app), (os_mbuf s =? m) eqn:Em; cbn; rewrite ?Em; lia.
    + intros mem S Hc. destruct (Z.ltb_spec 0 app); cbn [map concat].
      * rewrite app_nil_r. apply view_stream. cbn. intros i Hi.
        rewrite <- Z.add_assoc, Hc by (unfold kept, eo in *; lia). f_equal. lia.
      * by replace app with 0 by lia.
Qed.
End DrainProof.

(** ** Insertion as a whole *)

Lemma fold_left_map_arg {A B C} (f : A -> B -> A) (g : C -> B) l a :
  fold_left f (map g l) a = fold_left (fun a x => f a (g x)) l a.
Proof. revert a. induction l as [|x l IH]; intros a; cbn; [done|]. apply IH. Qed.

Section InsertSpec.
Context (base : Z) (q : ReorderQueue) (seq plen mbuf moff : Z).

(** What a caller of [reorder_insert] guarantees: a payload of at most a u16
    data room, ending less than half the circle past the base. *)
Record insert_pre : Prop := {
  ip_ok : rq_ok base q;
  ip_seq : is_u32 seq;
  ip_len : 0 <= plen;
  ip_end : off base seq + plen < two31;
  ip_moff : 0 <= moff;
  ip_room : moff + plen < two16;
}.

(** The views one insertion adds. *)
Record inserted (q' : ReorderQueue) (o : InsertOutcome) (ops : list MbufOp)
    (news : list OooSegment) : Prop := {
  ins_perm : segments q' ≡ₚ news ++ segments q;
  ins_ok : rq_ok base q';
  ins_carved : Forall (carved base q seq plen mbuf moff) news;
  ins_newly : newly_buffered o = zsum os_len news;
  ins_total : total_bytes q' = total_bytes q + newly_buffered o;
  ins_retained : mbuf_ref_retained o = (0 <? zlen news);
  ins_ops : ref_delta mbuf ops = Z.max 0 (zlen news - 1) /\ forall m, m <> mbuf -> ref_delta m ops = 0;
  ins_dropped : 0 <= cap_dropped o /\ newly_buffered o + cap_dropped o <= plen;
  ins_cover : cap_dropped o = 0 -> forall x, off base seq <= x < off base seq + plen ->
    stored base (segments q') x;
}.

Lemma stored_perm l l' x : l ≡ₚ l' -> stored base l x -> stored base l' x.
Proof. intros H. unfold stored. by rewrite H. Qed.

Lemma reorder_insert_spec :
  insert_pre ->
  exists q' o ops news,
    reorder_insert q seq plen mbuf moff = (q', o, ops) /\ inserted q' o ops news.
Proof.
  intros [Hq Hseq Hlen Hend Hmoff Hroom]. unfold reorder_insert.
  pose proof (off_range base seq) as HA. unfold is_u32 in HA.
  destruct (Z.eqb_spec plen 0) as [->|Hne].
  { exists q, (mkInsertOutcome 0 0 false), [], []. split; [done|]. split; cbn; try done; lia. }
  destruct (carve_final base q Hq seq plen mbuf moff Hseq ltac:(lia) Hend Hmoff Hroom)
    as (Hc & Hs & Hn & Hcap & Hd0 & Hdn & Hcnt & Hcov).
  set (c := carve_tail _ _ _ _ _) in *. set (news := map (pending_segment mbuf) (cv_pending c)) in *.
  assert (zlen (cv_pending c) = zlen news) as Ez by (unfold zlen, news; by rewrite length_map).
  rewrite Ez in *. pose proof (zlen_nonneg news) as Hz0.
  rewrite (u32_id (zlen news)) by width_lia.
  destruct (insert_all_spec base news (segments q)) as [Hs' Hp'].
  { eapply Forall_impl; [exact Hc|]. by intros ? []. }
  { apply Hq. }
  { eapply Forall_impl; [exact Hc|]. by intros ? []. }
  { done. }
  { apply Hq. }
  assert (fold_left (fun segs p => insert_merged (pending_segment mbuf p) segs) (cv_pending c) (segments q)
    = fold_left (fun segs p => insert_merged p segs) news (segments q)) as Ef.
  { unfold news. by rewrite fold_left_map_arg. }
  rewrite Ef. set (segs' := fold_left _ news _) in *. cbn zeta in Hs', Hp'.
  pose proof (rq_ok_cap _ _ Hq) as Hcapr. pose proof (total_nonneg base q Hq) as Htn.
  assert (0 <= zsum os_len news) as Hnn.
  { apply zsum_nonneg. intros s Hs0. rewrite Forall_forall in Hc. destruct (Hc s Hs0) as [[] _ _ _ _]. lia. }
  eexists _, _, _, news. split; [reflexivity|].
  split; cbn; try done; rewrite ?wadd32_id by width_lia; try done.
  - split; cbn; try done; try lia.
    + rewrite Hp'. apply Forall_app_2; [|apply Hq]. eapply Forall_impl; [exact Hc|]. by intros ? [].
    + rewrite (rq_ok_total _ _ Hq), Hn, Z.add_comm, <- zsum_app.
      symmetry. by apply zsum_perm.
  - assert (as_i16 (zlen news - 1) = zlen news - 1 \/ zlen news <= 1) as Hi.
    { destruct (decide (zlen news <= 1)); [by right|left]. unfold as_i16.
      rewrite Z.mod_small by width_lia. rewrite (proj2 (Z.ltb_lt _ _)) by width_lia. done. }
    destruct (Z.ltb_spec 1 (zlen news)).
    + split; [|intros m Hm]; unfold ref_delta; cbn.
      * rewrite Z.eqb_refl. lia.
      * rewrite (proj2 (Z.eqb_neq _ _)) by done. done.
    + split; [cbn; lia|done].
  - intros H0 x Hx. eapply stored_perm; [symmetry; exact Hp'|].
    apply Exists_app. destruct (Hcov H0 x Hx); [by right|by left].
Qed.
End InsertSpec.

(** The references and the content of an insertion. *)
Lemma inserted_refs base q seq plen mbuf moff q' o ops news m :
  inserted base q seq plen mbuf moff q' o ops news ->
  owned m q' = owned m q + ref_delta m ops + (if mbuf_ref_retained o && (mbuf =? m) then 1 else 0).
Proof.
  intros I.
  destruct I as [Ip Iok Ic In It Ir [Iops Iops'] Id Icov]. rewrite Ir.
  change (owned m q') with (owned m (segments q')). change (owned m q) with (owned m (segments q)).
  rewrite (owned_perm m _ _ Ip), owned_app.
  assert (owned m news = if mbuf =? m then zlen news else 0) as ->.
  { clear -Ic. induction Ic as [|s l [_ E _ _ _] _ IH]; [by destruct (mbuf =? m)|].
    rewrite owned_cons, IH, zlen_cons. unfold owned, OooSegment_owner. rewrite E. destruct (mbuf =? m); lia. }
  pose proof (zlen_nonneg news). destruct (Z.eqb_spec mbuf m) as [<-|Hne].
  - destruct (Z.ltb_spec 0 (zlen news)); cbn [andb]; lia.
  - rewrite Iops' by done. rewrite andb_false_r. lia.
Qed.

Lemma inserted_carries base q seq plen mbuf moff q' o ops news mem S :
  inserted base q seq plen mbuf moff q' o ops news ->
  Forall (carries base mem S) (segments q) ->
  (forall i, 0 <= i < plen -> mem mbuf (moff + i) = S (off base seq + i)) ->
  Forall (carries base mem S) (segments q').
Proof.
  intros I Hc Hm. rewrite (ins_perm _ _ _ _ _ _ _ _ _ _ I). apply Forall_app_2; [|done].
  eapply Forall_impl; [exact (ins_carved _ _ _ _ _ _ _ _ _ _ I)|]. cbn.
  intros s [Hok Em [Ha He] Eo _] i Hi. rewrite Em, Eo. unfold eo in He.
  replace (moff + (so base s - off base seq) + i) with (moff + (so base s - off base seq + i)) by lia.
  rewrite Hm by lia. f_equal. lia.
Qed.

(** Moving the base forward to a point nothing stored precedes. *)
Lemma rq_ok_rebase base base' q :
  is_u32 base' -> Forall (fun s => off base base' <= so base s) (segments q) ->
  rq_ok base q -> rq_ok base' q.
Proof.
  intros Hb Hf [Hs Hsort Ht Hbd Hc].
  assert (forall s, s ∈ segments q -> so base' s = so base s - off base base') as E.
  { intros s Hin. rewrite Forall_forall in Hf. specialize (Hf s Hin).
    unfold so in *. unfold off at 1. by apply wsub_off. }
  pose proof (off_range base base') as Hr. unfold is_u32 in Hr.
  split; try done.
  - rewrite Forall_forall in Hs |- *. intros s Hin. destruct (Hs s Hin). split; try done.
    unfold eo in *. rewrite E by done. lia.
  - assert (forall l, (forall s, s ∈ l -> s ∈ segments q) -> StronglySorted (before base) l ->
      StronglySorted (before base') l) as H; [|by apply H].
    intros l Hl Hsl. induction Hsl as [|s l Hsl IH Hb1]; constructor; [apply IH; set_solver|].
    rewrite Forall_forall in Hb1 |- *. intros t Hin. specialize (Hb1 t Hin).
    unfold before, eo in *. rewrite !E by set_solver. lia.
Qed.

(** A test of the invariant, to evaluate on concrete queues. *)
Definition seg_okb base s : bool :=
  (0 <=? os_seq s) && (os_seq s <? two32) && (0 <? os_len s) && (0 <=? os_offset s)
  && (os_offset s + os_len s <? two16) && (eo base s <? two31).

Fixpoint sortedb base segs : bool :=
  match segs with
  | [] => true
  | s :: rest => forallb (fun t => eo base s <=? so base t) rest && sortedb base rest
  end.

Definition rq_okb base q : bool :=
  forallb (seg_okb base) (segments q) && sortedb base (segments q)
  && (total_bytes q =? zsum os_len (segments q)) && (total_bytes q <=? rq_cap q)
  && (0 <=? rq_cap q) && (rq_cap q <? two32).

Lemma forallb_Forall {A} (f : A -> bool) l : forallb f l = true -> Forall (fun x => f x = true) l.
Proof. induction l; cbn; [constructor|]. rewrite andb_true_iff. intros [? ?]. constructor; auto. Qed.

Lemma rq_okb_sound base q : rq_okb base q = true -> rq_ok base q.
Proof.
  unfold rq_okb. intros H. breflect. split; try done.
  - eapply Forall_impl; [apply forallb_Forall; eassumption|]. cbn. unfold seg_okb. intros s Hs. breflect.
    by split.
  - match goal with H : sortedb _ _ = true |- _ => revert H end. clear.
    induction (segments q) as [|s l IH]; cbn; [constructor|]. intros Hs. breflect.
    constructor; [by apply IH|]. eapply Forall_impl; [apply forallb_Forall; eassumption|].
    unfold before. cbn. intros. by apply Z.leb_le.
Qed.

Lemma drain_contiguous_spec base q rcv_nxt room :
  rq_ok base q -> is_u32 rcv_nxt -> off base rcv_nxt < two31 -> is_u32 room ->
  exists q' outs n dropped ops d',
    drain_contiguous_into q rcv_nxt room = (q', outs, n, dropped, ops) /\
    drained base (segments q) (mkDrain rcv_nxt room (total_bytes q) [] 0 0 []) (segments q') d' outs ops n /\
    dropped = dr_dropped d' /\ rq_ok base q' /\ rq_cap q' = rq_cap q.
Proof.
  intros [Hs Hsort Ht Hb Hc] Hr HR Hroom. unfold is_u32 in Hc.
  destruct (drain_loop_spec base (segments q) (mkDrain rcv_nxt room (total_bytes q) [] 0 0 []))
    as (segs' & d' & outs & ops & n & El & D); cbn; try done; try width_lia.
  unfold drain_contiguous_into. rewrite El.
  exists (q <| segments := segs' |> <| total_bytes := dr_total_bytes d' |>), outs, n, (dr_dropped d'), ops, d'.
  pose proof (dn_out _ _ _ _ _ _ _ _ D) as E1. pose proof (dn_ops _ _ _ _ _ _ _ _ D) as E2.
  pose proof (dn_total _ _ _ _ _ _ _ _ D) as E3. pose proof (dn_bytes _ _ _ _ _ _ _ _ D) as E4. cbn in E1, E2, E3.
  split; [by rewrite E1, E2, E3|]. split; [done|]. split; [done|]. split; [|done].
  destruct (dn_suffix _ _ _ _ _ _ _ _ D) as [k Ek].
  split; cbn; try done.
  - rewrite Ek. by apply Forall_drop.
  - rewrite Ek. rewrite <- (take_drop k (segments q)) in Hsort. by apply StronglySorted_app in Hsort as (_ & _ & ?).
  - rewrite E4, Ek. rewrite Ht, <- (take_drop k (segments q)), zsum_app in Hb.
    assert (0 <= zsum os_len (take k (segments q))); [|lia].
    apply zsum_nonneg. intros s Hin. assert (Forall (seg_ok base) (take k (segments q))) as Hs' by by apply Forall_take.
    rewrite Forall_forall in Hs'. destruct (Hs' s Hin). lia.
Qed.

(** ** Properties *)

(** C26. Inserting an out-of-order payload keeps the queue's invariant: the
    stored views stay non-empty, sorted and pairwise disjoint, the byte count
    is their total and never exceeds the cap.  Everything stored before stays
    stored, nothing outside the payload is added, and unless bytes are
    reported dropped for lack of room every payload position is stored. *)
Theorem reorder_insert_correct base q seq plen mbuf moff :
  insert_pre base q seq plen moff ->
  let '(q', o, _) := reorder_insert q seq plen mbuf moff in
  rq_ok base q' /\
  total_bytes q' = total_bytes q + newly_buffered o /\
  (forall x, stored base (segments q) x -> stored base (segments q') x) /\
  (forall x, stored base (segments q') x ->
     stored base (segments q) x \/ off base seq <= x < off base seq + plen) /\
  (cap_dropped o = 0 -> forall x, off base seq <= x < off base seq + plen -> stored base (segments q') x).
Proof.
  intros Hp. destruct (reorder_insert_spec base q seq plen mbuf moff Hp) as (q' & o & ops & news & -> & I).
  destruct I as [Ip Iok Ic In It Ir Iops Id Icov]. split_and!; try done.
  - intros x Hx. apply (stored_perm base _ _ x (symmetry Ip)), Exists_app. by right.
  - intros x Hx. apply (stored_perm base _ _ x Ip), Exists_app in Hx as [Hx|Hx]; [right|by left].
    apply Exists_exists in Hx as (s & Hs & Hx). rewrite Forall_forall in Ic. destruct (Ic s Hs). lia.
Qed.

Lemma reorder_insert_correct_witness :
  let q := mkReorderQueue [mkOooSegment 5 7 0 10] 100 10 in
  insert_pre 4294967000 q 4294967290 30 54 /\
  total_bytes (fst (fst (reorder_insert q 4294967290 30 9 54))) = 30.
Proof.
  assert (insert_pre 4294967000 (mkReorderQueue [mkOooSegment 5 7 0 10] 100 10) 4294967290 30 54) as Hp.
  { split; [by apply rq_okb_sound|by vm_compute..]. }
  split; [exact Hp|].
  pose proof (reorder_insert_correct _ _ _ _ 9 _ Hp) as H.
  destruct (reorder_insert _ _ _ _ _) as [[q' o] ops] eqn:E. destruct H as (_ & H & _).
  cbn [fst]. rewrite H. pose proof (f_equal (fun r => snd (fst r)) E) as Eo. vm_compute in Eo. by subst o.
Defined.

(** The queue holds exactly one reference per stored view: counting the
    reference the caller took before the call (consumed exactly when
    [mbuf_ref_retained] is reported) and the reference-count updates made, the
    references owned before and after balance for every mbuf. *)
Theorem reorder_insert_conserves_refs base q seq plen mbuf moff m :
  insert_pre base q seq plen moff ->
  let '(q', o, ops) := reorder_insert q seq plen mbuf moff in
  owned m q' = owned m q + ref_delta m ops
               + (if mbuf_ref_retained o && (mbuf =? m) then 1 else 0).
Proof.
  intros Hp. destruct (reorder_insert_spec base q seq plen mbuf moff Hp) as (q' & o & ops & news & -> & I).
  by apply (inserted_refs base q seq plen mbuf moff q' o ops news).
Qed.

Lemma reorder_insert_conserves_refs_witness :
  let q := mkReorderQueue [mkOooSegment 110 7 0 10] 1000 10 in
  owned 9 (fst (fst (reorder_insert q 100 50 9 40))) = 2.
Proof.
  assert (insert_pre 0 (mkReorderQueue [mkOooSegment 110 7 0 10] 1000 10) 100 50 40) as Hp.
  { split; [by apply rq_okb_sound|by vm_compute..]. }
  pose proof (reorder_insert_conserves_refs _ _ _ _ 9 _ 9 Hp) as H.
  destruct (reorder_insert _ _ _ _ _) as [[q' o] ops] eqn:E. cbn zeta. rewrite E. cbn [fst]. rewrite H.
  pose proof (f_equal snd E) as E1. pose proof (f_equal (fun r => snd (fst r)) E) as E2.
  vm_compute in E1, E2. by subst o ops.
Defined.

(** C25. The drain hands over the contiguous prefix exactly: the views it
    appends spell, byte for byte, the stream from [rcv_nxt] on for as many
    bytes as it reports, at most [cap_room]; what stays queued starts strictly
    beyond the new [rcv_nxt], keeps the invariant, and no stored byte at or
    beyond the new [rcv_nxt] is lost unless bytes are reported dropped. *)
Theorem drain_delivers_stream base q rcv_nxt room mem S :
  rq_ok base q -> is_u32 rcv_nxt -> off base rcv_nxt < two31 -> is_u32 room ->
  Forall (carries base mem S) (segments q) ->
  let '(q', outs, n, dropped, _) := drain_contiguous_into q rcv_nxt room in
  0 <= n <= room /\
  concat (map (view_bytes mem) outs) = stream S (off base rcv_nxt) n /\
  rq_ok base q' /\
  Forall (fun s => off base rcv_nxt + n < so base s) (segments q') /\
  (dropped = 0 -> forall x, stored base (segments q) x -> off base rcv_nxt + n <= x ->
    stored base (segments q') x).
Proof.
  intros Hq Hr HR Hroom Hc.
  destruct (drain_contiguous_spec base q rcv_nxt room Hq Hr HR Hroom)
    as (q' & outs & n & dropped & ops & d' & -> & D & Ed & Hq' & _).
  destruct D as [D1 D2 D3 D4 D5 D6 D7 D8 D9 D10 D11 D12 D13 D14 D15 D16]. cbn in *.
  rewrite D7 in *. split_and!; try done; try lia; [by apply D16|].
  intros E0 x Hx Hge. apply D15; [by rewrite <- Ed|done|done].
Qed.

Lemma drain_delivers_stream_witness :
  let q := mkReorderQueue [mkOooSegment 100 7 20 10; mkOooSegment 110 8 0 5] 1000 15 in
  let '(_, outs, n, _, _) := drain_contiguous_into q 103 1000 in
  n = 12 /\ concat (map (view_bytes (fun m i => if m =? 7 then 80 + i else 110 + i)) outs) =
    [103; 104; 105; 106; 107; 108; 109; 110; 111; 112; 113; 114].
Proof.
  set (q := mkReorderQueue _ _ _). cbn zeta.
  assert (rq_ok 0 q) as Hq.
  { by apply rq_okb_sound. }
  pose proof (drain_delivers_stream 0 q 103 1000 (fun m i => if m =? 7 then 80 + i else 110 + i) (fun x => x)
    Hq ltac:(by vm_compute) ltac:(by vm_compute) ltac:(by vm_compute)) as H.
  destruct (drain_contiguous_into q 103 1000) as [[[[q' outs] n] dr] ops] eqn:E.
  destruct H as (_ & H & _).
  { assert (so 0 (mkOooSegment 100 7 20 10) = 100 /\ so 0 (mkOooSegment 110 8 0 5) = 110) as [E1 E2] by (by vm_compute).
    constructor; [|constructor; [|constructor]]; intros i Hi; rewrite ?E1, ?E2; cbn; lia. }
  assert (n = 12) as En by (apply (f_equal (fun r => snd (fst (fst r)))) in E; by vm_compute in E).
  split; [exact En|]. rewrite H, En. by vm_compute.
Defined.

(** The drain neither leaks nor double-frees: every reference of a view
    that leaves the queue is either handed to the view appended for delivery
    or released by exactly one call. *)
Theorem drain_conserves_refs base q rcv_nxt room m :
  rq_ok base q -> is_u32 rcv_nxt -> off base rcv_nxt < two31 -> is_u32 room ->
  let '(q', outs, _, _, ops) := drain_contiguous_into q rcv_nxt room in
  owned m q' + owned m outs = owned m q + ref_delta m ops.
Proof.
  intros Hq Hr HR Hroom.
  destruct (drain_contiguous_spec base q rcv_nxt room Hq Hr HR Hroom)
    as (q' & outs & n & dropped & ops & d' & -> & D & Ed & Hq' & _).
  exact (dn_refs _ _ _ _ _ _ _ _ D m).
Qed.

Lemma drain_conserves_refs_witness :
  let q := mkReorderQueue [mkOooSegment 100 7 20 10] 1000 10 in
  let '(q', outs, _, _, ops) := drain_contiguous_into q 110 1000 in
  ops = [FreeSeg 7] /\ owned 7 q' + owned 7 outs = 0.
Proof.
  set (q := mkReorderQueue _ _ _). cbn zeta.
  assert (rq_ok 0 q) as Hq.
  { by apply rq_okb_sound. }
  pose proof (drain_conserves_refs 0 q 110 1000 7 Hq ltac:(by vm_compute) ltac:(by vm_compute) ltac:(by vm_compute)) as H.
  destruct (drain_contiguous_into q 110 1000) as [[[[q' outs] n] dr] ops] eqn:E.
  assert (ops = [FreeSeg 7]) as Eo by (apply (f_equal snd) in E; by vm_compute in E).
  split; [exact Eo|]. rewrite H, Eo. by vm_compute.
Defined.

(** When the in-order buffer has no room left, a segment that is next in
    order is released, but the segment contiguous to it stays queued: the
    drain stops there, because [rcv_nxt] has not moved past it (the comment
    on the drain describes the later segments as released too). *)
Theorem drain_without_room_keeps_later base q rcv_nxt s t rest :
  rq_ok base q -> is_u32 rcv_nxt -> segments q = s :: t :: rest ->
  so base s <= off base rcv_nxt < eo base s -> so base t = eo base s ->
  let '(q', outs, n, dropped, ops) := drain_contiguous_into q rcv_nxt 0 in
  segments q' = t :: rest /\ outs = [] /\ n = 0 /\
  dropped = eo base s - off base rcv_nxt /\ ops = [FreeSeg (os_mbuf s)].
Proof.
  intros [Hs Hsort Ht Hb Hc] Hr Eq Hin Et. rewrite Eq in Hs, Ht.
  apply Forall_cons in Hs as [Hs Ht1]. apply Forall_cons in Ht1 as [Htok _].
  pose proof (so_eo base s Hs). pose proof (so_eo base t Htok). pose proof (seg_ok_len _ _ Hs).
  pose proof (seg_ok_room _ _ Hs). pose proof (seg_ok_off _ _ Hs).
  unfold drain_contiguous_into. rewrite Eq. cbn [drain_loop dr_rcv_nxt].
  rewrite (seq_lt_off base) by (done || apply Hs || fold (so base s); unfold close; lia). fold (so base s).
  rewrite (proj2 (Z.ltb_ge _ _)) by lia.
  rewrite (drain_head_live base) by (cbn; done || lia). cbn -[Z.min].
  rewrite Z.min_r by lia. cbn [Z.ltb Z.compare]. rewrite wadd32_0_r by done.
  rewrite (seq_lt_off base) by (done || apply Htok || fold (so base t); unfold close; lia). fold (so base t).
  rewrite (proj2 (Z.ltb_lt _ _)) by lia. cbn. split_and!; try done.
  unfold eo in *. rewrite wadd32_id by width_lia. lia.
Qed.

Lemma drain_without_room_keeps_later_witness :
  let q := mkReorderQueue [mkOooSegment 100 7 0 10; mkOooSegment 110 8 0 5] 1000 15 in
  let '(q', outs, _, _, _) := drain_contiguous_into q 100 0 in
  segments q' = [mkOooSegment 110 8 0 5] /\ outs = [].
Proof.
  set (q := mkReorderQueue _ _ _). cbn zeta.
  assert (rq_ok 0 q) as Hq.
  { by apply rq_okb_sound. }
  pose proof (drain_without_room_keeps_later 0 q 100 _ _ _ Hq ltac:(by vm_compute) eq_refl
    ltac:(by vm_compute) ltac:(by vm_compute)) as H.
  destruct (drain_contiguous_into q 100 0) as [[[[q' outs] n] dr] ops] eqn:E.
  destruct H as (H1 & H2 & _). split; [exact H1|exact H2].
Defined.
