(* ===== verification/Retrans.v ===== *)
(** * In-flight segment tracker ([tcp_retrans.rs])

    The list of transmitted, unacknowledged segments in sequence order. *)

From S2P Require Import Prelude.
From S2P Require Import Seq.
From S2P Require Import Mbuf.
From S2P Require Import Options.

(** ** State and operations *)

(** [re_mbuf] is the raw pointer held by [Mbuf]; 0 is the null pointer. *)
Record RetransEntry := mkRetransEntry {
  re_seq : Z;
  re_len : Z;
  re_mbuf : MbufId;
  re_first_tx_ts_ns : Z;
  re_xmit_count : Z;
  re_sacked : bool;
  re_lost : bool;
  re_xmit_ts_ns : Z;
  re_hdrs_len : Z;
}.

#[export] Instance RetransEntry_eta : Settable RetransEntry := fun e =>
  mkRetransEntry (re_seq e) (re_len e) (re_mbuf e) (re_first_tx_ts_ns e) (re_xmit_count e)
                 (re_sacked e) (re_lost e) (re_xmit_ts_ns e) (re_hdrs_len e).

(** [SendRetrans] is its deque of entries. *)
Abbreviation SendRetrans := (list RetransEntry).

(** [e.seq.wrapping_add(e.len as u32)], written out at every use in the code. *)
Definition re_end_seq (e : RetransEntry) : Z := wadd32 (re_seq e) (re_len e).

Definition flight_size (r : SendRetrans) : Z := zlen (filter (fun e => re_sacked e = false) r).

Definition push_after_tx (r : SendRetrans) (e : RetransEntry) : SendRetrans := r ++ [e].

(** Entries dropped and entries kept. *)
Fixpoint prune_below (r : SendRetrans) (snd_una : Z) : list RetransEntry * SendRetrans :=
  match r with
  | [] => ([], [])
  | front :: rest =>
      if seq_le (re_end_seq front) snd_una then
        let '(dropped, kept) := prune_below rest snd_una in (front :: dropped, kept)
      else ([], r)
  end.

(** Hot-path variant: the non-null pointers of the dropped entries are
    appended to [out]. *)
Fixpoint prune_below_into_mbufs (r : SendRetrans) (snd_una : Z) (out : list MbufId)
  : SendRetrans * list MbufId :=
  match r with
  | [] => ([], out)
  | front :: rest =>
      if seq_le (re_end_seq front) snd_una then
        prune_below_into_mbufs rest snd_una
          (if re_mbuf front =? 0 then out else out ++ [re_mbuf front])
      else (r, out)
  end.

Definition overlaps_block (block : SackBlock) (e : RetransEntry) : bool :=
  seq_lt (re_seq e) (sb_right block) && seq_lt (sb_left block) (re_end_seq e).

Definition mark_sacked (r : SendRetrans) (block : SackBlock) : SendRetrans :=
  map (fun e => if overlaps_block block e then e <| re_sacked := true |> else e) r.

Definition retrans_front (r : SendRetrans) : option RetransEntry := head r.
Definition retrans_back (r : SendRetrans) : option RetransEntry := last r.
Definition oldest_unacked_seq (r : SendRetrans) : option Z := re_seq <$> head r.

(** ** The in-order invariant *)

(** Entries are non-empty, contiguous from offset [a] on, and end less than
    half the circle past the base. *)
Fixpoint chain (base a : Z) (r : SendRetrans) : Prop :=
  match r with
  | [] => a < two31
  | e :: r => is_u32 (re_seq e) /\ off base (re_seq e) = a /\ 0 < re_len e /\
              a + re_len e < two31 /\ chain base (a + re_len e) r
  end.

Lemma chain_end base a e r : chain base a (e :: r) -> off base (re_end_seq e) = a + re_len e.
Proof.
  intros (Hu & <- & Hl & Hb & _). pose proof (off_range base (re_seq e)).
  unfold re_end_seq. apply off_wadd. width_lia.
Qed.

Lemma chain_lookup base a r e :
  chain base a r -> e ∈ r -> a <= off base (re_seq e) /\ off base (re_end_seq e) = off base (re_seq e) + re_len e
    /\ 0 < re_len e /\ off base (re_end_seq e) < two31.
Proof.
  revert a. induction r as [|x r IH]; intros a Hc He; [by apply not_elem_of_nil in He|].
  pose proof (chain_end _ _ _ _ Hc) as Ee. destruct Hc as (Hu & Ea & Hl & Hb & Hc).
  apply elem_of_cons in He as [->|He]; [rewrite Ee, Ea; lia|].
  destruct (IH _ Hc He) as (? & ? & ? & ?). lia.
Qed.

Lemma chain_snoc base a r e :
  chain base a r -> is_u32 (re_seq e) -> 0 < re_len e ->
  off base (re_seq e) = a + zsum re_len r -> off base (re_seq e) + re_len e < two31 ->
  chain base a (r ++ [e]).
Proof.
  revert a. induction r as [|x r IH]; intros a Hc Hu Hl Eo Hb;
    rewrite ?zsum_nil, ?zsum_cons in Eo; cbn [app chain] in *.
  - rewrite Z.add_0_r in Eo. rewrite Eo in *. split_and!; try done; lia.
  - destruct Hc as (? & ? & ? & ? & ?). split_and!; try done. apply IH; try done. lia.
Qed.

Lemma prune_below_app r una d k : prune_below r una = (d, k) -> r = d ++ k.
Proof.
  revert d k. induction r as [|x r IH]; intros d k; cbn; [by intros [= <- <-]|].
  destruct (seq_le _ _); [|by intros [= <- <-]].
  destruct (prune_below r una) as [d' k'] eqn:E. intros [= <- <-]. cbn. f_equal. by apply IH.
Qed.

Lemma prune_below_chain base a r una d k :
  chain base a r -> is_u32 una -> off base una < two31 -> prune_below r una = (d, k) ->
  Forall (fun e => off base (re_end_seq e) <= off base una) d /\
  Forall (fun e => off base una < off base (re_end_seq e)) k /\
  (exists a', a <= a' /\ chain base a' k).
Proof.
  intros Hc Hu Hb. revert a d k Hc. induction r as [|x r IH]; intros a d k Hc; cbn.
  { intros [= <- <-]. split_and!; [done..|]. exists a. split; [lia|done]. }
  pose proof (chain_end _ _ _ _ Hc) as Ee. pose proof Hc as (Hux & Ea & Hl & Hbx & Hcr).
  assert (is_u32 (re_end_seq x)) by apply wadd32_range.
  pose proof (off_range base una) as Hou. pose proof (off_range base (re_seq x)) as Hox. unfold is_u32 in Hou, Hox.
  rewrite (seq_le_off base), Ee by (done || rewrite Ee; unfold close; lia).
  destruct (Z.leb_spec (a + re_len x) (off base una)) as [Hle|Hgt].
  - destruct (prune_below r una) as [d' k'] eqn:E. intros [= <- <-].
    destruct (IH _ _ _ Hcr eq_refl) as (Hd & Hk & a' & Ha' & Hc'). split_and!; try done.
    + constructor; [by rewrite Ee|done].
    + exists a'. split; [lia|done].
  - intros [= <- <-]. split_and!; [done| |exists a; split; [lia|done]].
    apply Forall_forall. intros e He. apply elem_of_cons in He as [->|He]; [by rewrite Ee|].
    destruct (chain_lookup _ _ _ _ Hcr He) as (? & ? & ? & ?). lia.
Qed.

Lemma prune_into_app r una out :
  prune_below_into_mbufs r una out =
    (snd (prune_below r una), out ++ filter (fun p => p <> 0) (map re_mbuf (fst (prune_below r una)))).
Proof.
  revert out. induction r as [|x r IH]; intros out; cbn [prune_below prune_below_into_mbufs];
    [by cbn; rewrite app_nil_r|].
  destruct (seq_le _ _); [|by cbn; rewrite app_nil_r].
  rewrite IH. destruct (prune_below r una) as [d k]. cbn [fst snd map]. f_equal.
  destruct (Z.eqb_spec (re_mbuf x) 0) as [E|E].
  - rewrite filter_cons_False by (by intros []). done.
  - rewrite filter_cons_True by done. by rewrite <- app_assoc.
Qed.

Lemma mark_sacked_lookup r block i e :
  r !! i = Some e -> mark_sacked r block !! i = Some (if overlaps_block block e then e <| re_sacked := true |> else e).
Proof. intros H. unfold mark_sacked. by rewrite lookup_map, H. Qed.

Lemma chain_mark_sacked base a r block : chain base a r -> chain base a (mark_sacked r block).
Proof.
  revert a. induction r as [|x r IH]; intros a; cbn; [done|]. intros (? & ? & ? & ? & ?).
  destruct (overlaps_block block x); cbn; split_and!; try done; by apply IH.
Qed.

(** ** Properties *)

(** On an in-order list of in-flight segments a cumulative ACK removes
    exactly the segments it covers entirely: the removed ones are a prefix all
    of whose bytes are acknowledged, every kept segment still has an
    unacknowledged byte, and what is kept is again in order.  The allocation-free
    variant keeps the same list and hands out the same buffers. *)
Theorem prune_below_exact base a r una :
  chain base a r -> is_u32 una -> off base una < two31 ->
  let '(dropped, kept) := prune_below r una in
  r = dropped ++ kept /\
  Forall (fun e => off base (re_end_seq e) <= off base una) dropped /\
  Forall (fun e => off base una < off base (re_end_seq e)) kept /\
  (exists a', a <= a' /\ chain base a' kept) /\
  (forall out, prune_below_into_mbufs r una out =
     (kept, out ++ filter (fun p => p <> 0) (map re_mbuf dropped))).
Proof.
  intros Hc Hu Hb. destruct (prune_below r una) as [d k] eqn:E.
  destruct (prune_below_chain _ _ _ _ _ _ Hc Hu Hb E) as (? & ? & ?).
  split_and!; try done; [by eapply prune_below_app|].
  intros out. by rewrite prune_into_app, E.
Qed.

Definition sample_entry (seq len mbuf : Z) : RetransEntry :=
  mkRetransEntry seq len mbuf 0 1 false false 0 54.

Lemma prune_below_exact_witness :
  let r := [sample_entry 4294967290 10 5; sample_entry 4 10 6] in
  chain 4294967000 290 r /\ prune_below_into_mbufs r 4 [] = ([sample_entry 4 10 6], [5]).
Proof.
  set (r := [sample_entry 4294967290 10 5; sample_entry 4 10 6]). cbn zeta.
  assert (chain 4294967000 290 r) as Hc by (cbn; split_and!; by vm_compute).
  split; [exact Hc|].
  pose proof (prune_below_exact 4294967000 290 r 4 Hc ltac:(by vm_compute) ltac:(by vm_compute)) as H.
  destruct (prune_below r 4) as [d k] eqn:E. destruct H as (_ & _ & _ & _ & H). rewrite H.
  vm_compute in E. by simplify_eq.
Defined.

(** A SACK block marks exactly the in-flight segments it overlaps: an
    entry is sacked afterwards iff it was before or shares a byte with the
    block; nothing else of any entry changes. *)
Theorem mark_sacked_exact base a r block i e :
  chain base a r -> r !! i = Some e ->
  is_u32 (sb_left block) -> is_u32 (sb_right block) ->
  off base (sb_left block) < two31 -> off base (sb_right block) < two31 ->
  length (mark_sacked r block) = length r /\
  exists e', mark_sacked r block !! i = Some e' /\ e' <| re_sacked := re_sacked e |> = e /\
    (re_sacked e' = true <->
       re_sacked e = true \/
       (off base (re_seq e) < off base (sb_right block) /\
        off base (sb_left block) < off base (re_seq e) + re_len e)).
Proof.
  intros Hc Hi Hl Hr Hbl Hbr. split; [apply length_map|].
  eexists. split; [by apply mark_sacked_lookup|].
  destruct (chain_lookup _ _ _ e Hc) as (Ha & Ee & Hlen & Hend); [by eapply list_elem_of_lookup_2|].
  assert (is_u32 (re_seq e)) as Hu.
  { clear -Hc Hi. revert a i Hc Hi. induction r as [|x r IH]; intros a [|i] Hc Hi; cbn in *; try done.
    - simplify_eq. apply Hc.
    - destruct Hc as (_ & _ & _ & _ & Hc). by eapply IH. }
  assert (is_u32 (re_end_seq e)) by apply wadd32_range.
  pose proof (off_range base (re_seq e)) as H1. pose proof (off_range base (sb_left block)) as H2.
  pose proof (off_range base (sb_right block)) as H3. unfold is_u32 in H1, H2, H3.
  assert (overlaps_block block e = true <-> off base (re_seq e) < off base (sb_right block) /\
            off base (sb_left block) < off base (re_seq e) + re_len e) as Hov.
  { unfold overlaps_block. rewrite !(seq_lt_off base) by (done || unfold close; lia).
    rewrite andb_true_iff, !Z.ltb_lt. lia. }
  destruct (overlaps_block block e); split.
  - by destruct e.
  - cbn. split; [right; by apply Hov|done].
  - by destruct e.
  - split; [by left|]. intros [?|Hx]; [done|]. by apply Hov in Hx.
Qed.

Lemma mark_sacked_exact_witness :
  let r := [sample_entry 100 10 5; sample_entry 110 10 6] in
  exists e', mark_sacked r (mkSackBlock 112 300) !! 1%nat = Some e' /\ re_sacked e' = true.
Proof.
  cbn zeta. set (r := [sample_entry 100 10 5; sample_entry 110 10 6]).
  assert (chain 0 100 r) as Hc by (cbn; split_and!; by vm_compute).
  destruct (mark_sacked_exact 0 100 r (mkSackBlock 112 300) 1 (sample_entry 110 10 6) Hc eq_refl
    ltac:(by vm_compute) ltac:(by vm_compute) ltac:(by vm_compute) ltac:(by vm_compute))
    as (_ & e' & He & _ & H).
  exists e'. split; [exact He|]. apply H. right. by vm_compute.
Defined.
