(* ===== verification/Rtt.v ===== *)
(** * RTT estimation ([tcp_rtt.rs]) and the RTT histogram ([rtt_histogram.rs]) *)

From S2P Require Import Prelude.

(** ** Estimator *)

Definition DEFAULT_MIN_RTO_US : Z := 5000.
Definition DEFAULT_INITIAL_RTO_US : Z := 5000.
Definition DEFAULT_MAX_RTO_US : Z := 1000000.

Record RttEstimator := mkRttEstimator {
  srtt_us : option Z;
  rttvar_us : Z;
  rto_us : Z;
  min_rto_us : Z;
  max_rto_us : Z;
}.

#[export] Instance RttEstimator_eta : Settable RttEstimator := fun r =>
  mkRttEstimator (srtt_us r) (rttvar_us r) (rto_us r) (min_rto_us r) (max_rto_us r).

(** [RttEstimator::new]; its assertions are compiled out of release builds. *)
Definition rtt_new (min_rto initial_rto max_rto : Z) : RttEstimator :=
  mkRttEstimator None 0 (Z.max initial_rto min_rto) min_rto max_rto.

(** [Ord::clamp]; it panics when [lo > hi], which [rtt_wf] excludes. *)
Definition clamp (x lo hi : Z) : Z := if x <? lo then lo else if hi <? x then hi else x.

Definition abs_diff (a b : Z) : Z := if a <? b then b - a else a - b.

(** [sample]: [v >> k] is [v / 2^k]. *)
Definition rtt_sample (r : RttEstimator) (rtt_us : Z) : RttEstimator :=
  let rtt := Z.max rtt_us 1 in
  let '(srtt, rttvar) :=
    match srtt_us r with
    | None => (rtt, rtt / 2)
    | Some srtt =>
        let delta := abs_diff srtt rtt in
        (wadd32 (wsub32 srtt (Z.shiftr srtt 3)) (Z.shiftr rtt 3),
         wadd32 (wsub32 (rttvar_us r) (Z.shiftr (rttvar_us r) 2)) (Z.shiftr delta 2))
    end in
  let rto := sat_add32 srtt (sat_mul32 rttvar 4) in
  r <| srtt_us := Some srtt |> <| rttvar_us := rttvar |>
    <| rto_us := clamp rto (min_rto_us r) (max_rto_us r) |>.

Definition rtt_apply_backoff (r : RttEstimator) : RttEstimator :=
  r <| rto_us := Z.min (sat_mul32 (rto_us r) 2) (max_rto_us r) |>.

(** Well-formed estimators: the configured bounds are ordered, the RTO is
    between them, and the smoothed RTT is at least the 1 us floor. *)
Record rtt_wf (r : RttEstimator) : Prop := {
  rtt_wf_min : is_u32 (min_rto_us r);
  rtt_wf_max : is_u32 (max_rto_us r);
  rtt_wf_rto : min_rto_us r <= rto_us r <= max_rto_us r;
  rtt_wf_var : is_u32 (rttvar_us r);
  rtt_wf_srtt : match srtt_us r with Some s => 1 <= s < two32 | None => True end;
}.

Lemma clamp_range x lo hi : lo <= hi -> lo <= clamp x lo hi <= hi.
Proof. unfold clamp. destruct (Z.ltb_spec x lo), (Z.ltb_spec hi x); lia. Qed.

Lemma clamp_eq x lo hi : lo <= hi -> clamp x lo hi = Z.max lo (Z.min hi x).
Proof. unfold clamp. destruct (Z.ltb_spec x lo), (Z.ltb_spec hi x); lia. Qed.

Lemma abs_diff_abs a b : abs_diff a b = Z.abs (a - b).
Proof. unfold abs_diff. destruct (Z.ltb_spec a b); lia. Qed.

(** The moving average [old - old/2^k + new/2^k] stays between its arguments,
    so neither the subtraction nor the addition wraps. *)
Lemma ewma_between old new k :
  1 <= k <= 3 -> 0 <= old -> 0 <= new ->
  Z.min old new <= old - old / 2 ^ k + new / 2 ^ k <= Z.max old new /\ old / 2 ^ k <= old.
Proof.
  intros Hk Ho Hn. assert (k = 1 \/ k = 2 \/ k = 3) as [->|[->| ->]] by lia;
    [change (2 ^ 1) with 2|change (2 ^ 2) with 4|change (2 ^ 3) with 8];
    (destruct (Z.le_ge_cases old new); [rewrite Z.min_l, Z.max_r by lia|rewrite Z.min_r, Z.max_l by lia]; div_lia).
Qed.

Lemma ewma_wrap old new k :
  1 <= k <= 3 -> is_u32 old -> is_u32 new ->
  wadd32 (wsub32 old (Z.shiftr old k)) (Z.shiftr new k) = old - old / 2 ^ k + new / 2 ^ k.
Proof.
  intros Hk Ho Hn. rewrite !Z.shiftr_div_pow2 by lia. unfold is_u32 in *.
  destruct (ewma_between old new k Hk ltac:(lia) ltac:(lia)) as [H1 H2].
  assert (0 <= old / 2 ^ k) by (apply Z.div_pos; lia).
  rewrite wsub32_id by (unfold is_u32; lia). apply wadd32_id. unfold is_u32. lia.
Qed.

Lemma rtt_new_wf mn ini mx :
  0 <= mn <= ini -> ini <= mx < two32 -> rtt_wf (rtt_new mn ini mx).
Proof. intros. split; cbn; try done; width_lia. Qed.

(** The sample step as the formulas of the comment (RFC 6298), no wraps. *)
Lemma rtt_sample_eq r rtt :
  rtt_wf r -> is_u32 rtt ->
  let s := Z.max rtt 1 in
  let srtt' := match srtt_us r with None => s | Some o => o - o / 8 + s / 8 end in
  let var' := match srtt_us r with
              | None => s / 2
              | Some o => rttvar_us r - rttvar_us r / 4 + Z.abs (o - s) / 4
              end in
  rtt_sample r rtt =
    mkRttEstimator (Some srtt') var'
      (Z.max (min_rto_us r) (Z.min (max_rto_us r) (Z.min U32_MAX (srtt' + Z.min U32_MAX (var' * 4)))))
      (min_rto_us r) (max_rto_us r).
Proof.
  intros [Hmin Hmax Hrto Hvar Hs] Hr. cbn zeta. unfold rtt_sample.
  unfold is_u32 in *. destruct (srtt_us r) as [o|].
  - rewrite (ewma_wrap o) by (unfold is_u32; width_lia).
    rewrite ewma_wrap by (unfold is_u32; rewrite ?abs_diff_abs; width_lia).
    rewrite abs_diff_abs. cbn -[Z.div]. rewrite clamp_eq by lia. done.
  - cbn -[Z.div]. rewrite clamp_eq by lia. done.
Qed.

(** ** Histogram *)

(** [RttHistogram] is its array of 16 buckets. *)
Abbreviation RttHistogram := (list Z).
Definition histogram_new : RttHistogram := replicate 16 0.

(** [for i in 0..15 { if rtt_us <= edges[i] { return i } } 15] *)
Fixpoint select_loop (edges : list Z) (i : nat) (rtt_us : Z) : nat :=
  match edges with
  | [] => 15
  | e :: edges => if rtt_us <=? e then i else select_loop edges (S i) rtt_us
  end.

Definition select_bucket (rtt_us : Z) (edges : list Z) : nat := select_loop edges 0 rtt_us.

Definition histogram_update (h : RttHistogram) (rtt_us : Z) (edges : list Z) : RttHistogram :=
  let b := select_bucket rtt_us edges in
  <[b := wadd32 (default 0 (h !! b)) 1]> h.

Lemma select_loop_spec edges i rtt b :
  (i + length edges = 15)%nat -> select_loop edges i rtt = b ->
  (i <= b <= 15)%nat /\
  (forall j e, (i + j < b)%nat -> edges !! j = Some e -> e < rtt) /\
  (forall e, edges !! (b - i)%nat = Some e -> rtt <= e).
Proof.
  revert i. induction edges as [|e edges IH]; intros i Hl; cbn in *.
  - intros <-. split; [lia|]. split; [done|]. intros e He. by rewrite lookup_nil in He.
  - destruct (Z.leb_spec rtt e).
    + intros <-. split; [lia|]. split; [lia|]. rewrite Nat.sub_diag. cbn. by intros ? [= <-].
    + intros E. apply IH in E as (H1 & H2 & H3); [|lia]. split; [lia|]. split.
      * intros [|j] e' Hj He; cbn in He; [by simplify_eq|]. eapply (H2 j); [lia|done].
      * intros e' He. apply H3. replace (b - i)%nat with (S (b - S i)) in He by lia. done.
Qed.

(** ** Properties *)



(** [n] timeouts in a row double the RTO [n] times, saturating at the
    configured maximum and never wrapping. *)
Theorem rtt_backoff_exponential (r : RttEstimator) (n : nat) (Hr : rtt_wf r) :
  rtt_wf (Nat.iter n rtt_apply_backoff r) /\
  rto_us (Nat.iter n rtt_apply_backoff r) = Z.min (rto_us r * 2 ^ Z.of_nat n) (max_rto_us r).
Proof.
  assert (forall r, rtt_wf r -> rtt_wf (rtt_apply_backoff r)) as Hstep.
  { intros s [? ? ? ? ?]. split; cbn; try done. unfold sat_mul32, is_u32 in *. width_lia. }
  induction n as [|n [IHw IH]]; rewrite ?Nat.iter_succ.
  { split; [done|]. change (Nat.iter 0 rtt_apply_backoff r) with r. change (Z.of_nat 0) with 0. rewrite Z.pow_0_r. destruct Hr. lia. }
  split; [by apply Hstep|]. pose proof (rtt_wf_max _ Hr) as Hmx. pose proof (rtt_wf_rto _ Hr).
  pose proof (rtt_wf_min _ Hr) as Hmn.
  assert (max_rto_us (Nat.iter n rtt_apply_backoff r) = max_rto_us r) as Em.
  { clear. induction n as [|n IH]; [done|]. rewrite Nat.iter_succ. exact IH. }
  cbn [rtt_apply_backoff field_set rto_us]. rewrite Em, IH.
  rewrite Nat2Z.inj_succ, Z.pow_succ_r by lia. unfold sat_mul32, is_u32 in *.
  assert (0 < 2 ^ Z.of_nat n) by (apply Z.pow_pos_nonneg; lia).
  rewrite (Z.mul_comm 2 _), Z.mul_assoc. width_lia.
Qed.

Lemma rtt_backoff_exponential_witness :
  rto_us (Nat.iter 8 rtt_apply_backoff (rtt_new 5000 5000 1000000)) = 1000000.
Proof.
  destruct (rtt_backoff_exponential (rtt_new 5000 5000 1000000) 8) as [_ ->].
  - apply rtt_new_wf; width_lia.
  - by vm_compute.
Defined.

(** One RTT sample increments exactly one of the 16 buckets: the one of
    the first edge at or above the sample, the last bucket when there is none. *)
Theorem histogram_update_one (h : RttHistogram) (rtt : Z) (edges : list Z)
    (Hh : length h = 16%nat) (He : length edges = 15%nat) :
  let b := select_bucket rtt edges in
  (b <= 15)%nat /\
  (forall j e, (j < b)%nat -> edges !! j = Some e -> e < rtt) /\
  (forall e, edges !! b = Some e -> rtt <= e) /\
  histogram_update h rtt edges !! b = (fun v => wadd32 v 1) <$> (h !! b) /\
  (forall j, j <> b -> histogram_update h rtt edges !! j = h !! j).
Proof.
  cbn zeta. destruct (select_loop_spec edges 0 rtt _ He eq_refl) as (Hb & H1 & H2).
  rewrite Nat.sub_0_r in H2. change (select_loop edges 0 rtt) with (select_bucket rtt edges) in *.
  unfold histogram_update. split_and!; try done; [lia| |].
  - destruct (lookup_lt_is_Some_2 h (select_bucket rtt edges)) as [v Hv]; [lia|].
    rewrite Hv. apply list_lookup_insert_eq. lia.
  - intros j Hj. by apply list_lookup_insert_ne.
Qed.

Lemma histogram_update_one_witness :
  let edges := [50; 100; 200; 300; 500; 750; 1000; 2000; 3000; 5000; 10000; 25000; 50000; 100000; 500000] in
  histogram_update histogram_new 100 edges !! 1%nat = Some 1.
Proof.
  cbn zeta. set (edges := [50; 100; 200; 300; 500; 750; 1000; 2000; 3000; 5000; 10000; 25000; 50000; 100000; 500000]).
  destruct (histogram_update_one histogram_new 100 edges eq_refl eq_refl) as (_ & _ & _ & H & _).
  exact H.
Defined.
