(* ===== verification/Rack.v ===== *)
(** * RACK loss detection ([tcp_rack.rs]) *)

From S2P Require Import Prelude.
From S2P Require Import Seq.
From S2P Require Import Mbuf.
From S2P Require Import Retrans.

(** ** State and operations *)

Record RackState := mkRackState {
  rk_xmit_ts_ns : Z;
  rk_end_seq : Z;
  rk_reo_wnd_us : Z;
  rk_min_rtt_us : Z;
  rk_dsack_seen : bool;
}.

#[export] Instance RackState_eta : Settable RackState := fun r =>
  mkRackState (rk_xmit_ts_ns r) (rk_end_seq r) (rk_reo_wnd_us r) (rk_min_rtt_us r) (rk_dsack_seen r).

Definition rack_new : RackState := mkRackState 0 0 0 0 false.

Definition update_on_ack (r : RackState) (entry_xmit_ts_ns entry_end_seq : Z) : RackState :=
  if (rk_xmit_ts_ns r <? entry_xmit_ts_ns)
     || ((entry_xmit_ts_ns =? rk_xmit_ts_ns r) && seq_lt (rk_end_seq r) entry_end_seq)
  then r <| rk_xmit_ts_ns := entry_xmit_ts_ns |> <| rk_end_seq := entry_end_seq |>
  else r.

Definition update_min_rtt (r : RackState) (rtt_us : Z) : RackState :=
  if (rk_min_rtt_us r =? 0) || (rtt_us <? rk_min_rtt_us r)
  then r <| rk_min_rtt_us := rtt_us |> else r.

Definition detect_lost (r : RackState) (entry_xmit_ts_ns entry_end_seq now_ns reo_wnd_us : Z) : bool :=
  let newer_ack_exists :=
    (entry_xmit_ts_ns <? rk_xmit_ts_ns r)
    || ((entry_xmit_ts_ns =? rk_xmit_ts_ns r) && seq_lt entry_end_seq (rk_end_seq r)) in
  if negb newer_ack_exists then false
  else
    let age_ns := sat_sub now_ns entry_xmit_ts_ns in
    u64 (reo_wnd_us * 1000) <? age_ns.

Definition compute_reo_wnd_us (rack_aggressive : bool) (min_rtt_us : Z) (srtt_us : option Z) : Z :=
  if rack_aggressive then 0
  else
    match srtt_us with
    | None => Z.max (min_rtt_us / 2) 1000
    | Some srtt => Z.max (Z.min (srtt / 4) (min_rtt_us / 2)) 1000
    end.

Definition rto_age_expired (xmit_ns now_ns rtt_us reo_wnd_us : Z) : bool :=
  let rtt_ns := u64 (rtt_us * 1000) in
  let reo_ns := u64 (reo_wnd_us * 1000) in
  let age_ns := sat_sub now_ns xmit_ns in
  u64 (rtt_ns + reo_ns) <=? age_ns.

(** The test of one entry in [rack_mark_losses_on_rto_into]. *)
Definition rto_lost (snd_una rtt_us reo_wnd_us now_ns : Z) (e : RetransEntry) : bool :=
  if re_sacked e || re_lost e then false
  else if seq_le (re_end_seq e) snd_una then false
  else (re_seq e =? snd_una) || rto_age_expired (re_xmit_ts_ns e) now_ns rtt_us reo_wnd_us.

Fixpoint rack_mark_losses_on_rto_into (entries : list RetransEntry) (i : nat)
    (snd_una rtt_us reo_wnd_us now_ns : Z) (out : list Z) : list Z :=
  match entries with
  | [] => out
  | e :: entries =>
      let out := if rto_lost snd_una rtt_us reo_wnd_us now_ns e then out ++ [u16 (Z.of_nat i)] else out in
      rack_mark_losses_on_rto_into entries (S i) snd_una rtt_us reo_wnd_us now_ns out
  end.

Definition rack_mark_losses_on_rto (entries : list RetransEntry) (snd_una rtt_us reo_wnd_us now_ns : Z)
  : list Z := rack_mark_losses_on_rto_into entries 0 snd_una rtt_us reo_wnd_us now_ns [].

(** ** Lemmas *)

(** Transmission order: by time, ties by sequence number. *)
Definition sent_before (a b : Z * Z) : Prop := fst a < fst b \/ (fst a = fst b /\ seq_lt (snd a) (snd b) = true).

Definition rack_point (r : RackState) : Z * Z := (rk_xmit_ts_ns r, rk_end_seq r).

Lemma update_on_ack_point r ts es :
  rack_point (update_on_ack r ts es) = (ts, es) /\ sent_before (rack_point r) (ts, es) \/
  rack_point (update_on_ack r ts es) = rack_point r /\ ~ sent_before (rack_point r) (ts, es).
Proof.
  unfold update_on_ack, sent_before, rack_point. cbn [fst snd].
  destruct (Z.ltb_spec (rk_xmit_ts_ns r) ts); cbn [orb]; [left; split; [done|lia]|].
  destruct (Z.eqb_spec ts (rk_xmit_ts_ns r)); cbn [andb].
  - destruct (seq_lt (rk_end_seq r) es) eqn:E; [left; split; [done|right; split; [lia|done]]|right].
    split; [done|]. intros [?|[? ?]]; [lia|congruence].
  - right. split; [done|]. intros [?|[? ?]]; lia.
Qed.

Lemma detect_lost_iff r ts es now reo :
  0 <= reo < two32 ->
  detect_lost r ts es now reo = true <->
  sent_before (ts, es) (rack_point r) /\ reo * 1000 < Z.max 0 (now - ts).
Proof.
  intros Hr. unfold detect_lost, sent_before, rack_point, sat_sub. cbn [fst snd].
  rewrite u64_id by width_lia.
  destruct (Z.ltb_spec ts (rk_xmit_ts_ns r)); cbn [orb negb]; [rewrite Z.ltb_lt; intuition lia|].
  destruct (Z.eqb_spec ts (rk_xmit_ts_ns r)); cbn [andb negb].
  - destruct (seq_lt es (rk_end_seq r)); cbn [negb]; rewrite ?Z.ltb_lt; intuition (done || lia).
  - split; [done|lia].
Qed.

Lemma mark_losses_app entries i una rtt reo now out :
  rack_mark_losses_on_rto_into entries i una rtt reo now out =
    out ++ rack_mark_losses_on_rto_into entries i una rtt reo now [].
Proof.
  revert i out. induction entries as [|e l IH]; intros i out; cbn [rack_mark_losses_on_rto_into].
  { by rewrite app_nil_r. }
  destruct (rto_lost _ _ _ _ _); [rewrite IH, (IH _ ([] ++ _)), <- app_assoc|rewrite IH]; done.
Qed.

Lemma mark_losses_elem entries i una rtt reo now k :
  Z.of_nat (i + length entries) <= two16 ->
  k ∈ rack_mark_losses_on_rto_into entries i una rtt reo now [] <->
  exists j e, k = Z.of_nat (i + j) /\ entries !! j = Some e /\ rto_lost una rtt reo now e = true.
Proof.
  revert i. induction entries as [|e l IH]; intros i Hl; cbn [rack_mark_losses_on_rto_into length] in *.
  { split; [by intros ?%not_elem_of_nil|]. by intros (j & e & _ & ? & _). }
  rewrite mark_losses_app, elem_of_app, IH by lia.
  assert (u16 (Z.of_nat i) = Z.of_nat i) as Ei by (apply u16_id; width_lia). split.
  - intros [Hin|(j & e' & -> & Hj & He)].
    + destruct (rto_lost una rtt reo now e) eqn:El; [|by apply not_elem_of_nil in Hin].
      apply list_elem_of_singleton in Hin as ->. exists 0%nat, e. rewrite Ei. split_and!; try done. by rewrite Nat.add_0_r.
    + exists (S j), e'. split_and!; try done. lia.
  - intros ([|j] & e' & -> & Hj & He); cbn in Hj.
    + simplify_eq. left. rewrite He, Ei, Nat.add_0_r. set_solver.
    + right. exists j, e'. split_and!; try done. lia.
Qed.

(** ** Properties *)

(** RACK's reference point is the most recently sent acknowledged
    segment: updating it with an acknowledged segment never moves it back in
    transmission order and leaves no segment of the update ahead of it. *)
Theorem rack_point_max (r : RackState) (ts es : Z) :
  let r' := update_on_ack r ts es in
  (rack_point r' = rack_point r \/ rack_point r' = (ts, es) /\ sent_before (rack_point r) (rack_point r')) /\
  ~ sent_before (rack_point r') (ts, es) /\
  (forall now reo, detect_lost r' ts es now reo = true -> sent_before (ts, es) (rack_point r)).
Proof.
  cbn zeta. destruct (update_on_ack_point r ts es) as [[-> H]|[E H]].
  - split; [by right|]. split.
    + intros [?|[_ Hx]]; cbn in *; [lia|]. by rewrite seq_lt_irrefl in Hx.
    + intros now reo. unfold detect_lost, update_on_ack.
      destruct H as [H|[H1 H2]]; cbn in *.
      * rewrite (proj2 (Z.ltb_lt _ _) H). cbn. by rewrite Z.ltb_irrefl, Z.eqb_refl, seq_lt_irrefl.
      * rewrite H1, Z.ltb_irrefl, Z.eqb_refl, H2. cbn. by rewrite Z.ltb_irrefl, Z.eqb_refl, seq_lt_irrefl.
  - rewrite E. split; [by left|]. split; [done|].
    intros now reo Hd. rewrite <- E. unfold detect_lost, sent_before, rack_point in *; cbn.
    destruct (Z.ltb_spec ts (rk_xmit_ts_ns (update_on_ack r ts es))); [by left|]. cbn in Hd.
    destruct (Z.eqb_spec ts (rk_xmit_ts_ns (update_on_ack r ts es))); [|done]. cbn in Hd.
    destruct (seq_lt es (rk_end_seq (update_on_ack r ts es))); [by right|done].
Qed.

(** On a timeout RACK marks exactly the in-flight segments that are
    neither SACKed nor already lost nor fully acknowledged, and that are either
    the oldest unacknowledged one or older than the RTT plus the reordering
    window; in particular the segment at [snd_una] is always retransmitted. *)
Theorem rack_rto_marks_exactly (entries : list RetransEntry) (snd_una rtt reo now : Z)
    (Hlen : zlen entries <= two16) (Hrtt : is_u32 rtt) (Hreo : is_u32 reo) (k : nat) (e : RetransEntry)
    (He : entries !! k = Some e) :
  Z.of_nat k ∈ rack_mark_losses_on_rto entries snd_una rtt reo now <->
  re_sacked e = false /\ re_lost e = false /\ seq_le (re_end_seq e) snd_una = false /\
  (re_seq e = snd_una \/ (rtt + reo) * 1000 <= Z.max 0 (now - re_xmit_ts_ns e)).
Proof.
  unfold rack_mark_losses_on_rto. rewrite mark_losses_elem by (unfold zlen in Hlen; lia).
  assert (rto_lost snd_una rtt reo now e = true <->
    re_sacked e = false /\ re_lost e = false /\ seq_le (re_end_seq e) snd_una = false /\
    (re_seq e = snd_una \/ (rtt + reo) * 1000 <= Z.max 0 (now - re_xmit_ts_ns e))) as <-.
  { unfold rto_lost, rto_age_expired, sat_sub.
    rewrite (u64_id (rtt * 1000)), (u64_id (reo * 1000)), u64_id by width_lia.
    destruct (re_sacked e), (re_lost e), (seq_le _ _); cbn [orb]; try (split; [done|by intros (? & ? & ? & _)]).
    rewrite orb_true_iff, Z.eqb_eq, Z.leb_le. split; [intros H; split_and!; try done; lia|intros (_ & _ & _ & H); lia]. }
  split.
  - intros (j & e' & Ej & Hj & Hl). assert (j = k) as -> by lia. by simplify_eq.
  - intros Hl. exists k, e. split_and!; try done.
Qed.

Lemma rack_rto_marks_exactly_witness :
  let r := [sample_entry 100 10 5; sample_entry 110 10 6] in
  0 ∈ rack_mark_losses_on_rto r 100 5000 1000 10 /\ ~ (1 ∈ rack_mark_losses_on_rto r 100 5000 1000 10).
Proof.
  cbn zeta. set (r := [sample_entry 100 10 5; sample_entry 110 10 6]). split.
  - apply (rack_rto_marks_exactly r 100 5000 1000 10 ltac:(by vm_compute) ltac:(by vm_compute)
      ltac:(by vm_compute) 0 _ eq_refl). split_and!; try done. by left.
  - intros H. apply (rack_rto_marks_exactly r 100 5000 1000 10 ltac:(by vm_compute) ltac:(by vm_compute)
      ltac:(by vm_compute) 1 _ eq_refl) in H as (_ & _ & _ & [H|H]); by vm_compute in H.
Defined.
