(* ===== verification/Tlp.v ===== *)
(** * Tail loss probe arithmetic ([tcp_tlp.rs]) *)

From S2P Require Import Prelude.

Definition WCDELACK_US : Z := 200000.
Definition DEFAULT_MULTIPLIER_X100 : Z := 200.
Definition DEFAULT_MAX_CONSECUTIVE_PROBES : Z := 1.

Record TlpConfig := mkTlpConfig {
  floor_us : Z;
  multiplier_x100 : Z;
  skip_flight_size_gate : bool;
}.

Definition a5_compat (default_floor_us : Z) : TlpConfig := mkTlpConfig default_floor_us 200 false.
Definition TlpConfig_default : TlpConfig := a5_compat 5000.

Definition pto_us (srtt_us : option Z) (cfg : TlpConfig) (flight_size : Z) : Z :=
  match srtt_us with
  | None => floor_us cfg
  | Some srtt =>
      let base := u32 (u64 (srtt * multiplier_x100 cfg) / 100) in
      let with_penalty :=
        if (flight_size =? 1) && negb (skip_flight_size_gate cfg)
        then sat_add32 base (Z.max WCDELACK_US (srtt / 4))
        else base in
      Z.max with_penalty (floor_us cfg)
  end.

Inductive Probe := NewData | LastSegmentRetransmit.

Definition select_probe (snd_pending_nonempty snd_retrans_nonempty : bool) : option Probe :=
  if negb snd_retrans_nonempty then None
  else if snd_pending_nonempty then Some NewData
  else Some LastSegmentRetransmit.

(** ** Properties *)

(** The probe timeout is [srtt * multiplier / 100], plus the delayed-ACK
    penalty exactly when a single segment is in flight and the gate is not
    opted out, never below the floor, and fits 32 bits without wrapping as
    long as the scaled RTT does. *)
Theorem pto_us_correct (srtt flight : Z) (cfg : TlpConfig)
    (Hs : is_u32 srtt) (Hm : is_u16 (multiplier_x100 cfg)) (Hf : is_u32 (floor_us cfg))
    (Hfit : srtt * multiplier_x100 cfg / 100 < two32) :
  floor_us cfg <= pto_us (Some srtt) cfg flight < two32 /\
  pto_us (Some srtt) cfg flight =
    Z.max (floor_us cfg)
      (Z.min U32_MAX
        (srtt * multiplier_x100 cfg / 100 +
         if (flight =? 1) && negb (skip_flight_size_gate cfg) then Z.max 200000 (srtt / 4) else 0)) /\
  pto_us None cfg flight = floor_us cfg.
Proof.
  unfold pto_us. assert (0 <= srtt * multiplier_x100 cfg) by (unfold is_u16, is_u32 in *; nia).
  assert (srtt * multiplier_x100 cfg < two64) by (widths; nia).
  assert (0 <= srtt * multiplier_x100 cfg / 100) by (apply Z.div_pos; lia).
  rewrite u64_id by (unfold is_u64; lia). rewrite u32_id by (unfold is_u32; lia).
  assert (0 <= srtt / 4) by (apply Z.div_pos; unfold is_u32 in *; lia).
  unfold sat_add32, WCDELACK_US. unfold is_u32 in *.
  destruct ((flight =? 1) && _); split_and!; try done; width_lia.
Qed.

Lemma pto_us_correct_witness : pto_us (Some 10000) TlpConfig_default 1 = 220000.
Proof.
  destruct (pto_us_correct 10000 1 TlpConfig_default ltac:(width_lia) ltac:(by vm_compute)
    ltac:(by vm_compute) ltac:(by vm_compute)) as (_ & -> & _). by vm_compute.
Defined.
