(* ===== verification/TimerWheel.v ===== *)
(** * Hashed timing wheel ([tcp_timer_wheel.rs])

    Eight levels of 256 buckets of slot numbers, a slot table, generations that
    tell the occupants of a slot apart, and a stack of free slots.  A cursor per
    level points at the bucket drained last. *)

From S2P Require Import Prelude.

(** ** Data *)

Definition TICK_NS : Z := 10000.
Definition LEVELS : nat := 8.
Definition BUCKETS : nat := 256.

Record TimerId := mkTimerId { ti_slot : nat; ti_generation : Z }.

#[export] Instance TimerId_eq_dec : EqDecision TimerId.
Proof. solve_decision. Defined.

Inductive TimerKind := Rto | Tlp | SynRetrans | ApiPublic.

Record TimerNode := mkTimerNode {
  fire_at_ns : Z;
  owner_handle : Z;
  tn_kind : TimerKind;
  user_data : Z;
  tn_generation : Z;
  cancelled : bool;
}.

#[export] Instance TimerNode_eta : Settable TimerNode := fun n =>
  mkTimerNode (fire_at_ns n) (owner_handle n) (tn_kind n) (user_data n) (tn_generation n) (cancelled n).

(** [free_list] is a stack, its top first; an absent bucket of the map is an
    empty one. *)
Record TimerWheel := mkTimerWheel {
  slots : list (option TimerNode);
  generations : list Z;
  free_list : list nat;
  buckets : gmap (nat * nat) (list nat);
  cursors : list nat;
  last_tick : Z;
  drain_scratch : list nat;
}.

#[export] Instance TimerWheel_eta : Settable TimerWheel := fun w =>
  mkTimerWheel (slots w) (generations w) (free_list w) (buckets w) (cursors w) (last_tick w) (drain_scratch w).

(** ** Operations *)

(** [TimerWheel::new]. *)
Definition wheel_new : TimerWheel := mkTimerWheel [] [] [] ∅ (replicate LEVELS 0%nat) 0 [].

Definition bucket (w : TimerWheel) (level b : nat) : list nat := default [] (buckets w !! (level, b)).
Definition cursor (w : TimerWheel) (level : nat) : nat := default 0%nat (cursors w !! level).
Definition slot (w : TimerWheel) (s : nat) : option TimerNode := mjoin (slots w !! s).

(** [1u64 << k]: a release build shifts by [k mod 64]. *)
Definition shl64 (k : nat) : Z := 2 ^ (Z.of_nat k mod 64).

Definition clamp_off (off : Z) : nat := Z.to_nat (Z.max 1 (Z.min (Z.of_nat BUCKETS - 1) off)).

(** The [for level in 0..LEVELS] loop; [n] levels are left. *)
Fixpoint level_loop (n level : nat) (delay_ticks : Z) : nat * nat :=
  match n with
  | O => ((LEVELS - 1)%nat, (BUCKETS - 1)%nat)
  | S n =>
      if delay_ticks <? shl64 (8 * (level + 1)) then (level, clamp_off (delay_ticks / shl64 (8 * level)))
      else level_loop n (S level) delay_ticks
  end.

Definition level_and_bucket_offset (delay_ticks : Z) : nat * nat := level_loop LEVELS 0 delay_ticks.

(** [buckets[level][b].push(slot)]. *)
Definition push_bucket (level b s : nat) (w : TimerWheel) : TimerWheel :=
  w <| buckets ::= fun m => <[(level, b) := bucket w level b ++ [s]]> m |>.

Definition add (now_ns : Z) (node : TimerNode) (w : TimerWheel) : TimerWheel * TimerId :=
  let delay_ticks := sat_sub (fire_at_ns node) now_ns / TICK_NS in
  let '(level, bucket_off) := level_and_bucket_offset delay_ticks in
  let bucket_idx := ((cursor w level + bucket_off) mod BUCKETS)%nat in
  let '(s, w) :=
    match free_list w with
    | s :: free =>
        (s, w <| free_list := free |>
              <| generations ::= fun g => <[s := wadd32 (default 0 (g !! s)) 1]> g |>)
    | [] =>
        (length (slots w), w <| slots ::= fun l => l ++ [None] |>
                             <| generations ::= fun g => g ++ [0] |>)
    end in
  let gen := default 0 (generations w !! s) in
  let node := node <| tn_generation := gen |> <| cancelled := false |> in
  let w := w <| slots ::= <[s := Some node]> |> in
  (push_bucket level bucket_idx s w, mkTimerId s gen).

Definition cancel (id : TimerId) (w : TimerWheel) : bool * TimerWheel :=
  match slot w (ti_slot id) with
  | Some node =>
      if (tn_generation node =? ti_generation id) && negb (cancelled node) then
        (true, w <| slots ::= <[ti_slot id := Some (node <| cancelled := true |>)]> |>)
      else (false, w)
  | None => (false, w)
  end.

(** The drain of one level-0 bucket: every occupied slot is freed, live nodes
    fire. *)
Fixpoint fire_slots (ss : list nat) (w : TimerWheel) (fired : list (TimerId * TimerNode))
  : TimerWheel * list (TimerId * TimerNode) :=
  match ss with
  | [] => (w, fired)
  | s :: ss =>
      match slot w s with
      | None => fire_slots ss w fired
      | Some node =>
          let w := w <| slots ::= <[s := None]> |> <| free_list ::= fun f => s :: f |> in
          let fired := if negb (cancelled node)
                       then fired ++ [(mkTimerId s (tn_generation node), node)] else fired in
          fire_slots ss w fired
      end
  end.

(** Re-placement of the slots of a cascading bucket. *)
Fixpoint replace_slots (ss : list nat) (now_ns : Z) (w : TimerWheel) : TimerWheel :=
  match ss with
  | [] => w
  | s :: ss =>
      match slot w s with
      | None => replace_slots ss now_ns w
      | Some node =>
          let w := w <| slots ::= <[s := None]> |> in
          if cancelled node then replace_slots ss now_ns (w <| free_list ::= fun f => s :: f |>)
          else
            let delay_ticks := sat_sub (fire_at_ns node) now_ns / TICK_NS in
            let '(new_level, bucket_off) := level_and_bucket_offset delay_ticks in
            let new_bucket := ((cursor w new_level + bucket_off) mod BUCKETS)%nat in
            let w := w <| slots ::= <[s := Some node]> |> in
            replace_slots ss now_ns (push_bucket new_level new_bucket s w)
      end
  end.

(** [mem::swap(&mut self.drain_scratch, &mut self.buckets[level][cursor])]. *)
Definition swap_scratch (level c : nat) (w : TimerWheel) : TimerWheel :=
  w <| drain_scratch := bucket w level c |>
    <| buckets ::= fun m => <[(level, c) := drain_scratch w]> m |>.

(** [cascade]; [n] bounds the levels left, [LEVELS] of them at most. *)
Fixpoint cascade (n level : nat) (w : TimerWheel) : TimerWheel :=
  match n with
  | O => w
  | S n =>
      if (LEVELS <=? level)%nat then w
      else
        let w := w <| cursors ::= fun cs => <[level := ((cursor w level + 1) mod BUCKETS)%nat]> cs |> in
        let c := cursor w level in
        let now_ns := u64 (last_tick w * TICK_NS) in
        let w := swap_scratch level c w in
        let w := replace_slots (drain_scratch w) now_ns w in
        let w := swap_scratch level c (w <| drain_scratch := [] |>) in
        if (cursor w level =? 0)%nat then cascade n (S level) w else w
  end.

(** One turn of the [advance] loop. *)
Definition advance_tick (w : TimerWheel) (fired : list (TimerId * TimerNode))
  : TimerWheel * list (TimerId * TimerNode) :=
  let w := w <| cursors ::= fun cs => <[0%nat := ((cursor w 0 + 1) mod BUCKETS)%nat]> cs |>
             <| last_tick ::= Z.succ |> in
  let c := cursor w 0 in
  let '(w, fired) := fire_slots (bucket w 0 c) w fired in
  let w := w <| buckets ::= <[(0%nat, c) := []]> |> in
  (if (cursor w 0 =? 0)%nat then cascade LEVELS 1 w else w, fired).

Fixpoint advance_loop (n : nat) (w : TimerWheel) (fired : list (TimerId * TimerNode))
  : TimerWheel * list (TimerId * TimerNode) :=
  match n with
  | O => (w, fired)
  | S n => let '(w, fired) := advance_tick w fired in advance_loop n w fired
  end.

Definition advance (now_ns : Z) (w : TimerWheel) : TimerWheel * list (TimerId * TimerNode) :=
  let now_tick := now_ns / TICK_NS in
  if now_tick <=? last_tick w then (w, [])
  else
    let target_delta := now_tick - last_tick w in
    advance_loop (Z.to_nat (Z.min target_delta (Z.of_nat (BUCKETS * LEVELS)))) w [].

(** ** Ticks *)

(** Ticks between two drains of neighbouring buckets of a level. *)
Definition span (L : nat) : Z := 256 ^ Z.of_nat L.

(** How often level [L]'s cursor has moved when [last_tick] is [t] and the
    levels from [lv] on have not been cascaded for [t] yet. *)
Definition moves (lv : nat) (t : Z) (L : nat) : Z := if (L <? lv)%nat then t / span L else (t - 1) / span L.

Definition expiry (n : TimerNode) : Z := fire_at_ns n / TICK_NS.

Lemma span_pos L : 0 < span L.
Proof. apply Z.pow_pos_nonneg; lia. Qed.

Lemma span_0 : span 0 = 1.
Proof. done. Qed.

Lemma span_S L : span (S L) = 256 * span L.
Proof. unfold span. rewrite Nat2Z.inj_succ, Z.pow_succ_r; lia. Qed.

Lemma shl64_span L : (L < LEVELS)%nat -> shl64 (8 * L) = span L.
Proof.
  unfold LEVELS. intros H. do 8 (destruct L as [|L]; [reflexivity|]). lia.
Qed.

(** The level and offset of a delay of less than 2^56 ticks: the level's span
    does not exceed the delay, and the offset is the number of whole spans. *)
Lemma level_offset_spec d L o :
  0 <= d < 2 ^ 56 -> level_and_bucket_offset d = (L, o) ->
  (L <= 6)%nat /\
  (if (L =? 0)%nat then Z.of_nat o = Z.max 1 d else Z.of_nat o = d / span L) /\
  1 <= Z.of_nat o <= 255 /\ (L <> 0%nat -> span L <= d).
Proof.
  intros Hd. unfold level_and_bucket_offset, LEVELS.
  assert (forall k lv, (lv + k = 8)%nat -> (lv <= 6)%nat -> (lv = 0%nat \/ span lv <= d) ->
    level_loop k lv d = (L, o) ->
    (L <= 6)%nat /\ (if (L =? 0)%nat then Z.of_nat o = Z.max 1 d else Z.of_nat o = d / span L) /\
    1 <= Z.of_nat o <= 255 /\ (L <> 0%nat -> span L <= d)) as H; [|by apply H; [|lia|left]].
  induction k as [|k IH]; intros lv Hk Hlv Hsp; cbn [level_loop]; [lia|].
  replace (8 * (lv + 1))%nat with (8 * S lv)%nat by lia.
  rewrite !shl64_span by (unfold LEVELS; lia). rewrite span_S.
  pose proof (span_pos lv) as Hpos.
  destruct (Z.ltb_spec d (256 * span lv)) as [Hlt|Hge].
  - intros [= <- <-]. clear IH. unfold clamp_off, BUCKETS.
    assert (d / span lv < 256) by (apply Z.div_lt_upper_bound; lia).
    assert (0 <= d / span lv) by (apply Z.div_pos; lia).
    split_and!; try lia.
    destruct (Nat.eqb_spec lv 0) as [->|Hne].
    + change (span 0) with 1 in *. rewrite Z.div_1_r in *. lia.
    + destruct Hsp as [?|Hsp]; [done|]. assert (1 <= d / span lv) by (apply Z.div_le_lower_bound; lia). lia.
  - assert (lv <> 6)%nat.
    { intros ->. change (256 * span 6) with (2 ^ 56) in Hge. lia. }
    apply IH; [lia..|]. right. rewrite span_S. lia.
Qed.

Lemma moves_le lv t L : moves lv t L * span L <= t.
Proof.
  pose proof (span_pos L). unfold moves. destruct (L <? lv)%nat.
  - rewrite Z.mul_comm. apply Z.mul_div_le. lia.
  - transitivity (t - 1); [|lia]. rewrite Z.mul_comm. apply Z.mul_div_le. lia.
Qed.

(** When [t] is not a multiple of a level's span, the levels from there on need
    no cascade. *)
Lemma moves_skip t L lv :
  0 < t -> t mod span lv <> 0 -> (lv <= L)%nat -> (t - 1) / span L = t / span L.
Proof.
  intros Ht Hm HL. pose proof (span_pos L). pose proof (span_pos lv).
  assert (span L = span lv * 256 ^ Z.of_nat (L - lv)) as Es.
  { unfold span. rewrite <- Z.pow_add_r by lia. f_equal. lia. }
  assert (t mod span L <> 0) as Hm'.
  { intros E. apply Hm. apply Z.mod_divide in E as [k ->]; [|lia]. rewrite Es, (Z.mul_comm (span lv)), Z.mul_assoc.
    apply Z.mod_mul. lia. }
  symmetry. apply Z.div_unique with (t mod span L - 1).
  - left. pose proof (Z.mod_pos_bound t (span L)). lia.
  - rewrite (Z.div_mod t (span L)) at 1 by lia. lia.
Qed.

Lemma moves_multiple t lv :
  0 < t -> t mod span lv = 0 -> t / span lv = (t - 1) / span lv + 1 /\ t / span lv * span lv = t.
Proof.
  intros Ht Hm. pose proof (span_pos lv). apply Z.mod_divide in Hm as [k ->]; [|lia].
  rewrite Z.div_mul by lia. split; [|done].
  assert ((k * span lv - 1) / span lv = k - 1) as ->; [|lia].
  symmetry. apply Z.div_unique with (span lv - 1); [left; lia|ring].
Qed.

(** ** The invariant *)

(** The entry of node [n] in bucket [b] of level [L]: the bucket is drained
    when the level's cursor has moved [q] times.  A node of level 0 then fires,
    at most one tick before its expiry; a node of a higher level is placed again,
    no later than its expiry. *)
Definition entry_ok (lv : nat) (t : Z) (L b : nat) (n : TimerNode) : Prop :=
  (L <= 6)%nat /\ is_u64 (fire_at_ns n) /\
  exists q, Z.of_nat b = q mod 256 /\ moves lv t L < q <= moves lv t L + 255 /\
    (if (L =? 0)%nat then expiry n - 1 <= q <= Z.max (expiry n) (t + 1) else q * span L <= expiry n).

(** [todo]: slots taken out of a bucket and not yet freed or placed again. *)
Record winv (lv : nat) (w : TimerWheel) (todo : list nat) : Prop := {
  w_len : length (generations w) = length (slots w);
  w_cur_len : length (cursors w) = LEVELS;
  w_cur : forall L, (L < LEVELS)%nat -> Z.of_nat (cursor w L) = moves lv (last_tick w) L mod 256;
  w_tick : 0 <= last_tick w /\ last_tick w * TICK_NS < two64;
  w_bk_nodup : forall L b, NoDup (bucket w L b);
  w_bk_uniq : forall L b L' b' s, s ∈ bucket w L b -> s ∈ bucket w L' b' -> L = L' /\ b = b';
  w_free_nodup : NoDup (free_list w);
  w_todo_nodup : NoDup todo;
  w_bk_occ : forall L b s, s ∈ bucket w L b ->
    s ∉ todo /\ (exists n, slot w s = Some n /\ entry_ok lv (last_tick w) L b n);
  w_todo_occ : forall s, s ∈ todo -> (exists n, slot w s = Some n /\ is_u64 (fire_at_ns n));
  w_free : forall s, s ∈ free_list w <-> (s < length (slots w))%nat /\ slot w s = None;
  w_occ : forall s n, slot w s = Some n -> s ∈ todo \/ (exists L b, s ∈ bucket w L b);
  w_gen : forall s n, slot w s = Some n -> generations w !! s = Some (tn_generation n);
}.

(** The invariant between operations. *)
Definition wheel_ok (w : TimerWheel) : Prop := winv LEVELS w [] /\ drain_scratch w = [].

Lemma slot_lt w s n : slot w s = Some n -> (s < length (slots w))%nat.
Proof.
  unfold slot. intros H. destruct (slots w !! s) eqn:E; [|done]. by eapply lookup_lt_Some.
Qed.

Lemma slot_set w s o s' :
  (s < length (slots w))%nat ->
  slot (w <| slots ::= <[s := o]> |>) s' = if decide (s = s') then o else slot w s'.
Proof.
  intros Hs. unfold slot; cbn. case_decide as E.
  - subst. by rewrite list_lookup_insert_eq.
  - by rewrite list_lookup_insert_ne.
Qed.

Lemma bucket_new L b : bucket wheel_new L b = [].
Proof. unfold bucket, wheel_new. cbn. by rewrite lookup_empty. Qed.

Lemma wheel_new_ok : wheel_ok wheel_new.
Proof.
  split; [|done]. split; try done; intros *; rewrite ?bucket_new; try done; cbn; try (by constructor).
  - intros HL. unfold moves. rewrite (proj2 (Nat.ltb_lt _ _)) by done.
    rewrite Z.div_0_l by (pose proof (span_pos L); lia). unfold cursor; cbn.
    unfold LEVELS in HL. do 8 (destruct L as [|L]; [done|]). lia.
  - intros H. by apply not_elem_of_nil in H.
  - intros H. by apply not_elem_of_nil in H.
  - intros H. by apply not_elem_of_nil in H.
  - split; [intros H; by apply not_elem_of_nil in H|lia].
Qed.

(** ** Steps on one slot *)

Section Steps.
Context (lv : nat) (w : TimerWheel).

Lemma bucket_push L b s L' b' :
  bucket (push_bucket L b s w) L' b' = if decide (L = L' /\ b = b') then bucket w L b ++ [s] else bucket w L' b'.
Proof.
  unfold bucket, push_bucket; cbn. case_decide as E.
  - destruct E as [<- <-]. by rewrite lookup_insert_eq.
  - rewrite lookup_insert_ne; [done|]. intros [= ? ?]. by apply E.
Qed.

(** Freeing a slot that is being processed. *)
Lemma winv_free_slot s todo :
  winv lv w (s :: todo) ->
  winv lv (w <| slots ::= <[s := None]> |> <| free_list ::= fun f => s :: f |>) todo.
Proof.
  intros [I1 I2 I3 I4 I5 I6 I7 I8 I9 I10 I11 I12 I13].
  destruct (I10 s ltac:(set_solver)) as (n & Hn & _). pose proof (slot_lt _ _ _ Hn) as Hlt.
  apply NoDup_cons in I8 as [Hs I8].
  set (w' := field_set _ _).
  assert (forall s', slot w' s' = if decide (s = s') then None else slot w s') as Es.
  { intros s'. by rewrite <- slot_set. }
  assert (length (slots w') = length (slots w)) as El by apply length_insert.
  split; try done; rewrite ?El; try done.
  - apply NoDup_cons. split; [|done]. intros Hin. apply I11 in Hin as [_ Hin]. congruence.
  - intros L b s' Hin. destruct (I9 L b s' Hin) as (Hnt & n' & Hn' & He). split; [set_solver|].
    exists n'. rewrite Es, decide_False by set_solver. done.
  - intros s' Hin. destruct (I10 s' ltac:(set_solver)) as (n' & Hn' & ?). exists n'.
    rewrite Es, decide_False by (intros ->; done). done.
  - intros s'. cbn [w' field_set free_list]. rewrite elem_of_cons, I11, Es. case_decide; subst; intuition congruence.
  - intros s' n'. rewrite Es. case_decide; [done|]. intros Hn'. apply I12 in Hn' as [Hin|?]; [|by right].
    left. set_solver.
  - intros s' n'. rewrite Es. case_decide; [done|]. apply I13.
Qed.

(** Putting a slot that is being processed into a bucket. *)
Lemma winv_place s todo L b n :
  winv lv w (s :: todo) -> slot w s = Some n -> entry_ok lv (last_tick w) L b n ->
  winv lv (push_bucket L b s w) todo.
Proof.
  intros [I1 I2 I3 I4 I5 I6 I7 I8 I9 I10 I11 I12 I13] Hn He.
  apply NoDup_cons in I8 as [Hs I8].
  assert (forall L' b' s', s' ∈ bucket (push_bucket L b s w) L' b' <->
            s' ∈ bucket w L' b' \/ (s' = s /\ L = L' /\ b = b')) as Eb.
  { intros L' b' s'. rewrite bucket_push. case_decide as E.
    - destruct E as [<- <-]. rewrite elem_of_app, list_elem_of_singleton. naive_solver.
    - naive_solver. }
  assert (forall L' b', s ∉ bucket w L' b') as Hsb.
  { intros L' b' Hin. destruct (I9 _ _ _ Hin) as [Hnt _]. set_solver. }
  split; try done.
  - intros L' b'. rewrite bucket_push. case_decide as E; [|done]. apply NoDup_app. split_and!; [done| |].
    + intros x Hx ->%list_elem_of_singleton. by apply (Hsb L b).
    + apply NoDup_singleton.
  - intros L1 b1 L2 b2 s'. rewrite !Eb. intros [H1|(-> & <- & <-)] [H2|(E & <- & <-)].
    + by eapply I6.
    + subst. by apply Hsb in H1.
    + by apply Hsb in H2.
    + done.
  - intros L' b' s'. rewrite Eb. intros [Hin|(-> & <- & <-)].
    + destruct (I9 _ _ _ Hin) as (? & ?). split; [set_solver|done].
    + split; [done|]. by exists n.
  - intros s' Hin. apply I10. set_solver.
  - intros s' n' Hn'. destruct (decide (s' = s)) as [->|Hne].
    + right. exists L, b. apply Eb. by right.
    + apply I12 in Hn' as [Hin|(L' & b' & Hin)]; [left; set_solver|]. right. exists L', b'. apply Eb. by left.
Qed.

(** Emptying a bucket turns its slots into work. *)
Lemma winv_open L b :
  winv lv w [] -> winv lv (w <| buckets ::= <[(L, b) := []]> |>) (bucket w L b).
Proof.
  intros [I1 I2 I3 I4 I5 I6 I7 I8 I9 I10 I11 I12 I13].
  set (w' := field_set _ _).
  assert (forall L' b', bucket w' L' b' = if decide (L = L' /\ b = b') then [] else bucket w L' b') as Eb.
  { intros L' b'. unfold bucket, w'; cbn. case_decide as E.
    - destruct E as [<- <-]. by rewrite lookup_insert_eq.
    - rewrite lookup_insert_ne; [done|]. intros [= ? ?]. by apply E. }
  assert (forall L' b' s, s ∈ bucket w' L' b' <-> s ∈ bucket w L' b' /\ ~ (L = L' /\ b = b')) as Ein.
  { intros L' b' s. rewrite Eb. case_decide; [|naive_solver]. split; [by intros ?%not_elem_of_nil|naive_solver]. }
  split; try done.
  - intros L' b'. rewrite Eb. case_decide; [constructor|done].
  - intros L1 b1 L2 b2 s. rewrite !Ein. intros [H1 _] [H2 _]. by eapply I6.
  - intros L' b' s. rewrite Ein. intros [Hin Hne]. split; [|by apply I9].
    intros Hin2. apply Hne. by destruct (I6 _ _ _ _ _ Hin2 Hin).
  - intros s Hin. destruct (I9 _ _ _ Hin) as (_ & n & Hn & _ & Hu & _). by exists n.
  - intros s n Hn. apply I12 in Hn as [?%not_elem_of_nil|(L' & b' & Hin)]; [done|].
    destruct (decide (L = L' /\ b = b')) as [[<- <-]|Hne]; [by left|]. right. exists L', b'. by apply Ein.
Qed.
End Steps.

(** ** Draining and placing *)

(** Only these parts of the state matter to the invariant. *)
Lemma winv_ext lv w w' todo :
  slots w' = slots w -> generations w' = generations w -> free_list w' = free_list w ->
  cursors w' = cursors w -> last_tick w' = last_tick w ->
  (forall L b, bucket w' L b = bucket w L b) -> winv lv w todo -> winv lv w' todo.
Proof.
  intros E1 E2 E3 E4 E5 E6 [I1 I2 I3 I4 I5 I6 I7 I8 I9 I10 I11 I12 I13].
  assert (forall s, slot w' s = slot w s) as E7 by (intros s; unfold slot; by rewrite E1).
  assert (forall L, cursor w' L = cursor w L) as E8 by (intros L; unfold cursor; by rewrite E4).
  split; rewrite ?E1, ?E2, ?E3, ?E4, ?E5; try done; intros *; rewrite ?E6, ?E7, ?E8;
    try done; try first [by apply I3|by apply I6|by apply I9|by apply I10|by apply I11|by apply I13].
  intros H. apply I12 in H as [?|(L & b & H)]; [by left|]. right. exists L, b. by rewrite E6.
Qed.

(** The bucket under a cursor is empty. *)
Lemma bucket_cursor_empty lv w todo L :
  winv lv w todo -> (L < LEVELS)%nat -> bucket w L (cursor w L) = [].
Proof.
  intros I HL. destruct (bucket w L (cursor w L)) as [|s l] eqn:E; [done|].
  destruct (w_bk_occ _ _ _ I L (cursor w L) s) as (_ & n & _ & _ & _ & q & Hq & Hm & _); [rewrite E; set_solver|].
  rewrite (w_cur _ _ _ I L HL) in Hq. exfalso. revert Hq Hm. generalize (moves lv (last_tick w) L).
  intros m Hq Hm. Z.to_euclidean_division_equations. lia.
Qed.

(** Moving one cursor whose next bucket is empty. *)
Lemma winv_move lv lv' w w' L0 todo :
  winv lv w todo -> (L0 < LEVELS)%nat ->
  slots w' = slots w -> generations w' = generations w -> free_list w' = free_list w ->
  (forall L b, bucket w' L b = bucket w L b) ->
  cursors w' = <[L0 := ((cursor w L0 + 1) mod BUCKETS)%nat]> (cursors w) ->
  0 <= last_tick w <= last_tick w' -> last_tick w' * TICK_NS < two64 ->
  (forall L, (L < LEVELS)%nat -> L <> L0 -> moves lv' (last_tick w') L = moves lv (last_tick w) L) ->
  moves lv' (last_tick w') L0 = moves lv (last_tick w) L0 + 1 ->
  bucket w L0 ((cursor w L0 + 1) mod BUCKETS) = [] ->
  winv lv' w' todo.
Proof.
  intros I HL0 E1 E2 E3 E6 E4 Et Ht2 Hm Hm0 Hempty. pose proof I as [I1 I2 I3 I4 I5 I6 I7 I8 I9 I10 I11 I12 I13].
  assert (forall s, slot w' s = slot w s) as E7 by (intros s; unfold slot; by rewrite E1).
  split; rewrite ?E1, ?E2, ?E3; try done; intros *; rewrite ?E6, ?E7;
    try done; try first [by apply I6|by apply I11|by apply I13].
  - rewrite E4, length_insert. done.
  - intros HL. unfold cursor. rewrite E4. destruct (decide (L = L0)) as [->|Hne].
    + rewrite list_lookup_insert_eq by (rewrite I2; done). cbn [default].
      unfold id. rewrite Nat2Z.inj_mod, Nat2Z.inj_add, (I3 _ HL0), Hm0. unfold BUCKETS.
      change (Z.of_nat 256) with 256. change (Z.of_nat 1) with 1. apply Zplus_mod_idemp_l.
    + rewrite list_lookup_insert_ne, Hm by done. by apply I3.
  - lia.
  - intros Hin. destruct (I9 _ _ _ Hin) as (Hnt & n & Hn & HL & Hu & q & Hq & Hr & Hb). split; [done|].
    exists n. split; [by rewrite ?E7|]. split; [done|]. split; [done|]. exists q. split; [done|].
    split.
    + destruct (decide (L = L0)) as [->|Hne]; [|rewrite Hm by (done || unfold LEVELS; lia); done].
      rewrite Hm0. assert (q <> moves lv (last_tick w) L0 + 1); [|lia]. intros ->.
      assert (b = ((cursor w L0 + 1) mod BUCKETS)%nat) as ->; [|rewrite Hempty in Hin; by apply not_elem_of_nil in Hin].
      apply Nat2Z.inj. rewrite Hq, Nat2Z.inj_mod, Nat2Z.inj_add, (I3 _ HL0). unfold BUCKETS.
      change (Z.of_nat 256) with 256. change (Z.of_nat 1) with 1. by rewrite Zplus_mod_idemp_l.
    + destruct (L =? 0)%nat; [lia|done].
  - intros Hin. destruct (I10 _ Hin) as (n & ? & ?). exists n. by rewrite ?E7.
  - intros H. apply I12 in H as [?|(L & b & H)]; [by left|]. right. exists L, b. by rewrite E6.
Qed.

(** Where [add] and [cascade] put a node. *)
Lemma place_entry lv w todo now n L o :
  winv lv w todo -> (1 <= lv)%nat -> is_u64 (fire_at_ns n) -> 0 <= now -> now / TICK_NS = last_tick w ->
  level_and_bucket_offset (sat_sub (fire_at_ns n) now / TICK_NS) = (L, o) ->
  entry_ok lv (last_tick w) L ((cursor w L + o) mod BUCKETS) n.
Proof.
  intros I Hlv Hu Hnow Hsync E. set (d := sat_sub (fire_at_ns n) now / TICK_NS) in *. set (t := last_tick w) in *.
  assert (0 <= d < 2 ^ 56) as Hd.
  { unfold d, sat_sub, TICK_NS. split; [apply Z.div_pos; lia|]. apply Z.div_lt_upper_bound; [lia|].
    change (2 ^ 56) with 72057594037927936. width_lia. }
  destruct (level_offset_spec d L o Hd E) as (HL & Ho & Hor & Hsp).
  split; [done|]. split; [done|]. exists (moves lv t L + Z.of_nat o).
  split.
  { rewrite Nat2Z.inj_mod, Nat2Z.inj_add, (w_cur _ _ _ I L) by (unfold LEVELS; lia).
    unfold BUCKETS. change (Z.of_nat 256) with 256. apply Zplus_mod_idemp_l. }
  split; [lia|].
  assert (t * TICK_NS <= now < (t + 1) * TICK_NS) as Htn.
  { unfold TICK_NS in *. pose proof (Z.mul_div_le now 10000). pose proof (Z.mul_succ_div_gt now 10000). lia. }
  assert (fire_at_ns n < now \/ now + d * TICK_NS <= fire_at_ns n < now + (d + 1) * TICK_NS) as Hf.
  { destruct (Z_lt_ge_dec (fire_at_ns n) now); [by left|right]. unfold d, sat_sub, TICK_NS.
    rewrite Z.max_r by lia. pose proof (Z.mul_div_le (fire_at_ns n - now) 10000).
    pose proof (Z.mul_succ_div_gt (fire_at_ns n - now) 10000). lia. }
  destruct (Nat.eqb_spec L 0) as [->|Hne].
  - assert (moves lv t 0 = t) as ->.
    { unfold moves. rewrite (proj2 (Nat.ltb_lt _ _)) by lia. by rewrite span_0, Z.div_1_r. }
    rewrite Ho. unfold expiry. destruct Hf as [Hf|Hf].
    + assert (d = 0) as -> by (unfold d, sat_sub, TICK_NS; by rewrite Z.max_l by lia).
      assert (fire_at_ns n / TICK_NS < t + 1) by (apply Z.div_lt_upper_bound; unfold TICK_NS in *; lia). lia.
    + assert (fire_at_ns n / TICK_NS < t + d + 2) by (apply Z.div_lt_upper_bound; unfold TICK_NS in *; lia).
      assert (t + d <= fire_at_ns n / TICK_NS) by (apply Z.div_le_lower_bound; unfold TICK_NS in *; lia). lia.
  - specialize (Hsp Hne). pose proof (span_pos L). rewrite Ho, Z.mul_add_distr_r.
    pose proof (moves_le lv t L). pose proof (Z.mul_div_le d (span L)).
    destruct Hf as [Hf|Hf].
    + assert (d = 0) by (unfold d, sat_sub, TICK_NS; by rewrite Z.max_l by lia). lia.
    + assert (t + d <= expiry n) by (apply Z.div_le_lower_bound; unfold TICK_NS in *; lia). lia.
Qed.

(** What draining slot [s] fires. *)
Definition fire_of (w : TimerWheel) (s : nat) : list (TimerId * TimerNode) :=
  match slot w s with
  | Some n => if cancelled n then [] else [(mkTimerId s (tn_generation n), n)]
  | None => []
  end.

Lemma fire_slots_spec lv ss w fired :
  winv lv w ss ->
  exists w', fire_slots ss w fired = (w', fired ++ flat_map (fire_of w) ss) /\
    winv lv w' [] /\ last_tick w' = last_tick w /\ cursors w' = cursors w /\ buckets w' = buckets w /\
    drain_scratch w' = drain_scratch w /\
    (forall s, slot w' s = if decide (s ∈ ss) then None else slot w s).
Proof.
  revert w fired. induction ss as [|s ss IH]; intros w fired I; cbn [fire_slots flat_map].
  { exists w. rewrite app_nil_r. by split_and!. }
  destruct (w_todo_occ _ _ _ I s ltac:(set_solver)) as (n & Hn & _). rewrite Hn.
  pose proof (slot_lt _ _ _ Hn) as Hlt. pose proof (winv_free_slot _ _ _ _ I) as I1.
  pose proof (w_todo_nodup _ _ _ I) as Hnd. apply NoDup_cons in Hnd as [Hs _].
  set (w1 := field_set _ (field_set _ w)) in *.
  assert (forall s', slot w1 s' = if decide (s = s') then None else slot w s') as Es.
  { intros s'. rewrite <- (slot_set w s None s' Hlt). done. }
  destruct (IH w1 (if negb (cancelled n) then fired ++ [(mkTimerId s (tn_generation n), n)] else fired) I1)
    as (w' & -> & I' & E1 & E2 & E3 & E4 & E5).
  exists w'. split; [|split_and!; try done].
  - f_equal. unfold fire_of at 2. rewrite Hn.
    assert (flat_map (fire_of w1) ss = flat_map (fire_of w) ss) as ->.
    { rewrite !flat_map_concat_map. f_equal. apply map_ext_in. intros a Ha. apply list_elem_of_In in Ha. unfold fire_of.
      rewrite Es, decide_False by (intros ->; done). done. }
    destruct (cancelled n); cbn; [done|]. by rewrite <- app_assoc.
  - intros s'. rewrite E5, Es. destruct (decide (s' ∈ ss)).
    + by rewrite decide_True by set_solver.
    + destruct (decide (s = s')) as [->|]; [by rewrite decide_True by set_solver|].
      by rewrite decide_False by set_solver.
Qed.

Lemma replace_slots_spec lv ss w now :
  winv lv w ss -> (1 <= lv)%nat -> 0 <= now -> now / TICK_NS = last_tick w ->
  let w' := replace_slots ss now w in
  winv lv w' [] /\ last_tick w' = last_tick w /\ cursors w' = cursors w /\
  drain_scratch w' = drain_scratch w /\
  (forall s n, slot w s = Some n -> cancelled n = false -> slot w' s = Some n) /\
  (forall s n, slot w' s = Some n -> slot w s = Some n).
Proof.
  revert w. induction ss as [|s ss IH]; intros w I Hlv Hnow Hsync; cbn [replace_slots]; [done|].
  destruct (w_todo_occ _ _ _ I s ltac:(set_solver)) as (n & Hn & Hu). rewrite Hn.
  pose proof (slot_lt _ _ _ Hn) as Hlt.
  destruct (cancelled n) eqn:Ec.
  - pose proof (winv_free_slot _ _ _ _ I) as I1. set (w1 := field_set _ (field_set _ w)) in *.
    assert (forall s', slot w1 s' = if decide (s = s') then None else slot w s') as Es.
    { intros s'. rewrite <- (slot_set w s None s' Hlt). done. }
    destruct (IH w1 I1 Hlv Hnow Hsync) as (I' & E1 & E2 & E3 & E4 & E5). split_and!; try done.
    + intros s' n' Hs' Hc. apply E4, Hc. rewrite Es. case_decide; [congruence|exact Hs'].
    + intros s' n' Hs'. apply E5 in Hs'. rewrite Es in Hs'. by case_decide.
  - set (w0 := w <| slots ::= <[s := None]> |>).
    destruct (level_and_bucket_offset _) as [L o] eqn:E.
    assert (w0 <| slots ::= <[s := Some n]> |> = w) as Ew.
    { unfold w0. destruct w as [sl ge fr bu cu lt sc]. unfold field_set. cbn in *. f_equal.
      rewrite list_insert_insert_eq. apply list_insert_id. unfold slot in Hn; cbn in Hn.
      destruct (sl !! s); cbn in Hn; congruence. }
    change (cursor w0 L) with (cursor w L). rewrite Ew.
    pose proof (place_entry _ _ _ _ _ _ _ I Hlv Hu Hnow Hsync E) as He.
    pose proof (winv_place _ _ _ _ _ _ _ I Hn He) as I1.
    by destruct (IH _ I1 Hlv Hnow Hsync) as (I' & E1 & E2 & E3 & E4 & E5).
Qed.

(** No cascade is due at a tick that is not a multiple of the level's span. *)
Lemma winv_skip lv w todo :
  winv lv w todo -> 0 < last_tick w -> last_tick w mod span lv <> 0 -> winv LEVELS w todo.
Proof.
  intros [I1 I2 I3 I4 I5 I6 I7 I8 I9 I10 I11 I12 I13] Ht Hm.
  assert (forall L, (L < LEVELS)%nat -> moves LEVELS (last_tick w) L = moves lv (last_tick w) L) as E.
  { intros L HL. unfold moves. rewrite (proj2 (Nat.ltb_lt _ _)) by done.
    destruct (Nat.ltb_spec L lv); [done|]. symmetry. by eapply moves_skip. }
  split; try done.
  - intros L HL. rewrite E by done. by apply I3.
  - intros L b s Hin. destruct (I9 _ _ _ Hin) as (? & n & ? & HL & ? & q & ?).
    split; [done|]. exists n. split; [done|]. split; [done|]. split; [done|]. exists q.
    rewrite E by (unfold LEVELS; lia). done.
Qed.

(** [cascade] restores the invariant of a complete tick and neither drops nor
    invents a live node. *)
Lemma cascade_spec n lv w :
  winv lv w [] -> drain_scratch w = [] -> 0 < last_tick w -> (1 <= lv <= LEVELS)%nat -> (LEVELS <= lv + n)%nat ->
  last_tick w mod span lv = 0 ->
  let w' := cascade n lv w in
  wheel_ok w' /\ last_tick w' = last_tick w /\
  (forall s m, slot w s = Some m -> cancelled m = false -> slot w' s = Some m) /\
  (forall s m, slot w' s = Some m -> slot w s = Some m).
Proof.
  revert lv w. induction n as [|n IH]; intros lv w I Hsc Ht Hlv Hn Hmod; cbn [cascade].
  { assert (lv = LEVELS) as -> by lia. done. }
  destruct (Nat.leb_spec LEVELS lv) as [Hge|Hlt]; [assert (lv = LEVELS) as -> by lia; done|].
  pose proof (w_tick _ _ _ I) as [Ht0 Ht1]. pose proof (w_cur_len _ _ _ I) as Hcl.
  destruct (moves_multiple _ _ Ht Hmod) as [Hmv Hmt].
  set (w1 := field_set _ w).
  assert (cursor w1 lv = ((cursor w lv + 1) mod BUCKETS)%nat) as Ec.
  { unfold w1, cursor at 1; cbn. rewrite list_lookup_insert_eq by (rewrite Hcl; lia). done. }
  rewrite Ec. set (c := ((cursor w lv + 1) mod BUCKETS)%nat) in *.
  change (last_tick w1) with (last_tick w).
  rewrite u64_id by (unfold is_u64, TICK_NS in *; lia).
  set (w2 := swap_scratch lv c w1).
  assert (drain_scratch w2 = bucket w lv c) as Es2 by done. rewrite Es2.
  assert (winv (S lv) w2 (bucket w lv c)) as I2.
  { pose proof (winv_open lv w lv c I) as Io.
    eapply (winv_move lv (S lv) _ w2 lv _ Io); try done.
    - intros L b. unfold bucket. cbn. by rewrite Hsc.
    - intros L _ HL. unfold moves. change (last_tick w2) with (last_tick w). cbn [field_set last_tick].
      destruct (Nat.ltb_spec L (S lv)), (Nat.ltb_spec L lv); try lia; done.
    - unfold moves. change (last_tick w2) with (last_tick w). cbn [field_set last_tick].
      rewrite (proj2 (Nat.ltb_lt _ _)), Nat.ltb_irrefl by lia. done.
    - unfold bucket, cursor. cbn. fold (cursor w lv). fold c. by rewrite lookup_insert_eq. }
  destruct (replace_slots_spec (S lv) _ w2 (last_tick w * TICK_NS) I2) as (I3 & E1 & E2 & E3 & E4 & E5);
    [lia|unfold TICK_NS; lia|unfold TICK_NS; rewrite Z.div_mul; [done|lia]|].
  set (w3 := replace_slots _ _ w2) in *.
  set (w4 := swap_scratch lv c (w3 <| drain_scratch := [] |>)).
  assert (bucket w3 lv c = []) as Eb3.
  { replace c with (cursor w3 lv); [by eapply bucket_cursor_empty|]. unfold cursor. rewrite E2. done. }
  assert (winv (S lv) w4 []) as I4.
  { eapply winv_ext; [..|exact I3]; try done. intros L b. unfold bucket, w4. cbn.
    destruct (decide ((L, b) = (lv, c))) as [[= -> ->]|Hne].
    - rewrite lookup_insert_eq. symmetry. exact Eb3.
    - by rewrite lookup_insert_ne. }
  assert (drain_scratch w4 = []) as Es4 by exact Eb3.
  change (last_tick w2) with (last_tick w) in E1.
  assert (cursor w4 lv = c) as Ec4 by (unfold cursor; cbn; by rewrite E2).
  rewrite Ec4. change (last_tick w4) with (last_tick w3) in *.
  destruct (Nat.eqb_spec c 0) as [Hc0|Hc0].
  - destruct (IH (S lv) w4) as (H1 & H2 & H3 & H4); try done; try lia.
    + change (last_tick w4) with (last_tick w3). lia.
    + change (last_tick w4) with (last_tick w3). rewrite E1, <- Hmt, span_S.
      pose proof (w_cur _ _ _ I4 lv Hlt) as Hcur. rewrite Ec4, Hc0 in Hcur.
      change (last_tick w4) with (last_tick w3) in Hcur. rewrite E1 in Hcur.
      unfold moves in Hcur. rewrite (proj2 (Nat.ltb_lt _ _)) in Hcur by lia.
      change (Z.of_nat 0) with 0 in Hcur. symmetry in Hcur. apply Z.mod_divide in Hcur as [k ->]; [|lia].
      rewrite <- Z.mul_assoc. apply Z.mod_mul. pose proof (span_pos lv). lia.
    + split_and!; try done; [change (last_tick w4) with (last_tick w3) in H2; lia| |].
      * intros s m Hs Hm. apply H3; [by apply E4|done].
      * intros s m Hs. by apply H4, E5 in Hs.
  - split_and!; try done. split; [|done].
    pose proof (w_cur _ _ _ I4 lv Hlt) as Hcur. rewrite Ec4 in Hcur.
    change (last_tick w4) with (last_tick w3) in Hcur. rewrite E1 in Hcur.
    unfold moves in Hcur. rewrite (proj2 (Nat.ltb_lt _ _)) in Hcur by lia.
    eapply winv_skip; [exact I4| |]; change (last_tick w4) with (last_tick w3); rewrite E1; [done|].
    intros Hz. apply Hc0. apply Nat2Z.inj. rewrite Hcur, <- Hmt in *.
    rewrite span_S in Hz. pose proof (span_pos lv).
    rewrite Z.mul_mod_distr_r in Hz by lia. rewrite Hmt. change (Z.of_nat 0) with 0. nia.
Qed.

(** ** One tick and many *)

(** What firing list [f] is to the step from [w] to [w']. *)
Record tick_fires (w w' : TimerWheel) (f : list (TimerId * TimerNode)) : Prop := {
  tf_nodup : NoDup (map (fun p => ti_slot (fst p)) f);
  tf_live : forall id n, (id, n) ∈ f ->
    slot w (ti_slot id) = Some n /\ cancelled n = false /\ ti_generation id = tn_generation n /\
    slot w' (ti_slot id) = None /\ expiry n - 1 <= last_tick w';
  tf_kept : forall s n, slot w s = Some n -> cancelled n = false ->
    slot w' s = Some n \/ (mkTimerId s (tn_generation n), n) ∈ f;
  tf_old : forall s n, slot w' s = Some n -> slot w s = Some n;
}.

Lemma fire_of_elem w ss id n :
  (id, n) ∈ flat_map (fire_of w) ss <->
  ti_slot id ∈ ss /\ slot w (ti_slot id) = Some n /\ cancelled n = false /\ ti_generation id = tn_generation n.
Proof.
  rewrite list_elem_of_In, in_flat_map. split.
  - intros (s & Hs & Hin). apply list_elem_of_In in Hs. unfold fire_of in Hin.
    destruct (slot w s) as [m|] eqn:E; [|done]. destruct (cancelled m) eqn:Ec; [done|].
    destruct Hin as [[= <- <-]|[]]. done.
  - intros (Hs & Hn & Hc & Hg). exists (ti_slot id). split; [by apply list_elem_of_In|].
    unfold fire_of. rewrite Hn, Hc. left. destruct id; cbn in *. by subst.
Qed.

Lemma fire_of_nodup w ss : NoDup ss -> NoDup (map (fun p => ti_slot (fst p)) (flat_map (fire_of w) ss)).
Proof.
  induction 1 as [|s ss Hs Hnd IH]; cbn; [constructor|]. rewrite map_app. apply NoDup_app. split_and!; [| |done].
  - unfold fire_of. destruct (slot w s) as [m|]; [destruct (cancelled m)|]; repeat constructor; set_solver.
  - intros x Hx Hx2. unfold fire_of in Hx. destruct (slot w s) as [m|]; [destruct (cancelled m)|]; cbn in Hx;
      try (by apply not_elem_of_nil in Hx). apply list_elem_of_singleton in Hx as ->.
    apply list_elem_of_In, in_map_iff in Hx2 as ([id n] & <- & Hin). apply list_elem_of_In, fire_of_elem in Hin.
    by destruct Hin.
Qed.

Lemma fire_slots_buckets ss w fired m :
  fire_slots ss (w <| buckets := m |>) fired =
    ((fst (fire_slots ss w fired)) <| buckets := m |>, snd (fire_slots ss w fired)) /\
  buckets (fst (fire_slots ss w fired)) = buckets w.
Proof.
  revert w fired. induction ss as [|s ss IH]; intros w fired; cbn [fire_slots]; [done|].
  change (slot (w <| buckets := m |>) s) with (slot w s). destruct (slot w s) as [n|]; [|apply IH].
  exact (IH (w <| slots ::= <[s := None]> |> <| free_list ::= fun f => s :: f |>)
    (if negb (cancelled n) then fired ++ [(mkTimerId s (tn_generation n), n)] else fired)).
Qed.

Lemma advance_tick_spec w fired :
  wheel_ok w -> (last_tick w + 1) * TICK_NS < two64 ->
  exists w' f, advance_tick w fired = (w', fired ++ f) /\ wheel_ok w' /\ last_tick w' = last_tick w + 1 /\
    tick_fires w w' f /\
    (forall s n, slot w s = Some n -> cancelled n = false -> expiry n <= last_tick w ->
       (mkTimerId s (tn_generation n), n) ∈ f).
Proof.
  intros [I Hsc] Ht1. pose proof (w_tick _ _ _ I) as [Ht0 _]. pose proof (w_cur_len _ _ _ I) as Hcl.
  unfold advance_tick. set (w1 := field_set _ (field_set _ w)).
  assert (cursor w1 0 = ((cursor w 0 + 1) mod BUCKETS)%nat) as Ec.
  { unfold w1, cursor at 1; cbn. rewrite list_lookup_insert_eq by (rewrite Hcl; unfold LEVELS; lia). done. }
  rewrite Ec. set (c := ((cursor w 0 + 1) mod BUCKETS)%nat) in *.
  change (bucket w1 0 c) with (bucket w 0 c).
  assert (last_tick w1 = last_tick w + 1) as Et1 by (unfold w1; cbn; lia).
  (* the drained bucket taken out first *)
  set (w1' := w1 <| buckets ::= <[(0%nat, c) := []]> |>).
  assert (winv 1 w1' (bucket w 0 c)) as I1.
  { pose proof (winv_open LEVELS w 0 c I) as Io.
    eapply (winv_move LEVELS 1 _ w1' 0 _ Io); try done.
    - unfold LEVELS. lia.
    - cbn [field_set last_tick w1' w1]. lia.
    - intros L HL HL0. unfold moves. cbn [field_set last_tick w1' w1].
      destruct (Nat.ltb_spec L 1); [lia|]. replace (Z.succ (last_tick w) - 1) with (last_tick w) by lia.
      by rewrite (proj2 (Nat.ltb_lt _ _)).
    - unfold moves. cbn. rewrite !span_0, !Z.div_1_r. lia.
    - unfold bucket, cursor. cbn. fold (cursor w 0). fold c. by rewrite lookup_insert_eq. }
  destruct (fire_slots_spec 1 _ w1' fired I1) as (w2' & Ef & I2 & Et2 & Ecu2 & Ebu2 & Esc2 & Esl2).
  destruct (fire_slots_buckets (bucket w 0 c) w1 fired (<[(0%nat, c) := []]> (buckets w1))) as [Efb Ebu].
  change (w1 <| buckets := <[(0%nat, c) := []]> (buckets w1) |>) with w1' in Efb. rewrite Ef in Efb.
  destruct (fire_slots (bucket w 0 c) w1 fired) as [w2 fd] eqn:E2. cbn [fst snd] in Efb, Ebu.
  injection Efb as Ew2 Efd. subst fd.
  assert (w2 <| buckets ::= <[(0%nat, c) := []]> |> = w2') as ->.
  { rewrite Ew2. unfold field_set. cbn. by rewrite Ebu. }
  change (last_tick w1') with (last_tick w1) in Et2.
  assert (forall s, slot w1' s = slot w s) as Esl by done.
  set (f := flat_map (fire_of w1') (bucket w 0 c)) in *.
  assert (tick_fires w w2' f) as HF.
  { split.
    - apply fire_of_nodup, I.
    - intros id n Hin. apply fire_of_elem in Hin as (Hs & Hn & Hc & Hg). rewrite Esl in Hn.
      split_and!; try done; [by rewrite Esl2, decide_True|].
      destruct (w_bk_occ _ _ _ I 0 c _ Hs) as (_ & n' & Hn' & _ & _ & q & Hq & Hm & Hb).
      assert (n' = n) as -> by congruence. cbn in Hb. rewrite Et2, Et1.
      unfold moves in Hm. cbn in Hm. rewrite span_0, Z.div_1_r in Hm.
      assert (q = last_tick w + 1); [|lia].
      assert (q mod 256 = (last_tick w + 1) mod 256) as Hmod.
      { rewrite <- Hq. unfold c. rewrite Nat2Z.inj_mod, Nat2Z.inj_add.
        rewrite (w_cur _ _ _ I 0) by (unfold LEVELS; lia). unfold moves. cbn -[Z.modulo Z.of_nat].
        rewrite span_0, Z.div_1_r. apply Zplus_mod_idemp_l. }
      revert Hmod Hm. clear. intros. Z.to_euclidean_division_equations. lia.
    - intros s n Hn Hc. destruct (decide (s ∈ bucket w 0 c)) as [Hin|Hnin].
      + right. apply fire_of_elem. done.
      + left. by rewrite Esl2, decide_False.
    - intros s n. rewrite Esl2. case_decide; [done|by rewrite Esl]. }
  assert (forall s n, slot w s = Some n -> cancelled n = false -> expiry n <= last_tick w ->
    (mkTimerId s (tn_generation n), n) ∈ f) as HC.
  { intros s n Hn Hc He. apply fire_of_elem. cbn [ti_slot ti_generation]. split_and!; try done.
    apply (w_occ _ _ _ I) in Hn as Hb. destruct Hb as [Hb|(L & b & Hb)]; [by apply not_elem_of_nil in Hb|].
    destruct (w_bk_occ _ _ _ I _ _ _ Hb) as (_ & n' & Hn' & HL & _ & q & Hq & Hm & Hbd).
    assert (n' = n) as -> by congruence. unfold moves in Hm.
    rewrite (proj2 (Nat.ltb_lt _ _)) in Hm by (unfold LEVELS; lia).
    destruct (Nat.eqb_spec L 0) as [->|Hne].
    - rewrite span_0, Z.div_1_r in Hm. assert (q = last_tick w + 1) as -> by lia.
      replace c with b; [done|]. apply Nat2Z.inj. rewrite Hq. unfold c.
      rewrite Nat2Z.inj_mod, Nat2Z.inj_add, (w_cur _ _ _ I 0) by (unfold LEVELS; lia).
      unfold moves. cbn -[Z.modulo Z.of_nat]. rewrite span_0, Z.div_1_r. symmetry. apply Zplus_mod_idemp_l.
    - pose proof (span_pos L). pose proof (Z.mul_succ_div_gt (last_tick w) (span L)). nia. }
  assert (drain_scratch w2' = []) as Hsc2 by (rewrite Esc2; exact Hsc).
  assert (cursor w2' 0 = c) as Ec2 by (unfold cursor; rewrite Ecu2; exact Ec).
  rewrite Ec2. destruct (Nat.eqb_spec c 0) as [Hc0|Hc0].
  - destruct (cascade_spec LEVELS 1 w2' I2 Hsc2) as (Hok & Elt & Hk & Ho); try (unfold LEVELS; lia).
    { pose proof (w_cur _ _ _ I2 0 ltac:(unfold LEVELS; lia)) as Hcur. rewrite Ec2, Hc0 in Hcur.
      unfold moves in Hcur. cbn -[Z.modulo Z.of_nat] in Hcur. rewrite span_0, Z.div_1_r in Hcur.
      change (span 1) with 256. by rewrite <- Hcur. }
    eexists _, f. split; [reflexivity|]. split; [done|]. split; [lia|]. split; [|done].
    destruct HF as [F1 F2 F3 F4]. split; try done.
    + intros id n Hin. destruct (F2 id n Hin) as (? & ? & ? & Hnone & ?). split_and!; try done; [|lia].
      destruct (slot (cascade _ _ _) _) eqn:E; [|done]. apply Ho in E. congruence.
    + intros s n Hn Hc. destruct (F3 s n Hn Hc); [left; by apply Hk|by right].
    + intros s n Hn. by apply F4, Ho.
  - exists w2', f. split; [done|]. split; [|split; [lia|done]]. split; [|done].
    eapply winv_skip; [exact I2|lia|].
    pose proof (w_cur _ _ _ I2 0 ltac:(unfold LEVELS; lia)) as Hcur. rewrite Ec2 in Hcur.
    unfold moves in Hcur. rewrite (proj2 (Nat.ltb_lt 0 1)), span_0, Z.div_1_r in Hcur by lia.
    change (span 1) with 256. lia.
Qed.

Lemma advance_loop_spec k w fired :
  wheel_ok w -> (last_tick w + Z.of_nat k) * TICK_NS < two64 ->
  exists w' f, advance_loop k w fired = (w', fired ++ f) /\ wheel_ok w' /\
    last_tick w' = last_tick w + Z.of_nat k /\ (k = 0%nat -> f = []) /\ tick_fires w w' f /\
    (forall s n, slot w s = Some n -> cancelled n = false -> Z.max (expiry n) (last_tick w) + 1 <= last_tick w' ->
       (mkTimerId s (tn_generation n), n) ∈ f).
Proof.
  revert w fired. induction k as [|k IH]; intros w fired Hok Hb; cbn [advance_loop].
  { exists w, []. rewrite app_nil_r. split_and!; try done; try lia.
    split; [constructor|by intros id n ?%not_elem_of_nil|by left|done]. }
  destruct (advance_tick_spec w fired Hok ltac:(unfold TICK_NS in *; lia))
    as (w1 & f1 & -> & Hok1 & Et1 & F1 & C1).
  destruct (IH w1 (fired ++ f1) Hok1 ltac:(rewrite Et1; unfold TICK_NS in *; lia))
    as (w2 & f2 & -> & Hok2 & Et2 & _ & F2 & C2).
  exists w2, (f1 ++ f2). rewrite app_assoc. split; [done|]. split; [done|]. split; [lia|]. split; [done|].
  destruct F1 as [A1 A2 A3 A4], F2 as [B1 B2 B3 B4]. split.
  - split.
    + rewrite map_app. apply NoDup_app. split_and!; try done.
      intros s Hs1 Hs2. apply list_elem_of_In, in_map_iff in Hs1 as ([id1 n1] & E1 & Hin1).
      apply list_elem_of_In, in_map_iff in Hs2 as ([id2 n2] & E2 & Hin2). cbn in E1, E2.
      apply list_elem_of_In, A2 in Hin1 as (_ & _ & _ & Hnone & _).
      apply list_elem_of_In, B2 in Hin2 as (Hsome & _). congruence.
    + intros id n [Hin|Hin]%elem_of_app.
      * destruct (A2 _ _ Hin) as (? & ? & ? & Hnone & ?). split_and!; try done; [|lia].
        destruct (slot w2 (ti_slot id)) eqn:E; [|done]. apply B4 in E. congruence.
      * destruct (B2 _ _ Hin) as (Hs & ? & ? & ? & ?). split_and!; try done. by apply A4.
    + intros s n Hs Hc. destruct (A3 _ _ Hs Hc) as [Hs1|?]; [|right; set_solver].
      destruct (B3 _ _ Hs1 Hc); [by left|right; set_solver].
    + intros s n Hs. by apply A4, B4.
  - intros s n Hs Hc He. destruct (Z_le_gt_dec (expiry n) (last_tick w)) as [Hle|Hgt].
    + apply elem_of_app. left. by apply C1.
    + destruct (A3 _ _ Hs Hc) as [Hs1|?]; [|set_solver]. apply elem_of_app. right. apply C2; [done|done|lia].
Qed.

Lemma advance_spec now w :
  wheel_ok w -> is_u64 now ->
  exists w' f, advance now w = (w', f) /\ wheel_ok w' /\ tick_fires w w' f /\
    last_tick w <= last_tick w' <= Z.max (last_tick w) (now / TICK_NS) /\
    (now / TICK_NS - last_tick w <= 2048 -> last_tick w' = Z.max (last_tick w) (now / TICK_NS)) /\
    (forall s n, slot w s = Some n -> cancelled n = false -> Z.max (expiry n) (last_tick w) + 1 <= last_tick w' ->
       (mkTimerId s (tn_generation n), n) ∈ f).
Proof.
  intros Hok Hn. unfold advance. destruct (Z.leb_spec (now / TICK_NS) (last_tick w)) as [Hle|Hgt].
  { destruct (advance_loop_spec 0 w [] Hok) as (w' & f & E & Hok' & Et & _ & F & C).
    { rewrite Z.add_0_r. apply Hok. }
    cbn in E. injection E as <- <-. exists w, []. split_and!; try done; lia. }
  set (k := Z.to_nat _). assert (Z.of_nat k = Z.min (now / TICK_NS - last_tick w) 2048) as Ek by (unfold k, BUCKETS, LEVELS; lia).
  destruct (advance_loop_spec k w [] Hok) as (w' & f & E & Hok' & Et & _ & F & C).
  { pose proof (Z.mul_div_le now TICK_NS ltac:(unfold TICK_NS; lia)). unfold is_u64, TICK_NS in *. lia. }
  exists w', f. rewrite E. split_and!; try done; lia.
Qed.

(** ** [add] and [cancel] *)

(** A fresh occupant of slot [s], not yet in a bucket. *)
Lemma winv_alloc w w1 s n :
  winv LEVELS w [] -> slot w s = None -> is_u64 (fire_at_ns n) ->
  length (generations w1) = length (slots w1) -> cursors w1 = cursors w -> last_tick w1 = last_tick w ->
  buckets w1 = buckets w -> NoDup (free_list w1) ->
  (forall s', s' ∈ free_list w1 <-> s' ∈ free_list w /\ s' <> s) ->
  (forall s', (s' < length (slots w1))%nat <-> (s' < length (slots w))%nat \/ s' = s) ->
  (forall s', slot w1 s' = if decide (s = s') then Some n else slot w s') ->
  generations w1 !! s = Some (tn_generation n) ->
  (forall s' m, s' <> s -> slot w s' = Some m -> generations w1 !! s' = generations w !! s') ->
  winv LEVELS w1 [s].
Proof.
  intros [I1 I2 I3 I4 I5 I6 I7 I8 I9 I10 I11 I12 I13] Hs Hu El Ec Et Eb Hnd Hfr Hlen Hsl Hg Hg'.
  assert (forall L b, bucket w1 L b = bucket w L b) as Ebk by (intros; unfold bucket; by rewrite Eb).
  split; rewrite ?Ec, ?Et; try done; intros *; rewrite ?Ebk; try done.
  - intros HL. unfold cursor. rewrite Ec. by apply I3.
  - by apply I6.
  - apply NoDup_singleton.
  - intros Hin. destruct (I9 _ _ _ Hin) as (_ & m & Hm & He).
    assert (s <> s0) by (intros ->; congruence). split; [set_solver|].
    exists m. by rewrite Hsl, decide_False.
  - intros ->%list_elem_of_singleton. exists n. by rewrite Hsl, decide_True.
  - rewrite Hfr, Hlen, I11, Hsl. case_decide; subst; intuition congruence.
  - rewrite Hsl. case_decide; [intros _; left; set_solver|]. intros Hm.
    apply I12 in Hm as [?%not_elem_of_nil|(L & b & Hb)]; [done|]. right. exists L, b. by rewrite Ebk.
  - rewrite Hsl. case_decide as E; [intros [= <-]; by subst|]. intros Hm. rewrite (Hg' _ _ ltac:(done) Hm). by apply I13.
Qed.

(** [add] fills a slot that was empty, under a generation of its own. *)
Lemma add_spec now n w w' id :
  wheel_ok w -> is_u64 (fire_at_ns n) -> 0 <= now -> now / TICK_NS = last_tick w ->
  add now n w = (w', id) ->
  wheel_ok w' /\ last_tick w' = last_tick w /\
  slot w (ti_slot id) = None /\
  slot w' (ti_slot id) = Some (n <| tn_generation := ti_generation id |> <| cancelled := false |>) /\
  (forall s, s <> ti_slot id -> slot w' s = slot w s) /\
  ti_generation id = match generations w !! ti_slot id with Some g => wadd32 g 1 | None => 0 end.
Proof.
  intros [I Hsc] Hu Hnow Hsync. unfold add. destruct (level_and_bucket_offset _) as [L o] eqn:E.
  set (b := ((cursor w L + o) mod BUCKETS)%nat).
  set (alloc := match free_list w with [] => _ | _ => _ end).
  destruct alloc as [s w0] eqn:Ea. intros [= <- <-]. cbn [ti_slot ti_generation].
  set (gen := default 0 (generations w0 !! s)).
  set (n' := n <| tn_generation := gen |> <| cancelled := false |>).
  set (w1 := w0 <| slots ::= <[s := Some n']> |>).
  assert (winv LEVELS w1 [s] /\ slot w s = None /\
          (forall s', slot w1 s' = if decide (s = s') then Some n' else slot w s') /\
          cursors w1 = cursors w /\ last_tick w1 = last_tick w /\ drain_scratch w1 = drain_scratch w /\
          gen = match generations w !! s with Some g => wadd32 g 1 | None => 0 end)
    as (I1 & Hnone & Hsl & Ecu & Et & Es & Hg).
  { unfold alloc in Ea. destruct (free_list w) as [|s0 free] eqn:Efr; injection Ea as <- <-.
    - assert (slot w (length (slots w)) = None) as Hnone by (unfold slot; rewrite lookup_ge_None_2 by lia; done).
      assert (slots w1 = slots w ++ [Some n']) as Esl.
      { unfold w1; cbn. rewrite insert_app_r_alt, Nat.sub_diag by lia. done. }
      assert (forall s', slot w1 s' = if decide (length (slots w) = s') then Some n' else slot w s') as Hsl.
      { intros s'. unfold slot. rewrite Esl. case_decide as Ed.
        - subst. by rewrite list_lookup_middle.
        - destruct (decide (s' < length (slots w))%nat); [by rewrite lookup_app_l|].
          rewrite !lookup_ge_None_2; rewrite ?length_app; cbn; (done || lia). }
      assert (generations w1 = generations w ++ [0]) as Egn by done.
      assert (length (generations w) = length (slots w)) as Egl by apply I.
      assert (generations w1 !! length (slots w) = Some 0) as Hgs by (rewrite Egn, <- Egl; by rewrite list_lookup_middle).
      assert (gen = 0) as Eg by (unfold gen; change (generations w1) with (generations w ++ [0]) in Hgs; cbn; by rewrite Hgs).
      split_and!; try done.
      + eapply (winv_alloc w w1 _ n' I Hnone Hu); try done.
        * rewrite Egn, Esl, !length_app. cbn. lia.
        * cbn. rewrite Efr. constructor.
        * intros s'. cbn. rewrite Efr. set_solver.
        * intros s'. rewrite Esl, length_app. cbn. lia.
        * rewrite Hgs. cbn. by rewrite Eg.
        * intros s' m Hne Hm. rewrite Egn, lookup_app_l; [done|]. rewrite Egl. by eapply slot_lt.
      + rewrite Eg. rewrite lookup_ge_None_2 by lia. done.
    - assert (s0 ∈ free_list w) as Hin by (rewrite Efr; set_solver).
      apply (w_free _ _ _ I) in Hin as [Hlt Hnone].
      pose proof (w_free_nodup _ _ _ I) as Hnd. rewrite Efr in Hnd. apply NoDup_cons in Hnd as [Hs0 Hnd].
      assert (length (generations w) = length (slots w)) as Egl by apply I.
      destruct (lookup_lt_is_Some_2 (generations w) s0 ltac:(lia)) as [g Hgs].
      assert (gen = wadd32 g 1) as Eg.
      { unfold gen; cbn. rewrite Hgs. cbn. rewrite list_lookup_insert_eq by lia. done. }
      assert (forall s', slot w1 s' = if decide (s0 = s') then Some n' else slot w s') as Hsl.
      { intros s'. exact (slot_set w s0 (Some n') s' Hlt). }
      split_and!; try done; [|by rewrite Hgs].
      eapply (winv_alloc w w1 _ n' I Hnone Hu); try done.
      + cbn. rewrite !length_insert. done.
      + intros s'. cbn. rewrite Efr. set_solver.
      + intros s'. cbn. rewrite length_insert. split; [by left|by intros [?| ->]].
      + cbn. rewrite Hgs. cbn. rewrite list_lookup_insert_eq by lia. by rewrite Eg.
      + intros s' m Hne Hm. cbn. by rewrite list_lookup_insert_ne. }
  assert (slot w1 s = Some n') as Hs by (by rewrite Hsl, decide_True).
  assert (winv LEVELS (push_bucket L b s w1) []) as I2.
  { eapply winv_place; [exact I1|exact Hs|]. unfold b. replace (cursor w L) with (cursor w1 L) by (unfold cursor; by rewrite Ecu).
    eapply place_entry; [exact I1|unfold LEVELS; lia|exact Hu|exact Hnow|by rewrite Et|exact E]. }
  split; [split; [exact I2|change (drain_scratch w1 = []); by rewrite Es]|]. split; [done|]. split; [done|]. split; [done|]. split; [|done].
  intros s' Hne. etransitivity; [exact (Hsl s')|]. by rewrite decide_False.
Qed.

Lemma cancel_spec id w :
  wheel_ok w ->
  let '(r, w') := cancel id w in
  wheel_ok w' /\ last_tick w' = last_tick w /\
  (r = true <-> exists n, slot w (ti_slot id) = Some n /\ tn_generation n = ti_generation id /\ cancelled n = false) /\
  (r = false -> w' = w) /\
  (r = true -> forall s, slot w' s =
     if decide (ti_slot id = s) then (fun n => n <| cancelled := true |>) <$> slot w s else slot w s).
Proof.
  intros [I Hsc]. unfold cancel. destruct (slot w (ti_slot id)) as [n|] eqn:Hn.
  2:{ split_and!; try done. split; [done|]. by intros (n & ? & _). }
  pose proof (slot_lt _ _ _ Hn) as Hlt.
  destruct ((tn_generation n =? ti_generation id) && negb (cancelled n)) eqn:Hc.
  2:{ split_and!; try done. split; [done|]. intros (m & [= <-] & Hg & Hcc).
      rewrite Hg, Z.eqb_refl, Hcc in Hc. done. }
  apply andb_true_iff in Hc as [Hg%Z.eqb_eq Hcc%negb_true_iff].
  set (n1 := field_set _ n). set (w' := field_set _ w).
  assert (forall s, slot w' s = if decide (ti_slot id = s) then Some n1 else slot w s) as Es.
  { intros s. by apply slot_set. }
  split_and!; try done.
  - split; [|done]. destruct I as [I1 I2 I3 I4 I5 I6 I7 I8 I9 I10 I11 I12 I13].
    assert (length (slots w') = length (slots w)) as El by apply length_insert.
    split; rewrite ?El; try done.
    + intros L b s Hin. destruct (I9 _ _ _ Hin) as (Hnt & m & Hm & He). split; [done|].
      rewrite Es. case_decide as Ed; [|by exists m]. subst. exists n1. split; [done|].
      assert (m = n) as -> by congruence. exact He.
    + by intros s ?%not_elem_of_nil.
    + intros s. rewrite Es. change (free_list w') with (free_list w). rewrite I11.
      case_decide; subst; [|done]. intuition congruence.
    + intros s m. rewrite Es. case_decide as Ed; [|by apply I12]. intros _. subst. by eapply I12.
    + intros s m. rewrite Es. change (generations w') with (generations w).
      case_decide as Ed; [|by apply I13]. intros [= <-]. subst. by apply I13 in Hn.
  - split; [|done]. by exists n.
  - intros _ s. rewrite Es. case_decide as Ed; [|done]. subst. by rewrite Hn.
Qed.

(** ** Properties *)

(** C32. [advance] fires exactly the timers that are due: it keeps the wheel's
    invariant, fires only live uncancelled timers, each under its own id and
    at most once, none more than one tick before its expiry tick; and, when the
    wheel lags the clock by at most 2048 ticks, every uncancelled timer whose
    expiry tick is before the clock's tick. *)
Theorem advance_fires_due (now : Z) (w : TimerWheel) (Hw : wheel_ok w) (Hn : is_u64 now) :
  let '(w', fired) := advance now w in
  wheel_ok w' /\
  NoDup (map (fun p => ti_slot (fst p)) fired) /\
  (forall id n, (id, n) ∈ fired ->
     slot w (ti_slot id) = Some n /\ cancelled n = false /\ ti_generation id = tn_generation n /\
     expiry n - 1 <= Z.max (last_tick w) (now / TICK_NS)) /\
  (now / TICK_NS - last_tick w <= 2048 -> last_tick w < now / TICK_NS ->
   forall s n, slot w s = Some n -> cancelled n = false -> expiry n < now / TICK_NS ->
     (mkTimerId s (tn_generation n), n) ∈ fired).
Proof.
  destruct (advance_spec now w Hw Hn) as (w' & f & -> & Hok & [F1 F2 F3 F4] & Ht & Hex & C).
  split_and!; try done.
  - intros id n Hin. destruct (F2 id n Hin) as (? & ? & ? & _ & ?). split_and!; try done. lia.
  - intros Hlag Hadv s n Hs Hc He. apply C; try done. specialize (Hex Hlag). lia.
Qed.

Definition sample_timer (fire_at : Z) : TimerNode := mkTimerNode fire_at 1 Rto 0 0 false.

Lemma advance_fires_due_witness :
  let '(w, id) := add 0 (sample_timer 3000000) wheel_new in
  wheel_ok w /\ (forall p, p ∈ snd (advance 3010000 w) -> slot w (ti_slot (fst p)) = Some (snd p)).
Proof.
  destruct (add 0 (sample_timer 3000000) wheel_new) as [w id] eqn:E.
  assert (wheel_ok w) as Hw.
  { destruct (add_spec 0 (sample_timer 3000000) wheel_new w id wheel_new_ok ltac:(by vm_compute)
      ltac:(lia) eq_refl E) as [H _]. exact H. }
  split; [exact Hw|]. pose proof (advance_fires_due 3010000 w Hw ltac:(by vm_compute)) as H.
  destruct (advance 3010000 w) as [w' f]. destruct H as (_ & _ & H & _).
  intros [i n] Hin. by destruct (H i n Hin).
Defined.



(** Cancelling is safe: it succeeds exactly on a live, uncancelled timer
    of the same generation; a cancelled timer does not fire; and an id kept from
    an earlier occupant of a slot cannot cancel the timer a later [add] puts
    there. *)
Theorem cancel_safe (id : TimerId) (w : TimerWheel) (Hw : wheel_ok w) :
  let '(r, w1) := cancel id w in
  wheel_ok w1 /\
  (r = true <-> exists n, slot w (ti_slot id) = Some n /\ tn_generation n = ti_generation id /\ cancelled n = false) /\
  (r = true -> forall now', is_u64 now' -> forall n, (id, n) ∉ snd (advance now' w1)) /\
  (forall now n w' id', is_u64 (fire_at_ns n) -> 0 <= now -> now / TICK_NS = last_tick w ->
     add now n w = (w', id') -> ti_slot id = ti_slot id' ->
     generations w !! ti_slot id = Some (ti_generation id) -> is_u32 (ti_generation id) ->
     fst (cancel id w') = false).
Proof.
  pose proof (cancel_spec id w Hw) as H. destruct (cancel id w) as [r w1].
  destruct H as (Hok & _ & Hiff & _ & Hset). split_and!; try done.
  - intros Hr now' Hn' n Hin. specialize (Hset Hr).
    destruct (advance_spec now' w1 Hok Hn') as (w' & f & E & _ & F & _). rewrite E in Hin. cbn [snd] in Hin.
    destruct (tf_live _ _ _ F _ _ Hin) as (Hs & Hc & _). rewrite Hset, decide_True in Hs by done.
    destruct (slot w (ti_slot id)) as [m|]; cbn in Hs; [|done]. injection Hs as <-. done.
  - intros now n w' id' Hu Hnow Hsync E Es Hg Hgr.
    destruct (add_spec _ _ _ _ _ Hw Hu Hnow Hsync E) as (_ & _ & _ & Hsl & _ & Hge).
    unfold cancel. rewrite Es, Hsl. cbn [tn_generation field_set cancelled negb].
    rewrite Es in Hg. rewrite Hg in Hge. rewrite Hge.
    rewrite (proj2 (Z.eqb_neq _ _)); [done|]. unfold wadd32, u32, is_u32, two32 in *.
    Z.to_euclidean_division_equations. lia.
Qed.

Lemma cancel_safe_witness :
  let '(w, id) := add 0 (sample_timer 50000) wheel_new in
  fst (cancel id w) = true /\ forall n, (id, n) ∉ snd (advance 1000000 (snd (cancel id w))).
Proof.
  destruct (add 0 (sample_timer 50000) wheel_new) as [w id] eqn:E.
  destruct (add_spec 0 (sample_timer 50000) wheel_new w id wheel_new_ok ltac:(by vm_compute)
    ltac:(lia) eq_refl E) as (Hw & _ & _ & Hs & _).
  pose proof (cancel_safe id w Hw) as H. destruct (cancel id w) as [r w1].
  destruct H as (_ & Hr & Hc & _).
  assert (r = true) as Hrt by (apply Hr; eexists; split; [exact Hs|done]).
  split; [exact Hrt|]. intros n. by apply Hc.
Defined.

(** [advance] moves the wheel by at most 2048 ticks per call, so a wheel
    that was not polled for more than 20.48 ms stays behind the clock, and a
    timer armed meanwhile is placed relative to the stale position: a timer due
    in 1 ms fires 10 us later. *)
Theorem lagging_wheel_fires_early :
  let '(w, _) := advance 1000000000 wheel_new in
  let '(w', id) := add 1000000000 (sample_timer 1001000000) w in
  last_tick w = 2048 /\ map fst (snd (advance 1000010000 w')) = [id].
Proof. by vm_compute. Qed.
