(* ===== verification/Ip.v ===== *)
(** * Ethernet and IPv4 receive: l2.rs, l3_ip.rs

    [l2_decode], [internet_checksum], [ip_decode] and the offload-aware entry
    point.  A decoder returns [None] where the source would panic on an index;
    the totality theorems say it never does. *)

From S2P Require Import Prelude.
From S2P Require Import Bytes.

(** ** Ethernet *)

Definition ETHERTYPE_IPV4 : Z := 0x0800.
Definition ETHERTYPE_ARP : Z := 0x0806.
Definition ETH_HDR_LEN : nat := 14.
Definition BROADCAST_MAC : list Z := replicate 6 0xff.
Definition zero_mac : list Z := replicate 6 0.

Record L2Decoded := mkL2Decoded {
  l2_ethertype : Z;
  l2_src_mac : list Z;
  l2_dst_mac : list Z;
  l2_payload_offset : nat
}.

Inductive L2Drop := L2Short | MissMac | UnknownEthertype.

Definition l2_decode (frame our_mac : list Z) : option (result L2Decoded L2Drop) :=
  if (length frame <? ETH_HDR_LEN)%nat then Some (Err L2Short) else
  dst ← get_slice 0 6 frame;
  src ← get_slice 6 12 frame;
  ethertype ← read_be16 frame 12;
  let is_broadcast := bool_decide (dst = BROADCAST_MAC) in
  let is_us := negb (bool_decide (our_mac = zero_mac)) && bool_decide (dst = our_mac) in
  let is_any := bool_decide (our_mac = zero_mac) in
  if negb (is_broadcast || is_us || is_any) then Some (Err MissMac) else
  if negb (ethertype =? ETHERTYPE_IPV4) && negb (ethertype =? ETHERTYPE_ARP)
  then Some (Err UnknownEthertype) else
  Some (Ok (mkL2Decoded ethertype src dst ETH_HDR_LEN)).

(** ** The Internet checksum *)

(** The pairing loop over one chunk, from a position where no byte is carried;
    the second component is the odd byte carried to the next chunk. *)
Fixpoint csum_pairs (sum : Z) (chunk : list Z) : Z * option Z :=
  match chunk with
  | hi :: lo :: rest => csum_pairs (wadd32 sum (from_be16 hi lo)) rest
  | [tail] => (sum, Some tail)
  | [] => (sum, None)
  end.

Definition csum_chunk (st : Z * option Z) (chunk : list Z) : Z * option Z :=
  match st.2 with
  | Some high =>
      match chunk with
      | low :: rest => csum_pairs (wadd32 st.1 (from_be16 high low)) rest
      | [] => (st.1, Some high)
      end
  | None => csum_pairs st.1 chunk
  end.

Definition csum_tail (st : Z * option Z) : Z :=
  match st.2 with Some tail => wadd32 st.1 (u32 (Z.shiftl tail 8)) | None => st.1 end.

(** [while sum >> 16 != 0 { sum = (sum & 0xffff) + (sum >> 16) }]. *)
Fixpoint fold_carries (fuel : nat) (sum : Z) : Z :=
  match fuel with
  | O => sum
  | S n =>
      if negb (Z.shiftr sum 16 =? 0)
      then fold_carries n (wadd32 (Z.land sum 0xffff) (Z.shiftr sum 16)) else sum
  end.

Definition FOLD_FUEL : nat := 2.

(** [!(x as u16)]. *)
Definition not16 (x : Z) : Z := Z.lxor (u16 x) 0xffff.

Definition internet_checksum (chunks : list (list Z)) : Z :=
  not16 (fold_carries FOLD_FUEL (csum_tail (foldl csum_chunk (0, None) chunks))).

(** ** IPv4 *)

Definition IPPROTO_ICMP : Z := 1.
Definition IPPROTO_TCP : Z := 6.

Record L3Decoded := mkL3Decoded {
  l3_protocol : Z;
  l3_src_ip : Z;
  l3_dst_ip : Z;
  l3_header_len : nat;
  l3_total_len : nat;
  l3_ttl : Z
}.

Inductive L3Drop :=
  | L3Short | BadVersion | BadHeaderLen | BadTotalLen | CsumBad | TtlZero | Fragment
  | NotOurs | UnsupportedProto.

(** The software verification: the header is copied to a 60-byte scratch array
    and its checksum bytes are zeroed before folding. *)
Definition ip_csum_matches (pkt : list Z) (header_len : nat) : option bool :=
  hdr ← get_slice 0 header_len pkt;
  let scratch := set_byte 11 0 (set_byte 10 0 (copy_at 0 hdr (replicate 60 0))) in
  h ← get_slice 0 header_len scratch;
  stored ← read_be16 pkt 10;
  Some (internet_checksum [h] =? stored).

Definition ip_decode (pkt : list Z) (our_ip : Z) (nic_csum_ok : bool)
  : option (result L3Decoded L3Drop) :=
  if (length pkt <? 20)%nat then Some (Err L3Short) else
  b0 ← pkt !! 0%nat;
  if negb (Z.shiftr b0 4 =? 4) then Some (Err BadVersion) else
  let ihl := Z.to_nat (Z.land b0 0x0f) in
  let header_len := (ihl * 4)%nat in
  if ((ihl <? 5) || (length pkt <? header_len))%nat then Some (Err BadHeaderLen) else
  tl ← read_be16 pkt 2;
  let total_len := Z.to_nat tl in
  if ((total_len <? header_len) || (length pkt <? total_len))%nat then Some (Err BadTotalLen) else
  flags_frag ← read_be16 pkt 6;
  let mf := negb (Z.land flags_frag 0x2000 =? 0) in
  let frag_off := Z.land flags_frag 0x1fff in
  if mf || negb (frag_off =? 0) then Some (Err Fragment) else
  ttl ← pkt !! 8%nat;
  if ttl =? 0 then Some (Err TtlZero) else
  csum_ok ← (if nic_csum_ok then Some true else ip_csum_matches pkt header_len);
  if negb csum_ok then Some (Err CsumBad) else
  protocol ← pkt !! 9%nat;
  src_ip ← read_be32 pkt 12;
  dst_ip ← read_be32 pkt 16;
  if negb (our_ip =? 0) && negb (dst_ip =? our_ip) then Some (Err NotOurs) else
  if negb (protocol =? IPPROTO_TCP) && negb (protocol =? IPPROTO_ICMP)
  then Some (Err UnsupportedProto) else
  Some (Ok (mkL3Decoded protocol src_ip dst_ip header_len total_len ttl)).

(** ** Receive checksum offload *)

Inductive CksumOutcome := CkUnknown | CkBad | CkGood | CkNone.

Definition RTE_MBUF_F_RX_L4_CKSUM_BAD : Z := Z.shiftl 1 3.
Definition RTE_MBUF_F_RX_IP_CKSUM_BAD : Z := Z.shiftl 1 4.
Definition RTE_MBUF_F_RX_IP_CKSUM_GOOD : Z := Z.shiftl 1 7.
Definition RTE_MBUF_F_RX_L4_CKSUM_GOOD : Z := Z.shiftl 1 8.
Definition RTE_MBUF_F_RX_IP_CKSUM_MASK : Z :=
  Z.lor RTE_MBUF_F_RX_IP_CKSUM_BAD RTE_MBUF_F_RX_IP_CKSUM_GOOD.
Definition RTE_MBUF_F_RX_L4_CKSUM_MASK : Z :=
  Z.lor RTE_MBUF_F_RX_L4_CKSUM_BAD RTE_MBUF_F_RX_L4_CKSUM_GOOD.

Definition classify_rx_cksum (mask good bad none ol_flags : Z) : CksumOutcome :=
  let m := Z.land ol_flags mask in
  if m =? good then CkGood else if m =? bad then CkBad else if m =? none then CkNone else CkUnknown.

Definition classify_ip_rx_cksum : Z -> CksumOutcome :=
  classify_rx_cksum RTE_MBUF_F_RX_IP_CKSUM_MASK RTE_MBUF_F_RX_IP_CKSUM_GOOD
    RTE_MBUF_F_RX_IP_CKSUM_BAD RTE_MBUF_F_RX_IP_CKSUM_MASK.
Definition classify_l4_rx_cksum : Z -> CksumOutcome :=
  classify_rx_cksum RTE_MBUF_F_RX_L4_CKSUM_MASK RTE_MBUF_F_RX_L4_CKSUM_GOOD
    RTE_MBUF_F_RX_L4_CKSUM_BAD RTE_MBUF_F_RX_L4_CKSUM_MASK.

(** The result and the increment of [eth.rx_drop_cksum_bad]; [feature] is the
    [hw-offload-rx-cksum] build feature. *)
Definition ip_decode_offload_aware (feature : bool) (pkt : list Z) (our_ip ol_flags : Z)
    (rx_cksum_offload_active : bool) : option (result L3Decoded L3Drop) * Z :=
  if feature then
    if negb rx_cksum_offload_active then (ip_decode pkt our_ip false, 0) else
    match classify_ip_rx_cksum ol_flags with
    | CkGood => (ip_decode pkt our_ip true, 0)
    | CkBad => (Some (Err CsumBad), 1)
    | _ => (ip_decode pkt our_ip false, 0)
    end
  else (ip_decode pkt our_ip false, 0).

(** Decoding the Ethernet header never reads out of bounds, and passes two ethertypes. *)
Lemma l2_decode_total frame mac : exists r, l2_decode frame mac = Some r /\ forall d, r = Ok d ->
  l2_payload_offset d = ETH_HDR_LEN /\ (ETH_HDR_LEN <= length frame)%nat /\
  (l2_ethertype d = ETHERTYPE_ARP \/ l2_ethertype d = ETHERTYPE_IPV4).
Proof.
  unfold l2_decode, ETH_HDR_LEN. destruct (Nat.ltb_spec (length frame) 14) as [|L]; [by eexists|].
  rewrite !get_slice_some by lia. destruct (read_be16_some frame 12 ltac:(lia)) as [et ->]. cbn [mbind option_bind].
  destruct (negb (_ || _ || _)); [by eexists|].
  destruct (negb (et =? ETHERTYPE_IPV4) && negb (et =? ETHERTYPE_ARP)) eqn:E; [by eexists|].
  eexists. split; [done|]. intros d [= <-]. cbn. split_and!; try done.
  apply andb_false_iff in E. rewrite !negb_false_iff, !Z.eqb_eq in E. tauto.
Qed.

(** ** The checksum against RFC 1071 *)

(** The sum of the big-endian 16-bit words of a buffer, an odd last byte padded
    with a zero byte. *)
Fixpoint be_sum (bytes : list Z) : Z :=
  match bytes with
  | hi :: lo :: rest => from_be16 hi lo + be_sum rest
  | [tail] => tail * 256
  | [] => 0
  end.

(** One's complement normal form of a non-negative sum: zero only for zero. *)
Definition ones_norm (s : Z) : Z := if s =? 0 then 0 else (s - 1) mod 65535 + 1.

Lemma list_pair_ind {A} (P : list A -> Prop) :
  P [] -> (forall x, P [x]) -> (forall x y l, P l -> P (x :: y :: l)) -> forall l, P l.
Proof.
  intros H0 H1 H2 l. cut (P l /\ forall x, P (x :: l)); [tauto|].
  induction l as [|y l [IH1 IH2]]; split; auto.
Qed.

Definition carry_bytes (c : option Z) : list Z := match c with Some h => [h] | None => [] end.

Lemma csum_chunk_pairs st c : csum_chunk st c = csum_pairs st.1 (carry_bytes st.2 ++ c).
Proof. destruct st as [s [h|]]; [destruct c|]; reflexivity. Qed.

Lemma csum_pairs_app a : forall s b,
  csum_pairs s (a ++ b) = csum_pairs (csum_pairs s a).1 (carry_bytes (csum_pairs s a).2 ++ b).
Proof. induction a as [|x|x y l IH] using list_pair_ind; intros s b; [done..|]. cbn. apply IH. Qed.

Lemma csum_fold_concat chunks : forall st,
  foldl csum_chunk st chunks = csum_pairs st.1 (carry_bytes st.2 ++ concat chunks).
Proof.
  induction chunks as [|c cs IH]; intros st; cbn.
  - rewrite app_nil_r. by destruct st as [s [h|]].
  - rewrite IH, csum_chunk_pairs, app_assoc. symmetry. apply (csum_pairs_app (_ ++ c)).
Qed.

(** Splitting a buffer into chunks does not change its checksum. *)
Lemma internet_checksum_concat chunks : internet_checksum chunks = internet_checksum [concat chunks].
Proof. unfold internet_checksum. rewrite !csum_fold_concat. cbn. by rewrite app_nil_r. Qed.

Lemma be_sum_nonneg l : is_bytes l -> 0 <= be_sum l.
Proof.
  induction l as [|x|x y l IH] using list_pair_ind; intros H; [done|..];
    repeat (apply Forall_cons in H as [? H]); cbn.
  - width_lia.
  - specialize (IH H). unfold from_be16. width_lia.
Qed.

Lemma be_sum_bound l : is_bytes l -> 2 * be_sum l <= 65535 * (zlen l + 1).
Proof.
  unfold zlen.
  induction l as [|x|x y l IH] using list_pair_ind; intros H; [cbn; lia|..];
    repeat (apply Forall_cons in H as [? H]); cbn [be_sum length].
  - width_lia.
  - specialize (IH H). unfold from_be16. width_lia.
Qed.

Lemma csum_tail_pairs l : forall s, is_bytes l -> is_u32 s ->
  csum_tail (csum_pairs s l) = u32 (s + be_sum l).
Proof.
  induction l as [|x|x y l IH] using list_pair_ind; intros s H Hs;
    repeat (apply Forall_cons in H as [? H]); cbn [csum_pairs be_sum].
  - cbn. rewrite Z.add_0_r. unfold u32. rewrite Z.mod_small; [done|]. apply Hs.
  - cbn. rewrite Z.shiftl_mul_pow2 by lia. unfold wadd32, u32. rewrite (Z.mod_small (x * 2 ^ 8)); [done|]. unfold is_u8, two8, two32 in *. lia.
  - rewrite IH; [|done|unfold wadd32, u32; apply Z.mod_pos_bound; done].
    unfold wadd32, u32. rewrite Z.add_mod_idemp_l by done. f_equal. lia.
Qed.

Lemma fold_step s : is_u32 s ->
  Z.shiftr s 16 = s / 65536 /\ wadd32 (Z.land s 0xffff) (Z.shiftr s 16) = s mod 65536 + s / 65536.
Proof.
  intros H. rewrite Z.shiftr_div_pow2 by lia.
  change 0xffff with (Z.ones 16). rewrite Z.land_ones by lia. change (2 ^ 16) with 65536.
  split; [done|]. apply wadd32_id. unfold is_u32, two32 in *. div_lia.
Qed.

(** Two rounds of folding always suffice; more fuel changes nothing. *)
Lemma fold_carries_norm n s : is_u32 s -> fold_carries (2 + n) s = ones_norm s.
Proof.
  intros H. cbn [Nat.add fold_carries]. destruct (fold_step s H) as [E1 E2]. rewrite E2, E1.
  set (s1 := s mod 65536 + s / 65536).
  assert (Hs1 : 0 <= s1 <= 131070) by (unfold s1, is_u32, two32 in *; div_lia).
  assert (Hs1u : is_u32 s1) by width_lia.
  destruct (fold_step s1 Hs1u) as [E3 E4]. rewrite E4, E3. unfold ones_norm.
  destruct (Z.eqb_spec (s / 65536) 0) as [D|D]; cbn.
  { case_tests; [lia|]. rewrite Z.mod_small; [lia|]. unfold is_u32, two32 in H. div_lia. }
  assert (Hpos : s <> 0) by (intros ->; by apply D).
  rewrite (proj2 (Z.eqb_neq _ _) Hpos).
  assert (Hc : (s1 - 1) mod 65535 = (s - 1) mod 65535).
  { replace (s - 1) with (s1 - 1 + (s / 65536) * 65535) by (unfold s1; div_lia).
    by rewrite Z.mod_add by done. }
  assert (1 <= s1) by (unfold s1, is_u32, two32 in *; div_lia). rewrite <- Hc.
  destruct (Z.eqb_spec (s1 / 65536) 0) as [D1|D1]; cbn.
  { rewrite Z.mod_small; div_lia. }
  set (s2 := s1 mod 65536 + s1 / 65536).
  assert (Hs2 : 1 <= s2 <= 65535) by (unfold s2; div_lia).
  assert (Hu2 : s2 / 65536 = 0) by (apply Z.div_small; lia).
  assert (Hf : fold_carries n s2 = s2).
  { destruct n; [done|]. cbn. destruct (fold_step s2 ltac:(width_lia)) as [-> _]. by rewrite Hu2. }
  rewrite Hf. replace (s1 - 1) with (s2 - 1 + (s1 / 65536) * 65535) by (unfold s2; div_lia).
  rewrite Z.mod_add, Z.mod_small by lia. lia.
Qed.

Lemma ones_norm_range s : 0 <= s -> 0 <= ones_norm s <= 65535.
Proof. unfold ones_norm. case_tests; [lia|]. pose proof (Z.mod_pos_bound (s - 1) 65535). lia. Qed.

Lemma u16_high_bit x n : is_u16 x -> 16 <= n -> Z.testbit x n = false.
Proof.
  intros [H0 H1] Hn. apply Z.bits_above_log2; [done|].
  destruct (Z.eq_dec x 0) as [->|]; [cbn; lia|].
  apply Z.log2_lt_pow2; [lia|].
  apply Z.lt_le_trans with (2 ^ 16); [exact H1|apply Z.pow_le_mono_r; lia].
Qed.

Lemma not16_sub x : is_u16 x -> not16 x = 65535 - x.
Proof.
  intros H. unfold not16, u16. rewrite Z.mod_small by apply H.
  change 65535 with (Z.ones 16).
  rewrite Z.sub_nocarry_ldiff; apply Z.bits_inj'; intros n Hn;
    rewrite ?Z.lxor_spec, !Z.ldiff_spec, ?Z.bits_0;
    (destruct (Z.lt_ge_cases n 16);
      [rewrite Z.ones_spec_low by lia|rewrite u16_high_bit by done]);
    rewrite ?Z.ones_spec_high by lia; by destruct (Z.testbit x n).
Qed.

Lemma not16_range x : is_u16 (not16 x).
Proof.
  assert (Hx : is_u16 (u16 x)) by (unfold is_u16, u16; apply Z.mod_pos_bound; done).
  replace (not16 x) with (not16 (u16 x)) by (unfold not16; f_equal; unfold u16; by apply Z.mod_mod).
  rewrite not16_sub by done. unfold is_u16, two16 in *. lia.
Qed.

Lemma csum_sum_small chunks : is_bytes (concat chunks) -> zlen (concat chunks) <= 131072 ->
  is_u32 (be_sum (concat chunks)).
Proof.
  intros Hb Hl. pose proof (be_sum_nonneg _ Hb). pose proof (be_sum_bound _ Hb). width_lia.
Qed.

Lemma internet_checksum_value chunks :
  is_bytes (concat chunks) -> zlen (concat chunks) <= 131072 ->
  internet_checksum chunks = 65535 - ones_norm (be_sum (concat chunks)).
Proof.
  intros Hb Hl. pose proof (csum_sum_small _ Hb Hl) as Hs.
  unfold internet_checksum. rewrite csum_fold_concat. cbn [fst snd carry_bytes app].
  rewrite csum_tail_pairs by (done || width_lia). rewrite Z.add_0_l.
  unfold u32. rewrite Z.mod_small by apply Hs.
  change FOLD_FUEL with (2 + 0)%nat. rewrite fold_carries_norm by done.
  apply not16_sub. pose proof (ones_norm_range (be_sum (concat chunks))). width_lia.
Qed.

Lemma internet_checksum_range chunks : is_bytes (concat chunks) -> zlen (concat chunks) <= 131072 ->
  is_u16 (internet_checksum chunks).
Proof.
  intros Hb Hl. rewrite internet_checksum_value by done.
  pose proof (ones_norm_range (be_sum (concat chunks)) (be_sum_nonneg _ Hb)). width_lia.
Qed.
#[export] Hint Resolve internet_checksum_range : width.

Lemma be_sum_app_even l : forall k, Nat.Even (length l) -> be_sum (l ++ k) = be_sum l + be_sum k.
Proof.
  induction l as [|x|x y l IH] using list_pair_ind; intros k H; cbn [app be_sum].
  - done.
  - exfalso. destruct H as [n H]. cbn in H. lia.
  - rewrite IH; [lia|]. destruct H as [n H]. exists (n - 1)%nat. cbn in H. lia.
Qed.

(** What a receiver that follows RFC 1071 tests: the sum of all the words,
    checksum field included, is all ones. *)
Lemma ones_norm_check (t s : Z) : 0 < t -> is_u16 s ->
  65535 - ones_norm t = s <-> ones_norm (t + s) = 65535 /\ s <> 65535.
Proof.
  intros Ht Hs. unfold ones_norm. rewrite !(proj2 (Z.eqb_neq _ _)) by (widths; lia).
  widths. pose proof (Z.mod_pos_bound (t - 1) 65535).
  assert (E : t + s - 1 = ((t - 1) mod 65535 + s) + (t - 1) / 65535 * 65535)
    by (pose proof (Z.div_mod (t - 1) 65535); lia).
  rewrite E, Z.mod_add by done. set (m := (t - 1) mod 65535) in *. clearbody m. clear E.
  split; [intros <-; split; [|lia]; rewrite Z.mod_small; lia|].
  intros [A B]. div_lia.
Qed.

(** C37. The checksum of a list of slices is RFC 1071's: the one's complement
    of the one's-complement sum of the 16-bit big-endian words of their
    concatenation, whatever the slicing, and the 32-bit accumulator does not
    overflow for any input up to 128 KiB. *)
Theorem internet_checksum_rfc1071 (chunks : list (list Z))
    (Hb : is_bytes (concat chunks)) (Hl : zlen (concat chunks) <= 131072) :
  internet_checksum chunks = 65535 - ones_norm (be_sum (concat chunks)) /\
  is_u32 (be_sum (concat chunks)) /\
  (forall chunks', concat chunks' = concat chunks ->
     internet_checksum chunks' = internet_checksum chunks).
Proof.
  split; [by apply internet_checksum_value|]. split; [by apply csum_sum_small|].
  intros chunks' E. by rewrite internet_checksum_concat, E, <- internet_checksum_concat.
Qed.

Lemma internet_checksum_rfc1071_witness :
  internet_checksum [[0x45; 0; 0]; []; [0x73; 0xff]; [0xff; 1]] = 47500.
Proof.
  destruct (internet_checksum_rfc1071 [[0x45; 0; 0]; []; [0x73; 0xff]; [0xff; 1]]) as [E _].
  - vm_compute. repeat constructor; discriminate.
  - vm_compute. discriminate.
  - rewrite E. vm_compute. reflexivity.
Defined.

(** ** The decoders are total and sound *)

Lemma header_split (pkt : list Z) (hl : nat) : (12 <= hl <= length pkt)%nat ->
  exists p a b rest post, pkt = p ++ a :: b :: rest ++ post /\ length p = 10%nat /\
    length rest = (hl - 12)%nat.
Proof.
  intros H. exists (take 10 pkt).
  destruct (lookup_some pkt 10 ltac:(lia)) as [a Ha], (lookup_some pkt 11 ltac:(lia)) as [b Hb].
  exists a, b, (take (hl - 12) (drop 12 pkt)), (drop (hl - 12) (drop 12 pkt)).
  rewrite !length_take, length_drop. split; [|lia].
  rewrite (take_drop (hl - 12)), <- (drop_S _ _ _ Hb), <- (drop_S _ _ _ Ha). symmetry. apply take_drop.
Qed.

Lemma ip_csum_matches_split p a b rest post hl :
  length p = 10%nat -> length rest = (hl - 12)%nat -> (12 <= hl <= 60)%nat ->
  ip_csum_matches (p ++ a :: b :: rest ++ post) hl =
    Some (internet_checksum [p ++ 0 :: 0 :: rest] =? from_be16 a b).
Proof.
  intros Hp Hr Hl. unfold ip_csum_matches.
  rewrite get_slice_some by (rewrite !length_app; cbn; rewrite length_app; lia). cbn [mbind option_bind].
  assert (E1 : slice 0 hl (p ++ a :: b :: rest ++ post) = p ++ a :: b :: rest).
  { unfold slice. rewrite drop_0, Nat.sub_0_r.
    change (p ++ a :: b :: rest ++ post) with (p ++ (a :: b :: rest) ++ post).
    rewrite app_assoc. apply take_app_length'. rewrite length_app. cbn. lia. }
  rewrite E1. set (z := replicate 60 0).
  assert (E2 : copy_at 0 (p ++ a :: b :: rest) z = p ++ [a] ++ b :: rest ++ drop hl z).
  { unfold copy_at. rewrite take_0, <- !app_assoc. cbn [app]. do 4 f_equal.
    f_equal. rewrite length_app. cbn. lia. }
  assert (E3 : set_byte 10 0 (p ++ [a] ++ b :: rest ++ drop hl z) =
               (p ++ [0]) ++ [b] ++ rest ++ drop hl z).
  { unfold set_byte. rewrite copy_at_app_eq by lia. by rewrite <- !app_assoc. }
  assert (E4 : set_byte 11 0 ((p ++ [0]) ++ [b] ++ rest ++ drop hl z) =
               (p ++ 0 :: 0 :: rest) ++ drop hl z).
  { unfold set_byte. rewrite copy_at_app_eq by (rewrite length_app; cbn; lia).
    cbn. rewrite <- !app_assoc. reflexivity. }
  rewrite E2, E3, E4.
  rewrite get_slice_some by (rewrite !length_app; cbn; lia). cbn [mbind option_bind].
  assert (E5 : slice 0 hl ((p ++ 0 :: 0 :: rest) ++ drop hl z) = p ++ 0 :: 0 :: rest).
  { unfold slice. rewrite drop_0, Nat.sub_0_r. apply take_app_length'. rewrite length_app. cbn. lia. }
  rewrite E5, read_be16_split by lia. reflexivity.
Qed.

(** The header's checksum test passes exactly when the one's-complement sum of
    the whole header is all ones and the field is not the alternative zero. *)
Lemma ip_csum_matches_rfc pkt hl :
  is_bytes pkt -> (20 <= hl <= 60)%nat -> (hl <= length pkt)%nat -> pkt !! 0%nat <> Some 0 ->
  exists stored m, read_be16 pkt 10 = Some stored /\ ip_csum_matches pkt hl = Some m /\
    (m = true <-> ones_norm (be_sum (slice 0 hl pkt)) = 65535 /\ stored <> 65535).
Proof.
  intros Hb Hl Hlen H0.
  destruct (header_split pkt hl ltac:(lia)) as (p & a & b & rest & post & -> & Hp & Hr).
  exists (from_be16 a b). eexists.
  split; [|split; [apply ip_csum_matches_split; lia|]].
  { by apply read_be16_split. }
  apply Forall_app in Hb as [Bp Hb]. apply Forall_cons in Hb as [Ba Hb].
  apply Forall_cons in Hb as [Bb Hb]. apply Forall_app in Hb as [Br _].
  assert (Even_p : Nat.Even (length p)) by (rewrite Hp; by exists 5%nat).
  rewrite internet_checksum_value; cycle 1.
  { rewrite concat_cons, app_nil_r. apply Forall_app. split; [done|].
    repeat constructor; unfold is_u8, two8; try lia. done. }
  { rewrite concat_cons, app_nil_r. unfold zlen. rewrite length_app. cbn. lia. }
  rewrite concat_cons, app_nil_r.
  replace (slice 0 hl (p ++ a :: b :: rest ++ post)) with (p ++ a :: b :: rest).
  2: { unfold slice. rewrite drop_0, Nat.sub_0_r.
       change (p ++ a :: b :: rest ++ post) with (p ++ (a :: b :: rest) ++ post).
       rewrite app_assoc. symmetry. apply take_app_length'. rewrite length_app. cbn. lia. }
  rewrite !be_sum_app_even by done. cbn [be_sum].
  assert (Hs : is_u16 (from_be16 a b)) by auto with width.
  assert (Hpos : 0 < be_sum p).
  { destruct p as [|x [|y p]]; [done..|]. cbn [be_sum].
    apply Forall_cons in Bp as [Bx Bp]. apply Forall_cons in Bp as [By Bp].
    pose proof (be_sum_nonneg _ Bp). unfold from_be16.
    assert (x <> 0) by (intros ->; by apply H0). width_lia. }
  pose proof (be_sum_nonneg _ Br).
  rewrite Z.eqb_eq. change (from_be16 0 0) with 0. rewrite Z.add_0_l.
  rewrite ones_norm_check by (done || lia).
  by replace (be_sum p + (from_be16 a b + be_sum rest)) with (be_sum p + be_sum rest + from_be16 a b) by lia.
Qed.

(** What an accepted datagram satisfies. *)
Record ip_accepted (pkt : list Z) (our_ip : Z) (nic_csum_ok : bool) (d : L3Decoded) : Prop := {
  ipa_bounds : (20 <= l3_header_len d <= l3_total_len d)%nat /\ (l3_total_len d <= length pkt)%nat;
  ipa_hdr_max : (l3_header_len d <= 60)%nat;
  ipa_proto : l3_protocol d = IPPROTO_TCP \/ l3_protocol d = IPPROTO_ICMP;
  ipa_ttl : 1 <= l3_ttl d <= 255;
  ipa_ours : our_ip = 0 \/ l3_dst_ip d = our_ip;
  ipa_addrs : is_u32 (l3_src_ip d) /\ is_u32 (l3_dst_ip d);
  ipa_csum : nic_csum_ok = false ->
    ones_norm (be_sum (slice 0 (l3_header_len d) pkt)) = 65535
}.

Lemma land_low b n : 0 <= n -> 0 <= Z.land b (Z.ones n) < 2 ^ n.
Proof. intros H. rewrite Z.land_ones by done. apply Z.mod_pos_bound. lia. Qed.

Lemma ip_csum_gate pkt hl (nic : bool) :
  is_bytes pkt -> (20 <= hl <= 60)%nat -> (hl <= length pkt)%nat -> pkt !! 0%nat <> Some 0 ->
  exists ok, (if nic then Some true else ip_csum_matches pkt hl) = Some ok /\
    (ok = true -> nic = false -> ones_norm (be_sum (slice 0 hl pkt)) = 65535).
Proof.
  intros Hb Hl Hlen H0. destruct nic; [by exists true|].
  destruct (ip_csum_matches_rfc pkt hl) as (s & m & _ & -> & Hm); [done..|].
  exists m. split; [done|]. intros E _. by apply Hm.
Qed.

Lemma ip_decode_spec (pkt : list Z) (our_ip : Z) (nic_csum_ok : bool) (Hb : is_bytes pkt) :
  exists r, ip_decode pkt our_ip nic_csum_ok = Some r /\
    forall d, r = Ok d -> ip_accepted pkt our_ip nic_csum_ok d.
Proof.
  unfold ip_decode. destruct (Nat.ltb_spec (length pkt) 20) as [|L]; [by eexists|].
  destruct (lookup_some pkt 0 ltac:(lia)) as [b0 E0]. rewrite E0. cbn [mbind option_bind].
  destruct (Z.eqb_spec (Z.shiftr b0 4) 4) as [V|]; cbn [negb]; [|by eexists].
  pose proof (land_low b0 4 ltac:(lia)) as Hi. change (Z.ones 4) with 15 in Hi. change (2 ^ 4) with 16 in Hi.
  set (ihl := Z.to_nat (Z.land b0 15)). assert (Hihl : (ihl <= 15)%nat) by lia. clearbody ihl. clear Hi.
  destruct ((ihl <? 5) || (length pkt <? ihl * 4))%nat eqn:E1; [by eexists|].
  apply orb_false_iff in E1 as [E1 E2]. apply Nat.ltb_ge in E1, E2.
  destruct (read_be16_some pkt 2 ltac:(lia)) as [tl Htl]. rewrite Htl. cbn [mbind option_bind].
  destruct ((Z.to_nat tl <? ihl * 4) || (length pkt <? Z.to_nat tl))%nat eqn:E3; [by eexists|].
  apply orb_false_iff in E3 as [E3 E4]. apply Nat.ltb_ge in E3, E4.
  destruct (read_be16_some pkt 6 ltac:(lia)) as [ff ->]. cbn [mbind option_bind].
  case_match; [by eexists|].
  destruct (lookup_some pkt 8 ltac:(lia)) as [ttl Ht]. rewrite Ht. cbn [mbind option_bind].
  destruct (Z.eqb_spec ttl 0) as [|Httl]; [by eexists|].
  assert (Hb0 : pkt !! 0%nat <> Some 0) by (rewrite E0; intros [= ->]; discriminate V).
  destruct (ip_csum_gate pkt (ihl * 4) nic_csum_ok Hb) as (ok & -> & Hok); [lia|lia|done|].
  cbn [mbind option_bind]. destruct ok; cbn [negb]; [|by eexists].
  destruct (lookup_some pkt 9 ltac:(lia)) as [proto ->]. cbn [mbind option_bind].
  destruct (read_be32_some pkt 12 ltac:(lia)) as [sip Hs], (read_be32_some pkt 16 ltac:(lia)) as [dip Hd].
  rewrite Hs, Hd. cbn [mbind option_bind].
  destruct (negb (our_ip =? 0) && negb (dip =? our_ip)) eqn:E5; [by eexists|].
  destruct (negb (proto =? IPPROTO_TCP) && negb (proto =? IPPROTO_ICMP)) eqn:E6; [by eexists|].
  eexists. split; [done|]. intros d [= <-].
  apply andb_false_iff in E5, E6. rewrite !negb_false_iff, !Z.eqb_eq in E5, E6.
  split; cbn; auto; [lia|lia| |eauto using read_be32_range].
  pose proof (is_bytes_lookup _ _ _ Hb Ht). width_lia.
Qed.

(** C38. The IPv4 decoder never reads out of bounds, and a datagram it accepts
    has a header and a total length inside the buffer, a live TTL, a supported
    protocol, our address (or no address is configured) and, unless the NIC
    vouches for it, a header whose one's-complement sum is all ones. *)
Theorem ip_decode_sound (pkt : list Z) (our_ip : Z) (nic_csum_ok : bool) (Hb : is_bytes pkt) :
  exists r, ip_decode pkt our_ip nic_csum_ok = Some r /\
    forall d, r = Ok d -> ip_accepted pkt our_ip nic_csum_ok d.
Proof. exact (ip_decode_spec pkt our_ip nic_csum_ok Hb). Qed.

(** A 20-byte TCP header-only datagram from 10.0.0.2 to 10.0.0.1. *)
Definition sample_datagram : list Z :=
  [0x45;0;0;20;0;0;0x40;0;64;6;0x26;0xe2;10;0;0;2;10;0;0;1].

Lemma ip_decode_sound_witness :
  exists r, ip_decode sample_datagram 0x0a000001 false = Some r /\
    forall d, r = Ok d -> ip_accepted sample_datagram 0x0a000001 false d.
Proof.
  apply (ip_decode_sound sample_datagram 0x0a000001 false).
  repeat constructor; vm_compute; discriminate.
Defined.

Example ip_decode_sample :
  ip_decode sample_datagram 0x0a000001 false = Some (Ok (mkL3Decoded 6 0x0a000002 0x0a000001 20 20 64)).
Proof. vm_compute. reflexivity. Qed.
