(* ===== verification/Output.v ===== *)
(** * Segment builders: tcp_output.rs

    [build_segment] and [build_retrans_header] write one Ethernet + IPv4 + TCP
    frame into a caller-supplied buffer.  The buffer is a list of bytes; a
    builder returns [None] where the source would panic, [Some None] where the
    source returns [None], and otherwise the byte count and the buffer. *)

From S2P Require Import Prelude.
From S2P Require Import Bytes.
From S2P Require Import Options.
From S2P Require Import Ip.

Definition TCP_HDR_MIN : nat := 20.
Definition IPV4_HDR_MIN : nat := 20.
Definition FRAME_HDRS_MIN : nat := ETH_HDR_LEN + IPV4_HDR_MIN + TCP_HDR_MIN.

Definition TCP_FIN : Z := 0x01.
Definition TCP_SYN : Z := 0x02.
Definition TCP_RST : Z := 0x04.
Definition TCP_PSH : Z := 0x08.
Definition TCP_ACK : Z := 0x10.
Definition TCP_URG : Z := 0x20.

(** [(flags & bit) != 0]. *)
Definition has_flag (flags bit : Z) : bool := negb (Z.land flags bit =? 0).

Record SegmentTx := mkSegmentTx {
  tx_src_mac : list Z;
  tx_dst_mac : list Z;
  tx_src_ip : Z;
  tx_dst_ip : Z;
  tx_src_port : Z;
  tx_dst_port : Z;
  tx_seq : Z;
  tx_ack : Z;
  tx_flags : Z;
  tx_window : Z;
  tx_options : TcpOpts;
  tx_payload : list Z
}.

#[export] Instance SegmentTx_eta : Settable SegmentTx := fun s =>
  mkSegmentTx (tx_src_mac s) (tx_dst_mac s) (tx_src_ip s) (tx_dst_ip s) (tx_src_port s)
    (tx_dst_port s) (tx_seq s) (tx_ack s) (tx_flags s) (tx_window s) (tx_options s) (tx_payload s).

(** The 12-byte pseudo-header, built in place. *)
Definition pseudo_header (src_ip dst_ip tcp_seg_len : Z) : list Z :=
  let pseudo := replicate 12 0 in
  let pseudo := copy_at 0 (to_be32 src_ip) pseudo in
  let pseudo := copy_at 4 (to_be32 dst_ip) pseudo in
  let pseudo := set_byte 8 0 pseudo in
  let pseudo := set_byte 9 IPPROTO_TCP pseudo in
  copy_at 10 (to_be16 (u16 tcp_seg_len)) pseudo.

Definition tcp_checksum_split (src_ip dst_ip tcp_seg_len : Z) (tcp_header_bytes payload_bytes : list Z) : Z :=
  internet_checksum [pseudo_header src_ip dst_ip tcp_seg_len; tcp_header_bytes; payload_bytes].

Definition tcp_pseudo_header_checksum (src_ip dst_ip tcp_seg_len : Z) : Z :=
  internet_checksum [pseudo_header src_ip dst_ip tcp_seg_len].

(** [out[i] = (csum >> 8) as u8; out[i + 1] = (csum & 0xff) as u8]. *)
Definition write_csum (i : nat) (csum : Z) (out : list Z) : list Z :=
  set_byte (i + 1) (u8 (Z.land csum 0xff)) (set_byte i (u8 (Z.shiftr csum 8)) out).

(** The writes of the Ethernet header, and of the IPv4 header at [ip]. *)
Definition write_eth (seg : SegmentTx) (out : list Z) : list Z :=
  let out := copy_at 0 (tx_dst_mac seg) out in
  let out := copy_at 6 (tx_src_mac seg) out in
  copy_at 12 (to_be16 ETHERTYPE_IPV4) out.

Definition write_ip (seg : SegmentTx) (ip : nat) (total_ip_len : Z) (out : list Z) : list Z :=
  let out := set_byte ip 0x45 out in
  let out := set_byte (ip + 1) 0x00 out in
  let out := copy_at (ip + 2) (to_be16 total_ip_len) out in
  let out := copy_at (ip + 4) (to_be16 0x0000) out in
  let out := copy_at (ip + 6) (to_be16 0x4000) out in
  let out := set_byte (ip + 8) 64 out in
  let out := set_byte (ip + 9) IPPROTO_TCP out in
  let out := copy_at (ip + 10) (to_be16 0x0000) out in
  let out := copy_at (ip + 12) (to_be32 (tx_src_ip seg)) out in
  copy_at (ip + 16) (to_be32 (tx_dst_ip seg)) out.

Definition write_tcp (seg : SegmentTx) (th : nat) (tcp_hdr_len : nat) (out : list Z) : list Z :=
  let out := copy_at th (to_be16 (tx_src_port seg)) out in
  let out := copy_at (th + 2) (to_be16 (tx_dst_port seg)) out in
  let out := copy_at (th + 4) (to_be32 (tx_seq seg)) out in
  let out := copy_at (th + 8) (to_be32 (tx_ack seg)) out in
  let out := set_byte (th + 12) (u8 (Z.shiftl (u8 (Z.of_nat (tcp_hdr_len / 4))) 4)) out in
  let out := set_byte (th + 13) (tx_flags seg) out in
  let out := copy_at (th + 14) (to_be16 (tx_window seg)) out in
  let out := copy_at (th + 16) (to_be16 0) out in
  copy_at (th + 18) (to_be16 0) out.

(** The options are encoded into the sub-slice reserved for them. *)
Definition write_opts (seg : SegmentTx) (at_ opts_len : nat) (out : list Z) : option (list Z) :=
  if (0 <? opts_len)%nat then
    sub ← get_slice at_ (at_ + opts_len) out;
    enc ← encode (tx_options seg) sub;
    Some (copy_at at_ enc.2 out)
  else Some out.

Definition build_segment_inner (seg : SegmentTx) (payload_for_csum : list Z)
    (declared_payload_len : Z) (out : list Z) : option (option (nat * list Z)) :=
  let opts_len := encoded_len (tx_options seg) in
  let tcp_hdr_len := (TCP_HDR_MIN + opts_len)%nat in
  let total_written := (ETH_HDR_LEN + IPV4_HDR_MIN + tcp_hdr_len + length (tx_payload seg))%nat in
  if (length out <? total_written)%nat then Some None else
  let total_ip_len_u32 := wadd32 (u32 (Z.of_nat (IPV4_HDR_MIN + tcp_hdr_len))) declared_payload_len in
  if U16_MAX <? total_ip_len_u32 then Some None else
  let out := write_eth seg out in
  let ip_start := ETH_HDR_LEN in
  let out := write_ip seg ip_start (u16 total_ip_len_u32) out in
  ip_hdr ← get_slice ip_start (ip_start + IPV4_HDR_MIN) out;
  let out := write_csum (ip_start + 10) (internet_checksum [ip_hdr]) out in
  let tcp_start := (ip_start + IPV4_HDR_MIN)%nat in
  let out := write_tcp seg tcp_start tcp_hdr_len out in
  out ← write_opts seg (tcp_start + TCP_HDR_MIN) opts_len out;
  let payload_start := (tcp_start + tcp_hdr_len)%nat in
  let out := copy_at payload_start (tx_payload seg) out in
  let tcp_seg_len := wadd32 (u32 (Z.of_nat tcp_hdr_len)) declared_payload_len in
  tcp_hdr ← get_slice tcp_start (tcp_start + tcp_hdr_len) out;
  let csum := tcp_checksum_split (tx_src_ip seg) (tx_dst_ip seg) tcp_seg_len tcp_hdr payload_for_csum in
  let out := write_csum (tcp_start + 16) csum out in
  Some (Some (total_written, out)).

Definition build_segment (seg : SegmentTx) (out : list Z) : option (option (nat * list Z)) :=
  build_segment_inner seg (tx_payload seg) (u32 (zlen (tx_payload seg))) out.

Definition build_retrans_header (seg : SegmentTx) (payload_for_csum out : list Z)
  : option (option (nat * list Z)) :=
  if U16_MAX <? zlen payload_for_csum then Some None else
  build_segment_inner seg payload_for_csum (u32 (zlen payload_for_csum)) out.

(** [tx_offload_rewrite_cksums]: the flag returned and the frame after it. *)
Definition tx_offload_rewrite_cksums (frame : list Z) (src_ip dst_ip : Z) (tcp_hdr_len : nat)
    (payload_for_csum_len : Z) : bool * list Z :=
  if (length frame <? ETH_HDR_LEN + IPV4_HDR_MIN + TCP_HDR_MIN)%nat then (false, frame) else
  let pseudo_len := wadd32 (u32 (Z.of_nat tcp_hdr_len)) payload_for_csum_len in
  let pseudo := tcp_pseudo_header_checksum src_ip dst_ip pseudo_len in
  let frame := write_csum (ETH_HDR_LEN + IPV4_HDR_MIN + 16) pseudo frame in
  let ip_cksum_off := (ETH_HDR_LEN + 10)%nat in
  (true, set_byte (ip_cksum_off + 1) 0 (set_byte ip_cksum_off 0 frame)).

(** ** The frame as a wire format *)

Definition eth_wire (seg : SegmentTx) : list Z :=
  tx_dst_mac seg ++ tx_src_mac seg ++ to_be16 ETHERTYPE_IPV4.

Definition ip_wire (seg : SegmentTx) (total csum : Z) : list Z :=
  ([0x45; 0x00] ++ to_be16 total ++ [0; 0; 0x40; 0; 64; IPPROTO_TCP]) ++ to_be16 csum ++
  to_be32 (tx_src_ip seg) ++ to_be32 (tx_dst_ip seg).

(** The first 16 bytes of the TCP header, and the whole header. *)
Definition tcp_wire_head (seg : SegmentTx) (hdr_len : nat) : list Z :=
  to_be16 (tx_src_port seg) ++ to_be16 (tx_dst_port seg) ++ to_be32 (tx_seq seg) ++
  to_be32 (tx_ack seg) ++ [u8 (Z.shiftl (u8 (Z.of_nat (hdr_len / 4))) 4); tx_flags seg] ++
  to_be16 (tx_window seg).
Definition tcp_wire (seg : SegmentTx) (hdr_len : nat) (csum : Z) : list Z :=
  tcp_wire_head seg hdr_len ++ to_be16 csum ++ to_be16 0 ++ opts_wire (tx_options seg).

Definition tcp_hdr_len_of (seg : SegmentTx) : nat := TCP_HDR_MIN + encoded_len (tx_options seg).
Definition ip_csum_of (seg : SegmentTx) (total : Z) : Z := internet_checksum [ip_wire seg total 0].
Definition tcp_csum_of (seg : SegmentTx) (payload : list Z) : Z :=
  tcp_checksum_split (tx_src_ip seg) (tx_dst_ip seg) (Z.of_nat (tcp_hdr_len_of seg) + zlen payload)
    (tcp_wire seg (tcp_hdr_len_of seg) 0) payload.

(** The headers of a frame that carries [payload]. *)
Definition ip_total_of (seg : SegmentTx) (payload : list Z) : Z :=
  Z.of_nat (IPV4_HDR_MIN + tcp_hdr_len_of seg) + zlen payload.
Definition frame_headers (seg : SegmentTx) (payload : list Z) : list Z :=
  eth_wire seg ++ ip_wire seg (ip_total_of seg payload) (ip_csum_of seg (ip_total_of seg payload)) ++
  tcp_wire seg (tcp_hdr_len_of seg) (tcp_csum_of seg payload).

(** What the Rust types guarantee of a [SegmentTx]. *)
Record seg_wf (seg : SegmentTx) : Prop := {
  swf_src_mac : is_bytes (tx_src_mac seg) /\ length (tx_src_mac seg) = 6%nat;
  swf_dst_mac : is_bytes (tx_dst_mac seg) /\ length (tx_dst_mac seg) = 6%nat;
  swf_ips : is_u32 (tx_src_ip seg) /\ is_u32 (tx_dst_ip seg);
  swf_ports : is_u16 (tx_src_port seg) /\ is_u16 (tx_dst_port seg);
  swf_seqs : is_u32 (tx_seq seg) /\ is_u32 (tx_ack seg);
  swf_flags : is_u8 (tx_flags seg);
  swf_window : is_u16 (tx_window seg);
  swf_options : opts_wf (tx_options seg) /\ ws_clamped (tx_options seg) = false;
  swf_payload : is_bytes (tx_payload seg)
}.

Ltac len_tac :=
  unfold set_byte;
  repeat first [rewrite length_app | rewrite length_to_be16 | rewrite length_to_be32 | rewrite length_drop | progress cbn [length]];
  lia.
Ltac write_step_at := rewrite copy_at_app_eq by len_tac.
Ltac write_all :=
  unfold set_byte; repeat write_step_at; rewrite ?drop_drop, <- ?app_assoc; reflexivity.

Section build.
Context (seg : SegmentTx) (Hwf : seg_wf seg).

Lemma length_eth_wire : length (eth_wire seg) = 14%nat.
Proof.
  unfold eth_wire. rewrite !length_app, (proj2 (swf_src_mac _ Hwf)), (proj2 (swf_dst_mac _ Hwf)).
  reflexivity.
Qed.
Lemma length_ip_wire t c : length (ip_wire seg t c) = 20%nat.
Proof. reflexivity. Qed.
Lemma length_tcp_wire_head n : length (tcp_wire_head seg n) = 16%nat.
Proof. reflexivity. Qed.
Lemma opts_count : (sack_block_count (tx_options seg) <= length (sack_blocks (tx_options seg)))%nat.
Proof. destruct (swf_options _ Hwf) as [W _]. rewrite (wf_len _ W). apply (wf_count _ W). Qed.
Lemma length_tcp_wire n c : length (tcp_wire seg n c) = tcp_hdr_len_of seg.
Proof.
  unfold tcp_wire, tcp_hdr_len_of. rewrite !length_app, encoded_len_wire by apply opts_count. reflexivity.
Qed.

Lemma write_eth_wire out : (14 <= length out)%nat -> write_eth seg out = eth_wire seg ++ drop 14 out.
Proof.
  intros H. unfold write_eth, eth_wire.
  destruct (swf_src_mac _ Hwf) as [_ Ls], (swf_dst_mac _ Hwf) as [_ Ld].
  rewrite (copy_at_app_eq 0 [] _ out) by done. cbn [app].
  rewrite copy_at_app_eq by lia. rewrite copy_at_app_eq by (rewrite length_app; lia).
  rewrite !drop_drop, Ls, Ld, <- !app_assoc. reflexivity.
Qed.

Lemma write_ip_wire i p t rest : i = length p ->
  write_ip seg i t (p ++ rest) = p ++ ip_wire seg t 0 ++ drop 20 rest.
Proof. intros ->. unfold write_ip, ip_wire. write_all. Qed.

Lemma write_tcp_wire i p n rest : i = length p ->
  write_tcp seg i n (p ++ rest) = p ++ (tcp_wire_head seg n ++ to_be16 0 ++ to_be16 0) ++ drop 20 rest.
Proof. intros ->. unfold write_tcp, tcp_wire_head. write_all. Qed.

Lemma write_csum_mid i p a b q c : i = length p ->
  write_csum i c (p ++ a :: b :: q) = p ++ to_be16 c ++ q.
Proof.
  intros ->. unfold write_csum, set_byte.
  change (p ++ a :: b :: q) with (p ++ (a :: b :: q)).
  rewrite copy_at_app. cbn [length drop]. rewrite copy_at_app_eq by len_tac. cbn [length drop].
  rewrite <- !app_assoc. unfold to_be16, u8, two8. cbn [app].
  rewrite Z.shiftr_div_pow2 by lia. change 0xff with (Z.ones 8). rewrite Z.land_ones by lia.
  change (2 ^ 8) with 256. by rewrite Zmod_mod.
Qed.

Lemma write_opts_wire i p rest : i = length p -> (encoded_len (tx_options seg) <= length rest)%nat ->
  write_opts seg i (encoded_len (tx_options seg)) (p ++ rest) =
    Some (p ++ opts_wire (tx_options seg) ++ drop (encoded_len (tx_options seg)) rest).
Proof.
  intros -> H. unfold write_opts. pose proof (encoded_len_wire _ opts_count) as Ew.
  set (n := encoded_len (tx_options seg)) in *.
  destruct (Nat.ltb_spec 0 n) as [|L].
  - rewrite get_slice_some by (rewrite length_app; lia). cbn [mbind option_bind].
    unfold slice. rewrite drop_app_length. replace (length p + n - length p)%nat with n by lia.
    rewrite encode_exact by (apply opts_count || (rewrite length_take; fold n; lia)).
    cbn [mbind option_bind snd]. fold n. rewrite skipn_firstn_comm, Nat.sub_diag. cbn [take].
    rewrite app_nil_r, copy_at_app, <- Ew. by rewrite <- app_assoc.
  - replace n with 0%nat in * by lia. by destruct (opts_wire (tx_options seg)).
Qed.

Lemma pseudo_header_wire s d n : pseudo_header s d n =
  to_be32 s ++ to_be32 d ++ [0; IPPROTO_TCP] ++ to_be16 (u16 n).
Proof. reflexivity. Qed.

(** The length arithmetic of the builder does not wrap. *)
Lemma build_lengths pl : ip_total_of seg pl <= U16_MAX ->
  wadd32 (u32 (Z.of_nat (IPV4_HDR_MIN + (TCP_HDR_MIN + encoded_len (tx_options seg)))))
    (u32 (zlen pl)) = ip_total_of seg pl /\
  wadd32 (u32 (Z.of_nat (TCP_HDR_MIN + encoded_len (tx_options seg)))) (u32 (zlen pl)) =
    Z.of_nat (tcp_hdr_len_of seg) + zlen pl /\
  u16 (ip_total_of seg pl) = ip_total_of seg pl /\ is_u16 (ip_total_of seg pl).
Proof.
  intros Htot. assert (Hz : 0 <= zlen pl) by (unfold zlen; lia).
  unfold ip_total_of, tcp_hdr_len_of, IPV4_HDR_MIN, TCP_HDR_MIN in *.
  set (k := encoded_len (tx_options seg)) in *. set (z := zlen pl) in *.
  assert (u32 z = z) as -> by (apply Z.mod_small; width_lia).
  assert (u32 (Z.of_nat (20 + (20 + k))) = Z.of_nat (20 + (20 + k))) as -> by (apply Z.mod_small; width_lia).
  assert (u32 (Z.of_nat (20 + k)) = Z.of_nat (20 + k)) as -> by (apply Z.mod_small; width_lia).
  rewrite !wadd32_id by width_lia. split_and!; try done; [apply Z.mod_small; width_lia|width_lia..].
Qed.

(** The IPv4 part: the header is written with a zero checksum, folded, and the
    result stored. *)
Lemma ip_part p t rest : length p = 14%nat -> (20 <= length rest)%nat ->
  (ip_hdr ← get_slice 14 34 (write_ip seg 14 t (p ++ rest));
   Some (write_csum 24 (internet_checksum [ip_hdr]) (write_ip seg 14 t (p ++ rest)))) =
  Some (p ++ ip_wire seg t (ip_csum_of seg t) ++ drop 20 rest).
Proof.
  intros Hp Hr. rewrite write_ip_wire by done.
  rewrite get_slice_some by (rewrite !length_app, length_drop, length_ip_wire; lia).
  cbn [mbind option_bind]. rewrite slice_app_mid by (rewrite ?length_ip_wire; lia). f_equal.
  unfold ip_csum_of. generalize (internet_checksum [ip_wire seg t 0]) as c. intros c.
  unfold ip_wire. change (to_be16 0) with [0; 0].
  rewrite <- (app_assoc _ ([0; 0] ++ _)), app_assoc. cbn [app].
  rewrite write_csum_mid by len_tac. by rewrite <- !app_assoc.
Qed.

(** The TCP part: header, options and payload, then the checksum. *)
Lemma tcp_part p n k q csum rest : q = (34 + n)%nat ->
  length p = 34%nat -> n = (20 + encoded_len (tx_options seg))%nat -> k = length (tx_payload seg) ->
  (n + k <= length rest)%nat ->
  (out ← write_opts seg 54 (encoded_len (tx_options seg)) (write_tcp seg 34 n (p ++ rest));
   let out := copy_at q (tx_payload seg) out in
   tcp_hdr ← get_slice 34 q out;
   Some (write_csum 50 (csum tcp_hdr) out)) =
  Some (p ++ tcp_wire seg n (csum (tcp_wire seg n 0)) ++ tx_payload seg ++ drop (n + k) rest).
Proof.
  intros -> Hp Hn Hk Hr. pose proof (encoded_len_wire _ opts_count) as Ew.
  rewrite write_tcp_wire by done.
  rewrite app_assoc, write_opts_wire by (unfold tcp_wire_head; len_tac).
  cbn [mbind option_bind]. rewrite <- (app_assoc p).
  assert (E : (tcp_wire_head seg n ++ to_be16 0 ++ to_be16 0) ++ opts_wire (tx_options seg) ++
     drop (encoded_len (tx_options seg)) (drop 20 rest) =
     tcp_wire seg n 0 ++ drop n rest).
  { unfold tcp_wire. rewrite drop_drop, <- !app_assoc. by rewrite Hn. }
  rewrite E, app_assoc. rewrite copy_at_app_eq by (rewrite length_app, length_tcp_wire; unfold tcp_hdr_len_of, TCP_HDR_MIN; lia).
  rewrite drop_drop, <- Hk, <- !app_assoc.
  rewrite get_slice_some by
    (rewrite !length_app, length_drop, length_tcp_wire; unfold tcp_hdr_len_of, TCP_HDR_MIN; lia).
  cbn [mbind option_bind].
  rewrite slice_app_mid by (rewrite ?length_tcp_wire; unfold tcp_hdr_len_of, TCP_HDR_MIN; lia). f_equal.
  generalize (csum (tcp_wire seg n 0)) as c. intros c. unfold tcp_wire. change (to_be16 0) with [0; 0] at 1.
  rewrite <- (app_assoc (tcp_wire_head seg n)), app_assoc. cbn [app].
  rewrite write_csum_mid by (unfold tcp_wire_head; len_tac). by rewrite <- !app_assoc.
Qed.

(** The builder writes exactly the wire format, for any payload whose bytes it
    is told to fold into the checksum. *)
Lemma build_segment_inner_wire pl out :
  ip_total_of seg pl <= U16_MAX ->
  let n := (34 + (tcp_hdr_len_of seg + length (tx_payload seg)))%nat in
  (n <= length out)%nat ->
  build_segment_inner seg pl (u32 (zlen pl)) out =
    Some (Some (n, frame_headers seg pl ++ tx_payload seg ++ drop n out)).
Proof.
  intros Htot n Hn. unfold build_segment_inner.
  destruct (build_lengths pl Htot) as (-> & -> & -> & Hu).
  set (k := encoded_len (tx_options seg)).
  change (TCP_HDR_MIN + k)%nat with (tcp_hdr_len_of seg).
  change (ETH_HDR_LEN + IPV4_HDR_MIN + tcp_hdr_len_of seg + length (tx_payload seg))%nat with n.
  rewrite (proj2 (Nat.ltb_ge _ _)), (proj2 (Z.ltb_ge _ _)) by (exact Htot || exact Hn).
  rewrite write_eth_wire by lia.
  pose proof (ip_part (eth_wire seg) (ip_total_of seg pl) (drop 14 out) length_eth_wire) as Hip.
  rewrite length_drop in Hip. specialize (Hip ltac:(lia)).
  change ETH_HDR_LEN with 14%nat. change (14 + IPV4_HDR_MIN)%nat with 34%nat.
  change (14 + 10)%nat with 24%nat. change (34 + TCP_HDR_MIN)%nat with 54%nat.
  change (34 + 16)%nat with 50%nat.
  apply bind_ret_inv in Hip as (h & Eh & Eo). rewrite Eh. cbn [mbind option_bind]. rewrite Eo.
  set (p := eth_wire seg ++ ip_wire seg (ip_total_of seg pl) (ip_csum_of seg (ip_total_of seg pl))).
  rewrite (app_assoc (eth_wire seg)). fold p. set (q := (34 + tcp_hdr_len_of seg)%nat).
  pose proof (tcp_part p (tcp_hdr_len_of seg) (length (tx_payload seg)) q
    (fun h => tcp_checksum_split (tx_src_ip seg) (tx_dst_ip seg)
      (Z.of_nat (tcp_hdr_len_of seg) + zlen pl) h pl) (drop 20 (drop 14 out))) as Ht.
  rewrite !length_drop in Ht.
  specialize (Ht eq_refl ltac:(unfold p; rewrite length_app, length_eth_wire, length_ip_wire; lia)
    eq_refl eq_refl ltac:(lia)). fold k in Ht.
  apply bind_inv in Ht as (o & Eo' & Ht). apply bind_ret_inv in Ht as (th & Et & Ec).
  rewrite Eo'. cbn [mbind option_bind]. rewrite Et. cbn [mbind option_bind]. rewrite Ec.
  do 3 f_equal. unfold frame_headers, p, tcp_csum_of. rewrite !drop_drop, <- !app_assoc. reflexivity.
Qed.
End build.

(** ** Totality *)

(** The builders never panic: what they need is six-byte addresses and as many SACK
    blocks as the options claim. *)
Record seg_shape (seg : SegmentTx) : Prop := {
  shape_src : length (tx_src_mac seg) = 6%nat;
  shape_dst : length (tx_dst_mac seg) = 6%nat;
  shape_sack : (sack_block_count (tx_options seg) <= length (sack_blocks (tx_options seg)))%nat
}.

Lemma copy_keeps_length n i b out : length out = n -> (i + length b <= n)%nat -> length (copy_at i b out) = n.
Proof. intros <-. apply length_copy_at. Qed.

(** The length of a chain of writes. *)
Ltac length_writes :=
  unfold set_byte; repeat (apply copy_keeps_length; [|rewrite ?length_to_be16, ?length_to_be32; cbn [length]; lia]).

Lemma length_write_eth seg out : seg_shape seg -> (14 <= length out)%nat -> length (write_eth seg out) = length out.
Proof. intros [Hs Hd _] H. unfold write_eth. length_writes. done. Qed.

Lemma length_write_ip seg i t out : (i + 20 <= length out)%nat -> length (write_ip seg i t out) = length out.
Proof. intros H. unfold write_ip. length_writes. done. Qed.

Lemma length_write_tcp seg i n out : (i + 20 <= length out)%nat -> length (write_tcp seg i n out) = length out.
Proof. intros H. unfold write_tcp. length_writes. done. Qed.

Lemma length_write_csum i c out : (i + 2 <= length out)%nat -> length (write_csum i c out) = length out.
Proof. intros H. unfold write_csum. length_writes. done. Qed.

Lemma write_opts_total seg i out : seg_shape seg -> (i + encoded_len (tx_options seg) <= length out)%nat ->
  exists out', write_opts seg i (encoded_len (tx_options seg)) out = Some out' /\ length out' = length out.
Proof.
  intros [_ _ Hc] H. unfold write_opts. destruct (Nat.ltb_spec 0 (encoded_len (tx_options seg))); [|eauto].
  rewrite get_slice_some by lia. cbn [mbind option_bind].
  rewrite encode_exact by (done || rewrite length_slice; lia). cbn [mbind option_bind snd].
  eexists. split; [done|]. apply length_copy_at.
  pose proof (encoded_len_wire _ Hc). rewrite length_app, length_drop, length_slice by lia. lia.
Qed.

Lemma build_inner_total seg pl n out : seg_shape seg ->
  exists r, build_segment_inner seg pl n out = Some r /\
    forall k buf, r = Some (k, buf) -> length buf = length out /\ (54 <= k <= length out)%nat /\
      k = (34 + tcp_hdr_len_of seg + length (tx_payload seg))%nat.
Proof.
  intros Hs. unfold build_segment_inner.
  destruct (Nat.ltb_spec (length out)
    (ETH_HDR_LEN + IPV4_HDR_MIN + (TCP_HDR_MIN + encoded_len (tx_options seg)) + length (tx_payload seg))); [by eexists|].
  destruct (U16_MAX <? _); [by eexists|].
  unfold ETH_HDR_LEN, IPV4_HDR_MIN, TCP_HDR_MIN, tcp_hdr_len_of, TCP_HDR_MIN in *.
  set (k := encoded_len (tx_options seg)) in *.
  set (w1 := write_ip seg 14 _ _). assert (L1 : length w1 = length out)
    by (unfold w1; rewrite length_write_ip; rewrite length_write_eth; done || lia).
  rewrite get_slice_some by lia. cbn [mbind option_bind].
  set (w2 := write_tcp seg _ _ _). assert (L2 : length w2 = length out)
    by (unfold w2; rewrite length_write_tcp; rewrite length_write_csum; lia).
  destruct (write_opts_total seg (14 + 20 + 20) w2 Hs) as (w3 & E3 & L3); [fold k; lia|].
  fold k in E3. rewrite E3. cbn [mbind option_bind].
  rewrite get_slice_some by (rewrite length_copy_at; lia). cbn [mbind option_bind].
  eexists. split; [reflexivity|]. intros k' buf [= <- <-]. rewrite length_write_csum by (rewrite length_copy_at; lia).
  rewrite length_copy_at by lia. split_and!; lia.
Qed.

Lemma build_segment_total seg out : seg_shape seg ->
  exists r, build_segment seg out = Some r /\ forall k buf, r = Some (k, buf) ->
    length buf = length out /\ (54 <= k <= length out)%nat /\ k = (34 + tcp_hdr_len_of seg + length (tx_payload seg))%nat.
Proof. apply build_inner_total. Qed.

(** The only refusals: a short buffer and a datagram beyond 16 bits. *)
Lemma build_segment_fits seg out : (34 + tcp_hdr_len_of seg + length (tx_payload seg) <= length out)%nat ->
  Z.of_nat (20 + tcp_hdr_len_of seg + length (tx_payload seg)) <= U16_MAX -> build_segment seg out <> Some None.
Proof.
  unfold tcp_hdr_len_of, build_segment, build_segment_inner, ETH_HDR_LEN, IPV4_HDR_MIN, U16_MAX. intros H1 H2.
  destruct (Nat.ltb_spec (length out) (14 + 20 + (TCP_HDR_MIN + encoded_len (tx_options seg)) + length (tx_payload seg))); [lia|].
  unfold zlen. rewrite !u32_id, wadd32_id by width_lia. destruct (Z.ltb_spec 65535 (Z.of_nat (20 + (TCP_HDR_MIN + encoded_len (tx_options seg))) +
    Z.of_nat (length (tx_payload seg)))); [lia|].
  intros E. repeat match type of E with
  | context [mbind _ ?m] => destruct m; cbn [mbind option_bind] in E; [|discriminate E]
  end. discriminate E.
Qed.

Lemma build_retrans_total seg pl out : seg_shape seg ->
  exists r, build_retrans_header seg pl out = Some r /\ forall k buf, r = Some (k, buf) ->
    length buf = length out /\ (54 <= k <= length out)%nat /\ k = (34 + tcp_hdr_len_of seg + length (tx_payload seg))%nat.
Proof. intros H. unfold build_retrans_header. destruct (_ <? _); [by eexists|by apply build_inner_total]. Qed.

(** ** Properties *)

(** What a successful build says of the segment, and the frame it leaves. *)
Lemma build_inner_sent seg pl out n buf : seg_wf seg -> zlen pl < two31 -> (encoded_len (tx_options seg) <= 40)%nat ->
  build_segment_inner seg pl (u32 (zlen pl)) out = Some (Some (n, buf)) ->
  ip_total_of seg pl <= U16_MAX /\ n = (34 + tcp_hdr_len_of seg + length (tx_payload seg))%nat /\
  take n buf = frame_headers seg pl ++ tx_payload seg.
Proof.
  intros Hwf Hl Ho E. assert (Hfit : ip_total_of seg pl <= U16_MAX /\
    (34 + (tcp_hdr_len_of seg + length (tx_payload seg)) <= length out)%nat).
  { unfold build_segment_inner in E. unfold ip_total_of, tcp_hdr_len_of, ETH_HDR_LEN, IPV4_HDR_MIN, TCP_HDR_MIN in *.
    destruct (Nat.ltb_spec (length out) (14 + 20 + (20 + encoded_len (tx_options seg)) + length (tx_payload seg))) as [|Hb]; [discriminate E|].
    pose proof (zlen_nonneg pl).
    rewrite !u32_id, wadd32_id in E by (unfold is_u32, two31, two32 in *; lia).
    destruct (Z.ltb_spec U16_MAX (Z.of_nat (20 + (20 + encoded_len (tx_options seg))) + zlen pl)) as [|Ht]; [discriminate E|].
    split; lia. }
  destruct Hfit as [Ht Hb]. pose proof (build_segment_inner_wire seg Hwf pl out Ht Hb) as E'.
  cbv zeta in E'. rewrite E' in E. set (k := (34 + _)%nat) in E.
  assert (k = (34 + tcp_hdr_len_of seg + length (tx_payload seg))%nat) as Ek by apply Nat.add_assoc. clearbody k.
  injection E as <- <-. split; [done|]. split; [done|]. rewrite app_assoc. apply take_app_length'.
  unfold frame_headers. rewrite !length_app, length_eth_wire, length_tcp_wire, length_ip_wire by done. rewrite Ek. lia.
Qed.

Lemma build_segment_sent seg out n buf : seg_wf seg -> zlen (tx_payload seg) < two31 -> (encoded_len (tx_options seg) <= 40)%nat ->
  build_segment seg out = Some (Some (n, buf)) ->
  ip_total_of seg (tx_payload seg) <= U16_MAX /\ n = (34 + tcp_hdr_len_of seg + length (tx_payload seg))%nat /\
  take n buf = frame_headers seg (tx_payload seg) ++ tx_payload seg.
Proof. apply build_inner_sent. Qed.

(** A header alone, the payload lying elsewhere. *)
Lemma build_retrans_sent seg pl out n buf : seg_wf seg -> tx_payload seg = [] -> (encoded_len (tx_options seg) <= 40)%nat ->
  build_retrans_header seg pl out = Some (Some (n, buf)) ->
  ip_total_of seg pl <= U16_MAX /\ take n buf = frame_headers seg pl.
Proof.
  intros Hwf Hp Ho E. unfold build_retrans_header in E. destruct (Z.ltb_spec U16_MAX (zlen pl)) as [|Hl]; [discriminate E|].
  destruct (build_inner_sent seg pl out n buf Hwf ltac:(width_lia) Ho E) as (Ht & _ & Eb).
  split; [done|]. by rewrite Eb, Hp, app_nil_r.
Qed.

(** The headers depend on the payload only through the bytes that are folded. *)
Lemma ip_wire_payload seg p t c : ip_wire (seg <| tx_payload := p |>) t c = ip_wire seg t c.
Proof. reflexivity. Qed.
Lemma tcp_wire_payload seg p n c : tcp_wire (seg <| tx_payload := p |>) n c = tcp_wire seg n c.
Proof. reflexivity. Qed.
Lemma tcp_hdr_len_of_payload seg p : tcp_hdr_len_of (seg <| tx_payload := p |>) = tcp_hdr_len_of seg.
Proof. reflexivity. Qed.
Lemma frame_headers_payload seg pl p : frame_headers (seg <| tx_payload := p |>) pl = frame_headers seg pl.
Proof.
  unfold frame_headers, ip_total_of, ip_csum_of, tcp_csum_of.
  rewrite !tcp_hdr_len_of_payload, !ip_wire_payload, !tcp_wire_payload. f_equal.
Qed.

Lemma length_frame_headers seg pl : seg_wf seg ->
  length (frame_headers seg pl) = (34 + tcp_hdr_len_of seg)%nat.
Proof.
  intros H. unfold frame_headers.
  rewrite !length_app, length_eth_wire, length_tcp_wire, length_ip_wire by done. lia.
Qed.

(** The header built for a retransmission is byte for byte the header that
    the original transmission of the same segment carried: for a payload [p]
    held in another buffer, [build_retrans_header] writes the first [n] bytes of
    the frame [build_segment] writes with [p] inline, checksums included, and
    both leave the rest of their buffer alone. *)
Theorem retrans_header_is_prefix (seg : SegmentTx) (p out out' : list Z)
    (Hwf : seg_wf seg) (Hnil : tx_payload seg = []) (Hp : is_bytes p)
    (Htot : ip_total_of seg p <= U16_MAX)
    (Hlen : (34 + tcp_hdr_len_of seg <= length out)%nat)
    (Hlen' : (34 + tcp_hdr_len_of seg + length p <= length out')%nat) :
  exists hdr, length hdr = (34 + tcp_hdr_len_of seg)%nat /\
    build_retrans_header seg p out =
      Some (Some (length hdr, hdr ++ drop (length hdr) out)) /\
    build_segment (seg <| tx_payload := p |>) out' =
      Some (Some ((length hdr + length p)%nat, hdr ++ p ++ drop (length hdr + length p) out')).
Proof.
  exists (frame_headers seg p). rewrite length_frame_headers by done. split; [done|]. split.
  - unfold build_retrans_header. rewrite (proj2 (Z.ltb_ge _ _)).
    + rewrite build_segment_inner_wire by (done || rewrite ?Hnil; cbn [length]; lia).
      rewrite Hnil. cbn [length]. by rewrite Nat.add_0_r.
    + unfold ip_total_of in Htot. lia.
  - assert (Hwf' : seg_wf (seg <| tx_payload := p |>)) by (destruct Hwf; by split).
    pose proof (build_segment_inner_wire _ Hwf' p out') as E.
    rewrite tcp_hdr_len_of_payload, frame_headers_payload in E.
    change (tx_payload (seg <| tx_payload := p |>)) with p in E.
    unfold build_segment. change (tx_payload (seg <| tx_payload := p |>)) with p.
    rewrite E; [|exact Htot|lia]. by rewrite Nat.add_assoc.
Qed.

(** An ACK with a timestamp and two SACK blocks. *)
Definition sample_segment (payload : list Z) : SegmentTx :=
  mkSegmentTx [2;0;0;0;0;1] [2;0;0;0;0;2] 0x0a000001 0x0a000002 4000 80 1000 2000
    (Z.lor TCP_ACK TCP_PSH) 512
    (mkTcpOpts None None false (Some (7, 9))
       [mkSackBlock 3000 3100; mkSackBlock 3200 3300; mkSackBlock 0 0; mkSackBlock 0 0] 2 false)
    payload.

Lemma sample_segment_wf payload : is_bytes payload -> seg_wf (sample_segment payload).
Proof.
  intros H. split; unfold sample_segment; cbn [tx_src_mac tx_dst_mac tx_src_ip tx_dst_ip tx_src_port
    tx_dst_port tx_seq tx_ack tx_flags tx_window tx_options tx_payload].
  - split; [|reflexivity]. repeat constructor; cbv; discriminate.
  - split; [|reflexivity]. repeat constructor; cbv; discriminate.
  - split; width_lia.
  - split; width_lia.
  - split; width_lia.
  - cbv. split; [discriminate|reflexivity].
  - width_lia.
  - split; [|reflexivity]. split; cbn; try (intros; simplify_eq; width_lia); try reflexivity; try lia.
    + unfold MAX_SACK_BLOCKS_DECODE. lia.
    + repeat apply Forall_cons_2; try apply Forall_nil_2; split; cbn; width_lia.
    + intros i Hi. do 2 (destruct i as [|i]; [lia|]). do 2 (destruct i as [|i]; [reflexivity|]). lia.
  - exact H.
Defined.

Lemma retrans_header_is_prefix_witness :
  exists hdr, length hdr = 86%nat /\
    build_retrans_header (sample_segment []) [1;2;3] (replicate 128 0) =
      Some (Some (length hdr, hdr ++ drop (length hdr) (replicate 128 0))) /\
    build_segment ((sample_segment []) <| tx_payload := [1;2;3] |>) (replicate 200 0) =
      Some (Some ((length hdr + length [1;2;3])%nat,
        hdr ++ [1;2;3] ++ drop (length hdr + length [1;2;3]) (replicate 200 0))).
Proof.
  apply (retrans_header_is_prefix (sample_segment []) [1;2;3] (replicate 128 0) (replicate 200 0)).
  - apply sample_segment_wf. constructor.
  - reflexivity.
  - repeat constructor; cbv; discriminate.
  - vm_compute. discriminate.
  - vm_compute. repeat constructor.
  - vm_compute. repeat constructor.
Defined.
