(* ===== verification/Segment.v ===== *)
(** * Parsing an inbound TCP segment: the front of tcp_input.rs

    [parse_segment] from the IPv4 payload, and the end-to-end round trip with
    the builders of [Output]. *)

From S2P Require Import Prelude.
From S2P Require Import Bytes.
From S2P Require Import Options.
From S2P Require Import Ip.
From S2P Require Import Output.

Record ParsedSegment := mkParsedSegment {
  ps_src_port : Z;
  ps_dst_port : Z;
  ps_seq : Z;
  ps_ack : Z;
  ps_flags : Z;
  ps_window : Z;
  ps_header_len : nat;
  ps_payload : list Z;
  ps_options : list Z
}.

#[export] Instance ParsedSegment_eta : Settable ParsedSegment := fun s =>
  mkParsedSegment (ps_src_port s) (ps_dst_port s) (ps_seq s) (ps_ack s) (ps_flags s) (ps_window s)
    (ps_header_len s) (ps_payload s) (ps_options s).

Inductive TcpParseError := TpShort | TpBadDataOffset | TpBadFlags | TpCsum.

(** The flag combinations refused: SYN with FIN, SYN with RST. *)
Definition bad_flags (flags : Z) : bool :=
  (has_flag flags TCP_SYN && has_flag flags TCP_FIN) ||
  (has_flag flags TCP_RST && has_flag flags TCP_SYN).

(** The software check: pseudo-header, the header up to the checksum field, two
    zero bytes, and the rest. *)
Definition tcp_csum_matches (tcp_bytes : list Z) (src_ip dst_ip : Z) : option bool :=
  stored ← read_be16 tcp_bytes 16;
  head ← get_slice 0 16 tcp_bytes;
  tail ← get_slice 18 (length tcp_bytes) tcp_bytes;
  Some (internet_checksum
    [pseudo_header src_ip dst_ip (zlen tcp_bytes); head; [0; 0]; tail] =? stored).

Definition parse_segment (tcp_bytes : list Z) (src_ip dst_ip : Z) (nic_csum_ok : bool)
  : option (result ParsedSegment TcpParseError) :=
  if (length tcp_bytes <? 20)%nat then Some (Err TpShort) else
  src_port ← read_be16 tcp_bytes 0;
  dst_port ← read_be16 tcp_bytes 2;
  seq ← read_be32 tcp_bytes 4;
  ack ← read_be32 tcp_bytes 8;
  b12 ← tcp_bytes !! 12%nat;
  let data_off_words := Z.to_nat (Z.shiftr b12 4) in
  if (data_off_words <? 5)%nat then Some (Err TpBadDataOffset) else
  let header_len := (data_off_words * 4)%nat in
  if (length tcp_bytes <? header_len)%nat then Some (Err TpBadDataOffset) else
  flags ← tcp_bytes !! 13%nat;
  if bad_flags flags then Some (Err TpBadFlags) else
  window ← read_be16 tcp_bytes 14;
  options ← get_slice 20 header_len tcp_bytes;
  payload ← get_slice header_len (length tcp_bytes) tcp_bytes;
  csum_ok ← (if nic_csum_ok then Some true else tcp_csum_matches tcp_bytes src_ip dst_ip);
  if negb csum_ok then Some (Err TpCsum) else
  Some (Ok (mkParsedSegment src_port dst_port seq ack flags window header_len payload options)).

(** What a parsed segment satisfies, whatever the bytes. *)
Record segment_wf (s : ParsedSegment) : Prop := {
  sgw_ports : is_u16 (ps_src_port s) /\ is_u16 (ps_dst_port s);
  sgw_seq : is_u32 (ps_seq s);
  sgw_ack : is_u32 (ps_ack s);
  sgw_flags : is_u8 (ps_flags s) /\ bad_flags (ps_flags s) = false;
  sgw_window : is_u16 (ps_window s);
  sgw_payload : is_bytes (ps_payload s);
  sgw_options : is_bytes (ps_options s) /\ length (ps_options s) = (ps_header_len s - 20)%nat;
  sgw_header : (20 <= ps_header_len s <= 60)%nat
}.

Lemma has_flag_sym flags b1 b2 : has_flag flags b1 && has_flag flags b2 = has_flag flags b2 && has_flag flags b1.
Proof. apply andb_comm. Qed.

Lemma tcp_csum_gate bytes s d (nic : bool) : (20 <= length bytes)%nat ->
  exists ok, (if nic then Some true else tcp_csum_matches bytes s d) = Some ok.
Proof.
  intros H. destruct nic; [eauto|]. unfold tcp_csum_matches.
  destruct (read_be16_some bytes 16 ltac:(lia)) as [v ->].
  rewrite !get_slice_some by lia. cbn. eauto.
Qed.

Lemma parse_segment_spec (bytes : list Z) (src_ip dst_ip : Z) (nic : bool) (Hb : is_bytes bytes) :
  exists r, parse_segment bytes src_ip dst_ip nic = Some r /\
    forall s, r = Ok s -> segment_wf s /\
      (ps_header_len s + length (ps_payload s) = length bytes)%nat.
Proof.
  unfold parse_segment. destruct (Nat.ltb_spec (length bytes) 20) as [|L]; [by eexists|].
  destruct (read_be16_some bytes 0 ltac:(lia)) as [sp Esp], (read_be16_some bytes 2 ltac:(lia)) as [dp Edp],
    (read_be32_some bytes 4 ltac:(lia)) as [sq Esq], (read_be32_some bytes 8 ltac:(lia)) as [ak Eak],
    (lookup_some bytes 12 ltac:(lia)) as [b12 E12], (lookup_some bytes 13 ltac:(lia)) as [fl Efl],
    (read_be16_some bytes 14 ltac:(lia)) as [wn Ewn].
  rewrite Esp, Edp, Esq, Eak, E12. cbn [mbind option_bind].
  assert (Hd : (Z.to_nat (Z.shiftr b12 4) <= 15)%nat).
  { pose proof (is_bytes_lookup _ _ _ Hb E12). rewrite Z.shiftr_div_pow2 by lia.
    change (2 ^ 4) with 16. div_lia. }
  set (w := Z.to_nat (Z.shiftr b12 4)) in *. clearbody w.
  destruct (Nat.ltb_spec w 5) as [|W5]; [by eexists|].
  destruct (Nat.ltb_spec (length bytes) (w * 4)) as [|WL]; [by eexists|].
  rewrite Efl, Ewn. cbn [mbind option_bind].
  destruct (bad_flags fl) eqn:Ebf; [by eexists|].
  rewrite !get_slice_some by lia. cbn [mbind option_bind].
  destruct (tcp_csum_gate bytes src_ip dst_ip nic L) as [ok ->]. cbn [mbind option_bind].
  destruct ok; cbn [negb]; [|by eexists].
  eexists. split; [done|]. intros s [= <-]. split.
  - pose proof (is_bytes_lookup _ _ _ Hb Efl).
    split; cbn; eauto using is_bytes_slice, read_be16_range, read_be32_range.
    + rewrite length_slice by lia. eauto using is_bytes_slice.
    + lia.
  - cbn. rewrite length_slice by lia. lia.
Qed.

(** C39. Parsing never reads out of bounds; an accepted segment is well formed:
    fields of their widths, a header of 20 to 60 bytes, no refused flag
    combination, and header plus payload account for every byte. *)
Theorem parse_segment_sound (bytes : list Z) (src_ip dst_ip : Z) (nic : bool) (Hb : is_bytes bytes) :
  exists r, parse_segment bytes src_ip dst_ip nic = Some r /\
    forall s, r = Ok s -> segment_wf s /\
      (ps_header_len s + length (ps_payload s) = length bytes)%nat.
Proof. exact (parse_segment_spec bytes src_ip dst_ip nic Hb). Qed.

(** ** Decoding what the builder wrote *)

Section decode.
Context (seg : SegmentTx) (Hwf : seg_wf seg).

Lemma is_bytes_ip_wire t : is_bytes (ip_wire seg t 0).
Proof. unfold ip_wire, IPPROTO_TCP. bytes_tac; width_lia. Qed.

Lemma is_bytes_opts_wire : is_bytes (opts_wire (tx_options seg)).
Proof.
  destruct (swf_options _ Hwf) as [W _].
  unfold opts_wire, mss_wire, wscale_wire, sackp_ts_wire, sack_wire, OPT_MSS, OPT_NOP, OPT_WSCALE,
    OPT_SACK_PERMITTED, OPT_TIMESTAMP, OPT_SACK.
  repeat apply Forall_app_2.
  - destruct (mss _); [|constructor]. bytes_tac; width_lia.
  - destruct (wscale _) eqn:E; [|constructor]. pose proof (wf_wscale _ W _ E). bytes_tac; width_lia.
  - destruct (sack_permitted _), (timestamps _) as [[]|]; bytes_tac; try width_lia; constructor.
  - destruct (0 <? _)%nat; [|constructor]. bytes_tac; try width_lia.
    unfold blocks_wire. apply Forall_concat, Forall_map, Forall_true. intros b. bytes_tac.
Qed.

Lemma is_bytes_tcp_wire n : is_bytes (tcp_wire seg n 0).
Proof.
  pose proof is_bytes_opts_wire. pose proof (swf_flags _ Hwf).
  unfold tcp_wire, tcp_wire_head. generalize dependent (opts_wire (tx_options seg)). intros w Hw.
  bytes_tac.
Qed.

Lemma ip_csum_u16 t : is_u16 (ip_csum_of seg t).
Proof.
  unfold ip_csum_of. apply internet_checksum_range; rewrite concat_cons, app_nil_r.
  - apply is_bytes_ip_wire.
  - unfold zlen. rewrite length_ip_wire. lia.
Qed.

Lemma ip_decode_wire t T our_ip : is_u16 t -> Z.to_nat t = (20 + length T)%nat ->
  our_ip = 0 \/ our_ip = tx_dst_ip seg ->
  ip_decode (ip_wire seg t (ip_csum_of seg t) ++ T) our_ip false =
    Some (Ok (mkL3Decoded IPPROTO_TCP (tx_src_ip seg) (tx_dst_ip seg) 20 (Z.to_nat t) 64)).
Proof.
  intros Ht HT Hip. pose proof (ip_csum_u16 t) as Hc. set (c := ip_csum_of seg t) in *.
  destruct (swf_ips _ Hwf) as [Hs Hd].
  set (p := [0x45; 0] ++ to_be16 t ++ [0; 0; 0x40; 0; 64; IPPROTO_TCP]).
  set (rest := to_be32 (tx_src_ip seg) ++ to_be32 (tx_dst_ip seg)).
  assert (E : ip_wire seg t c ++ T = p ++ (c / 256) mod 256 :: c mod 256 :: rest ++ T).
  { unfold ip_wire, p, rest. rewrite <- !app_assoc. reflexivity. }
  assert (Elen : length (ip_wire seg t c ++ T) = (20 + length T)%nat) by (rewrite length_app; done).
  assert (Ecs : ip_csum_matches (ip_wire seg t c ++ T) 20 = Some true).
  { rewrite E, ip_csum_matches_split by (done || lia). f_equal. rewrite from_to_be16 by done.
    replace (p ++ 0 :: 0 :: rest) with (ip_wire seg t 0)
      by (unfold ip_wire, p, rest; rewrite <- !app_assoc; reflexivity).
    unfold c, ip_csum_of. apply Z.eqb_refl. }
  clearbody c.
  assert (E2 : read_be16 (ip_wire seg t c ++ T) 2 = Some t).
  { rewrite E. apply (read_be16_at _ 2 [0x45; 0] t ([0; 0; 0x40; 0; 64; IPPROTO_TCP] ++
      (c / 256) mod 256 :: c mod 256 :: rest ++ T)); [|done..]. unfold p. by rewrite <- !app_assoc. }
  assert (E12 : read_be32 (ip_wire seg t c ++ T) 12 = Some (tx_src_ip seg)).
  { rewrite E. apply (read_be32_at _ 12 (p ++ [(c / 256) mod 256; c mod 256]) (tx_src_ip seg)
      (to_be32 (tx_dst_ip seg) ++ T)); [|done..]. unfold rest. by rewrite <- !app_assoc. }
  assert (E16 : read_be32 (ip_wire seg t c ++ T) 16 = Some (tx_dst_ip seg)).
  { rewrite E. apply (read_be32_at _ 16 (p ++ [(c / 256) mod 256; c mod 256] ++ to_be32 (tx_src_ip seg))
      (tx_dst_ip seg) T); [|done..]. unfold rest. by rewrite <- !app_assoc. }
  unfold ip_decode. rewrite Elen.
  rewrite (proj2 (Nat.ltb_ge _ _)) by lia.
  change ((ip_wire seg t c ++ T) !! 0%nat) with (Some 0x45).
  change ((ip_wire seg t c ++ T) !! 8%nat) with (Some 64).
  change ((ip_wire seg t c ++ T) !! 9%nat) with (Some IPPROTO_TCP).
  change (read_be16 (ip_wire seg t c ++ T) 6) with (Some 0x4000).
  cbn [mbind option_bind].
  change (negb (Z.shiftr 69 4 =? 4)) with false. change (Z.to_nat (Z.land 69 15)) with 5%nat.
  change (5 * 4)%nat with 20%nat. change (5 <? 5)%nat with false. cbn [orb].
  rewrite (proj2 (Nat.ltb_ge (20 + length T) 20)), E2 by lia. cbn [mbind option_bind].
  rewrite (proj2 (Nat.ltb_ge (Z.to_nat t) 20)), (proj2 (Nat.ltb_ge (20 + length T) (Z.to_nat t))) by lia.
  cbn [orb]. change (negb (Z.land 0x4000 0x2000 =? 0) || negb (Z.land 0x4000 0x1fff =? 0)) with false.
  change (64 =? 0) with false. cbv iota beta.
  rewrite Ecs. cbn [mbind option_bind negb]. rewrite E12, E16. cbn [mbind option_bind].
  change (negb (IPPROTO_TCP =? IPPROTO_TCP)) with false. cbn [andb].
  destruct Hip as [->| ->]; [reflexivity|].
  rewrite Z.eqb_refl, andb_false_r. reflexivity.
Qed.

Lemma encoded_len_words : (encoded_len (tx_options seg) mod 4 = 0)%nat.
Proof.
  unfold encoded_len, LEN_MSS, LEN_WSCALE, LEN_SACK_PERMITTED, LEN_TIMESTAMP.
  set (b := sack_block_count (tx_options seg)). clearbody b. apply Nat.Lcm0.mod_divide.
  destruct (mss _), (wscale _), (sack_permitted _), (timestamps _), (0 <? b)%nat;
    match goal with |- Nat.divide 4 ?e =>
      let f := eval pattern b in e in
      match f with ?g _ => let q := eval vm_compute in (g 0%nat / 4)%nat in
        first [exists (q + 2 * b)%nat; lia | exists q; lia] end
    end.
Qed.

Lemma data_offset_byte n : (20 <= n <= 60)%nat -> (n mod 4 = 0)%nat ->
  Z.shiftr (u8 (Z.shiftl (u8 (Z.of_nat (n / 4))) 4)) 4 = Z.of_nat (n / 4).
Proof.
  intros H _. rewrite Z.shiftr_div_pow2, Z.shiftl_mul_pow2 by lia. change (2 ^ 4) with 16.
  assert (5 <= n / 4 <= 15)%nat.
  { split; [apply Nat.div_le_lower_bound; lia|]. apply Nat.lt_succ_r, Nat.Div0.div_lt_upper_bound. lia. }
  unfold u8, two8. rewrite (Z.mod_small (Z.of_nat _)) by lia.
  rewrite Z.mod_small by lia. apply Z.div_mul. lia.
Qed.

Lemma tcp_csum_u16 pl : is_bytes pl -> zlen pl <= U16_MAX -> (tcp_hdr_len_of seg <= 60)%nat ->
  is_u16 (tcp_csum_of seg pl).
Proof.
  intros Hb Hl Hh. unfold tcp_csum_of, tcp_checksum_split. apply internet_checksum_range; cbn [concat];
    rewrite app_nil_r, pseudo_header_wire.
  - pose proof (is_bytes_tcp_wire (tcp_hdr_len_of seg)). generalize dependent (tcp_wire seg (tcp_hdr_len_of seg) 0).
    intros w Hw. unfold IPPROTO_TCP. bytes_tac; width_lia.
  - unfold zlen in *. rewrite !length_app, length_tcp_wire, !length_to_be32, length_to_be16 by done.
    cbn [length]. width_lia.
Qed.

Lemma tcp_csum_matches_split head a b tail s d : length head = 16%nat ->
  tcp_csum_matches (head ++ a :: b :: tail) s d =
    Some (internet_checksum [pseudo_header s d (18 + zlen tail) ++ head ++ 0 :: 0 :: tail] =? from_be16 a b).
Proof.
  intros H. unfold tcp_csum_matches. rewrite read_be16_split by done.
  assert (El : length (head ++ a :: b :: tail) = (18 + length tail)%nat) by (rewrite length_app; cbn; lia).
  rewrite !get_slice_some by lia. cbn [mbind option_bind].
  rewrite internet_checksum_concat. do 3 f_equal.
  replace (zlen (head ++ a :: b :: tail)) with (18 + zlen tail) by (unfold zlen; lia).
  assert (E1 : slice 0 16 (head ++ a :: b :: tail) = head).
  { unfold slice. rewrite drop_0. apply take_app_length'. lia. }
  assert (E2 : slice 18 (length (head ++ a :: b :: tail)) (head ++ a :: b :: tail) = tail).
  { unfold slice. change (head ++ a :: b :: tail) with (head ++ [a; b] ++ tail).
    rewrite app_assoc, drop_app_length' by (rewrite length_app; cbn; lia).
    apply take_ge. rewrite !length_app. cbn. lia. }
  rewrite E1, E2. cbn [concat app]. by rewrite app_nil_r.
Qed.

Lemma parse_segment_wire pl :
  is_bytes pl -> ip_total_of seg pl <= U16_MAX -> (encoded_len (tx_options seg) <= 40)%nat ->
  bad_flags (tx_flags seg) = false ->
  parse_segment (tcp_wire seg (tcp_hdr_len_of seg) (tcp_csum_of seg pl) ++ pl)
    (tx_src_ip seg) (tx_dst_ip seg) false =
  Some (Ok (mkParsedSegment (tx_src_port seg) (tx_dst_port seg) (tx_seq seg) (tx_ack seg)
    (tx_flags seg) (tx_window seg) (tcp_hdr_len_of seg) pl (opts_wire (tx_options seg)))).
Proof.
  intros Hpl Htot Hopt Hbf.
  assert (Hz : zlen pl <= U16_MAX) by (unfold ip_total_of in Htot; lia).
  assert (Hn : tcp_hdr_len_of seg = (20 + encoded_len (tx_options seg))%nat) by reflexivity.
  pose proof (tcp_csum_u16 pl Hpl Hz ltac:(lia)) as Hc.
  pose proof (encoded_len_wire _ (opts_count seg Hwf)) as Ew.
  destruct (swf_ports _ Hwf) as [Hsp Hdp], (swf_seqs _ Hwf) as [Hsq Hak].
  pose proof (swf_window _ Hwf) as Hwn.
  set (n := tcp_hdr_len_of seg) in *.
  assert (H4 : (n mod 4 = 0)%nat).
  { rewrite Hn. change (20 + encoded_len (tx_options seg))%nat with (5 * 4 + encoded_len (tx_options seg))%nat.
    rewrite Nat.add_comm, Nat.Div0.mod_add. apply encoded_len_words. }
  assert (Hoff : Z.to_nat (Z.shiftr (u8 (Z.shiftl (u8 (Z.of_nat (n / 4))) 4)) 4) = (n / 4)%nat)
    by (rewrite data_offset_byte by lia; apply Nat2Z.id).
  assert (Hn4 : (n / 4 * 4 = n)%nat) by (pose proof (Nat.div_mod_eq n 4); lia).
  set (c := tcp_csum_of seg pl) in *.
  set (bytes := tcp_wire seg n c ++ pl).
  set (tail := to_be16 0 ++ opts_wire (tx_options seg) ++ pl).
  assert (E : bytes = tcp_wire_head seg n ++ (c / 256) mod 256 :: c mod 256 :: tail).
  { unfold bytes, tcp_wire, tail. rewrite <- !app_assoc. reflexivity. }
  assert (Elen : length bytes = (n + length pl)%nat).
  { unfold bytes. by rewrite length_app, length_tcp_wire by done. }
  assert (Ecs : tcp_csum_matches bytes (tx_src_ip seg) (tx_dst_ip seg) = Some true).
  { rewrite E, tcp_csum_matches_split, from_to_be16 by done. f_equal. apply Z.eqb_eq.
    replace (18 + zlen tail) with (Z.of_nat n + zlen pl).
    2: { unfold tail, zlen. rewrite !length_app, length_to_be16. lia. }
    replace (tcp_wire_head seg n ++ 0 :: 0 :: tail) with (tcp_wire seg n 0 ++ pl)
      by (unfold tcp_wire, tail; rewrite <- !app_assoc; reflexivity).
    unfold c, tcp_csum_of, tcp_checksum_split. rewrite (internet_checksum_concat [pseudo_header _ _ _; _; _]).
    cbn [concat]. rewrite app_nil_r. fold n. reflexivity. }
  clearbody c.
  assert (Ehead : forall i, (i < 16)%nat -> bytes !! i = tcp_wire_head seg n !! i)
    by (intros i Hi; rewrite E; by rewrite lookup_app_l).
  assert (Esp : read_be16 bytes 0 = Some (tx_src_port seg)).
  { unfold read_be16. rewrite !Ehead by lia. cbn. by rewrite from_to_be16. }
  assert (Edp : read_be16 bytes 2 = Some (tx_dst_port seg)).
  { unfold read_be16. rewrite !Ehead by lia. cbn. by rewrite from_to_be16. }
  assert (Esq : read_be32 bytes 4 = Some (tx_seq seg)).
  { unfold read_be32. rewrite !Ehead by lia. cbn. by rewrite from_to_be32. }
  assert (Eak : read_be32 bytes 8 = Some (tx_ack seg)).
  { unfold read_be32. rewrite !Ehead by lia. cbn. by rewrite from_to_be32. }
  assert (Ewn : read_be16 bytes 14 = Some (tx_window seg)).
  { unfold read_be16. rewrite !Ehead by lia. cbn. by rewrite from_to_be16. }
  unfold parse_segment. rewrite Elen, Esp, Edp, Esq, Eak, Ewn, !Ehead by lia.
  rewrite (proj2 (Nat.ltb_ge _ _)) by lia. cbn [mbind option_bind].
  change (tcp_wire_head seg n !! 12%nat) with (Some (u8 (Z.shiftl (u8 (Z.of_nat (n / 4))) 4))).
  change (tcp_wire_head seg n !! 13%nat) with (Some (tx_flags seg)).
  cbn [mbind option_bind]. rewrite Hoff, Hn4, Hbf.
  rewrite (proj2 (Nat.ltb_ge (n / 4) 5)), (proj2 (Nat.ltb_ge (n + length pl) n)) by lia.
  rewrite !get_slice_some by lia. cbn [mbind option_bind]. rewrite Ecs. cbn [mbind option_bind negb].
  do 3 f_equal.
  - replace bytes with (tcp_wire seg n c ++ pl ++ []) by (unfold bytes; by rewrite app_nil_r).
    apply slice_app_mid; rewrite length_tcp_wire by done; fold n; lia.
  - rewrite E. change (tcp_wire_head seg n ++ (c / 256) mod 256 :: c mod 256 :: tail) with
      (tcp_wire_head seg n ++ to_be16 c ++ to_be16 0 ++ opts_wire (tx_options seg) ++ pl).
    rewrite (app_assoc _ (to_be16 c)), (app_assoc _ (to_be16 0)).
    apply slice_app_mid; [done|]. rewrite Hn, Ew. unfold tcp_wire_head. len_tac.
Qed.
End decode.

Lemma l2_decode_wire seg T : seg_wf seg ->
  l2_decode (eth_wire seg ++ T) (tx_dst_mac seg) =
    Some (Ok (mkL2Decoded ETHERTYPE_IPV4 (tx_src_mac seg) (tx_dst_mac seg) 14)).
Proof.
  intros Hwf. destruct (swf_src_mac _ Hwf) as [_ Ls], (swf_dst_mac _ Hwf) as [_ Ld].
  assert (El : length (eth_wire seg ++ T) = (14 + length T)%nat)
    by (by rewrite length_app, length_eth_wire by done).
  unfold l2_decode. rewrite El, (proj2 (Nat.ltb_ge _ _)) by (unfold ETH_HDR_LEN; lia).
  rewrite !get_slice_some by lia. cbn [mbind option_bind].
  assert (E1 : slice 0 6 (eth_wire seg ++ T) = tx_dst_mac seg).
  { unfold eth_wire. rewrite <- !app_assoc. apply (slice_app_mid []); cbn; lia. }
  assert (E2 : slice 6 12 (eth_wire seg ++ T) = tx_src_mac seg).
  { unfold eth_wire. rewrite <- !app_assoc. apply slice_app_mid; lia. }
  assert (E3 : read_be16 (eth_wire seg ++ T) 12 = Some ETHERTYPE_IPV4).
  { apply (read_be16_at _ 12 (tx_dst_mac seg ++ tx_src_mac seg) _ T).
    - unfold eth_wire. by rewrite <- !app_assoc.
    - rewrite length_app. lia.
    - unfold ETHERTYPE_IPV4. width_lia. }
  rewrite E1, E2, E3. cbn [mbind option_bind]. cbv zeta.
  rewrite (bool_decide_eq_true_2 (tx_dst_mac seg = tx_dst_mac seg)) by done.
  rewrite andb_true_r. rewrite <- orb_assoc, orb_negb_l, orb_true_r. reflexivity.
Qed.

(** The bytes of a frame, decoded layer by layer. *)
Lemma frame_decodes (seg : SegmentTx) : seg_wf seg -> bad_flags (tx_flags seg) = false ->
  (encoded_len (tx_options seg) <= 40)%nat -> ip_total_of seg (tx_payload seg) <= U16_MAX ->
  let frame := frame_headers seg (tx_payload seg) ++ tx_payload seg in
  l2_decode frame (tx_dst_mac seg) = Some (Ok (mkL2Decoded ETHERTYPE_IPV4 (tx_src_mac seg) (tx_dst_mac seg) 14)) /\
  let pkt := drop 14 frame in
  ip_decode pkt (tx_dst_ip seg) false =
    Some (Ok (mkL3Decoded IPPROTO_TCP (tx_src_ip seg) (tx_dst_ip seg) 20 (length pkt) 64)) /\
  let tcp := slice 20 (length pkt) pkt in
  parse_segment tcp (tx_src_ip seg) (tx_dst_ip seg) false =
    Some (Ok (mkParsedSegment (tx_src_port seg) (tx_dst_port seg) (tx_seq seg) (tx_ack seg) (tx_flags seg) (tx_window seg)
      (tcp_hdr_len_of seg) (tx_payload seg) (opts_wire (tx_options seg)))).
Proof.
  intros Hwf Hbf Hopt Htot. set (pl := tx_payload seg) in *. set (hl := tcp_hdr_len_of seg).
  set (T := tcp_wire seg hl (tcp_csum_of seg pl) ++ pl).
  set (I := ip_wire seg (ip_total_of seg pl) (ip_csum_of seg (ip_total_of seg pl))).
  assert (HT : length T = (hl + length pl)%nat).
  { unfold T. by rewrite length_app, length_tcp_wire by done. }
  assert (El : length (I ++ T) = (20 + (hl + length pl))%nat).
  { unfold I. by rewrite length_app, length_ip_wire, HT. }
  assert (Ef : frame_headers seg pl ++ pl = eth_wire seg ++ I ++ T).
  { unfold frame_headers. fold I hl. unfold T. by rewrite <- !app_assoc. }
  cbv zeta. rewrite Ef. split; [by apply l2_decode_wire|].
  rewrite drop_app_length' by (by rewrite length_eth_wire).
  assert (Ht : Z.to_nat (ip_total_of seg pl) = (20 + (hl + length pl))%nat).
  { unfold ip_total_of, IPV4_HDR_MIN, zlen. fold hl. lia. }
  destruct (build_lengths seg pl Htot) as (_ & _ & _ & Hu).
  rewrite El, <- Ht. split.
  { apply ip_decode_wire; auto. by rewrite Ht, HT. }
  assert (Es : slice 20 (Z.to_nat (ip_total_of seg pl)) (I ++ T) = T).
  { rewrite <- (app_nil_r T) at 1. apply slice_app_mid; [done|]. by rewrite Ht, HT. }
  rewrite Es. unfold T. apply parse_segment_wire; auto. apply (swf_payload _ Hwf).
Qed.

(** C18. A built frame is received as the segment that was sent: for a well-formed
    segment whose options fit the 40-byte option space, the bytes
    [build_segment] writes pass the Ethernet, IPv4 and TCP decoders with both
    checksums verified in software, and yield the sender's addresses, ports,
    sequence numbers, flags, window, payload and option record. *)
Theorem frame_roundtrip (seg : SegmentTx) (out : list Z)
    (Hwf : seg_wf seg) (Hbf : bad_flags (tx_flags seg) = false)
    (Hopt : (encoded_len (tx_options seg) <= 40)%nat)
    (Htot : ip_total_of seg (tx_payload seg) <= U16_MAX)
    (Hlen : (34 + (tcp_hdr_len_of seg + length (tx_payload seg)) <= length out)%nat) :
  exists n out', build_segment seg out = Some (Some (n, out')) /\
    let frame := take n out' in
    l2_decode frame (tx_dst_mac seg) =
      Some (Ok (mkL2Decoded ETHERTYPE_IPV4 (tx_src_mac seg) (tx_dst_mac seg) 14)) /\
    let pkt := drop 14 frame in
    ip_decode pkt (tx_dst_ip seg) false =
      Some (Ok (mkL3Decoded IPPROTO_TCP (tx_src_ip seg) (tx_dst_ip seg) 20 (length pkt) 64)) /\
    let tcp := slice 20 (length pkt) pkt in
    exists s, parse_segment tcp (tx_src_ip seg) (tx_dst_ip seg) false = Some (Ok s) /\
      ps_src_port s = tx_src_port seg /\ ps_dst_port s = tx_dst_port seg /\
      ps_seq s = tx_seq seg /\ ps_ack s = tx_ack seg /\ ps_flags s = tx_flags seg /\
      ps_window s = tx_window seg /\ ps_payload s = tx_payload seg /\
      parse_options (ps_options s) = Some (Ok (tx_options seg)).
Proof.
  set (pl := tx_payload seg). set (hl := tcp_hdr_len_of seg). set (n := (34 + (hl + length pl))%nat).
  pose proof (build_segment_inner_wire seg Hwf pl out Htot Hlen) as E. fold pl hl n in E.
  exists n. eexists. split; [exact E|]. cbv zeta.
  assert (Ef : take n (frame_headers seg pl ++ pl ++ drop n out) = frame_headers seg pl ++ pl).
  { rewrite app_assoc. apply take_app_length'. rewrite length_app, length_frame_headers by done. unfold n, hl. lia. }
  rewrite Ef. destruct (frame_decodes seg Hwf Hbf Hopt Htot) as (E2 & E3 & E4). fold pl in E2, E3, E4.
  split; [exact E2|]. split; [exact E3|]. eexists. split; [exact E4|].
  cbn. split_and!; try done. destruct (swf_options _ Hwf) as [W Wc].
  rewrite parse_options_general. by apply parse_general_wire.
Qed.

Lemma frame_roundtrip_witness :
  exists n out', build_segment (sample_segment [1;2;3]) (replicate 100 0) = Some (Some (n, out')) /\
    let frame := take n out' in
    l2_decode frame [2;0;0;0;0;2] =
      Some (Ok (mkL2Decoded ETHERTYPE_IPV4 [2;0;0;0;0;1] [2;0;0;0;0;2] 14)) /\
    let pkt := drop 14 frame in
    ip_decode pkt 0x0a000002 false =
      Some (Ok (mkL3Decoded IPPROTO_TCP 0x0a000001 0x0a000002 20 (length pkt) 64)) /\
    let tcp := slice 20 (length pkt) pkt in
    exists s, parse_segment tcp 0x0a000001 0x0a000002 false = Some (Ok s) /\
      ps_src_port s = 4000 /\ ps_dst_port s = 80 /\
      ps_seq s = 1000 /\ ps_ack s = 2000 /\ ps_flags s = 24 /\
      ps_window s = 512 /\ ps_payload s = [1;2;3] /\
      parse_options (ps_options s) = Some (Ok (tx_options (sample_segment [1;2;3]))).
Proof.
  apply (frame_roundtrip (sample_segment [1;2;3]) (replicate 100 0)).
  - apply sample_segment_wf. repeat constructor; cbv; discriminate.
  - reflexivity.
  - vm_compute. repeat constructor.
  - vm_compute. discriminate.
  - vm_compute. repeat constructor.
Defined.

Lemma parse_segment_sound_witness :
  exists r, parse_segment (replicate 20 0x50) 1 2 true = Some r /\
    forall s, r = Ok s -> segment_wf s /\ (ps_header_len s + length (ps_payload s) = 20)%nat.
Proof.
  apply (parse_segment_sound (replicate 20 0x50) 1 2 true). repeat constructor; cbv; discriminate.
Defined.
