(* ===== verification/Conn.v ===== *)
(** * Connection state: tcp_state.rs, tcp_conn.rs and the key of flow_table.rs

    [TcpConn] has the fields of the source's struct; the operations are its
    methods.  A read of the clock is an argument [now]. *)

From S2P Require Import Prelude.
From S2P Require Import Seq.
From S2P Require Import Options.
From S2P Require Import Sack.
From S2P Require Import Mbuf.
From S2P Require Import Reassembly.
From S2P Require Import Retrans.
From S2P Require Import Rtt.
From S2P Require Import Rack.
From S2P Require Import Tlp.
From S2P Require Import TimerWheel.

(** ** States and keys *)

Inductive TcpState :=
  | Closed | Listen | SynSent | SynReceived | Established | FinWait1 | FinWait2 | CloseWait
  | Closing | LastAck | TimeWait.

#[export] Instance TcpState_eq_dec : EqDecision TcpState.
Proof. solve_decision. Defined.

(** [state as usize], the index of the transition counters. *)
Definition state_index (s : TcpState) : nat :=
  match s with
  | Closed => 0 | Listen => 1 | SynSent => 2 | SynReceived => 3 | Established => 4 | FinWait1 => 5
  | FinWait2 => 6 | CloseWait => 7 | Closing => 8 | LastAck => 9 | TimeWait => 10
  end.

Record FourTuple := mkFourTuple {
  ft_local_ip : Z;
  ft_local_port : Z;
  ft_peer_ip : Z;
  ft_peer_port : Z
}.

#[export] Instance FourTuple_eq_dec : EqDecision FourTuple.
Proof. solve_decision. Defined.
#[export] Instance FourTuple_countable : Countable FourTuple.
Proof.
  refine (inj_countable' (fun t => (ft_local_ip t, ft_local_port t, ft_peer_ip t, ft_peer_port t))
    (fun '(a, b, c, d) => mkFourTuple a b c d) _). by intros [].
Defined.

(** ** Send and receive buffers *)

Record SendQueue := mkSendQueue { sq_pending : list Z; sq_cap : Z }.

#[export] Instance SendQueue_eta : Settable SendQueue := fun q => mkSendQueue (sq_pending q) (sq_cap q).

Definition send_free_space (q : SendQueue) : Z := sat_sub (sq_cap q) (u32 (zlen (sq_pending q))).

(** [SendQueue::push]: how many bytes were accepted. *)
Definition send_push (q : SendQueue) (bytes : list Z) : SendQueue * Z :=
  let take_ := Nat.min (length bytes) (Z.to_nat (send_free_space q)) in
  (q <| sq_pending ::= fun p => p ++ take take_ bytes |>, u32 (Z.of_nat take_)).

Record RecvQueue := mkRecvQueue {
  rv_bytes : list InOrderSegment;
  rv_cap : Z;
  rv_reorder : ReorderQueue
}.

#[export] Instance RecvQueue_eta : Settable RecvQueue := fun q =>
  mkRecvQueue (rv_bytes q) (rv_cap q) (rv_reorder q).

Definition recv_new (cap : Z) : RecvQueue := mkRecvQueue [] cap (reorder_new cap).

Definition buffered_bytes (q : RecvQueue) : Z :=
  foldl (fun acc s => wadd32 acc (io_len s)) 0 (rv_bytes q).
Definition recv_free_space (q : RecvQueue) : Z := sat_sub (rv_cap q) (buffered_bytes q).
Definition free_space_total (q : RecvQueue) : Z :=
  sat_sub (sat_sub (rv_cap q) (buffered_bytes q)) (total_bytes (rv_reorder q)).

#[export] Instance RecvQueue_owner : Owner RecvQueue := fun m q =>
  owned m (rv_bytes q) + owned m (rv_reorder q).

(** ** The connection *)

Record ConnStats := mkConnStats {
  cs_snd_una : Z;
  cs_snd_nxt : Z;
  cs_snd_wnd : Z;
  cs_send_buf_bytes_pending : Z;
  cs_send_buf_bytes_free : Z;
  cs_srtt_us : Z;
  cs_rttvar_us : Z;
  cs_min_rtt_us : Z;
  cs_rto_us : Z
}.

Record RecentProbe := mkRecentProbe {
  rp_seq : Z;
  rp_len : Z;
  rp_tx_ts_ns : Z;
  rp_attributed : bool
}.

#[export] Instance RecentProbe_eta : Settable RecentProbe := fun p =>
  mkRecentProbe (rp_seq p) (rp_len p) (rp_tx_ts_ns p) (rp_attributed p).

Record TcpConn := mkTcpConn {
  c_four_tuple : FourTuple;
  c_state : TcpState;
  c_snd_una : Z;
  c_snd_nxt : Z;
  c_snd_wnd : Z;
  c_snd_wl1 : Z;
  c_snd_wl2 : Z;
  c_iss : Z;
  c_rcv_nxt : Z;
  c_rcv_wnd : Z;
  c_irs : Z;
  c_peer_mss : Z;
  c_ws_shift_out : Z;
  c_ws_shift_in : Z;
  c_ts_enabled : bool;
  c_ts_recent : Z;
  c_ts_recent_age : Z;
  c_sack_enabled : bool;
  c_sack_scoreboard : SackScoreboard;
  c_snd : SendQueue;
  c_recv : RecvQueue;
  c_our_fin_seq : option Z;
  c_time_wait_deadline_ns : option Z;
  c_last_advertised_wnd : option Z;
  c_last_sack_trigger : option (Z * Z);
  c_timer_ids : list TimerId;
  c_snd_retrans : SendRetrans;
  c_rtt_est : RttEstimator;
  c_rto_timer_id : option TimerId;
  c_tlp_timer_id : option TimerId;
  c_syn_retrans_count : Z;
  c_syn_retrans_timer_id : option TimerId;
  c_is_passive_open : bool;
  c_rack_aggressive : bool;
  c_rto_no_backoff : bool;
  c_rack : RackState;
  c_tlp_pto_min_floor_us : Z;
  c_tlp_pto_srtt_multiplier_x100 : Z;
  c_tlp_skip_flight_size_gate : bool;
  c_tlp_max_consecutive_probes : Z;
  c_tlp_skip_rtt_sample_gate : bool;
  c_tlp_consecutive_probes_fired : Z;
  c_tlp_rtt_sample_seen_since_last_tlp : bool;
  c_tlp_recent_probes : list (option RecentProbe);
  c_tlp_recent_probes_next_slot : Z;
  c_syn_tx_ts_ns : Z;
  c_send_refused_pending : bool;
  c_force_tw_skip : bool;
  c_rtt_histogram : RttHistogram;
  c_delivered_segments : list InOrderSegment;
  c_readable_scratch_iovecs : list (Z * Z)
}.

#[export] Instance TcpConn_eta : Settable TcpConn := fun c =>
  mkTcpConn (c_four_tuple c) (c_state c) (c_snd_una c) (c_snd_nxt c) (c_snd_wnd c) (c_snd_wl1 c)
     (c_snd_wl2 c) (c_iss c) (c_rcv_nxt c) (c_rcv_wnd c) (c_irs c) (c_peer_mss c)
     (c_ws_shift_out c) (c_ws_shift_in c) (c_ts_enabled c) (c_ts_recent c) (c_ts_recent_age c)
     (c_sack_enabled c) (c_sack_scoreboard c) (c_snd c) (c_recv c) (c_our_fin_seq c)
     (c_time_wait_deadline_ns c) (c_last_advertised_wnd c) (c_last_sack_trigger c) (c_timer_ids c)
     (c_snd_retrans c) (c_rtt_est c) (c_rto_timer_id c) (c_tlp_timer_id c) (c_syn_retrans_count c)
     (c_syn_retrans_timer_id c) (c_is_passive_open c) (c_rack_aggressive c) (c_rto_no_backoff c)
     (c_rack c) (c_tlp_pto_min_floor_us c) (c_tlp_pto_srtt_multiplier_x100 c)
     (c_tlp_skip_flight_size_gate c) (c_tlp_max_consecutive_probes c)
     (c_tlp_skip_rtt_sample_gate c) (c_tlp_consecutive_probes_fired c)
     (c_tlp_rtt_sample_seen_since_last_tlp c) (c_tlp_recent_probes c)
     (c_tlp_recent_probes_next_slot c) (c_syn_tx_ts_ns c) (c_send_refused_pending c)
     (c_force_tw_skip c) (c_rtt_histogram c) (c_delivered_segments c)
     (c_readable_scratch_iovecs c).

(** References held: the receive queue and the segments lent to the application.
    The in-flight entries hold theirs under the engine's own discipline. *)
#[export] Instance TcpConn_owner : Owner TcpConn := fun m c =>
  owned m (c_recv c) + owned m (c_delivered_segments c).

Definition new_client (tuple : FourTuple) (iss our_mss recv_buf_bytes send_buf_bytes
    min_rto_us initial_rto_us max_rto_us : Z) : TcpConn :=
  let rcv_wnd := Z.min recv_buf_bytes U16_MAX in
  {| c_four_tuple := tuple;
     c_state := Closed;
     c_snd_una := iss;
     c_snd_nxt := iss;
     c_snd_wnd := 0;
     c_snd_wl1 := 0;
     c_snd_wl2 := 0;
     c_iss := iss;
     c_rcv_nxt := 0;
     c_rcv_wnd := rcv_wnd;
     c_irs := 0;
     c_peer_mss := our_mss;
     c_ws_shift_out := 0;
     c_ws_shift_in := 0;
     c_ts_enabled := false;
     c_ts_recent := 0;
     c_ts_recent_age := 0;
     c_sack_enabled := false;
     c_sack_scoreboard := scoreboard_new;
     c_snd := mkSendQueue [] send_buf_bytes;
     c_recv := recv_new recv_buf_bytes;
     c_our_fin_seq := None;
     c_time_wait_deadline_ns := None;
     c_last_advertised_wnd := None;
     c_last_sack_trigger := None;
     c_timer_ids := [];
     c_snd_retrans := [];
     c_rtt_est := rtt_new min_rto_us initial_rto_us max_rto_us;
     c_rto_timer_id := None;
     c_tlp_timer_id := None;
     c_syn_retrans_count := 0;
     c_syn_retrans_timer_id := None;
     c_is_passive_open := false;
     c_rack_aggressive := false;
     c_rto_no_backoff := false;
     c_rack := rack_new;
     c_tlp_pto_min_floor_us := 0;
     c_tlp_pto_srtt_multiplier_x100 := DEFAULT_MULTIPLIER_X100;
     c_tlp_skip_flight_size_gate := false;
     c_tlp_max_consecutive_probes := DEFAULT_MAX_CONSECUTIVE_PROBES;
     c_tlp_skip_rtt_sample_gate := false;
     c_tlp_consecutive_probes_fired := 0;
     c_tlp_rtt_sample_seen_since_last_tlp := false;
     c_tlp_recent_probes := replicate 5 None;
     c_tlp_recent_probes_next_slot := 0;
     c_syn_tx_ts_ns := 0;
     c_send_refused_pending := false;
     c_force_tw_skip := false;
     c_rtt_histogram := histogram_new;
     c_delivered_segments := [];
     c_readable_scratch_iovecs := [] |}.

(** The server-side constructor; [now] is read only when timestamps are offered. *)
Definition new_passive (now : Z) (tuple : FourTuple) (iss iss_peer : Z) (opts : TcpOpts)
    (our_mss recv_buf_bytes send_buf_bytes min_rto_us initial_rto_us max_rto_us : Z) : TcpConn :=
  let c := new_client tuple iss our_mss recv_buf_bytes send_buf_bytes min_rto_us initial_rto_us max_rto_us in
  let c := c <| c_state := SynReceived |> <| c_is_passive_open := true |>
             <| c_rcv_nxt := wadd32 iss_peer 1 |> <| c_irs := iss_peer |>
             <| c_peer_mss := default 536 (mss opts) |>
             <| c_ws_shift_in := Z.min (default 0 (wscale opts)) 14 |>
             <| c_ts_enabled := match timestamps opts with Some _ => true | None => false end |> in
  let c := match timestamps opts with
           | Some (tsval, _) => c <| c_ts_recent := tsval |> <| c_ts_recent_age := now |>
           | None => c
           end in
  c <| c_sack_enabled := sack_permitted opts |>.

(** ** TLP hooks *)

Definition tlp_config (c : TcpConn) : TlpConfig :=
  let floor := if c_tlp_pto_min_floor_us c =? U32_MAX then 0 else c_tlp_pto_min_floor_us c in
  mkTlpConfig floor (c_tlp_pto_srtt_multiplier_x100 c) (c_tlp_skip_flight_size_gate c).

Definition tlp_arm_gate_passes (c : TcpConn) : bool :=
  match c_snd_retrans c with [] => false | _ =>
    match c_tlp_timer_id c with Some _ => false | None =>
      if c_tlp_max_consecutive_probes c <=? c_tlp_consecutive_probes_fired c then false else
      if negb (c_tlp_skip_rtt_sample_gate c) && negb (c_tlp_rtt_sample_seen_since_last_tlp c)
      then false else
      match srtt_us (c_rtt_est c) with None => false | Some _ => true end
    end
  end.

(** Writing past the five slots panics: [None]. *)
Definition on_tlp_probe_fired (c : TcpConn) (seq len tx_ts_ns : Z) : option TcpConn :=
  let slot := Z.to_nat (c_tlp_recent_probes_next_slot c) in
  if (slot <? length (c_tlp_recent_probes c))%nat then
    Some (c <| c_tlp_recent_probes ::= <[slot := Some (mkRecentProbe seq len tx_ts_ns false)]> |>
            <| c_tlp_recent_probes_next_slot :=
                 u8 (Z.of_nat ((slot + 1) mod length (c_tlp_recent_probes c))) |>
            <| c_tlp_consecutive_probes_fired ::= fun n => Z.min U8_MAX (n + 1) |>
            <| c_tlp_rtt_sample_seen_since_last_tlp := false |>)
  else None.

Definition on_rtt_sample_tlp_hook (c : TcpConn) : TcpConn :=
  c <| c_tlp_consecutive_probes_fired := 0 |> <| c_tlp_rtt_sample_seen_since_last_tlp := true |>.

Definition on_new_data_ack_tlp_hook (c : TcpConn) : TcpConn :=
  c <| c_tlp_consecutive_probes_fired := 0 |>.

(** A round-trip time from two nanosecond clocks, in 32-bit microseconds, and
    the plausibility window [(1..60_000_000).contains(&rtt)]. *)
Definition rtt_between (now_ns then_ns : Z) : Z := wsub32 (u32 (now_ns / 1000)) (u32 (then_ns / 1000)).
Definition rtt_plausible (rtt : Z) : bool := (1 <=? rtt) && (rtt <? 60000000).

Definition maybe_seed_srtt_from_syn (c : TcpConn) (now_ns : Z) (edges : list Z) : TcpConn * bool :=
  if negb (c_syn_retrans_count c =? 0) then (c, false) else
  if c_syn_tx_ts_ns c =? 0 then (c, false) else
  let rtt := rtt_between now_ns (c_syn_tx_ts_ns c) in
  if negb (rtt_plausible rtt) then (c, false) else
  (c <| c_rtt_est ::= fun r => rtt_sample r rtt |>
     <| c_rack ::= fun r => update_min_rtt r rtt |>
     <| c_rtt_histogram ::= fun h => histogram_update h rtt edges |>, true).

(** The test of one probe slot against a DSACK block. *)
Definition probe_matches (block_left block_right now_ns window_ns : Z) (p : RecentProbe) : bool :=
  let probe_end := wadd32 (rp_seq p) (rp_len p) in
  negb (rp_attributed p) && seq_le block_left (rp_seq p) && seq_le probe_end block_right &&
  (sat_sub now_ns (rp_tx_ts_ns p) <? window_ns).

Fixpoint attribute_loop (block_left block_right now_ns window_ns : Z) (slots : list (option RecentProbe))
  : list (option RecentProbe) * bool :=
  match slots with
  | [] => ([], false)
  | Some p :: rest =>
      if probe_matches block_left block_right now_ns window_ns p
      then (Some (p <| rp_attributed := true |>) :: rest, true)
      else let '(rest', r) := attribute_loop block_left block_right now_ns window_ns rest in
           (Some p :: rest', r)
  | None :: rest =>
      let '(rest', r) := attribute_loop block_left block_right now_ns window_ns rest in
      (None :: rest', r)
  end.

Definition attribution_window_ns (c : TcpConn) : Z :=
  let srtt := default (rk_min_rtt_us (c_rack c)) (srtt_us (c_rtt_est c)) in
  let effective := if srtt =? 0 then 1000000 else srtt in
  sat_mul64 (sat_mul64 effective 1000) 4.

Definition attribute_dsack_to_recent_tlp_probe (c : TcpConn) (block_left block_right now_ns : Z)
  : TcpConn * bool :=
  let '(slots, r) := attribute_loop block_left block_right now_ns (attribution_window_ns c)
                       (c_tlp_recent_probes c) in
  (c <| c_tlp_recent_probes := slots |>, r).

(** ** Projections *)

Definition stats (c : TcpConn) (send_buffer_bytes : Z) : ConnStats :=
  let pending := u32 (zlen (sq_pending (c_snd c))) in
  mkConnStats (c_snd_una c) (c_snd_nxt c) (c_snd_wnd c) pending (sat_sub send_buffer_bytes pending)
    (default 0 (srtt_us (c_rtt_est c))) (rttvar_us (c_rtt_est c)) (rk_min_rtt_us (c_rack c))
    (rto_us (c_rtt_est c)).

Definition fin_has_been_acked (c : TcpConn) (ack_seq : Z) : bool :=
  match c_our_fin_seq c with
  | Some fs => negb (seq_lt ack_seq (wadd32 fs 1))
  | None => false
  end.

(** ** Reading an updated connection

    The record is wide, so its updates are simplified one projection at a time
    rather than by reduction. *)

Ltac conn_proj p :=
  match p with
  | c_four_tuple => idtac | c_state => idtac | c_snd_una => idtac | c_snd_nxt => idtac
  | c_snd_wnd => idtac | c_snd_wl1 => idtac | c_snd_wl2 => idtac | c_iss => idtac
  | c_rcv_nxt => idtac | c_rcv_wnd => idtac | c_irs => idtac | c_peer_mss => idtac
  | c_ws_shift_out => idtac | c_ws_shift_in => idtac | c_ts_enabled => idtac | c_ts_recent => idtac
  | c_ts_recent_age => idtac | c_sack_enabled => idtac | c_sack_scoreboard => idtac | c_snd => idtac
  | c_recv => idtac | c_our_fin_seq => idtac | c_time_wait_deadline_ns => idtac | c_last_advertised_wnd => idtac
  | c_last_sack_trigger => idtac | c_timer_ids => idtac | c_snd_retrans => idtac | c_rtt_est => idtac
  | c_rto_timer_id => idtac | c_tlp_timer_id => idtac | c_syn_retrans_count => idtac | c_syn_retrans_timer_id => idtac
  | c_is_passive_open => idtac | c_rack_aggressive => idtac | c_rto_no_backoff => idtac | c_rack => idtac
  | c_tlp_pto_min_floor_us => idtac | c_tlp_pto_srtt_multiplier_x100 => idtac | c_tlp_skip_flight_size_gate => idtac | c_tlp_max_consecutive_probes => idtac
  | c_tlp_skip_rtt_sample_gate => idtac | c_tlp_consecutive_probes_fired => idtac | c_tlp_rtt_sample_seen_since_last_tlp => idtac | c_tlp_recent_probes => idtac
  | c_tlp_recent_probes_next_slot => idtac | c_syn_tx_ts_ns => idtac | c_send_refused_pending => idtac | c_force_tw_skip => idtac
  | c_rtt_histogram => idtac | c_delivered_segments => idtac | c_readable_scratch_iovecs => idtac
  end.

Ltac conn_simpl_step :=
  match goal with
  | |- context [?p (@field_set TcpConn ?T ?q ?i ?f ?r)] =>
      conn_proj p;
      first [ constr_eq p q; change (p (@field_set TcpConn T q i f r)) with (f (p r))
            | change (p (@field_set TcpConn T q i f r)) with (p r) ]
  end.
Ltac conn_simpl := repeat conn_simpl_step; cbv beta.

Ltac conn_simpl_step_in H :=
  match type of H with
  | context [?p (@field_set TcpConn ?T ?q ?i ?f ?r)] =>
      conn_proj p;
      first [ constr_eq p q; change (p (@field_set TcpConn T q i f r)) with (f (p r)) in H
            | change (p (@field_set TcpConn T q i f r)) with (p r) in H ]
  end.
Ltac conn_simpl_in H := repeat conn_simpl_step_in H; cbv beta in H.

(** [rx_frame c c']: [c'] is [c] with at most the receive queue, [rcv_nxt] and the
    SACK trigger changed. *)
Definition set_rx (q : RecvQueue) (n : Z) (t : option (Z * Z)) (c : TcpConn) : TcpConn :=
  c <| c_recv := q |> <| c_rcv_nxt := n |> <| c_last_sack_trigger := t |>.
Definition rx_frame (c c' : TcpConn) : Prop :=
  c' = set_rx (c_recv c') (c_rcv_nxt c') (c_last_sack_trigger c') c.

Lemma set_rx_set_rx q n t q' n' t' c : set_rx q n t (set_rx q' n' t' c) = set_rx q n t c.
Proof. by destruct c. Qed.

#[export] Instance rx_frame_refl : Reflexive rx_frame.
Proof. intros c. by destruct c. Qed.
#[export] Instance rx_frame_trans : Transitive rx_frame.
Proof. unfold rx_frame. intros c1 c2 c3 H12 H23. rewrite H12, set_rx_set_rx in H23. exact H23. Qed.

Lemma rx_frame_recv c f : rx_frame c (c <| c_recv ::= f |>).
Proof. by destruct c. Qed.
Lemma rx_frame_rcv_nxt c f : rx_frame c (c <| c_rcv_nxt ::= f |>).
Proof. by destruct c. Qed.
Lemma rx_frame_trigger c f : rx_frame c (c <| c_last_sack_trigger ::= f |>).
Proof. by destruct c. Qed.

Ltac rx_frame_tac :=
  repeat first [ reflexivity | eassumption
               | eapply rx_frame_trans; [|apply rx_frame_recv]
               | eapply rx_frame_trans; [|apply rx_frame_rcv_nxt]
               | eapply rx_frame_trans; [|apply rx_frame_trigger] ].

(** ** Lemmas *)

Lemma buffered_bytes_sum q : buffered_bytes q = u32 (zsum io_len (rv_bytes q)).
Proof.
  unfold buffered_bytes. cut (forall l a, is_u32 a -> foldl (fun acc s => wadd32 acc (io_len s)) a l =
    u32 (a + zsum io_len l)); [intros H; rewrite H by width_lia; by rewrite Z.add_0_l|].
  induction l as [|s l IH]; intros a Ha; cbn [foldl].
  - change (zsum io_len []) with 0. rewrite Z.add_0_r. symmetry. by apply Z.mod_small.
  - rewrite IH by (unfold wadd32, u32; apply Z.mod_pos_bound; done).
    change (zsum io_len (s :: l)) with (io_len s + zsum io_len l).
    unfold wadd32, u32. rewrite Z.add_mod_idemp_l by done. f_equal. lia.
Qed.

(** Firing a list of probes one after the other. *)
Definition fire_probe (oc : option TcpConn) (p : Z * Z * Z) : option TcpConn :=
  c ← oc; let '(seq, len, ts) := p in on_tlp_probe_fired c seq len ts.
Definition fire_probes (c : TcpConn) (ps : list (Z * Z * Z)) : option TcpConn := foldl fire_probe (Some c) ps.

Definition probe_of (p : Z * Z * Z) : RecentProbe := let '(seq, len, ts) := p in mkRecentProbe seq len ts false.

(** The ring after [n] probes. *)
Record ring_after (c c' : TcpConn) (ps : list (Z * Z * Z)) : Prop := {
  ra_len : length (c_tlp_recent_probes c') = 5%nat;
  ra_slot : c_tlp_recent_probes_next_slot c' = zlen ps mod 5;
  ra_fired : c_tlp_consecutive_probes_fired c' = Z.min U8_MAX (c_tlp_consecutive_probes_fired c + zlen ps);
  ra_recent : forall i p, ps !! i = Some p -> (length ps <= i + 5)%nat ->
    c_tlp_recent_probes c' !! (i mod 5)%nat = Some (Some (probe_of p));
  ra_max : c_tlp_max_consecutive_probes c' = c_tlp_max_consecutive_probes c
}.

Lemma fire_probes_snoc c ps p : fire_probes c (ps ++ [p]) = fire_probe (fire_probes c ps) p.
Proof. unfold fire_probes. by rewrite foldl_app. Qed.

Lemma mod5_distinct (i n : nat) : (i < n)%nat -> (n < i + 5)%nat -> (i mod 5 <> n mod 5)%nat.
Proof.
  intros H1 H2 E. pose proof (Nat.div_mod_eq i 5). pose proof (Nat.div_mod_eq n 5).
  pose proof (Nat.mod_upper_bound i 5). lia.
Qed.

Lemma ring_step c c1 ps p : is_u8 (c_tlp_consecutive_probes_fired c) ->
  ring_after c c1 ps -> exists c2, fire_probe (Some c1) p = Some c2 /\ ring_after c c2 (ps ++ [p]) /\
    c_tlp_rtt_sample_seen_since_last_tlp c2 = false.
Proof.
  intros H0 [Hl Hs Hf Hr Hm]. destruct p as [[seq len] ts]. cbn [fire_probe mbind option_bind].
  assert (Hslot : Z.to_nat (c_tlp_recent_probes_next_slot c1) = (length ps mod 5)%nat).
  { rewrite Hs. unfold zlen. change 5 with (Z.of_nat 5). rewrite <- Nat2Z.inj_mod. apply Nat2Z.id. }
  pose proof (Nat.mod_upper_bound (length ps) 5 ltac:(lia)) as Hb.
  unfold on_tlp_probe_fired. rewrite Hslot, Hl, (proj2 (Nat.ltb_lt _ _)) by lia.
  eexists. split; [done|]. split; [|done].
  assert (Hz : zlen (ps ++ [(seq, len, ts)]) = zlen ps + 1) by (unfold zlen; rewrite length_app; cbn; lia).
  split; cbn [field_set c_tlp_recent_probes c_tlp_recent_probes_next_slot
              c_tlp_consecutive_probes_fired c_tlp_max_consecutive_probes].
  - by rewrite length_insert.
  - rewrite Hz. unfold u8. rewrite Z.mod_small.
    + rewrite Nat2Z.inj_mod, Nat2Z.inj_add, Nat2Z.inj_mod. change (Z.of_nat 5) with 5.
      by rewrite Z.add_mod_idemp_l.
    + pose proof (Nat.mod_upper_bound (length ps mod 5 + 1) 5). unfold two8. lia.
  - rewrite Hf, Hz. width_lia.
  - intros i q Hi Hlast. rewrite length_app in Hlast. cbn in Hlast.
    apply lookup_app_Some in Hi as [Hi|[Hge Hi]].
    + pose proof (lookup_lt_Some _ _ _ Hi). rewrite list_lookup_insert_ne.
      * apply Hr; [done|lia].
      * apply not_eq_sym, mod5_distinct; lia.
    + assert (i = length ps) as ->.
      { apply lookup_lt_Some in Hi. cbn in Hi. lia. }
      rewrite Nat.sub_diag in Hi. injection Hi as <-. rewrite list_lookup_insert_eq by lia. done.
  - done.
Qed.

Lemma ring_nil c : length (c_tlp_recent_probes c) = 5%nat -> c_tlp_recent_probes_next_slot c = 0 ->
  is_u8 (c_tlp_consecutive_probes_fired c) -> ring_after c c [].
Proof. intros H1 H2 H3. split; try done. change (zlen []) with 0. width_lia. Qed.

Lemma ring_fire c ps : length (c_tlp_recent_probes c) = 5%nat -> c_tlp_recent_probes_next_slot c = 0 ->
  is_u8 (c_tlp_consecutive_probes_fired c) ->
  exists c', fire_probes c ps = Some c' /\ ring_after c c' ps.
Proof.
  intros H1 H2 H3. induction ps as [|p ps IH] using rev_ind.
  - exists c. split; [done|]. by apply ring_nil.
  - destruct IH as (c1 & E & R). destruct (ring_step c c1 ps p H3 R) as (c2 & E2 & R2 & _).
    exists c2. by rewrite fire_probes_snoc, E.
Qed.

Lemma tlp_gate_budget c : c_tlp_max_consecutive_probes c <= c_tlp_consecutive_probes_fired c ->
  tlp_arm_gate_passes c = false.
Proof.
  intros H. unfold tlp_arm_gate_passes. destruct (c_snd_retrans c); [done|].
  destruct (c_tlp_timer_id c); [done|]. by rewrite (proj2 (Z.leb_le _ _)) by done.
Qed.

Lemma attribute_loop_spec l r now w slots :
  match attribute_loop l r now w slots with
  | (slots', true) => exists i p, slots !! i = Some (Some p) /\ probe_matches l r now w p = true /\
      slots' = <[i := Some (p <| rp_attributed := true |>)]> slots /\
      (forall j q, (j < i)%nat -> slots !! j = Some (Some q) -> probe_matches l r now w q = false)
  | (slots', false) => slots' = slots /\
      (forall j q, slots !! j = Some (Some q) -> probe_matches l r now w q = false)
  end.
Proof.
  assert (Hnil : forall o rest,
    (forall p, o = Some p -> probe_matches l r now w p = false) ->
    match attribute_loop l r now w rest with
    | (slots', true) => exists i p, rest !! i = Some (Some p) /\ probe_matches l r now w p = true /\
        slots' = <[i := Some (p <| rp_attributed := true |>)]> rest /\
        (forall j q, (j < i)%nat -> rest !! j = Some (Some q) -> probe_matches l r now w q = false)
    | (slots', false) => slots' = rest /\
        (forall j q, rest !! j = Some (Some q) -> probe_matches l r now w q = false)
    end ->
    match (let '(rest', b) := attribute_loop l r now w rest in (o :: rest', b)) with
    | (slots', true) => exists i p, (o :: rest) !! i = Some (Some p) /\ probe_matches l r now w p = true /\
        slots' = <[i := Some (p <| rp_attributed := true |>)]> (o :: rest) /\
        (forall j q, (j < i)%nat -> (o :: rest) !! j = Some (Some q) -> probe_matches l r now w q = false)
    | (slots', false) => slots' = o :: rest /\
        (forall j q, (o :: rest) !! j = Some (Some q) -> probe_matches l r now w q = false)
    end).
  { intros o rest Ho. destruct (attribute_loop l r now w rest) as [slots' []].
    - intros (i & p & H1 & H2 & -> & H4). exists (S i), p. split_and!; [done..|].
      intros [|j] q Hj Hq; [injection Hq as ->; by apply Ho|]. apply (H4 j); [lia|done].
    - intros [-> H]. split; [done|]. intros [|j] q Hq; [injection Hq as ->; by apply Ho|]. by apply (H j). }
  induction slots as [|[p|] rest IH]; cbn [attribute_loop]; [done| |].
  - destruct (probe_matches l r now w p) eqn:E.
    + exists 0%nat, p. split_and!; [done..|lia].
    + apply Hnil; [intros q [= <-]; exact E|exact IH].
  - apply Hnil; [done|exact IH].
Qed.

(** ** Properties *)

(** The probe ring keeps the five most recent TLP probes, whatever their
    number: firing any list of probes never indexes outside the ring, probe [i]
    is found at slot [i mod 5] while it is among the last five, the consecutive
    count saturates at 255, and once it reaches the configured maximum (at most
    255) no further probe can be armed until an ACK resets it. *)
Theorem tlp_probe_ring (c : TcpConn) (ps : list (Z * Z * Z))
    (Hlen : length (c_tlp_recent_probes c) = 5%nat)
    (Hslot : c_tlp_recent_probes_next_slot c = 0)
    (Hfired : c_tlp_consecutive_probes_fired c = 0) (Hmax : is_u8 (c_tlp_max_consecutive_probes c)) :
  exists c', fire_probes c ps = Some c' /\
    (forall i p, ps !! i = Some p -> (length ps <= i + 5)%nat ->
       c_tlp_recent_probes c' !! (i mod 5)%nat = Some (Some (probe_of p))) /\
    c_tlp_consecutive_probes_fired c' = Z.min 255 (zlen ps) /\
    (c_tlp_max_consecutive_probes c <= zlen ps -> tlp_arm_gate_passes c' = false).
Proof.
  destruct (ring_fire c ps Hlen Hslot) as (c' & E & [H1 H2 H3 H4 H5]); [rewrite Hfired; width_lia|].
  rewrite Hfired, Z.add_0_l in H3. exists c'. split_and!; [done..|].
  intros H. apply tlp_gate_budget. rewrite H5, H3. width_lia.
Qed.

Definition sample_tuple : FourTuple := mkFourTuple 0x0a000001 4000 0x0a000002 80.
Definition sample_client : TcpConn := new_client sample_tuple 1000 1460 65536 65536 5000 5000 1000000.

Lemma tlp_probe_ring_witness :
  exists c', fire_probes sample_client [(1,1,1);(2,1,2);(3,1,3);(4,1,4);(5,1,5);(6,1,6)] = Some c' /\
    (forall i p, [(1,1,1);(2,1,2);(3,1,3);(4,1,4);(5,1,5);(6,1,6)] !! i = Some p -> (6 <= i + 5)%nat ->
       c_tlp_recent_probes c' !! (i mod 5)%nat = Some (Some (probe_of p))) /\
    c_tlp_consecutive_probes_fired c' = 6 /\
    (1 <= 6 -> tlp_arm_gate_passes c' = false).
Proof.
  apply (tlp_probe_ring sample_client [(1,1,1);(2,1,2);(3,1,3);(4,1,4);(5,1,5);(6,1,6)]);
    [reflexivity|reflexivity|reflexivity|cbv; split; congruence].
Defined.

(** A DSACK block is attributed to at most one probe: on [true] exactly the
    first matching slot is marked (an unattributed probe inside the block, sent
    less than four smoothed RTTs ago) and nothing else of the connection changes;
    on [false] no slot matches and nothing changes.  A marked probe never matches
    again, so no probe is counted twice. *)
Theorem attribute_dsack_exact (c : TcpConn) (l r now : Z) :
  let m := probe_matches l r now (attribution_window_ns c) in
  match attribute_dsack_to_recent_tlp_probe c l r now with
  | (c', true) => exists i p, c_tlp_recent_probes c !! i = Some (Some p) /\ m p = true /\
      c' = c <| c_tlp_recent_probes ::= <[i := Some (p <| rp_attributed := true |>)]> |> /\
      (forall j q, (j < i)%nat -> c_tlp_recent_probes c !! j = Some (Some q) -> m q = false) /\
      (forall l' r' now' w', probe_matches l' r' now' w' (p <| rp_attributed := true |>) = false)
  | (c', false) => c' = c /\ forall j q, c_tlp_recent_probes c !! j = Some (Some q) -> m q = false
  end.
Proof.
  cbv zeta. unfold attribute_dsack_to_recent_tlp_probe.
  pose proof (attribute_loop_spec l r now (attribution_window_ns c) (c_tlp_recent_probes c)) as H.
  destruct (attribute_loop l r now (attribution_window_ns c) (c_tlp_recent_probes c)) as [slots' []].
  - destruct H as (i & p & H1 & H2 & -> & H4). exists i, p. split_and!; done.
  - destruct H as [-> H]. split; [by destruct c|exact H].
Qed.
