(* ===== verification/FlowTable.v ===== *)
(** * The connection table: flow_table.rs

    [slots] indexed by handle minus one, and the map from 4-tuples to slot
    indexes.  The std hasher behind [siphash_4tuple] is seeded per process; it is
    the parameter [siphash] of the one definition that uses it. *)

From S2P Require Import Prelude.
From S2P Require Import Mbuf.
From S2P Require Import Reassembly.
From S2P Require Import Retrans.
From S2P Require Import Rtt.
From S2P Require Import Conn.

Definition ConnHandle : Type := Z.
Definition INVALID_HANDLE : ConnHandle := 0.

Definition RTE_MBUF_F_RX_RSS_HASH : Z := Z.shiftl 1 1.

(** [rss_feature] is the cargo feature [hw-offload-rss-hash]. *)
Definition hash_bucket_for_lookup (rss_feature : bool) (siphash : FourTuple -> Z) (tup : FourTuple)
    (ol_flags nic_rss_hash : Z) (rss_active : bool) : Z :=
  if rss_feature && (rss_active && negb (Z.land ol_flags RTE_MBUF_F_RX_RSS_HASH =? 0))
  then nic_rss_hash else siphash tup.

Record FlowTable := mkFlowTable {
  ft_slots : list (option TcpConn);
  ft_by_tuple : gmap FourTuple Z
}.

#[export] Instance FlowTable_eta : Settable FlowTable := fun t => mkFlowTable (ft_slots t) (ft_by_tuple t).

Definition ft_new (max_connections : Z) : FlowTable :=
  mkFlowTable (replicate (Z.to_nat max_connections) None) ∅.

Definition ft_capacity (t : FlowTable) : Z := u32 (zlen (ft_slots t)).

(** [slots.iter().position(|s| s.is_none())]. *)
Fixpoint first_free (slots : list (option TcpConn)) : option nat :=
  match slots with
  | [] => None
  | None :: _ => Some 0%nat
  | Some _ :: rest => S <$> first_free rest
  end.

Definition ft_insert (t : FlowTable) (conn : TcpConn) : FlowTable * option ConnHandle :=
  let tuple := c_four_tuple conn in
  match ft_by_tuple t !! tuple with
  | Some _ => (t, None)
  | None =>
      match first_free (ft_slots t) with
      | None => (t, None)
      | Some slot_idx =>
          (t <| ft_slots ::= <[slot_idx := Some conn]> |>
             <| ft_by_tuple ::= <[tuple := u32 (Z.of_nat slot_idx)]> |>,
           Some (wadd32 (u32 (Z.of_nat slot_idx)) 1))
      end
  end.

(** [(handle - 1) as usize], after the test for the invalid handle. *)
Definition handle_idx (h : ConnHandle) : nat := Z.to_nat (wsub32 h 1).

Definition ft_get (t : FlowTable) (h : ConnHandle) : option TcpConn :=
  if h =? INVALID_HANDLE then None else mjoin (ft_slots t !! handle_idx h).

(** A use of [get_mut] that assigns the connection; nothing when there is none. *)
Definition ft_update (t : FlowTable) (h : ConnHandle) (f : TcpConn -> TcpConn) : FlowTable :=
  match ft_get t h with
  | Some c => t <| ft_slots ::= <[handle_idx h := Some (f c)]> |>
  | None => t
  end.

Definition lookup_by_tuple (t : FlowTable) (tuple : FourTuple) : option ConnHandle :=
  (fun i => wadd32 i 1) <$> ft_by_tuple t !! tuple.

Definition lookup_by_hash (t : FlowTable) (tuple : FourTuple) (bucket_hash : Z) : option ConnHandle :=
  lookup_by_tuple t tuple.

Definition ft_get_stats (t : FlowTable) (h : ConnHandle) (send_buffer_bytes : Z) : option ConnStats :=
  (fun c => stats c send_buffer_bytes) <$> ft_get t h.

Definition ft_remove (t : FlowTable) (h : ConnHandle) : FlowTable * option TcpConn :=
  if h =? INVALID_HANDLE then (t, None) else
  match mjoin (ft_slots t !! handle_idx h) with
  | None => (t, None)
  | Some conn =>
      (t <| ft_slots ::= <[handle_idx h := None]> |> <| ft_by_tuple ::= delete (c_four_tuple conn) |>,
       Some conn)
  end.

(** The occupied slots from index [i] on, as handles. *)
Fixpoint handles_from (i : nat) (slots : list (option TcpConn)) : list ConnHandle :=
  match slots with
  | [] => []
  | Some _ :: rest => wadd32 (u32 (Z.of_nat i)) 1 :: handles_from (S i) rest
  | None :: rest => handles_from (S i) rest
  end.
Definition iter_handles (t : FlowTable) : list ConnHandle := handles_from 0 (ft_slots t).

Definition active_conns (t : FlowTable) : Z :=
  zlen (filter (fun s => is_Some s) (ft_slots t)).
Definition ft_states (t : FlowTable) : list (ConnHandle * TcpState) :=
  omap (fun h => (fun c => (h, c_state c)) <$> ft_get t h) (iter_handles t).
Definition reassembly_byte_occupancy (t : FlowTable) : Z :=
  foldl (fun acc s => match s with Some c => u64 (acc + total_bytes (rv_reorder (c_recv c))) | None => acc end)
    0 (ft_slots t).
Definition clear_all (t : FlowTable) : FlowTable := mkFlowTable (map (fun _ => None) (ft_slots t)) ∅.

(** ** The invariant: the map is the inverse of the slots *)

Record ft_ok (t : FlowTable) : Prop := {
  fto_size : zlen (ft_slots t) < two32;
  fto_sound : forall tup i, ft_by_tuple t !! tup = Some i ->
    exists c, ft_slots t !! Z.to_nat i = Some (Some c) /\ c_four_tuple c = tup /\ 0 <= i;
  fto_complete : forall i c, ft_slots t !! i = Some (Some c) -> ft_by_tuple t !! c_four_tuple c = Some (Z.of_nat i)
}.

Lemma slot_bound t i s : ft_ok t -> ft_slots t !! i = Some s -> 0 <= Z.of_nat i < two32 - 1.
Proof. intros [Hs _ _] H. apply lookup_lt_Some in H. unfold zlen in Hs. width_lia. Qed.

Lemma handle_idx_S i : 0 <= Z.of_nat i < two32 - 1 ->
  wadd32 (u32 (Z.of_nat i)) 1 = Z.of_nat i + 1 /\ handle_idx (Z.of_nat i + 1) = i.
Proof.
  intros H. rewrite u32_id by width_lia. rewrite wadd32_id by width_lia. split; [done|].
  unfold handle_idx. rewrite wsub32_id by width_lia. lia.
Qed.

Lemma ft_get_slot t i : 0 <= Z.of_nat i < two32 - 1 -> ft_get t (Z.of_nat i + 1) = mjoin (ft_slots t !! i).
Proof.
  intros H. unfold ft_get, INVALID_HANDLE. destruct (Z.eqb_spec (Z.of_nat i + 1) 0); [lia|].
  by destruct (handle_idx_S i H) as [_ ->].
Qed.

Lemma ft_get_some t h c : ft_get t h = Some c -> h <> 0 /\ ft_slots t !! handle_idx h = Some (Some c).
Proof.
  unfold ft_get, INVALID_HANDLE. destruct (Z.eqb_spec h 0); [done|]. intros H. split; [done|].
  by apply bind_Some in H as ([c'|] & H & E); [|done]; cbn in E; injection E as ->.
Qed.

Lemma first_free_spec slots :
  match first_free slots with
  | Some i => slots !! i = Some None /\ forall j, (j < i)%nat -> exists c, slots !! j = Some (Some c)
  | None => forall i s, slots !! i = Some s -> is_Some s
  end.
Proof.
  induction slots as [|[c|] rest IH]; cbn [first_free].
  - intros i s H. by rewrite lookup_nil in H.
  - destruct (first_free rest) as [i|]; cbn.
    + destruct IH as [H1 H2]. split; [done|]. intros [|j] Hj; [by exists c|]. apply H2. lia.
    + intros [|i] s H; cbn in H; [by injection H as <-|]. by eapply IH.
  - split; [done|]. intros; lia.
Qed.

Lemma ft_new_ok n : 0 <= n < two32 -> ft_ok (ft_new n).
Proof.
  intros H. split; cbn.
  - rewrite zlen_replicate. width_lia.
  - intros tup i Hi. by rewrite lookup_empty in Hi.
  - intros i c Hi. by apply lookup_replicate in Hi as [? _].
Qed.

Lemma clear_all_ok t : ft_ok t -> ft_ok (clear_all t).
Proof.
  intros [Hs _ _]. split; cbn.
  - unfold zlen in *. by rewrite length_map.
  - intros tup i Hi. by rewrite lookup_empty in Hi.
  - intros i c Hi. rewrite lookup_map in Hi. by destruct (ft_slots t !! i).
Qed.

(** Handles and slots are in bijection: two handles of one table that name
    connections with the same 4-tuple are the same handle. *)
Lemma ft_get_unique t h1 h2 c1 c2 : ft_ok t -> is_u32 h1 -> is_u32 h2 ->
  ft_get t h1 = Some c1 -> ft_get t h2 = Some c2 -> c_four_tuple c1 = c_four_tuple c2 -> h1 = h2.
Proof.
  intros Hok U1 U2 H1 H2 E. apply ft_get_some in H1 as [N1 H1], H2 as [N2 H2].
  apply (fto_complete _ Hok) in H1, H2. rewrite E, H2 in H1. injection H1 as H1.
  unfold handle_idx in H1. rewrite !wsub32_id in H1 by width_lia. width_lia.
Qed.

Lemma lookup_get t tup h : ft_ok t -> lookup_by_tuple t tup = Some h ->
  exists c, ft_get t h = Some c /\ c_four_tuple c = tup /\ 1 <= h < two32.
Proof.
  intros Hok H. unfold lookup_by_tuple in H. destruct (ft_by_tuple t !! tup) as [i|] eqn:E; [|done].
  cbn in H. injection H as <-. destruct (fto_sound _ Hok _ _ E) as (c & Hc & Ht & Hi).
  pose proof (slot_bound _ _ _ Hok Hc) as Hb. rewrite Z2Nat.id in Hb by done.
  rewrite wadd32_id by width_lia. exists c. split; [|split; [done|width_lia]].
  pose proof (ft_get_slot t (Z.to_nat i)) as G. rewrite Z2Nat.id, Hc in G by done. apply G. width_lia.
Qed.

Lemma get_lookup t h c : ft_ok t -> is_u32 h -> ft_get t h = Some c -> lookup_by_tuple t (c_four_tuple c) = Some h.
Proof.
  intros Hok U H. apply ft_get_some in H as [N H]. apply (fto_complete _ Hok) in H.
  unfold lookup_by_tuple. rewrite H. cbn. f_equal. unfold handle_idx. rewrite wsub32_id by width_lia.
  rewrite Z2Nat.id by width_lia. rewrite wadd32_id; width_lia.
Qed.

(** ** Updating a connection in place *)

Lemma ft_update_get_eq t h f : ft_get (ft_update t h f) h = f <$> ft_get t h.
Proof.
  unfold ft_update. destruct (ft_get t h) as [c|] eqn:E; [|by rewrite E].
  apply ft_get_some in E as [N E]. unfold ft_get, INVALID_HANDLE. destruct (Z.eqb_spec h 0); [done|].
  cbn [ft_slots field_set]. rewrite list_lookup_insert_eq; [done|]. by eapply lookup_lt_Some.
Qed.

Lemma ft_update_get_ne t h h' f : is_u32 h -> is_u32 h' -> h <> h' -> ft_get (ft_update t h f) h' = ft_get t h'.
Proof.
  intros U U' N. unfold ft_update. destruct (ft_get t h) as [c|] eqn:E; [|done].
  apply ft_get_some in E as [Nh E]. unfold ft_get, INVALID_HANDLE. destruct (Z.eqb_spec h' 0); [done|].
  cbn [ft_slots field_set]. rewrite list_lookup_insert_ne; [done|].
  unfold handle_idx. rewrite !wsub32_id by width_lia. width_lia.
Qed.

Lemma ft_update_ok t h f : (forall c, ft_get t h = Some c -> c_four_tuple (f c) = c_four_tuple c) ->
  ft_ok t -> ft_ok (ft_update t h f).
Proof.
  intros Hf Hok. unfold ft_update. destruct (ft_get t h) as [c|] eqn:E; [|done].
  specialize (Hf c eq_refl). apply ft_get_some in E as [N E]. destruct Hok as [H1 H2 H3].
  split; cbn [ft_slots ft_by_tuple field_set].
  - unfold zlen in *. by rewrite length_insert.
  - intros tup i Hi. destruct (H2 _ _ Hi) as (c' & Hc & Ht & Hp).
    destruct (decide (Z.to_nat i = handle_idx h)) as [Ei|Ei].
    + rewrite Ei in *. rewrite Hc in E. injection E as ->. exists (f c).
      rewrite list_lookup_insert_eq by (by eapply lookup_lt_Some). split; [done|]. split; [congruence|done].
    + exists c'. by rewrite list_lookup_insert_ne.
  - intros i c' Hi. destruct (decide (i = handle_idx h)) as [->|Ei].
    + rewrite list_lookup_insert_eq in Hi by (by eapply lookup_lt_Some). injection Hi as <-.
      rewrite Hf. by apply H3.
    + rewrite list_lookup_insert_ne in Hi by done. by apply H3.
Qed.

(** Two assignments in a row, and what a removal leaves. *)
Lemma ft_update_twice t h f g : ft_update (ft_update t h f) h g = ft_update t h (fun c => g (f c)).
Proof.
  unfold ft_update at 1. rewrite ft_update_get_eq. unfold ft_update. destruct (ft_get t h) as [c|] eqn:E; [|done].
  cbn [fmap option_fmap option_map]. destruct t as [s b]. unfold field_set. cbn. by rewrite list_insert_insert_eq.
Qed.

Lemma handle_idx_0 : Z.of_nat (handle_idx 0) = two32 - 1.
Proof. unfold handle_idx. rewrite Z2Nat.id by apply wsub32_range. reflexivity. Qed.

Lemma slot_get t h c : ft_ok t -> ft_slots t !! handle_idx h = Some (Some c) -> ft_get t h = Some c.
Proof.
  intros Hok Hc. unfold ft_get, INVALID_HANDLE. destruct (Z.eqb_spec h 0) as [->|]; [|by rewrite Hc].
  pose proof (slot_bound _ _ _ Hok Hc) as B. clear Hc. rewrite handle_idx_0 in B. lia.
Qed.

Lemma ft_remove_slots t h : ft_ok t ->
  match ft_get t h with
  | Some c => (ft_remove t h).2 = Some c /\ ft_slots (ft_remove t h).1 = <[handle_idx h := None]> (ft_slots t) /\
              ft_ok (ft_remove t h).1
  | None => ft_remove t h = (t, None)
  end.
Proof.
  intros [H1 H2 H3]. destruct (ft_get t h) as [c|] eqn:E.
  - apply ft_get_some in E as [N Hi]. unfold ft_remove, INVALID_HANDLE. destruct (Z.eqb_spec h 0); [done|].
    rewrite Hi. cbn [mjoin option_join field_set fst snd ft_slots]. split_and!; try done.
    pose proof (lookup_lt_Some _ _ _ Hi) as Hlt. split; cbn [ft_slots ft_by_tuple].
    + unfold zlen in *. by rewrite length_insert.
    + intros tup j Hj. apply lookup_delete_Some in Hj as [Nt Hj]. destruct (H2 _ _ Hj) as (c0 & Hc & Ht & Hp).
      exists c0. rewrite list_lookup_insert_ne; [done|]. intros Ej. rewrite <- Ej, Hi in Hc. congruence.
    + intros j c0 Hj. destruct (decide (handle_idx h = j)) as [<-|Nj].
      * rewrite list_lookup_insert_eq in Hj by done. discriminate Hj.
      * rewrite list_lookup_insert_ne in Hj by done. pose proof (H3 _ _ Hj) as Hc. pose proof (H3 _ _ Hi) as Hc'.
        rewrite lookup_delete_ne; [done|]. intros Et. rewrite Et in Hc'. rewrite Hc in Hc'. injection Hc'. lia.
  - unfold ft_get in E. unfold ft_remove. destruct (h =? INVALID_HANDLE); [done|]. by rewrite E.
Qed.

(** A granted insertion fills one free slot. *)
Lemma ft_insert_slots t c t' h : ft_ok t -> ft_insert t c = (t', Some h) ->
  ft_ok t' /\ ft_slots t !! handle_idx h = Some None /\ ft_slots t' = <[handle_idx h := Some c]> (ft_slots t).
Proof.
  intros Hok. pose proof Hok as [H1 H2 H3]. unfold ft_insert.
  destruct (ft_by_tuple t !! c_four_tuple c) as [i|] eqn:El; [done|].
  pose proof (first_free_spec (ft_slots t)) as Hff. destruct (first_free (ft_slots t)) as [i|]; [|done].
  destruct Hff as [Hi _]. pose proof (slot_bound _ _ _ Hok Hi) as Hb. destruct (handle_idx_S i Hb) as [-> Hx].
  pose proof (lookup_lt_Some _ _ _ Hi) as Hlt. cbn [field_set]. intros E. injection E as <- <-. rewrite Hx.
  split; [|done]. split; cbn [ft_slots ft_by_tuple].
  - unfold zlen in *. by rewrite length_insert.
  - intros tup j Hj. destruct (decide (tup = c_four_tuple c)) as [->|Nt].
    + rewrite lookup_insert_eq in Hj. injection Hj as <-. rewrite u32_id by width_lia. exists c.
      rewrite Nat2Z.id, list_lookup_insert_eq by done. split; [done|]. split; [done|lia].
    + rewrite lookup_insert_ne in Hj by done. destruct (H2 _ _ Hj) as (c0 & Hc & Ht & Hp). exists c0.
      rewrite list_lookup_insert_ne; [done|]. intros E. rewrite <- E in Hc. by rewrite Hi in Hc.
  - intros j c0 Hj. destruct (decide (i = j)) as [<-|Nj].
    + rewrite list_lookup_insert_eq in Hj by done. injection Hj as <-.
      rewrite lookup_insert_eq. f_equal. apply u32_id. width_lia.
    + rewrite list_lookup_insert_ne in Hj by done. pose proof (H3 _ _ Hj) as Hc.
      rewrite lookup_insert_ne; [done|]. intros E. rewrite <- E in Hc. congruence.
Qed.

(** The handles iterated over are those of the occupied slots. *)
Lemma handles_from_spec slots : forall i h, h ∈ handles_from i slots <->
  exists j c, slots !! j = Some (Some c) /\ h = wadd32 (u32 (Z.of_nat (i + j))) 1.
Proof.
  induction slots as [|s slots IH]; intros i h; cbn [handles_from].
  - split; [intros E; by apply elem_of_nil in E|]. intros (j & c & E & _). by rewrite lookup_nil in E.
  - assert (Hs : (h ∈ handles_from (S i) slots) <->
      exists j c, slots !! j = Some (Some c) /\ h = wadd32 (u32 (Z.of_nat (i + S j))) 1).
    { rewrite IH. by setoid_rewrite Nat.add_succ_comm. }
    destruct s as [c0|].
    + rewrite elem_of_cons, Hs. split.
      * intros [->|(j & c & E & ->)]; [exists 0%nat, c0; by rewrite Nat.add_0_r|by exists (S j), c].
      * intros ([|j] & c & E & ->); [left; by rewrite Nat.add_0_r|right; by exists j, c].
    + rewrite Hs. split; [intros (j & c & E & ->); by exists (S j), c|].
      intros ([|j] & c & E & ->); [done|by exists j, c].
Qed.

Lemma get_in_handles t h c : ft_ok t -> is_u32 h -> ft_get t h = Some c -> h ∈ iter_handles t.
Proof.
  intros Hok U Hg. apply ft_get_some in Hg as [N Hi]. apply handles_from_spec. exists (handle_idx h), c.
  split; [done|]. pose proof (slot_bound _ _ _ Hok Hi) as B. cbn [Nat.add]. destruct (handle_idx_S _ B) as [-> _].
  unfold handle_idx. rewrite wsub32_id by width_lia. width_lia.
Qed.

Lemma handles_u32 t h : h ∈ iter_handles t -> is_u32 h.
Proof. intros E. apply handles_from_spec in E as (j & c & _ & ->). apply wadd32_range. Qed.

(** ** Properties *)

Lemma ft_insert_spec (t : FlowTable) (c : TcpConn) (Hok : ft_ok t) :
  match ft_insert t c with
  | (t', Some h) =>
      1 <= h <= zlen (ft_slots t) /\ ft_get t h = None /\ lookup_by_tuple t (c_four_tuple c) = None /\
      ft_get t' h = Some c /\ lookup_by_tuple t' (c_four_tuple c) = Some h /\
      (forall h', is_u32 h' -> h' <> h -> ft_get t' h' = ft_get t h') /\ ft_ok t'
  | (t', None) =>
      t' = t /\ ((exists h c0, ft_get t h = Some c0 /\ c_four_tuple c0 = c_four_tuple c) \/
                 forall h, 1 <= h <= zlen (ft_slots t) -> is_Some (ft_get t h))
  end.
Proof.
  pose proof Hok as [H1 H2 H3]. destruct (ft_insert t c) as [t' [h|]] eqn:Ei.
  - destruct (ft_insert_slots t c t' h Hok Ei) as (Hok' & Hi & Es). unfold ft_insert in Ei.
    destruct (ft_by_tuple t !! c_four_tuple c) as [i|] eqn:El; [done|].
    pose proof (first_free_spec (ft_slots t)) as Hff. destruct (first_free (ft_slots t)) as [i|]; [|done].
    destruct Hff as [Hi' _]. pose proof (slot_bound _ _ _ Hok Hi') as Hb. destruct (handle_idx_S i Hb) as [Ew Hx].
    pose proof (lookup_lt_Some _ _ _ Hi') as Hlt. rewrite Ew in Ei. cbn [field_set] in Ei. injection Ei as Et <-.
    rewrite Hx in *. assert (Hget : ft_get t' (Z.of_nat i + 1) = Some c).
    { rewrite ft_get_slot by done. by rewrite Es, list_lookup_insert_eq. }
    split_and!; try done.
    + lia.
    + unfold zlen. lia.
    + by rewrite ft_get_slot, Hi'.
    + unfold lookup_by_tuple. by rewrite El.
    + apply get_lookup; [done|width_lia|done].
    + intros h' U N. unfold ft_get, INVALID_HANDLE. destruct (Z.eqb_spec h' 0); [done|].
      rewrite Es, list_lookup_insert_ne; [done|]. unfold handle_idx. rewrite wsub32_id by width_lia. width_lia.
  - unfold ft_insert in Ei. destruct (ft_by_tuple t !! c_four_tuple c) as [i|] eqn:El.
    { injection Ei as <-. split; [done|]. left.
      destruct (lookup_get t (c_four_tuple c) (wadd32 i 1) Hok) as (c0 & G & Et & _);
        [unfold lookup_by_tuple; by rewrite El|eauto]. }
    pose proof (first_free_spec (ft_slots t)) as Hff. destruct (first_free (ft_slots t)) as [i|]; [done|].
    injection Ei as <-. split; [done|]. right. intros h Hh. destruct (ft_slots t !! handle_idx h) as [s|] eqn:E.
    + destruct (Hff _ _ E) as [c0 ->]. unfold ft_get, INVALID_HANDLE.
      destruct (Z.eqb_spec h 0); [lia|]. rewrite E. by exists c0.
    + apply lookup_ge_None in E. unfold handle_idx, zlen in *. rewrite wsub32_id in E by width_lia. lia.
Qed.

(** C34. Inserting a connection: it is refused exactly when its 4-tuple is already in
    the table or no slot is free, and then nothing changes; otherwise it gets a fresh
    non-zero handle within the capacity, both the handle and the 4-tuple now lead to
    it, and every other handle is as it was.  The invariant is kept. *)
Theorem ft_insert_correct (t : FlowTable) (c : TcpConn) (Hok : ft_ok t) :
  match ft_insert t c with
  | (t', Some h) =>
      1 <= h <= zlen (ft_slots t) /\ ft_get t h = None /\ lookup_by_tuple t (c_four_tuple c) = None /\
      ft_get t' h = Some c /\ lookup_by_tuple t' (c_four_tuple c) = Some h /\
      (forall h', is_u32 h' -> h' <> h -> ft_get t' h' = ft_get t h') /\ ft_ok t'
  | (t', None) =>
      t' = t /\ ((exists h c0, ft_get t h = Some c0 /\ c_four_tuple c0 = c_four_tuple c) \/
                 forall h, 1 <= h <= zlen (ft_slots t) -> is_Some (ft_get t h))
  end.
Proof. exact (ft_insert_spec t c Hok). Qed.

Lemma ft_remove_spec (t : FlowTable) (h : ConnHandle) (Hok : ft_ok t) (Hh : is_u32 h) :
  let '(t', r) := ft_remove t h in
  r = ft_get t h /\ ft_ok t' /\ ft_get t' h = None /\
  (forall h', is_u32 h' -> h' <> h -> ft_get t' h' = ft_get t h') /\
  match r with Some c => lookup_by_tuple t' (c_four_tuple c) = None | None => t' = t end.
Proof.
  pose proof (ft_remove_slots t h Hok) as R. destruct (ft_get t h) as [c|] eqn:E.
  2: { rewrite R. split_and!; done. }
  destruct (ft_remove t h) as [t' r] eqn:Er. cbn [fst snd] in R. destruct R as (-> & Es & Hok').
  apply ft_get_some in E as [N Hi]. pose proof (lookup_lt_Some _ _ _ Hi) as Hlt. split_and!; try done.
  - unfold ft_get. destruct (h =? INVALID_HANDLE); [done|]. by rewrite Es, list_lookup_insert_eq.
  - intros h' U N'. unfold ft_get, INVALID_HANDLE. destruct (Z.eqb_spec h' 0); [done|].
    rewrite Es, list_lookup_insert_ne; [done|]. unfold handle_idx. rewrite !wsub32_id by width_lia. width_lia.
  - unfold ft_remove, INVALID_HANDLE in Er. destruct (Z.eqb_spec h 0); [done|]. rewrite Hi in Er.
    cbn [mjoin option_join field_set] in Er. injection Er as <-. unfold lookup_by_tuple. cbn [ft_by_tuple].
    by rewrite lookup_delete_eq.
Qed.

(** Removing a handle frees exactly that connection: it is returned, its handle and
    4-tuple are unknown afterwards, its slot can be used again, every other handle is as
    it was, and an unknown handle changes nothing. *)
Theorem ft_remove_correct (t : FlowTable) (h : ConnHandle) (Hok : ft_ok t) (Hh : is_u32 h) :
  let '(t', r) := ft_remove t h in
  r = ft_get t h /\ ft_ok t' /\ ft_get t' h = None /\
  (forall h', is_u32 h' -> h' <> h -> ft_get t' h' = ft_get t h') /\
  match r with Some c => lookup_by_tuple t' (c_four_tuple c) = None | None => t' = t end.
Proof. exact (ft_remove_spec t h Hok Hh). Qed.

Lemma ft_insert_correct_witness :
  match ft_insert (ft_new 2) sample_client with
  | (t', Some h) =>
      1 <= h <= 2 /\ ft_get (ft_new 2) h = None /\ lookup_by_tuple (ft_new 2) sample_tuple = None /\
      ft_get t' h = Some sample_client /\ lookup_by_tuple t' sample_tuple = Some h /\
      (forall h', is_u32 h' -> h' <> h -> ft_get t' h' = ft_get (ft_new 2) h') /\ ft_ok t'
  | (t', None) => False
  end.
Proof.
  pose proof (ft_insert_correct (ft_new 2) sample_client (ft_new_ok 2 ltac:(width_lia))) as H. exact H.
Defined.

Lemma ft_remove_correct_witness :
  let t := (ft_insert (ft_new 2) sample_client).1 in
  let '(t', r) := ft_remove t 1 in
  r = ft_get t 1 /\ ft_ok t' /\ ft_get t' 1 = None /\
  (forall h', is_u32 h' -> h' <> 1 -> ft_get t' h' = ft_get t h') /\
  match r with Some c => lookup_by_tuple t' (c_four_tuple c) = None | None => t' = t end.
Proof.
  apply (ft_remove_correct (ft_insert (ft_new 2) sample_client).1 1); [|width_lia].
  destruct (ft_insert_slots (ft_new 2) sample_client (ft_insert (ft_new 2) sample_client).1 1) as [H _].
  - apply ft_new_ok. width_lia.
  - reflexivity.
  - exact H.
Defined.
