(* ===== verification/Input.v ===== *)
(** * Inbound segment processing: tcp_input.rs

    One definition per stage of the handlers, composed by [handle_established],
    [handle_close_path], [handle_syn_sent], [handle_syn_received] and
    [dispatch].  A handler returns the connection, the [Outcome] and the
    reference-count calls it made; [None] is a panic.

    Outside the source: the reads of the clock are [clk], one site each, and the
    mbuf chain hanging off a received mbuf is [links], the (mbuf, data_len)
    pairs met by following [next] from the head.  [test_server] is the cargo
    feature of that name; the RTT histogram is compiled in (no [obs-none]). *)

From S2P Require Import Prelude.
From S2P Require Import Seq.
From S2P Require Import Options.
From S2P Require Import Sack.
From S2P Require Import Mbuf.
From S2P Require Import Reassembly.
From S2P Require Import Retrans.
From S2P Require Import Rtt.
From S2P Require Import Rack.
From S2P Require Import TimerWheel.
From S2P Require Import Output.
From S2P Require Import Segment.
From S2P Require Import Conn.

(** ** Inputs and outcome *)

(** 24 days in nanoseconds. *)
Definition TS_RECENT_EXPIRY_NS : Z := 24 * 86400 * 1000000000.

Record MbufInsertCtx := mkMbufInsertCtx { mi_mbuf : MbufId; mi_payload_offset : Z }.

(** The calls of [clock::now_ns] in one dispatch. *)
Inductive ClockSite := CkSynTs | CkSynSeed | CkPaws | CkDsack (i : nat) | CkAck | CkRack.
Abbreviation Clock := (ClockSite -> Z).
Abbreviation Links := (MbufId -> list (MbufId * Z)).

Inductive TxAction := TxNone | TxAck | TxRst | TxRstForSynSentBadAck.

#[export] Instance TxAction_eq_dec : EqDecision TxAction.
Proof. solve_decision. Defined.

Record Outcome := mkOutcome {
  o_tx : TxAction;
  o_new_state : option TcpState;
  o_delivered : Z;
  o_buf_full_drop : Z;
  o_reassembly_queued_bytes : Z;
  o_reassembly_hole_filled : Z;
  o_paws_rejected : bool;
  o_ts_recent_expired : bool;
  o_bad_option : bool;
  o_sack_blocks_decoded : Z;
  o_bad_seq : bool;
  o_bad_ack : bool;
  o_dup_ack : bool;
  o_urgent_dropped : bool;
  o_rx_zero_window : bool;
  o_ws_shift_clamped : bool;
  o_snd_una_advanced_to : option Z;
  o_rtt_sample_taken : bool;
  o_rack_lost_indexes : list Z;
  o_rx_dsack_count : Z;
  o_tx_tlp_spurious_count : Z;
  o_syn_retrans_timer_to_cancel : option TimerId;
  o_writable_hysteresis_fired : bool;
  o_mbuf_ref_retained : bool;
  o_in_order_delivered_from_seg : Z;
  o_connected : bool;
  o_closed : bool;
  o_clear_listen_slot_on_close : bool;
  o_re_listen_if_passive : bool;
  o_retransmit_syn_ack_for_passive : bool
}.

#[export] Instance Outcome_eta : Settable Outcome := fun o =>
  mkOutcome (o_tx o) (o_new_state o) (o_delivered o) (o_buf_full_drop o) (o_reassembly_queued_bytes o)
    (o_reassembly_hole_filled o) (o_paws_rejected o) (o_ts_recent_expired o) (o_bad_option o)
    (o_sack_blocks_decoded o) (o_bad_seq o) (o_bad_ack o) (o_dup_ack o) (o_urgent_dropped o)
    (o_rx_zero_window o) (o_ws_shift_clamped o) (o_snd_una_advanced_to o) (o_rtt_sample_taken o)
    (o_rack_lost_indexes o) (o_rx_dsack_count o) (o_tx_tlp_spurious_count o)
    (o_syn_retrans_timer_to_cancel o) (o_writable_hysteresis_fired o) (o_mbuf_ref_retained o)
    (o_in_order_delivered_from_seg o) (o_connected o) (o_closed o) (o_clear_listen_slot_on_close o)
    (o_re_listen_if_passive o) (o_retransmit_syn_ack_for_passive o).

(** [Outcome::base], [Outcome::none] and [Outcome::rst]. *)
Definition outcome_base : Outcome :=
  mkOutcome TxNone None 0 0 0 0 false false false 0 false false false false false false None false
    [] 0 0 None false false 0 false false false false false.
Definition outcome_none : Outcome := outcome_base.
Definition outcome_rst : Outcome :=
  outcome_base <| o_tx := TxRst |> <| o_new_state := Some Closed |> <| o_closed := true |>.

Abbreviation Handled := (option (TcpConn * Outcome * list MbufOp)).

(** A handler that returns early with the connection as it is. *)
Definition leave (c : TcpConn) (o : Outcome) : Handled := Some (c, o, []).

(** ** Stages shared by the handlers *)

(** [seg.payload.len() as u32 + (FIN) as u32]. *)
Definition segment_len (seg : ParsedSegment) : Z :=
  wadd32 (u32 (zlen (ps_payload seg))) (if has_flag (ps_flags seg) TCP_FIN then 1 else 0).

Definition segment_in_window (c : TcpConn) (seg : ParsedSegment) : bool :=
  let seg_len := segment_len seg in
  if seg_len =? 0 then ps_seq seg =? c_rcv_nxt c
  else
    let last := wsub32 (wadd32 (ps_seq seg) seg_len) 1 in
    in_window (c_rcv_nxt c) (ps_seq seg) (c_rcv_wnd c) && in_window (c_rcv_nxt c) last (c_rcv_wnd c).

(** An empty option region skips the parser. *)
Definition segment_options (seg : ParsedSegment) : option (result TcpOpts OptionParseError) :=
  match ps_options seg with [] => Some (Ok TcpOpts_default) | _ => parse_options (ps_options seg) end.

Inductive Paws := PawsMissing | PawsReject | PawsPass (c : TcpConn) (ts_recent_expired : bool).

Definition paws_check (clk : Clock) (c : TcpConn) (seg : ParsedSegment) (opts : TcpOpts) : Paws :=
  if c_ts_enabled c then
    match timestamps opts with
    | None => PawsMissing
    | Some (ts_val, _) =>
        let now_ns := clk CkPaws in
        let idle_ns := sat_sub now_ns (c_ts_recent_age c) in
        let skip := negb (c_ts_recent_age c =? 0) && (TS_RECENT_EXPIRY_NS <? idle_ns) in
        if skip then PawsPass (c <| c_ts_recent := ts_val |> <| c_ts_recent_age := now_ns |>) true
        else if seq_lt ts_val (c_ts_recent c) then PawsReject
        else if seq_le (ps_seq seg) (c_rcv_nxt c)
             then PawsPass (c <| c_ts_recent := ts_val |> <| c_ts_recent_age := now_ns |>) false
             else PawsPass c false
    end
  else PawsPass c false.

Definition is_dsack (block : SackBlock) (snd_una : Z) (s : SackScoreboard) : bool :=
  seq_le (sb_right block) snd_una ||
  existsb (fun existing => seq_le (sb_left existing) (sb_left block) &&
                           seq_le (sb_right block) (sb_right existing)) (live s).

(** The loop over the decoded SACK blocks, from block [i]; the counters are the
    DSACK blocks and the probes found spurious. *)
Fixpoint sack_loop (clk : Clock) (blocks : list SackBlock) (i : nat) (c : TcpConn) (dsack spurious : Z)
  : TcpConn * Z * Z :=
  match blocks with
  | [] => (c, dsack, spurious)
  | block :: rest =>
      if is_dsack block (c_snd_una c) (c_sack_scoreboard c) then
        let c := c <| c_rack ::= fun r => r <| rk_dsack_seen := true |> |> in
        let '(c, hit) := attribute_dsack_to_recent_tlp_probe c (sb_left block) (sb_right block)
                           (clk (CkDsack i)) in
        sack_loop clk rest (S i) c (wadd32 dsack 1) (if hit then wadd32 spurious 1 else spurious)
      else
        let c := c <| c_sack_scoreboard ::= fun s => sack_insert s block |> in
        let c := c <| c_snd_retrans ::= fun r => mark_sacked r block |> in
        sack_loop clk rest (S i) c dsack spurious
  end.

(** The connection, the blocks decoded, and the two counters. *)
Definition sack_pass (clk : Clock) (c : TcpConn) (opts : TcpOpts) : TcpConn * Z * Z * Z :=
  if c_sack_enabled c && (0 <? sack_block_count opts)%nat then
    let blocks := take (sack_block_count opts) (sack_blocks opts) in
    let '(c, dsack, spurious) := sack_loop clk blocks 0 c 0 0 in
    (c, Z.of_nat (sack_block_count opts), dsack, spurious)
  else (c, 0, 0, 0).

(** ** ESTABLISHED: the ACK field *)

(** The RTT sample of an ACK that advanced [snd_una]: the echoed timestamp, or
    (Karn) a front entry sent once and covered end to end. *)
Definition ts_sample (c : TcpConn) (opts : TcpOpts) (now_us : Z) : option Z :=
  if c_ts_enabled c then
    match timestamps opts with
    | Some (_, tsecr) =>
        if tsecr =? 0 then None
        else let rtt := wsub32 now_us tsecr in if rtt_plausible rtt then Some rtt else None
    | None => None
    end
  else None.

Definition karn_sample (c : TcpConn) (now_us : Z) : option Z :=
  match retrans_front (c_snd_retrans c) with
  | Some front =>
      if (re_xmit_count front =? 1) && seq_le (re_end_seq front) (c_snd_una c) then
        let rtt := wsub32 now_us (u32 (re_first_tx_ts_ns front / 1000)) in
        if rtt_plausible rtt then Some rtt else None
      else None
  | None => None
  end.

Definition absorb_rtt (edges : list Z) (c : TcpConn) (rtt : Z) : TcpConn :=
  let c := c <| c_rtt_est ::= fun r => rtt_sample r rtt |> in
  let c := c <| c_rack ::= fun r => update_min_rtt r rtt |> in
  let c := on_rtt_sample_tlp_hook c in
  c <| c_rtt_histogram ::= fun h => histogram_update h rtt edges |>.

(** The connection and whether a sample was taken. *)
Definition sample_rtt (edges : list Z) (c : TcpConn) (opts : TcpOpts) (now_us : Z) : TcpConn * bool :=
  match ts_sample c opts now_us with
  | Some rtt => (absorb_rtt edges c rtt, true)
  | None =>
      match karn_sample c now_us with
      | Some rtt => (absorb_rtt edges c rtt, true)
      | None => (on_new_data_ack_tlp_hook c, false)
      end
  end.

(** [x.wrapping_shl(k)] of a [u32]: the shift count modulo 32. *)
Definition wrapping_shl32 (x k : Z) : Z := u32 (Z.shiftl x (k mod 32)).

Definition update_send_window (c : TcpConn) (seg : ParsedSegment) : TcpConn :=
  if seq_lt (c_snd_wl1 c) (ps_seq seg) ||
     ((c_snd_wl1 c =? ps_seq seg) && seq_le (c_snd_wl2 c) (ps_ack seg))
  then c <| c_snd_wnd := wrapping_shl32 (ps_window seg) (c_ws_shift_in c) |>
         <| c_snd_wl1 := ps_seq seg |> <| c_snd_wl2 := ps_ack seg |>
  else c.

Definition writable_hysteresis (c : TcpConn) (send_buffer_bytes : Z) : TcpConn * bool :=
  if c_send_refused_pending c then
    let in_flight := wsub32 (c_snd_nxt c) (c_snd_una c) in
    if in_flight <=? send_buffer_bytes / 2
    then (c <| c_send_refused_pending := false |>, true) else (c, false)
  else (c, false).

(** An ACK of new data. *)
Definition ack_new_data (clk : Clock) (edges : list Z) (send_buffer_bytes : Z) (c : TcpConn)
    (seg : ParsedSegment) (opts : TcpOpts) : TcpConn * bool * bool :=
  let acked := Z.to_nat (wsub32 (ps_ack seg) (c_snd_una c)) in
  let c := c <| c_snd ::= fun s => s <| sq_pending ::= drop acked |> |> in
  let c := c <| c_snd_una := ps_ack seg |> in
  let now_us := u32 (clk CkAck / 1000) in
  let '(c, rtt_taken) := sample_rtt edges c opts now_us in
  let c := if c_sack_enabled c
           then c <| c_sack_scoreboard ::= fun s => sack_prune_below s (c_snd_una c) |> else c in
  let c := update_send_window c seg in
  let '(c, writable) := writable_hysteresis c send_buffer_bytes in
  (c, rtt_taken, writable).

(** RFC 5681's five conditions. *)
Definition is_dup_ack (c : TcpConn) (seg : ParsedSegment) : bool :=
  (ps_ack seg =? c_snd_una c) &&
  match ps_payload seg with [] => true | _ => false end &&
  (ps_window seg =? Z.shiftr (c_snd_wnd c) (c_ws_shift_in c mod 32)) &&
  negb (c_snd_una c =? c_snd_nxt c) &&
  (Z.land (ps_flags seg) (Z.lor TCP_SYN TCP_FIN) =? 0).

(** [c <| snd_una |> < seg.ack <= snd_nxt]. *)
Definition ack_acceptable (c : TcpConn) (seg : ParsedSegment) : bool :=
  seq_lt (c_snd_una c) (ps_ack seg) && seq_le (ps_ack seg) (c_snd_nxt c).

Record AckResult := mkAckResult {
  ar_conn : TcpConn;
  ar_dup_ack : bool;
  ar_advanced_to : option Z;
  ar_rtt_taken : bool;
  ar_writable : bool
}.

(** [None]: the ACK is ahead of what was sent. *)
Definition ack_established (clk : Clock) (edges : list Z) (send_buffer_bytes : Z) (c : TcpConn)
    (seg : ParsedSegment) (opts : TcpOpts) : option AckResult :=
  if ack_acceptable c seg then
    let '(c', rtt_taken, writable) := ack_new_data clk edges send_buffer_bytes c seg opts in
    Some (mkAckResult c' false (Some (c_snd_una c')) rtt_taken writable)
  else if seq_lt (c_snd_nxt c) (ps_ack seg) then None
  else Some (mkAckResult c (is_dup_ack c seg) None false false).

(** ** ESTABLISHED: RACK *)

(** Feeding one entry, when delivered, to the RACK state. *)
Definition rack_feed (snd_una : Z) (r : RackState) (e : RetransEntry) : RackState :=
  if re_sacked e || seq_le (re_end_seq e) snd_una
  then update_on_ack r (re_xmit_ts_ns e) (re_end_seq e) else r.

Definition rack_entry_lost (r : RackState) (snd_una now_ns reo_wnd_us : Z) (e : RetransEntry) : bool :=
  negb (re_sacked e || re_lost e) && negb (seq_le (re_end_seq e) snd_una) &&
  detect_lost r (re_xmit_ts_ns e) (re_end_seq e) now_ns reo_wnd_us.

(** The indexes of the lost entries, cast to [u16]. *)
Fixpoint rack_lost_from (i : nat) (lost : RetransEntry -> bool) (entries : list RetransEntry) : list Z :=
  match entries with
  | [] => []
  | e :: rest =>
      let tail := rack_lost_from (S i) lost rest in
      if lost e then u16 (Z.of_nat i) :: tail else tail
  end.

(** [entries[i].lost = true] for each index. *)
Definition mark_lost (indexes : list Z) (entries : SendRetrans) : SendRetrans :=
  foldl (fun es i => alter (fun e => e <| re_lost := true |>) (Z.to_nat i) es) entries indexes.

Definition rack_pass (clk : Clock) (c : TcpConn) : TcpConn * list Z :=
  match c_snd_retrans c with
  | [] => (c, [])
  | _ =>
      let now_ns := clk CkRack in
      let c := c <| c_rack ::= fun r => foldl (rack_feed (c_snd_una c)) r (c_snd_retrans c) |> in
      let reo_wnd_us := compute_reo_wnd_us (c_rack_aggressive c) (rk_min_rtt_us (c_rack c))
                          (srtt_us (c_rtt_est c)) in
      let c := c <| c_rack ::= fun r => r <| rk_reo_wnd_us := reo_wnd_us |> |> in
      let lost := rack_lost_from 0 (rack_entry_lost (c_rack c) (c_snd_una c) now_ns reo_wnd_us)
                    (c_snd_retrans c) in
      (c <| c_snd_retrans ::= mark_lost lost |>, lost)
  end.

(** ** ESTABLISHED: data *)

(** Totals of the rest of the chain, saturating. *)
Definition chain_drop (drop_ : Z) (ls : list (MbufId * Z)) : Z :=
  foldl (fun d l => sat_add32 d l.2) drop_ ls.

(** The in-order walk over the links after the head: queue, delivered, dropped,
    calls. *)
Fixpoint in_order_links (ls : list (MbufId * Z)) (q : RecvQueue) (delivered drop_ : Z) (ops : list MbufOp)
  : RecvQueue * Z * Z * list MbufOp :=
  match ls with
  | [] => (q, delivered, drop_, ops)
  | (m, len) :: rest =>
      let room := recv_free_space q in
      if room =? 0 then (q, delivered, chain_drop drop_ ls, ops)
      else
        let take_ := Z.min len room in
        let '(q, delivered, ops) :=
          if 0 <? take_
          then (q <| rv_bytes ::= fun b => b ++ [mkInOrderSegment (mkMbufHandle m) 0 (u16 take_)] |>,
                sat_add32 delivered take_, ops ++ [RefcntUpdate m 1])
          else (q, delivered, ops) in
        let drop_ := if take_ <? len then sat_add32 drop_ (wsub32 len take_) else drop_ in
        in_order_links rest q delivered drop_ ops
  end.

Record DataResult := mkDataResult {
  dr_conn : TcpConn;
  dr_delivered : Z;
  dr_buf_full_drop : Z;
  dr_queued : Z;
  dr_hole_filled : Z;
  dr_retained : bool;
  dr_from_seg : Z;
  dr_calls : list MbufOp
}.

(** The bytes of the segment appended to the in-order queue. *)
Definition append_in_order (links : Links) (q : RecvQueue) (plen : Z) (ctx : option MbufInsertCtx)
  : RecvQueue * Z * Z * list MbufOp :=
  let cap_room := recv_free_space q in
  let head_take := Z.min (u32 plen) cap_room in
  let '(q, delivered, drop_, ops) :=
    match ctx with
    | Some ctx =>
        if 0 <? head_take then
          let q := q <| rv_bytes ::= fun b =>
            b ++ [mkInOrderSegment (mkMbufHandle (mi_mbuf ctx)) (mi_payload_offset ctx) (u16 head_take)] |> in
          in_order_links (links (mi_mbuf ctx)) q head_take 0 [RefcntUpdate (mi_mbuf ctx) 1]
        else (q, 0, 0, [])
    | None => (q, 0, 0, [])
    end in
  (q, delivered, sat_add32 drop_ (sat_sub (u32 plen) head_take), ops).

(** The connection's queue and [rcv_nxt] are locals, written back at the end. *)
Definition deliver_in_order (links : Links) (c : TcpConn) (seg : ParsedSegment) (ctx : option MbufInsertCtx)
  : DataResult :=
  let '(q, delivered, drop_, ops) := append_in_order links (c_recv c) (zlen (ps_payload seg)) ctx in
  let rcv_nxt := wadd32 (c_rcv_nxt c) delivered in
  let from_seg := delivered in
  if negb (reorder_is_empty (rv_reorder q)) then
    let bytes_before := zlen (rv_bytes q) in
    let cap_room := recv_free_space q in
    let '(rq, outs, drained_bytes, drained_cap_dropped, dops) :=
      drain_contiguous_into (rv_reorder q) rcv_nxt cap_room in
    let q := q <| rv_reorder := rq |> <| rv_bytes ::= fun b => b ++ outs |> in
    let drained_count := u32 (zlen (rv_bytes q) - bytes_before) in
    let rcv_nxt := wadd32 rcv_nxt drained_bytes in
    mkDataResult (c <| c_recv := q |> <| c_rcv_nxt := rcv_nxt |>)
      (wadd32 delivered drained_bytes) (wadd32 drop_ drained_cap_dropped) 0 drained_count
      false from_seg (ops ++ dops)
  else
    mkDataResult (c <| c_recv := q |> <| c_rcv_nxt := rcv_nxt |>) delivered drop_ 0 0 false from_seg ops.

(** The locals of the out-of-order walk. *)
Record OooWalk := mkOooWalk {
  ow_queue : ReorderQueue;
  ow_trigger : option (Z * Z);
  ow_queued : Z;
  ow_drop : Z;
  ow_ops : list MbufOp
}.

(** One non-empty link after the head: take a reference, insert, give the
    reference back when nothing was retained. *)
Definition ooo_link (m : MbufId) (len link_seq : Z) (w : OooWalk) : OooWalk :=
  let '(rq, out, iops) := reorder_insert (ow_queue w) link_seq len m 0 in
  let ops := ow_ops w ++ [RefcntUpdate m 1] ++ iops in
  let ops := if mbuf_ref_retained out then ops else ops ++ [RefcntUpdate m (-1)] in
  let link_end := wadd32 link_seq len in
  let trigger := if 0 <? newly_buffered out
                 then Some (match ow_trigger w with
                            | Some (l, _) => (l, link_end)
                            | None => (link_seq, link_end)
                            end)
                 else ow_trigger w in
  mkOooWalk rq trigger (sat_add32 (ow_queued w) (newly_buffered out))
    (sat_add32 (ow_drop w) (cap_dropped out)) ops.

Fixpoint ooo_links (ls : list (MbufId * Z)) (link_seq : Z) (w : OooWalk) : OooWalk :=
  match ls with
  | [] => w
  | (m, len) :: rest =>
      if len =? 0 then ooo_links rest link_seq w
      else ooo_links rest (wadd32 link_seq len) (ooo_link m len link_seq w)
  end.

Definition deliver_out_of_order (links : Links) (c : TcpConn) (seg : ParsedSegment)
    (ctx : option MbufInsertCtx) : DataResult :=
  let plen := u32 (zlen (ps_payload seg)) in
  let total_cap := free_space_total (c_recv c) in
  if 0 <? total_cap then
    let head_take := Z.min plen total_cap in
    match ctx with
    | None => mkDataResult c 0 0 0 0 false 0 []
    | Some ctx =>
        let '(rq, out, ops) := reorder_insert (rv_reorder (c_recv c)) (ps_seq seg) head_take
                                 (mi_mbuf ctx) (mi_payload_offset ctx) in
        let trigger := if 0 <? newly_buffered out
                       then Some (ps_seq seg, wadd32 (ps_seq seg) head_take)
                       else c_last_sack_trigger c in
        let drop_ := if head_take <? plen then wadd32 (cap_dropped out) (wsub32 plen head_take)
                     else cap_dropped out in
        let w := ooo_links (links (mi_mbuf ctx)) (wadd32 (ps_seq seg) plen)
                   (mkOooWalk rq trigger (newly_buffered out) drop_ ops) in
        mkDataResult
          (c <| c_recv ::= fun q => q <| rv_reorder := ow_queue w |> |> <| c_last_sack_trigger := ow_trigger w |>)
          0 (ow_drop w) (ow_queued w) 0 (mbuf_ref_retained out) 0 (ow_ops w)
    end
  else
    let drop_ := match ctx with
                 | Some ctx => chain_drop plen (links (mi_mbuf ctx))
                 | None => plen
                 end in
    mkDataResult c 0 drop_ 0 0 false 0 [].

Definition deliver_data (links : Links) (c : TcpConn) (seg : ParsedSegment) (ctx : option MbufInsertCtx)
  : DataResult :=
  match ps_payload seg with
  | [] => mkDataResult c 0 0 0 0 false 0 []
  | _ =>
      if ps_seq seg =? c_rcv_nxt c then deliver_in_order links c seg ctx
      else if seq_lt (c_rcv_nxt c) (ps_seq seg) then deliver_out_of_order links c seg ctx
      else mkDataResult c 0 0 0 0 false 0 []
  end.

(** ** Handlers *)

(** FIN: accepted when it follows the bytes just accepted. *)
Definition fin_established (c : TcpConn) (seg : ParsedSegment) (delivered : Z) : TcpConn * option TcpState :=
  if has_flag (ps_flags seg) TCP_FIN && (wadd32 (ps_seq seg) delivered =? c_rcv_nxt c)
  then (c <| c_rcv_nxt ::= fun n => wadd32 n 1 |>, Some CloseWait) else (c, None).

Definition established_tx (seg : ParsedSegment) (delivered : Z) (new_state : option TcpState) : TxAction :=
  if (0 <? delivered) || bool_decide (new_state = Some CloseWait)
     || match ps_payload seg with [] => false | _ => true end
  then TxAck else TxNone.

(** The part of [handle_established] after the option and PAWS checks. *)
Definition established_accept (clk : Clock) (edges : list Z) (send_buffer_bytes : Z) (links : Links)
    (ctx : option MbufInsertCtx) (c : TcpConn) (seg : ParsedSegment) (opts : TcpOpts)
    (ts_expired : bool) : TcpConn * Outcome * list MbufOp :=
  let zero_window := ps_window seg =? 0 in
  let '(c, decoded, dsack, spurious) := sack_pass clk c opts in
  match ack_established clk edges send_buffer_bytes c seg opts with
  | None =>
      (c, outcome_base <| o_tx := TxAck |> <| o_bad_ack := true |>
            <| o_rx_zero_window := zero_window |> <| o_sack_blocks_decoded := decoded |>, [])
  | Some ar =>
      let '(c, lost) := rack_pass clk (ar_conn ar) in
      let d := deliver_data links c seg ctx in
      let '(c, new_state) := fin_established (dr_conn d) seg (dr_delivered d) in
      (c, outcome_base
            <| o_tx := established_tx seg (dr_delivered d) new_state |>
            <| o_new_state := new_state |>
            <| o_delivered := dr_delivered d |>
            <| o_buf_full_drop := dr_buf_full_drop d |>
            <| o_reassembly_queued_bytes := dr_queued d |>
            <| o_reassembly_hole_filled := dr_hole_filled d |>
            <| o_sack_blocks_decoded := decoded |>
            <| o_dup_ack := ar_dup_ack ar |>
            <| o_rx_zero_window := zero_window |>
            <| o_snd_una_advanced_to := ar_advanced_to ar |>
            <| o_rtt_sample_taken := ar_rtt_taken ar |>
            <| o_rack_lost_indexes := lost |>
            <| o_rx_dsack_count := dsack |>
            <| o_tx_tlp_spurious_count := spurious |>
            <| o_ts_recent_expired := ts_expired |>
            <| o_writable_hysteresis_fired := ar_writable ar |>
            <| o_mbuf_ref_retained := dr_retained d |>
            <| o_in_order_delivered_from_seg := dr_from_seg d |>,
       dr_calls d)
  end.

Definition handle_established (clk : Clock) (edges : list Z) (send_buffer_bytes : Z) (links : Links)
    (ctx : option MbufInsertCtx) (c : TcpConn) (seg : ParsedSegment) : Handled :=
  if has_flag (ps_flags seg) TCP_URG then leave c (outcome_base <| o_urgent_dropped := true |>) else
  let zero_window := ps_window seg =? 0 in
  let base := outcome_base <| o_rx_zero_window := zero_window |> in
  if has_flag (ps_flags seg) TCP_RST
  then leave c (base <| o_new_state := Some Closed |> <| o_closed := true |>) else
  if negb (has_flag (ps_flags seg) TCP_ACK) then leave c base else
  if negb (segment_in_window c seg) then leave c (base <| o_tx := TxAck |> <| o_bad_seq := true |>) else
  parsed ← segment_options seg;
  match parsed with
  | Err _ => leave c (base <| o_bad_option := true |>)
  | Ok opts =>
      match paws_check clk c seg opts with
      | PawsMissing => leave c (base <| o_bad_option := true |>)
      | PawsReject => leave c (base <| o_tx := TxAck |> <| o_paws_rejected := true |>)
      | PawsPass c expired => Some (established_accept clk edges send_buffer_bytes links ctx c seg opts expired)
      end
  end.

(** The transition table of the closing states. *)
Definition close_transition (s : TcpState) (fin_acked peer_has_fin : bool) : option TcpState * TxAction :=
  match s, fin_acked, peer_has_fin with
  | FinWait1, true, true => (Some TimeWait, TxAck)
  | FinWait1, true, false => (Some FinWait2, TxNone)
  | FinWait1, false, true => (Some Closing, TxAck)
  | FinWait1, false, false => (None, TxNone)
  | FinWait2, _, true => (Some TimeWait, TxAck)
  | FinWait2, _, false => (None, TxNone)
  | Closing, true, _ => (Some TimeWait, TxNone)
  | Closing, false, _ => (None, TxNone)
  | LastAck, true, _ => (Some Closed, TxNone)
  | LastAck, false, _ => (None, TxNone)
  | CloseWait, _, _ => (None, TxNone)
  | _, _, _ => (None, TxNone)
  end.

(** The part of [handle_close_path] after the option and PAWS checks. *)
Definition close_accept (clk : Clock) (c : TcpConn) (seg : ParsedSegment) (opts : TcpOpts)
    (ts_expired : bool) : TcpConn * Outcome * list MbufOp :=
  let '(c, decoded, dsack, spurious) := sack_pass clk c opts in
  let fin_acked := fin_has_been_acked c (ps_ack seg) in
  let c := if ack_acceptable c seg then c <| c_snd_una := ps_ack seg |> else c in
  let peer_has_fin := has_flag (ps_flags seg) TCP_FIN &&
    (wadd32 (ps_seq seg) (u32 (zlen (ps_payload seg))) =? c_rcv_nxt c) in
  let c := if peer_has_fin then c <| c_rcv_nxt ::= fun n => wadd32 n 1 |> else c in
  let '(new_state, tx) := close_transition (c_state c) fin_acked peer_has_fin in
  (c, outcome_base <| o_tx := tx |> <| o_new_state := new_state |>
        <| o_closed := bool_decide (new_state = Some Closed) |>
        <| o_sack_blocks_decoded := decoded |> <| o_rx_dsack_count := dsack |>
        <| o_tx_tlp_spurious_count := spurious |> <| o_ts_recent_expired := ts_expired |>, []).

Definition handle_close_path (clk : Clock) (c : TcpConn) (seg : ParsedSegment) : Handled :=
  if has_flag (ps_flags seg) TCP_RST
  then leave c (outcome_base <| o_new_state := Some Closed |> <| o_closed := true |>) else
  if bool_decide (c_state c = TimeWait)
  then leave c (outcome_base <| o_tx := TxAck |> <| o_bad_seq := negb (segment_in_window c seg) |>) else
  if negb (has_flag (ps_flags seg) TCP_ACK) then leave c outcome_none else
  if negb (segment_in_window c seg)
  then leave c (outcome_base <| o_tx := TxAck |> <| o_bad_seq := true |>) else
  parsed ← segment_options seg;
  match parsed with
  | Err _ => leave c (outcome_base <| o_bad_option := true |>)
  | Ok opts =>
      match paws_check clk c seg opts with
      | PawsMissing => leave c (outcome_base <| o_bad_option := true |>)
      | PawsReject => leave c (outcome_base <| o_tx := TxAck |> <| o_paws_rejected := true |>)
      | PawsPass c expired => Some (close_accept clk c seg opts expired)
      end
  end.

(** [snd_una + 1 <= ack <= snd_nxt]. *)
Definition handshake_ack_ok (c : TcpConn) (seg : ParsedSegment) : bool :=
  seq_le (wadd32 (c_snd_una c) 1) (ps_ack seg) && seq_le (ps_ack seg) (c_snd_nxt c).

(** What an accepted SYN-ACK installs. *)
Definition absorb_syn_ack (clk : Clock) (c : TcpConn) (seg : ParsedSegment) (opts : TcpOpts) : TcpConn :=
  let c := c <| c_irs := ps_seq seg |> <| c_rcv_nxt := wadd32 (ps_seq seg) 1 |>
             <| c_snd_una := ps_ack seg |> <| c_snd_wnd := ps_window seg |>
             <| c_snd_wl1 := ps_seq seg |> <| c_snd_wl2 := ps_ack seg |>
             <| c_peer_mss := default 536 (mss opts) |> in
  let c := match wscale opts with
           | Some ws_peer => c <| c_ws_shift_in := Z.min ws_peer 14 |>
           | None => c <| c_ws_shift_in := 0 |> <| c_ws_shift_out := 0 |>
           end in
  let c := c <| c_sack_enabled := sack_permitted opts |> in
  match timestamps opts with
  | Some (tsval, _) => c <| c_ts_enabled := true |> <| c_ts_recent := tsval |>
                         <| c_ts_recent_age := clk CkSynTs |>
  | None => c <| c_ts_enabled := false |>
  end.

Definition handle_syn_sent (clk : Clock) (edges : list Z) (c : TcpConn) (seg : ParsedSegment) : Handled :=
  let reset := outcome_base <| o_tx := TxRstForSynSentBadAck |> <| o_new_state := Some Closed |>
                 <| o_closed := true |> in
  if has_flag (ps_flags seg) TCP_RST then
    if has_flag (ps_flags seg) TCP_ACK && handshake_ack_ok c seg
    then leave c (outcome_base <| o_new_state := Some Closed |> <| o_closed := true |>)
    else leave c outcome_none
  else
  if negb (has_flag (ps_flags seg) TCP_SYN) then leave c reset else
  if negb (has_flag (ps_flags seg) TCP_ACK) then leave c outcome_none else
  if negb (handshake_ack_ok c seg) then leave c reset else
  parsed ← parse_options (ps_options seg);
  match parsed with
  | Err _ => leave c (outcome_rst <| o_bad_option := true |>)
  | Ok opts =>
      let c := absorb_syn_ack clk c seg opts in
      let '(c, _) := maybe_seed_srtt_from_syn c (clk CkSynSeed) edges in
      let to_cancel := c_syn_retrans_timer_id c in
      let c := c <| c_syn_retrans_timer_id := None |> in
      Some (c, outcome_base <| o_tx := TxAck |> <| o_new_state := Some Established |>
                 <| o_connected := true |> <| o_syn_retrans_timer_to_cancel := to_cancel |>
                 <| o_ws_shift_clamped := ws_clamped opts |>, [])
  end.

(** What the final ACK of a passive handshake installs. *)
Definition absorb_final_ack (clk : Clock) (c : TcpConn) (seg : ParsedSegment) : option TcpConn :=
  let c := c <| c_snd_una := ps_ack seg |> <| c_snd_wnd := ps_window seg |>
             <| c_snd_wl1 := ps_seq seg |> <| c_snd_wl2 := ps_ack seg |> in
  if c_ts_enabled c then
    parsed ← parse_options (ps_options seg);
    Some (match parsed with
          | Ok opts => match timestamps opts with
                       | Some (tsval, _) => c <| c_ts_recent := tsval |> <| c_ts_recent_age := clk CkSynTs |>
                       | None => c
                       end
          | Err _ => c
          end)
  else Some c.

Definition handle_syn_received (clk : Clock) (c : TcpConn) (seg : ParsedSegment) : Handled :=
  let refuse := outcome_rst <| o_clear_listen_slot_on_close := true |> in
  if has_flag (ps_flags seg) TCP_RST then
    if c_is_passive_open c
    then leave c (outcome_base <| o_closed := true |> <| o_re_listen_if_passive := true |>)
    else leave c (outcome_base <| o_new_state := Some Closed |> <| o_closed := true |>
                    <| o_clear_listen_slot_on_close := true |>)
  else
  if has_flag (ps_flags seg) TCP_SYN then
    if ps_seq seg =? c_irs c
    then leave c (outcome_base <| o_retransmit_syn_ack_for_passive := true |>)
    else leave c refuse
  else
  if negb (has_flag (ps_flags seg) TCP_ACK) then leave c outcome_none else
  if negb (ps_seq seg =? c_rcv_nxt c)
  then leave c (outcome_base <| o_tx := TxAck |> <| o_bad_seq := true |>) else
  if negb (handshake_ack_ok c seg) then leave c refuse else
  c ← absorb_final_ack clk c seg;
  let to_cancel := c_syn_retrans_timer_id c in
  let c := c <| c_syn_retrans_timer_id := None |> in
  Some (c, outcome_base <| o_new_state := Some Established |> <| o_connected := true |>
             <| o_syn_retrans_timer_to_cancel := to_cancel |>, []).

Definition dispatch (test_server : bool) (clk : Clock) (links : Links) (edges : list Z)
    (send_buffer_bytes : Z) (ctx : option MbufInsertCtx) (c : TcpConn) (seg : ParsedSegment) : Handled :=
  match c_state c with
  | SynSent => handle_syn_sent clk edges c seg
  | SynReceived => if test_server then handle_syn_received clk c seg else leave c outcome_none
  | Established => handle_established clk edges send_buffer_bytes links ctx c seg
  | FinWait1 | FinWait2 | Closing | LastAck | CloseWait | TimeWait => handle_close_path clk c seg
  | Closed | Listen => leave c outcome_none
  end.

Definition tuple_from_segment (src_ip dst_ip : Z) (seg : ParsedSegment) : FourTuple :=
  mkFourTuple dst_ip (ps_dst_port seg) src_ip (ps_src_port seg).
