(* ===== verification/Receive.v ===== *)
(** * The receive path of ESTABLISHED: what [deliver_data] does

    The data stages of [Input] against the byte stream.  Stream positions are
    measured from the connection's [rcv_nxt] before the segment, [mem] gives the
    bytes of the mbufs and [S] the bytes of the stream. *)

From S2P Require Import Prelude.
From S2P Require Import Seq.
From S2P Require Import Mbuf.
From S2P Require Import Reassembly.
From S2P Require Import Output.
From S2P Require Import Segment.
From S2P Require Import Conn.
From S2P Require Import Input.

(** ** Well-formed receive queues and chains *)

Record rv_ok (q : RecvQueue) : Prop := {
  rvk_cap : is_u32 (rv_cap q);
  rvk_lens : Forall (fun v => 0 < io_len v < two16) (rv_bytes q);
  rvk_sum : zsum io_len (rv_bytes q) <= rv_cap q
}.

(** The tail of a chain: [u16] lengths, far less than half the sequence space. *)
Definition chain_ok (ls : list (MbufId * Z)) : Prop :=
  Forall (fun l => 0 <= l.2 < two16) ls /\ zsum snd ls < 1073741824.

Lemma chain_ok_cons l ls : chain_ok (l :: ls) -> 0 <= l.2 < two16 /\ chain_ok ls /\ 0 <= zsum snd ls.
Proof.
  intros [H1 H2]. apply Forall_cons in H1 as [Hl H1]. rewrite zsum_cons in H2.
  assert (0 <= zsum snd ls).
  { apply zsum_nonneg. intros x Hx. rewrite Forall_forall in H1. specialize (H1 x Hx). lia. }
  split; [done|]. split; [split; [done|lia]|done].
Qed.

Lemma views_sum (l : list InOrderSegment) : Forall (fun v => 0 < io_len v < two16) l -> 0 <= zsum io_len l.
Proof. intros H. apply zsum_nonneg. intros x Hx. rewrite Forall_forall in H. specialize (H x Hx). lia. Qed.

Lemma views_zero (l : list InOrderSegment) :
  Forall (fun v => 0 < io_len v < two16) l -> zsum io_len l = 0 -> l = [].
Proof.
  intros H Hz. destruct l as [|v l]; [done|]. apply Forall_cons in H as [Hv Hl].
  pose proof (views_sum l Hl). rewrite zsum_cons in Hz. lia.
Qed.

Lemma buffered_bytes_ok q : rv_ok q -> buffered_bytes q = zsum io_len (rv_bytes q).
Proof.
  intros [Hc Hl Hs]. rewrite buffered_bytes_sum. apply u32_id. pose proof (views_sum _ Hl). width_lia.
Qed.

Lemma recv_free_space_ok q : rv_ok q -> recv_free_space q = rv_cap q - zsum io_len (rv_bytes q).
Proof.
  intros H. unfold recv_free_space, sat_sub. rewrite buffered_bytes_ok by done. pose proof (rvk_sum _ H). lia.
Qed.

Lemma recv_free_space_range q : rv_ok q -> is_u32 (recv_free_space q).
Proof.
  intros H. rewrite recv_free_space_ok by done. destruct H as [Hc Hl Hs].
  pose proof (views_sum _ Hl). width_lia.
Qed.

(** ** Appending in order *)

Section Content.
Context (mem : MbufId -> Z -> Z) (S : Z -> Z).

(** The chain spells the stream from position [p]. *)
Fixpoint chain_carries (p : Z) (ls : list (MbufId * Z)) : Prop :=
  match ls with
  | [] => True
  | (m, len) :: rest => (forall i, 0 <= i < len -> mem m i = S (p + i)) /\ chain_carries (p + len) rest
  end.

(** [q'] is [q] with the views [outs] of [n] bytes appended, one reference taken
    for each. *)
Record appended (q q' : RecvQueue) (outs : list InOrderSegment) (n : Z) (ops : list MbufOp) : Prop := {
  ap_bytes : rv_bytes q' = rv_bytes q ++ outs;
  ap_cap : rv_cap q' = rv_cap q;
  ap_reorder : rv_reorder q' = rv_reorder q;
  ap_ok : rv_ok q';
  ap_len : n = zsum io_len outs;
  ap_room : 0 <= n <= recv_free_space q;
  ap_lens : Forall (fun v => 0 < io_len v < two16) outs;
  ap_refs : forall m, owned m outs = ref_delta m ops
}.

Lemma appended_nil q : rv_ok q -> appended q q [] 0 [].
Proof.
  intros H. pose proof (recv_free_space_range q H). split; rewrite ?app_nil_r; try done. width_lia.
Qed.

Lemma appended_one q m offset take_ :
  rv_ok q -> 0 < take_ < two16 -> take_ <= recv_free_space q ->
  appended q (q <| rv_bytes ::= fun b => b ++ [mkInOrderSegment (mkMbufHandle m) offset (u16 take_)] |>)
    [mkInOrderSegment (mkMbufHandle m) offset take_] take_ [RefcntUpdate m 1].
Proof.
  intros H Ht Hr. rewrite u16_id by width_lia. split; cbn [field_set rv_bytes rv_cap rv_reorder]; try done; try lia.
  - rewrite recv_free_space_ok in Hr by done. destruct H as [Hc Hl Hs].
    split; cbn [field_set rv_bytes rv_cap rv_reorder]; [done| |].
    + apply Forall_app_2; [done|]. constructor; [exact Ht|constructor].
    + rewrite zsum_app, zsum_cons, zsum_nil. cbn [io_len]. lia.
  - rewrite zsum_cons, zsum_nil. cbn [io_len]. lia.
  - constructor; [exact Ht|constructor].
Qed.

Lemma appended_trans q1 q2 q3 o1 o2 n1 n2 p1 p2 :
  rv_ok q1 -> appended q1 q2 o1 n1 p1 -> appended q2 q3 o2 n2 p2 ->
  appended q1 q3 (o1 ++ o2) (n1 + n2) (p1 ++ p2).
Proof.
  intros H0 [A1 A2 A3 A4 A5 A6 A7 A8] [B1 B2 B3 B4 B5 B6 B7 B8].
  rewrite recv_free_space_ok in B6, A6 by done. rewrite A1, zsum_app in B6.
  split; try congruence; rewrite ?recv_free_space_ok by done.
  - by rewrite B1, A1, app_assoc.
  - rewrite zsum_app. lia.
  - lia.
  - by apply Forall_app_2.
  - intros m. rewrite owned_app, ref_delta_app, A8, B8. done.
Qed.

Lemma in_order_links_spec ls : forall q delivered drop_ ops p,
  chain_ok ls -> rv_ok q -> 0 <= delivered -> delivered + zsum snd ls < two32 ->
  exists q' outs n nops drop',
    in_order_links ls q delivered drop_ ops = (q', delivered + n, drop', ops ++ nops) /\
    appended q q' outs n nops /\ n <= zsum snd ls /\
    (chain_carries p ls -> concat (map (view_bytes mem) outs) = stream S p n).
Proof.
  induction ls as [|[m len] rest IH]; intros q delivered drop_ ops p Hc Hq Hd Hsum; cbn [in_order_links].
  { exists q, [], 0, [], drop_. rewrite Z.add_0_r, app_nil_r. split; [done|].
    split; [by apply appended_nil|]. split; done. }
  apply chain_ok_cons in Hc as (Hlen & Hc & Hz). cbn in Hlen. rewrite zsum_cons in Hsum. cbn [snd] in Hsum.
  pose proof (recv_free_space_range q Hq) as Hfree.
  destruct (Z.eqb_spec (recv_free_space q) 0) as [E0|E0].
  { eexists q, [], 0, [], _. rewrite Z.add_0_r, app_nil_r. split; [reflexivity|].
    split; [by apply appended_nil|]. rewrite zsum_cons. cbn. split; [lia|done]. }
  set (take_ := Z.min len (recv_free_space q)).
  destruct (Z.ltb_spec 0 take_) as [Ht|Ht].
  - pose proof (appended_one q m 0 take_ Hq ltac:(width_lia) ltac:(lia)) as A1.
    set (q1 := q <| rv_bytes ::= _ |>) in *.
    assert (Hsat : sat_add32 delivered take_ = delivered + take_)
      by (unfold sat_add32; width_lia).
    rewrite Hsat.
    destruct (IH q1 (delivered + take_)
      (if take_ <? len then sat_add32 drop_ (wsub32 len take_) else drop_) (ops ++ [RefcntUpdate m 1])
      (p + len) Hc (ap_ok _ _ _ _ _ A1) ltac:(lia) ltac:(lia))
      as (q' & outs & n & nops & drop' & E & A2 & Hn & Hcar).
    eexists q', _, (take_ + n), (RefcntUpdate m 1 :: nops), drop'.
    split; [rewrite E, <- app_assoc; cbn; do 3 f_equal; lia|].
    split; [exact (appended_trans _ _ _ _ _ _ _ _ _ Hq A1 A2)|].
    rewrite zsum_cons. cbn [snd]. split; [lia|].
    intros [Hm Hrest]. cbn [app map concat].
    rewrite (view_stream mem S _ p) by (cbn; intros i Hi; apply Hm; lia). cbn [io_len].
    destruct (Z.eq_dec take_ len) as [->|Hne].
    + rewrite Hcar by done. rewrite stream_app; [done|lia|apply (ap_room _ _ _ _ _ A2)].
    + assert (n = 0) as ->.
      { pose proof (ap_room _ _ _ _ _ A2) as Hr. rewrite recv_free_space_ok in Hr by apply A1.
        rewrite (ap_bytes _ _ _ _ _ A1), zsum_app, zsum_cons, zsum_nil in Hr. cbn [io_len] in Hr.
        pose proof (recv_free_space_ok q Hq). rewrite (ap_cap _ _ _ _ _ A1) in Hr. unfold take_ in *. lia. }
      rewrite (views_zero outs (ap_lens _ _ _ _ _ A2)) by (symmetry; apply (ap_len _ _ _ _ _ A2)).
      cbn. by rewrite app_nil_r, Z.add_0_r.
  - assert (len = 0) as -> by (unfold take_, is_u32 in *; lia).
    destruct (IH q delivered (if take_ <? 0 then sat_add32 drop_ (wsub32 0 take_) else drop_) ops
      (p + 0) Hc Hq Hd ltac:(lia)) as (q' & outs & n & nops & drop' & E & A2 & Hn & Hcar).
    exists q', outs, n, nops, drop'. split; [exact E|]. split; [done|].
    rewrite zsum_cons. cbn [snd]. split; [lia|]. rewrite Z.add_0_r in Hcar. intros [_ H]. rewrite Z.add_0_r in H. auto.
Qed.

(** The segment's bytes: the head view at its stream position [p], then the chain. *)
Definition segment_carries (links : Links) (ctx : MbufInsertCtx) (p plen : Z) : Prop :=
  (forall i, 0 <= i < plen -> mem (mi_mbuf ctx) (mi_payload_offset ctx + i) = S (p + i)) /\
  chain_carries (p + plen) (links (mi_mbuf ctx)).

(** What the engine guarantees of a received mbuf. *)
Record ctx_ok (links : Links) (ctx : MbufInsertCtx) (plen : Z) : Prop := {
  cx_off : 0 <= mi_payload_offset ctx;
  cx_len : mi_payload_offset ctx + plen < two16;
  cx_chain : chain_ok (links (mi_mbuf ctx))
}.

Lemma append_in_order_spec links ctx q plen p :
  rv_ok q -> 0 < plen -> ctx_ok links ctx plen ->
  exists q' outs n ops drop_,
    append_in_order links q plen (Some ctx) = (q', n, drop_, ops) /\
    appended q q' outs n ops /\ n < two31 /\
    (segment_carries links ctx p plen -> concat (map (view_bytes mem) outs) = stream S p n).
Proof.
  intros Hq Hp [Hoff Hlen Hch]. unfold append_in_order. rewrite (u32_id plen) by width_lia.
  pose proof (recv_free_space_range q Hq) as Hfree.
  set (take_ := Z.min plen (recv_free_space q)).
  destruct (Z.ltb_spec 0 take_) as [Ht|Ht].
  2: { eexists q, [], 0, [], _. split; [reflexivity|]. split; [by apply appended_nil|]. split; [done|done]. }
  pose proof (appended_one q (mi_mbuf ctx) (mi_payload_offset ctx) take_ Hq
    ltac:(unfold take_; width_lia) ltac:(lia)) as A1.
  set (q1 := q <| rv_bytes ::= _ |>) in *.
  pose proof Hch as [Hch1 Hch2].
  destruct (in_order_links_spec (links (mi_mbuf ctx)) q1 take_ 0 [RefcntUpdate (mi_mbuf ctx) 1] (p + plen)
    Hch (ap_ok _ _ _ _ _ A1) ltac:(lia) ltac:(unfold take_; width_lia))
    as (q' & outs & n & nops & drop' & E & A2 & Hn & Hcar).
  rewrite E. eexists q', _, (take_ + n), _, _. split; [reflexivity|].
  split; [exact (appended_trans _ _ _ _ _ _ _ _ _ Hq A1 A2)|]. split; [unfold take_; width_lia|].
  intros [Hhead Hrest]. cbn [app map concat].
  rewrite (view_stream mem S _ p) by (cbn; intros i Hi; apply Hhead; lia). cbn [io_len].
  destruct (Z.eq_dec take_ plen) as [Et|Hne].
  - rewrite Hcar by done. rewrite Et, stream_app; [done|lia|apply (ap_room _ _ _ _ _ A2)].
  - assert (n = 0) as ->.
    { pose proof (ap_room _ _ _ _ _ A2) as Hr. rewrite recv_free_space_ok in Hr by apply A1.
      rewrite (ap_bytes _ _ _ _ _ A1), zsum_app, zsum_cons, zsum_nil in Hr. cbn [io_len] in Hr.
      pose proof (recv_free_space_ok q Hq). rewrite (ap_cap _ _ _ _ _ A1) in Hr. unfold take_ in *. lia. }
    rewrite (views_zero outs (ap_lens _ _ _ _ _ A2)) by (symmetry; apply (ap_len _ _ _ _ _ A2)).
    cbn. by rewrite app_nil_r, Z.add_0_r.
Qed.

(** ** The data stage as a whole *)

(** Everything stored starts at position [k] or later. *)
Definition starts_from (base k : Z) (q : ReorderQueue) : Prop :=
  Forall (fun s => k <= so base s) (segments q).

(** What [deliver_data] promises: the views appended spell the stream from the
    old [rcv_nxt] on, [rcv_nxt] moves by exactly their length, the queues keep
    their invariants, and every reference is accounted for. *)
Record data_step (links : Links) (c : TcpConn) (ctx : MbufInsertCtx) (seg : ParsedSegment)
    (d : DataResult) (outs : list InOrderSegment) : Prop := {
  ds_frame : rx_frame c (dr_conn d);
  ds_bytes : rv_bytes (c_recv (dr_conn d)) = rv_bytes (c_recv c) ++ outs;
  ds_cap : rv_cap (c_recv (dr_conn d)) = rv_cap (c_recv c);
  ds_count : dr_delivered d = zsum io_len outs;
  ds_nonneg : 0 <= dr_delivered d < two31;
  ds_rcv_nxt : c_rcv_nxt (dr_conn d) = wadd32 (c_rcv_nxt c) (dr_delivered d);
  ds_rv : rv_ok (c_recv (dr_conn d));
  ds_rq : rq_ok (c_rcv_nxt (dr_conn d)) (rv_reorder (c_recv (dr_conn d)));
  ds_strict : starts_from (c_rcv_nxt c) 1 (rv_reorder (c_recv c)) ->
    starts_from (c_rcv_nxt (dr_conn d)) 1 (rv_reorder (c_recv (dr_conn d)));
  ds_refs : forall m, owned m (c_recv (dr_conn d)) = owned m (c_recv c) + ref_delta m (dr_calls d) +
    (if dr_retained d && (mi_mbuf ctx =? m) then 1 else 0);
  ds_content : Forall (carries (c_rcv_nxt c) mem S) (segments (rv_reorder (c_recv c))) ->
    segment_carries links ctx (off (c_rcv_nxt c) (ps_seq seg)) (zlen (ps_payload seg)) ->
    concat (map (view_bytes mem) outs) = stream S 0 (dr_delivered d) /\
    Forall (carries (c_rcv_nxt c) mem S) (segments (rv_reorder (c_recv (dr_conn d))))
}.

Lemma rq_ok_advance base n q :
  is_u32 base -> 0 <= n < two31 -> Forall (fun s => n < so base s) (segments q) ->
  rq_ok base q -> rq_ok (wadd32 base n) q.
Proof.
  intros Hb Hn Hf Hq. apply (rq_ok_rebase base); [apply wadd32_range| |done].
  rewrite off_wadd by (rewrite off_base; width_lia). rewrite off_base.
  eapply Forall_impl; [exact Hf|]. cbn. intros; lia.
Qed.

Lemma starts_from_advance base n k q :
  is_u32 base -> 0 <= n < two31 -> Forall (fun s => n + k <= so base s) (segments q) -> 0 <= k ->
  starts_from (wadd32 base n) k q.
Proof.
  intros Hb Hn Hf Hk. unfold starts_from. eapply Forall_impl; [exact Hf|]. cbn. intros s Hs.
  assert (off base (wadd32 base n) = n) as E
    by (rewrite off_wadd by (rewrite off_base; width_lia); by rewrite off_base).
  unfold so in *. unfold off at 1. rewrite (wsub_off base) by lia. lia.
Qed.

Lemma deliver_in_order_spec links c ctx seg :
  is_u32 (c_rcv_nxt c) -> rv_ok (c_recv c) -> rq_ok (c_rcv_nxt c) (rv_reorder (c_recv c)) ->
  0 < zlen (ps_payload seg) -> ctx_ok links ctx (zlen (ps_payload seg)) -> ps_seq seg = c_rcv_nxt c ->
  exists outs, data_step links c ctx seg (deliver_in_order links c seg (Some ctx)) outs /\
    dr_retained (deliver_in_order links c seg (Some ctx)) = false.
Proof.
  intros Hr Hq Hrq Hp Hctx Hseq. unfold deliver_in_order.
  destruct (append_in_order_spec links ctx (c_recv c) (zlen (ps_payload seg)) 0 Hq Hp Hctx)
    as (q' & outs & n & ops & drop_ & -> & A & Hn & Hcar).
  pose proof A as [Ab Ac Ar Aok Al Arm Als Aref].
  rewrite Ar.
  destruct (reorder_is_empty (rv_reorder (c_recv c))) eqn:Eemp; cbn [negb].
  - exists outs. split; [|done]. unfold reorder_is_empty in Eemp.
    destruct (segments (rv_reorder (c_recv c))) eqn:Es; [|done].
    split; cbn [dr_conn dr_delivered dr_retained dr_calls]; conn_simpl.
    + rx_frame_tac.
    + exact Ab.
    + exact Ac.
    + exact Al.
    + lia.
    + reflexivity.
    + exact Aok.
    + rewrite Ar. apply rq_ok_advance; try done; [lia|]. by rewrite Es.
    + intros _. unfold starts_from. rewrite Ar, Es. constructor.
    + intros m. unfold owned at 1 2, RecvQueue_owner. rewrite Ab, Ar, owned_app, Aref. cbn. lia.
    + rewrite Ar, Es, Hseq, off_base. intros _ H. split; [by apply Hcar|constructor].
  - destruct (drain_contiguous_spec (c_rcv_nxt c) (rv_reorder (c_recv c)) (wadd32 (c_rcv_nxt c) n)
      (recv_free_space q')) as (rq' & douts & dn & dropped & dops & d' & Ed & D & _ & Hrq' & Hcap').
    { done. } { apply wadd32_range. }
    { rewrite off_wadd by (rewrite off_base; width_lia). rewrite off_base. lia. }
    { by apply recv_free_space_range. }
    rewrite Ed.
    pose proof (dn_len _ _ _ _ _ _ _ _ D) as D3. pose proof (dn_room _ _ _ _ _ _ _ _ D) as D5.
    pose proof (dn_rcv_off _ _ _ _ _ _ _ _ D) as D7. pose proof (dn_rcv_bound _ _ _ _ _ _ _ _ D) as D8.
    pose proof (dn_rest _ _ _ _ _ _ _ _ D) as D10. pose proof (dn_refs _ _ _ _ _ _ _ _ D) as D12.
    pose proof (dn_views _ _ _ _ _ _ _ _ D) as D13. cbn [dr_rcv_nxt dr_room] in D5, D7.
    rewrite off_wadd, off_base, Z.add_0_l in D7 by (rewrite off_base; width_lia).
    rewrite D7 in D8, D10.
    assert (Hsum : wadd32 n dn = n + dn) by (apply wadd32_id; width_lia).
    exists (outs ++ douts). split; [|done].
    split; cbn [dr_conn dr_delivered dr_retained dr_calls]; conn_simpl;
      cbn [field_set rv_reorder rv_bytes rv_cap]; rewrite ?Hsum, ?wadd32_assoc.
    + rx_frame_tac.
    + by rewrite Ab, app_assoc.
    + exact Ac.
    + rewrite zsum_app. lia.
    + lia.
    + reflexivity.
    + destruct Aok as [K1 K2 K3]. split; cbn [field_set rv_bytes rv_cap rv_reorder]; [done|by apply Forall_app_2|].
      rewrite recv_free_space_ok in D5 by (by destruct A). rewrite zsum_app. lia.
    + apply rq_ok_advance; try done; lia.
    + intros _. apply starts_from_advance; try done; [lia|].
      eapply Forall_impl; [exact D10|]. cbn. intros; lia.
    + intros m. unfold owned at 1 2, RecvQueue_owner. cbn [rv_bytes rv_reorder].
      rewrite Ab, !owned_app, ref_delta_app, Aref. specialize (D12 m). cbn [andb].
      change (owned m rq') with (owned m (segments rq')).
      change (owned m (rv_reorder (c_recv c))) with (owned m (segments (rv_reorder (c_recv c)))). lia.
    + rewrite Hseq, off_base. intros Hc Hs. split.
      * rewrite map_app, concat_app, (Hcar Hs), (dn_content _ _ _ _ _ _ _ _ D mem S Hc).
        cbn [dr_rcv_nxt]. rewrite off_wadd, off_base, Z.add_0_l by (rewrite off_base; width_lia).
        rewrite stream_app by lia. by rewrite Z.add_0_l.
      * destruct (dn_suffix _ _ _ _ _ _ _ _ D) as [k ->]. by apply Forall_drop.
Qed.

(** ** Out-of-order insertion *)

(** One insertion: the invariant, the references and the content. *)
Lemma insert_step base q seq plen m moff q' o ops :
  insert_pre base q seq plen moff -> reorder_insert q seq plen m moff = (q', o, ops) ->
  rq_ok base q' /\
  (forall k, k <= off base seq -> starts_from base k q -> starts_from base k q') /\
  (forall m', owned m' q' = owned m' q + ref_delta m' ops +
     (if mbuf_ref_retained o && (m =? m') then 1 else 0)) /\
  (Forall (carries base mem S) (segments q) ->
   (forall i, 0 <= i < plen -> mem m (moff + i) = S (off base seq + i)) ->
   Forall (carries base mem S) (segments q')).
Proof.
  intros Hp E. destruct (reorder_insert_spec base q seq plen m moff Hp) as (q1 & o1 & ops1 & news & E1 & I).
  rewrite E in E1. injection E1 as <- <- <-.
  split; [apply I|]. split.
  { intros k Hk Hf. unfold starts_from. rewrite (ins_perm _ _ _ _ _ _ _ _ _ _ I).
    apply Forall_app_2; [|exact Hf].
    eapply Forall_impl; [exact (ins_carved _ _ _ _ _ _ _ _ _ _ I)|]. cbn. intros s [_ _ [Ha _] _ _]. lia. }
  split; [intros m'; by eapply inserted_refs|]. intros. by eapply inserted_carries.
Qed.

Lemma ooo_link_spec base m len link_seq w :
  rq_ok base (ow_queue w) -> is_u32 link_seq -> 0 < len < two16 -> off base link_seq + len < two31 ->
  let w' := ooo_link m len link_seq w in
  rq_ok base (ow_queue w') /\
  (forall k, k <= off base link_seq -> starts_from base k (ow_queue w) -> starts_from base k (ow_queue w')) /\
  (forall m', owned m' (ow_queue w') - ref_delta m' (ow_ops w') =
              owned m' (ow_queue w) - ref_delta m' (ow_ops w)) /\
  (Forall (carries base mem S) (segments (ow_queue w)) ->
   (forall i, 0 <= i < len -> mem m i = S (off base link_seq + i)) ->
   Forall (carries base mem S) (segments (ow_queue w'))).
Proof.
  intros Hq Hs Hlen Hend. cbv zeta. unfold ooo_link.
  destruct (reorder_insert (ow_queue w) link_seq len m 0) as [[rq o] iops] eqn:E.
  destruct (insert_step base (ow_queue w) link_seq len m 0 rq o iops) as (Hok & Hlow & Hrefs & Hcar); [|done|].
  { split; try done; lia. }
  cbn [ow_queue ow_ops]. split; [done|]. split; [exact Hlow|]. split; [|intros Hc Hm; apply Hcar; done].
  intros m'. specialize (Hrefs m').
  destruct (mbuf_ref_retained o); rewrite ?ref_delta_app, !ref_delta_cons, ?ref_delta_nil; cbn [op_delta andb] in *;
    destruct (m =? m'); lia.
Qed.

Lemma ooo_links_spec base ls : forall link_seq w,
  chain_ok ls -> rq_ok base (ow_queue w) -> is_u32 link_seq -> off base link_seq + zsum snd ls < two31 ->
  let w' := ooo_links ls link_seq w in
  rq_ok base (ow_queue w') /\
  (forall k, k <= off base link_seq -> starts_from base k (ow_queue w) -> starts_from base k (ow_queue w')) /\
  (forall m', owned m' (ow_queue w') - ref_delta m' (ow_ops w') =
              owned m' (ow_queue w) - ref_delta m' (ow_ops w)) /\
  (Forall (carries base mem S) (segments (ow_queue w)) -> chain_carries (off base link_seq) ls ->
   Forall (carries base mem S) (segments (ow_queue w'))).
Proof.
  induction ls as [|[m len] rest IH]; intros link_seq w Hc Hq Hs Hend; cbv zeta; cbn [ooo_links]; [done|].
  apply chain_ok_cons in Hc as (Hlen & Hc & Hz). cbn [snd] in Hlen. rewrite zsum_cons in Hend. cbn [snd] in Hend.
  destruct (Z.eqb_spec len 0) as [->|Hne].
  - destruct (IH link_seq w Hc Hq Hs ltac:(lia)) as (H1 & H0 & H2 & H3). split_and!; [done..|].
    intros Hca [_ Hrest]. rewrite Z.add_0_r in Hrest. by apply H3.
  - destruct (ooo_link_spec base m len link_seq w Hq Hs ltac:(lia) ltac:(lia)) as (K1 & K0 & K2 & K3).
    pose proof (off_range base link_seq) as Hor. unfold is_u32 in Hor.
    assert (Hoff : off base (wadd32 link_seq len) = off base link_seq + len) by (apply off_wadd; width_lia).
    destruct (IH (wadd32 link_seq len) (ooo_link m len link_seq w) Hc K1 (wadd32_range _ _)) as (H1 & H0 & H2 & H3);
      [lia|]. split; [done|]. split; [intros k Hk Hf; apply H0; [lia|by apply K0]|].
    split; [intros m'; rewrite H2; apply K2|].
    intros Hca [Hm Hrest]. apply H3; [by apply K3|by rewrite Hoff].
Qed.

Lemma deliver_out_of_order_spec links c ctx seg :
  is_u32 (c_rcv_nxt c) -> rv_ok (c_recv c) -> rq_ok (c_rcv_nxt c) (rv_reorder (c_recv c)) ->
  0 < zlen (ps_payload seg) -> ctx_ok links ctx (zlen (ps_payload seg)) -> is_u32 (ps_seq seg) ->
  0 < off (c_rcv_nxt c) (ps_seq seg) < two16 ->
  data_step links c ctx seg (deliver_out_of_order links c seg (Some ctx)) [].
Proof.
  intros Hr Hq Hrq Hp [Hoff Hlen Hch] Hs Hwin. unfold deliver_out_of_order.
  rewrite (u32_id (zlen _)) by width_lia.
  set (plen := zlen (ps_payload seg)) in *. pose proof Hch as [_ Hsum].
  assert (Hnil : forall d, dr_conn d = c -> dr_delivered d = 0 -> dr_retained d = false -> dr_calls d = [] ->
    data_step links c ctx seg d []).
  { intros d E1 E2 E3 E4. split; rewrite ?E1, ?E2, ?E3, ?E4, ?app_nil_r; try done.
    - by rewrite wadd32_0_r.
    - intros m. cbn [andb]. rewrite ref_delta_nil. lia. }
  destruct (0 <? free_space_total (c_recv c)); [|by apply Hnil].
  set (take_ := Z.min plen (free_space_total (c_recv c))).
  assert (Htake : 0 <= take_ <= plen) by (unfold take_, free_space_total, sat_sub; lia).
  destruct (reorder_insert _ _ _ _ _) as [[rq o] ops] eqn:E.
  destruct (insert_step (c_rcv_nxt c) (rv_reorder (c_recv c)) (ps_seq seg) take_ (mi_mbuf ctx)
    (mi_payload_offset ctx) rq o ops) as (Hok & Hlow & Hrefs & Hcar); [|done|].
  { split; try done; width_lia. }
  assert (Hoffp : off (c_rcv_nxt c) (wadd32 (ps_seq seg) plen) = off (c_rcv_nxt c) (ps_seq seg) + plen).
  { apply off_wadd. pose proof (off_range (c_rcv_nxt c) (ps_seq seg)). width_lia. }
  set (w0 := mkOooWalk rq _ _ _ ops).
  destruct (ooo_links_spec (c_rcv_nxt c) (links (mi_mbuf ctx)) (wadd32 (ps_seq seg) plen) w0 Hch Hok
    (wadd32_range _ _)) as (K1 & K0 & K2 & K3); [rewrite Hoffp; width_lia|].
  set (w := ooo_links _ _ w0) in *.
  split; cbn [dr_conn dr_delivered dr_retained dr_calls]; conn_simpl;
    cbn [field_set rv_bytes rv_cap rv_reorder].
  - rx_frame_tac.
  - by rewrite app_nil_r.
  - done.
  - done.
  - done.
  - by rewrite wadd32_0_r.
  - destruct Hq as [Q1 Q2 Q3]. by split.
  - exact K1.
  - intros Hf. apply K0; [rewrite Hoffp; lia|]. apply Hlow; [lia|exact Hf].
  - intros m. specialize (K2 m). specialize (Hrefs m). unfold owned at 1 2, RecvQueue_owner.
    cbn [rv_bytes rv_reorder]. cbn [w0 ow_queue ow_ops] in K2. lia.
  - intros Hc [Hm Hrest]. split; [done|]. apply K3; [|by rewrite Hoffp].
    apply Hcar; [done|]. intros i Hi. apply Hm. lia.
Qed.

(** ** All branches *)

Lemma payload_in_window c seg : segment_in_window c seg = true ->
  0 < zlen (ps_payload seg) < two16 -> 0 <= c_rcv_wnd c <= U16_MAX ->
  off (c_rcv_nxt c) (ps_seq seg) < two16.
Proof.
  intros H Hl Hw. unfold segment_in_window, segment_len in H.
  rewrite (u32_id (zlen _)), wadd32_id in H by (destruct (has_flag _ _); width_lia).
  rewrite (proj2 (Z.eqb_neq _ _)) in H by (destruct (has_flag _ _); lia).
  apply andb_true_iff in H as [H _]. apply in_window_spec in H; [|width_lia]. width_lia.
Qed.

Lemma data_step_nothing links c ctx seg :
  is_u32 (c_rcv_nxt c) -> rv_ok (c_recv c) -> rq_ok (c_rcv_nxt c) (rv_reorder (c_recv c)) ->
  data_step links c ctx seg (mkDataResult c 0 0 0 0 false 0 []) [].
Proof.
  intros Hr Hq Hrq. split; cbn [dr_conn dr_delivered dr_retained dr_calls]; try done.
  - by rewrite app_nil_r.
  - by rewrite wadd32_0_r.
  - intros m. cbn [andb]. rewrite ref_delta_nil. lia.
Qed.

Lemma deliver_data_spec links c ctx seg :
  is_u32 (c_rcv_nxt c) -> rv_ok (c_recv c) -> rq_ok (c_rcv_nxt c) (rv_reorder (c_recv c)) ->
  0 <= c_rcv_wnd c <= U16_MAX -> segment_in_window c seg = true -> is_u32 (ps_seq seg) ->
  ctx_ok links ctx (zlen (ps_payload seg)) ->
  exists outs, data_step links c ctx seg (deliver_data links c seg (Some ctx)) outs.
Proof.
  intros Hr Hq Hrq Hw Hwin Hs Hctx. unfold deliver_data.
  destruct (ps_payload seg) as [|b p] eqn:Ep; [exists []; by apply data_step_nothing|].
  rewrite <- Ep in *. assert (Hp : 0 < zlen (ps_payload seg)) by (rewrite Ep, zlen_cons; pose proof (zlen_nonneg p); lia).
  destruct (Z.eqb_spec (ps_seq seg) (c_rcv_nxt c)) as [E|E].
  - destruct (deliver_in_order_spec links c ctx seg) as (outs & H & _); eauto.
  - destruct (seq_lt (c_rcv_nxt c) (ps_seq seg)); exists []; [|by apply data_step_nothing].
    pose proof (off_range (c_rcv_nxt c) (ps_seq seg)). apply deliver_out_of_order_spec; try done. split.
    + assert (off (c_rcv_nxt c) (ps_seq seg) <> 0); [|width_lia].
      intros E0. apply E. apply (off_inj (c_rcv_nxt c)); [done..|]. by rewrite off_base.
    + destruct Hctx. apply payload_in_window; try done. width_lia.
Qed.
End Content.
