(* ===== verification/Dispatch.v ===== *)
(** * The handlers of tcp_input.rs: what one inbound segment can do

    Properties of [dispatch]: totality, the legal transitions, which outcomes
    leave the connection untouched, sender-side bookkeeping, the delivered
    byte stream and the conservation of packet-buffer references. *)

From S2P Require Import Prelude.
From S2P Require Import Seq.
From S2P Require Import Options.
From S2P Require Import Sack.
From S2P Require Import Mbuf.
From S2P Require Import Reassembly.
From S2P Require Import Retrans.
From S2P Require Import Rtt.
From S2P Require Import Rack.
From S2P Require Import Output.
From S2P Require Import Segment.
From S2P Require Import Conn.
From S2P Require Import Input.
From S2P Require Import Receive.

(** ** Views preserved by a stage *)

(** [keeps V c c']: the stage that turned [c] into [c'] left the view [V] alone. *)
Definition keeps {A} (V : TcpConn -> A) (c c' : TcpConn) : Prop := V c' = V c.

#[export] Instance keeps_refl {A} (V : TcpConn -> A) : Reflexive (keeps V).
Proof. intros c. reflexivity. Qed.
#[export] Instance keeps_trans {A} (V : TcpConn -> A) : Transitive (keeps V).
Proof. unfold keeps. intros a b c H1 H2. congruence. Qed.
#[export] Instance keeps_equiv {A} (V : TcpConn -> A) : Equivalence (keeps V).
Proof. split; [apply keeps_refl| |apply keeps_trans]. intros a b H. by symmetry. Qed.

(** The receive side, the state and [snd_nxt]: what the sender-side stages of a
    handler never touch. *)
Definition rx_view (c : TcpConn) :=
  (c_state c, c_recv c, c_rcv_nxt c, c_rcv_wnd c, c_last_sack_trigger c, c_delivered_segments c,
   c_our_fin_seq c, c_snd_nxt c).

#[export] Instance segment_in_window_proper : Proper (keeps rx_view ==> eq ==> eq) segment_in_window.
Proof.
  intros a b H seg ? <-. unfold keeps, rx_view in H. injection H as _ _ E1 E2 _ _ _ _.
  unfold segment_in_window. by rewrite E1, E2.
Qed.

(** One field update outside the view. *)
Ltac keeps_step :=
  match goal with
  | |- keeps ?V ?a (@field_set TcpConn ?T ?q ?i ?f ?r) =>
      transitivity r;
      [ | let H := fresh in
          assert (H : forall x, keeps V x (@field_set TcpConn T q i f x)) by (intros x; reflexivity);
          exact (H r) ]
  end.
Ltac keeps_tac := repeat first [reflexivity | keeps_step].

Section Frames.
Context (clk : Clock) (edges : list Z) (sbb : Z).

Lemma paws_keeps c seg opts c' e : paws_check clk c seg opts = PawsPass c' e ->
  keeps rx_view c c' /\ keeps c_snd_una c c'.
Proof.
  unfold paws_check. intros H.
  destruct (c_ts_enabled c); [|injection H as <- <-; split; reflexivity].
  destruct (timestamps opts) as [[v ecr]|]; [|discriminate H].
  destruct (negb _ && _); [injection H as <- <-; split; keeps_tac|].
  destruct (seq_lt v _); [discriminate H|].
  destruct (seq_le _ _); injection H as <- <-; split; keeps_tac.
Qed.

Lemma attribute_loop_length l r now w slots : length (attribute_loop l r now w slots).1 = length slots.
Proof.
  induction slots as [|[p|] rest IH]; cbn [attribute_loop]; [done| |].
  - destruct (probe_matches l r now w p); [done|]. destruct (attribute_loop l r now w rest). cbn in *. by rewrite IH.
  - destruct (attribute_loop l r now w rest). cbn in *. by rewrite IH.
Qed.

Lemma attribute_keeps {A} (V : TcpConn -> A) c l r now :
  (forall x f, length (f (c_tlp_recent_probes x)) = length (c_tlp_recent_probes x) ->
    keeps V x (x <| c_tlp_recent_probes ::= f |>)) ->
  keeps V c (attribute_dsack_to_recent_tlp_probe c l r now).1.
Proof.
  intros H. unfold attribute_dsack_to_recent_tlp_probe.
  pose proof (attribute_loop_length l r now (attribution_window_ns c) (c_tlp_recent_probes c)) as Hl.
  destruct (attribute_loop l r now _ _) as [slots hit]. by apply H.
Qed.

(** A view that ignores the fields the SACK pass writes survives it. *)
Lemma sack_loop_keeps {A} (V : TcpConn -> A)
  (Hp : forall x f, length (f (c_tlp_recent_probes x)) = length (c_tlp_recent_probes x) ->
    keeps V x (x <| c_tlp_recent_probes ::= f |>))
  (Hr : forall x f, keeps V x (x <| c_rack ::= f |>))
  (Hs : forall x f, keeps V x (x <| c_sack_scoreboard ::= f |>))
  (Hm : forall x b, keeps V x (x <| c_snd_retrans ::= fun r => mark_sacked r b |>)) blocks :
  forall i c d s, keeps V c (sack_loop clk blocks i c d s).1.1.
Proof.
  induction blocks as [|b rest IH]; intros i c d s; cbn [sack_loop]; [reflexivity|].
  destruct (is_dsack b (c_snd_una c) (c_sack_scoreboard c)).
  - set (c1 := c <| c_rack ::= _ |>).
    pose proof (attribute_keeps V c1 (sb_left b) (sb_right b) (clk (CkDsack i)) Hp) as H1.
    destruct (attribute_dsack_to_recent_tlp_probe c1 _ _ _) as [c2 hit]. cbn [fst] in H1.
    etransitivity; [|apply IH]. etransitivity; [apply Hr|exact H1].
  - etransitivity; [|apply IH]. etransitivity; [apply Hs|apply Hm].
Qed.

Lemma sack_pass_keeps {A} (V : TcpConn -> A) c opts
  (Hp : forall x f, length (f (c_tlp_recent_probes x)) = length (c_tlp_recent_probes x) ->
    keeps V x (x <| c_tlp_recent_probes ::= f |>))
  (Hr : forall x f, keeps V x (x <| c_rack ::= f |>))
  (Hs : forall x f, keeps V x (x <| c_sack_scoreboard ::= f |>))
  (Hm : forall x b, keeps V x (x <| c_snd_retrans ::= fun r => mark_sacked r b |>)) :
  keeps V c (sack_pass clk c opts).1.1.1.
Proof.
  unfold sack_pass. destruct (c_sack_enabled c && _); [|reflexivity].
  pose proof (sack_loop_keeps V Hp Hr Hs Hm (take (sack_block_count opts) (sack_blocks opts)) 0 c 0 0) as H.
  by destruct (sack_loop clk _ 0 c 0 0) as [[c' d] s].
Qed.

Lemma sack_pass_rx c opts : keeps rx_view c (sack_pass clk c opts).1.1.1.
Proof. apply sack_pass_keeps; intros; reflexivity. Qed.
Lemma sack_pass_una c opts : keeps c_snd_una c (sack_pass clk c opts).1.1.1.
Proof. apply sack_pass_keeps; intros; reflexivity. Qed.

Lemma rack_pass_keeps {A} (V : TcpConn -> A) c
  (Hr : forall x f, keeps V x (x <| c_rack ::= f |>))
  (Hm : forall x f, keeps V x (x <| c_snd_retrans ::= f |>)) : keeps V c (rack_pass clk c).1.
Proof.
  unfold rack_pass. destruct (c_snd_retrans c); [reflexivity|]. cbn [fst].
  etransitivity; [|apply Hm]. etransitivity; [|apply Hr]. apply Hr.
Qed.

Lemma sample_rtt_keeps {A} (V : TcpConn -> A) c opts now
  (He : forall x f, keeps V x (x <| c_rtt_est ::= f |>))
  (Hr : forall x f, keeps V x (x <| c_rack ::= f |>))
  (H1 : forall x f, keeps V x (x <| c_tlp_consecutive_probes_fired ::= f |>))
  (H2 : forall x f, keeps V x (x <| c_tlp_rtt_sample_seen_since_last_tlp ::= f |>))
  (Hh : forall x f, keeps V x (x <| c_rtt_histogram ::= f |>)) :
  keeps V c (sample_rtt edges c opts now).1.
Proof.
  assert (Ha : forall rtt, keeps V c (absorb_rtt edges c rtt)).
  { intros rtt. unfold absorb_rtt, on_rtt_sample_tlp_hook.
    etransitivity; [|apply Hh]. etransitivity; [|apply H2]. etransitivity; [|apply H1].
    etransitivity; [apply He|apply Hr]. }
  unfold sample_rtt. destruct (ts_sample c opts now); [apply Ha|].
  destruct (karn_sample c now); [apply Ha|apply H1].
Qed.
End Frames.

(** ** Inverting the stages *)

Lemma ack_acceptable_proper c c' seg : c_snd_una c' = c_snd_una c -> c_snd_nxt c' = c_snd_nxt c ->
  ack_acceptable c' seg = ack_acceptable c seg.
Proof. unfold ack_acceptable. by intros -> ->. Qed.

Lemma rx_view_inv c c' : keeps rx_view c c' ->
  c_state c' = c_state c /\ c_recv c' = c_recv c /\ c_rcv_nxt c' = c_rcv_nxt c /\
  c_rcv_wnd c' = c_rcv_wnd c /\ c_last_sack_trigger c' = c_last_sack_trigger c /\
  c_delivered_segments c' = c_delivered_segments c /\ c_our_fin_seq c' = c_our_fin_seq c /\
  c_snd_nxt c' = c_snd_nxt c.
Proof. unfold keeps, rx_view. intros H. injection H. intuition congruence. Qed.

Lemma update_send_window_keeps {A} (V : TcpConn -> A) c seg
  (Hw : forall x f, keeps V x (x <| c_snd_wnd ::= f |>))
  (H1 : forall x f, keeps V x (x <| c_snd_wl1 ::= f |>))
  (H2 : forall x f, keeps V x (x <| c_snd_wl2 ::= f |>)) : keeps V c (update_send_window c seg).
Proof.
  unfold update_send_window. destruct (_ || _); [|reflexivity].
  etransitivity; [|apply H2]. etransitivity; [|apply H1]. apply Hw.
Qed.

Lemma writable_keeps {A} (V : TcpConn -> A) c sbb
  (Hw : forall x f, keeps V x (x <| c_send_refused_pending ::= f |>)) :
  keeps V c (writable_hysteresis c sbb).1.
Proof.
  unfold writable_hysteresis. destruct (c_send_refused_pending c); [|reflexivity].
  destruct (_ <=? _); [apply Hw|reflexivity].
Qed.

(** Closing the case of a handler that returned early. *)
Ltac early_return :=
  let H := fresh "H" in
  intros H; injection H as <- <- <-; left;
  do 5 (split; [reflexivity|]);
  split; [ first [left; reflexivity | right; split; [assumption || reflexivity|reflexivity]]
         | let H1 := fresh "H" in intros H1; first [reflexivity | discriminate H1] ].

(** The same for the two handshake handlers. *)
Ltac early_handshake :=
  let H := fresh "H" in
  intros H; injection H as <- <- <-;
  do 5 (split; [reflexivity|]); left; split; [reflexivity|];
  first [ left; reflexivity | right; reflexivity
        | split; [first [left; reflexivity | right; reflexivity]
                 | let H1 := fresh "H" in intros H1; first [discriminate H1 | split; reflexivity]] ].

Section Stages.
Context (clk : Clock) (edges : list Z) (sbb : Z).

Lemma ack_new_data_views c seg opts :
  let c' := (ack_new_data clk edges sbb c seg opts).1.1 in
  keeps rx_view c c' /\ c_snd_una c' = ps_ack seg.
Proof.
  cbv zeta. unfold ack_new_data.
  set (c1 := c <| c_snd ::= _ |>). set (c2 := c1 <| c_snd_una := ps_ack seg |>).
  pose proof (sample_rtt_keeps edges rx_view c2 opts (u32 (clk CkAck / 1000))) as S1.
  pose proof (sample_rtt_keeps edges c_snd_una c2 opts (u32 (clk CkAck / 1000))) as S2.
  destruct (sample_rtt edges c2 opts _) as [c3 taken]. cbn [fst] in S1, S2.
  set (c4 := if c_sack_enabled c3 then _ else c3).
  assert (K4 : keeps rx_view c3 c4 /\ keeps c_snd_una c3 c4).
  { unfold c4. destruct (c_sack_enabled c3); split; keeps_tac. }
  pose proof (update_send_window_keeps rx_view c4 seg) as U1.
  pose proof (update_send_window_keeps c_snd_una c4 seg) as U2.
  pose proof (writable_keeps rx_view (update_send_window c4 seg) sbb) as W1.
  pose proof (writable_keeps c_snd_una (update_send_window c4 seg) sbb) as W2.
  destruct (writable_hysteresis (update_send_window c4 seg) sbb) as [c5 w]. cbn [fst] in *.
  split.
  - transitivity c2; [unfold c2, c1; keeps_tac|].
    transitivity c3; [apply S1; intros; reflexivity|]. transitivity c4; [apply K4|].
    etransitivity; [apply U1; intros; reflexivity|apply W1; intros; reflexivity].
  - assert (keeps c_snd_una c2 c5) as ->; [|reflexivity].
    transitivity c3; [apply S2; intros; reflexivity|]. transitivity c4; [apply K4|].
    etransitivity; [apply U2; intros; reflexivity|apply W2; intros; reflexivity].
Qed.

Lemma ack_established_views c seg opts ar : ack_established clk edges sbb c seg opts = Some ar ->
  keeps rx_view c (ar_conn ar) /\
  c_snd_una (ar_conn ar) = (if ack_acceptable c seg then ps_ack seg else c_snd_una c).
Proof.
  unfold ack_established. destruct (ack_acceptable c seg).
  - pose proof (ack_new_data_views c seg opts) as [H1 H2].
    destruct (ack_new_data clk edges sbb c seg opts) as [[c' t] w]. cbn [fst] in H1, H2.
    intros E. injection E as <-. cbn [ar_conn]. done.
  - destruct (seq_lt _ _); [discriminate|]. intros E. injection E as <-. done.
Qed.

(** [established_accept] either challenges an ACK of unsent data, touching
    neither the receive side nor [snd_una], or runs the data stage on a connection
    whose receive side is the one it was given. *)
Lemma established_accept_inv links ctx c seg opts e c' o ops :
  established_accept clk edges sbb links ctx c seg opts e = (c', o, ops) ->
  o_bad_seq o = false /\ o_bad_option o = false /\ o_paws_rejected o = false /\ o_urgent_dropped o = false /\
  ((o_bad_ack o = true /\ o_tx o = TxAck /\ o_new_state o = None /\ ops = [] /\
    keeps rx_view c c' /\ keeps c_snd_una c c' /\ ack_acceptable c seg = false /\
    o_delivered o = 0 /\ o_mbuf_ref_retained o = false) \/
   (o_bad_ack o = false /\ exists c3, keeps rx_view c c3 /\
     c_snd_una c3 = (if ack_acceptable c seg then ps_ack seg else c_snd_una c) /\
     let d := deliver_data links c3 seg ctx in
     (c', o_new_state o) = fin_established (dr_conn d) seg (dr_delivered d) /\
     ops = dr_calls d /\ o_delivered o = dr_delivered d /\ o_mbuf_ref_retained o = dr_retained d)).
Proof.
  unfold established_accept.
  pose proof (sack_pass_rx clk c opts) as S1. pose proof (sack_pass_una clk c opts) as S2.
  destruct (sack_pass clk c opts) as [[[c1 dec] ds] sp]. cbn [fst] in S1, S2.
  destruct (rx_view_inv _ _ S1) as (_ & _ & _ & _ & _ & _ & _ & Enxt).
  assert (Eacc : ack_acceptable c1 seg = ack_acceptable c seg) by (apply ack_acceptable_proper; [exact S2|done]).
  destruct (ack_established clk edges sbb c1 seg opts) as [ar|] eqn:Ea.
  - destruct (ack_established_views _ _ _ _ Ea) as [A1 A2]. rewrite Eacc in A2.
    pose proof (rack_pass_keeps clk rx_view (ar_conn ar)) as R1.
    pose proof (rack_pass_keeps clk c_snd_una (ar_conn ar)) as R2.
    destruct (rack_pass clk (ar_conn ar)) as [c3 lost]. cbn [fst] in R1, R2.
    destruct (fin_established _ _ _) as [c4 ns] eqn:Ef. intros E. injection E as <- <- <-.
    split_and!; try reflexivity. right. split; [reflexivity|]. exists c3. split_and!; try reflexivity.
    + transitivity c1; [exact S1|]. transitivity (ar_conn ar); [exact A1|apply R1; intros; reflexivity].
    + rewrite (R2 ltac:(intros; reflexivity) ltac:(intros; reflexivity)). rewrite A2.
      unfold keeps in S2. by rewrite S2.
    + cbv zeta. by rewrite Ef.
  - intros E. injection E as <- <- <-. split_and!; try reflexivity. left. split_and!; try reflexivity; try done.
    unfold ack_established in Ea. rewrite Eacc in Ea. destruct (ack_acceptable c seg); [|done].
    by destruct (ack_new_data clk edges sbb c1 seg opts) as [[? ?] ?].
Qed.

(** Reaching [established_accept]. *)
Lemma handle_established_inv links ctx c seg c' o ops :
  handle_established clk edges sbb links ctx c seg = Some (c', o, ops) ->
  (c' = c /\ ops = [] /\ o_bad_ack o = false /\ o_delivered o = 0 /\ o_mbuf_ref_retained o = false /\
   (o_new_state o = None \/ (has_flag (ps_flags seg) TCP_RST = true /\ o_new_state o = Some Closed)) /\
   (o_bad_seq o || o_paws_rejected o = true -> o_tx o = TxAck)) \/
  (has_flag (ps_flags seg) TCP_RST = false /\ has_flag (ps_flags seg) TCP_ACK = true /\
   segment_in_window c seg = true /\
   exists opts c1 e, paws_check clk c seg opts = PawsPass c1 e /\
     established_accept clk edges sbb links ctx c1 seg opts e = (c', o, ops)).
Proof.
  unfold handle_established, leave.
  destruct (has_flag _ TCP_URG); [early_return|].
  destruct (has_flag _ TCP_RST) eqn:Er; [early_return|].
  destruct (has_flag _ TCP_ACK) eqn:Ea; cbn [negb]; [|early_return].
  destruct (segment_in_window c seg) eqn:Ew; cbn [negb]; [|early_return].
  destruct (segment_options seg) as [[opts|err]|]; cbn [mbind option_bind]; [| |discriminate].
  - destruct (paws_check clk c seg opts) as [| |c1 e] eqn:Ep.
    + early_return.
    + early_return.
    + intros H. injection H as H. right. split_and!; try done. eauto.
  - early_return.
Qed.
End Stages.

(** What the closing states keep: everything of [rx_view] but [rcv_nxt]. *)
Definition close_view (c : TcpConn) :=
  (c_state c, c_recv c, c_rcv_wnd c, c_last_sack_trigger c, c_delivered_segments c, c_our_fin_seq c,
   c_snd_nxt c).

Definition peer_fin_next (c : TcpConn) (seg : ParsedSegment) : bool :=
  has_flag (ps_flags seg) TCP_FIN && (wadd32 (ps_seq seg) (u32 (zlen (ps_payload seg))) =? c_rcv_nxt c).

Lemma rx_close_view c c' : keeps rx_view c c' -> keeps close_view c c' /\ c_rcv_nxt c' = c_rcv_nxt c.
Proof.
  intros H. pose proof (rx_view_inv c c' H) as (E1 & E2 & E3 & E4 & E5 & E6 & E7 & E8).
  split; [|done]. unfold keeps, close_view. by rewrite E1, E2, E4, E5, E6, E7, E8.
Qed.

Section Close.
Context (clk : Clock).

Lemma close_accept_inv c seg opts e c' o ops : close_accept clk c seg opts e = (c', o, ops) ->
  ops = [] /\ keeps close_view c c' /\
  c_snd_una c' = (if ack_acceptable c seg then ps_ack seg else c_snd_una c) /\
  c_rcv_nxt c' = (if peer_fin_next c seg then wadd32 (c_rcv_nxt c) 1 else c_rcv_nxt c) /\
  (o_new_state o, o_tx o) =
    close_transition (c_state c) (fin_has_been_acked c (ps_ack seg)) (peer_fin_next c seg) /\
  o_bad_seq o = false /\ o_bad_option o = false /\ o_paws_rejected o = false /\ o_urgent_dropped o = false /\
  o_delivered o = 0 /\ o_mbuf_ref_retained o = false.
Proof.
  unfold close_accept. pose proof (sack_pass_rx clk c opts) as S1. pose proof (sack_pass_una clk c opts) as S2.
  destruct (sack_pass clk c opts) as [[[c1 dec] ds] sp]. cbn [fst] in S1, S2.
  destruct (rx_close_view _ _ S1) as [S3 S4].
  destruct (rx_view_inv _ _ S1) as (E1 & _ & _ & _ & _ & _ & E7 & E8).
  assert (Eacc : ack_acceptable c1 seg = ack_acceptable c seg) by (apply ack_acceptable_proper; [exact S2|done]).
  assert (Efin : fin_has_been_acked c1 (ps_ack seg) = fin_has_been_acked c (ps_ack seg))
    by (unfold fin_has_been_acked; by rewrite E7).
  rewrite Eacc, Efin. set (c2 := if ack_acceptable c seg then _ else c1).
  assert (K2 : keeps close_view c1 c2 /\ c_rcv_nxt c2 = c_rcv_nxt c1 /\
    c_snd_una c2 = (if ack_acceptable c seg then ps_ack seg else c_snd_una c1)).
  { unfold c2. destruct (ack_acceptable c seg); split_and!; try reflexivity; keeps_tac. }
  destruct K2 as (K2 & K2r & K2u).
  assert (Epf : has_flag (ps_flags seg) TCP_FIN &&
    (wadd32 (ps_seq seg) (u32 (zlen (ps_payload seg))) =? c_rcv_nxt c2) = peer_fin_next c seg)
    by (unfold peer_fin_next; by rewrite K2r, S4).
  rewrite Epf. set (c3 := if peer_fin_next c seg then _ else c2).
  assert (K3 : keeps close_view c2 c3 /\ c_snd_una c3 = c_snd_una c2 /\
    c_rcv_nxt c3 = (if peer_fin_next c seg then wadd32 (c_rcv_nxt c2) 1 else c_rcv_nxt c2)).
  { unfold c3. destruct (peer_fin_next c seg); split_and!; try reflexivity; keeps_tac. }
  destruct K3 as (K3 & K3u & K3r).
  assert (Es : c_state c3 = c_state c).
  { assert (keeps close_view c c3) as H by (transitivity c1; [done|]; by transitivity c2).
    unfold keeps, close_view in H. by injection H. }
  rewrite Es. destruct (close_transition _ _ _) as [ns tx]. intros H. injection H as <- <- <-.
  unfold keeps in S2.
  split_and!; try reflexivity.
  - transitivity c1; [done|]. by transitivity c2.
  - by rewrite K3u, K2u, S2.
  - by rewrite K3r, K2r, S4.
Qed.

Lemma handle_close_path_inv c seg c' o ops : handle_close_path clk c seg = Some (c', o, ops) ->
  (c' = c /\ ops = [] /\ o_bad_ack o = false /\ o_delivered o = 0 /\ o_mbuf_ref_retained o = false /\
   (o_new_state o = None \/ (has_flag (ps_flags seg) TCP_RST = true /\ o_new_state o = Some Closed)) /\
   (o_bad_seq o || o_paws_rejected o = true -> o_tx o = TxAck)) \/
  (has_flag (ps_flags seg) TCP_RST = false /\ has_flag (ps_flags seg) TCP_ACK = true /\
   c_state c <> TimeWait /\ segment_in_window c seg = true /\
   exists opts c1 e, paws_check clk c seg opts = PawsPass c1 e /\ close_accept clk c1 seg opts e = (c', o, ops)).
Proof.
  unfold handle_close_path, leave.
  destruct (has_flag _ TCP_RST) eqn:Er; [early_return|].
  destruct (bool_decide (c_state c = TimeWait)) eqn:Et; [early_return|].
  apply bool_decide_eq_false in Et.
  destruct (has_flag _ TCP_ACK) eqn:Ea; cbn [negb]; [|early_return].
  destruct (segment_in_window c seg) eqn:Ew; cbn [negb]; [|early_return].
  destruct (segment_options seg) as [[opts|err]|]; cbn [mbind option_bind]; [| |discriminate].
  - destruct (paws_check clk c seg opts) as [| |c1 e] eqn:Ep; [early_return|early_return|].
    intros H. injection H as H. right. split_and!; try done. eauto.
  - early_return.
Qed.
End Close.

(** The PAWS stage changes nothing the later inversions look at. *)
Lemma paws_views clk c seg opts c1 e : paws_check clk c seg opts = PawsPass c1 e ->
  keeps rx_view c c1 /\ ack_acceptable c1 seg = ack_acceptable c seg /\ c_snd_una c1 = c_snd_una c.
Proof.
  intros H. apply paws_keeps in H as [H1 H2]. split; [done|]. split; [|exact H2].
  apply ack_acceptable_proper; [exact H2|].
  by apply rx_view_inv in H1 as (_ & _ & _ & _ & _ & _ & _ & ?).
Qed.

(** ** Transitions *)

(** The transitions one inbound segment may cause, with the evidence each needs. *)
Inductive fsm_step (c : TcpConn) (seg : ParsedSegment) : TcpState -> TcpState -> Prop :=
  | FsmReset s : has_flag (ps_flags seg) TCP_RST = true -> s <> Closed -> s <> Listen ->
      (s = SynSent -> handshake_ack_ok c seg = true) -> fsm_step c seg s Closed
  | FsmRefuse s : s = SynSent \/ s = SynReceived -> fsm_step c seg s Closed
  | FsmOpenActive : has_flag (ps_flags seg) TCP_SYN = true -> has_flag (ps_flags seg) TCP_ACK = true ->
      handshake_ack_ok c seg = true -> fsm_step c seg SynSent Established
  | FsmOpenPassive : has_flag (ps_flags seg) TCP_ACK = true -> ps_seq seg = c_rcv_nxt c ->
      handshake_ack_ok c seg = true -> fsm_step c seg SynReceived Established
  | FsmPeerClose : has_flag (ps_flags seg) TCP_FIN = true -> segment_in_window c seg = true ->
      fsm_step c seg Established CloseWait
  | FsmFinAcked : fin_has_been_acked c (ps_ack seg) = true -> fsm_step c seg FinWait1 FinWait2
  | FsmSimultaneous : peer_fin_next c seg = true -> fsm_step c seg FinWait1 Closing
  | FsmBoth : fin_has_been_acked c (ps_ack seg) = true -> peer_fin_next c seg = true ->
      fsm_step c seg FinWait1 TimeWait
  | FsmPeerFin : peer_fin_next c seg = true -> fsm_step c seg FinWait2 TimeWait
  | FsmClosingAcked : fin_has_been_acked c (ps_ack seg) = true -> fsm_step c seg Closing TimeWait
  | FsmLastAcked : fin_has_been_acked c (ps_ack seg) = true -> fsm_step c seg LastAck Closed.

(** The states served by [handle_close_path]. *)
Definition closing_state (s : TcpState) : bool :=
  match s with
  | FinWait1 | FinWait2 | Closing | LastAck | CloseWait | TimeWait => true
  | _ => false
  end.

Lemma fin_established_inv c seg d c' ns : (c', ns) = fin_established c seg d ->
  (c' = c /\ ns = None) \/
  (ns = Some CloseWait /\ has_flag (ps_flags seg) TCP_FIN = true /\ wadd32 (ps_seq seg) d = c_rcv_nxt c /\
   c' = c <| c_rcv_nxt ::= fun n => wadd32 n 1 |>).
Proof.
  unfold fin_established. destruct (has_flag _ TCP_FIN && _) eqn:E; intros H; injection H as -> ->; [|by left].
  apply andb_true_iff in E as [E1 E2]. apply Z.eqb_eq in E2. by right.
Qed.

Lemma data_state links c3 seg ctx : c_state (dr_conn (deliver_data links c3 seg ctx)) = c_state c3.
Proof.
  unfold deliver_data, deliver_in_order, deliver_out_of_order.
  destruct (ps_payload seg) as [|b p]; [done|].
  destruct (ps_seq seg =? c_rcv_nxt c3).
  - destruct (append_in_order _ _ _ _) as [[[q dl] dp] ops].
    destruct (negb _); [|done]. by destruct (drain_contiguous_into _ _ _) as [[[[? ?] ?] ?] ?].
  - destruct (seq_lt _ _); [|done]. destruct (0 <? free_space_total _); [|done].
    destruct ctx as [ctx|]; [|done]. by destruct (reorder_insert _ _ _ _ _) as [[? ?] ?].
Qed.

Lemma absorb_syn_ack_views clk c seg opts :
  let c' := absorb_syn_ack clk c seg opts in
  keeps close_view c c' /\ c_snd_una c' = ps_ack seg /\ c_rcv_nxt c' = wadd32 (ps_seq seg) 1.
Proof.
  cbv zeta. unfold absorb_syn_ack.
  set (c1 := c <| c_irs := _ |> <| c_rcv_nxt := _ |>). set (c2 := c1 <| c_snd_una := _ |>).
  set (c3 := c2 <| c_snd_wnd := _ |> <| c_snd_wl1 := _ |> <| c_snd_wl2 := _ |> <| c_peer_mss := _ |>).
  set (c4 := match wscale opts with Some _ => _ | None => _ end).
  assert (K4 : keeps close_view c3 c4 /\ keeps c_snd_una c3 c4 /\ keeps c_rcv_nxt c3 c4)
    by (unfold c4; destruct (wscale opts); split_and!; keeps_tac).
  destruct K4 as (K4 & K4u & K4r).
  assert (K3 : keeps close_view c c3 /\ c_snd_una c3 = ps_ack seg /\ c_rcv_nxt c3 = wadd32 (ps_seq seg) 1).
  { split_and!; [unfold c3, c2, c1; keeps_tac|unfold c3; conn_simpl; reflexivity|].
    unfold c3, c2, c1. conn_simpl. reflexivity. }
  destruct K3 as (K3 & K3u & K3r). unfold keeps in K4u, K4r.
  destruct (timestamps opts) as [[v e]|].
  - split_and!; [transitivity c3; [exact K3|]; transitivity c4; [exact K4|]; keeps_tac|conn_simpl; congruence..].
  - split_and!; [transitivity c3; [exact K3|]; transitivity c4; [exact K4|]; keeps_tac|conn_simpl; congruence..].
Qed.

Lemma seed_keeps_gen {A} (V : TcpConn -> A) edges c now
  (He : forall x f, keeps V x (x <| c_rtt_est ::= f |>))
  (Hr : forall x f, keeps V x (x <| c_rack ::= f |>))
  (Hh : forall x f, keeps V x (x <| c_rtt_histogram ::= f |>)) :
  keeps V c (maybe_seed_srtt_from_syn c now edges).1.
Proof.
  unfold maybe_seed_srtt_from_syn. destruct (negb _); [reflexivity|].
  destruct (c_syn_tx_ts_ns c =? 0); [reflexivity|]. destruct (negb _); [reflexivity|]. cbn [fst].
  etransitivity; [|apply Hh]. etransitivity; [|apply Hr]. apply He.
Qed.

Section Transitions.
Context (clk : Clock) (edges : list Z) (sbb : Z) (links : Links) (ctx : option MbufInsertCtx).

Definition steps_ok (c : TcpConn) (seg : ParsedSegment) (c' : TcpConn) (o : Outcome) : Prop :=
  c_state c' = c_state c /\ forall s', o_new_state o = Some s' -> fsm_step c seg (c_state c) s'.

Lemma established_steps c seg c' o ops : c_state c = Established ->
  handle_established clk edges sbb links ctx c seg = Some (c', o, ops) -> steps_ok c seg c' o.
Proof.
  intros Hs H. apply handle_established_inv in H as
    [(-> & _ & _ & _ & _ & Hn & _)|(Hr & Ha & Hw & opts & c1 & e & Hp & H)].
  - split; [done|]. intros s' E. destruct Hn as [Hn|[Hrst Hn]]; rewrite Hn in E; [discriminate|].
    injection E as <-. apply FsmReset; rewrite ?Hs; done.
  - apply paws_views in Hp as (P1 & _ & _). apply rx_view_inv in P1 as (P1 & _).
    apply established_accept_inv in H as (_ & _ & _ & _ &
      [(_ & _ & Hn & _ & K & _)|(_ & c3 & K & _ & Hf & _)]).
    + apply rx_view_inv in K as (K & _). split; [congruence|]. rewrite Hn. done.
    + apply rx_view_inv in K as (K & _). apply fin_established_inv in Hf as [[-> Hn]|(Hn & Hfin & _ & ->)];
        unfold steps_ok; rewrite Hn.
      * split; [|done]. rewrite data_state. congruence.
      * split; [conn_simpl; rewrite data_state; congruence|].
        intros s' E. injection E as <-. rewrite Hs. by apply FsmPeerClose.
Qed.

Lemma close_path_steps c seg c' o ops :
  closing_state (c_state c) = true ->
  handle_close_path clk c seg = Some (c', o, ops) -> steps_ok c seg c' o.
Proof.
  intros Hs H. apply handle_close_path_inv in H as
    [(-> & _ & _ & _ & _ & Hn & _)|(Hr & Ha & Htw & Hw & opts & c1 & e & Hp & H)].
  - split; [done|]. intros s' E. destruct Hn as [Hn|[Hrst Hn]]; rewrite Hn in E; [discriminate|].
    injection E as <-. apply FsmReset; [done|..]; intros E; by rewrite E in Hs.
  - apply paws_views in Hp as (P1 & _ & _). apply rx_view_inv in P1 as (P1 & _ & P3 & _ & _ & _ & P7 & _).
    apply close_accept_inv in H as (_ & K & _ & _ & Ht & _).
    assert (Ef : fin_has_been_acked c1 (ps_ack seg) = fin_has_been_acked c (ps_ack seg))
      by (unfold fin_has_been_acked; by rewrite P7).
    assert (Epf : peer_fin_next c1 seg = peer_fin_next c seg) by (unfold peer_fin_next; by rewrite P3).
    assert (Es : c_state c' = c_state c1) by (unfold keeps, close_view in K; by injection K).
    split; [congruence|]. intros s' E. rewrite E, P1, Ef, Epf in Ht.
    destruct (fin_has_been_acked c (ps_ack seg)) eqn:Efa, (peer_fin_next c seg) eqn:Epn, (c_state c);
      cbn in Ht; try discriminate Ht; injection Ht as -> _; by constructor.
Qed.

Lemma syn_sent_inv c seg c' o ops : handle_syn_sent clk edges c seg = Some (c', o, ops) ->
  ops = [] /\ o_bad_seq o = false /\ o_paws_rejected o = false /\ o_delivered o = 0 /\
  o_mbuf_ref_retained o = false /\
  ((c' = c /\ (o_new_state o = None \/ o_new_state o = Some Closed)) \/
   (has_flag (ps_flags seg) TCP_SYN = true /\ has_flag (ps_flags seg) TCP_ACK = true /\
    handshake_ack_ok c seg = true /\ o_new_state o = Some Established /\ o_tx o = TxAck /\
    o_bad_option o = false /\
    keeps close_view c c' /\ c_snd_una c' = ps_ack seg /\ c_rcv_nxt c' = wadd32 (ps_seq seg) 1)).
Proof.
  unfold handle_syn_sent, leave.
  destruct (has_flag _ TCP_RST) eqn:Er.
  { destruct (has_flag _ TCP_ACK && handshake_ack_ok c seg); early_handshake. }
  destruct (has_flag _ TCP_SYN) eqn:Esy; cbn [negb]; [|early_handshake].
  destruct (has_flag _ TCP_ACK) eqn:Ea; cbn [negb]; [|early_handshake].
  destruct (handshake_ack_ok c seg) eqn:Eh; cbn [negb]; [|early_handshake].
  destruct (parse_options _) as [[opts|err]|]; cbn [mbind option_bind]; [|early_handshake|discriminate].
  destruct (absorb_syn_ack_views clk c seg opts) as (A1 & A2 & A3).
  set (c1 := absorb_syn_ack clk c seg opts) in *. clearbody c1.
  pose proof (seed_keeps_gen close_view edges c1 (clk CkSynSeed)) as K1. pose proof (seed_keeps_gen c_snd_una edges c1 (clk CkSynSeed)) as K2.
  pose proof (seed_keeps_gen c_rcv_nxt edges c1 (clk CkSynSeed)) as K3.
  destruct (maybe_seed_srtt_from_syn c1 (clk CkSynSeed) edges) as [c2 b]. cbn [fst] in *.
  intros H. injection H as <- <- <-. do 5 (split; [reflexivity|]). right.
  assert (keeps close_view c1 c2) by (apply K1; intros; reflexivity).
  assert (c_snd_una c2 = c_snd_una c1) as E2 by (apply K2; intros; reflexivity).
  assert (c_rcv_nxt c2 = c_rcv_nxt c1) as E3 by (apply K3; intros; reflexivity).
  do 6 (split; [reflexivity|]). split; [|split; cbn [c_snd_una c_rcv_nxt]; congruence].
  transitivity c1; [exact A1|]. transitivity c2; [done|]. by unfold keeps.
Qed.

Lemma syn_sent_steps c seg c' o ops : c_state c = SynSent ->
  handle_syn_sent clk edges c seg = Some (c', o, ops) -> steps_ok c seg c' o.
Proof.
  intros Hs H. apply syn_sent_inv in H as (_ & _ & _ & _ & _ &
    [[-> [Hn|Hn]]|(H1 & H2 & H3 & Hn & _ & _ & K & _)]); unfold steps_ok; rewrite Hn, ?Hs.
  - done.
  - split; [done|]. intros s' E. injection E as <-. apply FsmRefuse. by left.
  - assert (c_state c' = c_state c) as -> by (unfold keeps, close_view in K; by injection K).
    split; [done|]. intros s' E. injection E as <-. by apply FsmOpenActive.
Qed.

Lemma absorb_final_ack_views c seg c' : absorb_final_ack clk c seg = Some c' ->
  keeps close_view c c' /\ c_snd_una c' = ps_ack seg /\ c_rcv_nxt c' = c_rcv_nxt c.
Proof.
  unfold absorb_final_ack. set (c1 := c <| c_snd_una := _ |> <| c_snd_wnd := _ |> <| c_snd_wl1 := _ |> <| c_snd_wl2 := _ |>).
  assert (K : keeps close_view c c1 /\ c_snd_una c1 = ps_ack seg /\ c_rcv_nxt c1 = c_rcv_nxt c)
    by (split_and!; [unfold c1; keeps_tac|reflexivity|reflexivity]).
  clearbody c1. destruct (c_ts_enabled c1); [|intros H; by injection H as <-].
  destruct (parse_options _) as [[opts|err]|]; cbn [mbind option_bind]; [| |discriminate];
    [|intros H; by injection H as <-].
  destruct (timestamps opts) as [[v e]|]; intros H; [|by injection H as <-].
  apply (inj Some) in H as <-. destruct K as (K1 & K2 & K3). split_and!; [|conn_simpl; done..].
  transitivity c1; [done|keeps_tac].
Qed.

Lemma syn_received_inv c seg c' o ops : handle_syn_received clk c seg = Some (c', o, ops) ->
  ops = [] /\ o_bad_option o = false /\ o_paws_rejected o = false /\ o_delivered o = 0 /\
  o_mbuf_ref_retained o = false /\
  ((c' = c /\ (o_new_state o = None \/ o_new_state o = Some Closed) /\
    (o_bad_seq o = true -> o_tx o = TxAck /\ o_new_state o = None)) \/
   (has_flag (ps_flags seg) TCP_ACK = true /\ ps_seq seg = c_rcv_nxt c /\
    handshake_ack_ok c seg = true /\ o_new_state o = Some Established /\ o_bad_seq o = false /\
    keeps close_view c c' /\ c_snd_una c' = ps_ack seg /\ c_rcv_nxt c' = c_rcv_nxt c)).
Proof.
  unfold handle_syn_received, leave.
  destruct (has_flag _ TCP_RST); [destruct (c_is_passive_open c); early_handshake|].
  destruct (has_flag _ TCP_SYN); [destruct (ps_seq seg =? c_irs c); early_handshake|].
  destruct (has_flag _ TCP_ACK) eqn:Ea; cbn [negb]; [|early_handshake].
  destruct (Z.eqb_spec (ps_seq seg) (c_rcv_nxt c)) as [Es|Es]; cbn [negb]; [|early_handshake].
  destruct (handshake_ack_ok c seg) eqn:Eh; cbn [negb]; [|early_handshake].
  destruct (absorb_final_ack clk c seg) as [c1|] eqn:Eab; cbn [mbind option_bind]; [|discriminate].
  apply absorb_final_ack_views in Eab as (K1 & K2 & K3). intros H. injection H as <- <- <-.
  do 5 (split; [reflexivity|]). right. do 5 (split; [done|]).
  split; [|split; cbn [c_snd_una c_rcv_nxt]; congruence]. transitivity c1; [exact K1|]. by unfold keeps.
Qed.

Lemma syn_received_steps c seg c' o ops : c_state c = SynReceived ->
  handle_syn_received clk c seg = Some (c', o, ops) -> steps_ok c seg c' o.
Proof.
  intros Hs H. apply syn_received_inv in H as (_ & _ & _ & _ & _ &
    [(-> & [Hn|Hn] & _)|(H1 & H2 & H3 & Hn & _ & K & _)]); unfold steps_ok; rewrite Hn, ?Hs.
  - done.
  - split; [done|]. intros s' E. injection E as <-. apply FsmRefuse. by right.
  - assert (c_state c' = c_state c) as -> by (unfold keeps, close_view in K; by injection K).
    split; [done|]. intros s' E. injection E as <-. by apply FsmOpenPassive.
Qed.
End Transitions.
