(* ===== verification/InputSpec.v ===== *)
(** * What [dispatch] guarantees: the properties of tcp_input.rs

    The handlers as a whole: totality, the legal transitions, the connection
    invariant, which outcomes leave the connection untouched, the stream handed to
    the application, and the conservation of packet-buffer references. *)

From S2P Require Import Prelude.
From S2P Require Import Seq.
From S2P Require Import Options.
From S2P Require Import Sack.
From S2P Require Import Mbuf.
From S2P Require Import Reassembly.
From S2P Require Import Retrans.
From S2P Require Import Rtt.
From S2P Require Import Rack.
From S2P Require Import Output.
From S2P Require Import Segment.
From S2P Require Import Conn.
From S2P Require Import Input.
From S2P Require Import Receive.
From S2P Require Import Dispatch.

(** ** The invariant of a connection *)

(** How far [snd_nxt] may run ahead of [snd_una]: half the circle, and one more for a
    FIN sent on top of it. *)
Definition flight_limit (s : TcpState) : Z :=
  match s with Listen | SynSent | SynReceived | Established | CloseWait => two31 | _ => two31 + 1 end.

(** What the stages of the handlers rely on, and what they leave behind. *)
Record conn_ok (c : TcpConn) : Prop := {
  ck_rcv_nxt : is_u32 (c_rcv_nxt c);
  ck_una : is_u32 (c_snd_una c);
  ck_nxt : is_u32 (c_snd_nxt c);
  ck_flight : off (c_snd_una c) (c_snd_nxt c) <= flight_limit (c_state c);
  ck_wnd : 0 <= c_rcv_wnd c <= U16_MAX;
  ck_rv : rv_ok (c_recv c);
  ck_queue : match c_state c with
             | Established => rq_ok (c_rcv_nxt c) (rv_reorder (c_recv c)) /\
                              starts_from (c_rcv_nxt c) 1 (rv_reorder (c_recv c))
             | SynSent | SynReceived => rv_reorder (c_recv c) = reorder_new (rv_cap (c_recv c)) /\
                                        c_snd_nxt c = wadd32 (c_snd_una c) 1
             | _ => True
             end
}.

(** The connection once the engine has applied the transition asked for. *)
Definition after (c : TcpConn) (o : Outcome) : TcpConn :=
  match o_new_state o with Some s => c <| c_state := s |> | None => c end.

(** A segment as the parser returns it. *)
Definition segment_ok (seg : ParsedSegment) : Prop := is_u32 (ps_seq seg) /\ is_u32 (ps_ack seg).

(** ** Acknowledgement numbers *)

Lemma wsub_via_off base x y : wsub32 x y = u32 (off base x - off base y).
Proof. unfold off, wsub32. rewrite u32_sub_l, u32_sub_r. f_equal. lia. Qed.

(** [ack] moves [una] forward, no further than [nxt]. *)
Definition ack_in_flight (una nxt ack : Z) : Prop := 1 <= off una ack <= off una nxt.

(** The comparators' blind spot: exactly half the circle beyond [nxt]. *)
Definition ack_antipodal (nxt ack : Z) : Prop := off nxt ack = two31.

Lemma ack_range_cases una nxt ack :
  is_u32 una -> is_u32 nxt -> is_u32 ack -> off una nxt <= two31 + 1 -> off una ack <> 0 ->
  off una ack <= two31 + off una nxt -> seq_le ack nxt = true ->
  (ack_in_flight una nxt ack \/ ack_antipodal nxt ack) /\ off ack nxt <= two31.
Proof.
  intros Hu Hn Ha Hf H0 H1 H2. unfold ack_in_flight, ack_antipodal.
  pose proof (off_range una ack) as Ra. pose proof (off_range una nxt) as Rn.
  unfold seq_le in H2. apply Z.leb_le in H2. rewrite (wsub_via_off una) in H2.
  assert (off nxt ack = u32 (off una ack - off una nxt)) as -> by (unfold off at 1; apply wsub_via_off).
  assert (off ack nxt = u32 (off una nxt - off una ack)) as -> by (unfold off at 1; apply wsub_via_off).
  revert H2 H0 H1 Hf Ra Rn. generalize (off una ack), (off una nxt). intros a f.
  unfold as_i32, u32, is_u32, two31, two32. intros. destruct (Z.ltb_spec ((a - f) mod 4294967296) 2147483648);
    Z.to_euclidean_division_equations; lia.
Qed.

Lemma ack_acceptable_cases c seg :
  is_u32 (c_snd_una c) -> is_u32 (c_snd_nxt c) -> is_u32 (ps_ack seg) -> off (c_snd_una c) (c_snd_nxt c) <= two31 + 1 ->
  ack_acceptable c seg = true ->
  (ack_in_flight (c_snd_una c) (c_snd_nxt c) (ps_ack seg) \/ ack_antipodal (c_snd_nxt c) (ps_ack seg)) /\
  off (ps_ack seg) (c_snd_nxt c) <= two31.
Proof.
  intros Hu Hn Ha Hf H. apply andb_true_iff in H as [H1 H2]. apply ack_range_cases; try done.
  - intros E. assert (ps_ack seg = c_snd_una c) as E1 by (apply (off_inj (c_snd_una c)); try done; by rewrite off_base).
    by rewrite E1, seq_lt_irrefl in H1.
  - unfold seq_lt in H1. apply Z.ltb_lt in H1. rewrite (wsub_via_off (c_snd_una c)), off_base in H1.
    pose proof (off_range (c_snd_una c) (ps_ack seg)) as Ra.
    assert (off (c_snd_una c) (ps_ack seg) <= two31); [|pose proof (off_range (c_snd_una c) (c_snd_nxt c)); width_lia].
    revert H1 Ra. generalize (off (c_snd_una c) (ps_ack seg)).
    intros a. unfold as_i32, u32, is_u32, two31, two32. intros.
    destruct (Z.ltb_spec ((0 - a) mod 4294967296) 2147483648); Z.to_euclidean_division_equations; lia.
Qed.

Lemma handshake_ack_cases c seg :
  is_u32 (c_snd_una c) -> is_u32 (c_snd_nxt c) -> is_u32 (ps_ack seg) -> c_snd_nxt c = wadd32 (c_snd_una c) 1 ->
  handshake_ack_ok c seg = true ->
  (ack_in_flight (c_snd_una c) (c_snd_nxt c) (ps_ack seg) \/ ack_antipodal (c_snd_nxt c) (ps_ack seg)) /\
  off (ps_ack seg) (c_snd_nxt c) <= two31.
Proof.
  intros Hu Hn Ha Hf H. apply andb_true_iff in H as [H1 H2].
  unfold seq_le in H1. apply Z.leb_le in H1. rewrite (wsub_via_off (c_snd_una c)) in H1.
  rewrite off_wadd in H1 by (rewrite off_base; width_lia). rewrite off_base in H1.
  pose proof (off_range (c_snd_una c) (ps_ack seg)) as Ra.
  assert (1 <= off (c_snd_una c) (ps_ack seg) <= two31 + 1).
  { revert H1 Ra. generalize (off (c_snd_una c) (ps_ack seg)). intros a. unfold as_i32, u32, is_u32, two31, two32.
    intros. destruct (Z.ltb_spec ((0 + 1 - a) mod 4294967296) 2147483648); Z.to_euclidean_division_equations; lia. }
  assert (off (c_snd_una c) (c_snd_nxt c) = 1) by (rewrite Hf, off_wadd; rewrite off_base; width_lia).
  apply ack_range_cases; try done; width_lia.
Qed.

Lemma flight_limit_range s : two31 <= flight_limit s <= two31 + 1.
Proof. destruct s; cbn; width_lia. Qed.

Lemma conn_flight c : conn_ok c -> off (c_snd_una c) (c_snd_nxt c) <= two31 + 1.
Proof. intros H. pose proof (ck_flight _ H). pose proof (flight_limit_range (c_state c)). lia. Qed.

(** ** Shared facts *)

Section Facts.
Context (test_server : bool) (clk : Clock) (links : Links) (edges : list Z) (sbb : Z).
Abbreviation run := (dispatch test_server clk links edges sbb).

Lemma segment_options_total seg : exists r, segment_options seg = Some r.
Proof.
  unfold segment_options. destruct (ps_options seg); [eauto|].
  rewrite parse_options_general, parse_general_rest. apply parse_sfx_some. lia.
Qed.

Lemma parse_total opts : exists r, parse_options opts = Some r.
Proof. rewrite parse_options_general, parse_general_rest. apply parse_sfx_some. lia. Qed.

Lemma close_path_total c seg : exists r, handle_close_path clk c seg = Some r.
Proof.
  unfold handle_close_path, leave.
  destruct (segment_options_total seg) as [[opts|err] ->]; cbn [mbind option_bind]; case_tests;
    try destruct (paws_check _ _ _ _); eauto.
Qed.

(** The shapes of a dispatch. *)
Inductive run_case (ctx : option MbufInsertCtx) (c : TcpConn) (seg : ParsedSegment)
    : TcpConn * Outcome * list MbufOp -> Prop :=
  | RunSynSent r : c_state c = SynSent -> handle_syn_sent clk edges c seg = Some r -> run_case ctx c seg r
  | RunSynReceived r : c_state c = SynReceived -> handle_syn_received clk c seg = Some r -> run_case ctx c seg r
  | RunEstablished r : c_state c = Established ->
      handle_established clk edges sbb links ctx c seg = Some r -> run_case ctx c seg r
  | RunClosing r : closing_state (c_state c) = true -> handle_close_path clk c seg = Some r -> run_case ctx c seg r
  | RunNothing : c_state c = Closed \/ c_state c = Listen \/ c_state c = SynReceived ->
      run_case ctx c seg (c, outcome_none, []).

Lemma dispatch_case ctx c seg r : run ctx c seg = Some r -> run_case ctx c seg r.
Proof.
  unfold dispatch, leave. destruct (c_state c) eqn:E; intros H;
    first [ by apply RunSynSent | by apply RunEstablished | (apply RunClosing; [by rewrite E|done])
          | (injection H as <-; apply RunNothing; tauto) | idtac ].
  destruct test_server; [by apply RunSynReceived|]. injection H as <-. apply RunNothing. tauto.
Qed.

Lemma close_view_inv c c' : keeps close_view c c' ->
  c_state c' = c_state c /\ c_recv c' = c_recv c /\ c_rcv_wnd c' = c_rcv_wnd c /\
  c_last_sack_trigger c' = c_last_sack_trigger c /\
  c_delivered_segments c' = c_delivered_segments c /\ c_our_fin_seq c' = c_our_fin_seq c /\
  c_snd_nxt c' = c_snd_nxt c.
Proof. unfold keeps, close_view. intros H. injection H. intuition congruence. Qed.

(** The outcome of an accepted segment in ESTABLISHED, in terms of the connection it
    found: the data stage ran on a connection with the same receive side. *)
Lemma established_data ctx c seg c' o ops : conn_ok c -> c_state c = Established -> segment_ok seg ->
  ctx_ok links ctx (zlen (ps_payload seg)) -> handle_established clk edges sbb links (Some ctx) c seg = Some (c', o, ops) ->
  (keeps rx_view c c' /\ c_snd_una c' = c_snd_una c /\ ops = [] /\ o_delivered o = 0 /\
   o_mbuf_ref_retained o = false /\ (o_new_state o = None \/ o_new_state o = Some Closed)) \/
  (exists c3, keeps rx_view c c3 /\
    c_snd_una c3 = (if ack_acceptable c seg then ps_ack seg else c_snd_una c) /\
    let d := deliver_data links c3 seg (Some ctx) in
    (c', o_new_state o) = fin_established (dr_conn d) seg (dr_delivered d) /\
    ops = dr_calls d /\ o_delivered o = dr_delivered d /\ o_mbuf_ref_retained o = dr_retained d /\
    forall mem S, exists outs, data_step mem S links c3 ctx seg d outs).
Proof.
  intros Hk Hs [Hseq _] Hctx H. apply handle_established_inv in H as
    [(-> & -> & _ & H1 & H2 & Hn & _)|(Hr & Ha & Hw & opts & c1 & e & Hp & H)].
  - left. split_and!; try reflexivity; try done. destruct Hn as [?|[_ ?]]; auto.
  - apply paws_views in Hp as (P1 & P2 & P3). apply established_accept_inv in H as (_ & _ & _ & _ &
      [(_ & _ & Hn & -> & K & K2 & _ & Hd0 & Hr0)|(_ & c3 & K & Ku & Hf & Hops & Hd & Hm)]).
    + left. split_and!; try done.
      * transitivity c1; done.
      * unfold keeps in K2. congruence.
      * by left.
    + right. exists c3. rewrite P2, P3 in Ku. split; [transitivity c1; done|]. split; [done|]. cbv zeta.
      split_and!; try done. intros mem S.
      assert (K3 : keeps rx_view c c3) by (transitivity c1; done).
      pose proof (rx_view_inv _ _ K3) as (E1 & E2 & E3 & E4 & E5 & E6 & E7 & E8).
      pose proof (ck_queue _ Hk) as Hq. rewrite Hs in Hq. destruct Hq as [Hq _].
      apply deliver_data_spec; rewrite ?E2, ?E3, ?E4; try apply Hk; try done.
      rewrite <- Hw. apply segment_in_window_proper; [|done]. by symmetry.
Qed.

Lemma owned_conn m (c : TcpConn) : owned m c = owned m (c_recv c) + owned m (c_delivered_segments c).
Proof. reflexivity. Qed.

(** The fields the data stage leaves alone. *)
Lemma rx_frame_inv c c' : rx_frame c c' ->
  c_state c' = c_state c /\ c_snd_una c' = c_snd_una c /\ c_snd_nxt c' = c_snd_nxt c /\
  c_rcv_wnd c' = c_rcv_wnd c /\ c_delivered_segments c' = c_delivered_segments c.
Proof. unfold rx_frame. intros ->. split_and!; reflexivity. Qed.

(** Outside ESTABLISHED a segment never touches the receive queue. *)
Lemma idle_receive ctx c seg c' o ops : c_state c <> Established -> run ctx c seg = Some (c', o, ops) ->
  c_recv c' = c_recv c /\ c_delivered_segments c' = c_delivered_segments c /\ ops = [] /\
  o_delivered o = 0 /\ o_mbuf_ref_retained o = false.
Proof.
  intros Hs H. apply dispatch_case in H. inversion H as [r E Hr|r E Hr|r E Hr|r E Hr|E]; subst; try done.
  - apply syn_sent_inv in Hr as (-> & _ & _ & H1 & H2 & [[-> _]|(_ & _ & _ & _ & _ & _ & K & _)]); [done|].
    apply close_view_inv in K. by destruct_and!.
  - apply syn_received_inv in Hr as (-> & _ & _ & H1 & H2 & [[-> _]|(_ & _ & _ & _ & _ & K & _)]); [done|].
    apply close_view_inv in K. by destruct_and!.
  - apply handle_close_path_inv in Hr as [(-> & -> & _ & H1 & H2 & _)|(_ & _ & _ & _ & opts & c1 & e & Hp & Hr)];
      [done|].
    apply paws_views in Hp as (P1 & _). apply rx_view_inv in P1.
    apply close_accept_inv in Hr as (-> & K & _ & _ & _ & _ & _ & _ & _ & H1 & H2).
    apply close_view_inv in K. destruct_and!. split_and!; congruence.
Qed.

(** The dropped segments of the two data-bearing handlers. *)
Ltac drop_case Hr Hbad :=
  apply (inj Some) in Hr; injection Hr as <- <- <-;
  first [discriminate Hbad
        | split_and!; try reflexivity; let H := fresh in intros H; first [reflexivity | discriminate H]].

Definition dropped (o : Outcome) : bool := o_bad_seq o || o_bad_option o || o_paws_rejected o || o_urgent_dropped o.

Lemma handle_syn_sent_drop c seg c' o ops : handle_syn_sent clk edges c seg = Some (c', o, ops) -> dropped o = true ->
  c' = c /\ ops = [] /\ o_delivered o = 0 /\ (o_bad_seq o || o_paws_rejected o = true -> o_tx o = TxAck).
Proof.
  intros Hr Hbad. unfold handle_syn_sent, leave in Hr.
  destruct (has_flag _ TCP_RST). { destruct (_ && _); drop_case Hr Hbad. }
  destruct (has_flag _ TCP_SYN); cbn [negb] in Hr; [|drop_case Hr Hbad].
  destruct (has_flag _ TCP_ACK); cbn [negb] in Hr; [|drop_case Hr Hbad].
  destruct (handshake_ack_ok c seg); cbn [negb] in Hr; [|drop_case Hr Hbad].
  destruct (parse_options _) as [[opts|err]|]; cbn [mbind option_bind] in Hr; [|drop_case Hr Hbad|discriminate Hr].
  destruct (maybe_seed_srtt_from_syn _ _ _). drop_case Hr Hbad.
Qed.

Lemma handle_syn_received_drop c seg c' o ops : handle_syn_received clk c seg = Some (c', o, ops) -> dropped o = true ->
  c' = c /\ ops = [] /\ o_delivered o = 0 /\ o_new_state o = None /\
  (o_bad_seq o || o_paws_rejected o = true -> o_tx o = TxAck).
Proof.
  intros Hr Hbad. unfold handle_syn_received, leave in Hr.
  destruct (has_flag _ TCP_RST); [destruct (c_is_passive_open c); drop_case Hr Hbad|].
  destruct (has_flag _ TCP_SYN); [destruct (ps_seq seg =? c_irs c); drop_case Hr Hbad|].
  destruct (has_flag _ TCP_ACK); cbn [negb] in Hr; [|drop_case Hr Hbad].
  destruct (ps_seq seg =? c_rcv_nxt c); cbn [negb] in Hr; [|drop_case Hr Hbad].
  destruct (handshake_ack_ok c seg); cbn [negb] in Hr; [|drop_case Hr Hbad].
  destruct (absorb_final_ack clk c seg); cbn [mbind option_bind] in Hr; [drop_case Hr Hbad|discriminate Hr].
Qed.

Lemma handle_established_drop ctx c seg c' o ops : handle_established clk edges sbb links ctx c seg = Some (c', o, ops) ->
  dropped o = true ->
  c' = c /\ ops = [] /\ o_delivered o = 0 /\ o_new_state o = None /\ (o_bad_seq o || o_paws_rejected o = true -> o_tx o = TxAck).
Proof.
  intros Hr Hbad. unfold handle_established, leave in Hr.
  destruct (has_flag _ TCP_URG); [drop_case Hr Hbad|]. destruct (has_flag _ TCP_RST); [drop_case Hr Hbad|].
  destruct (has_flag _ TCP_ACK); cbn [negb] in Hr; [|drop_case Hr Hbad].
  destruct (segment_in_window c seg); cbn [negb] in Hr; [|drop_case Hr Hbad].
  destruct (segment_options seg) as [[opts|err]|]; cbn [mbind option_bind] in Hr; [|drop_case Hr Hbad|discriminate Hr].
  destruct (paws_check clk c seg opts); [drop_case Hr Hbad|drop_case Hr Hbad|].
  apply (inj Some) in Hr. apply established_accept_inv in Hr as (E1 & E2 & E3 & E4 & _).
  unfold dropped in Hbad. rewrite E1, E2, E3, E4 in Hbad. discriminate Hbad.
Qed.

Lemma handle_close_path_drop c seg c' o ops : handle_close_path clk c seg = Some (c', o, ops) -> dropped o = true ->
  c' = c /\ ops = [] /\ o_delivered o = 0 /\ o_new_state o = None /\ (o_bad_seq o || o_paws_rejected o = true -> o_tx o = TxAck).
Proof.
  intros Hr Hbad. unfold handle_close_path, leave in Hr.
  destruct (has_flag _ TCP_RST); [drop_case Hr Hbad|].
  destruct (bool_decide (c_state c = TimeWait)); [drop_case Hr Hbad|].
  destruct (has_flag _ TCP_ACK); cbn [negb] in Hr; [|drop_case Hr Hbad].
  destruct (segment_in_window c seg); cbn [negb] in Hr; [|drop_case Hr Hbad].
  destruct (segment_options seg) as [[opts|err]|]; cbn [mbind option_bind] in Hr; [|drop_case Hr Hbad|discriminate Hr].
  destruct (paws_check clk c seg opts); [drop_case Hr Hbad|drop_case Hr Hbad|].
  apply (inj Some) in Hr. apply close_accept_inv in Hr as (_ & _ & _ & _ & _ & E1 & E2 & E3 & E4 & _).
  unfold dropped in Hbad. rewrite E1, E2, E3, E4 in Hbad. discriminate Hbad.
Qed.

Lemma dispatch_established ctx c seg r : c_state c = Established -> run ctx c seg = Some r ->
  handle_established clk edges sbb links ctx c seg = Some r.
Proof. unfold dispatch. by intros ->. Qed.

Lemma data_sender c seg ctx : let c' := dr_conn (deliver_data links c seg ctx) in
  c_snd_una c' = c_snd_una c /\ c_snd_nxt c' = c_snd_nxt c.
Proof.
  cbv zeta. unfold deliver_data, deliver_in_order, deliver_out_of_order.
  destruct (ps_payload seg) as [|b p]; [done|].
  destruct (ps_seq seg =? c_rcv_nxt c).
  - destruct (append_in_order _ _ _ _) as [[[q dl] dp] ops].
    destruct (negb _); [|done]. by destruct (drain_contiguous_into _ _ _) as [[[[? ?] ?] ?] ?].
  - destruct (seq_lt _ _); [|done]. destruct (0 <? free_space_total _); [|done].
    destruct ctx as [ctx|]; [|done]. by destruct (reorder_insert _ _ _ _ _) as [[? ?] ?].
Qed.

Lemma dispatch_una ctx c seg c' o ops : conn_ok c -> segment_ok seg -> run ctx c seg = Some (c', o, ops) ->
  c_snd_nxt c' = c_snd_nxt c /\
  (c_snd_una c' = c_snd_una c \/
   c_snd_una c' = ps_ack seg /\
   (ack_in_flight (c_snd_una c) (c_snd_nxt c) (ps_ack seg) \/ ack_antipodal (c_snd_nxt c) (ps_ack seg)) /\
   off (ps_ack seg) (c_snd_nxt c) <= two31).
Proof.
  intros Hk [_ Ha] H. pose proof Hk as [_ Hu Hn _ _ _ Hq]. pose proof (conn_flight _ Hk) as Hf.
  assert (Hacc : ack_acceptable c seg = true ->
    (ack_in_flight (c_snd_una c) (c_snd_nxt c) (ps_ack seg) \/ ack_antipodal (c_snd_nxt c) (ps_ack seg)) /\
    off (ps_ack seg) (c_snd_nxt c) <= two31) by (by apply ack_acceptable_cases).
  assert (Hhs : c_state c = SynSent \/ c_state c = SynReceived -> handshake_ack_ok c seg = true ->
    (ack_in_flight (c_snd_una c) (c_snd_nxt c) (ps_ack seg) \/ ack_antipodal (c_snd_nxt c) (ps_ack seg)) /\
    off (ps_ack seg) (c_snd_nxt c) <= two31).
  { intros Es. apply handshake_ack_cases; try done. destruct Es as [E|E]; rewrite E in Hq; apply Hq. }
  apply dispatch_case in H. inversion H as [r E Hr|r E Hr|r E Hr|r E Hr|E]; subst; [..|by auto].
  - apply syn_sent_inv in Hr as (_ & _ & _ & _ & _ & [[-> _]|(_ & _ & Hh & _ & _ & _ & K & E1 & _)]); [by auto|].
    apply close_view_inv in K. destruct_and!. split; [done|]. right. split; [done|]. auto.
  - apply syn_received_inv in Hr as (_ & _ & _ & _ & _ & [[-> _]|(_ & _ & Hh & _ & _ & K & E1 & _)]); [by auto|].
    apply close_view_inv in K. destruct_and!. split; [done|]. right. split; [done|]. auto.
  - apply handle_established_inv in Hr as [(-> & _)|(_ & _ & _ & opts & c1 & e & Hp & Hr)]; [by auto|].
    apply paws_views in Hp as (P1 & P2 & P3). apply rx_view_inv in P1 as (_ & _ & _ & _ & _ & _ & _ & Pn).
    apply established_accept_inv in Hr as (_ & _ & _ & _ &
      [(_ & _ & _ & _ & K & K2 & _)|(_ & c3 & K & Ku & Hfin & _)]).
    + apply rx_view_inv in K as (_ & _ & _ & _ & _ & _ & _ & Kn). unfold keeps in K2. split; [congruence|]. left; congruence.
    + apply rx_view_inv in K as (_ & _ & _ & _ & _ & _ & _ & Kn). rewrite P2, P3 in Ku.
      pose proof (data_sender c3 seg ctx) as (D1 & D2).
      assert (c_snd_una c' = c_snd_una c3 /\ c_snd_nxt c' = c_snd_nxt c3) as [-> ->].
      { apply fin_established_inv in Hfin as [[-> _]|(_ & _ & _ & ->)]; conn_simpl; done. }
      split; [congruence|]. rewrite Ku. destruct (ack_acceptable c seg); [right; auto|by left].
  - apply handle_close_path_inv in Hr as [(-> & _)|(_ & _ & _ & _ & opts & c1 & e & Hp & Hr)]; [by auto|].
    apply paws_views in Hp as (P1 & P2 & P3). apply rx_view_inv in P1 as (_ & _ & _ & _ & _ & _ & _ & Pn).
    apply close_accept_inv in Hr as (_ & K & Ku & _). apply close_view_inv in K as (_ & _ & _ & _ & _ & _ & Kn).
    rewrite P2, P3 in Ku. split; [congruence|]. rewrite Ku. destruct (ack_acceptable c seg); [right; auto|by left].
Qed.

Lemma after_fields c o : c_rcv_nxt (after c o) = c_rcv_nxt c /\ c_snd_una (after c o) = c_snd_una c /\
  c_snd_nxt (after c o) = c_snd_nxt c /\ c_rcv_wnd (after c o) = c_rcv_wnd c /\ c_recv (after c o) = c_recv c.
Proof. unfold after. destruct (o_new_state o); split_and!; reflexivity. Qed.

(** What a segment leaves of the receive side, by the state it leads to. *)
Definition rx_after (c c' : TcpConn) (s : TcpState) : Prop :=
  is_u32 (c_rcv_nxt c') /\ c_rcv_wnd c' = c_rcv_wnd c /\ rv_ok (c_recv c') /\
  match s with
  | Established => rq_ok (c_rcv_nxt c') (rv_reorder (c_recv c')) /\
                   starts_from (c_rcv_nxt c') 1 (rv_reorder (c_recv c'))
  | SynSent | SynReceived => c' = c /\ c_state c = s
  | _ => True
  end.

Lemma rx_after_same c : conn_ok c -> rx_after c c (c_state c).
Proof.
  intros [Kr _ _ _ _ Kq Kque]. unfold rx_after. split_and!; try done. by destruct (c_state c).
Qed.

Lemma rx_after_closed c c' : conn_ok c -> keeps rx_view c c' -> rx_after c c' Closed.
Proof.
  intros [Kr _ _ _ _ Kq _] K. apply rx_view_inv in K as (_ & E1 & E2 & E3 & _).
  unfold rx_after. by rewrite E1, E2, E3.
Qed.

Lemma rq_ok_fresh base cap : is_u32 cap -> rq_ok base (reorder_new cap) /\ starts_from base 1 (reorder_new cap).
Proof. intros H. split; [split; cbn; try done; try constructor; width_lia|constructor]. Qed.

(** An accepted handshake. *)
Lemma handshake_rx c c' : conn_ok c -> c_state c = SynSent \/ c_state c = SynReceived -> keeps close_view c c' ->
  is_u32 (c_rcv_nxt c') -> rx_after c c' Established.
Proof.
  intros [_ _ _ _ _ Kq Kque] Hs K Hr. apply close_view_inv in K as (_ & E1 & E2 & _).
  unfold rx_after. rewrite E1, E2. split_and!; try done; destruct Hs as [Hs|Hs]; rewrite Hs in Kque;
    destruct Kque as [Eq _]; rewrite Eq; apply rq_ok_fresh; apply Kq.
Qed.

Lemma syn_sent_rx c seg c' o ops : conn_ok c -> c_state c = SynSent ->
  handle_syn_sent clk edges c seg = Some (c', o, ops) -> rx_after c c' (c_state (after c' o)).
Proof.
  intros Hk Hs H. apply syn_sent_inv in H as (_ & _ & _ & _ & _ &
    [[-> [Hn|Hn]]|(_ & _ & _ & Hn & _ & _ & K & _ & Er)]); unfold after; rewrite Hn; conn_simpl.
  - by apply rx_after_same.
  - by apply rx_after_closed.
  - apply handshake_rx; auto. rewrite Er. apply wadd32_range.
Qed.

Lemma syn_received_rx c seg c' o ops : conn_ok c -> c_state c = SynReceived ->
  handle_syn_received clk c seg = Some (c', o, ops) -> rx_after c c' (c_state (after c' o)).
Proof.
  intros Hk Hs H. apply syn_received_inv in H as (_ & _ & _ & _ & _ &
    [(-> & [Hn|Hn] & _)|(_ & _ & _ & Hn & _ & K & _ & Er)]); unfold after; rewrite Hn; conn_simpl.
  - by apply rx_after_same.
  - by apply rx_after_closed.
  - apply handshake_rx; auto. rewrite Er. apply Hk.
Qed.

Lemma close_path_rx c seg c' o ops : conn_ok c -> closing_state (c_state c) = true ->
  handle_close_path clk c seg = Some (c', o, ops) -> rx_after c c' (c_state (after c' o)).
Proof.
  intros Hk Hs H. destruct (close_path_steps clk c seg c' o ops Hs H) as [Es Hstep].
  assert (Hns : match c_state (after c' o) with Established | SynSent | SynReceived => False | _ => True end).
  { unfold after. destruct (o_new_state o) as [s'|]; conn_simpl; [|by rewrite Es; destruct (c_state c)].
    specialize (Hstep s' eq_refl). destruct (c_state c); try discriminate Hs; by inversion Hstep. }
  assert (R : is_u32 (c_rcv_nxt c') /\ c_rcv_wnd c' = c_rcv_wnd c /\ c_recv c' = c_recv c).
  { apply handle_close_path_inv in H as [(-> & _)|(_ & _ & _ & _ & opts & c1 & e & Hp & H)]; [split; [apply Hk|done]|].
    apply paws_views in Hp as (P1 & _). apply rx_view_inv in P1 as (_ & P2 & P3 & P4 & _).
    apply close_accept_inv in H as (_ & K & _ & Er & _). apply close_view_inv in K as (_ & K2 & K3 & _).
    split; [|split; congruence]. rewrite Er. destruct (peer_fin_next c1 seg); [apply wadd32_range|rewrite P3; apply Hk]. }
  destruct R as (R1 & R2 & R3). unfold rx_after. rewrite R3. split_and!; try done; [apply Hk|].
  by destruct (c_state (after c' o)).
Qed.

Lemma established_rx ctx c seg c' o ops : conn_ok c -> segment_ok seg -> c_state c = Established ->
  ctx_ok links ctx (zlen (ps_payload seg)) ->
  handle_established clk edges sbb links (Some ctx) c seg = Some (c', o, ops) ->
  rx_after c c' (c_state (after c' o)).
Proof.
  intros Hk Hseg Hs Hctx H.
  destruct (established_steps clk edges sbb links (Some ctx) c seg c' o ops Hs H) as [Es _].
  apply established_data in H as [(K & _ & _ & _ & _ & Hn)|(c3 & K & _ & Hf & _ & _ & _ & Hdata)]; try done.
  - unfold after. destruct Hn as [-> | ->]; conn_simpl; [|by apply rx_after_closed].
    pose proof (ck_queue _ Hk) as Kque. rewrite Hs in Kque.
    apply rx_view_inv in K as (_ & E1 & E2 & E3 & _). unfold rx_after. rewrite Es, Hs, E1, E2, E3.
    split_and!; try done; try apply Hk; apply Kque.
  - destruct (Hdata (fun _ _ => 0) (fun _ => 0)) as [outs D].
    pose proof (rx_frame_inv _ _ (ds_frame _ _ _ _ _ _ _ _ D)) as (F1 & _ & _ & F4 & _).
    pose proof (ck_queue _ Hk) as Kque. rewrite Hs in Kque.
    apply rx_view_inv in K as (K1 & E1 & E2 & E3 & _).
    apply fin_established_inv in Hf as [[-> Hn]|(Hn & _ & _ & ->)]; unfold after; rewrite Hn; unfold rx_after; conn_simpl.
    + rewrite F1, K1, Hs, F4, E3. split_and!; try apply D; try done.
      * rewrite (ds_rcv_nxt _ _ _ _ _ _ _ _ D). apply wadd32_range.
      * rewrite E1, E2. apply Kque.
    + rewrite F4, E3. split_and!; try apply D; try done. apply wadd32_range.
Qed.

Lemma dispatch_rx ctx c seg c' o ops : conn_ok c -> segment_ok seg ->
  ctx_ok links ctx (zlen (ps_payload seg)) -> run (Some ctx) c seg = Some (c', o, ops) ->
  rx_after c c' (c_state (after c' o)).
Proof.
  intros Hk Hseg Hctx H. apply dispatch_case in H.
  inversion H as [r E Hr|r E Hr|r E Hr|r E Hr|E]; subst.
  - by eapply syn_sent_rx.
  - by eapply syn_received_rx.
  - by eapply established_rx.
  - by eapply close_path_rx.
  - by apply rx_after_same.
Qed.

Lemma dispatch_steps ctx c seg c' o ops : run ctx c seg = Some (c', o, ops) ->
  c_state c' = c_state c /\ forall s', o_new_state o = Some s' -> fsm_step c seg (c_state c) s'.
Proof.
  intros H. apply dispatch_case in H. inversion H as [r E Hr|r E Hr|r E Hr|r E Hr|E]; subst; try done.
  - by eapply syn_sent_steps.
  - by eapply syn_received_steps.
  - by eapply established_steps.
  - by eapply close_path_steps.
Qed.

Lemma flight_limit_step ctx c seg c' o ops : run ctx c seg = Some (c', o, ops) ->
  flight_limit (c_state c) <= flight_limit (c_state (after c' o)).
Proof.
  intros H. apply dispatch_steps in H as [Es Hn]. unfold after. destruct (o_new_state o) as [s'|]; [|by rewrite Es].
  specialize (Hn _ eq_refl). conn_simpl. destruct Hn; try (cbn; lia); apply flight_limit_range.
Qed.

Lemma conn_ok_after ctx c seg c' o ops : conn_ok c -> segment_ok seg -> run ctx c seg = Some (c', o, ops) ->
  rx_after c c' (c_state (after c' o)) -> conn_ok (after c' o).
Proof.
  intros Hk Hseg H (R1 & R2 & R3 & R4). destruct (dispatch_una _ _ _ _ _ _ Hk Hseg H) as [En Eu].
  pose proof Hk as [Kr Ku Kn Kf Kw Kq Kque].
  assert (Hu : is_u32 (c_snd_una c')) by (destruct Eu as [->|(-> & _)]; [done|apply Hseg]).
  assert (Hf : off (c_snd_una c') (c_snd_nxt c') <= flight_limit (c_state (after c' o))).
  { rewrite En. destruct Eu as [->|(-> & _ & Hle)].
    - pose proof (flight_limit_step ctx c seg c' o ops H). lia.
    - pose proof (flight_limit_range (c_state (after c' o))). lia. }
  destruct (after_fields c' o) as (A1 & A2 & A3 & A4 & A5).
  split; rewrite ?A1, ?A2, ?A3, ?A4, ?A5, ?R2; try done; [by rewrite En|].
  destruct (c_state (after c' o)) eqn:Es; try done; destruct R4 as [-> Es']; by rewrite Es' in Kque.
Qed.

Lemma dispatch_conn_ok ctx c seg c' o ops : conn_ok c -> segment_ok seg ->
  ctx_ok links ctx (zlen (ps_payload seg)) -> run (Some ctx) c seg = Some (c', o, ops) -> conn_ok (after c' o).
Proof.
  intros Hk Hseg Hctx H. by eapply conn_ok_after, dispatch_rx.
Qed.

Lemma dispatch_refs ctx c seg c' o ops m : conn_ok c -> segment_ok seg ->
  ctx_ok links ctx (zlen (ps_payload seg)) -> run (Some ctx) c seg = Some (c', o, ops) ->
  owned m c' = owned m c + ref_delta m ops + (if o_mbuf_ref_retained o && (mi_mbuf ctx =? m) then 1 else 0).
Proof.
  intros Hk Hseg Hctx H. rewrite !owned_conn.
  destruct (decide (c_state c = Established)) as [Hs|Hs].
  - apply dispatch_established in H; [|done].
    apply established_data in H as [(K & _ & -> & Hd & -> & Hn)|(c3 & K & _ & Hf & -> & Hd & -> & Hdata)]; try done.
    + apply rx_view_inv in K as (_ & -> & _ & _ & _ & -> & _). cbn [andb]. rewrite ref_delta_nil. lia.
    + destruct (Hdata (fun _ _ => 0) (fun _ => 0)) as [outs D]. pose proof (ds_refs _ _ _ _ _ _ _ _ D m) as R.
      apply rx_view_inv in K as (_ & Er & _ & _ & _ & Eds & _). rewrite <- Er, <- Eds.
      destruct (rx_frame_inv _ _ (ds_frame _ _ _ _ _ _ _ _ D)) as (_ & _ & _ & _ & Efd).
      assert (E : c_recv c' = c_recv (dr_conn (deliver_data links c3 seg (Some ctx))) /\
         c_delivered_segments c' = c_delivered_segments (dr_conn (deliver_data links c3 seg (Some ctx)))).
      { apply fin_established_inv in Hf as [[-> Hn]|(Hn & _ & _ & ->)]; conn_simpl; done. }
      destruct E as [-> ->]. rewrite Efd. lia.
  - apply idle_receive in H as (-> & -> & -> & _ & ->); [|done]. cbn [andb]. rewrite ref_delta_nil. lia.
Qed.
End Facts.

Lemma append_in_order_full (links : Links) q plen ctx : recv_free_space q = 0 -> is_u32 plen ->
  append_in_order links q plen ctx = (q, 0, plen, []).
Proof.
  intros Hq Hp. unfold append_in_order. rewrite Hq, (u32_id plen), Z.min_r by width_lia.
  assert (E : sat_add32 0 (sat_sub plen 0) = plen) by (unfold sat_add32, sat_sub; width_lia).
  destruct ctx; cbn [Z.ltb Z.compare]; by rewrite E.
Qed.

(** ** Properties *)

Section Properties.
Context (test_server : bool) (clk : Clock) (links : Links) (edges : list Z) (sbb : Z).
Abbreviation run := (dispatch test_server clk links edges sbb).

Lemma dispatch_runs (ctx : option MbufInsertCtx) (c : TcpConn) (seg : ParsedSegment) :
  exists r, run ctx c seg = Some r.
Proof.
  unfold dispatch, leave. destruct (c_state c); [eauto|eauto| |destruct test_server; [|eauto]|..];
    try apply close_path_total.
  - unfold handle_syn_sent, leave. case_tests; eauto.
    destruct (parse_total (ps_options seg)) as [[opts|err] ->]; cbn [mbind option_bind]; [|eauto].
    destruct (maybe_seed_srtt_from_syn _ _ _). eauto.
  - unfold handle_syn_received, leave, absorb_final_ack.
    destruct (parse_total (ps_options seg)) as [[opts|err] ->]; cbn [mbind option_bind];
      [destruct (timestamps opts) as [[? ?]|]|]; case_tests; cbn [mbind option_bind]; eauto.
  - unfold handle_established, leave.
    destruct (segment_options_total seg) as [[opts|err] ->]; cbn [mbind option_bind]; case_tests;
      try destruct (paws_check _ _ _ _); eauto.
Qed.

(** No segment, in any state, makes the dispatcher panic or loop: it always
    returns a connection and an outcome. *)
Theorem dispatch_total (ctx : option MbufInsertCtx) (c : TcpConn) (seg : ParsedSegment) :
  exists r, run ctx c seg = Some r.
Proof. exact (dispatch_runs ctx c seg). Qed.



(** C10. The invariant of a connection survives every segment, once the engine has
    applied the transition asked for: sequence variables stay 32-bit values with
    [snd_una] at most half the circle behind [snd_nxt], buffers within capacity, and in
    ESTABLISHED the reorder queue holds sorted disjoint segments strictly beyond
    [rcv_nxt].  [snd_nxt] never moves, and [snd_una] only moves to an acknowledgement
    of data in flight, or to the comparators' blind spot half a circle beyond it. *)
Theorem dispatch_invariant (ctx : MbufInsertCtx) (c : TcpConn) (seg : ParsedSegment)
    (c' : TcpConn) (o : Outcome) (ops : list MbufOp) (Hk : conn_ok c) (Hseg : segment_ok seg)
    (Hctx : ctx_ok links ctx (zlen (ps_payload seg))) (H : run (Some ctx) c seg = Some (c', o, ops)) :
  conn_ok (after c' o) /\ c_snd_nxt c' = c_snd_nxt c /\
  (c_snd_una c' = c_snd_una c \/
   c_snd_una c' = ps_ack seg /\
   (ack_in_flight (c_snd_una c) (c_snd_nxt c) (ps_ack seg) \/ ack_antipodal (c_snd_nxt c) (ps_ack seg))).
Proof.
  destruct (dispatch_una test_server clk links edges sbb (Some ctx) c seg c' o ops Hk Hseg H) as [E1 E2].
  split; [|split; [done|]; destruct E2 as [?|(? & ? & _)]; auto].
  by eapply dispatch_conn_ok.
Qed.

Lemma dispatch_stream (mem : MbufId -> Z -> Z) (S : Z -> Z) (ctx : MbufInsertCtx)
    (c : TcpConn) (seg : ParsedSegment) (c' : TcpConn) (o : Outcome) (ops : list MbufOp)
    (Hk : conn_ok c) (Hseg : segment_ok seg) (Hctx : ctx_ok links ctx (zlen (ps_payload seg)))
    (Hqueue : Forall (carries (c_rcv_nxt c) mem S) (segments (rv_reorder (c_recv c))))
    (Hpay : segment_carries mem S links ctx (off (c_rcv_nxt c) (ps_seq seg)) (zlen (ps_payload seg)))
    (H : run (Some ctx) c seg = Some (c', o, ops)) :
  exists outs, rv_bytes (c_recv c') = rv_bytes (c_recv c) ++ outs /\
    concat (map (view_bytes mem) outs) = stream S 0 (o_delivered o) /\
    Forall (carries (c_rcv_nxt c) mem S) (segments (rv_reorder (c_recv c'))) /\
    (c_state c = Established ->
       c_rcv_nxt c' = wadd32 (c_rcv_nxt c)
         (o_delivered o + if bool_decide (o_new_state o = Some CloseWait) then 1 else 0)) /\
    (c_state c <> Established -> outs = [] /\ o_delivered o = 0) /\
  o_delivered o = zsum io_len outs /\ 0 <= o_delivered o < two31.
Proof.
  destruct (decide (c_state c = Established)) as [Hs|Hs].
  - apply dispatch_established in H; [|done].
    apply established_data in H as [(K & _ & -> & Hd & _ & Hn)|(c3 & K & _ & Hf & _ & Hd & _ & Hdata)]; try done.
    + apply rx_view_inv in K as (_ & Er & En & _). exists [].
      rewrite Er, En, app_nil_r, Hd. split_and!; try done. intros _.
      rewrite bool_decide_eq_false_2 by (destruct Hn as [-> | ->]; done). by rewrite wadd32_0_r by apply Hk.
    + destruct (Hdata mem S) as [outs D]. exists outs. apply rx_view_inv in K as (_ & Er & En & _).
      rewrite <- En, <- Er in *. destruct (ds_content _ _ _ _ _ _ _ _ D Hqueue Hpay) as [Hc Hq].
      assert (E : c_recv c' = c_recv (dr_conn (deliver_data links c3 seg (Some ctx))) /\
        c_rcv_nxt c' = wadd32 (c_rcv_nxt (dr_conn (deliver_data links c3 seg (Some ctx))))
          (if bool_decide (o_new_state o = Some CloseWait) then 1 else 0)).
      { apply fin_established_inv in Hf as [[-> Hn]|(Hn & _ & _ & ->)]; rewrite Hn; conn_simpl; split; try done.
        rewrite bool_decide_eq_false_2 by done.
        rewrite wadd32_0_r; [done|]. rewrite (ds_rcv_nxt _ _ _ _ _ _ _ _ D). apply wadd32_range. }
      destruct E as [-> ->]. rewrite Hd, (ds_bytes _ _ _ _ _ _ _ _ D), (ds_rcv_nxt _ _ _ _ _ _ _ _ D), wadd32_assoc.
      pose proof (ds_nonneg _ _ _ _ _ _ _ _ D). pose proof (ds_count _ _ _ _ _ _ _ _ D). split_and!; (done || lia).
  - apply idle_receive in H as (E & _ & _ & Hd & _); [|done]. exists []. by rewrite E, Hd, app_nil_r.
Qed.

(** C6. The bytes handed to the application are the bytes of the stream: when the
    queued out-of-order segments and the segment's own payload carry the peer's stream
    [S] (read through [mem], positions counted from [rcv_nxt]), an ESTABLISHED segment
    appends views whose contents are exactly the next [delivered] bytes of [S],
    [rcv_nxt] moves over exactly those bytes (and over the FIN when it is accepted),
    and what stays queued still carries [S].  In every other state the segment adds
    nothing to the receive queue. *)
Theorem dispatch_delivers_stream (mem : MbufId -> Z -> Z) (S : Z -> Z) (ctx : MbufInsertCtx)
    (c : TcpConn) (seg : ParsedSegment) (c' : TcpConn) (o : Outcome) (ops : list MbufOp)
    (Hk : conn_ok c) (Hseg : segment_ok seg) (Hctx : ctx_ok links ctx (zlen (ps_payload seg)))
    (Hqueue : Forall (carries (c_rcv_nxt c) mem S) (segments (rv_reorder (c_recv c))))
    (Hpay : segment_carries mem S links ctx (off (c_rcv_nxt c) (ps_seq seg)) (zlen (ps_payload seg)))
    (H : run (Some ctx) c seg = Some (c', o, ops)) :
  exists outs, rv_bytes (c_recv c') = rv_bytes (c_recv c) ++ outs /\
    concat (map (view_bytes mem) outs) = stream S 0 (o_delivered o) /\
    Forall (carries (c_rcv_nxt c) mem S) (segments (rv_reorder (c_recv c'))) /\
    (c_state c = Established ->
       c_rcv_nxt c' = wadd32 (c_rcv_nxt c)
         (o_delivered o + if bool_decide (o_new_state o = Some CloseWait) then 1 else 0)) /\
    (c_state c <> Established -> outs = [] /\ o_delivered o = 0).
Proof.
  destruct (dispatch_stream mem S ctx c seg c' o ops Hk Hseg Hctx Hqueue Hpay H) as (outs & H1 & H2 & H3 & H4 & H5 & _).
  by exists outs.
Qed.

(** No segment leaks or over-releases a packet buffer: the references the
    connection holds change exactly by the reference-count calls made, plus the one
    reference the caller hands over when the outcome says it was retained. *)
Theorem dispatch_conserves_refs (ctx : MbufInsertCtx) (c : TcpConn) (seg : ParsedSegment)
    (c' : TcpConn) (o : Outcome) (ops : list MbufOp) (m : MbufId)
    (Hk : conn_ok c) (Hseg : segment_ok seg) (Hctx : ctx_ok links ctx (zlen (ps_payload seg)))
    (H : run (Some ctx) c seg = Some (c', o, ops)) :
  owned m c' = owned m c + ref_delta m ops + (if o_mbuf_ref_retained o && (mi_mbuf ctx =? m) then 1 else 0).
Proof. by eapply dispatch_refs. Qed.

(** A FIN whose data did not fit is accepted all the same: with the receive buffer
    full the payload is dropped, [delivered] is 0, the test
    [seq + delivered = rcv_nxt] holds, and the connection moves to CLOSE_WAIT with
    [rcv_nxt] one past the first lost byte. *)
Theorem fin_accepted_when_full (ctx : option MbufInsertCtx) (c : TcpConn) (seg : ParsedSegment)
    (Hr : is_u32 (c_rcv_nxt c)) (Hseq : ps_seq seg = c_rcv_nxt c) (Hfin : has_flag (ps_flags seg) TCP_FIN = true)
    (Hpay : 0 < zlen (ps_payload seg) < two32) (Hfull : recv_free_space (c_recv c) = 0)
    (Hempty : segments (rv_reorder (c_recv c)) = []) :
  let d := deliver_data links c seg ctx in
  let r := fin_established (dr_conn d) seg (dr_delivered d) in
  dr_delivered d = 0 /\ dr_buf_full_drop d = zlen (ps_payload seg) /\
  r.2 = Some CloseWait /\ c_rcv_nxt r.1 = wadd32 (c_rcv_nxt c) 1.
Proof.
  cbv zeta. unfold deliver_data. destruct (ps_payload seg) as [|b p] eqn:Ep; [unfold zlen in Hpay; cbn in Hpay; lia|].
  rewrite <- Ep in *. rewrite Hseq, Z.eqb_refl. unfold deliver_in_order.
  rewrite (append_in_order_full links (c_recv c) _ ctx Hfull) by width_lia.
  unfold reorder_is_empty. rewrite Hempty. cbn [negb dr_delivered dr_buf_full_drop dr_conn].
  unfold fin_established. rewrite Hfin, Hseq. conn_simpl. rewrite wadd32_0_r by done. rewrite Z.eqb_refl.
  cbn [andb fst snd]. conn_simpl. rewrite ?wadd32_0_r by done. split_and!; done.
Qed.

(** An acknowledgement of data never sent completes the close: [fin_has_been_acked] is
    not bounded by [snd_nxt], so an ACK beyond it moves LAST_ACK to CLOSED (and
    FIN_WAIT_1 to FIN_WAIT_2) although the window check on the same field rejects it. *)
Theorem unsent_ack_completes_close (c : TcpConn) (seg : ParsedSegment) (opts : TcpOpts) (e : bool) (fs k : Z)
    (Hfs : is_u32 fs) (Hk : 0 < k < two31 - 1) (Hfin : c_our_fin_seq c = Some fs) (Hnxt : c_snd_nxt c = wadd32 fs 1)
    (Hack : ps_ack seg = wadd32 (c_snd_nxt c) k) (Hst : c_state c = LastAck) :
  let r := close_accept clk c seg opts e in
  ack_acceptable c seg = false /\ c_snd_una r.1.1 = c_snd_una c /\ o_new_state r.1.2 = Some Closed.
Proof.
  cbv zeta.
  assert (Hn : is_u32 (c_snd_nxt c)) by (rewrite Hnxt; apply wadd32_range).
  assert (Ha : is_u32 (ps_ack seg)) by (rewrite Hack; apply wadd32_range).
  assert (On : off fs (c_snd_nxt c) = 1) by (rewrite Hnxt, off_wadd; rewrite off_base; width_lia).
  assert (Oa : off fs (ps_ack seg) = 1 + k) by (rewrite Hack, off_wadd; rewrite On; width_lia).
  assert (E1 : ack_acceptable c seg = false).
  { unfold ack_acceptable. rewrite (seq_le_off fs) by (try done; unfold close; rewrite On, Oa; width_lia).
    rewrite On, Oa. apply andb_false_iff. right. apply Z.leb_gt. lia. }
  assert (E2 : fin_has_been_acked c (ps_ack seg) = true).
  { unfold fin_has_been_acked. rewrite Hfin, <- Hnxt.
    rewrite (seq_lt_off fs) by (try done; unfold close; rewrite On, Oa; width_lia).
    rewrite On, Oa. apply negb_true_iff, Z.ltb_ge. lia. }
  destruct (close_accept clk c seg opts e) as [[c' o] ops] eqn:E. cbn [fst snd].
  apply close_accept_inv in E as (_ & _ & -> & _ & Ht & _). rewrite E1, E2, Hst in *. cbn in Ht.
  split_and!; [done..|]. by injection Ht.
Qed.

(** With nothing in flight, an acknowledgement exactly half the circle ahead is
    taken for new data. *)
Theorem half_circle_ack_accepted (c : TcpConn) (seg : ParsedSegment)
    (Hu : is_u32 (c_snd_una c)) (Hidle : c_snd_nxt c = c_snd_una c)
    (Hack : ps_ack seg = wadd32 (c_snd_una c) two31) : ack_acceptable c seg = true.
Proof.
  unfold ack_acceptable, seq_lt, seq_le. rewrite Hidle, Hack, !(wsub_via_off (c_snd_una c)), !off_wadd, off_base
    by (rewrite off_base; width_lia). reflexivity.
Qed.
End Properties.

(** ** A connection to evaluate *)

(** Five bytes in flight from the peer: [4; 5] wait in the reorder queue (mbuf 7), the
    segment brings [1; 2; 3] (mbuf 9). *)
Definition sample_open : TcpConn :=
  sample_client <| c_state := Established |> <| c_snd_una := 1001 |> <| c_snd_nxt := 1101 |>
    <| c_rcv_nxt := 5000 |>
    <| c_recv := mkRecvQueue [] 65536 (mkReorderQueue [mkOooSegment 5003 7 54 2] 65536 2) |>.
Definition sample_data : ParsedSegment := mkParsedSegment 80 4000 5000 1051 TCP_ACK 1000 20 [1;2;3] [].
Definition sample_ctx : MbufInsertCtx := mkMbufInsertCtx 9 54.
Definition sample_mem (m : MbufId) (i : Z) : Z := if m =? 9 then i - 53 else i - 50.
Definition sample_run (c : TcpConn) (seg : ParsedSegment) : Handled :=
  dispatch true (fun _ => 0) (fun _ => []) [] 65536 (Some sample_ctx) c seg.

Lemma sample_open_ok : conn_ok sample_open.
Proof.
  split.
  1-3: vm_compute; split; congruence.
  - vm_compute; congruence.
  - vm_compute; split; congruence.
  - split; [vm_compute; split; congruence|constructor|vm_compute; congruence].
  - split; [apply rq_okb_sound; vm_compute; reflexivity|].
    constructor; [vm_compute; congruence|constructor].
Qed.

Lemma sample_ctx_ok : ctx_ok (fun _ => []) sample_ctx (zlen (ps_payload sample_data)).
Proof. split; [cbv; congruence|cbv; congruence|split; [constructor|cbv; reflexivity]]. Qed.

Lemma sample_data_ok : segment_ok sample_data.
Proof. split; cbv; split; congruence. Qed.

(** What a witness needs of one evaluated run. *)
Lemma sample_run_eq c seg : exists c' o ops, sample_run c seg = Some (c', o, ops).
Proof.
  destruct (dispatch_total true (fun _ => 0) (fun _ => []) [] 65536 (Some sample_ctx) c seg) as [[[c' o] ops] E].
  eauto.
Qed.

Lemma sample_fact {A} (f : Outcome -> A) c seg c' o ops v : sample_run c seg = Some (c', o, ops) ->
  option_map (fun r => f r.1.2) (sample_run c seg) = Some v -> f o = v.
Proof. intros E H. rewrite E in H. cbn in H. by injection H. Qed.

Definition sample_fin : ParsedSegment := sample_data <| ps_flags := 0x11 |>.
Definition sample_outside : ParsedSegment := sample_data <| ps_seq := 4000 |>.



Lemma dispatch_invariant_witness :
  exists c' o ops, sample_run sample_open sample_data = Some (c', o, ops) /\
    conn_ok (after c' o) /\ c_snd_nxt c' = 1101 /\
    (c_snd_una c' = 1001 \/
     c_snd_una c' = 1051 /\ (ack_in_flight 1001 1101 1051 \/ ack_antipodal 1101 1051)).
Proof.
  destruct (sample_run_eq sample_open sample_data) as (c' & o & ops & E). exists c', o, ops. split; [exact E|].
  exact (dispatch_invariant true (fun _ => 0) (fun _ => []) [] 65536 sample_ctx sample_open sample_data c' o ops
    sample_open_ok sample_data_ok sample_ctx_ok E).
Defined.

Lemma dispatch_delivers_stream_witness :
  exists c' o ops, sample_run sample_open sample_data = Some (c', o, ops) /\ o_delivered o = 5 /\
    exists outs, rv_bytes (c_recv c') = [] ++ outs /\
      concat (map (view_bytes sample_mem) outs) = stream (fun p => p + 1) 0 (o_delivered o) /\
      Forall (carries 5000 sample_mem (fun p => p + 1)) (segments (rv_reorder (c_recv c'))) /\
      (Established = Established ->
         c_rcv_nxt c' = wadd32 5000 (o_delivered o + if bool_decide (o_new_state o = Some CloseWait) then 1 else 0)) /\
      (Established <> Established -> outs = [] /\ o_delivered o = 0).
Proof.
  destruct (sample_run_eq sample_open sample_data) as (c' & o & ops & E). exists c', o, ops. split; [exact E|].
  split; [apply (sample_fact o_delivered _ _ _ _ _ _ E); vm_compute; reflexivity|].
  apply (dispatch_delivers_stream true (fun _ => 0) (fun _ => []) [] 65536 sample_mem (fun p => p + 1) sample_ctx
    sample_open sample_data c' o ops sample_open_ok sample_data_ok sample_ctx_ok); [| |exact E].
  - constructor; [|constructor]. intros i Hi. unfold sample_mem, so, off. cbn [os_mbuf os_offset os_seq Z.eqb Pos.eqb].
    replace (wsub32 5003 _) with 3 by reflexivity. lia.
  - split; [|exact I]. intros i Hi. unfold sample_mem, off. cbn [mi_mbuf mi_payload_offset sample_ctx Z.eqb Pos.eqb].
    replace (wsub32 _ _) with 0 by reflexivity. lia.
Defined.

Lemma dispatch_conserves_refs_witness :
  exists c' o ops, sample_run sample_open sample_data = Some (c', o, ops) /\
    owned 9 c' = owned 9 sample_open + ref_delta 9 ops + (if o_mbuf_ref_retained o && (9 =? 9) then 1 else 0).
Proof.
  destruct (sample_run_eq sample_open sample_data) as (c' & o & ops & E). exists c', o, ops. split; [exact E|].
  exact (dispatch_conserves_refs true (fun _ => 0) (fun _ => []) [] 65536 sample_ctx sample_open sample_data c' o ops 9
    sample_open_ok sample_data_ok sample_ctx_ok E).
Defined.

Definition sample_full : TcpConn :=
  sample_open <| c_recv := mkRecvQueue [mkInOrderSegment (mkMbufHandle 7) 0 4] 4 (reorder_new 4) |>.

Lemma fin_accepted_when_full_witness :
  let d := deliver_data (fun _ => []) sample_full sample_fin (Some sample_ctx) in
  let r := fin_established (dr_conn d) sample_fin (dr_delivered d) in
  dr_delivered d = 0 /\ dr_buf_full_drop d = 3 /\ r.2 = Some CloseWait /\ c_rcv_nxt r.1 = 5001.
Proof.
  exact (fin_accepted_when_full (fun _ => []) (Some sample_ctx) sample_full sample_fin
    ltac:(vm_compute; split; congruence) eq_refl eq_refl ltac:(vm_compute; split; congruence) eq_refl eq_refl).
Defined.

Definition sample_last_ack : TcpConn :=
  sample_open <| c_state := LastAck |> <| c_our_fin_seq := Some 1100 |>.

Lemma unsent_ack_completes_close_witness :
  let r := close_accept (fun _ => 0) sample_last_ack (sample_data <| ps_ack := 1501 |>) TcpOpts_default false in
  ack_acceptable sample_last_ack (sample_data <| ps_ack := 1501 |>) = false /\
  c_snd_una r.1.1 = 1001 /\ o_new_state r.1.2 = Some Closed.
Proof.
  exact (unsent_ack_completes_close (fun _ => 0) sample_last_ack (sample_data <| ps_ack := 1501 |>) TcpOpts_default
    false 1100 400 ltac:(vm_compute; split; congruence) ltac:(vm_compute; split; congruence)
    eq_refl eq_refl eq_refl eq_refl).
Defined.
