(* ===== verification/DispatchFrame.v ===== *)
(** * What one dispatch leaves to the engine

    The fields of a connection that no inbound segment writes, and the guarantees of
    [dispatch] when there is no zero-copy context (no payload, or a packet in several
    segments), so that the engine can rely on both whatever it passes. *)

From S2P Require Import Prelude.
From S2P Require Import Seq.
From S2P Require Import Options.
From S2P Require Import Sack.
From S2P Require Import Mbuf.
From S2P Require Import Reassembly.
From S2P Require Import Retrans.
From S2P Require Import Rtt.
From S2P Require Import Rack.
From S2P Require Import Output.
From S2P Require Import Segment.
From S2P Require Import Conn.
From S2P Require Import Input.
From S2P Require Import Receive.
From S2P Require Import Dispatch.
From S2P Require Import InputSpec.

(** ** The engine's fields

    The application's bytes never wait in the connection's send queue: nothing in the
    engine puts any there, and an acknowledgement only removes them. *)

Definition engine_view (c : TcpConn) :=
  (c_four_tuple c, c_time_wait_deadline_ns c, length (c_tlp_recent_probes c), c_tlp_recent_probes_next_slot c,
   sq_pending (c_snd c)).

Lemma engine_view_idle c c' : keeps engine_view c c' -> sq_pending (c_snd c) = [] -> sq_pending (c_snd c') = [].
Proof. unfold keeps, engine_view. intros E ?. injection E. congruence. Qed.

Lemma engine_view_probes x f : length (f (c_tlp_recent_probes x)) = length (c_tlp_recent_probes x) ->
  keeps engine_view x (x <| c_tlp_recent_probes ::= f |>).
Proof.
  intros H. unfold keeps, engine_view.
  change (c_tlp_recent_probes (x <| c_tlp_recent_probes ::= f |>)) with (f (c_tlp_recent_probes x)). by rewrite H.
Qed.

Section View.
Context (clk : Clock) (edges : list Z) (sbb : Z).

Lemma paws_engine c seg opts c' e : paws_check clk c seg opts = PawsPass c' e -> keeps engine_view c c'.
Proof.
  unfold paws_check. intros H.
  destruct (c_ts_enabled c); [|injection H as <- <-; reflexivity].
  destruct (timestamps opts) as [[v ecr]|]; [|discriminate H].
  destruct (negb _ && _); [injection H as <- <-; keeps_tac|].
  destruct (seq_lt v _); [discriminate H|].
  destruct (seq_le _ _); injection H as <- <-; keeps_tac.
Qed.

Lemma sack_pass_engine c opts : keeps engine_view c (sack_pass clk c opts).1.1.1.
Proof. apply sack_pass_keeps; intros; try reflexivity. by apply engine_view_probes. Qed.

Lemma ack_new_data_engine c seg opts : sq_pending (c_snd c) = [] -> keeps engine_view c (ack_new_data clk edges sbb c seg opts).1.1.
Proof.
  intros Hp. unfold ack_new_data.
  set (c1 := c <| c_snd ::= _ |>). set (c2 := c1 <| c_snd_una := ps_ack seg |>).
  pose proof (sample_rtt_keeps edges engine_view c2 opts (u32 (clk CkAck / 1000))) as S1.
  destruct (sample_rtt edges c2 opts _) as [c3 taken]. cbn [fst] in S1.
  set (c4 := if c_sack_enabled c3 then _ else c3).
  assert (K4 : keeps engine_view c3 c4) by (unfold c4; destruct (c_sack_enabled c3); keeps_tac).
  pose proof (update_send_window_keeps engine_view c4 seg) as U1.
  pose proof (writable_keeps engine_view (update_send_window c4 seg) sbb) as W1.
  destruct (writable_hysteresis (update_send_window c4 seg) sbb) as [c5 w]. cbn [fst] in *.
  transitivity c2; [unfold c2, c1, keeps, engine_view; conn_simpl; cbn [field_set sq_pending]; by rewrite Hp, drop_nil|].
  transitivity c3; [apply S1; intros; reflexivity|]. transitivity c4; [apply K4|].
  etransitivity; [apply U1; intros; reflexivity|apply W1; intros; reflexivity].
Qed.

Lemma data_engine links c seg ctx : keeps engine_view c (dr_conn (deliver_data links c seg ctx)).
Proof.
  unfold deliver_data, deliver_in_order, deliver_out_of_order.
  destruct (ps_payload seg) as [|b p]; [reflexivity|].
  destruct (ps_seq seg =? c_rcv_nxt c).
  - destruct (append_in_order _ _ _ _) as [[[q dl] dp] ops].
    destruct (negb _); [|cbn [dr_conn]; keeps_tac].
    destruct (drain_contiguous_into _ _ _) as [[[[? ?] ?] ?] ?]. cbn [dr_conn]. keeps_tac.
  - destruct (seq_lt _ _); [|reflexivity]. destruct (0 <? free_space_total _); [|reflexivity].
    destruct ctx as [ctx|]; [|reflexivity]. destruct (reorder_insert _ _ _ _ _) as [[? ?] ?].
    cbn [dr_conn]. keeps_tac.
Qed.

Lemma established_engine links ctx c seg opts e c' o ops :
  established_accept clk edges sbb links ctx c seg opts e = (c', o, ops) ->
  sq_pending (c_snd c) = [] -> keeps engine_view c c'.
Proof.
  unfold established_accept. pose proof (sack_pass_engine c opts) as S1.
  destruct (sack_pass clk c opts) as [[[c1 dec] ds] sp]. cbn [fst] in S1.
  destruct (ack_established clk edges sbb c1 seg opts) as [ar|] eqn:Ea; [|intros E; by injection E as <- <- <-].
  intros E Hp. revert E. pose proof (engine_view_idle _ _ S1 Hp) as Hp1.
  assert (A1 : keeps engine_view c1 (ar_conn ar)).
  { unfold ack_established in Ea. destruct (ack_acceptable c1 seg).
    - pose proof (ack_new_data_engine c1 seg opts Hp1) as Hk.
      destruct (ack_new_data clk edges sbb c1 seg opts) as [[c2 t] w]. by injection Ea as <-.
    - destruct (seq_lt _ _); [discriminate Ea|]. by injection Ea as <-. }
  pose proof (rack_pass_keeps clk engine_view (ar_conn ar)) as R1.
  destruct (rack_pass clk (ar_conn ar)) as [c3 lost]. cbn [fst] in R1.
  pose proof (data_engine links c3 seg ctx) as D1.
  destruct (fin_established (dr_conn (deliver_data links c3 seg ctx)) seg _) as [c4 ns] eqn:Ef.
  intros E. injection E as <- <- <-.
  transitivity c1; [done|]. transitivity (ar_conn ar); [done|].
  transitivity c3; [apply R1; intros; reflexivity|]. etransitivity; [exact D1|].
  symmetry in Ef. apply fin_established_inv in Ef as [[-> _]|(_ & _ & _ & ->)]; keeps_tac.
Qed.

Lemma close_engine c seg opts e c' o ops : close_accept clk c seg opts e = (c', o, ops) -> keeps engine_view c c'.
Proof.
  unfold close_accept. pose proof (sack_pass_engine c opts) as S1.
  destruct (sack_pass clk c opts) as [[[c1 dec] ds] sp]. cbn [fst] in S1.
  set (c2 := if ack_acceptable c1 seg then _ else c1). set (c3 := if (has_flag _ _ && _)%bool then _ else c2).
  destruct (close_transition _ _ _) as [ns tx]. intros E. injection E as <- <- <-.
  transitivity c1; [done|]. transitivity c2; [unfold c2; destruct (ack_acceptable c1 seg); keeps_tac|].
  unfold c3. destruct (_ && _)%bool; keeps_tac.
Qed.

Lemma syn_sent_engine c seg c' o ops : handle_syn_sent clk edges c seg = Some (c', o, ops) -> keeps engine_view c c'.
Proof.
  unfold handle_syn_sent, leave. case_tests; try (intros E; by injection E as <- <- <-).
  destruct (parse_options _) as [[opts|err]|]; cbn [mbind option_bind]; try (intros E; by injection E as <- <- <-); [|discriminate].
  set (c1 := absorb_syn_ack clk c seg opts).
  assert (K1 : keeps engine_view c c1).
  { unfold c1, absorb_syn_ack. destruct (wscale opts), (timestamps opts) as [[? ?]|]; keeps_tac. }
  assert (K2 : keeps engine_view c1 (maybe_seed_srtt_from_syn c1 (clk CkSynSeed) edges).1).
  { unfold maybe_seed_srtt_from_syn. case_tests; reflexivity. }
  destruct (maybe_seed_srtt_from_syn c1 (clk CkSynSeed) edges) as [c2 b]. cbn [fst] in K2.
  intros E. injection E as <- <- <-. transitivity c1; [done|]. transitivity c2; [done|]. keeps_tac.
Qed.

Lemma syn_received_engine c seg c' o ops : handle_syn_received clk c seg = Some (c', o, ops) -> keeps engine_view c c'.
Proof.
  unfold handle_syn_received, leave. case_tests; try (intros E; by injection E as <- <- <-).
  unfold absorb_final_ack. set (c1 := c <| c_snd_una := _ |> <| c_snd_wnd := _ |> <| c_snd_wl1 := _ |> <| c_snd_wl2 := _ |>).
  assert (K1 : keeps engine_view c c1) by (unfold c1; keeps_tac).
  destruct (c_ts_enabled c1).
  - destruct (parse_options _) as [[opts|err]|]; cbn [mbind option_bind]; [| |discriminate].
    + destruct (timestamps opts) as [[? ?]|]; intros E; injection E as <- <- <-; (transitivity c1; [done|keeps_tac]).
    + intros E; injection E as <- <- <-; (transitivity c1; [done|keeps_tac]).
  - cbn [mbind option_bind]. intros E; injection E as <- <- <-; (transitivity c1; [done|keeps_tac]).
Qed.

(** No inbound segment touches what the engine keeps in these fields. *)
Lemma dispatch_engine ts links ctx c seg c' o ops :
  dispatch ts clk links edges sbb ctx c seg = Some (c', o, ops) ->
  sq_pending (c_snd c) = [] -> keeps engine_view c c'.
Proof.
  intros E Hi. apply dispatch_case in E. inversion E as [r Es Hr|r Es Hr|r Es Hr|r Es Hr|Es]; subst.
  - by eapply syn_sent_engine.
  - by eapply syn_received_engine.
  - apply handle_established_inv in Hr as [(-> & _)|(_ & _ & _ & opts & c1 & e & Hp & Hr)]; [reflexivity|].
    assert (keeps engine_view c c1) as K1 by (by eapply paws_engine).
    transitivity c1; [done|]. eapply established_engine; [exact Hr|by eapply engine_view_idle].
  - apply handle_close_path_inv in Hr as [(-> & _)|(_ & _ & _ & _ & opts & c1 & e & Hp & Hr)]; [reflexivity|].
    transitivity c1; [by eapply paws_engine|by eapply close_engine].
  - reflexivity.
Qed.
End View.

(** ** Without a zero-copy context *)

(** Nothing queued is due when everything queued starts beyond [rcv_nxt]. *)
Lemma drain_nothing_due q rcv_nxt room : is_u32 rcv_nxt -> rq_ok rcv_nxt q -> starts_from rcv_nxt 1 q ->
  drain_contiguous_into q rcv_nxt room = (q, [], 0, 0, []).
Proof.
  intros Hr Hq Hs. unfold drain_contiguous_into. destruct q as [segs cap total]. cbn [segments total_bytes] in *.
  destruct segs as [|s rest]; [reflexivity|]. cbn [drain_loop dr_rcv_nxt].
  assert (E : seq_lt rcv_nxt (os_seq s) = true); [|by rewrite E].
  pose proof (Forall_inv Hs) as H1. pose proof (Forall_inv (rq_ok_segs _ _ Hq)) as H2. cbn in H1.
  pose proof (seg_ok_seq _ _ H2). pose proof (seg_ok_len _ _ H2). pose proof (seg_ok_end _ _ H2) as He.
  unfold eo, so in *. rewrite (seq_lt_off rcv_nxt) by (try done; unfold close; rewrite ?off_base; width_lia).
  rewrite off_base. apply Z.ltb_lt. lia.
Qed.

Lemma conn_recv_eta c : c <| c_recv := c_recv c |> <| c_rcv_nxt := c_rcv_nxt c |> = c.
Proof. by destruct c. Qed.

Lemma recv_eta q : q <| rv_reorder := rv_reorder q |> <| rv_bytes ::= fun b => b ++ [] |> = q.
Proof. destruct q as [b cap r]. cbn. by rewrite app_nil_r. Qed.

(** With no context the data stage stores nothing and leaves the connection as it was. *)
Lemma deliver_data_none links c seg :
  is_u32 (c_rcv_nxt c) -> rq_ok (c_rcv_nxt c) (rv_reorder (c_recv c)) ->
  starts_from (c_rcv_nxt c) 1 (rv_reorder (c_recv c)) ->
  let d := deliver_data links c seg None in
  dr_conn d = c /\ dr_delivered d = 0 /\ dr_calls d = [] /\ dr_retained d = false.
Proof.
  intros Hr Hq Hst. cbv zeta. unfold deliver_data, deliver_in_order, deliver_out_of_order, append_in_order.
  destruct (ps_payload seg) as [|b p] eqn:Ep; [done|].
  destruct (ps_seq seg =? c_rcv_nxt c).
  - cbn [fst snd]. rewrite wadd32_0_r by done. rewrite drain_nothing_due by done. destruct (negb _).
    + cbn [dr_conn dr_delivered dr_calls dr_retained app]. rewrite recv_eta, !wadd32_0_r by done.
      by rewrite conn_recv_eta.
    + by rewrite conn_recv_eta.
  - destruct (seq_lt _ _); [|done]. by destruct (0 <? free_space_total _).
Qed.

(** ** Dispatch with or without a context *)

Section Any.
Context (test_server : bool) (clk : Clock) (links : Links) (edges : list Z) (sbb : Z).
Abbreviation run := (dispatch test_server clk links edges sbb).

Definition any_ctx_ok (ctx : option MbufInsertCtx) (plen : Z) : Prop :=
  match ctx with Some ctx => ctx_ok links ctx plen | None => True end.

(** ESTABLISHED without a context: the receive queue is the one it was. *)
Lemma established_none c seg c' o ops : conn_ok c -> c_state c = Established ->
  handle_established clk edges sbb links None c seg = Some (c', o, ops) ->
  c_recv c' = c_recv c /\ c_delivered_segments c' = c_delivered_segments c /\ ops = [] /\ o_delivered o = 0 /\
  o_mbuf_ref_retained o = false /\ rx_after c c' (c_state (after c' o)).
Proof.
  intros Hk Hs H. pose proof (ck_queue _ Hk) as Hq. rewrite Hs in Hq. destruct Hq as [Hq Hst].
  assert (Same : forall c1, keeps rx_view c c1 -> rx_after c c1 Established).
  { intros c1 K. apply rx_view_inv in K as (_ & E1 & E2 & E3 & _). unfold rx_after. rewrite E1, E2, E3.
    split_and!; try done; apply Hk. }
  apply handle_established_inv in H as
    [(-> & -> & _ & H1 & H2 & Hn & _)|(_ & _ & _ & opts & c1 & e & Hp & H)].
  { split_and!; try done. unfold after. destruct Hn as [-> |[_ ->]]; conn_simpl.
    - rewrite Hs. by apply Same.
    - by apply rx_after_closed. }
  apply paws_views in Hp as (P1 & _). apply established_accept_inv in H as (_ & _ & _ & _ &
    [(_ & _ & Hn & -> & K & _ & _ & Hd0 & Hr0)|(_ & c3 & K & _ & Hf & -> & Hd & ->)]).
  - assert (K1 : keeps rx_view c c') by (transitivity c1; done). specialize (Same _ K1).
    apply rx_view_inv in K1 as (Es & -> & _ & _ & _ & -> & _). split_and!; try done.
    unfold after. by rewrite Hn, Es, Hs.
  - assert (K3 : keeps rx_view c c3) by (transitivity c1; done).
    pose proof (rx_view_inv _ _ K3) as (E1 & E2 & E3 & E4 & _ & E6 & _).
    destruct (deliver_data_none links c3 seg) as (D1 & D2 & D3 & D4); rewrite ?E2, ?E3; try done; [apply Hk|].
    cbv zeta in *. rewrite D1, D2 in Hf. rewrite D3, D4, Hd, D2. specialize (Same _ K3).
    apply fin_established_inv in Hf as [[-> Hn]|(Hn & _ & _ & ->)]; unfold after; rewrite Hn; conn_simpl;
      split_and!; try done.
    + by rewrite E1, Hs.
    + unfold rx_after. conn_simpl. rewrite E2, E4. split_and!; try done; [apply wadd32_range|apply Hk].
Qed.

Lemma dispatch_any_ok ctx c seg c' o ops : conn_ok c -> segment_ok seg -> any_ctx_ok ctx (zlen (ps_payload seg)) ->
  run ctx c seg = Some (c', o, ops) -> conn_ok (after c' o).
Proof.
  destruct ctx as [ctx|]; cbn [any_ctx_ok]; [by apply dispatch_conn_ok|].
  intros Hk Hseg _ H. destruct (dispatch_una _ _ _ _ _ _ _ _ _ _ _ Hk Hseg H) as [En Eu].
  assert (R : rx_after c c' (c_state (after c' o))).
  { apply dispatch_case in H. inversion H as [r E Hr|r E Hr|r E Hr|r E Hr|E]; subst.
    - by eapply syn_sent_rx.
    - by eapply syn_received_rx.
    - by apply established_none in Hr as (_ & _ & _ & _ & _ & ?).
    - by eapply close_path_rx.
    - by apply rx_after_same. }
  by eapply conn_ok_after.
Qed.

Lemma dispatch_any_refs ctx c seg c' o ops m : conn_ok c -> segment_ok seg ->
  any_ctx_ok ctx (zlen (ps_payload seg)) -> run ctx c seg = Some (c', o, ops) ->
  owned m c' = owned m c + ref_delta m ops +
    match ctx with Some ctx => if o_mbuf_ref_retained o && (mi_mbuf ctx =? m) then 1 else 0 | None => 0 end.
Proof.
  destruct ctx as [ctx|]; cbn [any_ctx_ok]; [by apply dispatch_refs|].
  intros Hk Hseg _ H. rewrite !owned_conn. destruct (decide (c_state c = Established)) as [Hs|Hs].
  - apply dispatch_established in H; [|done]. apply established_none in H as (-> & -> & -> & _); try done.
    rewrite ref_delta_nil. lia.
  - apply idle_receive in H as (-> & -> & -> & _); [|done]. rewrite ref_delta_nil. lia.
Qed.
End Any.

(** ** Acknowledgements while closing *)

(** The in-flight entries as sequence ranges. *)
Definition in_flight_ranges (c : TcpConn) : list (Z * Z) := map (fun e => (re_seq e, re_len e)) (c_snd_retrans c).

Lemma mark_sacked_ranges b l : map (fun e => (re_seq e, re_len e)) (mark_sacked l b) = map (fun e => (re_seq e, re_len e)) l.
Proof. unfold mark_sacked. rewrite map_map. apply map_ext. intros e. by destruct (overlaps_block b e). Qed.

Lemma mark_sacked_keeps x b : keeps in_flight_ranges x (x <| c_snd_retrans ::= fun r => mark_sacked r b |>).
Proof. unfold keeps, in_flight_ranges. conn_simpl. apply mark_sacked_ranges. Qed.

(** In the closing states an acknowledgement is taken but never passed on: [snd_una]
    moves to it, yet the outcome does not say so, and every entry kept for
    retransmission stays, those it covers included.  The engine prunes entries, frees
    their packets and cancels the retransmission timer only on what the outcome
    says, so bytes the peer has acknowledged are retransmitted until the connection is given up. *)
Theorem closing_ack_keeps_in_flight (clk : Clock) (c : TcpConn) (seg : ParsedSegment) (opts : TcpOpts) (e : bool)
    (c' : TcpConn) (o : Outcome) (ops : list MbufOp) (Hack : ack_acceptable c seg = true)
    (Hrun : close_accept clk c seg opts e = (c', o, ops)) :
  c_snd_una c' = ps_ack seg /\ o_snd_una_advanced_to o = None /\ in_flight_ranges c' = in_flight_ranges c.
Proof.
  pose proof (close_accept_inv clk c seg opts e c' o ops Hrun) as (_ & _ & Hu & _). rewrite Hack in Hu. split; [done|].
  unfold close_accept in Hrun.
  pose proof (sack_pass_keeps clk in_flight_ranges c opts ltac:(intros; reflexivity) ltac:(intros; reflexivity)
    ltac:(intros; reflexivity) mark_sacked_keeps) as K.
  destruct (sack_pass clk c opts) as [[[c1 dec] ds] sp]. cbn [fst] in K.
  destruct (close_transition _ _ _) as [ns tx]. injection Hrun as <- <- <-. split; [done|].
  transitivity (in_flight_ranges c1); [|exact K].
  destruct (ack_acceptable c1 seg), (_ && _)%bool; reflexivity.
Qed.

Definition sample_closing : TcpConn :=
  sample_open <| c_state := FinWait1 |> <| c_our_fin_seq := Some 1100 |>
    <| c_snd_retrans := [mkRetransEntry 1001 50 3 0 1 false false 0 54; mkRetransEntry 1051 49 4 0 1 false false 0 54] |>.

Lemma closing_ack_keeps_in_flight_witness :
  let r := close_accept (fun _ => 0) sample_closing sample_data TcpOpts_default false in
  c_snd_una r.1.1 = 1051 /\ o_snd_una_advanced_to r.1.2 = None /\
  in_flight_ranges r.1.1 = [(1001, 50); (1051, 49)].
Proof.
  cbv zeta. destruct (close_accept (fun _ => 0) sample_closing sample_data TcpOpts_default false) as [[c' o] ops] eqn:E.
  apply (closing_ack_keeps_in_flight (fun _ => 0) sample_closing sample_data TcpOpts_default false c' o ops); [|exact E].
  vm_compute. reflexivity.
Defined.
