(* ===== verification/AckBuild.v ===== *)
(** * What the engine advertises: the pure helpers of engine.rs

    Window-scale choice, the options of the SYN, the window and SACK blocks of an
    ACK, timer handles as seen by the application, source-address selection and
    the validation of the RTT histogram edges. *)

From S2P Require Import Prelude.
From S2P Require Import Seq.
From S2P Require Import Options.
From S2P Require Import TimerWheel.
From S2P Require Import Segment.
From S2P Require Import Conn.
From S2P Require Import Input.

(** ** Histogram edges *)

Definition DEFAULT_RTT_HISTOGRAM_EDGES_US : list Z :=
  [50; 100; 200; 300; 500; 750; 1000; 2000; 3000; 5000; 10000; 25000; 50000; 100000; 500000].

Inductive EngineError :=
  | InvalidHistogramEdges | InvalidLocalAddr (ip : Z) | TooManyConns | InvalidConnHandle (h : Z)
  | PeerUnreachable (ip : Z) | SendBufferFull | InvalidArgument.

#[export] Instance EngineError_eq_dec : EqDecision EngineError.
Proof. solve_decision. Defined.

(** The loop over adjacent pairs. *)
Fixpoint edges_increase (edges : list Z) : bool :=
  match edges with
  | a :: ((b :: _) as rest) => if b <=? a then false else edges_increase rest
  | _ => true
  end.

Definition validate_and_default_histogram_edges (edges : list Z) : result (list Z) EngineError :=
  if forallb (fun e => e =? 0) edges then Ok DEFAULT_RTT_HISTOGRAM_EDGES_US
  else if edges_increase edges then Ok edges
  else Err InvalidHistogramEdges.

(** ** Timer handles *)

Definition pack_timer_id (id : TimerId) : Z := Z.lor (Z.shiftl (Z.of_nat (ti_slot id)) 32) (ti_generation id).

Definition unpack_timer_id (packed : Z) : TimerId :=
  mkTimerId (Z.to_nat (u32 (Z.shiftr packed 32))) (u32 (Z.land packed 0xFFFFFFFF)).

(** [u64::div_ceil]. *)
Definition div_ceil (a b : Z) : Z := if a mod b =? 0 then a / b else a / b + 1.

Definition align_up_to_tick_ns (deadline_ns : Z) : Z := sat_mul64 (div_ceil deadline_ns TICK_NS) TICK_NS.

(** ** Window scale and SYN options *)

(** [ws < 14] bounds the loop: [fuel] is [14 - ws]. *)
Fixpoint ws_shift_loop (fuel : nat) (recv_buffer_bytes cap ws : Z) : Z :=
  match fuel with
  | O => ws
  | S fuel =>
      if (cap <? recv_buffer_bytes) && (ws <? 14)
      then ws_shift_loop fuel recv_buffer_bytes (Z.lor (Z.shiftl cap 1) 1) (ws + 1)
      else ws
  end.

Definition compute_ws_shift_for (recv_buffer_bytes : Z) : Z := ws_shift_loop 14 recv_buffer_bytes U16_MAX 0.

Definition build_connect_syn_opts (recv_buffer_bytes our_mss now_ns : Z) (ts_enabled sack_enabled : bool) : TcpOpts :=
  let ws_out := compute_ws_shift_for recv_buffer_bytes in
  let tsval_initial := u32 (now_ns / 1000) in
  TcpOpts_default <| mss := Some our_mss |> <| wscale := Some ws_out |> <| sack_permitted := sack_enabled |>
    <| timestamps := if ts_enabled then Some (tsval_initial, 0) else None |>.

(** ** Window and options of an ACK *)

Record AckOutcome := mkAckOutcome {
  ao_window : Z;
  ao_opts : TcpOpts;
  ao_zero_window : bool;
  ao_sack_blocks_emitted : Z
}.

(** [reorder_segments.iter().position(..)]. *)
Fixpoint trigger_position (segs : list (Z * Z)) (t_left : Z) : option nat :=
  match segs with
  | [] => None
  | (l, r) :: rest => if seq_le l t_left && seq_lt t_left r then Some 0%nat else S <$> trigger_position rest t_left
  end.

Definition push_ignoring (o : TcpOpts) (b : Z * Z) : TcpOpts := snd (push_sack_block o (mkSackBlock b.1 b.2)).

(** [iter().enumerate()]. *)
Definition enumerate {A} (l : list A) : list (nat * A) := zip (seq 0 (length l)) l.

(** The blocks after the trigger, newest first. *)
Fixpoint push_others (idx remaining_cap : nat) (l : list (nat * (Z * Z))) (emitted_more : nat) (o : TcpOpts)
    : nat * TcpOpts :=
  match l with
  | [] => (emitted_more, o)
  | (i, b) :: rest =>
      if (i =? idx)%nat then push_others idx remaining_cap rest emitted_more o
      else if (emitted_more =? remaining_cap)%nat then (emitted_more, o)
      else push_others idx remaining_cap rest (S emitted_more) (push_ignoring o b)
  end.

Definition push_reorder_blocks (segs : list (Z * Z)) (trigger_range : option (Z * Z)) (o : TcpOpts) : Z * TcpOpts :=
  let trigger_idx := match trigger_range with Some (t_left, _) => trigger_position segs t_left | None => None end in
  let take := Nat.min (length segs) MAX_SACK_BLOCKS_EMIT in
  match trigger_idx ≫= fun idx => (fun b => (idx, b)) <$> segs !! idx with
  | Some (idx, b) =>
      let '(more, o) := push_others idx (take - 1) (reverse (enumerate segs)) 0 (push_ignoring o b) in
      (1 + Z.of_nat more, o)
  | None => (Z.of_nat take, foldl push_ignoring o (list.take take (reverse segs)))
  end.

Definition build_ack_outcome (ws_shift_out : Z) (ts_enabled : bool) (ts_recent now_us : Z) (sack_enabled : bool)
    (reorder_segments : list (Z * Z)) (trigger_range : option (Z * Z)) (free_space : Z) : AckOutcome :=
  let scaled := if 0 <? ws_shift_out then Z.shiftr free_space ws_shift_out else free_space in
  let window := u16 (Z.min scaled U16_MAX) in
  let opts := TcpOpts_default <| timestamps := if ts_enabled then Some (now_us, ts_recent) else None |> in
  let '(emitted, opts) :=
    if sack_enabled && negb (bool_decide (reorder_segments = []))
    then push_reorder_blocks reorder_segments trigger_range opts else (0, opts) in
  mkAckOutcome window opts (free_space =? 0) emitted.

(** ** Source address *)

Definition select_source_ip (requested local_ip : Z) (secondaries : list Z) : result Z EngineError :=
  if requested =? 0 then Ok local_ip
  else if (requested =? local_ip) || existsb (Z.eqb requested) secondaries then Ok requested
  else Err (InvalidLocalAddr requested).

(** ** Timer handles *)

Lemma pack_unpack id : Z.of_nat (ti_slot id) < two32 -> is_u32 (ti_generation id) ->
  unpack_timer_id (pack_timer_id id) = id.
Proof.
  intros Hs Hg. unfold unpack_timer_id, pack_timer_id.
  assert (Hlow : Z.land (Z.lor (Z.shiftl (Z.of_nat (ti_slot id)) 32) (ti_generation id)) 4294967295 = ti_generation id).
  { change 4294967295 with (Z.ones 32). rewrite Z.land_ones by lia. rewrite <- Z.land_ones by lia.
    rewrite Z.land_lor_distr_l, !Z.land_ones, Z.shiftl_mul_pow2, Z.mod_mul by lia. cbn [Z.lor].
    apply Z.mod_small. exact Hg. }
  assert (Hhigh : Z.shiftr (Z.lor (Z.shiftl (Z.of_nat (ti_slot id)) 32) (ti_generation id)) 32 = Z.of_nat (ti_slot id)).
  { rewrite Z.shiftr_lor, Z.shiftr_shiftl_l by lia. change (Z.shiftl _ (32 - 32)) with (Z.shiftl (Z.of_nat (ti_slot id)) 0).
    rewrite Z.shiftl_0_r, (Z.shiftr_div_pow2 (ti_generation id)) by lia.
    rewrite (Z.div_small (ti_generation id)) by exact Hg. apply Z.lor_0_r. }
  rewrite Hlow, Hhigh, !u32_id, Nat2Z.id by (exact Hg || (unfold is_u32; lia)). by destruct id.
Qed.

Lemma pack_range id : Z.of_nat (ti_slot id) < two32 -> is_u32 (ti_generation id) -> is_u64 (pack_timer_id id).
Proof.
  intros Hs Hg. unfold pack_timer_id.
  set (x := Z.lor _ _). assert (Hx : 0 <= x).
  { apply Z.lor_nonneg. split; [apply Z.shiftl_nonneg; lia|apply Hg]. }
  assert (Hd : x / 2 ^ 64 = 0).
  { rewrite <- Z.shiftr_div_pow2 by lia. subst x. rewrite Z.shiftr_lor, !Z.shiftr_div_pow2, Z.shiftl_mul_pow2 by lia.
    rewrite !Z.div_small; [done|width_lia|width_lia]. }
  pose proof (Z.mul_succ_div_gt x (2 ^ 64) ltac:(lia)). width_lia.
Qed.

Lemma div_ceil_spec a b : 0 < b -> b * (div_ceil a b - 1) < a <= b * div_ceil a b.
Proof.
  intros Hb. unfold div_ceil. pose proof (Z.div_mod a b). pose proof (Z.mod_pos_bound a b Hb).
  destruct (Z.eqb_spec (a mod b) 0); nia.
Qed.

(** ** Window scale *)

(** The value of [cap] after [ws] doublings of 65535. *)
Definition ws_cap (ws : Z) : Z := 2 ^ (16 + ws) - 1.

Lemma ws_cap_step ws : 0 <= ws -> Z.lor (Z.shiftl (ws_cap ws) 1) 1 = ws_cap (ws + 1).
Proof.
  intros H. unfold ws_cap. rewrite Z.shiftl_mul_pow2 by lia. change (2 ^ 1) with 2.
  replace (2 ^ (16 + (ws + 1)) - 1) with (2 * (2 ^ (16 + ws) - 1) + 1)
    by (replace (16 + (ws + 1)) with (Z.succ (16 + ws)) by lia; rewrite Z.pow_succ_r by lia; lia).
  pose proof (Z.pow_pos_nonneg 2 (16 + ws)). rewrite (Z.mul_comm _ 2).
  destruct (2 ^ (16 + ws) - 1) as [|p|p] eqn:E; [done|done|lia].
Qed.

Lemma ws_shift_loop_spec buf : forall fuel ws, 0 <= ws -> ws + Z.of_nat fuel = 14 ->
  let r := ws_shift_loop fuel buf (ws_cap ws) ws in
  ws <= r <= 14 /\ (buf <= ws_cap r \/ r = 14) /\ (ws < r -> ws_cap (r - 1) < buf).
Proof.
  induction fuel as [|fuel IH]; intros ws H0 Hf; cbn [ws_shift_loop].
  { split_and!; lia. }
  destruct (Z.ltb_spec (ws_cap ws) buf); cbn [andb]; [|split_and!; lia].
  destruct (Z.ltb_spec ws 14); [|lia]. rewrite ws_cap_step by done.
  destruct (IH (ws + 1)) as (R1 & R2 & R3); [lia..|]. split_and!; [lia|lia|done|]. intros Hlt.
  destruct (decide (ws + 1 < ws_shift_loop fuel buf (ws_cap (ws + 1)) (ws + 1))) as [Hr|Hr]; [by apply R3|].
  by replace (_ - 1) with ws by lia.
Qed.

(** ** SACK blocks *)

(** The order the engine means: the triggering block, then the others newest first. *)
Definition ack_order (segs : list (Z * Z)) (trigger_range : option (Z * Z)) : list (Z * Z) :=
  match trigger_range ≫= fun t => trigger_position segs t.1 with
  | Some i => match segs !! i with Some b => b :: reverse (delete i segs) | None => reverse segs end
  | None => reverse segs
  end.

(** The blocks carried by [o]. *)
Definition carried (o : TcpOpts) : list (Z * Z) :=
  (fun b => (sb_left b, sb_right b)) <$> take (sack_block_count o) (sack_blocks o).

Lemma trigger_position_spec segs t i : trigger_position segs t = Some i ->
  exists b, segs !! i = Some b /\ seq_le b.1 t = true /\ seq_lt t b.2 = true.
Proof.
  revert i. induction segs as [|[l r] segs IH]; intros i; cbn; [done|].
  destruct (seq_le l t && seq_lt t r)%bool eqn:E.
  - intros [= <-]. breflect. by exists (l, r).
  - destruct (trigger_position segs t) as [j|]; [|done]. intros [= <-]. by apply IH.
Qed.

(** Pushing a list of blocks onto options that have room for them. *)
Lemma push_ignoring_carried o b : (sack_block_count o < MAX_SACK_BLOCKS_EMIT)%nat ->
  length (sack_blocks o) = MAX_SACK_BLOCKS_DECODE ->
  carried (push_ignoring o b) = carried o ++ [b] /\
  sack_block_count (push_ignoring o b) = S (sack_block_count o) /\
  length (sack_blocks (push_ignoring o b)) = MAX_SACK_BLOCKS_DECODE /\
  timestamps (push_ignoring o b) = timestamps o.
Proof.
  unfold MAX_SACK_BLOCKS_EMIT, MAX_SACK_BLOCKS_DECODE, push_ignoring, push_sack_block, carried. intros Hc Hl.
  destruct (Nat.leb_spec MAX_SACK_BLOCKS_EMIT (sack_block_count o)) as [H|_];
    [unfold MAX_SACK_BLOCKS_EMIT in H; lia|].
  cbn [snd field_set sack_blocks sack_block_count timestamps]. rewrite length_insert. split_and!; try done.
  rewrite (take_S_r _ _ (mkSackBlock b.1 b.2)) by (apply list_lookup_insert_eq; lia).
  rewrite take_insert_ge by lia. rewrite fmap_app. cbn. by destruct b.
Qed.

Lemma push_list_carried bs : forall o, (sack_block_count o + length bs <= MAX_SACK_BLOCKS_EMIT)%nat ->
  length (sack_blocks o) = MAX_SACK_BLOCKS_DECODE ->
  carried (foldl push_ignoring o bs) = carried o ++ bs /\ timestamps (foldl push_ignoring o bs) = timestamps o.
Proof.
  induction bs as [|b bs IH]; intros o Hc Hl; cbn [foldl length] in *; [by rewrite app_nil_r|].
  destruct (push_ignoring_carried o b) as (H1 & H2 & H3 & H4); [lia|done|].
  destruct (IH (push_ignoring o b)) as [-> ->]; [lia|done|]. by rewrite H1, <- app_assoc.
Qed.

(** [push_others] skips index [idx] and pushes the first [cap] of the rest. *)
Lemma push_others_foldl idx cap : forall l more o, (more <= cap)%nat ->
  let rest := snd <$> filter (fun p => p.1 <> idx) l in
  push_others idx cap l more o =
    ((more + length (take (cap - more) rest))%nat, foldl push_ignoring o (take (cap - more) rest)).
Proof.
  induction l as [|[i b] l IH]; intros more o Hm; cbn [push_others].
  { cbn. by rewrite firstn_nil, Nat.add_0_r. }
  rewrite filter_cons. cbn [fst]. destruct (Nat.eqb_spec i idx) as [->|Hi].
  - rewrite decide_False by (intros H; by apply H). by apply IH.
  - rewrite decide_True by done. destruct (Nat.eqb_spec more cap) as [->|Hm'].
    + by rewrite Nat.sub_diag, Nat.add_0_r.
    + rewrite IH by lia. replace (cap - more)%nat with (S (cap - S more)) by lia. cbn [fmap list_fmap take length foldl].
      f_equal. lia.
Qed.

Lemma filter_enumerate {A} (l : list A) i k :
  snd <$> filter (fun p => p.1 <> (k + i)%nat) (zip (seq k (length l)) l) = delete i l.
Proof.
  revert i k. induction l as [|x l IH]; intros i k; [done|]. cbn [length seq zip zip_with].
  rewrite filter_cons. cbn [fst]. destruct i as [|i].
  - rewrite Nat.add_0_r, decide_False by (intros H; by apply H). cbn [delete list_delete].
    clear IH. assert (H : forall j, (k < j)%nat -> snd <$> filter (fun p => p.1 <> k) (zip (seq j (length l)) l) = l).
    { induction l as [|y l IH]; intros j Hj; [done|]. cbn [length seq zip zip_with]. rewrite filter_cons.
      cbn [fst]. rewrite decide_True by lia. cbn. f_equal. apply IH. lia. }
    apply H. lia.
  - rewrite decide_True by lia. cbn. f_equal. replace (k + S i)%nat with (S k + i)%nat by lia. apply IH.
Qed.

Lemma push_reorder_blocks_spec segs trigger_range o :
  sack_block_count o = 0%nat -> length (sack_blocks o) = MAX_SACK_BLOCKS_DECODE ->
  let '(n, o') := push_reorder_blocks segs trigger_range o in
  carried o' = take MAX_SACK_BLOCKS_EMIT (ack_order segs trigger_range) /\
  n = zlen (carried o') /\ timestamps o' = timestamps o.
Proof.
  intros Hc Hl. assert (Hn : carried o = []) by (unfold carried; by rewrite Hc).
  unfold push_reorder_blocks, ack_order.
  assert (Htake : forall bs, (length bs <= MAX_SACK_BLOCKS_EMIT)%nat ->
            carried (foldl push_ignoring o bs) = bs /\ timestamps (foldl push_ignoring o bs) = timestamps o).
  { intros bs Hb. destruct (push_list_carried bs o) as [H1 H2]; [by rewrite Hc|done|]. by rewrite H1, Hn. }
  set (idx := match trigger_range with Some (t, _) => trigger_position segs t | None => None end).
  assert (Hidx : (trigger_range ≫= fun t => trigger_position segs t.1) = idx) by (by destruct trigger_range as [[]|]).
  rewrite Hidx. destruct idx as [i|] eqn:Ei; cbn [mbind option_bind].
  2: { destruct (Htake (take (Nat.min (length segs) MAX_SACK_BLOCKS_EMIT) (reverse segs))) as [-> ->];
         [rewrite length_take; lia|].
       unfold zlen. rewrite length_take, length_reverse. split_and!; [|lia|done].
       rewrite Nat.min_comm, <- take_take, (take_ge (reverse segs)); [done|by rewrite length_reverse]. }
  destruct (segs !! i) as [b|] eqn:Hb; cbn [fmap option_fmap option_map].
  2: { destruct trigger_range as [[t ?]|]; [|done].
       destruct (trigger_position_spec _ _ _ Ei) as (b & Hb' & _). congruence. }
  pose proof (lookup_lt_Some _ _ _ Hb) as Hlt.
  assert (Hrest : snd <$> filter (fun p => p.1 <> i) (reverse (enumerate segs)) = reverse (delete i segs)).
  { unfold enumerate. rewrite filter_reverse, fmap_reverse. f_equal. apply (filter_enumerate segs i 0). }
  rewrite push_others_foldl by lia. rewrite Hrest, Nat.sub_0_r, Nat.add_0_l.
  change (foldl push_ignoring (push_ignoring o b) ?l) with (foldl push_ignoring o (b :: l)).
  pose proof (length_delete segs i ltac:(by exists b)) as Hd.
  destruct (Htake (b :: take (Nat.min (length segs) MAX_SACK_BLOCKS_EMIT - 1) (reverse (delete i segs)))) as [-> ->].
  { cbn [length]. rewrite length_take, length_reverse. unfold MAX_SACK_BLOCKS_EMIT. lia. }
  unfold zlen. cbn [length]. rewrite length_take, length_reverse. unfold MAX_SACK_BLOCKS_EMIT in *.
  split_and!; [|lia|done]. cbn [take]. f_equal.
  destruct (decide (length segs <= 3)%nat).
  - rewrite !take_ge by (rewrite ?length_reverse; lia). done.
  - by replace (Nat.min (length segs) 3 - 1)%nat with 2%nat by lia.
Qed.

(** The window field against the free space. *)
Lemma scaled_window ws free : 0 <= ws -> is_u32 free ->
  let w := u16 (Z.min (if 0 <? ws then Z.shiftr free ws else free) U16_MAX) in
  is_u16 w /\ Z.shiftl w ws <= free /\ (w = U16_MAX \/ free < Z.shiftl (w + 1) ws).
Proof.
  intros Hws Hf. cbv zeta.
  assert (E : (if 0 <? ws then Z.shiftr free ws else free) = free / 2 ^ ws).
  { rewrite <- Z.shiftr_div_pow2 by done. destruct (Z.ltb_spec 0 ws); [done|].
    replace ws with 0 by lia. by rewrite Z.shiftr_0_r. }
  rewrite E. pose proof (Z.pow_pos_nonneg 2 ws). unfold is_u32, two32 in Hf.
  pose proof (Z.div_pos free (2 ^ ws)). pose proof (Z.mul_div_le free (2 ^ ws)).
  pose proof (Z.mul_succ_div_gt free (2 ^ ws)).
  rewrite u16_id by width_lia. rewrite !Z.shiftl_mul_pow2 by done. split_and!; [width_lia|nia|].
  destruct (decide (U16_MAX <= free / 2 ^ ws)); [left; lia|right]. rewrite Z.min_l by lia. nia.
Qed.

Lemma trigger_position_none segs t : trigger_position segs t = None ->
  forall b, b ∈ segs -> seq_le b.1 t && seq_lt t b.2 = false.
Proof.
  induction segs as [|[l r] segs IH]; cbn; [intros _ b Hb; by apply elem_of_nil in Hb|].
  destruct (seq_le l t && seq_lt t r)%bool eqn:E; [done|].
  destruct (trigger_position segs t); [done|]. intros _ b [->|Hb]%elem_of_cons; [done|by apply IH].
Qed.

(** ** Properties *)

(** Whatever is pushed, the count stays within the array. *)
Definition sack_room (o : TcpOpts) : Prop :=
  (sack_block_count o <= MAX_SACK_BLOCKS_DECODE)%nat /\ length (sack_blocks o) = MAX_SACK_BLOCKS_DECODE.

Lemma push_ignoring_room o b : sack_room o -> sack_room (push_ignoring o b).
Proof.
  unfold sack_room, push_ignoring, push_sack_block, MAX_SACK_BLOCKS_EMIT, MAX_SACK_BLOCKS_DECODE. intros [H1 H2].
  case_match eqn:E; cbn [snd]; [done|]. apply Nat.leb_gt in E. cbn [field_set sack_blocks sack_block_count].
  rewrite length_insert. lia.
Qed.

Lemma push_others_room idx cap l : forall more o, sack_room o -> sack_room (push_others idx cap l more o).2.
Proof.
  induction l as [|[i b] l IH]; intros more o H; cbn [push_others]; [done|].
  repeat case_match; auto using push_ignoring_room.
Qed.

Lemma push_list_room l : forall o, sack_room o -> sack_room (foldl push_ignoring o l).
Proof. induction l as [|b l IH]; intros o H; cbn [foldl]; auto using push_ignoring_room. Qed.

Lemma push_reorder_room segs t o : sack_room o -> sack_room (push_reorder_blocks segs t o).2.
Proof.
  intros H. unfold push_reorder_blocks. cbv zeta. destruct (_ ≫= _) as [[idx b]|].
  - pose proof (push_others_room idx (Nat.min (length segs) MAX_SACK_BLOCKS_EMIT - 1)
      (reverse (enumerate segs)) 0 (push_ignoring o b) (push_ignoring_room _ _ H)) as R.
    by destruct (push_others _ _ _ _ _).
  - cbn [snd]. by apply push_list_room.
Qed.

Lemma ack_outcome_room ws ts rec now sack segs t free : sack_room (ao_opts (build_ack_outcome ws ts rec now sack segs t free)).
Proof.
  unfold build_ack_outcome. set (o := field_set _ _).
  assert (R : sack_room o) by (split; cbv; [lia|done]). clearbody o.
  destruct (sack && _)%bool; [|done].
  pose proof (push_reorder_room segs t o R). by destruct (push_reorder_blocks segs t o).
Qed.

(** C35. What an ACK advertises.  The window, scaled back by the peer, never exceeds
    the free receive space and falls short of it by less than one unit of the scale
    (unless it is capped at 65535 units); a full buffer is reported as such.  The SACK
    blocks are the reorder blocks in the order of RFC 2018 section 4, at most three of
    them: when the segment that triggered the ACK starts in a block, that block comes first. *)
Theorem build_ack_outcome_correct (ws_shift_out ts_recent now_us free_space : Z) (ts_enabled sack_enabled : bool)
    (reorder : list (Z * Z)) (trigger : option (Z * Z))
    (Hws : 0 <= ws_shift_out) (Hfree : is_u32 free_space) :
  let a := build_ack_outcome ws_shift_out ts_enabled ts_recent now_us sack_enabled reorder trigger free_space in
  is_u16 (ao_window a) /\ Z.shiftl (ao_window a) ws_shift_out <= free_space /\
  (ao_window a = U16_MAX \/ free_space < Z.shiftl (ao_window a + 1) ws_shift_out) /\
  ao_zero_window a = bool_decide (free_space = 0) /\
  timestamps (ao_opts a) = (if ts_enabled then Some (now_us, ts_recent) else None) /\
  carried (ao_opts a) = (if sack_enabled then take MAX_SACK_BLOCKS_EMIT (ack_order reorder trigger) else []) /\
  ao_sack_blocks_emitted a = zlen (carried (ao_opts a)) /\
  (forall t r, trigger = Some (t, r) -> sack_enabled = true ->
     (exists b, b ∈ reorder /\ seq_le b.1 t = true /\ seq_lt t b.2 = true) ->
     exists b, head (carried (ao_opts a)) = Some b /\ seq_le b.1 t = true /\ seq_lt t b.2 = true).
Proof.
  unfold build_ack_outcome. pose proof (scaled_window ws_shift_out free_space Hws Hfree) as Hw. cbv zeta in Hw.
  set (o0 := TcpOpts_default <| timestamps := _ |>).
  pose proof (push_reorder_blocks_spec reorder trigger o0 eq_refl eq_refl) as Hp.
  destruct (push_reorder_blocks reorder trigger o0) as [n o] eqn:Eo. destruct Hp as (Hc & Hn & Ht).
  assert (Hsel : exists n' o', (if sack_enabled && negb (bool_decide (reorder = [])) then (n, o) else (0, o0)) = (n', o') /\
            carried o' = (if sack_enabled then take MAX_SACK_BLOCKS_EMIT (ack_order reorder trigger) else []) /\
            n' = zlen (carried o') /\ timestamps o' = timestamps o0).
  { destruct sack_enabled; cbn [andb]; [|by exists 0, o0].
    case_bool_decide as Hr; cbn [negb]; [|by exists n, o]. exists 0, o0. split_and!; try done.
    subst reorder. unfold ack_order. by destruct trigger as [[]|]. }
  destruct Hsel as (n' & o' & -> & Hc' & Hn' & Ht'). cbn [ao_window ao_opts ao_zero_window ao_sack_blocks_emitted].
  destruct Hw as (H1 & H2 & H3). split_and!; try done.
  - by destruct (Z.eqb_spec free_space 0); case_bool_decide.
  - intros t r -> -> (b & Hb & Hl & Hr). rewrite Hc'. unfold ack_order. cbn [mbind option_bind fst].
    destruct (trigger_position reorder t) as [i|] eqn:Ei.
    + destruct (trigger_position_spec _ _ _ Ei) as (b' & -> & Hb'). by exists b'.
    + pose proof (trigger_position_none _ _ Ei _ Hb) as Hx. by rewrite Hl, Hr in Hx.
Qed.

Lemma build_ack_outcome_correct_witness :
  let a := build_ack_outcome 2 true 7 9 true [(100, 200); (300, 400); (500, 600); (700, 800)] (Some (310, 350)) 262144 in
  carried (ao_opts a) = [(300, 400); (700, 800); (500, 600)] /\ Z.shiftl (ao_window a) 2 <= 262144.
Proof.
  destruct (build_ack_outcome_correct 2 7 9 262144 true true [(100, 200); (300, 400); (500, 600); (700, 800)]
              (Some (310, 350)) ltac:(lia) ltac:(width_lia)) as (_ & Hw & _ & _ & _ & Hc & _).
  split; [|exact Hw]. etrans; [exact Hc|]. reflexivity.
Defined.

(** The window scale offered in the SYN is the least shift, at most 14, under which
    a 16-bit window reaches the whole receive buffer. *)
Theorem ws_shift_least (buf : Z) (Hbuf : is_u32 buf) :
  let ws := compute_ws_shift_for buf in
  0 <= ws <= 14 /\ (buf < 2 ^ (16 + ws) \/ ws = 14) /\
  (forall k, 0 <= k < ws -> 2 ^ (16 + k) <= buf).
Proof.
  destruct (ws_shift_loop_spec buf 14 0) as (H1 & H2 & H3); [lia..|].
  unfold compute_ws_shift_for. change U16_MAX with (ws_cap 0). cbv zeta in *.
  set (ws := ws_shift_loop 14 buf (ws_cap 0) 0) in *. unfold ws_cap in *. split_and!; [lia..| |].
  - destruct H2 as [H2|H2]; [left; lia|by right].
  - intros k Hk. specialize (H3 ltac:(lia)).
    pose proof (Z.pow_le_mono_r 2 (16 + k) (16 + (ws - 1)) ltac:(lia) ltac:(lia)). lia.
Qed.

Lemma ws_shift_least_witness : compute_ws_shift_for 262144 = 3 /\ 2 ^ (16 + 2) <= 262144.
Proof. split; [reflexivity|]. apply (ws_shift_least 262144 ltac:(width_lia)). vm_compute. by split. Defined.

(** A timer handle given to the application comes back as the same slot and
    generation, different timers have different handles, and a deadline is rounded up
    to the first multiple of the tick that is not before it (or the largest u64). *)
Theorem timer_handle_roundtrip (id id' : TimerId) (deadline : Z)
    (Hid : Z.of_nat (ti_slot id) < two32 /\ is_u32 (ti_generation id))
    (Hid' : Z.of_nat (ti_slot id') < two32 /\ is_u32 (ti_generation id')) (Hd : is_u64 deadline) :
  unpack_timer_id (pack_timer_id id) = id /\
  (pack_timer_id id = pack_timer_id id' -> id = id') /\
  is_u64 (pack_timer_id id) /\
  let r := align_up_to_tick_ns deadline in
  deadline <= r /\ (r = U64_MAX \/ (TICK_NS | r) /\ r < deadline + TICK_NS).
Proof.
  destruct Hid as [Hs Hg], Hid' as [Hs' Hg']. split_and!.
  - by apply pack_unpack.
  - intros E. rewrite <- (pack_unpack id), <- (pack_unpack id') by done. by rewrite E.
  - by apply pack_range.
  - unfold align_up_to_tick_ns, sat_mul64. pose proof (div_ceil_spec deadline TICK_NS ltac:(done)) as Hc.
    split; [width_lia|].
    destruct (Z.min_spec U64_MAX (div_ceil deadline TICK_NS * TICK_NS)) as [[_ ->]|[_ ->]]; [by left|right].
    split; [by apply Z.divide_factor_r|]. unfold TICK_NS in *. lia.
Qed.

Lemma timer_handle_roundtrip_witness :
  unpack_timer_id (pack_timer_id (mkTimerId 5 9)) = mkTimerId 5 9 /\
  (pack_timer_id (mkTimerId 5 9) = pack_timer_id (mkTimerId 5 10) -> mkTimerId 5 9 = mkTimerId 5 10) /\
  is_u64 (pack_timer_id (mkTimerId 5 9)) /\
  let r := align_up_to_tick_ns 12345 in
  12345 <= r /\ (r = U64_MAX \/ (TICK_NS | r) /\ r < 12345 + TICK_NS).
Proof. apply (timer_handle_roundtrip (mkTimerId 5 9) (mkTimerId 5 10) 12345); cbn; width_lia. Defined.

(** The engine advertises more than it accepts.  A connection keeps
    [rcv_wnd = min(recv buffer, 65535)] for its whole life, while each ACK offers the
    scaled free space: with a receive buffer above 64 KiB, a segment that starts inside
    the offered window but 65535 bytes or more past rcv_nxt is outside the window the
    input path tests, and is refused. *)
Theorem advertised_window_not_accepted (c : TcpConn) (seg : ParsedSegment) (free d : Z)
    (Hwnd : c_rcv_wnd c = Z.min free U16_MAX) (Hfree : is_u32 free) (Hrn : is_u32 (c_rcv_nxt c))
    (Hseq : ps_seq seg = wadd32 (c_rcv_nxt c) d) :
  let ws := compute_ws_shift_for free in
  let w := ao_window (build_ack_outcome ws false 0 0 false [] None free) in
  U16_MAX <= d < Z.shiftl w ws -> segment_in_window c seg = false.
Proof.
  cbv zeta. intros [Hlo Hhi].
  assert (Hws : 0 <= compute_ws_shift_for free) by (destruct (ws_shift_loop_spec free 14 0) as [H _]; [lia..|]; apply H).
  pose proof (scaled_window _ free Hws Hfree) as (_ & Hle & _). cbn [build_ack_outcome ao_window andb] in Hhi.
  assert (Hd : 0 <= d < two32) by width_lia.
  assert (Hoff : wsub32 (ps_seq seg) (c_rcv_nxt c) = d).
  { rewrite Hseq. unfold wsub32, wadd32. rewrite u32_sub_l. rewrite <- (u32_id d) at 2 by done. f_equal. lia. }
  unfold segment_in_window. destruct (Z.eqb_spec (segment_len seg) 0) as [_|_].
  - apply Z.eqb_neq. intros E. rewrite E in Hoff. unfold wsub32 in Hoff. rewrite Z.sub_diag in Hoff.
    unfold u32 in Hoff. rewrite Z.mod_0_l in Hoff by done. width_lia.
  - unfold in_window. rewrite Hoff, Hwnd. destruct (Z.eqb_spec (Z.min free U16_MAX) 0); [done|].
    destruct (Z.ltb_spec d (Z.min free U16_MAX)); [lia|done].
Qed.

Definition sample_big_buffer : TcpConn := new_client sample_tuple 1000 1460 262144 65536 5000 5000 1000000.
Definition sample_far : ParsedSegment :=
  mkParsedSegment 0 0 (wadd32 (c_rcv_nxt sample_big_buffer) 70000) 0 16 0 20 [1] [].

Lemma advertised_window_not_accepted_witness :
  U16_MAX <= 70000 < Z.shiftl 32768 3 /\ segment_in_window sample_big_buffer sample_far = false.
Proof.
  split; [vm_compute; by split|].
  refine (advertised_window_not_accepted sample_big_buffer sample_far 262144 70000 _ _ _ _ _);
    vm_compute; try done; by split.
Defined.
