(* ===== verification/Listen.v ===== *)
(** * Listening endpoints: test_server.rs and the slot table of engine.rs

    A listening address has room for one connection in its handshake and one waiting to
    be accepted.  The engine keeps the slots in a vector and searches it linearly; the
    operations here are the bodies of the closures engine.rs runs under the borrow of that
    vector.  Built only with the feature [test-server]. *)

From S2P Require Import Prelude.
From S2P Require Import Conn.
From S2P Require Import FlowTable.
From S2P Require Import AckBuild.

Definition ListenHandle : Type := Z.

Record ListenSlot := mkListenSlot {
  ls_local_ip : Z;
  ls_local_port : Z;
  ls_accept_queue : option ConnHandle;
  ls_in_progress : option ConnHandle
}.

#[export] Instance ListenSlot_eta : Settable ListenSlot := fun s =>
  mkListenSlot (ls_local_ip s) (ls_local_port s) (ls_accept_queue s) (ls_in_progress s).

Definition slot_new (ip port : Z) : ListenSlot := mkListenSlot ip port None None.

(** [listen_slots] and [next_listen_id]. *)
Record ListenTable := mkListenTable {
  lt_slots : list (ListenHandle * ListenSlot);
  lt_next_id : ListenHandle
}.

#[export] Instance ListenTable_eta : Settable ListenTable := fun t => mkListenTable (lt_slots t) (lt_next_id t).

Definition listen_table_new : ListenTable := mkListenTable [] 1.

(** [iter().find(p)] and the assignment through [iter_mut().find(p)]. *)
Fixpoint find_slot (p : ListenHandle * ListenSlot -> bool) (l : list (ListenHandle * ListenSlot))
    : option (ListenHandle * ListenSlot) :=
  match l with
  | [] => None
  | s :: l => if p s then Some s else find_slot p l
  end.

Fixpoint update_slot (p : ListenHandle * ListenSlot -> bool) (f : ListenSlot -> ListenSlot)
    (l : list (ListenHandle * ListenSlot)) : list (ListenHandle * ListenSlot) :=
  match l with
  | [] => []
  | s :: l => if p s then (s.1, f s.2) :: l else s :: update_slot p f l
  end.

Definition bound_to (ip port : Z) (s : ListenHandle * ListenSlot) : bool :=
  (ls_local_ip s.2 =? ip) && (ls_local_port s.2 =? port).
Definition with_handle (h : ListenHandle) (s : ListenHandle * ListenSlot) : bool := s.1 =? h.
Definition in_progress_is (h : ConnHandle) (s : ListenHandle * ListenSlot) : bool :=
  bool_decide (ls_in_progress s.2 = Some h).

(** [listen]: a second listener on an address and the exhaustion of ids are refused. *)
Definition listen_add (ip port : Z) (t : ListenTable) : ListenTable * result ListenHandle EngineError :=
  if existsb (bound_to ip port) (lt_slots t) then (t, Err InvalidArgument) else
  let h := lt_next_id t in
  if U32_MAX <? h + 1 then (t, Err InvalidArgument) else
  (t <| lt_next_id := h + 1 |> <| lt_slots ::= fun l => l ++ [(h, slot_new ip port)] |>, Ok h).

(** [accept_next]: takes what waits. *)
Definition take_accept (h : ListenHandle) (t : ListenTable) : ListenTable * option ConnHandle :=
  match find_slot (with_handle h) (lt_slots t) with
  | None => (t, None)
  | Some s => (t <| lt_slots ::= update_slot (with_handle h) (fun s => s <| ls_accept_queue := None |>) |>,
               ls_accept_queue s.2)
  end.

Definition match_slot (ip port : Z) (t : ListenTable) : option ListenHandle :=
  fst <$> find_slot (bound_to ip port) (lt_slots t).

(** The address of a slot and whether both its places are free. *)
Definition slot_status (h : ListenHandle) (t : ListenTable) : option (Z * Z * bool) :=
  (fun s : ListenHandle * ListenSlot =>
     (ls_local_ip s.2, ls_local_port s.2,
      match ls_accept_queue s.2, ls_in_progress s.2 with None, None => false | _, _ => true end))
  <$> find_slot (with_handle h) (lt_slots t).

Definition set_in_progress (lh : ListenHandle) (h : ConnHandle) (t : ListenTable) : ListenTable :=
  t <| lt_slots ::= update_slot (with_handle lh) (fun s => s <| ls_in_progress := Some h |>) |>.

(** [listen_promote_to_accept_queue] and [clear_in_progress_for_conn]. *)
Definition promote (h : ConnHandle) (t : ListenTable) : ListenTable :=
  t <| lt_slots ::= update_slot (in_progress_is h)
         (fun s => s <| ls_in_progress := None |> <| ls_accept_queue := Some h |>) |>.
Definition clear_progress (h : ConnHandle) (t : ListenTable) : ListenTable :=
  t <| lt_slots ::= update_slot (in_progress_is h) (fun s => s <| ls_in_progress := None |>) |>.
