(* ===== verification/Arp.v ===== *)
(** * Static-gateway ARP: arp.rs

    Decoder, policy and frame builders.  The readers of /proc/net/arp and
    /proc/net/route are text I/O and are not modelled. *)

From S2P Require Import Prelude.
From S2P Require Import Bytes.
From S2P Require Import Ip.

Definition ARP_HDR_LEN : nat := 28.
Definition ARP_PAD_LEN : nat := 18.
Definition ARP_FRAME_LEN : nat := 14 + ARP_HDR_LEN + ARP_PAD_LEN.
Definition ARP_HTYPE_ETH : Z := 1.
Definition ARP_PTYPE_IPV4 : Z := 0x0800.
Definition ARP_OP_REQUEST : Z := 1.
Definition ARP_OP_REPLY : Z := 2.

Record ArpPacket := mkArpPacket {
  arp_op : Z;
  sender_mac : list Z;
  sender_ip : Z;
  target_mac : list Z;
  target_ip : Z
}.

Inductive ArpDrop := ArpShort | UnsupportedHardware | UnsupportedProtocol | UnsupportedOp.

(** [None] is an out-of-bounds index. *)
Definition arp_decode (eth_payload : list Z) : option (result ArpPacket ArpDrop) :=
  if (length eth_payload <? ARP_HDR_LEN)%nat then Some (Err ArpShort) else
  htype ← read_be16 eth_payload 0;
  ptype ← read_be16 eth_payload 2;
  hlen ← eth_payload !! 4%nat;
  plen ← eth_payload !! 5%nat;
  if negb (htype =? ARP_HTYPE_ETH) || negb (hlen =? 6) then Some (Err UnsupportedHardware) else
  if negb (ptype =? ARP_PTYPE_IPV4) || negb (plen =? 4) then Some (Err UnsupportedProtocol) else
  op ← read_be16 eth_payload 6;
  if negb (op =? ARP_OP_REQUEST) && negb (op =? ARP_OP_REPLY) then Some (Err UnsupportedOp) else
  s_mac ← get_slice 8 14 eth_payload;
  s_ip ← read_be32 eth_payload 14;
  t_mac ← get_slice 18 24 eth_payload;
  t_ip ← read_be32 eth_payload 24;
  Some (Ok (mkArpPacket op s_mac s_ip t_mac t_ip)).

Inductive ArpAction := ArpNone | SendReply | UpdateGatewayMac (mac : list Z).

Definition classify_arp (pkt : ArpPacket) (local_ip gateway_ip : Z) : ArpAction :=
  if (arp_op pkt =? ARP_OP_REQUEST) && negb (local_ip =? 0) && (target_ip pkt =? local_ip) then SendReply
  else if negb (gateway_ip =? 0) && (sender_ip pkt =? gateway_ip) then
    let is_reply := arp_op pkt =? ARP_OP_REPLY in
    let is_gratuitous := (arp_op pkt =? ARP_OP_REQUEST) && (target_ip pkt =? gateway_ip) in
    if is_reply || is_gratuitous then UpdateGatewayMac (sender_mac pkt) else ArpNone
  else ArpNone.

(** The slice [&mut out[14..]]: [write] changes it in place. *)
Definition in_tail (n : nat) (write : list Z -> list Z) (out : list Z) : list Z := take n out ++ write (drop n out).

Definition write_arp_body (op : Z) (s_mac : list Z) (s_ip : Z) (t_mac : list Z) (t_ip : Z) (body : list Z) : list Z :=
  let body := copy_at 0 (to_be16 ARP_HTYPE_ETH) body in
  let body := copy_at 2 (to_be16 ARP_PTYPE_IPV4) body in
  let body := set_byte 4 6 body in
  let body := set_byte 5 4 body in
  let body := copy_at 6 (to_be16 op) body in
  let body := copy_at 8 s_mac body in
  let body := copy_at 14 (to_be32 s_ip) body in
  let body := copy_at 18 t_mac body in
  copy_at 24 (to_be32 t_ip) body.

(** [out[14 + ARP_HDR_LEN..ARP_FRAME_LEN].fill(0)]. *)
Definition pad_frame (out : list Z) : list Z := copy_at (14 + ARP_HDR_LEN) (replicate ARP_PAD_LEN 0) out.

Definition write_arp_eth (dst our_mac out : list Z) : list Z :=
  let out := copy_at 0 dst out in
  let out := copy_at 6 our_mac out in
  copy_at 12 (to_be16 0x0806) out.

Definition build_arp_reply (our_mac : list Z) (our_ip : Z) (request : ArpPacket) (out : list Z) : option (nat * list Z) :=
  if (length out <? ARP_FRAME_LEN)%nat then None else
  let out := write_arp_eth (sender_mac request) our_mac out in
  let out := in_tail 14 (write_arp_body ARP_OP_REPLY our_mac our_ip (sender_mac request) (sender_ip request)) out in
  Some (ARP_FRAME_LEN, pad_frame out).

Definition build_arp_request (our_mac : list Z) (our_ip target_ip : Z) (out : list Z) : option (nat * list Z) :=
  if (length out <? ARP_FRAME_LEN)%nat then None else
  let out := write_arp_eth (replicate 6 0xff) our_mac out in
  let out := in_tail 14 (write_arp_body ARP_OP_REQUEST our_mac our_ip (replicate 6 0) target_ip) out in
  Some (ARP_FRAME_LEN, pad_frame out).

Definition build_gratuitous_arp (our_mac : list Z) (our_ip : Z) (out : list Z) : option (nat * list Z) :=
  if (length out <? ARP_FRAME_LEN)%nat then None else
  let out := write_arp_eth (replicate 6 0xff) our_mac out in
  let out := in_tail 14 (write_arp_body ARP_OP_REQUEST our_mac our_ip (replicate 6 0) our_ip) out in
  Some (ARP_FRAME_LEN, pad_frame out).

(** ** The bytes of a frame *)

Definition is_mac (m : list Z) : Prop := length m = 6%nat /\ is_bytes m.

Definition arp_wire (op : Z) (s_mac : list Z) (s_ip : Z) (t_mac : list Z) (t_ip : Z) : list Z :=
  to_be16 ARP_HTYPE_ETH ++ to_be16 ARP_PTYPE_IPV4 ++ [6; 4] ++ to_be16 op ++ s_mac ++ to_be32 s_ip ++ t_mac ++ to_be32 t_ip.

Definition arp_frame (dst our_mac : list Z) (op s_ip : Z) (t_mac : list Z) (t_ip : Z) : list Z :=
  dst ++ our_mac ++ to_be16 0x0806 ++ arp_wire op our_mac s_ip t_mac t_ip ++ replicate ARP_PAD_LEN 0.

(** Turns a list of known length into its elements. *)
Ltac explode m := let H := fresh in
  assert (H : exists a b c d e f, m = [a; b; c; d; e; f]) by
    (destruct m as [|? [|? [|? [|? [|? [|? [|]]]]]]]; try done; eauto 8);
  destruct H as (? & ? & ? & ? & ? & ? & ->).

(** The three builders write the same frame. *)
Lemma arp_frame_written dst our_mac op s_ip t_mac t_ip out :
  length dst = 6%nat -> length our_mac = 6%nat -> length t_mac = 6%nat -> (ARP_FRAME_LEN <= length out)%nat ->
  pad_frame (in_tail 14 (write_arp_body op our_mac s_ip t_mac t_ip) (write_arp_eth dst our_mac out)) =
  arp_frame dst our_mac op s_ip t_mac t_ip ++ drop ARP_FRAME_LEN out.
Proof.
  intros Hd Ho Ht Hl. explode dst. explode our_mac. explode t_mac.
  rewrite <- (take_drop ARP_FRAME_LEN out) at 1. assert (Hh : length (take ARP_FRAME_LEN out) = ARP_FRAME_LEN) by (rewrite length_take; lia).
  generalize (drop ARP_FRAME_LEN out) as rest. revert Hh. generalize (take ARP_FRAME_LEN out) as h. intros h Hh rest.
  unfold ARP_FRAME_LEN, ARP_HDR_LEN, ARP_PAD_LEN in Hh. cbn [Nat.add] in Hh.
  do 60 (destruct h as [|? h]; [discriminate Hh|]). destruct h; [|discriminate Hh]. reflexivity.
Qed.

Lemma arp_decode_wire op s_mac s_ip t_mac t_ip rest :
  length s_mac = 6%nat -> length t_mac = 6%nat -> is_u32 s_ip -> is_u32 t_ip ->
  op = ARP_OP_REQUEST \/ op = ARP_OP_REPLY ->
  arp_decode (arp_wire op s_mac s_ip t_mac t_ip ++ rest) = Some (Ok (mkArpPacket op s_mac s_ip t_mac t_ip)).
Proof.
  intros Hs Ht Us Ut Hop. explode s_mac. explode t_mac.
  assert (Uop : is_u16 op) by (destruct Hop as [-> | ->]; by vm_compute).
  unfold arp_decode. match goal with |- context [(?a <? ?b)%nat] => destruct (Nat.ltb_spec a b) as [H|_] end.
  { rewrite length_app in H. cbn in H. unfold ARP_HDR_LEN in H. lia. }
  unfold arp_wire, to_be16, to_be32, read_be16, read_be32. cbn [app lookup list_lookup mbind option_bind Nat.add].
  rewrite !from_to_be16, !from_to_be32 by (done || by vm_compute).
  destruct Hop as [-> | ->]; reflexivity.
Qed.

Lemma l2_decode_arp dst our_mac body : length dst = 6%nat -> length our_mac = 6%nat ->
  forall mac, dst = mac \/ dst = BROADCAST_MAC ->
  l2_decode (dst ++ our_mac ++ to_be16 0x0806 ++ body) mac = Some (Ok (mkL2Decoded ETHERTYPE_ARP our_mac dst ETH_HDR_LEN)).
Proof.
  intros Hd Ho mac Hm. unfold l2_decode. match goal with |- context [(?a <? ?b)%nat] => destruct (Nat.ltb_spec a b) as [H|_] end.
  { rewrite !length_app, Hd, Ho in H. cbn in H. unfold ETH_HDR_LEN in H. lia. }
  rewrite (get_slice_some 0 6), (get_slice_some 6 12) by (rewrite !length_app, Hd, Ho; cbn; lia).
  rewrite (read_be16_at _ 12 (dst ++ our_mac) 0x0806 body) by (by rewrite ?app_assoc, ?length_app, ?Hd, ?Ho || by vm_compute).
  cbn [mbind option_bind].
  assert (Hsl : forall q, slice 0 6 (dst ++ q) = dst) by (intros; apply (slice_app_mid [] dst q); cbn; lia).
  rewrite Hsl. rewrite (slice_app_mid dst our_mac _ 6 12) by lia.
  assert (Hacc : bool_decide (dst = BROADCAST_MAC) || negb (bool_decide (mac = zero_mac)) && bool_decide (dst = mac)
                 || bool_decide (mac = zero_mac) = true).
  { destruct Hm as [-> | ->]; [|by rewrite bool_decide_true].
    destruct (bool_decide (mac = zero_mac)); cbn; [by rewrite orb_true_r|].
    rewrite (bool_decide_true (mac = mac)) by done. by rewrite orb_true_r. }
  rewrite Hacc. reflexivity.
Qed.

(** ** Properties *)

(** Decoding never reads out of bounds, and the sender's address has six bytes. *)
Lemma arp_decode_total p : exists r, arp_decode p = Some r /\ forall pkt, r = Ok pkt -> length (sender_mac pkt) = 6%nat.
Proof.
  unfold arp_decode, ARP_HDR_LEN. destruct (Nat.ltb_spec (length p) 28) as [|L]; [by eexists|].
  destruct (read_be16_some p 0 ltac:(lia)) as [a ->], (read_be16_some p 2 ltac:(lia)) as [b ->],
    (lookup_some p 4 ltac:(lia)) as [c ->], (lookup_some p 5 ltac:(lia)) as [d ->]. cbn [mbind option_bind].
  destruct (read_be16_some p 6 ltac:(lia)) as [o ->], (read_be32_some p 14 ltac:(lia)) as [si ->],
    (read_be32_some p 24 ltac:(lia)) as [ti ->]. rewrite !get_slice_some by lia. cbn [mbind option_bind].
  repeat case_match; eexists; (split; [done|]); intros pkt E; try discriminate E; injection E as <-;
    cbn [sender_mac]; by rewrite length_slice by lia.
Qed.

(** An address resolution end to end.  The request host A builds for B's address is
    accepted by B at layer 2, decoded without loss, and B's policy is to answer; the
    reply B builds for it is accepted and decoded by A, which then learns exactly B's
    MAC for its gateway.  B's gratuitous announcement teaches A the same.  All three
    frames are 60 bytes, and a buffer that is too small is refused. *)
Theorem arp_resolution (mac_a mac_b : list Z) (ip_a ip_b : Z) (buf : list Z)
    (Ha : is_mac mac_a) (Hb : is_mac mac_b) (Ua : is_u32 ip_a) (Ub : is_u32 ip_b) (Nb : ip_b <> 0)
    (Nab : ip_a <> ip_b) (Hbuf : (ARP_FRAME_LEN <= length buf)%nat) :
  exists req rep gra,
    let asked := mkArpPacket ARP_OP_REQUEST mac_a ip_a (replicate 6 0) ip_b in
    let answered := mkArpPacket ARP_OP_REPLY mac_b ip_b mac_a ip_a in
    let announced := mkArpPacket ARP_OP_REQUEST mac_b ip_b (replicate 6 0) ip_b in
    build_arp_request mac_a ip_a ip_b buf = Some (60%nat, req) /\
    l2_decode req mac_b = Some (Ok (mkL2Decoded ETHERTYPE_ARP mac_a BROADCAST_MAC ETH_HDR_LEN)) /\
    arp_decode (drop ETH_HDR_LEN req) = Some (Ok asked) /\
    (forall gw, classify_arp asked ip_b gw = SendReply) /\
    build_arp_reply mac_b ip_b asked buf = Some (60%nat, rep) /\
    l2_decode rep mac_a = Some (Ok (mkL2Decoded ETHERTYPE_ARP mac_b mac_a ETH_HDR_LEN)) /\
    arp_decode (drop ETH_HDR_LEN rep) = Some (Ok answered) /\
    classify_arp answered ip_a ip_b = UpdateGatewayMac mac_b /\
    build_gratuitous_arp mac_b ip_b buf = Some (60%nat, gra) /\
    arp_decode (drop ETH_HDR_LEN gra) = Some (Ok announced) /\
    classify_arp announced ip_a ip_b = UpdateGatewayMac mac_b.
Proof.
  destruct Ha as [La _], Hb as [Lb _].
  assert (Hok : (length buf <? ARP_FRAME_LEN)%nat = false) by (apply Nat.ltb_ge; lia).
  exists (arp_frame (replicate 6 0xff) mac_a ARP_OP_REQUEST ip_a (replicate 6 0) ip_b ++ drop ARP_FRAME_LEN buf),
    (arp_frame mac_a mac_b ARP_OP_REPLY ip_b mac_a ip_a ++ drop ARP_FRAME_LEN buf),
    (arp_frame (replicate 6 0xff) mac_b ARP_OP_REQUEST ip_b (replicate 6 0) ip_b ++ drop ARP_FRAME_LEN buf).
  assert (Hdrop : forall dst src op t rest s_ip t_ip, length dst = 6%nat -> length src = 6%nat -> length t = 6%nat ->
            is_u32 s_ip -> is_u32 t_ip -> op = ARP_OP_REQUEST \/ op = ARP_OP_REPLY ->
            arp_decode (drop ETH_HDR_LEN (arp_frame dst src op s_ip t t_ip ++ rest)) =
              Some (Ok (mkArpPacket op src s_ip t t_ip))).
  { intros dst src op t rest s_ip t_ip Hd Hs Ht Us Ut Hop. unfold arp_frame. rewrite <- !app_assoc.
    rewrite (app_assoc dst), (app_assoc (dst ++ src)), drop_app_length'; [|by rewrite !length_app, Hd, Hs].
    by apply arp_decode_wire. }
  assert (Hl2 : forall dst src op t rest s_ip t_ip mac, length dst = 6%nat -> length src = 6%nat -> dst = mac \/ dst = BROADCAST_MAC ->
            l2_decode (arp_frame dst src op s_ip t t_ip ++ rest) mac = Some (Ok (mkL2Decoded ETHERTYPE_ARP src dst ETH_HDR_LEN))).
  { intros. unfold arp_frame. rewrite <- !app_assoc. by apply l2_decode_arp. }
  unfold build_arp_request, build_arp_reply, build_gratuitous_arp. rewrite Hok. cbn [sender_mac sender_ip].
  rewrite !arp_frame_written by done. rewrite !Hl2, !Hdrop by auto.
  unfold classify_arp. cbn [arp_op sender_mac sender_ip target_mac target_ip].
  rewrite !Z.eqb_refl, (proj2 (Z.eqb_neq ip_b 0)), (proj2 (Z.eqb_neq ip_b ip_a)) by congruence.
  rewrite andb_false_r. cbn. by split_and!.
Qed.

Lemma arp_resolution_witness :
  exists req, build_arp_request [2; 0; 0; 0; 0; 1] 0x0a000001 0x0a000002 (replicate 64 7) = Some (60%nat, req) /\
    arp_decode (drop ETH_HDR_LEN req) = Some (Ok (mkArpPacket ARP_OP_REQUEST [2; 0; 0; 0; 0; 1] 0x0a000001 (replicate 6 0) 0x0a000002)).
Proof.
  destruct (arp_resolution [2; 0; 0; 0; 0; 1] [2; 0; 0; 0; 0; 2] 0x0a000001 0x0a000002 (replicate 64 7))
    as (req & rep & gra & H1 & _ & H2 & _).
  - split; [done|]. repeat constructor; width_lia.
  - split; [done|]. repeat constructor; width_lia.
  - width_lia.
  - width_lia.
  - done.
  - done.
  - vm_compute. lia.
  - exists req. split; [exact H1|exact H2].
Defined.
