(* ===== verification/Icmp.v ===== *)
(** * Path-MTU discovery: icmp.rs

    The table of learned path MTUs and the one ICMP message the engine reacts to. *)

From S2P Require Import Prelude.
From S2P Require Import Bytes.

Definition ICMP_DEST_UNREACH : Z := 3.
Definition ICMP_CODE_FRAG_NEEDED : Z := 4.
Definition IPV4_MIN_MTU : Z := 68.

(** Destination address to MTU; [entries] is the only field of the struct. *)
Abbreviation PmtuTable := (gmap Z Z).

Definition pmtu_get (t : PmtuTable) (ip : Z) : option Z := t !! ip.

Definition pmtu_update (t : PmtuTable) (ip mtu : Z) : bool * PmtuTable :=
  let mtu := Z.max mtu IPV4_MIN_MTU in
  match t !! ip with
  | Some existing => if existing <=? mtu then (false, t) else (true, <[ip := mtu]> t)
  | None => (true, <[ip := mtu]> t)
  end.

Inductive IcmpResult := FragNeededPmtuUpdated | FragNeededNoShrink | OtherDropped | Malformed.

#[export] Instance IcmpResult_eq_dec : EqDecision IcmpResult.
Proof. solve_decision. Defined.

(** [None] is an out-of-bounds index. *)
Definition icmp_input (ip_payload : list Z) (pmtu : PmtuTable) : option (IcmpResult * PmtuTable) :=
  if (length ip_payload <? 8)%nat then Some (Malformed, pmtu) else
  ty ← ip_payload !! 0%nat;
  code ← ip_payload !! 1%nat;
  if negb (ty =? ICMP_DEST_UNREACH) || negb (code =? ICMP_CODE_FRAG_NEEDED) then Some (OtherDropped, pmtu) else
  next_hop_mtu ← read_be16 ip_payload 6;
  if (length ip_payload <? 8 + 20)%nat then Some (Malformed, pmtu) else
  let inner := drop 8 ip_payload in
  b0 ← inner !! 0%nat;
  let version := Z.shiftr b0 4 in
  let ihl := Z.land b0 0x0f in
  if negb (version =? 4) || (ihl <? 5) || (zlen inner <? ihl * 4) then Some (Malformed, pmtu) else
  inner_dst ← read_be32 inner 16;
  if next_hop_mtu =? 0 then Some (Malformed, pmtu) else
  let '(updated, pmtu) := pmtu_update pmtu inner_dst next_hop_mtu in
  Some (if updated then FragNeededPmtuUpdated else FragNeededNoShrink, pmtu).

(** ** Properties *)

(** Every stored MTU is at least the IPv4 minimum. *)
Definition pmtu_ok (t : PmtuTable) : Prop := forall ip m, t !! ip = Some m -> IPV4_MIN_MTU <= m < two16.

(** A learned MTU never grows and is never forgotten. *)
Definition pmtu_shrinks (t t' : PmtuTable) : Prop :=
  forall ip m, t !! ip = Some m -> exists m', t' !! ip = Some m' /\ m' <= m.

(** What an acceptable message says: the address it is about and the MTU. *)
Definition frag_needed (p : list Z) (dst mtu : Z) : Prop :=
  p !! 0%nat = Some ICMP_DEST_UNREACH /\ p !! 1%nat = Some ICMP_CODE_FRAG_NEEDED /\
  (28 <= length p)%nat /\ read_be16 p 6 = Some mtu /\ mtu <> 0 /\ read_be32 p 24 = Some dst.

Lemma pmtu_update_spec t ip mtu : is_u16 mtu -> pmtu_ok t ->
  let '(b, t') := pmtu_update t ip mtu in
  pmtu_ok t' /\ pmtu_shrinks t t' /\ (b = false -> t' = t) /\
  (forall ip', ip' <> ip -> t' !! ip' = t !! ip') /\
  (b = true -> t' !! ip = Some (Z.max mtu IPV4_MIN_MTU)) /\
  exists m, t' !! ip = Some m /\ m <= Z.max mtu IPV4_MIN_MTU.
Proof.
  intros Hm Hok. unfold pmtu_update.
  assert (Hins : (forall m, t !! ip = Some m -> Z.max mtu IPV4_MIN_MTU <= m) ->
            let t' := <[ip := Z.max mtu IPV4_MIN_MTU]> t in
            pmtu_ok t' /\ pmtu_shrinks t t' /\ (true = false -> t' = t) /\
            (forall ip', ip' <> ip -> t' !! ip' = t !! ip') /\
            (true = true -> t' !! ip = Some (Z.max mtu IPV4_MIN_MTU)) /\
            exists m, t' !! ip = Some m /\ m <= Z.max mtu IPV4_MIN_MTU).
  { intros Hle. cbv zeta. split_and!; try done.
    - intros i m. destruct (decide (i = ip)) as [->|N].
      + rewrite lookup_insert_eq. intros [= <-]. unfold IPV4_MIN_MTU. width_lia.
      + rewrite lookup_insert_ne by done. apply Hok.
    - intros i m Hi. destruct (decide (i = ip)) as [->|N].
      + rewrite lookup_insert_eq. eauto.
      + rewrite lookup_insert_ne by done. exists m. split; [done|lia].
    - intros i N. by rewrite lookup_insert_ne.
    - intros _. by rewrite lookup_insert_eq.
    - rewrite lookup_insert_eq. exists (Z.max mtu IPV4_MIN_MTU). split; [done|lia]. }
  destruct (t !! ip) as [ex|] eqn:E; [|apply Hins; congruence].
  destruct (Z.leb_spec ex (Z.max mtu IPV4_MIN_MTU)).
  - split_and!; try done.
    + intros i m Hi. exists m. split; [done|lia].
    + exists ex. split; [done|lia].
  - apply Hins. intros m [= <-]. lia.
Qed.

Lemma icmp_input_spec (p : list Z) (t : PmtuTable) (Hb : is_bytes p) (Hok : pmtu_ok t) :
  exists r t', icmp_input p t = Some (r, t') /\ pmtu_ok t' /\ pmtu_shrinks t t' /\
  match r with
  | FragNeededPmtuUpdated | FragNeededNoShrink =>
      exists dst mtu, frag_needed p dst mtu /\
        (forall ip, ip <> dst -> t' !! ip = t !! ip) /\
        (exists m, t' !! dst = Some m /\ m <= Z.max mtu IPV4_MIN_MTU) /\
        (r = FragNeededNoShrink -> t' = t)
  | OtherDropped | Malformed => t' = t
  end.
Proof.
  assert (Hrefl : pmtu_shrinks t t) by (intros ip m E; exists m; split; [done|lia]).
  assert (Hno : forall r, r = OtherDropped \/ r = Malformed -> exists r' t', Some (r, t) = Some (r', t') /\
    pmtu_ok t' /\ pmtu_shrinks t t' /\
    match r' with
    | FragNeededPmtuUpdated | FragNeededNoShrink => exists dst mtu, frag_needed p dst mtu /\
        (forall ip, ip <> dst -> t' !! ip = t !! ip) /\
        (exists m, t' !! dst = Some m /\ m <= Z.max mtu IPV4_MIN_MTU) /\ (r' = FragNeededNoShrink -> t' = t)
    | OtherDropped | Malformed => t' = t
    end).
  { intros r [-> | ->]; eexists _, t; split_and!; done. }
  unfold icmp_input. destruct (Nat.ltb_spec (length p) 8); [auto|].
  destruct (lookup_some p 0) as [ty Ety]; [lia|]. destruct (lookup_some p 1) as [code Ec]; [lia|].
  rewrite Ety, Ec. cbn [mbind option_bind].
  destruct (Z.eqb_spec ty ICMP_DEST_UNREACH) as [->|]; cbn [negb orb]; [|auto].
  destruct (Z.eqb_spec code ICMP_CODE_FRAG_NEEDED) as [->|]; cbn [negb]; [|auto].
  destruct (read_be16_some p 6) as [mtu Em]; [lia|]. rewrite Em. cbn [mbind option_bind].
  destruct (Nat.ltb_spec (length p) (8 + 20)) as [|Hl]; [auto|].
  rewrite lookup_drop. destruct (lookup_some p (8 + 0)) as [b0 ->]; [lia|]. cbn [mbind option_bind].
  match goal with |- context [if ?b then _ else _] => destruct b end; [auto|].
  rewrite read_be32_drop. destruct (read_be32_some p (8 + 16)) as [dst Ed]; [lia|]. rewrite Ed. cbn [mbind option_bind].
  destruct (Z.eqb_spec mtu 0) as [|Hn]; [auto|].
  pose proof (pmtu_update_spec t dst mtu (read_be16_range _ _ _ Hb Em) Hok) as Hu.
  destruct (pmtu_update t dst mtu) as [b t']. destruct Hu as (U1 & U2 & U3 & U4 & _ & U6).
  eexists _, t'. split; [reflexivity|]. split; [done|]. split; [done|].
  assert (frag_needed p dst mtu) by (unfold frag_needed; split_and!; done).
  destruct b; exists dst, mtu; split_and!; auto. done.
Qed.

(** An ICMP payload never makes the decoder read out of bounds, and the table of path
    MTUs only ever improves: entries stay within [68, 65535], never grow and are never
    forgotten.  Only a well-formed "fragmentation needed" message with a non-zero MTU
    touches it, and then only the entry of the original packet's destination, which ends
    at or below the announced MTU (raised to 68). *)
Theorem icmp_input_sound (p : list Z) (t : PmtuTable) (Hb : is_bytes p) (Hok : pmtu_ok t) :
  exists r t', icmp_input p t = Some (r, t') /\ pmtu_ok t' /\ pmtu_shrinks t t' /\
  match r with
  | FragNeededPmtuUpdated | FragNeededNoShrink =>
      exists dst mtu, frag_needed p dst mtu /\
        (forall ip, ip <> dst -> t' !! ip = t !! ip) /\
        (exists m, t' !! dst = Some m /\ m <= Z.max mtu IPV4_MIN_MTU) /\
        (r = FragNeededNoShrink -> t' = t)
  | OtherDropped | Malformed => t' = t
  end.
Proof. exact (icmp_input_spec p t Hb Hok). Qed.

Definition sample_frag_needed : list Z :=
  [3; 4; 0; 0; 0; 0; 0x05; 0x14; 0x45; 0; 0; 20; 0; 0; 0x40; 0; 64; 6; 0; 0; 10; 0; 0; 1; 10; 0; 0; 2].

Lemma icmp_input_sound_witness :
  exists t', icmp_input sample_frag_needed ∅ = Some (FragNeededPmtuUpdated, t') /\ pmtu_ok t' /\
    t' !! 0x0a000002 = Some 0x0514.
Proof.
  destruct (icmp_input_sound sample_frag_needed ∅) as (r & t' & E & Hok & _).
  - repeat constructor; width_lia.
  - intros ip m E. by rewrite lookup_empty in E.
  - exists t'. vm_compute in E. injection E as <- <-. split_and!; [reflexivity|exact Hok|reflexivity].
Defined.
