(* ===== verification/Iss.v ===== *)
(** * Initial sequence numbers: siphash24.rs and iss.rs

    The keyed hash and the RFC 6528 generator built on it.  The secret and the boot
    nonce come from /dev/urandom and /proc; they are arguments here, as is the clock. *)

From S2P Require Import Prelude.
From S2P Require Import Bytes.
From S2P Require Import Seq.
From S2P Require Import Conn.
From Stdlib Require Import Btauto.

(** ** SipHash-2-4 *)

Definition wadd64 (a b : Z) : Z := u64 (a + b).

(** [u64::rotate_left]. *)
Definition rotl64 (x r : Z) : Z := Z.lor (u64 (Z.shiftl x r)) (Z.shiftr x (64 - r)).

(** [u64::from_le_bytes]. *)
Definition from_le_bytes (l : list Z) : Z := foldr (fun b acc => Z.lor b (Z.shiftl acc 8)) 0 l.

Record SipState := mkSip { v0 : Z; v1 : Z; v2 : Z; v3 : Z }.

#[export] Instance SipState_eta : Settable SipState := fun s => mkSip (v0 s) (v1 s) (v2 s) (v3 s).

Definition sipround (s : SipState) : SipState :=
  let a := wadd64 (v0 s) (v1 s) in
  let b := rotl64 (v1 s) 13 in
  let b := Z.lxor b a in
  let a := rotl64 a 32 in
  let c := wadd64 (v2 s) (v3 s) in
  let d := rotl64 (v3 s) 16 in
  let d := Z.lxor d c in
  let a := wadd64 a d in
  let d := rotl64 d 21 in
  let d := Z.lxor d a in
  let c := wadd64 c b in
  let b := rotl64 b 17 in
  let b := Z.lxor b c in
  let c := rotl64 c 32 in
  mkSip a b c d.

(** One message word: two rounds between the two xors. *)
Definition sip_block (s : SipState) (m : Z) : SipState :=
  let s := s <| v3 ::= fun v => Z.lxor v m |> in
  let s := sipround (sipround s) in
  s <| v0 ::= fun v => Z.lxor v m |>.

(** [while i + 8 <= msg.len()], with [fuel] at least the number of words left. *)
Fixpoint sip_words (fuel : nat) (msg : list Z) (i : nat) (s : SipState) : nat * SipState :=
  match fuel with
  | O => (i, s)
  | S fuel =>
      if (i + 8 <=? length msg)%nat
      then sip_words fuel msg (i + 8) (sip_block s (from_le_bytes (slice i (i + 8) msg)))
      else (i, s)
  end.

(** The loop over the remaining bytes, from index [idx]. *)
Fixpoint sip_last (remaining : list Z) (idx : Z) (last : Z) : Z :=
  match remaining with
  | [] => last
  | byte :: rest => sip_last rest (idx + 1) (Z.lor last (Z.shiftl byte (idx * 8)))
  end.

Definition siphash24 (key msg : list Z) : Z :=
  let k0 := from_le_bytes (slice 0 8 key) in
  let k1 := from_le_bytes (slice 8 16 key) in
  let s := mkSip (Z.lxor k0 0x736f6d6570736575) (Z.lxor k1 0x646f72616e646f6d)
                 (Z.lxor k0 0x6c7967656e657261) (Z.lxor k1 0x7465646279746573) in
  let '(i, s) := sip_words (length msg) msg 0 s in
  let last := sip_last (drop i msg) 0 (Z.shiftl (Z.land (zlen msg) 0xff) 56) in
  let s := sip_block s last in
  let s := s <| v2 ::= fun v => Z.lxor v 0xff |> in
  let s := sipround (sipround (sipround (sipround s))) in
  Z.lxor (Z.lxor (v0 s) (v1 s)) (Z.lxor (v2 s) (v3 s)).

(** ** The generator *)

Record IssGen := mkIssGen { iss_secret : list Z; iss_boot_nonce : list Z }.

(** The 36-byte message. *)
Definition iss_message (g : IssGen) (tuple : FourTuple) : list Z :=
  let msg := replicate 36 0 in
  let msg := copy_at 0 (to_be32 (ft_local_ip tuple)) msg in
  let msg := copy_at 4 (to_be16 (ft_local_port tuple)) msg in
  let msg := copy_at 6 (to_be32 (ft_peer_ip tuple)) msg in
  let msg := copy_at 10 (to_be16 (ft_peer_port tuple)) msg in
  copy_at 20 (iss_boot_nonce g) msg.

Definition iss_next (g : IssGen) (now_ns : Z) (tuple : FourTuple) : Z :=
  let hash_low32 := u32 (siphash24 (iss_secret g) (iss_message g tuple)) in
  let clock_4us := u32 (now_ns / 4000) in
  wadd32 hash_low32 clock_4us.

(** Published test vectors: key 00..0f, message 00..(n-1). *)
Definition count_up (n : nat) : list Z := Z.of_nat <$> seq 0 n.

Example siphash_vector_0 : siphash24 (count_up 16) [] = 0x726fdb47dd0e0e31.
Proof. vm_compute. reflexivity. Qed.
Example siphash_vector_15 : siphash24 (count_up 16) (count_up 15) = 0xa129ca6149be45e5.
Proof. vm_compute. reflexivity. Qed.

(** ** Against the published definition *)

(** The message padded as the paper does: zeros up to seven bytes modulo eight, then
    the length; and its words. *)
Definition sip_pad (msg : list Z) : list Z :=
  msg ++ replicate (7 - length msg mod 8) 0 ++ [Z.land (zlen msg) 0xff].

Fixpoint le_words (n : nat) (l : list Z) : list Z :=
  match n with O => [] | S n => from_le_bytes (take 8 l) :: le_words n (drop 8 l) end.

Definition siphash24_reference (key msg : list Z) : Z :=
  let k0 := from_le_bytes (slice 0 8 key) in
  let k1 := from_le_bytes (slice 8 16 key) in
  let s := mkSip (Z.lxor k0 0x736f6d6570736575) (Z.lxor k1 0x646f72616e646f6d)
                 (Z.lxor k0 0x6c7967656e657261) (Z.lxor k1 0x7465646279746573) in
  let s := foldl sip_block s (le_words (S (length msg / 8)) (sip_pad msg)) in
  let s := Nat.iter 4 sipround (s <| v2 ::= fun v => Z.lxor v 0xff |>) in
  Z.lxor (Z.lxor (v0 s) (v1 s)) (Z.lxor (v2 s) (v3 s)).

Lemma sip_words_eq msg : forall fuel i s, (length msg <= i + fuel)%nat -> (i <= length msg)%nat ->
  let n := ((length msg - i) / 8)%nat in
  sip_words fuel msg i s = ((i + 8 * n)%nat, foldl sip_block s (le_words n (drop i msg))).
Proof.
  induction fuel as [|fuel IH]; intros i s Hf Hi; cbn [sip_words].
  { replace (length msg - i)%nat with 0%nat by lia. cbn. by rewrite Nat.add_0_r. }
  destruct (Nat.leb_spec (i + 8) (length msg)).
  - rewrite IH by lia. replace (length msg - i)%nat with (length msg - (i + 8) + 1 * 8)%nat by lia.
    rewrite Nat.div_add by lia. rewrite Nat.add_1_r. cbn [le_words foldl]. rewrite drop_drop. unfold slice.
    replace (i + 8 - i)%nat with 8%nat by lia. f_equal. lia.
  - rewrite Nat.div_small by lia. cbn. by rewrite Nat.add_0_r.
Qed.

Lemma le_words_snoc : forall n msg tail, (8 * n <= length msg)%nat -> length (drop (8 * n) msg ++ tail) = 8%nat ->
  le_words (S n) (msg ++ tail) = le_words n msg ++ [from_le_bytes (drop (8 * n) msg ++ tail)].
Proof.
  induction n as [|n IH]; intros msg tail Hn Hl.
  - rewrite Nat.mul_0_r, drop_0 in *. cbn [le_words app]. by rewrite take_ge by lia.
  - change (le_words (S (S n)) (msg ++ tail)) with
      (from_le_bytes (take 8 (msg ++ tail)) :: le_words (S n) (drop 8 (msg ++ tail))).
    rewrite take_app_le, drop_app_le by lia. cbn [le_words app]. f_equal.
    replace (8 * S n)%nat with (8 + 8 * n)%nat in * by lia. rewrite <- drop_drop in *.
    apply IH; [rewrite length_drop; lia|done].
Qed.

Ltac le_bits :=
  cbn [sip_last from_le_bytes foldr app length replicate Nat.sub];
  rewrite ?Z.shiftl_lor, ?Z.shiftl_shiftl, ?Z.shiftl_0_l by lia;
  repeat match goal with
  | |- context [Z.shiftl ?x (?a + ?b)] => let v := eval compute in (a + b) in change (Z.shiftl x (a + b)) with (Z.shiftl x v)
  | |- context [Z.shiftl ?x (?a * ?b)] => let v := eval compute in (a * b) in change (Z.shiftl x (a * b)) with (Z.shiftl x v)
  end;
  rewrite ?Z.shiftl_0_r; apply Z.bits_inj; intros k; rewrite ?Z.lor_spec, ?Z.bits_0; btauto.

(** The last word: collecting bytes from the low end is reading the padded word. *)
Lemma sip_last_pad rem len : (length rem <= 7)%nat ->
  sip_last rem 0 (Z.shiftl len 56) = from_le_bytes (rem ++ replicate (7 - length rem) 0 ++ [len]).
Proof.
  intros H. do 8 (destruct rem as [|? rem]; [clear H; le_bits|]). cbn in H. lia.
Qed.

(** ** Properties *)


(** The message determines the connection's addresses and ports. *)
Definition tuple_wf (t : FourTuple) : Prop :=
  is_u32 (ft_local_ip t) /\ is_u16 (ft_local_port t) /\ is_u32 (ft_peer_ip t) /\ is_u16 (ft_peer_port t).

Definition iss_wire (g : IssGen) (t : FourTuple) : list Z :=
  to_be32 (ft_local_ip t) ++ to_be16 (ft_local_port t) ++ to_be32 (ft_peer_ip t) ++ to_be16 (ft_peer_port t) ++
  replicate 8 0 ++ iss_boot_nonce g.

Lemma iss_message_wire g t : length (iss_boot_nonce g) = 16%nat -> iss_message g t = iss_wire g t.
Proof.
  destruct g as [sec nonce]. cbn [iss_boot_nonce]. intros H.
  do 16 (destruct nonce as [|? nonce]; [discriminate H|]). destruct nonce; [reflexivity|discriminate H].
Qed.

Lemma iss_message_inj g t t' : length (iss_boot_nonce g) = 16%nat -> tuple_wf t -> tuple_wf t' ->
  iss_message g t = iss_message g t' -> t = t'.
Proof.
  intros Hn (A & B & C & D) (A' & B' & C' & D') E. rewrite !iss_message_wire in E by done.
  unfold iss_wire, to_be32, to_be16 in E. cbn [app] in E. injection E as E1 E2 E3 E4 E5 E6 E7 E8 E9 E10 E11 E12.
  destruct t as [a b c d], t' as [a' b' c' d']. cbn [ft_local_ip ft_local_port ft_peer_ip ft_peer_port] in *.
  f_equal; rewrite <- (from_to_be32 a), <- (from_to_be32 a') || rewrite <- (from_to_be16 b), <- (from_to_be16 b')
    || rewrite <- (from_to_be32 c), <- (from_to_be32 c') || rewrite <- (from_to_be16 d), <- (from_to_be16 d'); done || congruence.
Qed.

(** Initial sequence numbers follow the clock: for one connection, two numbers drawn
    [t1 <= t2] nanoseconds apart differ by exactly the number of 4-microsecond ticks
    between them, so within half of the sequence space the later one is not earlier in
    the TCP order; and the hash is taken over a message that identifies the connection. *)
Theorem iss_follows_clock (g : IssGen) (t t' : FourTuple) (t1 t2 : Z)
    (Hn : length (iss_boot_nonce g) = 16%nat) (Hw : tuple_wf t) (Hw' : tuple_wf t')
    (Ht : 0 <= t1 <= t2) (Hspan : t2 / 4000 - t1 / 4000 < two31) :
  wsub32 (iss_next g t2 t) (iss_next g t1 t) = t2 / 4000 - t1 / 4000 /\
  seq_le (iss_next g t1 t) (iss_next g t2 t) = true /\
  (iss_message g t = iss_message g t' -> t = t').
Proof.
  pose proof (Z.div_le_mono t1 t2 4000 ltac:(lia) ltac:(lia)) as Hm.
  assert (Hd : wsub32 (iss_next g t2 t) (iss_next g t1 t) = t2 / 4000 - t1 / 4000).
  { unfold iss_next. generalize (siphash24 (iss_secret g) (iss_message g t)). intros h.
    unfold wadd32, wsub32. rewrite !u32_add_l, !u32_add_r, u32_sub_l, u32_sub_r.
    replace (h + t2 / 4000 - (h + t1 / 4000)) with (t2 / 4000 - t1 / 4000) by lia. apply u32_id. width_lia. }
  split_and!; [done| |by apply iss_message_inj].
  unfold seq_le. assert (Hd' : wsub32 (iss_next g t1 t) (iss_next g t2 t) = u32 (- (t2 / 4000 - t1 / 4000))).
  { rewrite <- Hd, <- Z.sub_0_l. unfold wsub32. rewrite u32_sub_r. f_equal. lia. }
  rewrite Hd'. set (d := t2 / 4000 - t1 / 4000) in *.
  assert (0 <= d) by lia. clearbody d.
  destruct (decide (d = 0)) as [->|]; [reflexivity|].
  assert (Hu : u32 (- d) = two32 - d).
  { rewrite <- (u32_period (- d) 1). rewrite u32_id; [lia|]. width_lia. }
  rewrite Hu.
  unfold as_i32. destruct (Z.ltb_spec (two32 - d) two31); apply Z.leb_le; width_lia.
Qed.

Lemma iss_follows_clock_witness :
  let g := mkIssGen (count_up 16) (count_up 16) in
  wsub32 (iss_next g 9000 sample_tuple) (iss_next g 1000 sample_tuple) = 2 /\
  seq_le (iss_next g 1000 sample_tuple) (iss_next g 9000 sample_tuple) = true.
Proof.
  cbv zeta. destruct (iss_follows_clock (mkIssGen (count_up 16) (count_up 16)) sample_tuple sample_tuple 1000 9000)
    as (H1 & H2 & _).
  - reflexivity.
  - vm_compute. by split_and!.
  - vm_compute. by split_and!.
  - lia.
  - vm_compute. done.
  - split; [exact H1|exact H2].
Defined.
