(* ===== verification/ProcFiles.v ===== *)
(** * Start-up files: the readers of /proc in arp.rs and iss.rs

    The next-hop address, the default route and the boot identifier come from text
    files of the kernel.  What reading a file returned is an argument ([None] when it
    could not be read); the layout the kernel gives the files is specified by the
    printers of the second half, and the parsers are shown to invert them. *)

From S2P Require Import Prelude.
From S2P Require Import Text.
From S2P Require Import Bytes.
From S2P Require Import Arp.
From S2P Require Import Iss.

Definition DOT : Z := 46.
Definition COLON : Z := 58.
Definition DASH : Z := 45.
Definition SPACE : Z := 32.
Definition TAB : Z := 9.

(** What the file readers answer besides the value. *)
Inductive ProcError :=
  | ProcArpRead | GatewayMacNotFound (ip : Z) | ProcRouteRead | GatewayIpNotFound (iface : option text).

(** ** /proc/net/arp *)

(** [for b in &mut mac_bytes]: one hexadecimal part per byte. *)
Fixpoint mac_parts (n : nat) (parts : list text) : option (list Z) :=
  match n with
  | O => Some []
  | S n =>
      match parts with
      | [] => None
      | p :: parts => b ← from_str_radix 16 U8_MAX p; (cons b) <$> mac_parts n parts
      end
  end.

Definition parse_proc_arp_line (line : text) : option (Z * list Z) :=
  match split_whitespace line with
  | ip :: _hw :: flags :: mac :: _ =>
      if negb (starts_with (txt "0x") flags) then None else
      flags_u ← from_str_radix 16 U32_MAX (drop 2 flags);
      if Z.land flags_u 2 =? 0 then None else
      match split_char DOT ip with
      | a :: b :: c :: d :: _ =>
          a ← from_str_radix 10 U8_MAX a;
          b ← from_str_radix 10 U8_MAX b;
          c ← from_str_radix 10 U8_MAX c;
          d ← from_str_radix 10 U8_MAX d;
          mac_bytes ← mac_parts 6 (split_char COLON mac);
          Some (from_be32 a b c d, mac_bytes)
      | _ => None
      end
  | _ => None
  end.

Fixpoint find_arp_entry (ip : Z) (ls : list text) : option (list Z) :=
  match ls with
  | [] => None
  | l :: ls =>
      match parse_proc_arp_line l with
      | Some (entry_ip, mac) => if entry_ip =? ip then Some mac else find_arp_entry ip ls
      | None => find_arp_entry ip ls
      end
  end.

Definition resolve_from_proc_arp (file : option text) (ip : Z) : result (list Z) ProcError :=
  match file with
  | None => Err ProcArpRead
  | Some contents =>
      match find_arp_entry ip (drop 1 (lines contents)) with
      | Some mac => Ok mac
      | None => Err (GatewayMacNotFound ip)
      end
  end.

(** ** /proc/net/route *)

Definition RTF_UP : Z := 1.
Definition RTF_GATEWAY : Z := 2.

(** [u32::swap_bytes]. *)
Definition swap_bytes (z : Z) : Z :=
  from_be32 (z mod 256) ((z / 256) mod 256) ((z / 65536) mod 256) ((z / 16777216) mod 256).

Definition parse_proc_route_line (line : text) (iface_filter : option text) : option Z :=
  match split_whitespace line with
  | iface :: dest :: gw :: flags :: _refcnt :: _use :: _metric :: mask :: _ =>
      if match iface_filter with Some want => negb (bool_decide (iface = want)) | None => false end then None else
      dest_u ← from_str_radix 16 U32_MAX dest;
      mask_u ← from_str_radix 16 U32_MAX mask;
      flags_u ← from_str_radix 16 U32_MAX flags;
      if negb (dest_u =? 0) || negb (mask_u =? 0) then None else
      let want := Z.lor RTF_UP RTF_GATEWAY in
      if negb (Z.land flags_u want =? want) then None else
      gw_raw ← from_str_radix 16 U32_MAX gw;
      Some (swap_bytes gw_raw)
  | _ => None
  end.

Fixpoint find_default_gateway (iface_filter : option text) (ls : list text) : option Z :=
  match ls with
  | [] => None
  | l :: ls =>
      match parse_proc_route_line l iface_filter with
      | Some gw => Some gw
      | None => find_default_gateway iface_filter ls
      end
  end.

Definition read_default_gateway_ip (file : option text) (iface_filter : option text) : result Z ProcError :=
  match file with
  | None => Err ProcRouteRead
  | Some contents =>
      match find_default_gateway iface_filter (lines contents) with
      | Some gw => Ok gw
      | None => Err (GatewayIpNotFound iface_filter)
      end
  end.

(** ** /proc/sys/kernel/random/boot_id *)

Definition is_ascii_hexdigit (c : Z) : bool :=
  ((48 <=? c) && (c <=? 57)) || ((97 <=? c) && (c <=? 102)) || ((65 <=? c) && (c <=? 70)).

Definition hex_digit (c : Z) : option Z :=
  if (48 <=? c) && (c <=? 57) then Some (c - 48)
  else if (97 <=? c) && (c <=? 102) then Some (c - 97 + 10)
  else if (65 <=? c) && (c <=? 70) then Some (c - 65 + 10)
  else None.

(** [chunks_exact(2)]. *)
Fixpoint hex_pairs (t : text) : option (list Z) :=
  match t with
  | a :: b :: t =>
      hi ← hex_digit a;
      lo ← hex_digit b;
      (cons (Z.lor (u8 (Z.shiftl hi 4)) lo)) <$> hex_pairs t
  | _ => Some []
  end.

Definition read_boot_id (file : option text) : option (list Z) :=
  contents ← file;
  let hex_only := filter (fun c => is_ascii_hexdigit c = true) (trim_text contents) in
  if negb (Nat.eqb (length hex_only) 32) then None else hex_pairs hex_only.

(** ** The secret of the ISS generator *)

(** [u64::to_le_bytes]. *)
Definition to_le64 (z : Z) : list Z := (fun i => Z.shiftr z (8 * Z.of_nat i) mod 256) <$> seq 0 8.

Definition wmul64 (a b : Z) : Z := u64 (a * b).

(** [urandom] is what sixteen bytes of /dev/urandom were, when they could be read. *)
Definition read_process_secret (urandom : option (list Z)) (now_ns : Z) : list Z :=
  match urandom with
  | Some out => out
  | None =>
      let t1 := now_ns in
      let t2 := wmul64 t1 0x9E3779B97F4A7C15 in
      let t3 := wadd64 t1 0xBF58476D1CE4E5B9 in
      let t4 := wmul64 t1 0x6A09E667F3BCC908 in
      to_le64 t2 ++ to_le64 (Z.lxor t3 t4)
  end.

Definition iss_gen_new (urandom : option (list Z)) (boot_id : option text) (urandom2 : option (list Z))
    (now1 now2 : Z) : IssGen :=
  mkIssGen (read_process_secret urandom now1)
    (match read_boot_id boot_id with Some nonce => nonce | None => read_process_secret urandom2 now2 end).

(** ** The kernel's layout *)

Definition pad_right (width : nat) (t : text) : text := t ++ replicate (width - length t) SPACE.

Definition show_ip (ip : Z) : text := join DOT (map (show 10) (to_be32 ip)).
Definition show_mac (mac : list Z) : text := join COLON (map (show_hex_padded 2) mac).

Record ArpEntry := mkArpEntry {
  ae_ip : Z;
  ae_hw : Z;
  ae_flags : Z;
  ae_mac : list Z;
  ae_dev : text
}.

Definition show_hex_0x (n : Z) : text := txt "0x" ++ show 16 n.

Definition arp_line (e : ArpEntry) : text :=
  pad_right 16 (show_ip (ae_ip e)) ++ SPACE :: pad_right 12 (show_hex_0x (ae_hw e)) ++
  pad_right 12 (show_hex_0x (ae_flags e)) ++ show_mac (ae_mac e) ++ txt "     *        " ++ ae_dev e.

Definition arp_header : text := txt "IP address       HW type     Flags       HW address            Mask     Device".

Definition arp_file (entries : list ArpEntry) : text := unlines (arp_header :: map arp_line entries).

Definition arp_entry_ok (e : ArpEntry) : Prop :=
  is_u32 (ae_ip e) /\ is_u32 (ae_hw e) /\ is_u32 (ae_flags e) /\ is_mac (ae_mac e) /\ is_word (ae_dev e).

(** A complete entry for the address. *)
Definition arp_complete (ip : Z) (e : ArpEntry) : bool := negb (Z.land (ae_flags e) 2 =? 0) && (ae_ip e =? ip).

(** ** The kernel's routes *)

(** [%08X]; the address bytes are printed as a little-endian host reads them. *)

Record RouteEntry := mkRouteEntry {
  rt_iface : text;
  rt_dest : Z;
  rt_gw : Z;          (* host order *)
  rt_flags : Z;
  rt_refcnt : Z;
  rt_use : Z;
  rt_metric : Z;
  rt_mask : Z
}.

Definition route_line (e : RouteEntry) : text :=
  rt_iface e ++ TAB :: show_HEX_padded 8 (rt_dest e) ++ TAB :: show_HEX_padded 8 (swap_bytes (rt_gw e)) ++ TAB ::
  show_HEX_padded 4 (rt_flags e) ++ TAB :: show 10 (rt_refcnt e) ++ TAB :: show 10 (rt_use e) ++ TAB ::
  show 10 (rt_metric e) ++ TAB :: show_HEX_padded 8 (rt_mask e) ++ TAB :: txt "0" ++ TAB :: txt "0" ++ TAB :: txt "0".

Definition route_header : text :=
  txt "Iface" ++ TAB :: txt "Destination" ++ TAB :: txt "Gateway " ++ TAB :: txt "Flags" ++ TAB :: txt "RefCnt" ++ TAB ::
  txt "Use" ++ TAB :: txt "Metric" ++ TAB :: txt "Mask" ++ TAB :: TAB :: txt "MTU" ++ TAB :: txt "Window" ++ TAB :: txt "IRTT".

Definition route_file (entries : list RouteEntry) : text := unlines (route_header :: map route_line entries).

Definition route_entry_ok (e : RouteEntry) : Prop :=
  is_word (rt_iface e) /\ is_u32 (rt_dest e) /\ is_u32 (rt_gw e) /\ is_u32 (rt_flags e) /\
  is_u32 (rt_refcnt e) /\ is_u32 (rt_use e) /\ is_u32 (rt_metric e) /\ is_u32 (rt_mask e).

(** A usable default route of the interface asked for. *)
Definition is_default_route (iface_filter : option text) (e : RouteEntry) : bool :=
  match iface_filter with Some want => bool_decide (rt_iface e = want) | None => true end &&
  (rt_dest e =? 0) && (rt_mask e =? 0) && (Z.land (rt_flags e) 3 =? 3).

(** The boot identifier as the kernel prints it. *)
Definition hex_bytes (bs : list Z) : text := concat (map (show_hex_padded 2) bs).
Definition uuid_groups (bs : list Z) : list text :=
  [hex_bytes (slice 0 4 bs); hex_bytes (slice 4 6 bs); hex_bytes (slice 6 8 bs); hex_bytes (slice 8 10 bs);
   hex_bytes (slice 10 16 bs)].
Definition boot_id_file (bs : list Z) : text := join DASH (uuid_groups bs) ++ [NEWLINE].

(** ** Lemmas *)

Lemma word_txt s : bool_decide (txt s <> []) && forallb (fun c => negb (is_whitespace c)) (txt s) = true -> is_word (txt s).
Proof.
  intros E. apply andb_true_iff in E as [E1 E2]. apply bool_decide_eq_true in E1. split; [done|].
  apply Forall_forall. intros c Hc. eapply forallb_forall in E2; [|by apply list_elem_of_In]. by apply negb_true_iff in E2.
Qed.

Lemma word_app a b : is_word a -> is_word b -> is_word (a ++ b).
Proof.
  intros [Ha ?] [? ?]. split; [|by apply free_of_app]. intros E. apply app_eq_nil in E as [? _]. done.
Qed.

Lemma word_join sep ps : is_whitespace sep = false -> Forall is_word ps -> ps <> [] -> is_word (join sep ps).
Proof.
  intros Hs H Hne. split.
  - destruct H as [|w ws [Hw _] _]; [done|]. destruct ws; [done|]. cbn. intros E. apply app_eq_nil in E as [? _]. done.
  - apply free_of_join; [done|]. eapply Forall_impl; [exact H|]. by intros ? [].
Qed.

Lemma swap_bytes_range z : is_u32 (swap_bytes z).
Proof. unfold swap_bytes. apply from_be32_range; apply mod_byte. Qed.

Lemma swap_from_be32 a b c d :
  is_u8 a -> is_u8 b -> is_u8 c -> is_u8 d -> swap_bytes (from_be32 a b c d) = from_be32 d c b a.
Proof.
  unfold is_u8, two8. intros Ha Hb Hc Hd. unfold swap_bytes, from_be32 at 2 3 4 5.
  set (z := ((a * 256 + b) * 256 + c) * 256 + d).
  rewrite <- (Z.mod_unique z 256 ((a * 256 + b) * 256 + c) d) by lia.
  rewrite <- (Z.div_unique z 256 ((a * 256 + b) * 256 + c) d) by lia.
  rewrite <- (Z.mod_unique _ 256 (a * 256 + b) c) by lia.
  rewrite <- (Z.div_unique z 65536 (a * 256 + b) (c * 256 + d)) by lia.
  rewrite <- (Z.mod_unique _ 256 a b) by lia.
  rewrite <- (Z.div_unique z 16777216 a (b * 65536 + c * 256 + d)) by lia.
  by rewrite (Z.mod_small a) by lia.
Qed.

Lemma swap_bytes_involutive z : is_u32 z -> swap_bytes (swap_bytes z) = z.
Proof.
  intros H. rewrite <- (from_to_be32 z) at 1 by done.
  rewrite swap_from_be32 by (apply mod_byte || (unfold is_u8, is_u32, two8, two32 in *; div_lia)).
  rewrite swap_from_be32 by (apply mod_byte || (unfold is_u8, is_u32, two8, two32 in *; div_lia)).
  by apply from_to_be32.
Qed.

Lemma byte_u64 b : is_u8 b -> is_u64 b.
Proof. width_lia. Qed.
Lemma word_u64 z : is_u32 z -> is_u64 z.
Proof. width_lia. Qed.

Lemma mac_parts_show mac : is_bytes mac -> mac_parts (length mac) (map (show_hex_padded 2) mac) = Some mac.
Proof.
  induction 1 as [|b bs Hb Hbs IH]; [done|]. cbn [length map mac_parts].
  rewrite from_str_radix_padded by (unfold is_u8 in Hb; width_lia). cbn. by rewrite IH.
Qed.

Lemma show_mac_word mac : is_mac mac -> is_word (show_mac mac).
Proof.
  intros [Hlen Hb]. apply word_join; [done| |].
  - apply Forall_map. eapply Forall_impl; [exact Hb|]. intros b Hb'. apply word_padded. width_lia.
  - destruct mac; [done|]. discriminate.
Qed.

Lemma show_ip_word ip : is_u32 ip -> is_word (show_ip ip).
Proof.
  intros H. apply word_join; [done| |done]. apply Forall_map. eapply Forall_impl; [apply to_be32_bytes|].
  intros b Hb. apply word_show; width_lia.
Qed.

Lemma show_hex_0x_word n : 0 <= n -> is_word (show_hex_0x n).
Proof. intros. apply word_app; [by apply word_txt|]. by apply word_show. Qed.

Lemma show_hex_0x_short n : is_u32 n -> (length (show_hex_0x n) < 12)%nat.
Proof.
  intros H. unfold show_hex_0x. rewrite length_app. pose proof (length_show 8 16 n) as L.
  change (16 ^ Z.of_nat 8) with two32 in L. cbn [length txt]. unfold is_u32 in H. specialize (L ltac:(lia) H ltac:(lia)).
  lia.
Qed.

Lemma pad_right_field w width t :
  is_word w -> (length w < width)%nat -> split_whitespace (pad_right width w ++ t) = w :: split_whitespace t.
Proof. intros Hw Hl. unfold pad_right. rewrite <- app_assoc. apply split_whitespace_field; [done|done|lia]. Qed.

Lemma pad_right_field_sp w width t :
  is_word w -> split_whitespace (pad_right width w ++ SPACE :: t) = w :: split_whitespace t.
Proof.
  intros Hw. unfold pad_right. rewrite <- app_assoc.
  change (SPACE :: t) with (replicate 1 SPACE ++ t). rewrite (app_assoc (replicate _ _)), <- replicate_add.
  apply split_whitespace_field; [done|done|lia].
Qed.

(** The fields of an entry's line. *)
Lemma arp_line_fields e : arp_entry_ok e ->
  exists rest, split_whitespace (arp_line e) =
    show_ip (ae_ip e) :: show_hex_0x (ae_hw e) :: show_hex_0x (ae_flags e) :: show_mac (ae_mac e) :: rest.
Proof.
  intros (Hip & Hhw & Hfl & Hmac & Hdev). unfold arp_line. eexists.
  rewrite pad_right_field_sp by by apply show_ip_word.
  rewrite pad_right_field by (apply show_hex_0x_short || apply show_hex_0x_word; done || apply Hhw).
  rewrite pad_right_field by (apply show_hex_0x_short || apply show_hex_0x_word; done || apply Hfl).
  change (txt "     *        " ++ ae_dev e) with (SPACE :: (txt "    *        " ++ ae_dev e)).
  rewrite split_whitespace_cons by (done || by apply show_mac_word). done.
Qed.

Lemma split_show_ip ip : is_u32 ip -> split_char DOT (show_ip ip) = map (show 10) (to_be32 ip).
Proof.
  intros H. apply split_join; [done| |done]. apply Forall_map. eapply Forall_impl; [apply to_be32_bytes|].
  intros b Hb. apply show_free; [lia|width_lia|]. intros c Hc _. unfold DOT. lia.
Qed.

Lemma split_show_mac mac : is_mac mac -> split_char COLON (show_mac mac) = map (show_hex_padded 2) mac.
Proof.
  intros [Hlen Hb]. apply split_join; [done| |by destruct mac]. apply Forall_map. eapply Forall_impl; [exact Hb|].
  intros b Hb'. apply free_of_padded; [width_lia|]. intros c _ Hc. unfold COLON in *. lia.
Qed.

Lemma parse_octet z : from_str_radix 10 U8_MAX (show 10 (z mod 256)) = Some (z mod 256).
Proof. pose proof (mod_byte z). apply from_str_radix_show; [lia|width_lia|by apply byte_u64]. Qed.

Lemma parse_arp_line e : arp_entry_ok e ->
  parse_proc_arp_line (arp_line e) = if Z.land (ae_flags e) 2 =? 0 then None else Some (ae_ip e, ae_mac e).
Proof.
  intros He. pose proof He as (Hip & Hhw & Hfl & Hmac & Hdev).
  destruct (arp_line_fields e He) as [rest E]. unfold parse_proc_arp_line. rewrite E.
  change (starts_with (txt "0x") (show_hex_0x (ae_flags e))) with true. cbn [negb].
  change (drop 2 (show_hex_0x (ae_flags e))) with (show 16 (ae_flags e)).
  rewrite from_str_radix_show by (width_lia || by apply word_u64). cbn [mbind option_bind].
  destruct (_ =? 0); [done|]. rewrite split_show_ip by done. unfold to_be32. cbn [map].
  rewrite !parse_octet. cbn [mbind option_bind]. rewrite split_show_mac by done.
  destruct Hmac as [Hlen Hb]. rewrite <- Hlen, mac_parts_show by done. cbn [mbind option_bind].
  by rewrite from_to_be32.
Qed.

Lemma arp_mask_newline : free_of (Z.eqb NEWLINE) (txt "     *        ").
Proof. by repeat constructor. Qed.

Lemma arp_line_newline e : arp_entry_ok e -> free_of (Z.eqb NEWLINE) (arp_line e).
Proof.
  intros (Hip & Hhw & Hfl & Hmac & Hdev). unfold arp_line, pad_right.
  rewrite !free_of_app, free_of_cons, !free_of_app.
  repeat split; try (by apply free_of_replicate); try exact arp_mask_newline; apply word_newline.
  - by apply show_ip_word.
  - apply show_hex_0x_word. apply Hhw.
  - apply show_hex_0x_word. apply Hfl.
  - by apply show_mac_word.
  - done.
Qed.

Lemma arp_line_strip e : is_word (ae_dev e) -> strip_cr (arp_line e) = arp_line e.
Proof. intros [? ?]. unfold arp_line. rewrite app_comm_cons, !app_assoc. by apply strip_cr_word. Qed.

Lemma find_arp_entry_lines ip entries : Forall arp_entry_ok entries ->
  find_arp_entry ip (map strip_cr (map arp_line entries)) = ae_mac <$> List.find (arp_complete ip) entries.
Proof.
  induction 1 as [|e es He Hes IH]; [done|]. cbn [map find_arp_entry List.find].
  rewrite arp_line_strip by apply He. rewrite parse_arp_line by done. unfold arp_complete at 1.
  destruct (_ =? 0); cbn [negb andb]; [exact IH|]. destruct (_ =? ip); [done|exact IH].
Qed.

(** Looking an address up in the kernel's neighbour table (resolve_from_proc_arp of
    arp.rs): for any entries printed the way the kernel prints them, whatever their
    hardware types, flags and interfaces, the answer is the hardware address of the first
    entry for that address whose ATF_COM flag is set, and an error when there is none. *)
Theorem proc_arp_lookup (entries : list ArpEntry) (ip : Z) :
  Forall arp_entry_ok entries ->
  resolve_from_proc_arp (Some (arp_file entries)) ip =
    match List.find (arp_complete ip) entries with
    | Some e => Ok (ae_mac e)
    | None => Err (GatewayMacNotFound ip)
    end.
Proof.
  intros H. unfold resolve_from_proc_arp, arp_file. rewrite lines_unlines.
  - change (drop 1 (map strip_cr (arp_header :: map arp_line entries))) with (map strip_cr (map arp_line entries)).
    rewrite find_arp_entry_lines by done. by destruct (List.find _ entries).
  - constructor; [by repeat constructor|]. apply Forall_map. eapply Forall_impl; [exact H|]. apply arp_line_newline.
Qed.

(** ** Routes *)

Lemma route_line_fields e : route_entry_ok e ->
  exists rest, split_whitespace (route_line e) =
    rt_iface e :: show_HEX_padded 8 (rt_dest e) :: show_HEX_padded 8 (swap_bytes (rt_gw e)) ::
    show_HEX_padded 4 (rt_flags e) :: show 10 (rt_refcnt e) :: show 10 (rt_use e) :: show 10 (rt_metric e) ::
    show_HEX_padded 8 (rt_mask e) :: rest.
Proof.
  intros (Hi & Hd & Hg & Hf & Hr & Hu & Hm & Hk). pose proof (swap_bytes_range (rt_gw e)).
  unfold route_line. eexists.
  repeat (rewrite split_whitespace_cons;
    [apply (f_equal (cons _))| |done]; [|first [done | apply word_HEX; width_lia | apply word_show; width_lia]]).
  reflexivity.
Qed.

Lemma parse_HEX width z : is_u32 z -> from_str_radix 16 U32_MAX (show_HEX_padded width z) = Some z.
Proof. intros H. apply from_str_radix_HEX; [width_lia|by apply word_u64]. Qed.

Lemma parse_route_line e iface_filter : route_entry_ok e ->
  parse_proc_route_line (route_line e) iface_filter =
    if is_default_route iface_filter e then Some (rt_gw e) else None.
Proof.
  intros He. pose proof He as (Hi & Hd & Hg & Hf & Hr & Hu & Hm & Hk).
  destruct (route_line_fields e He) as [rest E]. unfold parse_proc_route_line, is_default_route. rewrite E.
  rewrite !parse_HEX by (done || apply swap_bytes_range). cbn [mbind option_bind].
  change (Z.lor RTF_UP RTF_GATEWAY) with 3. rewrite swap_bytes_involutive by done.
  destruct iface_filter as [want|]; [destruct (bool_decide _)|]; cbn [negb andb]; [|done|];
    (destruct (rt_dest e =? 0); cbn [negb andb orb]; [|done]);
    (destruct (rt_mask e =? 0); cbn [negb andb orb]; [|done]); by destruct (_ =? 3).
Qed.

Lemma route_line_newline e : route_entry_ok e -> free_of (Z.eqb NEWLINE) (route_line e).
Proof.
  intros (Hi & Hd & Hg & Hf & Hr & Hu & Hm & Hk). pose proof (swap_bytes_range (rt_gw e)).
  unfold route_line. repeat (rewrite free_of_app || rewrite free_of_cons).
  repeat split; try done; try (by repeat constructor); apply word_newline;
    first [done | apply word_HEX; width_lia | apply word_show; width_lia].
Qed.

Lemma route_line_strip e : strip_cr (route_line e) = route_line e.
Proof.
  assert (exists p, route_line e = p ++ [48]) as [p ->].
  { unfold route_line.
    repeat first [exists []; reflexivity | apply suffix_app_r | apply suffix_cons_r]. }
  by apply strip_cr_last.
Qed.

Lemma find_default_gateway_lines iface_filter entries : Forall route_entry_ok entries ->
  find_default_gateway iface_filter (map strip_cr (map route_line entries)) =
    rt_gw <$> List.find (is_default_route iface_filter) entries.
Proof.
  induction 1 as [|e es He Hes IH]; [done|]. cbn [map find_default_gateway List.find].
  rewrite route_line_strip, parse_route_line by done. destruct (is_default_route _ e); [done|exact IH].
Qed.

(** The header names no default route: its second field is not a number. *)
Lemma route_header_skipped iface_filter : parse_proc_route_line (strip_cr route_header) iface_filter = None.
Proof.
  unfold parse_proc_route_line.
  change (split_whitespace (strip_cr route_header)) with
    [txt "Iface"; txt "Destination"; txt "Gateway"; txt "Flags"; txt "RefCnt"; txt "Use"; txt "Metric"; txt "Mask";
     txt "MTU"; txt "Window"; txt "IRTT"].
  by destruct iface_filter as [want|]; [destruct (bool_decide _)|].
Qed.

(** Reading the default gateway (read_default_gateway_ip of arp.rs): for any routes
    printed the way the kernel of a little-endian host prints them, the answer is the
    gateway, in host byte order, of the first route of the interface asked for that has
    destination and mask zero and is up through a gateway; without one it is an error, and the
    header line is never taken for a route. *)
Theorem proc_route_lookup (entries : list RouteEntry) (iface_filter : option text) :
  Forall route_entry_ok entries ->
  read_default_gateway_ip (Some (route_file entries)) iface_filter =
    match List.find (is_default_route iface_filter) entries with
    | Some e => Ok (rt_gw e)
    | None => Err (GatewayIpNotFound iface_filter)
    end.
Proof.
  intros H. unfold read_default_gateway_ip, route_file. rewrite lines_unlines.
  - change (map strip_cr (route_header :: map route_line entries))
      with (strip_cr route_header :: map strip_cr (map route_line entries)).
    cbn [find_default_gateway]. rewrite route_header_skipped, find_default_gateway_lines by done.
    by destruct (List.find _ entries).
  - constructor; [by repeat constructor|]. apply Forall_map. eapply Forall_impl; [exact H|]. apply route_line_newline.
Qed.

(** ** The boot identifier *)

Lemma hexdigit_range c : is_ascii_hexdigit c = true -> c <> DASH /\ is_whitespace c = false.
Proof. unfold is_ascii_hexdigit, DASH, is_whitespace. intros H. split; [lia|]. lia. Qed.

Lemma show_hex_2 b : is_u8 b -> show_hex_padded 2 b = [digit_char (b / 16); digit_char (b mod 16)].
Proof.
  unfold is_u8, two8. intros Hb. unfold show_hex_padded, pad_left, show. cbn [digits_acc].
  destruct (b / 16 =? 0) eqn:E; breflect.
  - by rewrite E.
  - rewrite (Z.div_small (b / 16)) by (split; [apply Z.div_pos; lia|apply Z.div_lt_upper_bound; lia]).
    cbn [Z.eqb]. rewrite (Z.mod_small (b / 16)) by (split; [apply Z.div_pos; lia|apply Z.div_lt_upper_bound; lia]). done.
Qed.

Lemma digit_char_hex d : 0 <= d < 16 -> is_ascii_hexdigit (digit_char d) = true /\ hex_digit (digit_char d) = Some d.
Proof.
  intros Hd. unfold digit_char. destruct (d <? 10) eqn:E; breflect.
  - unfold is_ascii_hexdigit, hex_digit. rewrite (proj2 (Z.leb_le 48 _)), (proj2 (Z.leb_le _ 57)) by lia.
    cbn. split; [done|f_equal; lia].
  - unfold is_ascii_hexdigit, hex_digit.
    rewrite (proj2 (Z.leb_gt _ 57)), (proj2 (Z.leb_le 97 _)), (proj2 (Z.leb_le _ 102)) by lia.
    rewrite !andb_false_r. cbn. split; [done|f_equal; lia].
Qed.

Lemma nibbles b : is_u8 b -> 0 <= b / 16 < 16 /\ 0 <= b mod 16 < 16 /\ Z.lor (u8 (Z.shiftl (b / 16) 4)) (b mod 16) = b.
Proof.
  unfold is_u8, two8. intros Hb. split_and!; [apply Z.div_pos; lia|apply Z.div_lt_upper_bound; lia|apply Z.mod_pos_bound; lia..|].
  assert (forallb (fun b => Z.lor (u8 (Z.shiftl (b / 16) 4)) (b mod 16) =? b) (Z.of_nat <$> seq 0 256) = true) as H by by vm_compute.
  eapply forallb_forall in H; [by apply Z.eqb_eq in H|].
  apply list_elem_of_In, list_elem_of_fmap. exists (Z.to_nat b). split; [lia|]. apply elem_of_seq. lia.
Qed.

Lemma hex_bytes_parsed bs : is_bytes bs ->
  hex_pairs (hex_bytes bs) = Some bs /\ Forall (fun c => is_ascii_hexdigit c = true) (hex_bytes bs) /\ length (hex_bytes bs) = (2 * length bs)%nat.
Proof.
  unfold hex_bytes. induction 1 as [|b bs Hb Hbs IH]; [done|]. destruct IH as (IH1 & IH2 & IH3).
  destruct (nibbles b Hb) as (Hh & Hl & Hb').
  destruct (digit_char_hex _ Hh) as [? Eh]. destruct (digit_char_hex _ Hl) as [? El].
  cbn [map concat]. rewrite show_hex_2 by done. cbn [app hex_pairs]. rewrite Eh, El. cbn [mbind option_bind].
  rewrite IH1. cbn [fmap option_fmap option_map length]. rewrite Hb', IH3. repeat split; [by repeat constructor|lia].
Qed.

Lemma filter_all {A} (P : A -> Prop) `{forall x, Decision (P x)} l : Forall P l -> filter P l = l.
Proof. induction 1; [done|]. rewrite filter_cons_True by done. by f_equal. Qed.

Lemma filter_uuid gs : Forall (Forall (fun c => is_ascii_hexdigit c = true)) gs ->
  filter (fun c => is_ascii_hexdigit c = true) (join DASH gs) = concat gs.
Proof.
  induction 1 as [|g gs Hg Hgs IH]; [done|]. destruct gs as [|g' gs].
  - cbn [join concat]. rewrite app_nil_r. by apply filter_all.
  - change (join DASH (g :: g' :: gs)) with (g ++ DASH :: join DASH (g' :: gs)).
    rewrite filter_app, filter_all by done. rewrite filter_cons_False by done. cbn [concat] in *. by rewrite IH.
Qed.

Lemma trim_word_newline w : is_word w -> trim_text (w ++ [NEWLINE]) = w.
Proof.
  intros [Hne Hw]. unfold trim_text.
  assert (forall t u, t <> [] -> free_of is_whitespace t -> trim_start (t ++ u) = t ++ u) as Hs.
  { intros [|c t] u Ht Hf; [done|]. apply free_of_cons in Hf as [Hc _]. cbn. by rewrite Hc. }
  rewrite Hs by done. rewrite rev_app_distr. cbn [rev app trim_start].
  change (is_whitespace NEWLINE) with true. cbn iota.
  rewrite <- (app_nil_r (rev w)), Hs.
  - by rewrite app_nil_r, rev_involutive.
  - intros E. apply (f_equal (@rev Z)) in E. by rewrite rev_involutive in E.
  - unfold free_of. by apply Forall_rev.
Qed.

Lemma hex_bytes_app a b : hex_bytes (a ++ b) = hex_bytes a ++ hex_bytes b.
Proof. unfold hex_bytes. by rewrite map_app, concat_app. Qed.

Lemma uuid_concat bs : length bs = 16%nat -> concat (uuid_groups bs) = hex_bytes bs.
Proof.
  intros Hl. unfold uuid_groups. cbn [concat]. rewrite app_nil_r, <- !hex_bytes_app. f_equal.
  do 17 (destruct bs as [|? bs]; [done|try done]).
Qed.

Lemma uuid_group_hex bs : is_bytes bs -> Forall (Forall (fun c => is_ascii_hexdigit c = true)) (uuid_groups bs).
Proof. intros H. unfold uuid_groups. repeat constructor; apply hex_bytes_parsed; by apply is_bytes_slice. Qed.

Lemma uuid_word bs : is_bytes bs -> length bs = 16%nat -> is_word (join DASH (uuid_groups bs)).
Proof.
  intros Hb Hl. pose proof (uuid_group_hex bs Hb) as Hg. apply word_join; [done| |done].
  assert (forall i j, (i < j)%nat -> (j <= 16)%nat -> is_word (hex_bytes (slice i j bs))) as Hw.
  { intros i j Hij Hj. destruct (hex_bytes_parsed (slice i j bs) ltac:(by apply is_bytes_slice)) as (_ & Hx & Hlen). split.
    - rewrite length_slice in Hlen by lia. intros E. rewrite E in Hlen. cbn in Hlen. lia.
    - eapply Forall_impl; [exact Hx|]. intros c Hc. by apply hexdigit_range. }
  unfold uuid_groups. repeat constructor; apply Hw; lia.
Qed.

(** The boot identifier the kernel prints is read back byte for byte. *)
Lemma boot_id_read bs : is_bytes bs -> length bs = 16%nat -> read_boot_id (Some (boot_id_file bs)) = Some bs.
Proof.
  intros Hb Hl. unfold read_boot_id, boot_id_file. cbn [mbind option_bind].
  rewrite trim_word_newline by by apply uuid_word. rewrite filter_uuid by by apply uuid_group_hex.
  rewrite uuid_concat by done. destruct (hex_bytes_parsed bs Hb) as (Hp & _ & Hlen). by rewrite Hlen, Hl.
Qed.

(** ** Concrete files *)

Definition sample_arp : list ArpEntry :=
  [mkArpEntry 0x0a000001 1 0 [0; 0; 0; 0; 0; 0] (txt "eth0");
   mkArpEntry 0x0a000001 1 6 [2; 0xab; 3; 4; 5; 0xff] (txt "eth1")].

Definition sample_routes : list RouteEntry :=
  [mkRouteEntry (txt "eth0") 0x0a000000 0 1 0 0 0 0xffffff;
   mkRouteEntry (txt "eth0") 0 0xc0a80101 3 0 0 100 0;
   mkRouteEntry (txt "eth1") 0 0x0a0000fe 3 0 0 200 0].

(** An incomplete entry comes first and is skipped. *)
Lemma proc_arp_lookup_witness :
  resolve_from_proc_arp (Some (arp_file sample_arp)) 0x0a000001 = Ok [2; 0xab; 3; 4; 5; 0xff] /\
  resolve_from_proc_arp (Some (arp_file sample_arp)) 0x0a000002 = Err (GatewayMacNotFound 0x0a000002).
Proof.
  assert (Forall arp_entry_ok sample_arp) as H.
  { repeat constructor; try discriminate; width_lia. }
  split; [exact (proc_arp_lookup sample_arp 0x0a000001 H)|exact (proc_arp_lookup sample_arp 0x0a000002 H)].
Defined.

Lemma proc_route_lookup_witness :
  read_default_gateway_ip (Some (route_file sample_routes)) None = Ok 0xc0a80101 /\
  read_default_gateway_ip (Some (route_file sample_routes)) (Some (txt "eth1")) = Ok 0x0a0000fe.
Proof.
  assert (Forall route_entry_ok sample_routes) as H.
  { repeat constructor; try discriminate; width_lia. }
  split; [exact (proc_route_lookup sample_routes None H)|exact (proc_route_lookup sample_routes (Some (txt "eth1")) H)].
Defined.
