(* ===== verification/Clock.v ===== *)
(** * The clock: clock.rs

    A reading is a time-stamp count scaled by a fixed-point ratio that one calibration
    measures.  The counter and the wall clock are arguments. *)

From S2P Require Import Prelude.
From S2P Require Import Iss.

Record TscEpoch := mkTscEpoch {
  tsc0 : Z;
  t0_ns : Z;
  ns_per_tsc_scaled : Z
}.

Definition wsub64 (a b : Z) : Z := u64 (a - b).

(** [rdtsc()] is the argument [tsc]; the product is taken at 128 bits and the
    shifted result is truncated to 64. *)
Definition now_ns (e : TscEpoch) (tsc : Z) : Z :=
  let delta := wsub64 tsc (tsc0 e) in
  let scaled := Z.shiftr (delta * ns_per_tsc_scaled e) 32 in
  wadd64 (t0_ns e) (u64 scaled).

(** [None] is the division by zero of two equal counts. *)
Definition calibrate (start_tsc end_tsc elapsed_ns : Z) : option TscEpoch :=
  let tsc_delta := wsub64 end_tsc start_tsc in
  if tsc_delta =? 0 then None else
  Some (mkTscEpoch start_tsc 0 (u64 (Z.shiftl elapsed_ns 32 / tsc_delta))).

(** [CPUID.80000007H:EDX]. *)
Definition check_invariant_tsc (edx : Z) : bool := Z.testbit edx 8.

(** [TSC_EPOCH] is filled once; [init] answers whether the processor is supported and
    leaves the epoch of the first successful call. *)
Definition clock_init (edx : Z) (calibration : option TscEpoch) (cell : option TscEpoch)
    : option (bool * option TscEpoch) :=
  if negb (check_invariant_tsc edx) then Some (false, cell) else
  match cell with
  | Some e => Some (true, Some e)
  | None => e ← calibration; Some (true, Some e)
  end.

(** ** Properties *)

Lemma wsub64_id a b : is_u64 (a - b) -> wsub64 a b = a - b.
Proof. apply u64_id. Qed.

(** The reading as long as the scaled time fits. *)
Lemma now_ns_exact e d :
  is_u64 d -> t0_ns e = 0 -> 0 <= ns_per_tsc_scaled e -> d * ns_per_tsc_scaled e < two64 * two32 ->
  now_ns e (u64 (tsc0 e + d)) = d * ns_per_tsc_scaled e / two32.
Proof.
  intros Hd H0 Hn Hlt. unfold now_ns, wsub64, wadd64. rewrite H0, Z.add_0_l.
  assert (u64 (u64 (tsc0 e + d) - tsc0 e) = d) as ->.
  { unfold u64. rewrite Zminus_mod_idemp_l. replace (tsc0 e + d - tsc0 e) with d by lia. by apply Z.mod_small. }
  rewrite Z.shiftr_div_pow2 by lia. change (2 ^ 32) with two32.
  assert (is_u64 (d * ns_per_tsc_scaled e / two32)) as Hr.
  { split; [apply Z.div_pos; [unfold is_u64 in Hd; nia|unfold two32; lia]|].
    apply Z.div_lt_upper_bound; [unfold two32; lia|lia]. }
  rewrite !u64_id; [done|done|by rewrite u64_id].
Qed.

(** The clock (calibrate and now_ns of clock.rs): after a calibration that measured
    [elapsed] nanoseconds over [ticks] counts, the reading [d] counts after the start, also
    across a wrap of the counter, is never ahead of the exact [d * elapsed / ticks], and is
    behind it by less than one nanosecond plus one more per started 2^32 counts; readings are
    monotone. *)
Theorem clock_accurate (start ticks elapsed d d' : Z) (e : TscEpoch) :
  is_u64 start -> 0 < ticks < two64 -> 0 <= elapsed < two32 -> 
  calibrate start (u64 (start + ticks)) elapsed = Some e ->
  0 <= d' <= d -> is_u64 d -> d * elapsed < two64 * ticks ->
  now_ns e (u64 (start + d)) * ticks <= d * elapsed < (now_ns e (u64 (start + d)) + 1 + (d / two32 + 1)) * ticks /\
  now_ns e (u64 (start + d')) <= now_ns e (u64 (start + d)).
Proof.
  intros Hs Ht He. unfold calibrate.
  assert (wsub64 (u64 (start + ticks)) start = ticks) as ->.
  { unfold wsub64, u64. rewrite Zminus_mod_idemp_l. replace (start + ticks - start) with ticks by lia. apply Z.mod_small. lia. }
  destruct (ticks =? 0) eqn:E; [breflect; lia|]. intros [= <-] Hd' Hd Hfit.
  rewrite Z.shiftl_mul_pow2 by lia. change (2 ^ 32) with two32.
  set (q := elapsed * two32 / ticks).
  assert (Hq : q * ticks <= elapsed * two32 < (q + 1) * ticks).
  { subst q. pose proof (Z.div_mod (elapsed * two32) ticks ltac:(lia)) as Hdm.
    pose proof (Z.mod_pos_bound (elapsed * two32) ticks ltac:(lia)). lia. }
  assert (Hq0 : 0 <= q) by (apply Z.div_pos; width_lia).
  assert (Hqu : u64 q = q).
  { apply u64_id. split; [done|]. subst q. apply Z.div_lt_upper_bound; [lia|]. width_lia. }
  assert (Hw : d * q < two64 * two32) by (width_lia || nia).
  pose proof (now_ns_exact (mkTscEpoch start 0 (u64 q))) as N. cbn [tsc0 t0_ns ns_per_tsc_scaled] in N. rewrite Hqu in *.
  rewrite !N by (done || lia || (unfold is_u64 in *; lia) || nia).
  pose proof (Z.div_mod (d * q) two32 ltac:(unfold two32; lia)) as Hdm.
  pose proof (Z.mod_pos_bound (d * q) two32 ltac:(unfold two32; lia)) as Hmb.
  pose proof (Z.div_mod d two32 ltac:(unfold two32; lia)) as Hdd.
  pose proof (Z.mod_pos_bound d two32 ltac:(unfold two32; lia)) as Hdb.
  assert (0 < two32) by (unfold two32; lia).
  split; [split|].
  - apply Z.mul_le_mono_pos_r with two32; [done|]. nia.
  - apply Z.mul_lt_mono_pos_r with two32; [done|]. nia.
  - apply Z.div_le_mono; [done|]. nia.
Qed.

(** A 3 GHz counter that wraps during the calibration. *)
Lemma clock_accurate_witness :
  exists e, calibrate 18446744073709551606 (u64 (18446744073709551606 + 150000000)) 50000000 = Some e /\
    now_ns e (u64 (18446744073709551606 + 3000000000)) = 999999999 /\
    now_ns e (u64 (18446744073709551606 + 3000)) <= now_ns e (u64 (18446744073709551606 + 3000000000)).
Proof.
  eexists. split; [vm_compute; reflexivity|]. split; [vm_compute; reflexivity|].
  eapply (clock_accurate 18446744073709551606 150000000 50000000 3000000000 3000);
    [width_lia|width_lia|width_lia|vm_compute; reflexivity|lia|width_lia|width_lia].
Defined.
