(* ===== verification/Nic.v ===== *)
(** * Checks and statistics of the network card: wc_verify.rs, llq_verify.rs, ena_xstats.rs

    Diagnostics the engine runs when it starts, and the scrape of the driver's extended
    statistics.  What the driver, its log and /sys answer are arguments; counters that a
    function bumps are in its result. *)

From S2P Require Import Prelude.
From S2P Require Import Text.

(** ** Driver names *)

(** A C string: the bytes before the first NUL. *)
Fixpoint c_str (bs : list Z) : list Z :=
  match bs with [] => [] | b :: bs => if b =? 0 then [] else b :: c_str bs end.

(** [driver_str == "net_ena"]; bytes that are not UTF-8 read as the empty name. *)
Definition is_ena (driver_name : list Z) : bool := bool_decide (c_str driver_name = txt "net_ena").

(** ** Write combining *)

Inductive WcVerdict := WriteCombining | OtherMapping | NotFound.

#[export] Instance WcVerdict_eq_dec : EqDecision WcVerdict.
Proof. solve_decision. Defined.

Definition MEM_PREFIX : text := txt "[mem 0x".

(** One line of the loop; [None] is [continue]. *)
Definition pat_line (needle_lo line : text) : option WcVerdict :=
  from ← find_text MEM_PREFIX line;
  lo_hex ← before_char 45 (drop (length MEM_PREFIX) from);
  if negb (eq_ignore_ascii_case lo_hex needle_lo) then None
  else if contains line (txt "write-combining") then Some WriteCombining else Some OtherMapping.

Fixpoint pat_scan (needle_lo : text) (ls : list text) : WcVerdict :=
  match ls with
  | [] => NotFound
  | l :: ls => match pat_line needle_lo l with Some v => v | None => pat_scan needle_lo ls end
  end.

Definition parse_pat_memtype_list (pat_contents : text) (bar_phys_addr : Z) : WcVerdict :=
  pat_scan (show_hex_padded 16 bar_phys_addr) (lines pat_contents).

(** [verify_wc_for_ena] on Linux/x86_64: the number it adds to [eth.llq_wc_missing]. *)
Definition verify_wc_for_ena (driver_name : list Z) (bar_phys_addr : Z) (pat_file : option text) : Z :=
  if negb (is_ena driver_name) then 0 else
  if bar_phys_addr =? 0 then 0 else
  match pat_file with
  | None => 0
  | Some pat_contents =>
      match parse_pat_memtype_list pat_contents bar_phys_addr with
      | WriteCombining => 0
      | OtherMapping | NotFound => 1
      end
  end.

(** ** Low-latency queues *)

Definition LLQ_ACTIVATION_MARKERS : list text :=
  [txt "Placement policy: Low latency"; txt "LLQ supported"; txt "using LLQ"].

Definition LLQ_FAILURE_MARKERS : list text :=
  [txt "LLQ is not supported"; txt "Fallback to disabled LLQ"; txt "LLQ is not enabled";
   txt "NOTE: LLQ has been disabled"; txt "Placement policy: Regular"; txt "Fallback to host mode policy"].

Record LlqVerdict := mkLlqVerdict {
  has_activation : bool;
  has_failure : bool;
  captured : bool
}.

Definition scan_log_for_verdict (captured_log : text) : LlqVerdict :=
  mkLlqVerdict (existsb (contains captured_log) LLQ_ACTIVATION_MARKERS)
    (existsb (contains captured_log) LLQ_FAILURE_MARKERS) true.

(** [EAL_INIT_VERDICT] is written once. *)
Definition record_eal_init_log_verdict (captured_log : text) (verdict : option LlqVerdict) : option LlqVerdict :=
  match trim_text captured_log with
  | [] => verdict
  | _ => match verdict with Some v => Some v | None => Some (scan_log_for_verdict captured_log) end
  end.

(** The answer and what is added to [eth.offload_missing_llq]. *)
Definition verify_llq_activation_from_global (driver_name : list Z) (verdict : option LlqVerdict) : bool * Z :=
  if negb (is_ena driver_name) then (true, 0) else
  match verdict with
  | None => (true, 0)
  | Some v =>
      if negb (captured v) then (true, 0) else
      if has_failure v || negb (has_activation v) then (false, 1) else (true, 0)
  end.

(** The same check on a log the caller passes. *)
Definition verify_llq_activation (driver_name : list Z) (captured_log : text) : bool * Z :=
  if negb (is_ena driver_name) then (true, 0) else
  let v := scan_log_for_verdict captured_log in
  if has_failure v || negb (has_activation v) then (false, 1) else (true, 0).

(** ** Initialisation of the environment abstraction layer

    [eal_init] keeps two pieces of process state: the latch behind its mutex and the
    verdict.  [poisoned] is the state of the mutex; [rte_eal_init] answers its return code,
    the errno and the log it wrote, [None] when it could not be captured. *)

Record EalState := mkEalState { eal_done : bool; eal_verdict : option LlqVerdict }.

Inductive EalError := EalReentrant | EalArgvNul | EalInitFailed (errno : Z).

Record EalAnswer := mkEalAnswer { ea_rc : Z; ea_errno : Z; ea_log : option text }.

Definition LLQ_LOG_LEVEL : text := txt "--log-level=pmd.net.ena.driver,info".

Definition has_nul (arg : text) : bool := existsb (Z.eqb 0) arg.

Definition eal_init (poisoned : bool) (args : list text) (rte_eal_init : list text -> EalAnswer) (s : EalState)
    : result unit EalError * EalState :=
  if poisoned then (Err EalReentrant, s) else
  if eal_done s then (Ok tt, s) else
  let args := args ++ [LLQ_LOG_LEVEL] in
  if existsb has_nul args then (Err EalArgvNul, s) else
  let a := rte_eal_init args in
  let verdict :=
    match ea_log a with Some log => record_eal_init_log_verdict log (eal_verdict s) | None => eal_verdict s end in
  if ea_rc a <? 0 then (Err (EalInitFailed (ea_errno a)), mkEalState (eal_done s) verdict)
  else (Ok tt, mkEalState true verdict).

(** ** Extended statistics *)

Definition XSTAT_NAMES : list text :=
  [txt "bw_in_allowance_exceeded"; txt "bw_out_allowance_exceeded"; txt "pps_allowance_exceeded";
   txt "conntrack_allowance_exceeded"; txt "linklocal_allowance_exceeded";
   txt "tx_q0_linearize"; txt "tx_q0_doorbells"; txt "tx_q0_missed_tx"; txt "tx_q0_bad_req_id";
   txt "rx_q0_refill_partial"; txt "rx_q0_bad_desc_num"; txt "rx_q0_bad_req_id"; txt "rx_q0_mbuf_alloc_fail"].

(** The identifiers, parallel to [XSTAT_NAMES]. *)
Notation XstatMap := (list (option Z)) (only parsing).

Definition from_lookup (lookup : text -> option Z) : XstatMap := map lookup XSTAT_NAMES.

(** The slots of [EthCounters] the scrape writes. *)
Record EniCounters := mkEniCounters {
  eni_bw_in_allowance_exceeded : Z;
  eni_bw_out_allowance_exceeded : Z;
  eni_pps_allowance_exceeded : Z;
  eni_conntrack_allowance_exceeded : Z;
  eni_linklocal_allowance_exceeded : Z;
  tx_q0_linearize : Z;
  tx_q0_doorbells : Z;
  tx_q0_missed_tx : Z;
  tx_q0_bad_req_id : Z;
  rx_q0_refill_partial : Z;
  rx_q0_bad_desc_num : Z;
  rx_q0_bad_req_id : Z;
  rx_q0_mbuf_alloc_fail : Z
}.

(** [store(slot, idx)]: a panic when an index is out of range. *)
Definition xstat_value (ids : XstatMap) (values : list Z) (idx : nat) : option Z :=
  id ← ids !! idx;
  match id with Some _ => values !! idx | None => Some 0 end.

Definition xstat_apply (ids : XstatMap) (values : list Z) : option EniCounters :=
  a0 ← xstat_value ids values 0;
  a1 ← xstat_value ids values 1;
  a2 ← xstat_value ids values 2;
  a3 ← xstat_value ids values 3;
  a4 ← xstat_value ids values 4;
  a5 ← xstat_value ids values 5;
  a6 ← xstat_value ids values 6;
  a7 ← xstat_value ids values 7;
  a8 ← xstat_value ids values 8;
  a9 ← xstat_value ids values 9;
  a10 ← xstat_value ids values 10;
  a11 ← xstat_value ids values 11;
  a12 ← xstat_value ids values 12;
  Some (mkEniCounters a0 a1 a2 a3 a4 a5 a6 a7 a8 a9 a10 a11 a12).

(** A failed scrape clears the snapshots and keeps the cumulative counters. *)
Definition xstat_apply_on_error (c : EniCounters) : EniCounters :=
  mkEniCounters 0 0 0 0 0 (tx_q0_linearize c) (tx_q0_doorbells c) (tx_q0_missed_tx c) (tx_q0_bad_req_id c)
    (rx_q0_refill_partial c) (rx_q0_bad_desc_num c) (rx_q0_bad_req_id c) (rx_q0_mbuf_alloc_fail c).

Definition apply_scrape_result (rc_matches_len : bool) (values : list Z) (ids : XstatMap) (c : EniCounters) : option EniCounters :=
  if rc_matches_len then xstat_apply ids values else Some (xstat_apply_on_error c).

Definition clamped_names_len (n got : Z) : Z := if got <=? 0 then 0 else Z.min got n.

(** [names.iter().enumerate()]: the position of the first name that matches. *)
Fixpoint name_position (i : Z) (wanted : text) (names : list text) : option Z :=
  match names with
  | [] => None
  | n :: names => if bool_decide (c_str (take 64 n) = wanted) then Some i else name_position (i + 1) wanted names
  end.

(** The probe answers [n]; the fetch answers [got] and what it wrote into the [n] slots
    of the buffer, each of 64 bytes. *)
Definition resolve_xstat_ids (n : Z) (fetch : Z * list (list Z)) : XstatMap :=
  if n <=? 0 then from_lookup (fun _ => None) else
  let (got, written) := fetch in
  if got <=? 0 then from_lookup (fun _ => None) else
  let names := take (Z.to_nat (clamped_names_len n got)) written in
  from_lookup (fun wanted => name_position 0 wanted names).

(** The dense list of the advertised identifiers. *)
Definition query_ids (ids : XstatMap) : list Z := omap id ids.

(** [values[query_index[k]] = got_values[k]]. *)
Fixpoint spread (ids : XstatMap) (got : list Z) : list Z :=
  match ids with
  | [] => []
  | Some _ :: ids => match got with v :: got => v :: spread ids got | [] => 0 :: spread ids [] end
  | None :: ids => 0 :: spread ids got
  end.

(** [get_by_id] answers a return code and the values it wrote. *)
Definition scrape (ids : XstatMap) (get_by_id : list Z -> Z * list Z) (c : EniCounters) : option EniCounters :=
  let q := query_ids ids in
  match q with
  | [] => apply_scrape_result true (replicate (length ids) 0) ids c
  | _ =>
      let (rc, got_values) := get_by_id q in
      let ok := rc =? zlen q in
      apply_scrape_result ok (if ok then spread ids got_values else replicate (length ids) 0) ids c
  end.

(** ** Properties of the scrape *)

Definition eni_list (c : EniCounters) : list Z :=
  [eni_bw_in_allowance_exceeded c; eni_bw_out_allowance_exceeded c; eni_pps_allowance_exceeded c;
   eni_conntrack_allowance_exceeded c; eni_linklocal_allowance_exceeded c; tx_q0_linearize c; tx_q0_doorbells c;
   tx_q0_missed_tx c; tx_q0_bad_req_id c; rx_q0_refill_partial c; rx_q0_bad_desc_num c; rx_q0_bad_req_id c;
   rx_q0_mbuf_alloc_fail c].

(** What a successful scrape reads for each slot. *)
Definition slot_values (val : Z -> Z) (ids : XstatMap) : list Z :=
  map (fun o => match o with Some id => val id | None => 0 end) ids.

Lemma spread_values val ids : spread ids (map val (query_ids ids)) = slot_values val ids.
Proof. induction ids as [|[i|] ids IH]; cbn; [done| |]; by f_equal. Qed.

Lemma slot_values_none val ids : query_ids ids = [] -> slot_values val ids = replicate (length ids) 0.
Proof. induction ids as [|[i|] ids IH]; cbn; intros E; [done|discriminate|]. f_equal. by apply IH. Qed.

Lemma xstat_value_slot val ids i : (i < length ids)%nat -> xstat_value ids (slot_values val ids) i = slot_values val ids !! i.
Proof.
  intros Hi. unfold xstat_value, slot_values. rewrite lookup_map.
  destruct (ids !! i) as [[id|]|] eqn:E; [done|done|].
  apply lookup_ge_None in E. lia.
Qed.

Lemma xstat_apply_slots val ids :
  length ids = 13%nat -> exists c, xstat_apply ids (slot_values val ids) = Some c /\ eni_list c = slot_values val ids.
Proof.
  intros Hl. unfold xstat_apply. rewrite !xstat_value_slot by lia. 
  assert (length (slot_values val ids) = 13%nat) as Hs by (unfold slot_values; by rewrite length_map).
  revert Hs. generalize (slot_values val ids) as vs. clear. intros vs Hs.
  do 13 (destruct vs as [|? vs]; [discriminate|]). destruct vs; [|discriminate].
  eexists. split; reflexivity.
Qed.

Lemma xstat_error_list c : eni_list (xstat_apply_on_error c) = replicate 5 0 ++ drop 5 (eni_list c).
Proof. reflexivity. Qed.

(** The scrape of the driver's statistics (scrape of ena_xstats.rs): it never panics.
    When the driver answers the query, every counter becomes the driver's value of the
    statistic of its name and zero when the driver has none of that name, the dense list
    of queried identifiers being scattered back to the right slots; when the driver fails
    or answers short, the five allowance snapshots become zero and the eight cumulative
    counters keep their values. *)
Theorem scrape_exact (lookup : text -> option Z) (get_by_id : list Z -> Z * list Z) (val : Z -> Z) (c : EniCounters) :
  (forall q, fst (get_by_id q) = zlen q -> snd (get_by_id q) = map val q) ->
  let ids := from_lookup lookup in
  exists c', scrape ids get_by_id c = Some c' /\
    eni_list c' =
      if (zlen (query_ids ids) =? 0) || (fst (get_by_id (query_ids ids)) =? zlen (query_ids ids))
      then slot_values val ids
      else replicate 5 0 ++ drop 5 (eni_list c).
Proof.
  intros Hg ids. unfold scrape. specialize (Hg (query_ids ids)).
  destruct (query_ids ids) as [|q qs] eqn:Eq.
  - rewrite <- (slot_values_none val) by done. by apply xstat_apply_slots.
  - destruct (get_by_id (q :: qs)) as [rc got]. cbn [fst snd] in *.
    rewrite (proj2 (Z.eqb_neq (zlen (q :: qs)) 0)) by (rewrite zlen_cons; pose proof (zlen_nonneg qs); lia). cbn [orb].
    destruct (rc =? _) eqn:E; cbn [apply_scrape_result].
    + breflect. rewrite Hg by done. rewrite <- Eq, spread_values. by apply xstat_apply_slots.
    + eexists. split; [reflexivity|apply xstat_error_list].
Qed.

(** ** Resolution of the identifiers *)

(** A name as the driver stores it: NUL-terminated in a 64-byte array. *)
Definition raw_name (n : text) : list Z := n ++ replicate (64 - length n) 0.

Definition plain_name (n : text) : Prop := (length n < 64)%nat /\ Forall (fun b => b <> 0) n.

Lemma c_str_app n k rest : Forall (fun b => b <> 0) n -> (0 < k)%nat -> c_str (n ++ replicate k 0 ++ rest) = n.
Proof.
  intros H Hk. induction H as [|b n Hb Hn IH]; cbn [app c_str].
  - destruct k; [lia|]. done.
  - rewrite (proj2 (Z.eqb_neq b 0)) by done. by f_equal.
Qed.

Lemma c_str_raw n : plain_name n -> c_str (take 64 (raw_name n)) = n.
Proof.
  intros [Hl Hn]. unfold raw_name. rewrite take_ge by (rewrite length_app, length_replicate; lia).
  rewrite <- (app_nil_r (replicate _ _)). apply c_str_app; [done|lia].
Qed.

Lemma name_position_find wanted names : forall i, Forall plain_name names ->
  name_position i wanted (map raw_name names) =
    (fun k => i + Z.of_nat k) <$> (fst <$> list_find (fun n => n = wanted) names).
Proof.
  induction names as [|n names IH]; intros i H; [done|]. apply Forall_cons in H as [Hn Hns].
  cbn [map name_position list_find]. rewrite c_str_raw by done.
  case_bool_decide as E; [rewrite decide_True by done; cbn -[Z.of_nat]; f_equal; lia|rewrite decide_False by done].
  rewrite IH by done. destruct (list_find _ names) as [[k x]|]; cbn -[Z.of_nat]; [f_equal; lia|done].
Qed.

(** The probe and the fetch: a set of names that grew in between is cut to the buffer of
    the probe, and every identifier is the position of its name. *)
Lemma resolve_xstat_ids_exact names n got :
  Forall plain_name names -> 0 < n -> 0 < got -> n <= zlen names ->
  resolve_xstat_ids n (got, map raw_name names) =
    from_lookup (fun wanted =>
      (fun k => Z.of_nat k) <$> (fst <$> list_find (fun m => m = wanted) (take (Z.to_nat (Z.min got n)) names))).
Proof.
  intros Hp Hn Hg Hlen. unfold resolve_xstat_ids, clamped_names_len.
  rewrite (proj2 (Z.leb_gt n 0)), (proj2 (Z.leb_gt got 0)) by lia.
  unfold from_lookup. apply map_ext. intros w. rewrite firstn_map.
  rewrite name_position_find by by apply Forall_take. by destruct (list_find _ _) as [[k x]|].
Qed.

(** ** Properties of the memory-type check *)

Inductive MemType := MtWriteCombining | MtUncached | MtUncachedMinus | MtWriteThrough | MtWriteProtected | MtWriteBack.

#[export] Instance MemType_eq_dec : EqDecision MemType.
Proof. solve_decision. Defined.

Definition mem_type_name (t : MemType) : text :=
  match t with
  | MtWriteCombining => txt "write-combining"
  | MtUncached => txt "uncached"
  | MtUncachedMinus => txt "uncached-minus"
  | MtWriteThrough => txt "write-through"
  | MtWriteProtected => txt "write-protected"
  | MtWriteBack => txt "write-back"
  end.

Record PatEntry := mkPatEntry { pe_lo : Z; pe_hi : Z; pe_type : MemType }.

(** The lines of the debugfs file. *)
Definition pat_entry_line (e : PatEntry) : text :=
  txt "PAT: [mem 0x" ++ show_hex_padded 16 (pe_lo e) ++ 45 :: txt "0x" ++ show_hex_padded 16 (pe_hi e) ++ 93 :: 32 ::
  mem_type_name (pe_type e).
Definition pat_file (es : list PatEntry) : text := unlines (txt "PAT memtype list:" :: map pat_entry_line es).

Lemma eq_ignore_case_hex w a b : is_u64 a -> is_u64 b ->
  eq_ignore_ascii_case (show_hex_padded w a) (show_hex_padded w b) = (a =? b).
Proof.
  intros Ha Hb. unfold eq_ignore_ascii_case. destruct (a =? b) eqn:Eab; breflect.
  { subst. by apply bool_decide_eq_true. }
  apply bool_decide_eq_false. intros E. apply Eab. apply (f_equal (digits_value 16 U64_MAX 0)) in E. rewrite !digits_value_lower in E.
  rewrite <- !from_str_radix_digits in E
    by first [apply padded_chars; width_lia | apply word_padded; width_lia].
  rewrite !from_str_radix_padded in E by width_lia. by injection E.
Qed.

(** The text before the memory type says nothing about write combining. *)
Lemma find_text_skip c p a b : free_of (Z.eqb c) a -> find_text (c :: p) (a ++ b) = find_text (c :: p) b.
Proof.
  unfold free_of. induction 1 as [|x a Hx Ha IH]; [done|]. cbn [app find_text starts_with]. by rewrite Hx.
Qed.

Lemma before_char_app c w t : free_of (Z.eqb c) w -> before_char c (w ++ c :: t) = Some w.
Proof.
  unfold free_of. induction 1 as [|x w Hx Hw IH]; cbn [app before_char].
  - by rewrite Z.eqb_refl.
  - rewrite Z.eqb_sym, Hx. cbn [app] in IH. by rewrite IH.
Qed.

Lemma hex_free c w n : 0 <= n -> c < 48 \/ 102 < c -> free_of (Z.eqb c) (show_hex_padded w n).
Proof.
  intros Hn Hc. unfold free_of. eapply Forall_impl; [by apply hex_padded_chars|]. intros x Hx. cbn beta in Hx. apply Z.eqb_neq. lia.
Qed.

Lemma pat_line_entry needle e : is_u64 needle -> is_u64 (pe_lo e) -> is_u64 (pe_hi e) ->
  pat_line (show_hex_padded 16 needle) (pat_entry_line e) =
    if pe_lo e =? needle
    then Some (if bool_decide (pe_type e = MtWriteCombining) then WriteCombining else OtherMapping) else None.
Proof.
  intros Hn Hlo Hhi. unfold pat_line, pat_entry_line.
  set (rest := show_hex_padded 16 (pe_lo e) ++ _).
  change (find_text MEM_PREFIX (txt "PAT: [mem 0x" ++ rest)) with (Some (MEM_PREFIX ++ rest)).
  cbn [mbind option_bind]. rewrite drop_app_length. subst rest.
  rewrite before_char_app by (apply hex_free; width_lia). cbn [mbind option_bind].
  rewrite eq_ignore_case_hex by done. destruct (_ =? _); cbn [negb]; [|done].
  unfold contains. change (txt "write-combining") with (119 :: txt "rite-combining").
  rewrite find_text_skip by by repeat constructor.
  rewrite find_text_skip by (apply hex_free; width_lia).
  rewrite app_comm_cons, find_text_skip by by repeat constructor.
  rewrite find_text_skip by (apply hex_free; width_lia). by destruct (pe_type e).
Qed.

Lemma pat_entry_newline e : is_u64 (pe_lo e) -> is_u64 (pe_hi e) -> free_of (Z.eqb NEWLINE) (pat_entry_line e).
Proof.
  intros Hlo Hhi. unfold pat_entry_line. rewrite !free_of_app, free_of_cons, !free_of_app, !free_of_cons.
  repeat split; try done; try (apply hex_free; unfold NEWLINE; width_lia); try by repeat constructor.
  by destruct (pe_type e); repeat constructor.
Qed.

Lemma pat_entry_strip e : strip_cr (pat_entry_line e) = pat_entry_line e.
Proof.
  assert (exists p, pat_entry_line e = p ++ mem_type_name (pe_type e)) as [p ->].
  { unfold pat_entry_line. repeat first [exists []; reflexivity | apply suffix_app_r | apply suffix_cons_r]. }
  by destruct (pe_type e); (apply strip_cr_word; [|repeat constructor]).
Qed.

(** The memory-type check (parse_pat_memtype_list of wc_verify.rs): over the kernel's
    list of memory ranges in any order and of any types, the verdict for the card's memory
    is write-combining exactly when the first range that starts at its address has that
    type, another mapping when that range has another type, and not found when no range
    starts there. *)
Theorem pat_lookup (es : list PatEntry) (bar : Z) :
  is_u64 bar -> Forall (fun e => is_u64 (pe_lo e) /\ is_u64 (pe_hi e)) es ->
  parse_pat_memtype_list (pat_file es) bar =
    match List.find (fun e => pe_lo e =? bar) es with
    | Some e => if bool_decide (pe_type e = MtWriteCombining) then WriteCombining else OtherMapping
    | None => NotFound
    end.
Proof.
  intros Hb He. unfold parse_pat_memtype_list, pat_file. rewrite lines_unlines.
  - cbn [map]. change (pat_scan ?n (strip_cr (txt "PAT memtype list:") :: ?l)) with (pat_scan n l).
    induction He as [|e es [Hlo Hhi] _ IH]; [done|]. cbn [map pat_scan List.find].
    rewrite pat_entry_strip, pat_line_entry by done. destruct (_ =? bar); [done|exact IH].
  - constructor; [by repeat constructor|]. apply Forall_map. eapply Forall_impl; [exact He|].
    intros e [? ?]. by apply pat_entry_newline.
Qed.

(** ** The verdict on low-latency queues *)

(** The whole truth table of the check at bring-up: only a recorded verdict can stop
    an engine, and it does so unless it saw an activation and no failure. *)
Lemma llq_refused_iff driver_name verdict :
  verify_llq_activation_from_global driver_name verdict = (false, 1) <->
  is_ena driver_name = true /\
  exists v, verdict = Some v /\ captured v = true /\ (has_failure v = true \/ has_activation v = false).
Proof.
  unfold verify_llq_activation_from_global. split.
  - destruct (is_ena driver_name); [|done]. destruct verdict as [[act fail cap]|]; [|done].
    destruct cap; [|done]. intros E. split; [done|]. eexists. split; [done|]. split; [done|].
    destruct fail, act; try done; [by left|by left|by right].
  - intros (-> & v & -> & Hc & Hf). cbn [negb]. rewrite Hc. cbn [negb]. by destruct Hf as [-> | ->]; [|rewrite orb_true_r].
Qed.

(** Recording a log that is not blank and checking the verdict is checking the log. *)
Lemma llq_record_then_verify driver_name log : trim_text log <> [] ->
  verify_llq_activation_from_global driver_name (record_eal_init_log_verdict log None) =
    verify_llq_activation driver_name log.
Proof. intros Hne. unfold record_eal_init_log_verdict. by destruct (trim_text log). Qed.

(** The verdict of a failed initialisation outlives it: when the first call of eal_init
    fails after the driver logged no activation, a second call that succeeds and logs
    the activation does not replace the verdict, and no engine on the card starts. *)
Theorem stale_llq_verdict (args args' : list text) (dpdk dpdk' : list text -> EalAnswer) (log : text) (s : EalState)
    (driver_name : list Z) :
  eal_done s = false -> eal_verdict s = None -> existsb has_nul args = false -> is_ena driver_name = true ->
  ea_rc (dpdk (args ++ [LLQ_LOG_LEVEL])) < 0 -> ea_log (dpdk (args ++ [LLQ_LOG_LEVEL])) = Some log ->
  trim_text log <> [] -> existsb (contains log) LLQ_ACTIVATION_MARKERS = false ->
  let s1 := snd (eal_init false args dpdk s) in
  let s2 := snd (eal_init false args' dpdk' s1) in
  verify_llq_activation_from_global driver_name (eal_verdict s2) = (false, 1).
Proof.
  intros Hd Hv Ha He Hrc Hlog Hne Hact s1 s2.
  assert (existsb has_nul (args ++ [LLQ_LOG_LEVEL]) = false) as Hn by by rewrite existsb_app, Ha.
  assert (s1 = mkEalState false (Some (scan_log_for_verdict log))) as E1.
  { subst s1. unfold eal_init. rewrite Hd, Hn, Hlog, (proj2 (Z.ltb_lt _ 0)) by done. cbn [snd].
    unfold record_eal_init_log_verdict. rewrite Hv. by destruct (trim_text log). }
  assert (eal_verdict s2 = Some (scan_log_for_verdict log)) as ->.
  { subst s2. rewrite E1. unfold eal_init. cbn [eal_done eal_verdict].
    destruct (existsb has_nul (args' ++ _)); [done|].
    assert (forall l, record_eal_init_log_verdict l (Some (scan_log_for_verdict log)) = Some (scan_log_for_verdict log)) as R.
    { intros l. unfold record_eal_init_log_verdict. by destruct (trim_text l). }
    set (a := dpdk' (args' ++ [LLQ_LOG_LEVEL])). destruct (ea_log a) as [l|]; rewrite ?R; by destruct (ea_rc a <? 0). }
  apply llq_refused_iff. split; [done|]. eexists. split; [reflexivity|]. split; [done|]. right. exact Hact.
Qed.

(** ** Concrete answers *)

Definition sample_pat : list PatEntry :=
  [mkPatEntry 0xfea00000 0xfeb00000 MtUncachedMinus; mkPatEntry 0xfe900000 0xfea00000 MtWriteCombining].

Lemma pat_lookup_witness :
  parse_pat_memtype_list (pat_file sample_pat) 0xfe900000 = WriteCombining /\
  parse_pat_memtype_list (pat_file sample_pat) 0xfea00000 = OtherMapping /\
  parse_pat_memtype_list (pat_file sample_pat) 0xfe900001 = NotFound.
Proof.
  assert (Forall (fun e => is_u64 (pe_lo e) /\ is_u64 (pe_hi e)) sample_pat) as H.
  { unfold sample_pat. rewrite !Forall_cons. cbn. split_and!; try constructor; width_lia. }
  split_and!; [exact (pat_lookup sample_pat 0xfe900000 ltac:(width_lia) H)
    |exact (pat_lookup sample_pat 0xfea00000 ltac:(width_lia) H)|exact (pat_lookup sample_pat 0xfe900001 ltac:(width_lia) H)].
Defined.

(** A driver with two of the names, the second identifier answering 9; and its failure. *)
Definition sample_lookup (n : text) : option Z :=
  if bool_decide (n = txt "tx_q0_doorbells") then Some 7
  else if bool_decide (n = txt "bw_out_allowance_exceeded") then Some 3 else None.
Definition sample_eni : EniCounters := mkEniCounters 1 1 1 1 1 5 5 5 5 5 5 5 5.

Lemma scrape_exact_witness :
  (exists c, scrape (from_lookup sample_lookup) (fun q => (zlen q, map (Z.add 2) q)) sample_eni = Some c /\
     eni_list c = [0; 5; 0; 0; 0; 0; 9; 0; 0; 0; 0; 0; 0]) /\
  (exists c, scrape (from_lookup sample_lookup) (fun _ => (-5, [])) sample_eni = Some c /\
     eni_list c = [0; 0; 0; 0; 0; 5; 5; 5; 5; 5; 5; 5; 5]).
Proof.
  split.
  - exact (scrape_exact sample_lookup (fun q => (zlen q, map (Z.add 2) q)) (Z.add 2) sample_eni (fun q _ => eq_refl)).
  - apply (scrape_exact sample_lookup (fun _ => (-5, [])) (Z.add 2) sample_eni).
    intros q. cbn [fst]. pose proof (zlen_nonneg q). lia.
Defined.
