(* ===== verification/Fault.v ===== *)
(** * Fault injection on the receive path: fault_injector.rs

    [process] and the release of the ring.  The comparison of a random float with a
    configured rate is one boolean of [Draws]; the configuration is read in [FaultConfig].
    [chain] is DPDK's segment list of a packet, head included; freeing a packet frees each
    of its segments. *)

From S2P Require Import Prelude.
From S2P Require Import Mbuf.

(** [rate > 0.0 && rng.gen() < rate] for each action, and the two draws of the
    corruption. *)
Record Draws := mkDraws {
  d_drop : bool;
  d_corrupt : bool;
  d_idx : Z;
  d_xor : Z;
  d_dup : bool;
  d_reorder : bool
}.

Inductive FaultCounter := FcDrops | FcCorrupts | FcDups | FcReorders.

Definition RING_CAP : nat := 16.

Section FaultInjector.
Context (chain : MbufId -> list MbufId).

(** [shim_rte_pktmbuf_free]. *)
Definition free_chain (m : MbufId) : list MbufOp := FreeSeg <$> chain m.

(** The injector's state is its ring ([None] until the first reorder); the packet's
    bytes are returned because corruption writes them. *)
Record Processed := mkProcessed {
  fp_out : list MbufId;
  fp_ring : option (list MbufId);
  fp_data : list Z;
  fp_ops : list MbufOp;
  fp_counters : list FaultCounter
}.

(** Stage 2. *)
Definition corrupt (d : Draws) (data : list Z) : list Z * list FaultCounter :=
  if d_corrupt d && (0 <? zlen data) then
    let idx := Z.to_nat (d_idx d) in
    let xor := Z.max (d_xor d) 1 in
    (alter (fun b => Z.lxor b xor) idx data, [FcCorrupts])
  else (data, []).

(** Stage 4: [out.pop()], then the ring. *)
Definition reorder (ring : option (list MbufId)) (out : list MbufId) : list MbufId * option (list MbufId) * list FaultCounter :=
  match last out with
  | Some held =>
      let out := take (length out - 1) out in
      let r := default [] ring in
      if (length r =? RING_CAP)%nat then
        match r with
        | evict :: r => (out ++ [evict], Some (r ++ [held]), [FcReorders])
        | [] => (out, Some [held], [FcReorders])
        end
      else (out, Some (r ++ [held]), [FcReorders])
  | None => (out, ring, [])
  end.

Definition process (ring : option (list MbufId)) (d : Draws) (mbuf : MbufId) (data : list Z) : Processed :=
  if d_drop d then mkProcessed [] ring data (free_chain mbuf) [FcDrops] else
  let '(data, c2) := corrupt d data in
  let out := [mbuf] in
  let '(out, ops, c3) :=
    if d_dup d then (out ++ [mbuf], (fun s => RefcntUpdate s 1) <$> chain mbuf, [FcDups]) else (out, [], []) in
  let '(out, ring, c4) := if d_reorder d then reorder ring out else (out, ring, []) in
  mkProcessed out ring data ops (c2 ++ c3 ++ c4).

(** [Drop for FaultInjector]. *)
Definition injector_drop (ring : option (list MbufId)) : list MbufOp :=
  match ring with Some r => mbind free_chain r | None => [] end.

(** ** References *)

(** References to segment [m] held by packets in hand. *)
Definition held (m : MbufId) (packets : list MbufId) : Z :=
  zsum (fun p => zsum (fun s => if s =? m then 1 else 0) (chain p)) packets.

Definition ring_ok (ring : option (list MbufId)) : Prop := (length (default [] ring) <= RING_CAP)%nat.

Lemma held_app m a b : held m (a ++ b) = held m a + held m b.
Proof. apply zsum_app. Qed.
Lemma held_cons m p a : held m (p :: a) = held m [p] + held m a.
Proof. unfold held. rewrite !zsum_cons, zsum_nil. lia. Qed.
Lemma held_nil m : held m [] = 0.
Proof. done. Qed.

Lemma free_chain_delta m p : ref_delta m (free_chain p) = - held m [p].
Proof.
  unfold free_chain, held, ref_delta. rewrite zsum_cons, zsum_nil.
  induction (chain p) as [|s l IH]; [done|]. rewrite fmap_cons, !zsum_cons. cbn [op_delta]. destruct (s =? m); lia.
Qed.

Lemma bump_chain_delta m p : ref_delta m ((fun s => RefcntUpdate s 1) <$> chain p) = held m [p].
Proof.
  unfold held, ref_delta. rewrite zsum_cons, zsum_nil.
  induction (chain p) as [|s l IH]; [done|]. rewrite fmap_cons, !zsum_cons. cbn [op_delta]. destruct (s =? m); lia.
Qed.

Lemma reorder_spec ring out : ring_ok ring ->
  let '(out', ring', _) := reorder ring out in
  ring_ok ring' /\ (forall m, held m out' + held m (default [] ring') = held m out + held m (default [] ring)) /\
  (length out' <= length out)%nat.
Proof.
  intros Hr. unfold reorder, ring_ok in *. destruct (last out) as [h|] eqn:El; [|done].
  apply last_Some in El as [l ->]. rewrite length_app. cbn [length].
  replace (length l + 1 - 1)%nat with (length l) by lia. rewrite take_app_length.
  set (r := default [] ring) in *.
  destruct (Nat.eqb_spec (length r) RING_CAP) as [E|E]; [destruct r as [|ev r]; [done|]|];
    cbn [default] in *; unfold id; rewrite ?length_app; cbn [length] in *; (split; [lia|]); (split; [|rewrite ?length_app; cbn [length]; lia]);
    intros m; rewrite ?held_app, ?(held_cons m ev r); lia.
Qed.

(** Fault injection keeps the books: whatever is dropped, corrupted, duplicated or
    held back, the references the injector takes over (the packet and its ring) plus the
    reference-count calls it makes are exactly those it hands on plus those it still
    holds; the ring never exceeds sixteen packets, at most two packets come out, a
    corruption changes the packet in place without resizing it, and releasing the ring
    frees exactly what it held. *)
Theorem process_conserves_refs (ring : option (list MbufId)) (d : Draws) (mbuf : MbufId) (data : list Z)
    (Hring : ring_ok ring) :
  let p := process ring d mbuf data in
  ring_ok (fp_ring p) /\ (length (fp_out p) <= 2)%nat /\ length (fp_data p) = length data /\
  forall m, held m (fp_out p) + held m (default [] (fp_ring p)) =
              held m [mbuf] + held m (default [] ring) + ref_delta m (fp_ops p) /\
            held m (default [] ring) + ref_delta m (injector_drop ring) = 0.
Proof.
  assert (Hdrop : forall m, held m (default [] ring) + ref_delta m (injector_drop ring) = 0).
  { intros m. destruct ring as [r|]; [|done]. cbn [default injector_drop]. unfold id. clear Hring.
    induction r as [|p r IH]; [done|]. rewrite held_cons, bind_cons, ref_delta_app, free_chain_delta. lia. }
  cbv zeta. unfold process. destruct (d_drop d).
  { cbn [fp_ring fp_out fp_data fp_ops]. split_and!; [done|cbn; lia|done|]. intros m.
    split; [|apply Hdrop]. rewrite free_chain_delta, held_nil. lia. }
  assert (Hlen : length (corrupt d data).1 = length data).
  { unfold corrupt. destruct (_ && _)%bool; [|done]. cbn. apply length_alter. }
  destruct (corrupt d data) as [data' c2]. cbn [fst] in Hlen.
  set (st := if d_dup d then _ else _).
  assert (Hst : (length st.1.1 <= 2)%nat /\ forall m, held m st.1.1 = held m [mbuf] + ref_delta m st.1.2).
  { subst st. destruct (d_dup d); cbn [fst snd].
    - split; [cbn; lia|]. intros m. rewrite bump_chain_delta, held_app. lia.
    - split; [cbn; lia|]. intros m. rewrite ref_delta_nil. lia. }
  destruct st as [[out ops] c3]. cbn [fst snd] in Hst. destruct Hst as [Hl Hs].
  pose proof (reorder_spec ring out Hring) as Hre. destruct (d_reorder d).
  - destruct (reorder ring out) as [[out' ring'] c4]. destruct Hre as (R1 & R2 & R3).
    cbn [fp_ring fp_out fp_data fp_ops]. split_and!; [done|lia|done|]. intros m. split; [|apply Hdrop].
    rewrite R2, Hs. lia.
  - cbn [fp_ring fp_out fp_data fp_ops]. split_and!; [done|done|done|]. intros m. split; [|apply Hdrop].
    rewrite Hs. lia.
Qed.
End FaultInjector.

Lemma process_conserves_refs_witness :
  let chain := fun p => [p; p + 1] in
  let p := process chain (Some [10; 20]) (mkDraws false true 1 0 true true) 30 [1; 2; 3] in
  fp_out p = [30] /\ fp_ring p = Some [10; 20; 30] /\ fp_data p = [1; 3; 3] /\
  held chain 31 (fp_out p) + held chain 31 (default [] (fp_ring p)) =
    held chain 31 [30] + held chain 31 [10; 20] + ref_delta 31 (fp_ops p).
Proof.
  cbv zeta. split; [reflexivity|]. split; [reflexivity|]. split; [reflexivity|].
  apply (process_conserves_refs (fun p => [p; p + 1]) (Some [10; 20]) (mkDraws false true 1 0 true true) 30 [1; 2; 3]).
  vm_compute. lia.
Defined.
