(* ===== verification/FaultConfig.v ===== *)
(** * Configuration of the fault injector: fault_injector.rs

    The injector is set up by one environment variable, a list of assignments of rates and a
    seed.  [F] is [f32]: how it is read from text, and the tests made of it, are parameters. *)

From S2P Require Import Prelude.
From S2P Require Import Text.

Definition COMMA : Z := 44.
Definition EQUALS : Z := 61.

(** [split_once]. *)
Fixpoint split_once (c : Z) (t : text) : option (text * text) :=
  match t with
  | [] => None
  | a :: t => if a =? c then Some ([], t) else '(k, v) ← split_once c t; Some (a :: k, v)
  end.

Inductive FaultConfigParseError :=
  | UnknownKey (key : text)
  | InvalidValue (key value : text)
  | RateOutOfRange (key value : text).

Section FaultConfig.
Context {F : Type} (zero : F) (parse_f32 : text -> option F) (is_finite in_unit : F -> bool).

Record FaultConfig := mkFaultConfig {
  fc_drop_rate : F;
  fc_dup_rate : F;
  fc_reorder_rate : F;
  fc_corrupt_rate : F;
  fc_seed : Z
}.
#[export] Instance FaultConfig_eta : Settable FaultConfig := fun c =>
  mkFaultConfig (fc_drop_rate c) (fc_dup_rate c) (fc_reorder_rate c) (fc_corrupt_rate c) (fc_seed c).
Definition fault_config_default : FaultConfig := mkFaultConfig zero zero zero zero 0.

Definition parse_rate (key value : text) : result F FaultConfigParseError :=
  match parse_f32 value with
  | None => Err (InvalidValue key value)
  | Some parsed => if negb (is_finite parsed) || negb (in_unit parsed) then Err (RateOutOfRange key value) else Ok parsed
  end.

(** The assignment of one entry. *)
Definition set_key (key value : text) (cfg : FaultConfig) : result FaultConfig FaultConfigParseError :=
  let rate (put : F -> FaultConfig) := match parse_rate key value with Ok r => Ok (put r) | Err e => Err e end in
  if bool_decide (key = txt "drop") then rate (fun r => cfg <| fc_drop_rate := r |>)
  else if bool_decide (key = txt "dup") then rate (fun r => cfg <| fc_dup_rate := r |>)
  else if bool_decide (key = txt "reorder") then rate (fun r => cfg <| fc_reorder_rate := r |>)
  else if bool_decide (key = txt "corrupt") then rate (fun r => cfg <| fc_corrupt_rate := r |>)
  else if bool_decide (key = txt "seed") then
    match from_str_radix 10 U64_MAX value with
    | Some s => Ok (cfg <| fc_seed := s |>)
    | None => Err (InvalidValue key value)
    end
  else Err (UnknownKey key).

Definition parse_entry (entry : text) (cfg : FaultConfig) : result FaultConfig FaultConfigParseError :=
  let entry := trim_text entry in
  if bool_decide (entry = []) then Ok cfg else
  match split_once EQUALS entry with
  | None => Err (InvalidValue entry [])
  | Some (key, value) => set_key (trim_text key) (trim_text value) cfg
  end.

Fixpoint parse_entries (entries : list text) (cfg : FaultConfig) : result FaultConfig FaultConfigParseError :=
  match entries with
  | [] => Ok cfg
  | e :: entries => match parse_entry e cfg with Ok cfg => parse_entries entries cfg | Err e => Err e end
  end.

Definition parse_fault_config (spec : text) : result FaultConfig FaultConfigParseError :=
  let spec := trim_text spec in
  if bool_decide (spec = []) then Ok fault_config_default else parse_entries (split_char COMMA spec) fault_config_default.

(** [from_env]: the value of the variable, when it is set to text. *)
Definition fault_config_from_env (var : option text) : option FaultConfig :=
  raw ← var;
  if bool_decide (trim_text raw = []) then None else
  match parse_fault_config raw with Ok cfg => Some cfg | Err _ => None end.

(** The seed the generator starts from. *)
Definition fault_seed (cfg : FaultConfig) (boot_nonce_seed : Z) : Z := if negb (fc_seed cfg =? 0) then fc_seed cfg else boot_nonce_seed.

(** ** Rates are rates *)

Definition is_rate (r : F) : Prop := r = zero \/ (is_finite r = true /\ in_unit r = true).
Record rates_ok (cfg : FaultConfig) : Prop := {
  ro_drop : is_rate (fc_drop_rate cfg);
  ro_dup : is_rate (fc_dup_rate cfg);
  ro_reorder : is_rate (fc_reorder_rate cfg);
  ro_corrupt : is_rate (fc_corrupt_rate cfg);
  ro_seed : is_u64 (fc_seed cfg)
}.

Lemma parse_rate_ok key value r : parse_rate key value = Ok r -> is_rate r.
Proof.
  unfold parse_rate, is_rate. destruct (parse_f32 value) as [p|]; [|done].
  destruct (negb (is_finite p) || negb (in_unit p)) eqn:E; [done|]. intros [= <-]. right.
  apply orb_false_iff in E as [E1 E2]. by apply negb_false_iff in E1, E2.
Qed.

Lemma from_str_u64 t v : from_str_radix 10 U64_MAX t = Some v -> is_u64 v.
Proof.
  assert (D : forall t acc v, 0 <= acc <= U64_MAX -> digits_value 10 U64_MAX acc t = Some v -> is_u64 v).
  { clear. induction t as [|c t IH]; intros acc v Ha; cbn [digits_value]; [intros [= <-]; unfold is_u64, two64, U64_MAX in *; lia|].
    unfold to_digit. match goal with |- context [if ?x <? 10 then _ else _] => set (d := x) end.
    assert (Hd : 0 <= d) by (unfold d; repeat case_match; breflect; lia). clearbody d.
    destruct (d <? 10); [|done]. cbn [mbind option_bind]. destruct (Z.ltb_spec U64_MAX (acc * 10)); [done|].
    destruct (Z.ltb_spec U64_MAX (acc * 10 + d)) as [|Hle]; [done|]. apply IH. lia. }
  unfold from_str_radix. destruct t as [|c [|c' t]]; [done| |]; [apply D; unfold U64_MAX; lia|].
  destruct (c =? PLUS); apply D; unfold U64_MAX; lia.
Qed.

Lemma set_key_ok key value cfg cfg' : rates_ok cfg -> set_key key value cfg = Ok cfg' -> rates_ok cfg'.
Proof.
  intros [H1 H2 H3 H4 H5]. unfold set_key. destruct (parse_rate key value) as [r|] eqn:Er.
  - pose proof (parse_rate_ok _ _ _ Er) as Hr. repeat case_match; intros E; simplify_eq; split; cbn; try done. by eapply from_str_u64.
  - repeat case_match; intros E; simplify_eq; split; cbn; try done. by eapply from_str_u64.
Qed.

Lemma parse_entries_ok entries : forall cfg cfg', rates_ok cfg -> parse_entries entries cfg = Ok cfg' -> rates_ok cfg'.
Proof.
  induction entries as [|e entries IH]; intros cfg cfg' Hc; cbn [parse_entries]; [by intros [= <-]|].
  destruct (parse_entry e cfg) as [cfg1|] eqn:Ee; [|done]. apply IH. unfold parse_entry in Ee. case_bool_decide; [by simplify_eq|].
  destruct (split_once _ _) as [[k v]|]; [|done]. by eapply set_key_ok.
Qed.

(** Whatever the variable holds, a configuration that is accepted has only rates: finite and
    between zero and one; a variable that is refused leaves the injector out. *)
Theorem parsed_rates_ok spec cfg : parse_fault_config spec = Ok cfg -> rates_ok cfg.
Proof.
  assert (H0 : rates_ok fault_config_default) by (split; first [by left|by split]). unfold parse_fault_config.
  case_bool_decide; [by intros [= <-]|]. by apply parse_entries_ok.
Qed.

(** ** Writing a configuration and reading it back *)

Context (show_f32 : F -> text).

Definition assignment (key : String.string) (value : text) : text := txt key ++ EQUALS :: value.
Definition show_fault_config (cfg : FaultConfig) : text :=
  join COMMA [assignment "drop" (show_f32 (fc_drop_rate cfg)); assignment "dup" (show_f32 (fc_dup_rate cfg));
              assignment "reorder" (show_f32 (fc_reorder_rate cfg)); assignment "corrupt" (show_f32 (fc_corrupt_rate cfg));
              assignment "seed" (show 10 (fc_seed cfg))].

Definition breaks (c : Z) : bool := is_whitespace c || (c =? COMMA).
(** A rate is written without white space or a comma, and read back. *)
Record shows_rate (r : F) : Prop := {
  sr_free : free_of breaks (show_f32 r);
  sr_back : parse_f32 (show_f32 r) = Some r;
  sr_rate : is_finite r = true /\ in_unit r = true
}.

Lemma free_weaken (p q : Z -> bool) t : (forall c, p c = false -> q c = false) -> free_of p t -> free_of q t.
Proof. intros H Ht. eapply Forall_impl; [exact Ht|]. exact H. Qed.

Lemma trim_solid t : free_of is_whitespace t -> trim_text t = t.
Proof.
  assert (D : forall t, free_of is_whitespace t -> trim_start t = t) by (intros [|c l] H; [done|]; apply Forall_cons in H as [Hc _]; cbn; by rewrite Hc).
  intros H. unfold trim_text. rewrite (D t H), D by (by apply Forall_rev). apply rev_involutive.
Qed.

Lemma split_once_at k v : free_of (Z.eqb EQUALS) k -> split_once EQUALS (k ++ EQUALS :: v) = Some (k, v).
Proof.
  induction 1 as [|c k Hc _ IH]; [done|]. cbn [app split_once]. rewrite Z.eqb_sym, Hc, IH. done.
Qed.

Lemma breaks_space c : breaks c = false -> is_whitespace c = false.
Proof. unfold breaks. by destruct (is_whitespace c). Qed.

Lemma parse_assignment key value cfg : free_of breaks (txt key) -> free_of (Z.eqb EQUALS) (txt key) -> free_of breaks value ->
  parse_entry (assignment key value) cfg = set_key (txt key) value cfg.
Proof.
  intros Hk Hke Hv. assert (Hf : free_of is_whitespace (assignment key value)).
  { unfold assignment. apply Forall_app. split; [by eapply free_weaken, Hk; exact breaks_space|]. constructor; [done|]. by eapply free_weaken, Hv; exact breaks_space. }
  unfold parse_entry. rewrite trim_solid by done. rewrite bool_decide_eq_false_2 by (unfold assignment; intros E; by apply app_eq_nil in E as [_ ?]).
  unfold assignment. rewrite split_once_at by done.
  rewrite !trim_solid; [done|by eapply free_weaken, Hv; exact breaks_space|by eapply free_weaken, Hk; exact breaks_space].
Qed.

Lemma key_free key : forallb (fun c => negb (breaks c) && negb (c =? EQUALS)) (txt key) = true ->
  free_of breaks (txt key) /\ free_of (Z.eqb EQUALS) (txt key).
Proof.
  rewrite forallb_forall. intros H. split; apply Forall_forall; intros c Hc; apply list_elem_of_In, H in Hc; apply andb_true_iff in Hc as [H1 H2].
  - by apply negb_true_iff in H1.
  - rewrite Z.eqb_sym. by apply negb_true_iff in H2.
Qed.

Lemma parse_rate_back key r : shows_rate r -> parse_rate key (show_f32 r) = Ok r.
Proof. intros [_ E [H1 H2]]. unfold parse_rate. by rewrite E, H1, H2. Qed.

Theorem fault_config_roundtrip (cfg : FaultConfig) :
  shows_rate (fc_drop_rate cfg) -> shows_rate (fc_dup_rate cfg) -> shows_rate (fc_reorder_rate cfg) -> shows_rate (fc_corrupt_rate cfg) ->
  is_u64 (fc_seed cfg) -> parse_fault_config (show_fault_config cfg) = Ok cfg.
Proof.
  intros H1 H2 H3 H4 H5.
  assert (Hseed : free_of breaks (show 10 (fc_seed cfg))).
  { apply show_free; [lia|apply H5|]. intros c Hc _. unfold breaks, is_whitespace, COMMA. repeat match goal with |- context [?a <=? ?b] => rewrite (proj2 (Z.leb_gt a b)) by lia end.
    rewrite !(proj2 (Z.eqb_neq c _)) by lia. by rewrite ?andb_false_r. }
  destruct (key_free "drop" eq_refl) as [K1 K1'], (key_free "dup" eq_refl) as [K2 K2'], (key_free "reorder" eq_refl) as [K3 K3'],
    (key_free "corrupt" eq_refl) as [K4 K4'], (key_free "seed" eq_refl) as [K5 K5'].
  assert (Hcomma : forall key v, free_of breaks (txt key) -> free_of breaks v -> free_of (Z.eqb COMMA) (assignment key v)).
  { intros key v Hk Hv. apply Forall_app. split; [|constructor; [done|]]; (eapply free_weaken; [|eassumption]); intros c; unfold breaks;
      rewrite orb_false_iff; intros [_ Hc]; by rewrite Z.eqb_sym. }
  unfold parse_fault_config, show_fault_config. set (l := [_; _; _; _; _]).
  assert (Hsp : free_of is_whitespace (join COMMA l)).
  { unfold l. cbn [join]. unfold assignment. unfold free_of. repeat (rewrite Forall_app || rewrite Forall_cons).
    pose proof (sr_free _ H1). pose proof (sr_free _ H2). pose proof (sr_free _ H3). pose proof (sr_free _ H4).
    repeat split; try done; eapply free_weaken; try exact breaks_space; assumption. }
  rewrite trim_solid by exact Hsp. rewrite bool_decide_eq_false_2 by (unfold l; cbn [join]; unfold assignment; by destruct (txt "drop")).
  unfold split_char. rewrite split_join; [|done| |done].
  2: { unfold l. repeat (apply Forall_cons; split; [apply Hcomma; first [assumption|by apply sr_free]|]). constructor. }
  assert (S1 : forall c r, shows_rate r -> set_key (txt "drop") (show_f32 r) c = Ok (c <| fc_drop_rate := r |>)) by (intros; unfold set_key; by rewrite parse_rate_back).
  assert (S2 : forall c r, shows_rate r -> set_key (txt "dup") (show_f32 r) c = Ok (c <| fc_dup_rate := r |>)) by (intros; unfold set_key; by rewrite parse_rate_back).
  assert (S3 : forall c r, shows_rate r -> set_key (txt "reorder") (show_f32 r) c = Ok (c <| fc_reorder_rate := r |>)) by (intros; unfold set_key; by rewrite parse_rate_back).
  assert (S4 : forall c r, shows_rate r -> set_key (txt "corrupt") (show_f32 r) c = Ok (c <| fc_corrupt_rate := r |>)) by (intros; unfold set_key; by rewrite parse_rate_back).
  unfold l. cbn [parse_entries]. pose proof (sr_free _ H1). pose proof (sr_free _ H2). pose proof (sr_free _ H3). pose proof (sr_free _ H4).
  rewrite parse_assignment, S1 by done. rewrite parse_assignment, S2 by done. rewrite parse_assignment, S3 by done.
  rewrite parse_assignment, S4 by done. rewrite parse_assignment by done. unfold set_key.
  rewrite from_str_radix_show; [|lia|unfold is_u64, two64, U64_MAX in *; lia|done]. by destruct cfg.
Qed.
End FaultConfig.

(** Rates left as text: the parser's tolerance of white space and empty entries, and its errors. *)
Definition sample_parse (s : String.string) : result (FaultConfig (F := text)) FaultConfigParseError :=
  parse_fault_config (txt "0") Some (fun _ => true) (fun _ => true) (txt s).
Arguments sample_parse s%_string_scope.

Example parse_tolerates : sample_parse " drop = 0.1 , , dup=0.05 ,  seed=42" =
  Ok (mkFaultConfig (txt "0.1") (txt "0.05") (txt "0") (txt "0") 42).
Proof. vm_compute. reflexivity. Qed.
Example parse_unknown : sample_parse "foo=0.1" = Err (UnknownKey (txt "foo")).
Proof. vm_compute. reflexivity. Qed.
Example parse_bare_key : sample_parse "drop" = Err (InvalidValue (txt "drop") []).
Proof. vm_compute. reflexivity. Qed.
