(* ===== verification/Events.v ===== *)
(** * The application's event queue: tcp_events.rs

    The default build (no [obs-none]).  An iovec's [base] is the address of the
    packet's data plus the view's offset; [data_ptr] is DPDK's [rte_pktmbuf_data]. *)

From S2P Require Import Prelude.
From S2P Require Import Mbuf.
From S2P Require Import TimerWheel.
From S2P Require Import Conn.

Inductive LossCause := LossRack | LossTlp | LossRto.

(** [DpdkNetIovec]. *)
Record Iovec := mkIovec { iov_base : Z; iov_len : Z }.

Inductive InternalEvent :=
  | EvConnected (conn rx_hw_ts_ns emitted_ts_ns : Z)
  | EvReadable (conn : Z) (segs : list Iovec) (owned_mbufs : list InOrderSegment) (total_len rx_hw_ts_ns emitted_ts_ns : Z)
  | EvClosed (conn err emitted_ts_ns : Z)
  | EvStateChange (conn : Z) (from to : TcpState) (emitted_ts_ns : Z)
  | EvError (conn err emitted_ts_ns : Z)
  | EvTcpRetrans (conn seq rtx_count emitted_ts_ns : Z)
  | EvTcpLossDetected (conn : Z) (cause : LossCause) (emitted_ts_ns : Z)
  | EvApiTimer (timer_id : TimerId) (user_data emitted_ts_ns : Z)
  | EvWritable (conn emitted_ts_ns : Z).

(** Only a readable event holds packet references. *)
Definition event_mbufs (ev : InternalEvent) : list InOrderSegment :=
  match ev with EvReadable _ _ owned _ _ _ => owned | _ => [] end.

#[export] Instance InternalEvent_owner : Owner InternalEvent := fun m ev => owned m (event_mbufs ev).

(** Dropping an event drops its handles. *)
Definition drop_event (ev : InternalEvent) : list MbufOp := (fun s => FreeSeg (h_ptr (io_mbuf s))) <$> event_mbufs ev.

Definition clone_segment (s : InOrderSegment) : InOrderSegment * list MbufOp :=
  let '(h, ops) := try_clone (io_mbuf s) in (mkInOrderSegment h (io_offset s) (io_len s), ops).

Definition clone_event (ev : InternalEvent) : InternalEvent * list MbufOp :=
  match ev with
  | EvReadable conn segs owned total hw ts =>
      let cloned := clone_segment <$> owned in
      (EvReadable conn segs (fst <$> cloned) total hw ts, mbind snd cloned)
  | _ => (ev, [])
  end.

(** ** The queue *)

Definition MIN_SOFT_CAP : Z := 64.
Definition DEFAULT_SOFT_CAP : Z := 4096.

Record EventQueue := mkEventQueue {
  eq_q : list InternalEvent;
  eq_soft_cap : Z
}.

#[export] Instance EventQueue_eta : Settable EventQueue := fun q => mkEventQueue (eq_q q) (eq_soft_cap q).

#[export] Instance EventQueue_owner : Owner EventQueue := fun m q => owned m (eq_q q).

(** The two counters of [counters.obs] the queue writes. *)
Record ObsCounters := mkObsCounters { events_dropped : Z; events_queue_high_water : Z }.

(** [None] is the assertion on the capacity. *)
Definition with_cap (cap : Z) : option EventQueue :=
  if MIN_SOFT_CAP <=? cap then Some (mkEventQueue [] cap) else None.

Definition event_push (ev : InternalEvent) (q : EventQueue) (obs : ObsCounters) : EventQueue * ObsCounters * list MbufOp :=
  let '(l, dropped, ops) :=
    if eq_soft_cap q <=? zlen (eq_q q)
    then (tail (eq_q q), u64 (events_dropped obs + 1), match head (eq_q q) with Some old => drop_event old | None => [] end)
    else (eq_q q, events_dropped obs, []) in
  let l := l ++ [ev] in
  (q <| eq_q := l |>, mkObsCounters dropped (Z.max (events_queue_high_water obs) (zlen l)), ops).

Definition event_pop (q : EventQueue) : option InternalEvent * EventQueue :=
  match eq_q q with
  | [] => (None, q)
  | ev :: rest => (Some ev, q <| eq_q := rest |>)
  end.

Definition event_len (q : EventQueue) : Z := zlen (eq_q q).
Definition event_is_empty (q : EventQueue) : bool := match eq_q q with [] => true | _ => false end.

(** Pushing a sequence of events with no pop in between. *)
Fixpoint push_all (evs : list InternalEvent) (q : EventQueue) (obs : ObsCounters) : EventQueue * ObsCounters * list MbufOp :=
  match evs with
  | [] => (q, obs, [])
  | ev :: evs =>
      let '(q, obs, ops) := event_push ev q obs in
      let '(q, obs, ops') := push_all evs q obs in
      (q, obs, ops ++ ops')
  end.

(** ** Laws *)

Lemma drop_event_delta m ev : ref_delta m (drop_event ev) = - owned m ev.
Proof.
  unfold drop_event. change (owned m ev) with (owned m (event_mbufs ev)).
  induction (event_mbufs ev) as [|s l IH]; [done|]. rewrite fmap_cons. refs. rewrite IH.
  unfold owned at 3. unfold InOrderSegment_owner, owned, MbufHandle_owner. destruct (h_ptr (io_mbuf s) =? m); lia.
Qed.

(** Cloning adds exactly the references the clone owns. *)
Lemma clone_event_conserves m ev : owned m (clone_event ev).1 = ref_delta m (clone_event ev).2.
Proof.
  destruct ev as [| ? ? mbufs ? ? ?| | | | | | |]; try done.
  change (owned m (fst <$> (clone_segment <$> mbufs)) = ref_delta m (mbind snd (clone_segment <$> mbufs))).
  induction mbufs as [|s l IH]; [done|]. rewrite !fmap_cons, bind_cons. refs. rewrite IH.
  unfold owned at 1. cbn. unfold InOrderSegment_owner, owned, MbufHandle_owner. cbn. destruct (h_ptr (io_mbuf s) =? m); lia.
Qed.

Lemma zlen_snoc {A} (l : list A) x : zlen (l ++ [x]) = zlen l + 1.
Proof. rewrite zlen_app, zlen_cons, zlen_nil. lia. Qed.

Definition queue_ok (q : EventQueue) : Prop := 0 < eq_soft_cap q /\ zlen (eq_q q) <= eq_soft_cap q.

Lemma event_push_spec ev q obs : queue_ok q ->
  let '(q', obs', ops) := event_push ev q obs in
  queue_ok q' /\ eq_soft_cap q' = eq_soft_cap q /\
  (exists k : nat, eq_q q' = drop k (eq_q q) ++ [ev] /\ Z.of_nat k = Z.max 0 (zlen (eq_q q) + 1 - eq_soft_cap q) /\
     events_dropped obs' = (if (k =? 0)%nat then events_dropped obs else u64 (events_dropped obs + 1)) /\ (k <= 1)%nat) /\
  events_queue_high_water obs' = Z.max (events_queue_high_water obs) (zlen (eq_q q')) /\
  forall m, owned m q' = owned m q + owned m ev + ref_delta m ops.
Proof.
  intros [Hpos Hlen]. unfold event_push. destruct (Z.leb_spec (eq_soft_cap q) (zlen (eq_q q))) as [Hle|Hlt].
  - destruct q as [[|old l] cap]; cbn [eq_q eq_soft_cap field_set tail head] in *; [rewrite zlen_nil in *; lia|].
    rewrite zlen_cons in *. unfold queue_ok. cbn [eq_q eq_soft_cap]. rewrite ?zlen_snoc.
    split_and!; [lia|lia|done| |done|].
    + exists 1%nat. split_and!; [done|lia|done|lia].
    + intros m. rewrite drop_event_delta. unfold owned at 1 2, EventQueue_owner. cbn [eq_q]. refs.
  - unfold queue_ok. cbn [eq_q eq_soft_cap field_set events_dropped events_queue_high_water]. rewrite ?zlen_snoc.
    split_and!; [lia|lia|done| |done|].
    + exists 0%nat. split_and!; [done|lia|done|lia].
    + intros m. unfold owned at 1 2, EventQueue_owner. cbn [eq_q]. refs.
Qed.

(** The event queue between two drains is a sliding window over what was pushed: after
    any sequence of events it holds the newest [soft_cap] of them in order (the oldest
    are discarded and counted), a pop returns the oldest of these, and every packet
    reference that went in is still owned by the queue or was released. *)
Theorem event_queue_keeps_newest (evs : list InternalEvent) (q : EventQueue) (obs : ObsCounters)
    (Hq : queue_ok q) (Hd : 0 <= events_dropped obs) (Hroom : events_dropped obs + zlen evs < two64) :
  let '(q', obs', ops) := push_all evs q obs in
  let all := eq_q q ++ evs in
  let excess := Z.to_nat (zlen all - eq_soft_cap q) in
  eq_q q' = drop excess all /\ queue_ok q' /\
  events_dropped obs' = events_dropped obs + Z.of_nat excess /\
  (event_pop q').1 = head (drop excess all) /\
  forall m, owned m q' = owned m q + owned m evs + ref_delta m ops.
Proof.
  assert (H : let '(q', obs', ops) := push_all evs q obs in
    let all := eq_q q ++ evs in let excess := Z.to_nat (zlen all - eq_soft_cap q) in
    eq_q q' = drop excess all /\ queue_ok q' /\ events_dropped obs' = events_dropped obs + Z.of_nat excess /\
    forall m, owned m q' = owned m q + owned m evs + ref_delta m ops).
  { revert q obs Hq Hd Hroom. induction evs as [|ev evs IH]; intros q obs Hq Hd Hroom; cbn [push_all].
    - destruct Hq as [H1 H2]. rewrite app_nil_r. replace (Z.to_nat _) with 0%nat by lia.
      split_and!; [done|done|lia|]. intros m. refs.
    - rewrite zlen_cons in Hroom. pose proof (zlen_nonneg evs).
      pose proof (event_push_spec ev q obs Hq) as Hs. destruct (event_push ev q obs) as [[q1 obs1] ops1].
      destruct Hs as (Hok1 & Hcap1 & (k & Hq1 & Hk & Hdrop & Hk1) & _ & Hown).
      assert (Hd1 : events_dropped obs1 = events_dropped obs + Z.of_nat k).
      { rewrite Hdrop. destruct (Nat.eqb_spec k 0) as [->|]; [lia|]. replace k with 1%nat by lia. apply u64_id. width_lia. }
      specialize (IH q1 obs1 Hok1 ltac:(lia) ltac:(lia)). destruct (push_all evs q1 obs1) as [[q2 obs2] ops2].
      destruct IH as (I1 & I2 & I3 & I4). rewrite Hcap1, Hq1 in *. destruct Hq as [Hp Hl].
      unfold zlen in *. rewrite !length_app, ?length_drop in *. cbn [length] in *.
      split_and!; [|done|lia|].
      + rewrite I1. rewrite <- app_assoc. cbn [app].
        rewrite <- (drop_app_le (eq_q q) (ev :: evs) k) by lia. rewrite drop_drop. f_equal. lia.
      + intros m. rewrite I4, Hown. refs. }
  destruct (push_all evs q obs) as [[q' obs'] ops]. destruct H as (H1 & H2 & H3 & H4). split_and!; try done.
  unfold event_pop. rewrite H1. by destruct (drop _ _).
Qed.

Lemma event_queue_keeps_newest_witness :
  let evs := (fun i => EvWritable (Z.of_nat i) 5) <$> seq 0 65 in
  let '(q', obs', ops) := push_all evs (mkEventQueue [] 64) (mkObsCounters 0 0) in
  eq_q q' = drop 1 evs /\ events_dropped obs' = 1.
Proof.
  pose proof (event_queue_keeps_newest ((fun i => EvWritable (Z.of_nat i) 5) <$> seq 0 65) (mkEventQueue [] 64)
    (mkObsCounters 0 0) ltac:(vm_compute; split; congruence) ltac:(cbn; lia) ltac:(vm_compute; reflexivity)) as H.
  cbv zeta. destruct (push_all _ _ _) as [[q' obs'] ops]. destruct H as (H1 & _ & H3 & _).
  split; [exact H1|exact H3].
Defined.
