(* ===== verification/Readable.v ===== *)
(** * Handing bytes to the application: the pop loop of [deliver_readable] (engine.rs)

    Pops [total_delivered] bytes off the receive queue into the views of one readable
    event, splitting the last segment when it is longer than what is left. *)

From S2P Require Import Prelude.
From S2P Require Import Mbuf.
From S2P Require Import Reassembly.
From S2P Require Import Conn.
From S2P Require Import Events.

(** [u16::saturating_add]. *)
Definition sat_add16 (a b : Z) : Z := Z.min U16_MAX (a + b).

(** Views popped, queue left, calls made, and whether a segment was split.  Every turn
    pops a segment or ends, so the queue is the fuel. *)
Fixpoint pop_delivered (bytes : list InOrderSegment) (remaining : Z)
    : list InOrderSegment * list InOrderSegment * list MbufOp * bool :=
  if 0 <? remaining then
    match bytes with
    | [] => ([], [], [], false)
    | seg :: rest =>
        if io_len seg <=? remaining then
          let '(popped, kept, ops, split) := pop_delivered rest (remaining - io_len seg) in
          (seg :: popped, kept, ops, split)
        else
          let split_off := u16 remaining in
          let '(split_mbuf, ops) := try_clone (io_mbuf seg) in
          let front := seg <| io_offset := sat_add16 (io_offset seg) split_off |>
                           <| io_len := sat_sub (io_len seg) split_off |> in
          ([mkInOrderSegment split_mbuf (io_offset seg) split_off], front :: rest, ops, true)
    end
  else ([], bytes, [], false).

Section Iovecs.
Context (data_ptr : MbufId -> Z).

(** The iovecs and their total, capped at the largest u32. *)
Definition readable_iovecs (popped : list InOrderSegment) : list Iovec :=
  (fun s => mkIovec (data_ptr (h_ptr (io_mbuf s)) + io_offset s) (io_len s)) <$> popped.
Definition readable_total (popped : list InOrderSegment) : Z := foldl (fun acc s => sat_add32 acc (io_len s)) 0 popped.
End Iovecs.

(** ** Content *)

Section Content.
Context (mem : MbufId -> Z -> Z).

(** The bytes a list of views shows, in order. *)
Definition stream_of (l : list InOrderSegment) : list Z := mbind (view_bytes mem) l.

(** A view whose end is a 16-bit offset. *)
Definition view_ok (s : InOrderSegment) : Prop := 0 <= io_offset s /\ 0 < io_len s /\ io_offset s + io_len s < two16.

Lemma view_split h off len n : 0 <= n <= len ->
  view_bytes mem (mkInOrderSegment h off len) =
  view_bytes mem (mkInOrderSegment h off n) ++ view_bytes mem (mkInOrderSegment h (off + n) (len - n)).
Proof.
  intros H. unfold view_bytes. cbn [io_mbuf io_offset io_len].
  replace len with (n + (len - n)) at 1 by lia. rewrite seqZ_app, map_app by lia. f_equal.
  rewrite Z.add_0_l. rewrite <- (Z.add_0_r n) at 1. rewrite <- fmap_add_seqZ.
  change (map ?f (Z.add n <$> ?l)) with (f <$> (Z.add n <$> l)). rewrite <- list_fmap_compose.
  apply list_fmap_ext. intros i x _. cbn. f_equal. lia.
Qed.

Lemma length_view s : 0 <= io_len s -> zlen (view_bytes mem s) = io_len s.
Proof. intros H. unfold view_bytes, zlen. rewrite length_map, length_seqZ. lia. Qed.

Lemma stream_of_cons s l : stream_of (s :: l) = view_bytes mem s ++ stream_of l.
Proof. done. Qed.

Lemma pop_delivered_spec (bytes : list InOrderSegment) (n : Z) (Hb : Forall view_ok bytes) (Hn : 0 <= n) :
  let '(popped, kept, ops, split) := pop_delivered bytes n in
  stream_of popped = take (Z.to_nat n) (stream_of bytes) /\
  stream_of kept = drop (Z.to_nat n) (stream_of bytes) /\
  Forall view_ok popped /\ Forall view_ok kept /\
  (forall m, owned m popped + owned m kept = owned m bytes + ref_delta m ops) /\
  length ops = (if split then 1 else 0)%nat.
Proof.
  revert n Hn. induction Hb as [|s l Hs Hl IH]; intros n Hn; cbn [pop_delivered]; destruct (Z.ltb_spec 0 n).
  - change (stream_of []) with (@nil Z). by rewrite firstn_nil, skipn_nil.
  - change (stream_of []) with (@nil Z). by rewrite firstn_nil, skipn_nil.
  - rewrite stream_of_cons. pose proof Hs as (Ho & Hp & He). pose proof (length_view s ltac:(lia)) as Hv. unfold zlen in Hv.
    destruct (Z.leb_spec (io_len s) n).
    + specialize (IH (n - io_len s) ltac:(lia)). destruct (pop_delivered l (n - io_len s)) as [[[popped kept] ops] split].
      destruct IH as (I1 & I2 & I3 & I4 & I5 & I6). rewrite stream_of_cons, I1, I2.
      rewrite (take_app_ge _ _ (Z.to_nat n)), (drop_app_ge _ _ (Z.to_nat n)) by lia.
      replace (Z.to_nat n - length (view_bytes mem s))%nat with (Z.to_nat (n - io_len s)) by lia.
      split_and!; try done; [by constructor|]. intros m. specialize (I5 m). refs.
    + rewrite u16_id by width_lia. destruct s as [h off len]. cbn [io_mbuf io_offset io_len try_clone field_set] in *.
      unfold sat_add16, sat_sub. rewrite Z.min_r, Z.max_r by width_lia.
      rewrite !stream_of_cons, (view_split h off len n) by lia.
      pose proof (length_view (mkInOrderSegment h off n) ltac:(cbn; lia)) as Hv'. unfold zlen in Hv'. cbn [io_len] in Hv'.
      rewrite <- app_assoc, take_app_length', drop_app_length' by lia. cbn [stream_of mbind list_bind]. rewrite app_nil_r.
      split_and!; try done.
      * repeat constructor; cbn; lia.
      * constructor; [repeat split; cbn; lia|done].
      * intros m. refs. destruct h as [p]. unfold owned, InOrderSegment_owner, owned, MbufHandle_owner. cbn. destruct (p =? m); lia.
  - replace (Z.to_nat n) with 0%nat by lia. rewrite take_0, drop_0. split_and!; try done; [by constructor|].
    intros m. refs.
Qed.

(** Delivering [n] bytes to the application hands over exactly the first [n] bytes of
    the receive queue (all of it when it holds fewer) and keeps the rest, byte for byte;
    at most one segment is split, and then the packet behind it gets one more reference:
    references before plus calls made equal references after. *)
Theorem pop_delivered_exact (bytes : list InOrderSegment) (n : Z) (Hb : Forall view_ok bytes) (Hn : 0 <= n) :
  let '(popped, kept, ops, split) := pop_delivered bytes n in
  stream_of popped = take (Z.to_nat n) (stream_of bytes) /\
  stream_of kept = drop (Z.to_nat n) (stream_of bytes) /\
  Forall view_ok popped /\ Forall view_ok kept /\
  (forall m, owned m popped + owned m kept = owned m bytes + ref_delta m ops) /\
  length ops = (if split then 1 else 0)%nat.
Proof. exact (pop_delivered_spec bytes n Hb Hn). Qed.
End Content.

Lemma pop_delivered_exact_witness :
  let mem := fun m i => 100 * m + i in
  let q := [mkInOrderSegment (mkMbufHandle 1) 54 2; mkInOrderSegment (mkMbufHandle 2) 60 4] in
  let '(popped, kept, ops, split) := pop_delivered q 3 in
  stream_of mem popped = [154; 155; 260] /\ stream_of mem kept = [261; 262; 263] /\ length ops = 1%nat.
Proof.
  cbv zeta.
  pose proof (pop_delivered_exact (fun m i => 100 * m + i)
    [mkInOrderSegment (mkMbufHandle 1) 54 2; mkInOrderSegment (mkMbufHandle 2) 60 4] 3) as H.
  cbn [pop_delivered io_len] in *. cbn in H. destruct H as (H1 & H2 & _ & _ & _ & H6).
  - repeat constructor; vm_compute; done.
  - lia.
  - split_and!; [exact H1|exact H2|exact H6].
Defined.
