(* ===== verification/Stream.v ===== *)
(** * A connection refines a byte stream: tcp_input.rs and the delivery of engine.rs

    The peer writes a stream; the network loses, duplicates, reorders and re-cuts its
    segments.  Whatever arrives, the views the application is handed, read one after
    the other, are a prefix of that stream.  One step is what the engine does with a
    segment of the connection: [dispatch], the state change it asks for, and the pop
    loop of [deliver_readable]. *)

From S2P Require Import Prelude.
From S2P Require Import Bytes.
From S2P Require Import Seq.
From S2P Require Import Mbuf.
From S2P Require Import Reassembly.
From S2P Require Import Output.
From S2P Require Import Segment.
From S2P Require Import Conn.
From S2P Require Import Input.
From S2P Require Import Receive.
From S2P Require Import Dispatch.
From S2P Require Import InputSpec.
From S2P Require Import Readable.

(** ** Steps *)

(** A segment as it reaches the connection: the clock during its dispatch, the parsed
    header and where its payload lies. *)
Record Arrival := mkArrival { ar_clk : Clock; ar_seg : ParsedSegment; ar_ctx : MbufInsertCtx }.

Section Steps.
Context (test_server : bool) (links : Links) (edges : list Z) (send_buffer_bytes : Z).

Definition take_segment (c : TcpConn) (a : Arrival) : option (TcpConn * list InOrderSegment) :=
  r ← dispatch test_server (ar_clk a) links edges send_buffer_bytes (Some (ar_ctx a)) c (ar_seg a);
  let '(c', o, _) := r in
  let '(popped, kept, _, _) := pop_delivered (rv_bytes (c_recv c')) (o_delivered o) in
  Some ((after c' o) <| c_recv ::= fun q => q <| rv_bytes := kept |> |>, popped).

Fixpoint take_segments (c : TcpConn) (l : list Arrival) : option (TcpConn * list InOrderSegment) :=
  match l with
  | [] => Some (c, [])
  | a :: l =>
      r ← take_segment c a;
      let '(c, views) := r in
      r ← take_segments c l;
      let '(c, rest) := r in
      Some (c, views ++ rest)
  end.

(** ** The peer *)

Context (mem : MbufId -> Z -> Z) (S : Z -> Z) (isn : Z).

(** Byte [x] of the stream travels under sequence number [isn + x].  No segment is half
    the sequence space away from where the receiver is: the lifetime of a segment bounds
    how late it comes. *)
Record from_stream (n : Z) (a : Arrival) : Prop := {
  fs_seg : segment_ok (ar_seg a);
  fs_ctx : ctx_ok links (ar_ctx a) (zlen (ps_payload (ar_seg a)));
  fs_place : exists x, n - two31 <= x < n + two31 /\ ps_seq (ar_seg a) = wadd32 isn x /\
    segment_carries mem S links (ar_ctx a) x (zlen (ps_payload (ar_seg a)))
}.

(** The connection has handed over [n] bytes and everything it holds is of the stream. *)
Record at_byte (c : TcpConn) (n : Z) : Prop := {
  at_ok : conn_ok c;
  at_empty : rv_bytes (c_recv c) = [];
  at_next : c_state c = Established -> c_rcv_nxt c = wadd32 isn n;
  at_queue : c_state c = Established ->
    Forall (carries (c_rcv_nxt c) mem (fun p => S (n + p))) (segments (rv_reorder (c_recv c)));
  at_state : c_state c <> SynSent /\ c_state c <> SynReceived
}.

(** Arrivals of the stream, each judged where the receiver is when it comes. *)
Inductive received (c0 : TcpConn) (n0 : Z) : TcpConn -> list InOrderSegment -> Prop :=
  | received_none : received c0 n0 c0 []
  | received_one c l a c' popped : received c0 n0 c l -> from_stream (n0 + zsum io_len l) a ->
      take_segment c a = Some (c', popped) -> received c0 n0 c' (l ++ popped).

(** ** Lemmas *)

Lemma chain_carries_shift n p ls : chain_carries mem S (n + p) ls -> chain_carries mem (fun q => S (n + q)) p ls.
Proof.
  revert p. induction ls as [|[m len] ls IH]; intros p; cbn [chain_carries]; [done|].
  intros [H1 H2]. split; [intros i Hi; rewrite H1 by done; f_equal; lia|]. apply IH. by rewrite Z.add_assoc.
Qed.

Lemma segment_carries_shift ctx n p plen : segment_carries mem S links ctx (n + p) plen ->
  segment_carries mem (fun q => S (n + q)) links ctx p plen.
Proof.
  intros [H1 H2]. split; [intros i Hi; rewrite H1 by done; f_equal; lia|].
  apply chain_carries_shift. by rewrite Z.add_assoc.
Qed.

Lemma stream_shift n k : stream (fun p => S (n + p)) 0 k = stream S n k.
Proof. unfold stream. by apply map_ext. Qed.

(** An acceptable segment is less than a window ahead. *)
Lemma in_window_near c seg : segment_in_window c seg = true -> zlen (ps_payload seg) < two16 ->
  0 <= c_rcv_wnd c <= U16_MAX -> off (c_rcv_nxt c) (ps_seq seg) < two16.
Proof.
  intros H Hl Hw. unfold segment_in_window in H. destruct (segment_len seg =? 0).
  - apply Z.eqb_eq in H as ->. rewrite off_base. width_lia.
  - apply andb_true_iff in H as [H _]. apply in_window_spec in H; width_lia.
Qed.

Lemma near_place n x : n - two31 <= x < n + two31 -> off (wadd32 isn n) (wadd32 isn x) < two16 ->
  x = n + off (wadd32 isn n) (wadd32 isn x).
Proof.
  unfold off, wsub32, wadd32, u32. rewrite <- Zminus_mod. replace (isn + x - (isn + n)) with (x - n) by lia.
  intros H1 H2. assert (E : (x - n) mod two32 = x - n); [|lia].
  apply Z.mod_small. pose proof (Z.div_mod (x - n) two32). pose proof (Z.mod_pos_bound (x - n) two32). width_lia.
Qed.

(** Popping everything pops the list itself. *)
Lemma pop_all l : Forall (fun v => 0 < io_len v < two16) l -> pop_delivered l (zsum io_len l) = (l, [], [], false).
Proof.
  induction 1 as [|v l Hv Hl IH]; [done|]. rewrite zsum_cons. cbn [pop_delivered].
  assert (0 <= zsum io_len l) by (clear IH; induction Hl; [done|]; rewrite zsum_cons; lia).
  destruct (Z.ltb_spec 0 (io_len v + zsum io_len l)); [|lia].
  destruct (Z.leb_spec (io_len v) (io_len v + zsum io_len l)); [|lia].
  replace (io_len v + zsum io_len l - io_len v) with (zsum io_len l) by lia. by rewrite IH.
Qed.

(** A queued segment seen from further on. *)
Lemma carries_advance n d base s : is_u32 base -> 0 <= d < two31 -> seg_ok (wadd32 base d) s ->
  carries base mem (fun p => S (n + p)) s -> carries (wadd32 base d) mem (fun p => S (n + d + p)) s.
Proof.
  intros Hb Hd [Hs Hl _ _ He] H i Hi. rewrite H by done. f_equal. unfold so, eo, so in *.
  assert (E : off base (os_seq s) = off (wadd32 base d) (os_seq s) + d).
  { pose proof (off_range (wadd32 base d) (os_seq s)).
    rewrite <- (u32_off (wadd32 base d) (os_seq s)) at 1 by done. fold (wadd32 (wadd32 base d) (off (wadd32 base d) (os_seq s))).
    rewrite wadd32_assoc, off_wadd; rewrite off_base; width_lia. }
  lia.
Qed.

Lemma take_segment_total c a : exists r, take_segment c a = Some r.
Proof.
  unfold take_segment. destruct (dispatch_runs test_server (ar_clk a) links edges send_buffer_bytes (Some (ar_ctx a)) c (ar_seg a))
    as [[[c' o] ops] ->]. cbn [mbind option_bind]. destruct (pop_delivered _ _) as [[[popped kept] ?] ?]. eauto.
Qed.

(** The transitions of one segment do not lead back. *)
Lemma fsm_no_handshake c seg s s' : fsm_step c seg s s' -> s' <> SynSent /\ s' <> SynReceived /\ (s' = Established -> s = SynSent \/ s = SynReceived).
Proof. inversion 1; subst; split_and!; try done; tauto. Qed.

(** What the pop loop leaves of a connection whose queue was empty. *)
Lemma popped_ok c o outs : conn_ok (after c o) -> rv_bytes (c_recv c) = outs ->
  conn_ok ((after c o) <| c_recv ::= fun q => q <| rv_bytes := [] |> |>) /\
  Forall (fun v => 0 < io_len v < two16) outs.
Proof.
  intros [H1 H2 H3 H4 H5 [R1 R2 R3] H7] E. destruct (after_fields c o) as (_ & _ & _ & _ & Er). rewrite Er, E in R2. split; [|done].
  split; conn_simpl; try done. split; conn_simpl; [done|constructor|unfold is_u32 in R1; cbn; lia].
Qed.

(** One dispatch: what it appends is the stream from [n] on, and where it leaves the
    connection as long as it stays ESTABLISHED. *)
Lemma dispatch_appends c n a c' o ops : at_byte c n -> from_stream n a ->
  dispatch test_server (ar_clk a) links edges send_buffer_bytes (Some (ar_ctx a)) c (ar_seg a) = Some (c', o, ops) ->
  let d := o_delivered o in
  d = zsum io_len (rv_bytes (c_recv c')) /\ 0 <= d < two31 /\
  concat (map (view_bytes mem) (rv_bytes (c_recv c'))) = stream S n d /\
  (c_state (after c' o) = Established -> c_state c = Established /\ c_rcv_nxt c' = wadd32 (c_rcv_nxt c) d /\
     Forall (carries (c_rcv_nxt c) mem (fun p => S (n + p))) (segments (rv_reorder (c_recv c')))).
Proof.
  intros [Hok He Hn Hq [Hs1 Hs2]] [Hseg Hctx (x & Hx & Ex & Hcar)] H. cbv zeta.
  destruct (dispatch_steps _ _ _ _ _ _ _ _ _ _ _ H) as [Est Hstep].
  assert (Hback : c_state (after c' o) = Established -> c_state c = Established /\ o_new_state o = None).
  { unfold after. destruct (o_new_state o) as [s|]; [|by rewrite Est]. conn_simpl. intros ->.
    by destruct (fsm_no_handshake _ _ _ _ (Hstep _ eq_refl)) as (_ & _ & [?|?]). }
  destruct (decide (c_state c = Established)) as [Hs|Hs].
  - destruct (segment_in_window c (ar_seg a)) eqn:Hw.
    + assert (Hl : zlen (ps_payload (ar_seg a)) < two16) by (destruct Hctx; lia).
      pose proof (in_window_near _ _ Hw Hl (ck_wnd _ Hok)) as Hoff. specialize (Hn Hs). rewrite Hn, Ex in Hoff.
      apply near_place in Hoff as Ep; [|done]. rewrite Ep in Hcar. apply segment_carries_shift in Hcar.
      rewrite <- Ex, <- Hn in Hcar.
      destruct (dispatch_stream _ _ _ _ _ _ _ _ _ _ _ _ _ Hok Hseg Hctx (Hq Hs) Hcar H) as
        (outs & Eb & Ec & Hq' & Hn' & _ & Ed & Hd). rewrite He in Eb. cbn [app] in Eb. rewrite Eb, Ec, stream_shift.
      split_and!; try (done || width_lia). intros Ha. apply Hback in Ha as [_ En]. specialize (Hn' Hs).
      rewrite En, bool_decide_eq_false_2, Z.add_0_r in Hn' by done. done.
    + apply dispatch_established in H; [|done]. apply handle_established_inv in H as
        [(-> & _ & _ & -> & _)|(_ & _ & Hw' & _)]; [|congruence].
      rewrite He. split_and!; try (done || width_lia). intros _. rewrite wadd32_0_r by apply Hok. auto.
  - apply idle_receive in H as (-> & _ & _ & -> & _); [|done]. rewrite He. split_and!; try done.
    intros Ha. by apply Hback in Ha as [? _].
Qed.

Lemma take_step c n a c' popped : at_byte c n -> from_stream n a -> take_segment c a = Some (c', popped) ->
  at_byte c' (n + zsum io_len popped) /\ 0 <= zsum io_len popped /\
  concat (map (view_bytes mem) popped) = stream S n (zsum io_len popped).
Proof.
  intros Hat Hfrom H. unfold take_segment in H.
  destruct (dispatch _ _ _ _ _ _ _ _) as [[[c1 o] ops]|] eqn:Hrun; [|done]. cbn [mbind option_bind] in H.
  destruct (dispatch_appends c n a c1 o ops Hat Hfrom Hrun) as (Ed & Hd & Hc & Hest).
  pose proof Hat as [Hok _ Hn _ [Hs1 Hs2]]. pose proof Hfrom as [Hseg Hctx _].
  pose proof (dispatch_conn_ok _ _ _ _ _ _ _ _ _ _ _ Hok Hseg Hctx Hrun) as Hok'.
  destruct (popped_ok c1 o _ Hok' eq_refl) as [Hok2 Hlens].
  rewrite Ed, pop_all in H by done. injection H as <- <-. rewrite <- Ed. split; [|split; [lia|done]].
  destruct (after_fields c1 o) as (An & _ & _ & _ & Ar).
  split; [exact Hok2|reflexivity| | |].
  - change (c_state (after c1 o) = Established -> c_rcv_nxt (after c1 o) = wadd32 isn (n + o_delivered o)).
    intros Hs. destruct (Hest Hs) as (Hs' & En & _). rewrite An, En, Hn by done. apply wadd32_assoc.
  - change (c_state (after c1 o) = Established -> Forall (carries (c_rcv_nxt (after c1 o)) mem (fun p => S (n + o_delivered o + p)))
      (segments (rv_reorder (c_recv (after c1 o))))).
    intros Hs. destruct (Hest Hs) as (Hs' & En & Hq). pose proof (ck_queue _ Hok') as Hq'. rewrite Hs in Hq'.
    rewrite An, Ar, En in *. destruct Hq' as [[Hsegs _ _ _ _] _].
    apply Forall_forall. intros s Hin. rewrite Forall_forall in Hsegs, Hq.
    apply carries_advance; [apply Hok|done|by apply Hsegs|by apply Hq].
  - change (c_state (after c1 o) <> SynSent /\ c_state (after c1 o) <> SynReceived).
    destruct (dispatch_steps _ _ _ _ _ _ _ _ _ _ _ Hrun) as [Est Hstep]. unfold after.
    destruct (o_new_state o) as [s|]; [|by rewrite Est]. conn_simpl.
    by destruct (fsm_no_handshake _ _ _ _ (Hstep _ eq_refl)) as (? & ? & _).
Qed.

Lemma received_ok c0 n0 c l : at_byte c0 n0 -> received c0 n0 c l ->
  at_byte c (n0 + zsum io_len l) /\ 0 <= zsum io_len l /\ concat (map (view_bytes mem) l) = stream S n0 (zsum io_len l).
Proof.
  intros H0. induction 1 as [|c l a c' popped Hr (IH1 & IH2 & IH3) Hf Ht].
  - rewrite zsum_nil, Z.add_0_r. done.
  - destruct (take_step _ _ _ _ _ IH1 Hf Ht) as (Hat & Hp & Hc). rewrite zsum_app.
    rewrite map_app, concat_app, IH3, Hc, stream_app, Z.add_assoc by done. split_and!; [done|lia|done].
Qed.

(** ** Properties *)

(** C5. A receiving connection refines a byte stream.  However the network loses,
    repeats, reorders and re-cuts the segments of a peer that writes the stream [S], the
    views handed to the application, read one after the other, spell a prefix of [S]: no
    byte is lost, repeated, altered or out of place, across the wrap of the sequence
    numbers and for any length.  While the connection is ESTABLISHED, [rcv_nxt] is the
    number of the first byte not handed over.  And no such segment can stop the receiver:
    whatever arrives next is processed. *)
Theorem connection_refines_stream (c0 c : TcpConn) (l : list InOrderSegment) (H0 : at_byte c0 0)
    (Hrun : received c0 0 c l) :
  concat (map (view_bytes mem) l) = stream S 0 (zsum io_len l) /\ conn_ok c /\
  (c_state c = Established -> c_rcv_nxt c = wadd32 isn (zsum io_len l)) /\
  forall a, from_stream (zsum io_len l) a -> exists c' popped, received c0 0 c' (l ++ popped).
Proof.
  destruct (received_ok c0 0 c l H0 Hrun) as ([Hok _ Hn _ _] & _ & Hc). split_and!; [done|done|done|].
  intros a Ha. destruct (take_segment_total c a) as [[c' popped] E]. exists c', popped.
  by apply (received_one c0 0 c l a).
Qed.
End Steps.

(** ** An evaluated run *)

(** The stream 1, 2, 3, ...: [4; 5] wait in the reorder queue.  Its first three bytes
    arrive, arrive again, and then the next two. *)
Definition sample_bytes (m : MbufId) (i : Z) : Z := if m =? 9 then i - 53 else if m =? 11 then i - 48 else i - 50.
Definition sample_next : ParsedSegment := mkParsedSegment 80 4000 5005 1051 TCP_ACK 1000 20 [6; 7] [].
Definition sample_first : Arrival := mkArrival (fun _ => 0) sample_data sample_ctx.
Definition sample_second : Arrival := mkArrival (fun _ => 0) sample_next (mkMbufInsertCtx 11 54).
Definition sample_take (c : TcpConn) (a : Arrival) : option (TcpConn * list InOrderSegment) :=
  take_segment true (fun _ => []) [] 65536 c a.
Definition sample_taken (c : TcpConn) (a : Arrival) : TcpConn := match sample_take c a with Some (c', _) => c' | None => c end.

Lemma sample_at_byte : at_byte sample_bytes (fun p => p + 1) 5000 sample_open 0.
Proof.
  split; [apply sample_open_ok|reflexivity|reflexivity| |done]. intros _. constructor; [|constructor].
  intros i Hi. unfold sample_bytes, so, off. cbn [os_mbuf os_offset os_seq Z.eqb Pos.eqb].
  replace (wsub32 5003 _) with 3 by reflexivity. lia.
Qed.

Lemma sample_first_ok n : n = 0 \/ n = 5 -> from_stream (fun _ => []) sample_bytes (fun p => p + 1) 5000 n sample_first.
Proof.
  intros Hn. split; [apply sample_data_ok|apply sample_ctx_ok|]. exists 0. split; [width_lia|]. split; [reflexivity|].
  split; [|exact I]. intros i Hi. unfold sample_bytes. cbn [ar_ctx sample_first mi_mbuf mi_payload_offset sample_ctx Z.eqb Pos.eqb]. lia.
Qed.

Lemma sample_second_ok : from_stream (fun _ => []) sample_bytes (fun p => p + 1) 5000 5 sample_second.
Proof.
  split; [split; cbv; split; congruence|split; [cbv; congruence|cbv; congruence|split; [constructor|cbv; reflexivity]]|].
  exists 5. split; [width_lia|]. split; [reflexivity|].
  split; [|exact I]. intros i Hi. unfold sample_bytes. cbn [ar_ctx sample_second mi_mbuf mi_payload_offset Z.eqb Pos.eqb]. lia.
Qed.

Lemma connection_refines_stream_witness :
  exists c l, received true (fun _ => []) [] 65536 sample_bytes (fun p => p + 1) 5000 sample_open 0 c l /\
    concat (map (view_bytes sample_bytes) l) = [1; 2; 3; 4; 5; 6; 7] /\ c_rcv_nxt c = 5007.
Proof.
  set (c1 := sample_taken sample_open sample_first). set (c2 := sample_taken c1 sample_first).
  set (c3 := sample_taken c2 sample_second).
  set (l1 := [mkInOrderSegment (mkMbufHandle 9) 54 3; mkInOrderSegment (mkMbufHandle 7) 54 2]).
  assert (E1 : take_segment true (fun _ => []) [] 65536 sample_open sample_first = Some (c1, l1)) by (vm_compute; reflexivity).
  assert (E2 : take_segment true (fun _ => []) [] 65536 c1 sample_first = Some (c2, [])) by (vm_compute; reflexivity).
  assert (E3 : take_segment true (fun _ => []) [] 65536 c2 sample_second = Some (c3, [mkInOrderSegment (mkMbufHandle 11) 54 2])) by (vm_compute; reflexivity).
  assert (E4 : c_state c3 = Established) by (vm_compute; reflexivity). clearbody c1 c2 c3.
  set (l3 := (([] ++ l1) ++ []) ++ [mkInOrderSegment (mkMbufHandle 11) 54 2]).
  assert (Hr : received true (fun _ => []) [] 65536 sample_bytes (fun p => p + 1) 5000 sample_open 0 c3 l3).
  { apply (received_one true (fun _ => []) [] 65536 sample_bytes (fun p => p + 1) 5000 sample_open 0 c2 (([] ++ l1) ++ []) sample_second c3 [mkInOrderSegment (mkMbufHandle 11) 54 2]);
      [|exact sample_second_ok|exact E3].
    apply (received_one true (fun _ => []) [] 65536 sample_bytes (fun p => p + 1) 5000 sample_open 0 c1 ([] ++ l1) sample_first c2 []);
      [|apply sample_first_ok; by right|exact E2].
    apply (received_one true (fun _ => []) [] 65536 sample_bytes (fun p => p + 1) 5000 sample_open 0 sample_open [] sample_first c1 l1);
      [constructor|apply sample_first_ok; by left|exact E1]. }
  exists c3, l3. split; [exact Hr|].
  destruct (connection_refines_stream true (fun _ => []) [] 65536 sample_bytes (fun p => p + 1) 5000 sample_open c3 l3 sample_at_byte Hr) as (H1 & _ & H2 & _).
  split; [rewrite H1; reflexivity|]. rewrite H2 by exact E4. reflexivity.
Defined.
