(* ===== verification/Engine.v ===== *)
(** * The engine's state and effects: engine.rs

    The engine's methods take [&self] and reach its state through cells; here they
    are functions of a state monad over [Engine], [None] being a panic.  What the
    engine asks of DPDK, of the clock and of the hash seed is [Platform]: an answer
    per request, requests being numbered by [eg_step], so nothing is assumed about
    two reads of the clock or two allocations.  Modelled are the default build and, with
    [test_server], the one that listens: its fields [eg_listen] and [eg_tx_intercept] (the
    thread's TX_QUEUE of test_tx_intercept.rs) are never touched otherwise.  The offload
    features are configuration; [obs-none] is not modelled. *)

From S2P Require Import Prelude.
From S2P Require Import Mbuf.
From S2P Require Import Reassembly.
From S2P Require Import TimerWheel.
From S2P Require Import Ip.
From S2P Require Import Options.
From S2P Require Import Output.
From S2P Require Import Conn.
From S2P Require Import FlowTable.
From S2P Require Import Input.
From S2P Require Import AckBuild.
From S2P Require Import Listen.
From S2P Require Import Icmp.
From S2P Require Import Iss.
From S2P Require Import Events.

(** ** Outside the source *)

Class Platform := {
  pl_now : nat -> Z;                      (* clock::now_ns *)
  pl_dispatch_clock : nat -> Clock;       (* the reads inside one dispatch *)
  pl_alloc_hdr : nat -> option MbufId;    (* rte_pktmbuf_alloc on tx_hdr_mempool *)
  pl_alloc_data : nat -> option MbufId;   (* rte_pktmbuf_alloc on tx_data_mempool *)
  pl_alloc_rx : nat -> option MbufId;     (* and on rx_mempool, by inject_rx_frame *)
  pl_append : nat -> bool;                (* rte_pktmbuf_append is not null *)
  pl_adj : nat -> bool;                   (* rte_pktmbuf_adj is not null *)
  pl_chain : nat -> bool;                 (* rte_pktmbuf_chain returns 0 *)
  pl_burst : nat -> nat;                  (* rte_eth_tx_burst: packets accepted *)
  pl_mtu : Z;                             (* rte_eth_dev_get_mtu, 1500 on failure *)
  pl_links : Links;                       (* segments behind the head of a received packet *)
  pl_data_ptr : MbufId -> Z;              (* rte_pktmbuf_data *)
  pl_siphash : FourTuple -> Z;            (* std's randomly keyed hasher *)
  pl_tsc : nat -> Z;                      (* rdtsc *)
  pl_tsc_hz : Z;                          (* rte_get_tsc_hz *)
  pl_rx_avail : nat -> Z;                 (* rte_mempool_avail_count of the receive pool *)
  pl_tx_data_avail : nat -> Z             (* and of tx_data_mempool *)
}.

(** [nb_segs] of a received packet. *)
Definition nb_segs `{Platform} (m : MbufId) : Z := 1 + zlen (pl_links m).

Class EngineConfig := {
  local_ip : Z;
  gateway_ip : Z;
  our_mac : list Z;
  garp_interval_sec : Z;
  recv_buffer_bytes : Z;
  send_buffer_bytes : Z;
  tcp_mss : Z;
  tcp_msl_ms : Z;
  tcp_timestamps : bool;
  tcp_sack : bool;
  tcp_min_rto_us : Z;
  tcp_initial_rto_us : Z;
  tcp_max_rto_us : Z;
  tcp_max_retrans_count : Z;
  tcp_per_packet_events : bool;
  rtt_histogram_edges : list Z;
  tx_ring_capacity : Z;
  iss_gen : IssGen;
  rx_cksum_feature : bool;
  rx_cksum_offload_active : bool;
  tx_cksum_feature : bool;
  tx_cksum_offload_active : bool;
  rss_feature : bool;
  rss_hash_offload_active : bool;
  test_server : bool                      (* the feature test-server *)
}.

(** The counters the engine bumps. *)
Inductive Counter :=
  | EthRxDropShort | EthRxDropMissMac | EthRxDropUnknownEthertype | EthRxArp | EthTxArp
  | EthRxDropCksumBad | EthTxDropNomem | EthTxDropFullRing | EthTxBytes | EthTxPkts | EthRxBytes
  | IpRxDropShort | IpRxDropBadVersion | IpRxDropBadHl | IpRxCsumBad | IpRxTtlZero | IpRxFrag
  | IpRxDropNotOurs | IpRxDropUnsupportedProto | IpRxTcp | IpRxIcmp | IpRxIcmpFragNeeded | IpPmtudUpdates
  | RxShort | RxBadFlags | RxBadCsum | RxUnmatched | RxSynAck | RxAck | RxFin | RxRst | RxData
  | RxPawsRejected | TsRecentExpired | RxBadOption | RxReassemblyQueued | RxReassemblyHoleFilled
  | RxSackBlocks | RxDsack | TxTlpSpurious | RxBadSeq | RxBadAck | RxDupAck | RxUrgentDropped
  | RxZeroWindow | RxWsShiftClamped | RttSamples | TxRackLoss | ConnOpen | ConnClose | ConnRst
  | RecvBufDrops | RecvBufDelivered | RxPartialReadSplits | RxIovecSegsTotal | RxMultiSegEvents
  | TxSyn | TxAckCt | TxZeroWindow | TxWindowUpdate | TxSackBlocks | TxRstCt | TxFin | TxData
  | TxRetrans | TxRto | TxTlp | TxApiTimersFired | ConnTimeoutRetrans | ConnTimeoutSynSent
  | ConnTableFull | ConnTimeWaitReaped | RackReoWndOverrideActive | RtoNoBackoffActive | SendBufFull
  | TxFlushBursts | TxFlushBatchedPkts
  | EthRxPkts | EthRxDropNomem | EthRxMultiSegLinearized
  | PollIters | PollItersIdle | PollItersWithRx | PollItersWithTx | PollItersWithRxBurstMax
  | StateTrans (from to : TcpState).

(** ** State *)

Record Engine := mkEngine {
  eg_flow_table : FlowTable;
  eg_timer_wheel : TimerWheel;
  eg_events : EventQueue;
  eg_obs : ObsCounters;
  eg_drained : list InternalEvent;
  eg_pmtu : PmtuTable;
  eg_gateway_mac : list Z;
  eg_last_ephemeral_port : Z;
  eg_last_garp_ns : Z;
  eg_last_gw_arp_req_ns : Z;
  eg_secondary_local_ips : list Z;
  eg_tx_pending : list MbufId;
  eg_avail_last_sample_tsc : Z;
  eg_rx_mempool_avail : Z;
  eg_tx_data_mempool_avail : Z;
  eg_listen : ListenTable;
  eg_tx_intercept : list (list Z);
  (* what has been asked and done *)
  eg_step : nat;
  eg_counters : list (Counter * Z);
  eg_rx_ops : list MbufOp;
  eg_tx_ops : list MbufOp;
  eg_wire : list (list Z);
  eg_mem : gmap MbufId (list Z);
  eg_next : gmap MbufId MbufId
}.

#[export] Instance Engine_eta : Settable Engine := fun e =>
  mkEngine (eg_flow_table e) (eg_timer_wheel e) (eg_events e) (eg_obs e) (eg_drained e) (eg_pmtu e)
    (eg_gateway_mac e) (eg_last_ephemeral_port e) (eg_last_garp_ns e) (eg_last_gw_arp_req_ns e) (eg_secondary_local_ips e)
    (eg_tx_pending e) (eg_avail_last_sample_tsc e) (eg_rx_mempool_avail e) (eg_tx_data_mempool_avail e) (eg_listen e) (eg_tx_intercept e)
    (eg_step e) (eg_counters e) (eg_rx_ops e) (eg_tx_ops e) (eg_wire e) (eg_mem e) (eg_next e).

(** The frames handed over: to the driver, or to the intercept queue. *)
Definition frames_out `{EngineConfig} (e : Engine) : list (list Z) := if test_server then eg_tx_intercept e else eg_wire e.

(** ** The monad *)

Definition M (A : Type) : Type := Engine -> option (A * Engine).

#[export] Instance M_ret : MRet M := fun A a e => Some (a, e).
#[export] Instance M_bind : MBind M := fun A B k m e => match m e with Some (a, e) => k a e | None => None end.

Definition get {A} (f : Engine -> A) : M A := fun e => Some (f e, e).
Definition update (f : Engine -> Engine) : M unit := fun e => Some (tt, f e).
Definition panic {A} : M A := fun _ => None.
Definition lift {A} (o : option A) : M A := fun e => match o with Some a => Some (a, e) | None => None end.
Definition skip : M unit := mret tt.
Definition when (b : bool) (m : M unit) : M unit := if b then m else skip.
Definition when_some {A} (o : option A) (k : A -> M unit) : M unit := match o with Some a => k a | None => skip end.

Fixpoint for_each {A} (l : list A) (body : A -> M unit) : M unit :=
  match l with [] => skip | x :: l => body x ;; for_each l body end.

(** The next answer of the platform. *)
Definition ask {A} (f : nat -> A) : M A := fun e => Some (f (eg_step e), e <| eg_step ::= S |>).

(** ** Primitive effects *)

Definition inc_by (c : Counter) (n : Z) : M unit := update (fun e => e <| eg_counters ::= fun l => l ++ [(c, n)] |>).
Definition inc (c : Counter) : M unit := inc_by c 1.

#[export] Instance Counter_eq_dec : EqDecision Counter.
Proof. solve_decision. Defined.

(** What an atomic load of the counter reads. *)
Definition counter_value (c : Counter) (e : Engine) : Z :=
  u64 (zsum (fun x => if bool_decide (x.1 = c) then x.2 else 0) (eg_counters e)).
Definition rx_calls (ops : list MbufOp) : M unit := update (fun e => e <| eg_rx_ops ::= fun l => l ++ ops |>).
Definition tx_calls (ops : list MbufOp) : M unit := update (fun e => e <| eg_tx_ops ::= fun l => l ++ ops |>).

(** [flow_table.get(h)] and [if let Some(c) = flow_table.get_mut(h)]. *)
Definition get_conn (h : ConnHandle) : M (option TcpConn) := get (fun e => ft_get (eg_flow_table e) h).
Definition update_conn (h : ConnHandle) (f : TcpConn -> TcpConn) : M unit :=
  update (fun e => e <| eg_flow_table ::= fun t => ft_update t h f |>).

(** [events.push(ev, &counters)]; an event pushed out is dropped. *)
Definition push_event (ev : InternalEvent) : M unit :=
  fun e =>
    let '(q, obs, ops) := event_push ev (eg_events e) (eg_obs e) in
    Some (tt, e <| eg_events := q |> <| eg_obs := obs |> <| eg_rx_ops ::= fun l => l ++ ops |>).

(** [flow_table.remove(h)]: dropping the connection releases what its receive queue
    and its delivered segments hold ([Mbuf] of the in-flight entries has no [Drop]). *)
Definition drop_conn (c : TcpConn) : list MbufOp :=
  map (fun s => FreeSeg (h_ptr (io_mbuf s))) (rv_bytes (c_recv c) ++ c_delivered_segments c) ++
  reorder_drop (rv_reorder (c_recv c)).
Definition remove_conn (h : ConnHandle) : M unit :=
  fun e =>
    let '(t, r) := ft_remove (eg_flow_table e) h in
    let ops := match r with Some c => drop_conn c | None => [] end in
    Some (tt, e <| eg_flow_table := t |> <| eg_rx_ops ::= fun l => l ++ ops |>).

(** A write under the borrow of [listen_slots], and test_tx_intercept's [push_tx_frame]. *)
Definition update_listen (f : ListenTable -> ListenTable) : M unit := update (fun e => e <| eg_listen ::= f |>).
Definition push_tx_frame (bytes : list Z) : M unit := update (fun e => e <| eg_tx_intercept ::= fun q => q ++ [bytes] |>).

(** [timer_wheel.add] and [timer_wheel.cancel]. *)
Definition wheel_add (now : Z) (n : TimerNode) : M TimerId :=
  fun e => let '(w, id) := add now n (eg_timer_wheel e) in Some (id, e <| eg_timer_wheel := w |>).
Definition wheel_cancel (id : TimerId) : M bool :=
  fun e => let '(b, w) := cancel id (eg_timer_wheel e) in Some (b, e <| eg_timer_wheel := w |>).

(** [now + us as u64 * 1_000]. *)
Definition deadline_us (now us : Z) : Z := wadd64 now (us * 1000).

(** [timer_ids.retain(|t| *t != id)]. *)
Definition forget_timer (id : TimerId) (c : TcpConn) : TcpConn :=
  c <| c_timer_ids ::= filter (fun t => t <> id) |>.

(** [timer_ids] and the three named timers: the ids to cancel when a connection goes. *)
Definition all_timer_ids (c : TcpConn) : list TimerId :=
  c_timer_ids c ++ option_list (c_rto_timer_id c) ++ option_list (c_tlp_timer_id c) ++
  option_list (c_syn_retrans_timer_id c).

Definition cancel_all (ids : list TimerId) : M unit := for_each ids (fun id => wheel_cancel id ;; skip).
