(* ===== verification/Counters.v ===== *)
(** * The counters: counters.rs

    The counters live in six groups of atomics whose layout is part of the C interface; audits
    read them by name.  A field is its name and its kind; the layout is that of [repr(C)].
    The bumps of the engine are recorded by [Engine]; here is where each of them lands. *)

From S2P Require Import Prelude.
From S2P Require Import Conn.
From S2P Require Import Engine.
From Stdlib Require Import String.

Local Open Scope string_scope.
Local Open Scope list_scope.

Inductive Group := Eth | Ip | Tcp | Poll | Obs | FaultInjector.
#[export] Instance Group_eq_dec : EqDecision Group.
Proof. solve_decision. Defined.

(** An atomic of eight or four bytes, the matrix of transitions, and padding in words. *)
Inductive FieldKind := U64 | U32 | Matrix (cells : Z) | Pad (words : Z).
#[export] Instance FieldKind_eq_dec : EqDecision FieldKind.
Proof. solve_decision. Defined.

Abbreviation Field := (string * FieldKind)%type.

Definition EthCounters : list Field := [
  ("rx_pkts", U64); ("rx_bytes", U64); ("rx_drop_miss_mac", U64); ("rx_drop_nomem", U64); ("tx_pkts", U64);
  ("tx_bytes", U64); ("tx_drop_full_ring", U64); ("tx_drop_nomem", U64); ("rx_drop_short", U64);
  ("rx_drop_unknown_ethertype", U64); ("rx_arp", U64); ("tx_arp", U64); ("offload_missing_rx_cksum_ipv4", U64);
  ("offload_missing_rx_cksum_tcp", U64); ("offload_missing_rx_cksum_udp", U64); ("offload_missing_tx_cksum_ipv4", U64);
  ("offload_missing_tx_cksum_tcp", U64); ("offload_missing_tx_cksum_udp", U64);
  ("offload_missing_mbuf_fast_free", U64); ("offload_missing_rss_hash", U64); ("offload_missing_llq", U64);
  ("offload_missing_rx_timestamp", U64); ("rx_drop_cksum_bad", U64); ("llq_wc_missing", U64);
  ("llq_header_overflow_risk", U64); ("eni_bw_in_allowance_exceeded", U64); ("eni_bw_out_allowance_exceeded", U64);
  ("eni_pps_allowance_exceeded", U64); ("eni_conntrack_allowance_exceeded", U64);
  ("eni_linklocal_allowance_exceeded", U64); ("tx_q0_linearize", U64); ("tx_q0_doorbells", U64);
  ("tx_q0_missed_tx", U64); ("tx_q0_bad_req_id", U64); ("rx_q0_refill_partial", U64); ("rx_q0_bad_desc_num", U64);
  ("rx_q0_bad_req_id", U64); ("rx_q0_mbuf_alloc_fail", U64); ("rx_multi_seg_linearized", U64); ("_pad", Pad 1)].

Definition IpCounters : list Field := [
  ("rx_csum_bad", U64); ("rx_ttl_zero", U64); ("rx_frag", U64); ("rx_icmp_frag_needed", U64); ("pmtud_updates", U64);
  ("rx_drop_short", U64); ("rx_drop_bad_version", U64); ("rx_drop_bad_hl", U64); ("rx_drop_not_ours", U64);
  ("rx_drop_unsupported_proto", U64); ("rx_tcp", U64); ("rx_icmp", U64); ("_pad", Pad 4)].

Definition TcpCounters : list Field := [
  ("rx_syn_ack", U64); ("rx_data", U64); ("rx_ack", U64); ("rx_rst", U64); ("tx_retrans", U64); ("tx_rto", U64);
  ("tx_tlp", U64); ("conn_open", U64); ("conn_close", U64); ("conn_rst", U64); ("send_buf_full", U64);
  ("recv_buf_delivered", U64); ("tx_syn", U64); ("tx_ack", U64); ("tx_data", U64); ("tx_fin", U64); ("tx_rst", U64);
  ("rx_fin", U64); ("rx_unmatched", U64); ("rx_bad_csum", U64); ("rx_bad_flags", U64); ("rx_short", U64);
  ("recv_buf_drops", U64); ("rx_paws_rejected", U64); ("rx_bad_option", U64); ("rx_reassembly_queued", U64);
  ("rx_reassembly_hole_filled", U64); ("tx_sack_blocks", U64); ("rx_sack_blocks", U64); ("rx_bad_seq", U64);
  ("rx_bad_ack", U64); ("rx_dup_ack", U64); ("rx_zero_window", U64); ("rx_urgent_dropped", U64);
  ("tx_zero_window", U64); ("tx_window_update", U64); ("conn_table_full", U64); ("conn_time_wait_reaped", U64);
  ("tx_payload_bytes", U64); ("rx_payload_bytes", U64); ("state_trans", Matrix 121); ("conn_timeout_retrans", U64);
  ("conn_timeout_syn_sent", U64); ("rtt_samples", U64); ("tx_rack_loss", U64); ("rack_reo_wnd_override_active", U64);
  ("rto_no_backoff_active", U64); ("rx_ws_shift_clamped", U64); ("rx_dsack", U64); ("tx_tlp_spurious", U64);
  ("tx_api_timers_fired", U64); ("ts_recent_expired", U64); ("tx_flush_bursts", U64); ("tx_flush_batched_pkts", U64);
  ("rx_iovec_segs_total", U64); ("rx_multi_seg_events", U64); ("rx_partial_read_splits", U64);
  ("rx_mempool_avail", U32); ("mbuf_refcnt_drop_unexpected", U64); ("tx_data_mempool_avail", U32)].

Definition PollCounters : list Field := [
  ("iters", U64); ("iters_with_rx", U64); ("iters_with_tx", U64); ("iters_idle", U64);
  ("iters_with_rx_burst_max", U64); ("_pad", Pad 11)].

Definition ObsCounters : list Field := [
  ("events_dropped", U64); ("events_queue_high_water", U64)].

Definition FaultInjectorCounters : list Field := [
  ("drops", U64); ("dups", U64); ("reorders", U64); ("corrupts", U64)].

(** The fields of a group, and the alignment of its struct: a cache line, but for [Obs]. *)
Definition fields_of (g : Group) : list Field :=
  match g with
  | Eth => EthCounters | Ip => IpCounters | Tcp => TcpCounters | Poll => PollCounters
  | Obs => ObsCounters | FaultInjector => FaultInjectorCounters
  end.
Definition group_align (g : Group) : Z := match g with Obs => 8 | _ => 64 end.
Definition group_name (g : Group) : string :=
  match g with Eth => "eth" | Ip => "ip" | Tcp => "tcp" | Poll => "poll" | Obs => "obs" | FaultInjector => "fault_injector" end.

(** *** [size_of] of a [repr(C)] struct *)

Definition kind_align (k : FieldKind) : Z := match k with U32 => 4 | _ => 8 end.
Definition kind_size (k : FieldKind) : Z := match k with U64 => 8 | U32 => 4 | Matrix n => 8 * n | Pad n => 8 * n end.
Definition round_up (n a : Z) : Z := (n + a - 1) / a * a.
Definition size_of (g : Group) : Z :=
  round_up (foldl (fun off f => round_up off (kind_align f.2) + kind_size f.2) 0 (fields_of g)) (group_align g).

(** *** The registry *)

Definition ALL_COUNTER_NAMES : list string := [
  "eth.rx_pkts"; "eth.rx_bytes"; "eth.rx_drop_miss_mac"; "eth.rx_drop_nomem"; "eth.tx_pkts"; "eth.tx_bytes";
  "eth.tx_drop_full_ring"; "eth.tx_drop_nomem"; "eth.rx_drop_short"; "eth.rx_drop_unknown_ethertype"; "eth.rx_arp";
  "eth.tx_arp"; "eth.offload_missing_rx_cksum_ipv4"; "eth.offload_missing_rx_cksum_tcp";
  "eth.offload_missing_rx_cksum_udp"; "eth.offload_missing_tx_cksum_ipv4"; "eth.offload_missing_tx_cksum_tcp";
  "eth.offload_missing_tx_cksum_udp"; "eth.offload_missing_mbuf_fast_free"; "eth.offload_missing_rss_hash";
  "eth.offload_missing_llq"; "eth.offload_missing_rx_timestamp"; "eth.rx_drop_cksum_bad"; "eth.llq_wc_missing";
  "eth.llq_header_overflow_risk"; "eth.eni_bw_in_allowance_exceeded"; "eth.eni_bw_out_allowance_exceeded";
  "eth.eni_pps_allowance_exceeded"; "eth.eni_conntrack_allowance_exceeded"; "eth.eni_linklocal_allowance_exceeded";
  "eth.tx_q0_linearize"; "eth.tx_q0_doorbells"; "eth.tx_q0_missed_tx"; "eth.tx_q0_bad_req_id";
  "eth.rx_q0_refill_partial"; "eth.rx_q0_bad_desc_num"; "eth.rx_q0_bad_req_id"; "eth.rx_q0_mbuf_alloc_fail";
  "eth.rx_multi_seg_linearized"; "ip.rx_csum_bad"; "ip.rx_ttl_zero"; "ip.rx_frag"; "ip.rx_icmp_frag_needed";
  "ip.pmtud_updates"; "ip.rx_drop_short"; "ip.rx_drop_bad_version"; "ip.rx_drop_bad_hl"; "ip.rx_drop_not_ours";
  "ip.rx_drop_unsupported_proto"; "ip.rx_tcp"; "ip.rx_icmp"; "tcp.rx_syn_ack"; "tcp.rx_data"; "tcp.rx_ack";
  "tcp.rx_rst"; "tcp.tx_retrans"; "tcp.tx_rto"; "tcp.tx_tlp"; "tcp.conn_open"; "tcp.conn_close"; "tcp.conn_rst";
  "tcp.send_buf_full"; "tcp.recv_buf_delivered"; "tcp.tx_syn"; "tcp.tx_ack"; "tcp.tx_data"; "tcp.tx_fin"; "tcp.tx_rst";
  "tcp.rx_fin"; "tcp.rx_unmatched"; "tcp.rx_bad_csum"; "tcp.rx_bad_flags"; "tcp.rx_short"; "tcp.recv_buf_drops";
  "tcp.rx_paws_rejected"; "tcp.rx_bad_option"; "tcp.rx_reassembly_queued"; "tcp.rx_reassembly_hole_filled";
  "tcp.tx_sack_blocks"; "tcp.rx_sack_blocks"; "tcp.rx_bad_seq"; "tcp.rx_bad_ack"; "tcp.rx_dup_ack";
  "tcp.rx_zero_window"; "tcp.rx_urgent_dropped"; "tcp.tx_zero_window"; "tcp.tx_window_update"; "tcp.conn_table_full";
  "tcp.conn_time_wait_reaped"; "tcp.tx_payload_bytes"; "tcp.rx_payload_bytes"; "tcp.conn_timeout_retrans";
  "tcp.conn_timeout_syn_sent"; "tcp.rtt_samples"; "tcp.tx_rack_loss"; "tcp.rack_reo_wnd_override_active";
  "tcp.rto_no_backoff_active"; "tcp.rx_ws_shift_clamped"; "tcp.rx_dsack"; "tcp.tx_tlp_spurious";
  "tcp.tx_api_timers_fired"; "tcp.ts_recent_expired"; "tcp.tx_flush_bursts"; "tcp.tx_flush_batched_pkts";
  "tcp.rx_iovec_segs_total"; "tcp.rx_multi_seg_events"; "tcp.rx_partial_read_splits";
  "tcp.mbuf_refcnt_drop_unexpected"; "poll.iters"; "poll.iters_with_rx"; "poll.iters_with_tx"; "poll.iters_idle";
  "poll.iters_with_rx_burst_max"; "obs.events_dropped"; "obs.events_queue_high_water"; "fault_injector.drops";
  "fault_injector.dups"; "fault_injector.reorders"; "fault_injector.corrupts"].

Definition KNOWN_COUNTER_COUNT : nat := 119.

(** The arms of [lookup_counter]; the first that matches is taken. *)
Definition lookup_arms : list (string * (Group * string)) := [
  ("eth.rx_pkts", (Eth, "rx_pkts")); ("eth.rx_bytes", (Eth, "rx_bytes"));
  ("eth.rx_drop_miss_mac", (Eth, "rx_drop_miss_mac")); ("eth.rx_drop_nomem", (Eth, "rx_drop_nomem"));
  ("eth.tx_pkts", (Eth, "tx_pkts")); ("eth.tx_bytes", (Eth, "tx_bytes"));
  ("eth.tx_drop_full_ring", (Eth, "tx_drop_full_ring")); ("eth.tx_drop_nomem", (Eth, "tx_drop_nomem"));
  ("eth.rx_drop_short", (Eth, "rx_drop_short")); ("eth.rx_drop_unknown_ethertype", (Eth, "rx_drop_unknown_ethertype"));
  ("eth.rx_arp", (Eth, "rx_arp")); ("eth.tx_arp", (Eth, "tx_arp"));
  ("eth.offload_missing_rx_cksum_ipv4", (Eth, "offload_missing_rx_cksum_ipv4"));
  ("eth.offload_missing_rx_cksum_tcp", (Eth, "offload_missing_rx_cksum_tcp"));
  ("eth.offload_missing_rx_cksum_udp", (Eth, "offload_missing_rx_cksum_udp"));
  ("eth.offload_missing_tx_cksum_ipv4", (Eth, "offload_missing_tx_cksum_ipv4"));
  ("eth.offload_missing_tx_cksum_tcp", (Eth, "offload_missing_tx_cksum_tcp"));
  ("eth.offload_missing_tx_cksum_udp", (Eth, "offload_missing_tx_cksum_udp"));
  ("eth.offload_missing_mbuf_fast_free", (Eth, "offload_missing_mbuf_fast_free"));
  ("eth.offload_missing_rss_hash", (Eth, "offload_missing_rss_hash"));
  ("eth.offload_missing_llq", (Eth, "offload_missing_llq"));
  ("eth.offload_missing_rx_timestamp", (Eth, "offload_missing_rx_timestamp"));
  ("eth.rx_drop_cksum_bad", (Eth, "rx_drop_cksum_bad")); ("eth.llq_wc_missing", (Eth, "llq_wc_missing"));
  ("eth.llq_header_overflow_risk", (Eth, "llq_header_overflow_risk"));
  ("eth.eni_bw_in_allowance_exceeded", (Eth, "eni_bw_in_allowance_exceeded"));
  ("eth.eni_bw_out_allowance_exceeded", (Eth, "eni_bw_out_allowance_exceeded"));
  ("eth.eni_pps_allowance_exceeded", (Eth, "eni_pps_allowance_exceeded"));
  ("eth.eni_conntrack_allowance_exceeded", (Eth, "eni_conntrack_allowance_exceeded"));
  ("eth.eni_linklocal_allowance_exceeded", (Eth, "eni_linklocal_allowance_exceeded"));
  ("eth.tx_q0_linearize", (Eth, "tx_q0_linearize")); ("eth.tx_q0_doorbells", (Eth, "tx_q0_doorbells"));
  ("eth.tx_q0_missed_tx", (Eth, "tx_q0_missed_tx")); ("eth.tx_q0_bad_req_id", (Eth, "tx_q0_bad_req_id"));
  ("eth.rx_q0_refill_partial", (Eth, "rx_q0_refill_partial")); ("eth.rx_q0_bad_desc_num", (Eth, "rx_q0_bad_desc_num"));
  ("eth.rx_q0_bad_req_id", (Eth, "rx_q0_bad_req_id")); ("eth.rx_q0_mbuf_alloc_fail", (Eth, "rx_q0_mbuf_alloc_fail"));
  ("eth.rx_multi_seg_linearized", (Eth, "rx_multi_seg_linearized")); ("ip.rx_csum_bad", (Ip, "rx_csum_bad"));
  ("ip.rx_ttl_zero", (Ip, "rx_ttl_zero")); ("ip.rx_frag", (Ip, "rx_frag"));
  ("ip.rx_icmp_frag_needed", (Ip, "rx_icmp_frag_needed")); ("ip.pmtud_updates", (Ip, "pmtud_updates"));
  ("ip.rx_drop_short", (Ip, "rx_drop_short")); ("ip.rx_drop_bad_version", (Ip, "rx_drop_bad_version"));
  ("ip.rx_drop_bad_hl", (Ip, "rx_drop_bad_hl")); ("ip.rx_drop_not_ours", (Ip, "rx_drop_not_ours"));
  ("ip.rx_drop_unsupported_proto", (Ip, "rx_drop_unsupported_proto")); ("ip.rx_tcp", (Ip, "rx_tcp"));
  ("ip.rx_icmp", (Ip, "rx_icmp")); ("tcp.rx_syn_ack", (Tcp, "rx_syn_ack")); ("tcp.rx_data", (Tcp, "rx_data"));
  ("tcp.rx_ack", (Tcp, "rx_ack")); ("tcp.rx_rst", (Tcp, "rx_rst")); ("tcp.tx_retrans", (Tcp, "tx_retrans"));
  ("tcp.tx_rto", (Tcp, "tx_rto")); ("tcp.tx_tlp", (Tcp, "tx_tlp")); ("tcp.conn_open", (Tcp, "conn_open"));
  ("tcp.conn_close", (Tcp, "conn_close")); ("tcp.conn_rst", (Tcp, "conn_rst"));
  ("tcp.send_buf_full", (Tcp, "send_buf_full")); ("tcp.recv_buf_delivered", (Tcp, "recv_buf_delivered"));
  ("tcp.tx_syn", (Tcp, "tx_syn")); ("tcp.tx_ack", (Tcp, "tx_ack")); ("tcp.tx_data", (Tcp, "tx_data"));
  ("tcp.tx_fin", (Tcp, "tx_fin")); ("tcp.tx_rst", (Tcp, "tx_rst")); ("tcp.rx_fin", (Tcp, "rx_fin"));
  ("tcp.rx_unmatched", (Tcp, "rx_unmatched")); ("tcp.rx_bad_csum", (Tcp, "rx_bad_csum"));
  ("tcp.rx_bad_flags", (Tcp, "rx_bad_flags")); ("tcp.rx_short", (Tcp, "rx_short"));
  ("tcp.recv_buf_drops", (Tcp, "recv_buf_drops")); ("tcp.rx_paws_rejected", (Tcp, "rx_paws_rejected"));
  ("tcp.rx_bad_option", (Tcp, "rx_bad_option")); ("tcp.rx_reassembly_queued", (Tcp, "rx_reassembly_queued"));
  ("tcp.rx_reassembly_hole_filled", (Tcp, "rx_reassembly_hole_filled"));
  ("tcp.tx_sack_blocks", (Tcp, "tx_sack_blocks")); ("tcp.rx_sack_blocks", (Tcp, "rx_sack_blocks"));
  ("tcp.rx_bad_seq", (Tcp, "rx_bad_seq")); ("tcp.rx_bad_ack", (Tcp, "rx_bad_ack"));
  ("tcp.rx_dup_ack", (Tcp, "rx_dup_ack")); ("tcp.rx_zero_window", (Tcp, "rx_zero_window"));
  ("tcp.rx_urgent_dropped", (Tcp, "rx_urgent_dropped")); ("tcp.tx_zero_window", (Tcp, "tx_zero_window"));
  ("tcp.tx_window_update", (Tcp, "tx_window_update")); ("tcp.conn_table_full", (Tcp, "conn_table_full"));
  ("tcp.conn_time_wait_reaped", (Tcp, "conn_time_wait_reaped")); ("tcp.tx_payload_bytes", (Tcp, "tx_payload_bytes"));
  ("tcp.rx_payload_bytes", (Tcp, "rx_payload_bytes")); ("tcp.conn_timeout_retrans", (Tcp, "conn_timeout_retrans"));
  ("tcp.conn_timeout_syn_sent", (Tcp, "conn_timeout_syn_sent")); ("tcp.rtt_samples", (Tcp, "rtt_samples"));
  ("tcp.tx_rack_loss", (Tcp, "tx_rack_loss"));
  ("tcp.rack_reo_wnd_override_active", (Tcp, "rack_reo_wnd_override_active"));
  ("tcp.rto_no_backoff_active", (Tcp, "rto_no_backoff_active"));
  ("tcp.rx_ws_shift_clamped", (Tcp, "rx_ws_shift_clamped")); ("tcp.rx_dsack", (Tcp, "rx_dsack"));
  ("tcp.tx_tlp_spurious", (Tcp, "tx_tlp_spurious")); ("tcp.tx_api_timers_fired", (Tcp, "tx_api_timers_fired"));
  ("tcp.ts_recent_expired", (Tcp, "ts_recent_expired")); ("tcp.tx_flush_bursts", (Tcp, "tx_flush_bursts"));
  ("tcp.tx_flush_batched_pkts", (Tcp, "tx_flush_batched_pkts"));
  ("tcp.rx_iovec_segs_total", (Tcp, "rx_iovec_segs_total")); ("tcp.rx_multi_seg_events", (Tcp, "rx_multi_seg_events"));
  ("tcp.rx_partial_read_splits", (Tcp, "rx_partial_read_splits"));
  ("tcp.mbuf_refcnt_drop_unexpected", (Tcp, "mbuf_refcnt_drop_unexpected")); ("poll.iters", (Poll, "iters"));
  ("poll.iters_with_rx", (Poll, "iters_with_rx")); ("poll.iters_with_tx", (Poll, "iters_with_tx"));
  ("poll.iters_idle", (Poll, "iters_idle")); ("poll.iters_with_rx_burst_max", (Poll, "iters_with_rx_burst_max"));
  ("obs.events_dropped", (Obs, "events_dropped")); ("obs.events_queue_high_water", (Obs, "events_queue_high_water"));
  ("fault_injector.drops", (FaultInjector, "drops")); ("fault_injector.dups", (FaultInjector, "dups"));
  ("fault_injector.reorders", (FaultInjector, "reorders")); ("fault_injector.corrupts", (FaultInjector, "corrupts"))].

Fixpoint lookup_arm (arms : list (string * (Group * string))) (name : string) : option (Group * string) :=
  match arms with
  | [] => None
  | (n, p) :: arms => if String.eqb n name then Some p else lookup_arm arms name
  end.
Definition lookup_counter (name : string) : option (Group * string) := lookup_arm lookup_arms name.

Definition read_level_counter_u32 (name : string) : option (Group * string) :=
  if String.eqb name "tcp.tx_data_mempool_avail" then Some (Tcp, "tx_data_mempool_avail")
  else if String.eqb name "tcp.rx_mempool_avail" then Some (Tcp, "rx_mempool_avail") else None.

(** Where a bump of the engine lands; the transitions have a matrix of their own. *)
Definition counter_path (c : Counter) : option (Group * string) :=
  match c with
  | EthRxDropShort => Some (Eth, "rx_drop_short")
  | EthRxDropMissMac => Some (Eth, "rx_drop_miss_mac")
  | EthRxDropUnknownEthertype => Some (Eth, "rx_drop_unknown_ethertype")
  | EthRxArp => Some (Eth, "rx_arp")
  | EthTxArp => Some (Eth, "tx_arp")
  | EthRxDropCksumBad => Some (Eth, "rx_drop_cksum_bad")
  | EthTxDropNomem => Some (Eth, "tx_drop_nomem")
  | EthTxDropFullRing => Some (Eth, "tx_drop_full_ring")
  | EthTxBytes => Some (Eth, "tx_bytes")
  | EthTxPkts => Some (Eth, "tx_pkts")
  | EthRxBytes => Some (Eth, "rx_bytes")
  | IpRxDropShort => Some (Ip, "rx_drop_short")
  | IpRxDropBadVersion => Some (Ip, "rx_drop_bad_version")
  | IpRxDropBadHl => Some (Ip, "rx_drop_bad_hl")
  | IpRxCsumBad => Some (Ip, "rx_csum_bad")
  | IpRxTtlZero => Some (Ip, "rx_ttl_zero")
  | IpRxFrag => Some (Ip, "rx_frag")
  | IpRxDropNotOurs => Some (Ip, "rx_drop_not_ours")
  | IpRxDropUnsupportedProto => Some (Ip, "rx_drop_unsupported_proto")
  | IpRxTcp => Some (Ip, "rx_tcp")
  | IpRxIcmp => Some (Ip, "rx_icmp")
  | IpRxIcmpFragNeeded => Some (Ip, "rx_icmp_frag_needed")
  | IpPmtudUpdates => Some (Ip, "pmtud_updates")
  | RxShort => Some (Tcp, "rx_short")
  | RxBadFlags => Some (Tcp, "rx_bad_flags")
  | RxBadCsum => Some (Tcp, "rx_bad_csum")
  | RxUnmatched => Some (Tcp, "rx_unmatched")
  | RxSynAck => Some (Tcp, "rx_syn_ack")
  | RxAck => Some (Tcp, "rx_ack")
  | RxFin => Some (Tcp, "rx_fin")
  | RxRst => Some (Tcp, "rx_rst")
  | RxData => Some (Tcp, "rx_data")
  | RxPawsRejected => Some (Tcp, "rx_paws_rejected")
  | TsRecentExpired => Some (Tcp, "ts_recent_expired")
  | RxBadOption => Some (Tcp, "rx_bad_option")
  | RxReassemblyQueued => Some (Tcp, "rx_reassembly_queued")
  | RxReassemblyHoleFilled => Some (Tcp, "rx_reassembly_hole_filled")
  | RxSackBlocks => Some (Tcp, "rx_sack_blocks")
  | RxDsack => Some (Tcp, "rx_dsack")
  | TxTlpSpurious => Some (Tcp, "tx_tlp_spurious")
  | RxBadSeq => Some (Tcp, "rx_bad_seq")
  | RxBadAck => Some (Tcp, "rx_bad_ack")
  | RxDupAck => Some (Tcp, "rx_dup_ack")
  | RxUrgentDropped => Some (Tcp, "rx_urgent_dropped")
  | RxZeroWindow => Some (Tcp, "rx_zero_window")
  | RxWsShiftClamped => Some (Tcp, "rx_ws_shift_clamped")
  | RttSamples => Some (Tcp, "rtt_samples")
  | TxRackLoss => Some (Tcp, "tx_rack_loss")
  | ConnOpen => Some (Tcp, "conn_open")
  | ConnClose => Some (Tcp, "conn_close")
  | ConnRst => Some (Tcp, "conn_rst")
  | RecvBufDrops => Some (Tcp, "recv_buf_drops")
  | RecvBufDelivered => Some (Tcp, "recv_buf_delivered")
  | RxPartialReadSplits => Some (Tcp, "rx_partial_read_splits")
  | RxIovecSegsTotal => Some (Tcp, "rx_iovec_segs_total")
  | RxMultiSegEvents => Some (Tcp, "rx_multi_seg_events")
  | TxSyn => Some (Tcp, "tx_syn")
  | TxAckCt => Some (Tcp, "tx_ack")
  | TxZeroWindow => Some (Tcp, "tx_zero_window")
  | TxWindowUpdate => Some (Tcp, "tx_window_update")
  | TxSackBlocks => Some (Tcp, "tx_sack_blocks")
  | TxRstCt => Some (Tcp, "tx_rst")
  | TxFin => Some (Tcp, "tx_fin")
  | TxData => Some (Tcp, "tx_data")
  | TxRetrans => Some (Tcp, "tx_retrans")
  | TxRto => Some (Tcp, "tx_rto")
  | TxTlp => Some (Tcp, "tx_tlp")
  | TxApiTimersFired => Some (Tcp, "tx_api_timers_fired")
  | ConnTimeoutRetrans => Some (Tcp, "conn_timeout_retrans")
  | ConnTimeoutSynSent => Some (Tcp, "conn_timeout_syn_sent")
  | ConnTableFull => Some (Tcp, "conn_table_full")
  | ConnTimeWaitReaped => Some (Tcp, "conn_time_wait_reaped")
  | RackReoWndOverrideActive => Some (Tcp, "rack_reo_wnd_override_active")
  | RtoNoBackoffActive => Some (Tcp, "rto_no_backoff_active")
  | SendBufFull => Some (Tcp, "send_buf_full")
  | TxFlushBursts => Some (Tcp, "tx_flush_bursts")
  | TxFlushBatchedPkts => Some (Tcp, "tx_flush_batched_pkts")
  | EthRxPkts => Some (Eth, "rx_pkts")
  | EthRxDropNomem => Some (Eth, "rx_drop_nomem")
  | EthRxMultiSegLinearized => Some (Eth, "rx_multi_seg_linearized")
  | PollIters => Some (Poll, "iters")
  | PollItersIdle => Some (Poll, "iters_idle")
  | PollItersWithRx => Some (Poll, "iters_with_rx")
  | PollItersWithTx => Some (Poll, "iters_with_tx")
  | PollItersWithRxBurstMax => Some (Poll, "iters_with_rx_burst_max")
  | StateTrans _ _ => None
  end.

(** ** The registry is complete and sound *)

Definition path (p : Group * string) : string := String.append (group_name p.1) (String.append "." p.2).

Definition all_groups : list Group := [Eth; Ip; Tcp; Poll; Obs; FaultInjector].
Lemma all_groups_all g : g ∈ all_groups.
Proof. destruct g; unfold all_groups; set_solver. Qed.

(** The addressable fields: the eight-byte atomics. *)
Definition atomics : list (Group * string) :=
  mbind (fun g => omap (fun f : Field => match f.2 with U64 => Some (g, f.1) | _ => None end) (fields_of g)) all_groups.

Lemma in_atomics g f : (g, f) ∈ atomics <-> (f, U64) ∈ fields_of g.
Proof.
  unfold atomics. rewrite list_elem_of_bind. split.
  - intros (g' & Hg & _). apply list_elem_of_omap in Hg as ([f' k] & Hf & E). cbn in E. destruct k; try done. by injection E as -> ->.
  - intros Hf. exists g. split; [|apply all_groups_all]. apply list_elem_of_omap. by exists (f, U64).
Qed.

(** The arms are the atomics with their paths, in some order: checked entry by entry. *)
Lemma arms_ok : forallb (fun a => bool_decide (a.2 ∈ atomics) && String.eqb a.1 (path a.2)) lookup_arms = true.
Proof. by vm_compute. Qed.
Lemma atomics_ok : forallb (fun p => bool_decide (lookup_counter (path p) = Some p)) atomics = true.
Proof. by vm_compute. Qed.

Lemma lookup_arm_in arms name p : lookup_arm arms name = Some p -> (name, p) ∈ arms.
Proof.
  induction arms as [|[n q] arms IH]; cbn [lookup_arm]; [done|]. destruct (String.eqb n name) eqn:E; [|intros H; right; by apply IH].
  apply String.eqb_eq in E as ->. intros [= ->]. left.
Qed.

Theorem registry_exact (name : string) (g : Group) (f : string) :
  lookup_counter name = Some (g, f) <-> (f, U64) ∈ fields_of g /\ name = path (g, f).
Proof.
  split.
  - intros H. apply lookup_arm_in, list_elem_of_In in H. pose proof (proj1 (forallb_forall _ _) arms_ok _ H) as E. cbn [fst snd] in E.
    apply andb_true_iff in E as [E1 E2]. apply bool_decide_eq_true, in_atomics in E1. by apply String.eqb_eq in E2.
  - intros [H ->]. apply in_atomics, list_elem_of_In in H. pose proof (proj1 (forallb_forall _ _) atomics_ok _ H) as E.
    by apply bool_decide_eq_true in E.
Qed.

(** The list the audits walk names every addressable counter once. *)
Theorem names_exact : NoDup ALL_COUNTER_NAMES /\ List.length ALL_COUNTER_NAMES = KNOWN_COUNTER_COUNT /\
  forall name, name ∈ ALL_COUNTER_NAMES <-> is_Some (lookup_counter name).
Proof.
  assert (E : ALL_COUNTER_NAMES = map fst lookup_arms) by (by vm_compute).
  split; [apply (bool_decide_unpack _); by vm_compute|]. split; [done|]. intros name. rewrite E. split.
  - intros H. apply list_elem_of_fmap in H as ([n p] & -> & H). cbn [fst]. apply list_elem_of_In in H.
    pose proof (proj1 (forallb_forall _ _) arms_ok _ H) as A. cbn [fst snd] in A. apply andb_true_iff in A as [A1 A2].
    apply String.eqb_eq in A2 as ->. destruct p as [g f]. exists (g, f). apply registry_exact. split; [|done].
    by apply bool_decide_eq_true, in_atomics in A1.
  - intros [p H]. apply lookup_arm_in in H. by apply (list_elem_of_fmap_2 fst) in H.
Qed.

(** Every counter the engine bumps, the transitions apart, has an atomic of its own in the registry. *)
Theorem engine_counters_registered (c : Counter) : (forall a b, c <> StateTrans a b) ->
  exists p, counter_path c = Some p /\ lookup_counter (path p) = Some p /\ forall c', counter_path c' = Some p -> c' = c.
Proof.
  intros Hc. destruct c; first [by destruct (Hc from to)|eexists; split; [reflexivity|]; split; [reflexivity|]; intros []; (done || discriminate)].
Qed.

(** The sizes pinned at compile time: the layout is what they say. *)
Theorem size_pins : map size_of all_groups = [320; 128; 1472; 128; 16; 64].
Proof. by vm_compute. Qed.
