(* ===== verification/EngineTx.v ===== *)
(** * What the engine puts on the wire: engine.rs

    Frame submission, the state transition with its event, and the control segments:
    ACK, the three resets, SYN and FIN. *)

From S2P Require Import Prelude.
From S2P Require Import Mbuf.
From S2P Require Import Reassembly.
From S2P Require Import TimerWheel.
From S2P Require Import Ip.
From S2P Require Import Options.
From S2P Require Import Output.
From S2P Require Import Segment.
From S2P Require Import Conn.
From S2P Require Import FlowTable.
From S2P Require Import Input.
From S2P Require Import AckBuild.
From S2P Require Import Events.
From S2P Require Import Engine.

Section EngineTx.
Context `{Platform} `{EngineConfig}.

(** [tx_offload_finalize] on the bytes of the packet. *)
Definition tx_offload_finalize (seg : SegmentTx) (payload_len : Z) (frame : list Z) : list Z :=
  if tx_cksum_feature && tx_cksum_offload_active then
    (tx_offload_rewrite_cksums frame (tx_src_ip seg) (tx_dst_ip seg)
       (TCP_HDR_MIN + encoded_len (tx_options seg)) payload_len).2
  else frame.

(** [rte_eth_tx_burst] of one packet, how many it took; the test-server build copies the
    packet to the intercept queue and frees it. *)
Definition burst_one (m : MbufId) (frame : list Z) : M nat :=
  if test_server then push_tx_frame frame ;; tx_calls [FreeSeg m] ;; mret 1%nat else
  sent ← ask pl_burst;
  when (sent =? 1)%nat (update (fun e => e <| eg_wire ::= fun w => w ++ [frame] |>)) ;;
  mret sent.

(** The common body of [tx_frame], [tx_tcp_frame] and [tx_data_frame]: [pool] is where the
    packet comes from, [finalize] what the second does between the copy and the burst. *)
Definition tx_submit (pool : nat -> option MbufId) (finalize : list Z -> list Z) (bytes : list Z) : M bool :=
  if U16_MAX <? zlen bytes then inc EthTxDropNomem ;; mret false else
  m ← ask pool;
  match m with
  | None => inc EthTxDropNomem ;; mret false
  | Some m =>
      appended ← ask pl_append;
      if negb appended then tx_calls [FreeSeg m] ;; inc EthTxDropNomem ;; mret false else
      sent ← burst_one m (finalize bytes);
      if (sent =? 1)%nat then
        inc_by EthTxBytes (zlen bytes) ;; inc EthTxPkts ;; mret true
      else tx_calls [FreeSeg m] ;; inc EthTxDropFullRing ;; mret false
  end.

Definition tx_frame (bytes : list Z) : M bool := tx_submit pl_alloc_hdr id bytes.

Definition tx_tcp_frame (bytes : list Z) (seg : SegmentTx) : M bool :=
  tx_submit pl_alloc_hdr (tx_offload_finalize seg (u32 (zlen (tx_payload seg)))) bytes.

(** Data frames that need no entry in flight; no caller in the crate. *)
Definition tx_data_frame (bytes : list Z) : M bool := tx_submit pl_alloc_data id bytes.

(** Build [seg] in a buffer of [size] zero bytes and submit it; [false] when it does
    not fit or is not accepted. *)
Definition build_and_tx (size : nat) (seg : SegmentTx) : M bool :=
  built ← lift (build_segment seg (replicate size 0));
  match built with
  | None => mret false
  | Some (n, buf) => tx_tcp_frame (take n buf) seg
  end.

(** ** State transitions *)

Definition msl_deadline (now : Z) : Z := sat_add64 now (2 * (tcp_msl_ms * 1000000)).

Definition transition_conn (h : ConnHandle) (to : TcpState) : M unit :=
  oc ← get_conn h;
  match oc with
  | None => skip
  | Some c =>
      let from := c_state c in
      if bool_decide (from = to) then skip else
      update_conn h (fun c => c <| c_state := to |>) ;;
      when (bool_decide (to = TimeWait))
        (now ← ask pl_now; update_conn h (fun c => c <| c_time_wait_deadline_ns := Some (msl_deadline now) |>)) ;;
      inc (StateTrans from to) ;;
      now ← ask pl_now;
      push_event (EvStateChange h from to now)
  end.

(** ** Control segments *)

Definition ctrl_segment (gateway : list Z) (t : FourTuple) (seq ack flags window : Z) (opts : TcpOpts) : SegmentTx :=
  mkSegmentTx our_mac gateway (ft_local_ip t) (ft_peer_ip t) (ft_local_port t) (ft_peer_port t)
    seq ack flags window opts [].

(** [SEG.SEQ + SEG.LEN], SYN and FIN counted. *)
Definition ack_of_segment (incoming : ParsedSegment) : Z :=
  let syn_len := if has_flag (ps_flags incoming) TCP_SYN then 1 else 0 in
  let fin_len := if has_flag (ps_flags incoming) TCP_FIN then 1 else 0 in
  wadd32 (wadd32 (wadd32 (ps_seq incoming) (u32 (zlen (ps_payload incoming)))) syn_len) fin_len.

(** [(now / 1000) as u32]. *)
Definition tsval_of (now : Z) : Z := u32 (now / 1000).

(** The window and SACK view of a connection, for the ACK builder. *)
Definition ack_outcome_of (c : TcpConn) (now_us : Z) : AckOutcome :=
  build_ack_outcome (c_ws_shift_out c) (c_ts_enabled c) (c_ts_recent c) now_us (c_sack_enabled c)
    (map (fun s => (os_seq s, end_seq s)) (segments (rv_reorder (c_recv c)))) (c_last_sack_trigger c)
    (free_space_total (c_recv c)).

Definition emit_ack (h : ConnHandle) : M unit :=
  oc ← get_conn h;
  match oc with
  | None => skip
  | Some c =>
      now ← ask pl_now;
      let out := ack_outcome_of c (tsval_of now) in
      gw ← get eg_gateway_mac;
      let seg := ctrl_segment gw (c_four_tuple c) (c_snd_nxt c) (c_rcv_nxt c) TCP_ACK (ao_window out) (ao_opts out) in
      ok ← build_and_tx 128 seg;
      when ok (
        inc TxAckCt ;;
        when (ao_zero_window out) (inc TxZeroWindow) ;;
        when (bool_decide (c_last_advertised_wnd c = Some 0) && (0 <? ao_window out)) (inc TxWindowUpdate) ;;
        update_conn h (fun c => c <| c_last_advertised_wnd := Some (ao_window out) |> <| c_last_sack_trigger := None |>) ;;
        when (0 <? ao_sack_blocks_emitted out) (inc_by TxSackBlocks (ao_sack_blocks_emitted out)))
  end.

Definition emit_rst (h : ConnHandle) (incoming : ParsedSegment) : M unit :=
  oc ← get_conn h;
  match oc with
  | None => skip
  | Some c =>
      gw ← get eg_gateway_mac;
      let seg := ctrl_segment gw (c_four_tuple c) (c_snd_nxt c) (ack_of_segment incoming)
                   (Z.lor TCP_RST TCP_ACK) 0 TcpOpts_default in
      ok ← build_and_tx 64 seg;
      when ok (inc TxRstCt)
  end.

Definition emit_rst_for_syn_sent_bad_ack (tuple : FourTuple) (incoming : ParsedSegment) : M unit :=
  gw ← get eg_gateway_mac;
  let seg := ctrl_segment gw tuple (ps_ack incoming) 0 TCP_RST 0 TcpOpts_default in
  ok ← build_and_tx 64 seg;
  when ok (inc TxRstCt).

(** Sequence, acknowledgement and flags of the reset for an unmatched segment. *)
Definition rst_unmatched_fields (incoming : ParsedSegment) : Z * Z * Z :=
  if has_flag (ps_flags incoming) TCP_ACK then (ps_ack incoming, 0, TCP_RST)
  else (0, ack_of_segment incoming, Z.lor TCP_RST TCP_ACK).

Definition send_rst_unmatched (tuple : FourTuple) (incoming : ParsedSegment) : M unit :=
  if has_flag (ps_flags incoming) TCP_RST then skip else
  let '(seq, ack, flags) := rst_unmatched_fields incoming in
  gw ← get eg_gateway_mac;
  ok ← build_and_tx 64 (ctrl_segment gw tuple seq ack flags 0 TcpOpts_default);
  when ok (inc TxRstCt).

Definition emit_syn_with_flags (h : ConnHandle) (flags now_ns : Z) : M bool :=
  oc ← get_conn h;
  match oc with
  | None => mret false
  | Some c =>
      let ack_val := if negb (Z.land flags TCP_ACK =? 0) then c_rcv_nxt c else 0 in
      let syn_opts := build_connect_syn_opts recv_buffer_bytes (c_peer_mss c) now_ns tcp_timestamps tcp_sack in
      gw ← get eg_gateway_mac;
      build_and_tx 128 (ctrl_segment gw (c_four_tuple c) (c_iss c) ack_val flags U16_MAX syn_opts)
  end.

Definition emit_syn (h : ConnHandle) : M bool :=
  now ← ask pl_now;
  tx_ok ← emit_syn_with_flags h TCP_SYN now;
  when tx_ok (update_conn h (fun c => if c_syn_retrans_count c =? 0 then c <| c_syn_tx_ts_ns := now |> else c)) ;;
  mret tx_ok.

(** ** Closing *)

Definition EPERM : Z := 1.
Definition ENOMEM : Z := 12.
Definition ETIMEDOUT : Z := 110.
Definition CLOSE_FLAG_FORCE_TW_SKIP : Z := Z.shiftl 1 0.

(** [(free_space_total >> ws_shift_out).min(u16::MAX)], and the timestamp option of a
    segment after the handshake. *)
Definition advertised_window (c : TcpConn) : Z :=
  u16 (Z.min (Z.shiftr (free_space_total (c_recv c)) (c_ws_shift_out c)) U16_MAX).
Definition ts_options (c : TcpConn) : M TcpOpts :=
  if c_ts_enabled c
  then now ← ask pl_now; mret (TcpOpts_default <| timestamps := Some (tsval_of now, c_ts_recent c) |>)
  else mret TcpOpts_default.

(** The state a FIN leads to. *)
Definition fin_target (s : TcpState) : option TcpState :=
  match s with Established => Some FinWait1 | CloseWait => Some LastAck | _ => None end.

Definition close_conn (h : ConnHandle) : M (result unit EngineError) :=
  oc ← get_conn h;
  match oc with
  | None => mret (Err (InvalidConnHandle h))
  | Some c =>
      match fin_target (c_state c) with
      | None => mret (Ok tt)
      | Some to_state =>
          opts ← ts_options c;
          gw ← get eg_gateway_mac;
          let seg := ctrl_segment gw (c_four_tuple c) (c_snd_nxt c) (c_rcv_nxt c) (Z.lor TCP_ACK TCP_FIN)
                       (advertised_window c) opts in
          ok ← build_and_tx 128 seg;
          if negb ok then mret (Err (PeerUnreachable (ft_peer_ip (c_four_tuple c)))) else
          inc TxFin ;;
          update_conn h (fun c' => c' <| c_our_fin_seq := Some (c_snd_nxt c) |> <| c_snd_nxt := wadd32 (c_snd_nxt c) 1 |>) ;;
          transition_conn h to_state ;;
          mret (Ok tt)
      end
  end.

Definition close_conn_with_flags (h : ConnHandle) (flags : Z) : M (result unit EngineError) :=
  when (negb (Z.land flags CLOSE_FLAG_FORCE_TW_SKIP =? 0)) (
    oc ← get_conn h;
    if negb (match oc with Some c => c_ts_enabled c | None => false end)
    then now ← ask pl_now; push_event (EvError h (- EPERM) now)
    else update_conn h (fun c => c <| c_force_tw_skip := true |>)) ;;
  close_conn h.
End EngineTx.
