(* ===== verification/EngineTimers.v ===== *)
(** * Retransmission and timers: engine.rs

    The pending transmit ring, the retransmit primitive, arming of the loss probe, the
    three timer handlers, forced close, the TIME_WAIT reaper and the fire loop. *)

From S2P Require Import Prelude.
From S2P Require Import Seq.
From S2P Require Import Options.
From S2P Require Import Mbuf.
From S2P Require Import Reassembly.
From S2P Require Import Retrans.
From S2P Require Import Rtt.
From S2P Require Import Rack.
From S2P Require Import Tlp.
From S2P Require Import TimerWheel.
From S2P Require Import Output.
From S2P Require Import Conn.
From S2P Require Import FlowTable.
From S2P Require Import AckBuild.
From S2P Require Import Arp.
From S2P Require Import Events.
From S2P Require Import Listen.
From S2P Require Import Engine.
From S2P Require Import EngineTx.

Section EngineTimers.
Context `{Platform} `{EngineConfig}.

(** ** The pending ring *)

(** What the driver sends for a packet: its data and that of the packet chained to it. *)
Definition frame_bytes (e : Engine) (m : MbufId) : list Z :=
  default [] (eg_mem e !! m) ++ match eg_next e !! m with Some d => default [] (eg_mem e !! d) | None => [] end.

(** [rte_eth_tx_burst] of the ring, how many were taken; the test-server build copies each
    chain to the intercept queue and frees it. *)
Definition burst_ring (ring : list MbufId) : M nat :=
  if test_server then
    for_each ring (fun m => bytes ← get (fun e => frame_bytes e m); push_tx_frame bytes ;; tx_calls [FreeSeg m]) ;;
    mret (length ring)
  else
    accepted ← ask pl_burst;
    let sent := Nat.min accepted (length ring) in
    update (fun e => e <| eg_wire ::= fun w => w ++ map (frame_bytes e) (take sent ring) |>) ;;
    mret sent.

(** [drain_tx_pending_data]; a burst accepts at most what it is given. *)
Definition drain_tx_pending_data : M unit :=
  ring ← get eg_tx_pending;
  match ring with
  | [] => skip
  | _ =>
      sent ← burst_ring ring;
      for_each (drop sent ring) (fun m => tx_calls [FreeSeg m] ;; inc EthTxDropFullRing) ;;
      update (fun e => e <| eg_tx_pending := [] |>) ;;
      inc TxFlushBursts ;;
      inc_by TxFlushBatchedPkts (Z.of_nat sent) ;;
      when (0 <? Z.of_nat sent) (inc_by EthTxPkts (Z.of_nat sent))
  end.

(** Push onto the ring, draining it first when it is full. *)
Definition push_pending (m : MbufId) : M unit :=
  ring ← get eg_tx_pending;
  when (negb (zlen ring <? tx_ring_capacity)) drain_tx_pending_data ;;
  update (fun e => e <| eg_tx_pending ::= fun r => r ++ [m] |>).

(** A fresh packet holding [bytes]. *)
Definition fill_mbuf (m : MbufId) (bytes : list Z) : M unit :=
  update (fun e => e <| eg_mem ::= <[m := bytes]> |> <| eg_next ::= delete m |>).

(** [-ENOMEM] as an event, the exit of every failure below. *)
Definition retransmit_nomem (h : ConnHandle) : M unit :=
  inc EthTxDropNomem ;; now ← ask pl_now; push_event (EvError h (- ENOMEM) now).

(** [u16::wrapping_sub]. *)
Definition wsub16 (a b : Z) : Z := u16 (a - b).

(** The entry is marked as sent once more. *)
Definition mark_resent (now : Z) (e : RetransEntry) : RetransEntry :=
  e <| re_xmit_count ::= fun n => Z.min U16_MAX (n + 1) |> <| re_xmit_ts_ns := now |> <| re_lost := false |>.

(** [retransmit_inner].  The payload is the last [len] bytes of the packet kept for the
    entry; a packet shorter than [len] is excluded by a debug assertion of the source. *)
Definition retransmit (h : ConnHandle) (idx : nat) : M unit :=
  drain_tx_pending_data ;;
  oc ← get_conn h;
  match oc ≫= fun c => (fun entry => (c, entry)) <$> c_snd_retrans c !! idx with
  | None => skip
  | Some (c, entry) =>
      let data := re_mbuf entry in
      if data =? 0 then skip else
      hdr ← ask pl_alloc_hdr;
      match hdr with
      | None => retransmit_nomem h
      | Some hdr =>
          opts ← ts_options c;
          gw ← get eg_gateway_mac;
          let seg := ctrl_segment gw (c_four_tuple c) (re_seq entry) (c_rcv_nxt c) (Z.lor TCP_ACK TCP_PSH)
                       (advertised_window c) opts in
          room ← get (fun e => default [] (eg_mem e !! data));
          let live_hdrs_len := wsub16 (zlen room) (re_len entry) in
          let payload := take (Z.to_nat (re_len entry)) (drop (Z.to_nat live_hdrs_len) room) in
          built ← lift (build_retrans_header seg payload (replicate 128 0));
          match built with
          | None => tx_calls [FreeSeg hdr] ;; retransmit_nomem h
          | Some (hdr_n, buf) =>
              appended ← ask pl_append;
              if negb appended then tx_calls [FreeSeg hdr] ;; retransmit_nomem h else
              fill_mbuf hdr (tx_offload_finalize seg (re_len entry) (take hdr_n buf)) ;;
              when (0 <? live_hdrs_len) (
                did_adj ← ask pl_adj;
                when did_adj (update (fun e => e <| eg_mem ::= <[data := drop (Z.to_nat live_hdrs_len) room]> |>))) ;;
              tx_calls [RefcntUpdate data 1] ;;
              chained ← ask pl_chain;
              if negb chained then tx_calls [FreeSeg hdr; RefcntUpdate data (-1)] ;; retransmit_nomem h else
              update (fun e => e <| eg_next ::= <[hdr := data]> |>) ;;
              push_pending hdr ;;
              now ← ask pl_now;
              update_conn h (fun c => c <| c_snd_retrans ::= alter (mark_resent now) idx |>) ;;
              inc TxRetrans ;;
              inc_by EthTxBytes (Z.of_nat hdr_n + re_len entry)
          end
      end
  end.

(** ** Arming *)

(** Arm a connection timer and record its id with [set]. *)
Definition arm_timer (h : ConnHandle) (kind : TimerKind) (now fire_at : Z)
    (set : option TimerId -> TcpConn -> TcpConn) : M unit :=
  id ← wheel_add now (mkTimerNode fire_at h kind 0 0 false);
  update_conn h (fun c => set (Some id) c <| c_timer_ids ::= fun l => l ++ [id] |>).

Definition set_rto_timer (o : option TimerId) (c : TcpConn) : TcpConn := c <| c_rto_timer_id := o |>.
Definition set_tlp_timer (o : option TimerId) (c : TcpConn) : TcpConn := c <| c_tlp_timer_id := o |>.
Definition set_syn_timer (o : option TimerId) (c : TcpConn) : TcpConn := c <| c_syn_retrans_timer_id := o |>.

(** [srtt_us().unwrap()] is the panic of this function. *)
Definition arm_tlp_pto (h : ConnHandle) : M unit :=
  oc ← get_conn h;
  match oc with
  | None => skip
  | Some c =>
      if negb (tlp_arm_gate_passes c) then skip else
      srtt ← lift (srtt_us (c_rtt_est c));
      let pto := pto_us (Some srtt) (tlp_config c) (u32 (flight_size (c_snd_retrans c))) in
      now ← ask pl_now;
      arm_timer h Tlp now (deadline_us now pto) set_tlp_timer
  end.

(** ** Forced close and the reaper *)

Definition force_close_etimedout (h : ConnHandle) : M unit :=
  oc ← get_conn h;
  match oc with
  | None => skip
  | Some c =>
      update_conn h (fun c => set_syn_timer None (set_tlp_timer None (set_rto_timer None c))
                                <| c_timer_ids := [] |> <| c_snd_retrans := [] |>) ;;
      tx_calls (map (fun e => FreeSeg (re_mbuf e)) (c_snd_retrans c)) ;;
      cancel_all (all_timer_ids c) ;;
      transition_conn h Closed ;;
      now ← ask pl_now;
      push_event (EvError h (- ETIMEDOUT) now) ;;
      push_event (EvClosed h (- ETIMEDOUT) now) ;;
      remove_conn h ;;
      inc ConnClose
  end.

(** Cancel everything the connection has armed, then free its slot. *)
Definition tear_down (h : ConnHandle) : M unit :=
  oc ← get_conn h;
  cancel_all (match oc with Some c => all_timer_ids c | None => [] end) ;;
  remove_conn h.

Definition reapable (now : Z) (c : TcpConn) : bool :=
  bool_decide (c_state c = TimeWait) &&
  (c_force_tw_skip c || match c_time_wait_deadline_ns c with Some d => d <=? now | None => false end).

Definition reap_candidates (now : Z) (t : FlowTable) : list ConnHandle :=
  filter (fun h => match ft_get t h with Some c => reapable now c | None => false end = true) (iter_handles t).

(** [candidates.pop()] takes the last first. *)
Definition reap_time_wait : M unit :=
  now ← ask pl_now;
  candidates ← get (fun e => reap_candidates now (eg_flow_table e));
  for_each (reverse candidates) (fun h =>
    transition_conn h Closed ;;
    now ← ask pl_now;
    push_event (EvClosed h 0 now) ;;
    inc ConnClose ;;
    inc ConnTimeWaitReaped ;;
    tear_down h).

(** ** Timer handlers *)

(** [e.lost = true] for the given indexes. *)
Definition mark_lost_at (idxs : list Z) (l : SendRetrans) : SendRetrans :=
  foldl (fun l i => alter (fun e => e <| re_lost := true |>) (Z.to_nat i) l) l idxs.

(** [(seq, xmit_count)] of an entry. *)
Definition entry_report (c : option TcpConn) (idx : nat) : option (Z * Z) :=
  c ≫= fun c => (fun e => (re_seq e, re_xmit_count e)) <$> c_snd_retrans c !! idx.

(** The per-packet events of a timeout; [false] when the connection is gone. *)
Definition report_rto (h : ConnHandle) (lost : list Z) : M bool :=
  now ← ask pl_now;
  oc ← get_conn h;
  match oc with
  | None => mret false
  | Some c =>
      let idxs := match lost with [] => [0%nat] | _ => map Z.to_nat lost end in
      for_each (omap (entry_report (Some c)) idxs) (fun r => push_event (EvTcpRetrans h r.1 r.2 now)) ;;
      push_event (EvTcpLossDetected h LossRto now) ;;
      mret true
  end.

Definition on_rto_fire (h : ConnHandle) (fired_id : TimerId) : M unit :=
  oc ← get_conn h;
  match oc with
  | None => skip
  | Some c =>
      if negb (bool_decide (c_rto_timer_id c = Some fired_id)) then skip else
      update_conn h (fun c => forget_timer fired_id (set_rto_timer None c)) ;;
      if match c_snd_retrans c with [] => true | _ => false end then skip else
      now ← ask pl_now;
      let lost := rack_mark_losses_on_rto_into (c_snd_retrans c) 0 (c_snd_una c)
                    (default (rk_min_rtt_us (c_rack c)) (srtt_us (c_rtt_est c))) (rk_reo_wnd_us (c_rack c)) now [] in
      update_conn h (fun c => c <| c_snd_retrans ::= mark_lost_at lost |>) ;;
      match lost with
      | [] => retransmit h 0
      | _ => for_each lost (fun i => retransmit h (Z.to_nat i))
      end ;;
      inc TxRto ;;
      present ← if tcp_per_packet_events then report_rto h lost else mret true;
      if negb present then skip else
      oc ← get_conn h;
      let xmit_count := default 0 (snd <$> entry_report oc 0) in
      if tcp_max_retrans_count <? xmit_count then inc ConnTimeoutRetrans ;; force_close_etimedout h else
      when (negb (c_rto_no_backoff c)) (update_conn h (fun c => c <| c_rtt_est ::= rtt_apply_backoff |>)) ;;
      now ← ask pl_now;
      oc ← get_conn h;
      let new_rto_us := match oc with Some c => rto_us (c_rtt_est c) | None => 0 end in
      if new_rto_us =? 0 then skip else
      arm_timer h Rto now (deadline_us now new_rto_us) set_rto_timer
  end.

(** [update_conn] with a fallible method of the connection. *)
Definition try_update_conn (h : ConnHandle) (f : TcpConn -> option TcpConn) : M unit :=
  oc ← get_conn h;
  match oc with
  | None => skip
  | Some c => c ← lift (f c); update_conn h (fun _ => c)
  end.

Definition on_tlp_fire (h : ConnHandle) (fired_id : TimerId) : M unit :=
  oc ← get_conn h;
  match oc with
  | None => skip
  | Some c =>
      if negb (bool_decide (c_tlp_timer_id c = Some fired_id)) then skip else
      update_conn h (fun c => forget_timer fired_id (set_tlp_timer None c)) ;;
      let retrans_len := length (c_snd_retrans c) in
      let pending_empty := match sq_pending (c_snd c) with [] => true | _ => false end in
      match select_probe (negb pending_empty) (0 <? retrans_len)%nat with
      | None => skip
      | Some _ =>
          let probe_idx := (retrans_len - 1)%nat in
          retransmit h probe_idx ;;
          inc TxTlp ;;
          oc ← get_conn h;
          when_some (oc ≫= fun c => c_snd_retrans c !! probe_idx) (fun e =>
            now ← ask pl_now;
            try_update_conn h (fun c => on_tlp_probe_fired c (re_seq e) (re_len e) now)) ;;
          when tcp_per_packet_events (
            oc ← get_conn h;
            let r := default (0, 0) (entry_report oc probe_idx) in
            now ← ask pl_now;
            push_event (EvTcpRetrans h r.1 r.2 now) ;;
            push_event (EvTcpLossDetected h LossTlp now))
      end
  end.

(** The listen slot of a handshake that failed is free again. *)
Definition clear_in_progress_for_conn (h : ConnHandle) : M unit := update_listen (clear_progress h).

(** [base.checked_shl(min(n, 6)).unwrap_or(MAX)]; a shift below 32 is never refused
    and drops the bits it pushes out. *)
Definition syn_backoff_us (count : Z) : Z :=
  u32 (Z.shiftl (Z.max tcp_initial_rto_us tcp_min_rto_us) (Z.min count 6)).

Definition on_syn_retrans_fire (h : ConnHandle) (fired_id : TimerId) : M unit :=
  oc ← get_conn h;
  match oc with
  | None => skip
  | Some c =>
      if negb (bool_decide (c_syn_retrans_timer_id c = Some fired_id)) then skip else
      update_conn h (fun c => forget_timer fired_id (set_syn_timer None c)) ;;
      if negb (bool_decide (c_state c = SynSent) || bool_decide (c_state c = SynReceived)) then skip else
      let new_count := Z.min U8_MAX (c_syn_retrans_count c + 1) in
      update_conn h (fun c => c <| c_syn_retrans_count := new_count |>) ;;
      if 3 <? new_count then
        inc ConnTimeoutSynSent ;;
        when (test_server && c_is_passive_open c) (clear_in_progress_for_conn h) ;;
        force_close_etimedout h
      else
      (if c_is_passive_open c then
         now_tx ← ask pl_now;
         ok ← emit_syn_with_flags h (Z.lor TCP_SYN TCP_ACK) now_tx;
         when ok (inc TxRetrans)
       else emit_syn h ;; skip) ;;
      now ← ask pl_now;
      arm_timer h SynRetrans now (deadline_us now (syn_backoff_us new_count)) set_syn_timer
  end.

(** ** The fire loop and the application's timers *)

Definition fire_one (f : TimerId * TimerNode) : M unit :=
  let '(id, node) := f in
  match tn_kind node with
  | Rto => on_rto_fire (owner_handle node) id
  | Tlp => on_tlp_fire (owner_handle node) id
  | SynRetrans => on_syn_retrans_fire (owner_handle node) id
  | ApiPublic =>
      now ← ask pl_now;
      push_event (EvApiTimer id (user_data node) now) ;;
      inc TxApiTimersFired
  end.

Definition fire_timers_at (now : Z) : M nat :=
  fired ← (fun e => let '(w, fired) := advance now (eg_timer_wheel e) in Some (fired, e <| eg_timer_wheel := w |>));
  for_each fired fire_one ;;
  mret (length fired).

Definition advance_timer_wheel : M unit := now ← ask pl_now; fire_timers_at now ;; skip.

Definition public_timer_add (deadline_ns user_data : Z) : M TimerId :=
  now ← ask pl_now;
  wheel_add now (mkTimerNode (align_up_to_tick_ns deadline_ns) 0 ApiPublic user_data 0 false).

Definition public_timer_cancel (id : TimerId) : M bool := wheel_cancel id.

(** ** Periodic ARP *)

Definition tx_arp (built : option (nat * list Z)) : M unit :=
  when_some built (fun b => ok ← tx_frame b.2; when ok (inc EthTxArp)).

Definition maybe_emit_gratuitous_arp : M unit :=
  if (garp_interval_sec =? 0) || (local_ip =? 0) then skip else
  now ← ask pl_now;
  last ← get eg_last_garp_ns;
  if sat_sub now last <? garp_interval_sec * 1000000000 then skip else
  tx_arp (build_gratuitous_arp our_mac local_ip (replicate ARP_FRAME_LEN 0)) ;;
  update (fun e => e <| eg_last_garp_ns := now |>).

Definition PROBE_INTERVAL_NS : Z := 1000000000.

Definition maybe_probe_gateway_mac : M unit :=
  gw ← get eg_gateway_mac;
  if (gateway_ip =? 0) || (local_ip =? 0) || negb (bool_decide (gw = Ip.zero_mac)) then skip else
  now ← ask pl_now;
  last ← get eg_last_gw_arp_req_ns;
  if sat_sub now last <? PROBE_INTERVAL_NS then skip else
  tx_arp (build_arp_request our_mac local_ip gateway_ip (replicate ARP_FRAME_LEN 0)) ;;
  update (fun e => e <| eg_last_gw_arp_req_ns := now |>).
End EngineTimers.
