(* ===== verification/EngineListen.v ===== *)
(** * Passive open: engine.rs under test-server

    From the SYN that reaches a listening address to the SYN-ACK, and what becomes of the
    connection when the handshake ends.  Each method of the listening [impl Engine] is one
    definition of its name. *)

From S2P Require Import Prelude.
From S2P Require Import Mbuf.
From S2P Require Import TimerWheel.
From S2P Require Import Options.
From S2P Require Import Output.
From S2P Require Import Segment.
From S2P Require Import Conn.
From S2P Require Import FlowTable.
From S2P Require Import Input.
From S2P Require Import AckBuild.
From S2P Require Import Iss.
From S2P Require Import Events.
From S2P Require Import Listen.
From S2P Require Import Engine.
From S2P Require Import EngineTx.
From S2P Require Import EngineTimers.

Section EngineListen.
Context `{Platform} `{EngineConfig}.

(** A SYN-ACK already being retransmitted has its timer running and is not armed again. *)
Definition emit_syn_ack_for_passive (h : ConnHandle) : M unit :=
  oc ← get_conn h;
  let already_armed := match oc with Some c => bool_decide (is_Some (c_syn_retrans_timer_id c)) | None => false end in
  now ← ask pl_now;
  ok ← emit_syn_with_flags h (Z.lor TCP_SYN TCP_ACK) now;
  when ok (
    if already_armed then inc TxRetrans else
    inc TxSyn ;;
    arm_timer h SynRetrans now (deadline_us now (Z.max tcp_initial_rto_us tcp_min_rto_us)) set_syn_timer).

(** The refusal of a SYN: sequence number zero, acknowledging the SYN. *)
Definition emit_rst_for_unsolicited_syn (peer_ip peer_port local_ip local_port iss_peer : Z) : M unit :=
  gw ← get eg_gateway_mac;
  ok ← build_and_tx 64 (ctrl_segment gw (mkFourTuple local_ip local_port peer_ip peer_port) 0 (wadd32 iss_peer 1)
                          (Z.lor TCP_RST TCP_ACK) 0 TcpOpts_default);
  when ok (inc TxRstCt).

(** [flow_table.insert(conn)]. *)
Definition insert_conn (conn : TcpConn) : M (option ConnHandle) :=
  fun e => let '(t, oh) := ft_insert (eg_flow_table e) conn in Some (oh, e <| eg_flow_table := t |>).

(** The connection an admitted SYN creates; the clock is read inside when the peer offers
    timestamps. *)
Definition passive_conn (tuple : FourTuple) (iss_peer : Z) (opts : TcpOpts) : M TcpConn :=
  now ← ask pl_now;
  let iss := iss_next iss_gen now tuple in
  ts_now ← (match timestamps opts with Some _ => ask pl_now | None => mret 0 end);
  mret (new_passive ts_now tuple iss iss_peer opts (u16 tcp_mss) recv_buffer_bytes send_buffer_bytes
          tcp_min_rto_us tcp_initial_rto_us tcp_max_rto_us).

(** The panic is the source's [expect] on the second lookup of the slot. *)
Definition handle_inbound_syn_listen (lh : ListenHandle) (peer_ip peer_port iss_peer : Z) (opts : TcpOpts)
    : M (result unit EngineError) :=
  status ← get (fun e => slot_status lh (eg_listen e));
  match status with
  | None => mret (Err (A := unit) InvalidArgument)
  | Some (local_ip, local_port, full) =>
      if (full : bool) then emit_rst_for_unsolicited_syn peer_ip peer_port local_ip local_port iss_peer ;; mret (Ok (E := EngineError) tt) else
      conn ← passive_conn (mkFourTuple local_ip local_port peer_ip peer_port) iss_peer opts;
      oh ← insert_conn conn;
      match oh with
      | None => mret (Err (A := unit) TooManyConns)
      | Some h =>
          present ← get (fun e => slot_status lh (eg_listen e));
          (match present with Some _ => update_listen (set_in_progress lh h) | None => panic end) ;;
          emit_syn_ack_for_passive h ;;
          update_conn h (fun c => c <| c_snd_nxt := wadd32 (c_snd_nxt c) 1 |>) ;;
          mret (Ok (E := EngineError) tt)
      end
  end.

Definition listen_promote_to_accept_queue (h : ConnHandle) : M unit := update_listen (promote h).

(** A reset during the handshake: the slot listens again and the connection goes, without a
    transition of its own. *)
Definition re_listen_if_from_passive (h : ConnHandle) : M unit :=
  oc ← get_conn h;
  match oc with
  | None => skip
  | Some c =>
      if negb (c_is_passive_open c) then skip else
      clear_in_progress_for_conn h ;;
      inc (StateTrans SynReceived Listen) ;;
      oc ← get_conn h;
      let timer_id := match oc with Some c => c_syn_retrans_timer_id c | None => None end in
      update_conn h (set_syn_timer None) ;;
      when_some timer_id (fun id => wheel_cancel id ;; skip) ;;
      remove_conn h
  end.

(** The engine's reactions to the outcome of a segment of the handshake, in their order. *)
Definition handshake_outcome (h : ConnHandle) (o : Outcome) : M unit :=
  when test_server (
    when (o_clear_listen_slot_on_close o) (clear_in_progress_for_conn h) ;;
    when (o_re_listen_if_passive o) (re_listen_if_from_passive h) ;;
    when (o_retransmit_syn_ack_for_passive o) (emit_syn_ack_for_passive h)).

(** A segment without a connection: a SYN for a listening address opens one; the result
    says whether the segment was taken. *)
Definition listen_input (tuple : FourTuple) (seg : ParsedSegment) : M bool :=
  let is_syn_only := has_flag (ps_flags seg) TCP_SYN && negb (has_flag (ps_flags seg) TCP_ACK) in
  if negb (test_server && is_syn_only) then mret false else
  olh ← get (fun e => match_slot (ft_local_ip tuple) (ft_local_port tuple) (eg_listen e));
  match olh with
  | None => mret false
  | Some lh =>
      inc RxSynAck ;;
      parsed ← lift (parse_options (ps_options seg));
      let opts := match parsed with Ok o => o | Err _ => TcpOpts_default end in
      handle_inbound_syn_listen lh (ft_peer_ip tuple) (ft_peer_port tuple) (ps_seq seg) opts ;;
      mret true
  end.
End EngineListen.
