(* ===== verification/EngineRx.v ===== *)
(** * The receive path: engine.rs

    From a frame to the connection: layer 2, ARP, IPv4, ICMP, the TCP input with
    everything it does after the dispatch, and delivery to the application. *)

From S2P Require Import Prelude.
From S2P Require Import Seq.
From S2P Require Import Options.
From S2P Require Import Mbuf.
From S2P Require Import Retrans.
From S2P Require Import Rtt.
From S2P Require Import TimerWheel.
From S2P Require Import Ip.
From S2P Require Import Output.
From S2P Require Import Segment.
From S2P Require Import Conn.
From S2P Require Import FlowTable.
From S2P Require Import Input.
From S2P Require Import Arp.
From S2P Require Import Icmp.
From S2P Require Import Events.
From S2P Require Import Readable.
From S2P Require Import Engine.
From S2P Require Import EngineTx.
From S2P Require Import EngineTimers.
From S2P Require Import EngineListen.

Section EngineRx.
Context `{Platform} `{EngineConfig}.

(** ** Delivery *)

Definition deliver_readable (h : ConnHandle) (total_delivered rx_hw_ts_ns : Z) : M unit :=
  oc ← get_conn h;
  match oc with
  | None => skip
  | Some c =>
      (* delivered_segments.clear() *)
      rx_calls (map (fun s => FreeSeg (h_ptr (io_mbuf s))) (c_delivered_segments c)) ;;
      let '(popped, kept, ops, split) := pop_delivered (rv_bytes (c_recv c)) total_delivered in
      rx_calls ops ;;
      when split (inc RxPartialReadSplits) ;;
      update_conn h (fun c => c <| c_recv ::= fun q => q <| rv_bytes := kept |> |>
                                <| c_delivered_segments := [] |> <| c_readable_scratch_iovecs := [] |>) ;;
      when (0 <? zlen popped) (
        inc_by RxIovecSegsTotal (zlen popped) ;;
        when (1 <? zlen popped) (inc RxMultiSegEvents) ;;
        now ← ask pl_now;
        push_event (EvReadable h (readable_iovecs pl_data_ptr popped) popped (readable_total popped) rx_hw_ts_ns now)) ;;
      inc_by RecvBufDelivered total_delivered
  end.

(** ** After the dispatch *)

(** [apply_tcp_input_counters]. *)
Definition apply_tcp_input_counters (o : Outcome) : M unit :=
  when (o_paws_rejected o) (inc RxPawsRejected) ;;
  when (o_ts_recent_expired o) (inc TsRecentExpired) ;;
  when (o_bad_option o) (inc RxBadOption) ;;
  when (0 <? o_reassembly_queued_bytes o) (inc RxReassemblyQueued) ;;
  when (0 <? o_reassembly_hole_filled o) (inc_by RxReassemblyHoleFilled (o_reassembly_hole_filled o)) ;;
  when (0 <? o_sack_blocks_decoded o) (inc_by RxSackBlocks (o_sack_blocks_decoded o)) ;;
  when (0 <? o_rx_dsack_count o) (inc_by RxDsack (o_rx_dsack_count o)) ;;
  when (0 <? o_tx_tlp_spurious_count o) (inc_by TxTlpSpurious (o_tx_tlp_spurious_count o)) ;;
  when (o_bad_seq o) (inc RxBadSeq) ;;
  when (o_bad_ack o) (inc RxBadAck) ;;
  when (o_dup_ack o) (inc RxDupAck) ;;
  when (o_urgent_dropped o) (inc RxUrgentDropped) ;;
  when (o_rx_zero_window o) (inc RxZeroWindow) ;;
  when (o_ws_shift_clamped o) (inc RxWsShiftClamped) ;;
  when (o_rtt_sample_taken o) (inc RttSamples).

(** Retransmission of the entries RACK found lost. *)
Definition retransmit_rack_lost (h : ConnHandle) (idxs : list Z) : M unit :=
  for_each idxs (fun i =>
    retransmit h (Z.to_nat i) ;;
    inc TxRackLoss ;;
    when tcp_per_packet_events (
      oc ← get_conn h;
      let r := default (0, 0) (entry_report oc (Z.to_nat i)) in
      now ← ask pl_now;
      push_event (EvTcpRetrans h r.1 r.2 now) ;;
      push_event (EvTcpLossDetected h LossRack now))).

Definition cancel_named (h : ConnHandle) (o : option TimerId) (set : option TimerId -> TcpConn -> TcpConn) : M unit :=
  when_some o (fun id => wheel_cancel id ;; update_conn h (fun c => forget_timer id (set None c))).

(** Nothing is left to retransmit. *)
Definition fully_acked (c : TcpConn) : bool :=
  match c_snd_retrans c with [] => c_snd_una c =? c_snd_nxt c | _ => false end.

(** RFC 6298 5.3: a partial acknowledgement restarts the timer. *)
Definition restart_rto (h : ConnHandle) : M unit :=
  oc ← get_conn h;
  match oc with
  | None => skip
  | Some c =>
      match c_snd_retrans c, c_rto_timer_id c with
      | _ :: _, Some id =>
          update_conn h (set_rto_timer None) ;;
          wheel_cancel id ;;
          update_conn h (forget_timer id) ;;
          oc ← get_conn h;
          let rto := match oc with Some c => rto_us (c_rtt_est c) | None => 0 end in
          now ← ask pl_now;
          when (0 <? rto) (arm_timer h Rto now (deadline_us now rto) set_rto_timer)
      | _, _ => skip
      end
  end.

(** An acknowledgement moved snd.una: prune, free, and cancel or restart the timers. *)
Definition process_ack_advance (h : ConnHandle) (new_snd_una : Z) : M unit :=
  oc ← get_conn h;
  when_some oc (fun c =>
    let '(kept, freed) := prune_below_into_mbufs (c_snd_retrans c) new_snd_una [] in
    update_conn h (fun c => c <| c_snd_retrans := kept |>) ;;
    tx_calls (map FreeSeg freed)) ;;
  oc ← get_conn h;
  let '(rto_id, tlp_id) :=
    match oc with
    | Some c => if fully_acked c then (c_rto_timer_id c, c_tlp_timer_id c) else (None, None)
    | None => (None, None)
    end in
  cancel_named h rto_id set_rto_timer ;;
  cancel_named h tlp_id set_tlp_timer ;;
  restart_rto h.

Definition restart_time_wait (h : ConnHandle) (o : Outcome) : M unit :=
  oc ← get_conn h;
  when_some oc (fun c =>
    when (bool_decide (c_state c = TimeWait) && bool_decide (o_tx o = TxAck) && negb (o_bad_seq o)) (
      now ← ask pl_now;
      update_conn h (fun c => c <| c_time_wait_deadline_ns := Some (msl_deadline now) |>))).

Definition perform_tx (h : ConnHandle) (tuple : FourTuple) (seg : ParsedSegment) (tx : TxAction) : M unit :=
  match tx with
  | TxAck => emit_ack h
  | TxRst => emit_rst h seg ;; transition_conn h Closed
  | TxRstForSynSentBadAck => emit_rst_for_syn_sent_bad_ack tuple seg ;; transition_conn h Closed
  | TxNone => skip
  end.

Definition finish_close (h : ConnHandle) (seg : ParsedSegment) (o : Outcome) : M unit :=
  now ← ask pl_now;
  push_event (EvClosed h 0 now) ;;
  inc ConnClose ;;
  let rst_close := has_flag (ps_flags seg) TCP_RST || bool_decide (o_tx o = TxRst)
                   || bool_decide (o_tx o = TxRstForSynSentBadAck) in
  when rst_close (inc ConnRst) ;;
  oc ← get_conn h;
  when (bool_decide ((c_state <$> oc) = Some Closed)) (tear_down h).

(** Everything [tcp_input] does with an outcome. *)
Definition after_dispatch (h : ConnHandle) (tuple : FourTuple) (seg : ParsedSegment) (hw_rx_ts : Z) (o : Outcome) : M unit :=
  apply_tcp_input_counters o ;;
  when (o_writable_hysteresis_fired o) (now ← ask pl_now; push_event (EvWritable h now)) ;;
  retransmit_rack_lost h (o_rack_lost_indexes o) ;;
  when_some (o_snd_una_advanced_to o) (process_ack_advance h) ;;
  arm_tlp_pto h ;;
  when_some (o_syn_retrans_timer_to_cancel o) (fun id => wheel_cancel id ;; update_conn h (forget_timer id)) ;;
  restart_time_wait h o ;;
  when_some (o_new_state o) (transition_conn h) ;;
  perform_tx h tuple seg (o_tx o) ;;
  when (o_connected o) (
    when test_server (listen_promote_to_accept_queue h) ;;
    now ← ask pl_now; push_event (EvConnected h hw_rx_ts now) ;; inc ConnOpen) ;;
  handshake_outcome h o ;;
  when (0 <? o_delivered o) (deliver_readable h (o_delivered o) hw_rx_ts) ;;
  when (0 <? o_buf_full_drop o) (inc_by RecvBufDrops (o_buf_full_drop o)) ;;
  when (o_closed o) (finish_close h seg o).

(** ** TCP input *)

Definition flag_counters (seg : ParsedSegment) : M unit :=
  when (has_flag (ps_flags seg) TCP_SYN && has_flag (ps_flags seg) TCP_ACK) (inc RxSynAck) ;;
  when (has_flag (ps_flags seg) TCP_ACK) (inc RxAck) ;;
  when (has_flag (ps_flags seg) TCP_FIN) (inc RxFin) ;;
  when (has_flag (ps_flags seg) TCP_RST) (inc RxRst) ;;
  when (negb (bool_decide (ps_payload seg = []))) (inc RxData).

Definition parse_error_counter (e : TcpParseError) : Counter :=
  match e with TpShort => RxShort | TpBadFlags => RxBadFlags | TpCsum => RxBadCsum | TpBadDataOffset => RxShort end.

(** The zero-copy context: only for payload in a single-segment packet. *)
Definition insert_ctx (rx_mbuf : option MbufId) (seg : ParsedSegment) (tcp_offset : Z) : option MbufInsertCtx :=
  match rx_mbuf with
  | Some mb =>
      if negb (bool_decide (ps_payload seg = [])) && (nb_segs mb =? 1)
      then Some (mkMbufInsertCtx mb (sat_add16 tcp_offset (u16 (Z.of_nat (ps_header_len seg))))) else None
  | None => None
  end.

(** Reference, dispatch, and give the reference back unless it was kept.  [None] from
    the table is the race the source names, and rolls back too. *)
Definition dispatch_conn (h : ConnHandle) (seg : ParsedSegment) (ctx : option MbufInsertCtx) : M (option Outcome) :=
  when_some ctx (fun ctx => rx_calls [RefcntUpdate (mi_mbuf ctx) 1]) ;;
  oc ← get_conn h;
  match oc with
  | None =>
      when_some ctx (fun ctx => rx_calls [RefcntUpdate (mi_mbuf ctx) (-1)]) ;; mret None
  | Some c =>
      clk ← ask pl_dispatch_clock;
      r ← lift (dispatch test_server clk pl_links rtt_histogram_edges send_buffer_bytes ctx c seg);
      let '(c, o, ops) := r in
      update_conn h (fun _ => c) ;;
      rx_calls ops ;;
      when_some ctx (fun ctx => when (negb (o_mbuf_ref_retained o)) (rx_calls [RefcntUpdate (mi_mbuf ctx) (-1)])) ;;
      mret (Some o)
  end.

(** The NIC's verdict on the TCP checksum: [None] drops the segment. *)
Definition nic_l4_verdict (ol_flags : Z) : option bool :=
  if rx_cksum_feature && rx_cksum_offload_active then
    match classify_l4_rx_cksum ol_flags with CkGood => Some true | CkBad => None | _ => Some false end
  else Some false.

Definition tcp_input (ip : L3Decoded) (tcp_bytes : list Z) (ol_flags nic_rss_hash hw_rx_ts : Z)
    (rx_mbuf : option MbufId) (tcp_bytes_offset_in_mbuf : Z) : M Z :=
  match nic_l4_verdict ol_flags with
  | None => inc EthRxDropCksumBad ;; inc RxBadCsum ;; mret 0
  | Some nic_csum_ok =>
      parsed ← lift (parse_segment tcp_bytes (l3_src_ip ip) (l3_dst_ip ip) nic_csum_ok);
      match parsed with
      | Err e => inc (parse_error_counter e) ;; mret 0
      | Ok seg =>
          let tuple := tuple_from_segment (l3_src_ip ip) (l3_dst_ip ip) seg in
          let bucket_hash := hash_bucket_for_lookup rss_feature pl_siphash tuple ol_flags nic_rss_hash rss_hash_offload_active in
          oh ← get (fun e => lookup_by_hash (eg_flow_table e) tuple bucket_hash);
          match oh with
          | None =>
              taken ← listen_input tuple seg;
              if negb taken then inc RxUnmatched ;; send_rst_unmatched tuple seg ;; mret 0 else mret 0
          | Some h =>
              flag_counters seg ;;
              oo ← dispatch_conn h seg (insert_ctx rx_mbuf seg tcp_bytes_offset_in_mbuf);
              match oo with
              | None => mret 0
              | Some o =>
                  after_dispatch h tuple seg hw_rx_ts o ;;
                  mret (wadd32 (o_delivered o) (o_reassembly_queued_bytes o))
              end
          end
      end
  end.

(** ** Layers 2 and 3 *)

Definition set_gateway_mac (mac : list Z) : M unit := update (fun e => e <| eg_gateway_mac := mac |>).

Definition handle_arp (payload : list Z) : M unit :=
  r ← lift (arp_decode payload);
  match r with
  | Err _ => skip
  | Ok pkt =>
      match classify_arp pkt local_ip gateway_ip with
      | ArpNone => skip
      | SendReply => tx_arp (build_arp_reply our_mac local_ip pkt (replicate ARP_FRAME_LEN 0))
      | UpdateGatewayMac mac => set_gateway_mac mac
      end
  end.

Definition l3_drop_counter (d : L3Drop) : Counter :=
  match d with
  | L3Short => IpRxDropShort | BadVersion => IpRxDropBadVersion | BadHeaderLen => IpRxDropBadHl
  | BadTotalLen => IpRxDropShort | CsumBad => IpRxCsumBad | TtlZero => IpRxTtlZero | Fragment => IpRxFrag
  | NotOurs => IpRxDropNotOurs | UnsupportedProto => IpRxDropUnsupportedProto
  end.

Definition handle_icmp (inner : list Z) : M unit :=
  pmtu ← get eg_pmtu;
  r ← lift (icmp_input inner pmtu);
  let '(res, pmtu) := r in
  update (fun e => e <| eg_pmtu := pmtu |>) ;;
  match res with
  | FragNeededPmtuUpdated => inc IpRxIcmpFragNeeded ;; inc IpPmtudUpdates
  | FragNeededNoShrink => inc IpRxIcmpFragNeeded
  | OtherDropped | Malformed => skip
  end.

Definition handle_ipv4 (payload : list Z) (ol_flags nic_rss_hash hw_rx_ts : Z) (rx_mbuf : option MbufId)
    (eth_payload_offset : Z) : M Z :=
  let '(decoded, bad) := ip_decode_offload_aware rx_cksum_feature payload local_ip ol_flags rx_cksum_offload_active in
  when (0 <? bad) (inc_by EthRxDropCksumBad bad) ;;
  r ← lift decoded;
  match r with
  | Err d => inc (l3_drop_counter d) ;; mret 0
  | Ok ip =>
      inner ← lift (Bytes.get_slice (l3_header_len ip) (l3_total_len ip) payload);
      if l3_protocol ip =? IPPROTO_TCP then
        inc IpRxTcp ;;
        tcp_input ip inner ol_flags nic_rss_hash hw_rx_ts rx_mbuf
          (sat_add16 eth_payload_offset (u16 (Z.of_nat (l3_header_len ip))))
      else if l3_protocol ip =? IPPROTO_ICMP then inc IpRxIcmp ;; handle_icmp inner ;; mret 0
      else panic
  end.

Definition l2_drop_counter (d : L2Drop) : Counter :=
  match d with
  | L2Short => EthRxDropShort | MissMac => EthRxDropMissMac | UnknownEthertype => EthRxDropUnknownEthertype
  end.

Definition rx_frame (bytes : list Z) (ol_flags nic_rss_hash hw_rx_ts : Z) (rx_mbuf : option MbufId) : M Z :=
  r ← lift (l2_decode bytes our_mac);
  match r with
  | Err d => inc (l2_drop_counter d) ;; mret 0
  | Ok l2 =>
      let payload := drop (l2_payload_offset l2) bytes in
      if l2_ethertype l2 =? ETHERTYPE_ARP then inc EthRxArp ;; handle_arp payload ;; mret 0
      else if l2_ethertype l2 =? ETHERTYPE_IPV4
      then handle_ipv4 payload ol_flags nic_rss_hash hw_rx_ts rx_mbuf (u16 (Z.of_nat (l2_payload_offset l2)))
      else panic
  end.

(** [dispatch_one_real_mbuf]: the packet's own reference is released at the end. *)
Definition dispatch_one_real_mbuf (bytes : list Z) (ol_flags nic_rss_hash hw_rx_ts : Z) (mbuf : MbufId) : M Z :=
  when (1 <? nb_segs mbuf) (inc EthRxMultiSegLinearized) ;;
  inc_by EthRxBytes (zlen bytes) ;;
  accepted ← rx_frame bytes (if rx_cksum_feature then ol_flags else 0) (if rss_feature then nic_rss_hash else 0)
               hw_rx_ts (Some mbuf);
  rx_calls (map (fun s => FreeSeg s) (mbuf :: map fst (pl_links mbuf))) ;;
  mret accepted.
End EngineRx.
