(* ===== verification/EngineApi.v ===== *)
(** * The application's calls and the poll loop: engine.rs

    Connect, send, event drain and one iteration of the run-to-completion loop. *)

From S2P Require Import Prelude.
From S2P Require Import Options.
From S2P Require Import Mbuf.
From S2P Require Import Retrans.
From S2P Require Import Rtt.
From S2P Require Import Tlp.
From S2P Require Import TimerWheel.
From S2P Require Import Ip.
From S2P Require Import Output.
From S2P Require Import Conn.
From S2P Require Import FlowTable.
From S2P Require Import AckBuild.
From S2P Require Import Iss.
From S2P Require Import Events.
From S2P Require Import Engine.
From S2P Require Import Listen.
From S2P Require Import EngineTx.
From S2P Require Import EngineTimers.
From S2P Require Import EngineListen.
From S2P Require Import EngineRx.

Record ConnectOpts := mkConnectOpts {
  co_rack_aggressive : bool;
  co_rto_no_backoff : bool;
  co_tlp_pto_min_floor_us : Z;
  co_tlp_pto_srtt_multiplier_x100 : Z;
  co_tlp_skip_flight_size_gate : bool;
  co_tlp_max_consecutive_probes : Z;
  co_tlp_skip_rtt_sample_gate : bool;
  co_local_addr : Z
}.

(** ** Construction *)

(** The port the first connection pre-increments, from the clock at start. *)
Definition ephemeral_seed (t : Z) : Z :=
  let mixed := u16 (Z.lxor (Z.lxor t (rotl64 t 13)) (rotl64 t 57)) in
  u16 (49151 + mixed mod 16384).

(** The state [Engine::new] starts from; [None] is the assertion on the event capacity.
    What is known of the driver's memory pools is [mem]. *)
Definition engine_new (max_connections soft_cap : Z) (gateway_mac secondary_ips : list Z) (now : Z)
    (mem : gmap MbufId (list Z)) : option Engine :=
  q ← with_cap soft_cap;
  Some (mkEngine (ft_new max_connections) wheel_new q (mkObsCounters 0 0) [] ∅ gateway_mac (ephemeral_seed now) 0 0
    secondary_ips [] 0 0 0 listen_table_new [] 0 [] [] [] [] mem ∅).

Section EngineApi.
Context `{Platform} `{EngineConfig}.

(** ** Connect *)

Definition next_ephemeral_port : M Z :=
  p ← get eg_last_ephemeral_port;
  let p := u16 (p + 1) in
  let p := if p <? 49152 then 49152 else p in
  update (fun e => e <| eg_last_ephemeral_port := p |>) ;;
  mret p.

Definition add_local_ip (ip : Z) : M bool :=
  if (ip =? 0) || (ip =? local_ip) then mret false else
  v ← get eg_secondary_local_ips;
  if existsb (Z.eqb ip) v then mret false else
  update (fun e => e <| eg_secondary_local_ips ::= fun v => v ++ [ip] |>) ;;
  mret true.

(** [self.cfg.tcp_mss.min(mtu_mss).min(u16::MAX)]. *)
Definition offered_mss : Z := u16 (Z.min (Z.min tcp_mss (sat_sub pl_mtu 40)) U16_MAX).

(** The per-connect options, zero standing for the default. *)
Definition apply_connect_opts (opts : ConnectOpts) (c : TcpConn) : TcpConn :=
  let or_default v d := if v =? 0 then d else v in
  c <| c_rack_aggressive := co_rack_aggressive opts |>
    <| c_rto_no_backoff := co_rto_no_backoff opts |>
    <| c_tlp_pto_min_floor_us := or_default (co_tlp_pto_min_floor_us opts) tcp_min_rto_us |>
    <| c_tlp_pto_srtt_multiplier_x100 := or_default (co_tlp_pto_srtt_multiplier_x100 opts) DEFAULT_MULTIPLIER_X100 |>
    <| c_tlp_skip_flight_size_gate := co_tlp_skip_flight_size_gate opts |>
    <| c_tlp_max_consecutive_probes := or_default (co_tlp_max_consecutive_probes opts) DEFAULT_MAX_CONSECUTIVE_PROBES |>
    <| c_tlp_skip_rtt_sample_gate := co_tlp_skip_rtt_sample_gate opts |>.

(** The new connection's SYN, state and first timer; the slot is given back when the
    SYN cannot be sent. *)
Definition start_handshake (h : ConnHandle) (iss peer_ip : Z) : M (result ConnHandle EngineError) :=
  ok ← emit_syn h;
  if negb ok then remove_conn h ;; mret (Err (PeerUnreachable peer_ip)) else
  inc TxSyn ;;
  update_conn h (fun c => c <| c_snd_nxt := wadd32 iss 1 |> <| c_ws_shift_out := compute_ws_shift_for recv_buffer_bytes |>) ;;
  transition_conn h SynSent ;;
  now ← ask pl_now;
  arm_timer h SynRetrans now (deadline_us now (Z.max tcp_initial_rto_us tcp_min_rto_us)) set_syn_timer ;;
  mret (Ok h).

Definition connect_with_opts (peer_ip peer_port local_port_hint : Z) (opts : ConnectOpts)
    : M (result ConnHandle EngineError) :=
  if local_ip =? 0 then mret (Err (PeerUnreachable peer_ip)) else
  gw ← get eg_gateway_mac;
  if bool_decide (gw = zero_mac) then mret (Err (PeerUnreachable peer_ip)) else
  secondaries ← get eg_secondary_local_ips;
  match select_source_ip (co_local_addr opts) local_ip secondaries with
  | Err e => mret (Err e)
  | Ok selected =>
      local_port ← if negb (local_port_hint =? 0) then mret local_port_hint else next_ephemeral_port;
      let tuple := mkFourTuple selected local_port peer_ip peer_port in
      now ← ask pl_now;
      let iss := iss_next iss_gen now tuple in
      let conn := new_client tuple iss offered_mss recv_buffer_bytes send_buffer_bytes
                    tcp_min_rto_us tcp_initial_rto_us tcp_max_rto_us in
      oh ← insert_conn conn;
      match oh with
      | None => inc ConnTableFull ;; mret (Err TooManyConns)
      | Some h =>
          update_conn h (apply_connect_opts opts) ;;
          when (co_rack_aggressive opts) (inc RackReoWndOverrideActive) ;;
          when (co_rto_no_backoff opts) (inc RtoNoBackoffActive) ;;
          start_handshake h iss peer_ip
      end
  end.

(** [connect]: both opt-ins off, zeros elsewhere. *)
Definition connect (peer_ip peer_port local_port_hint : Z) : M (result ConnHandle EngineError) :=
  connect_with_opts peer_ip peer_port local_port_hint (mkConnectOpts false false 0 0 false 0 false 0).

(** ** Send *)

(** The segment carrying [payload] at [seq]; [c] is the connection as read on entry. *)
Definition data_segment (gateway : list Z) (c : TcpConn) (seq : Z) (opts : TcpOpts) (payload : list Z) : SegmentTx :=
  (ctrl_segment gateway (c_four_tuple c) seq (c_rcv_nxt c) (Z.lor TCP_ACK TCP_PSH) (advertised_window c) opts)
    <| tx_payload := payload |>.

(** Record the segment and arm the retransmission timer when it is the first. *)
Definition record_in_flight (h : ConnHandle) (entry : RetransEntry) (now : Z) : M unit :=
  oc ← get_conn h;
  match oc with
  | None => skip
  | Some c =>
      let was_empty := match c_snd_retrans c with [] => true | _ => false end in
      let arm_rto := was_empty && match c_rto_timer_id c with None => true | _ => false end in
      update_conn h (fun c => c <| c_snd_retrans ::= fun r => push_after_tx r entry |>) ;;
      when arm_rto (
        oc ← get_conn h;
        let rto := match oc with Some c => rto_us (c_rtt_est c) | None => 0 end in
        when (0 <? rto) (arm_timer h Rto now (deadline_us now rto) set_rto_timer))
  end.

(** How one turn of the loop ends: the segment went out, or the loop stops. *)
Inductive Sent := SentOk | SentBreak | SentNomem.

Definition send_one (h : ConnHandle) (c : TcpConn) (seq : Z) (payload : list Z) : M Sent :=
  opts ← ts_options c;
  gw ← get eg_gateway_mac;
  let seg := data_segment gw c seq opts payload in
  built ← lift (build_segment seg (replicate (FRAME_HDRS_MIN + 40 + length payload) 0));
  match built with
  | None => mret SentBreak
  | Some (n, buf) =>
      m ← ask pl_alloc_data;
      match m with
      | None => inc EthTxDropNomem ;; mret SentNomem
      | Some m =>
          appended ← ask pl_append;
          if negb appended then tx_calls [FreeSeg m] ;; inc EthTxDropNomem ;; mret SentNomem else
          fill_mbuf m (tx_offload_finalize seg (u32 (zlen payload)) (take n buf)) ;;
          tx_calls [RefcntUpdate m 1] ;;
          push_pending m ;;
          inc_by EthTxBytes (Z.of_nat n) ;;
          inc TxData ;;
          now ← ask pl_now;
          record_in_flight h (mkRetransEntry seq (u16 (zlen payload)) m now 1 false false now
                                (u16 (Z.of_nat (n - length payload)))) now ;;
          mret SentOk
      end
  end.

(** The loop, [fuel] being at least the number of bytes left; [None] is the early
    return with [SendBufferFull]. *)
Fixpoint send_loop (fuel : nat) (h : ConnHandle) (c : TcpConn) (mss_cap : Z) (bytes : list Z)
    (remaining accepted cur_seq : Z) : M (option (Z * Z)) :=
  match fuel with
  | O => mret (Some (accepted, cur_seq))
  | S fuel =>
      if 0 <? remaining then
        let take_ := Z.min remaining mss_cap in
        r ← send_one h c cur_seq (take (Z.to_nat take_) bytes);
        match r with
        | SentOk =>
            send_loop fuel h c mss_cap (drop (Z.to_nat take_) bytes) (remaining - take_)
              (wadd32 accepted take_) (wadd32 cur_seq take_)
        | SentBreak => mret (Some (accepted, cur_seq))
        | SentNomem => mret (if accepted =? 0 then None else Some (accepted, cur_seq))
        end
      else mret (Some (accepted, cur_seq))
  end.

(** Bytes that may go out now: the peer's window and the send buffer. *)
Definition send_room (c : TcpConn) : Z :=
  let in_flight := wsub32 (c_snd_nxt c) (c_snd_una c) in
  Z.min (sat_sub (c_snd_wnd c) in_flight) (sat_sub send_buffer_bytes in_flight).

Definition send_bytes (h : ConnHandle) (bytes : list Z) : M (result Z EngineError) :=
  oc ← get_conn h;
  match oc with
  | None => mret (Err (InvalidConnHandle h))
  | Some c =>
      if negb (bool_decide (c_state c = Established)) then mret (Err (InvalidConnHandle h)) else
      let mss_cap := Z.max (Z.min (c_peer_mss c) tcp_mss) 1 in
      let remaining := Z.min (zlen bytes) (send_room c) in
      r ← send_loop (length bytes) h c mss_cap bytes remaining 0 (c_snd_nxt c);
      match r with
      | None => mret (Err SendBufferFull)
      | Some (accepted, cur_seq) =>
          update_conn h (fun c => c <| c_snd_nxt := cur_seq |>) ;;
          when (accepted <? u32 (zlen bytes)) (
            inc SendBufFull ;; update_conn h (fun c => c <| c_send_refused_pending := true |>)) ;;
          when (0 <? accepted) (arm_tlp_pto h) ;;
          mret (Ok accepted)
      end
  end.

(** ** Events and polling *)

(** The events handed to the sink, kept alive in [drained_events_scratch]. *)
Fixpoint drain_events (max : nat) : M (list InternalEvent) :=
  match max with
  | O => mret []
  | S max =>
      oev ← (fun e => let '(oev, q) := event_pop (eg_events e) in Some (oev, e <| eg_events := q |>));
      match oev with
      | None => mret []
      | Some ev =>
          update (fun e => e <| eg_drained ::= fun l => l ++ [ev] |>) ;;
          rest ← drain_events max;
          mret (ev :: rest)
      end
  end.

(** A packet of the receive burst: its bytes, offload flags, RSS hash, hardware
    timestamp and head. *)
Record RxPacket := mkRxPacket {
  pk_bytes : list Z;
  pk_ol_flags : Z;
  pk_rss_hash : Z;
  pk_hw_ts : Z;
  pk_mbuf : MbufId
}.

Definition clear_drained : M unit :=
  drained ← get eg_drained;
  update (fun e => e <| eg_drained := [] |>) ;;
  rx_calls (mbind drop_event drained).

(** [delivered_segments.clear()] on every connection. *)
Definition clear_delivered (h : ConnHandle) : M unit :=
  oc ← get_conn h;
  when_some oc (fun c =>
    rx_calls (map (fun s => FreeSeg (h_ptr (io_mbuf s))) (c_delivered_segments c)) ;;
    update_conn h (fun c => c <| c_delivered_segments := [] |> <| c_readable_scratch_iovecs := [] |>)).

(** At most once a second, the free packets of the two pools. *)
Definition sample_mempools : M unit :=
  now_tsc ← ask pl_tsc;
  last ← get eg_avail_last_sample_tsc;
  when ((0 <? pl_tsc_hz) && (pl_tsc_hz <=? (now_tsc - last) mod two64)) (
    rx ← ask pl_rx_avail;
    tx ← ask pl_tx_data_avail;
    update (fun e => e <| eg_rx_mempool_avail := rx |> <| eg_tx_data_mempool_avail := tx |>
                       <| eg_avail_last_sample_tsc := now_tsc |>)).

(** One event per iteration when the counter moved past its snapshot. *)
Definition check_and_emit_rx_enomem (prev : Z) : M unit :=
  now ← get (counter_value EthRxDropNomem);
  when (prev <? now) (
    ts ← ask pl_now;
    push_event (EvError 0 (- ENOMEM) ts)).

(** The end of an iteration, the same on both exits. *)
Definition poll_tail (nomem_prev tx_snapshot : Z) : M unit :=
  advance_timer_wheel ;;
  reap_time_wait ;;
  maybe_emit_gratuitous_arp ;;
  maybe_probe_gateway_mac ;;
  drain_tx_pending_data ;;
  check_and_emit_rx_enomem nomem_prev ;;
  tx_pkts ← get (counter_value EthTxPkts);
  when (tx_snapshot <? tx_pkts) (inc PollItersWithTx).

Definition BURST : Z := 32.

(** One iteration on the received [burst]. *)
Definition poll_once (burst : list RxPacket) : M nat :=
  inc PollIters ;;
  clear_drained ;;
  sample_mempools ;;
  nomem_prev ← get (counter_value EthRxDropNomem);
  tx_snapshot ← get (counter_value EthTxPkts);
  handles ← get (fun e => iter_handles (eg_flow_table e));
  for_each handles clear_delivered ;;
  match burst with
  | [] => inc PollItersIdle
  | _ =>
      inc PollItersWithRx ;;
      inc_by EthRxPkts (zlen burst) ;;
      when (zlen burst =? BURST) (inc PollItersWithRxBurstMax) ;;
      for_each burst (fun p =>
        dispatch_one_real_mbuf (pk_bytes p) (pk_ol_flags p) (pk_rss_hash p) (pk_hw_ts p) (pk_mbuf p) ;; skip)
  end ;;
  poll_tail nomem_prev tx_snapshot ;;
  mret (length burst).
End EngineApi.
