(* ===== verification/EngineInv.v ===== *)
(** * The engine's invariant and its program logic

    A triple says that a computation of the engine's monad does not panic and what it
    leaves behind.  [good p L] is the assertion almost every triple is about: the
    invariant of the engine, with the slot named by [p] possibly in between two
    states, and the ledger [L] of packet references: for every packet, the references
    the engine holds, less the net effect of the reference-count calls it has made. *)

From S2P Require Import Prelude.
From S2P Require Import Mbuf.
From S2P Require Import Reassembly.
From S2P Require Import TimerWheel.
From S2P Require Import Options.
From S2P Require Import Output.
From S2P Require Import Conn.
From S2P Require Import FlowTable.
From S2P Require Import Input.
From S2P Require Import Receive.
From S2P Require Import Dispatch.
From S2P Require Import InputSpec.
From S2P Require Import DispatchFrame.
From S2P Require Import Icmp.
From S2P Require Import Events.
From S2P Require Import Engine.

(** ** Triples *)

Definition triple {A} (P : Engine -> Prop) (m : M A) (Q : A -> Engine -> Prop) : Prop :=
  forall e, P e -> exists a e', m e = Some (a, e') /\ Q a e'.

Lemma triple_ret {A} (P : Engine -> Prop) (a : A) : triple P (mret a) (fun _ => P).
Proof. intros e He. by exists a, e. Qed.

Lemma triple_bind {A B} P (m : M A) Q (k : A -> M B) R :
  triple P m Q -> (forall a, triple (Q a) (k a) R) -> triple P (mbind (M := M) k m) R.
Proof.
  intros Hm Hk e He. destruct (Hm e He) as (a & e1 & E1 & H1). destruct (Hk a e1 H1) as (b & e2 & E2 & H2).
  exists b, e2. split; [|done]. unfold mbind, M_bind. by rewrite E1.
Qed.

Lemma triple_conseq {A} P P' (m : M A) Q Q' : (forall e, P' e -> P e) -> (forall a e, Q a e -> Q' a e) ->
  triple P m Q -> triple P' m Q'.
Proof. intros HP HQ Hm e He. destruct (Hm e (HP _ He)) as (a & e' & E & H). eauto. Qed.

Lemma triple_pre {A} (P P' : Engine -> Prop) (m : M A) Q : (forall e, P' e -> P e) -> triple P m Q -> triple P' m Q.
Proof. intros HP Hm e He. apply Hm, HP, He. Qed.

Lemma run_bind_inv {A B} (m : M A) (k : A -> M B) e b e' : mbind (M := M) k m e = Some (b, e') ->
  exists a e1, m e = Some (a, e1) /\ k a e1 = Some (b, e').
Proof. unfold mbind, M_bind. destruct (m e) as [[a e1]|]; [|done]. intros E. by exists a, e1. Qed.

(** ** What the invariant sees of a connection *)

Definition conn_view (c : TcpConn) :=
  (c_state c, c_rcv_nxt c, c_rcv_wnd c, c_snd_una c, c_snd_nxt c, c_recv c, c_delivered_segments c, engine_view c).

Lemma conn_view_inv c c' : keeps conn_view c c' ->
  c_state c' = c_state c /\ c_rcv_nxt c' = c_rcv_nxt c /\ c_rcv_wnd c' = c_rcv_wnd c /\ c_snd_una c' = c_snd_una c /\
  c_snd_nxt c' = c_snd_nxt c /\ c_recv c' = c_recv c /\ c_delivered_segments c' = c_delivered_segments c /\
  c_four_tuple c' = c_four_tuple c /\ c_time_wait_deadline_ns c' = c_time_wait_deadline_ns c /\
  length (c_tlp_recent_probes c') = length (c_tlp_recent_probes c) /\
  c_tlp_recent_probes_next_slot c' = c_tlp_recent_probes_next_slot c /\ sq_pending (c_snd c') = sq_pending (c_snd c).
Proof. unfold keeps, conn_view, engine_view. intros H. injection H. intuition congruence. Qed.

(** The probe ring is never full, TIME_WAIT has a deadline and the send queue is unused. *)
Record conn_base (c : TcpConn) : Prop := {
  cb_ring : length (c_tlp_recent_probes c) = 5%nat;
  cb_slot : 0 <= c_tlp_recent_probes_next_slot c < 5;
  cb_deadline : c_state c = TimeWait -> is_Some (c_time_wait_deadline_ns c);
  cb_idle : sq_pending (c_snd c) = []
}.

Lemma conn_base_keeps c c' : keeps conn_view c c' -> conn_base c -> conn_base c'.
Proof.
  intros K [H1 H2 H3 H4]. apply conn_view_inv in K as (E1 & _ & _ & _ & _ & _ & _ & _ & E2 & E3 & E4 & E5).
  split; by rewrite ?E1, ?E2, ?E3, ?E4, ?E5.
Qed.

(** [conn_ok] itself reads less. *)
Definition ok_view (c : TcpConn) :=
  (c_state c, c_rcv_nxt c, c_rcv_wnd c, c_snd_una c, c_snd_nxt c, c_recv c).

Lemma conn_ok_view c c' : keeps ok_view c c' -> conn_ok c -> conn_ok c'.
Proof.
  unfold keeps, ok_view. intros E [H1 H2 H3 H4 H5 H6 H7]. injection E as E1 E2 E3 E4 E5 E6.
  split; by rewrite ?E1, ?E2, ?E3, ?E4, ?E5, ?E6.
Qed.

Lemma conn_ok_keeps c c' : keeps conn_view c c' -> conn_ok c -> conn_ok c'.
Proof.
  intros K. apply conn_ok_view. apply conn_view_inv in K as (E1 & E2 & E3 & E4 & E5 & E6 & _).
  unfold keeps, ok_view. congruence.
Qed.

Lemma conn_owned_keeps m c c' : keeps conn_view c c' -> owned m c' = owned m c.
Proof. intros K. apply conn_view_inv in K as (_ & _ & _ & _ & _ & E1 & E2 & _). by rewrite !owned_conn, E1, E2. Qed.

(** A slot in between two states: what holds of its connection instead of [conn_ok]. *)
Record Pending := mkPending {
  pd_slot : nat;
  pd_inv : TcpConn -> Prop;
  pd_stable : forall c c', keeps conn_view c c' -> pd_inv c -> pd_inv c'
}.

Definition slot_inv (p : option Pending) (i : nat) (c : TcpConn) : Prop :=
  match p with
  | Some P => if (i =? pd_slot P)%nat then pd_inv P c else conn_ok c
  | None => conn_ok c
  end.

Lemma slot_inv_keeps p i c c' : keeps conn_view c c' -> slot_inv p i c -> slot_inv p i c'.
Proof.
  intros K. destruct p as [P|]; cbn [slot_inv]; [|by apply conn_ok_keeps].
  destruct (i =? pd_slot P)%nat; [by apply pd_stable|by apply conn_ok_keeps].
Qed.

(** The connection will be in state [s]. *)
Program Definition to_state (h : ConnHandle) (s : TcpState) : Pending :=
  mkPending (handle_idx h) (fun c => conn_ok (c <| c_state := s |>)) _.
Next Obligation.
  intros h s c c' K. apply conn_ok_view. apply conn_view_inv in K as (_ & E2 & E3 & E4 & E5 & E6 & _).
  unfold keeps, ok_view. conn_simpl. congruence.
Qed.

(** The connection is, as far as the invariant is concerned, the one read. *)
Program Definition is_conn (h : ConnHandle) (c0 : TcpConn) : Pending :=
  mkPending (handle_idx h) (keeps conn_view c0) _.
Next Obligation. intros h c0 c c' K H. by transitivity c. Qed.

(** ** The engine *)

Record inv (p : option Pending) (e : Engine) : Prop := {
  iv_table : ft_ok (eg_flow_table e);
  iv_base : forall i c, ft_slots (eg_flow_table e) !! i = Some (Some c) -> conn_base c;
  iv_conns : forall i c, ft_slots (eg_flow_table e) !! i = Some (Some c) -> slot_inv p i c;
  iv_here : match p with Some P => exists c, ft_slots (eg_flow_table e) !! pd_slot P = Some (Some c) | None => True end;
  iv_mac : length (eg_gateway_mac e) = 6%nat;
  iv_pmtu : pmtu_ok (eg_pmtu e);
  iv_queue : queue_ok (eg_events e)
}.

(** References held: by the connections, by the queued events and by the events last
    handed to the application. *)
Definition held (m : MbufId) (e : Engine) : Z :=
  owned m (ft_slots (eg_flow_table e)) + owned m (eg_events e) + owned m (eg_drained e).
Definition ledger (m : MbufId) (e : Engine) : Z := held m e - ref_delta m (eg_rx_ops e).

Definition good (p : option Pending) (L : MbufId -> Z) (e : Engine) : Prop :=
  inv p e /\ forall m, ledger m e = L m.

Lemma good_ledger p L L' e : (forall m, L m = L' m) -> good p L e -> good p L' e.
Proof. intros H [H1 H2]. split; [done|]. intros m. by rewrite H2. Qed.

(** A loop whose body adds to the ledger. *)
Lemma for_each_good {A} p (body : A -> M unit) (arrives : MbufId -> A -> Z) (ok : A -> Prop) l :
  (forall x L, ok x -> triple (good p L) (body x) (fun _ => good p (fun m => L m + arrives m x))) ->
  Forall ok l -> forall L, triple (good p L) (for_each l body) (fun _ => good p (fun m => L m + zsum (arrives m) l)).
Proof.
  intros Hbody. induction l as [|x l IH]; intros Hf L; cbn [for_each].
  - intros e He. exists tt, e. split; [done|]. eapply good_ledger; [|exact He]. intros m. cbn. lia.
  - apply Forall_cons in Hf as [Hx Hf]. eapply triple_bind; [by apply Hbody|]. intros ?.
    eapply triple_conseq; [intros e He; exact He| |by apply IH]. intros ? e He.
    eapply good_ledger; [|exact He]. intros m. cbv beta. rewrite zsum_cons. lia.
Qed.

(** What [good] looks at. *)
Definition core_view (e : Engine) :=
  (eg_flow_table e, eg_gateway_mac e, eg_pmtu e, eg_events e, eg_drained e, eg_rx_ops e).

Lemma good_core p L e e' : core_view e' = core_view e -> good p L e -> good p L e'.
Proof.
  unfold core_view. intros E [[H1 H2 H3 HH H4 H5 H6] H7]. injection E as E1 E2 E3 E4 E5 E6.
  split; [split; by rewrite ?E1, ?E2, ?E3, ?E4|]. intros m. unfold ledger, held. rewrite E1, E4, E5, E6. apply H7.
Qed.

(** ** Computations that keep [good] *)

Definition safe {A} (p : option Pending) (m : M A) : Prop :=
  forall L, triple (good p L) m (fun _ => good p L).

Section Rules.
Context {A B : Type} (p : option Pending).

Lemma safe_ret (a : A) : safe p (mret a).
Proof. intros L. apply triple_ret. Qed.

Lemma safe_bind (m : M A) (k : A -> M B) : safe p m -> (forall a, safe p (k a)) -> safe p (mbind (M := M) k m).
Proof. intros Hm Hk L. eapply triple_bind; [apply Hm|]. intros a. apply Hk. Qed.

Lemma safe_then (m : M A) (k : A -> M B) L R : safe p m -> (forall a, triple (good p L) (k a) R) ->
  triple (good p L) (mbind (M := M) k m) R.
Proof. intros Hm Hk. eapply triple_bind; [apply Hm|]. intros a. apply Hk. Qed.

Lemma get_then (f : Engine -> A) (k : A -> M B) L R (F : A -> Prop) :
  (forall e, inv p e -> F (f e)) -> (forall a, F a -> triple (good p L) (k a) R) ->
  triple (good p L) (mbind (M := M) k (get f)) R.
Proof. intros HF Hk e He. apply (Hk (f e)); [apply HF, He|done]. Qed.

Lemma lift_then (o : option A) (k : A -> M B) L R a : o = Some a -> triple (good p L) (k a) R ->
  triple (good p L) (mbind (M := M) k (lift o)) R.
Proof. by intros ->. Qed.

(** A read, with what the invariant says of the value. *)
Lemma safe_get_bind (f : Engine -> A) (k : A -> M B) (F : A -> Prop) :
  (forall e, inv p e -> F (f e)) -> (forall a, F a -> safe p (k a)) -> safe p (mbind (M := M) k (get f)).
Proof. intros HF Hk L e He. apply (Hk (f e)); [apply HF, He|done]. Qed.

Lemma safe_get (f : Engine -> A) : safe p (get f).
Proof. intros L e He. by exists (f e), e. Qed.

Lemma safe_lift_bind (o : option A) (k : A -> M B) a : o = Some a -> safe p (k a) -> safe p (mbind (M := M) k (lift o)).
Proof. intros -> Hk L. apply Hk. Qed.

Lemma safe_ask (f : nat -> A) : safe p (ask f).
Proof. intros L e He. eexists _, _. split; [reflexivity|]. by apply (good_core p L e). Qed.

Lemma safe_for_each (l : list A) (body : A -> M unit) : (forall x, x ∈ l -> safe p (body x)) -> safe p (for_each l body).
Proof.
  induction l as [|x l IH]; intros H L; cbn [for_each]; [apply triple_ret|].
  eapply triple_bind; [apply H; set_solver|]. intros ?. apply IH. intros y Hy. apply H. set_solver.
Qed.

Lemma safe_when_some (o : option A) (k : A -> M unit) : (forall a, o = Some a -> safe p (k a)) -> safe p (when_some o k).
Proof. intros H. destruct o; [by apply H|intros L; apply triple_ret]. Qed.
End Rules.

Lemma safe_skip p : safe p skip.
Proof. apply safe_ret. Qed.

Lemma safe_when p b m : (b = true -> safe p m) -> safe p (when b m).
Proof. intros H. destruct b; [by apply H|apply safe_skip]. Qed.

Lemma safe_update p f : (forall e, core_view (f e) = core_view e) -> safe p (update f).
Proof. intros H L e He. eexists _, _. split; [reflexivity|]. by apply (good_core p L e). Qed.

Lemma safe_inc p c : safe p (inc c).
Proof. by apply safe_update. Qed.
Lemma safe_inc_by p c n : safe p (inc_by c n).
Proof. by apply safe_update. Qed.
Lemma safe_tx_calls p ops : safe p (tx_calls ops).
Proof. by apply safe_update. Qed.
Lemma safe_wheel_add p now n : safe p (wheel_add now n).
Proof.
  intros L e He. unfold wheel_add. destruct (add now n (eg_timer_wheel e)) as [w id].
  eexists _, _. split; [reflexivity|]. by apply (good_core p L e).
Qed.
Lemma safe_wheel_cancel p id : safe p (wheel_cancel id).
Proof.
  intros L e He. unfold wheel_cancel. destruct (cancel id (eg_timer_wheel e)) as [b w].
  eexists _, _. split; [reflexivity|]. by apply (good_core p L e).
Qed.

(** ** Events *)

Lemma safe_push_event p ev : event_mbufs ev = [] -> safe p (push_event ev).
Proof.
  intros Hev L e [[H1 H2 H3 HH H4 H5 H6] H7]. unfold push_event. pose proof (event_push_spec ev _ (eg_obs e) H6) as S.
  destruct (event_push ev (eg_events e) (eg_obs e)) as [[q obs] ops]. destruct S as (S1 & _ & _ & _ & S2).
  eexists _, _. split; [reflexivity|]. split; [by split|]. intros m. rewrite <- H7. unfold ledger, held.
  cbn [field_set eg_flow_table eg_events eg_drained eg_rx_ops]. rewrite S2, ref_delta_app.
  unfold owned at 3. unfold InternalEvent_owner. rewrite Hev. cbn. lia.
Qed.

(** A readable event takes over the references of its views. *)
Lemma push_readable p L ev : triple (good p L) (push_event ev) (fun _ => good p (fun m => L m + owned m ev)).
Proof.
  intros e [[H1 H2 H3 HH H4 H5 H6] H7]. unfold push_event. pose proof (event_push_spec ev _ (eg_obs e) H6) as S.
  destruct (event_push ev (eg_events e) (eg_obs e)) as [[q obs] ops]. destruct S as (S1 & _ & _ & _ & S2).
  eexists _, _. split; [reflexivity|]. split; [by split|]. intros m. rewrite <- H7. unfold ledger, held.
  cbn [field_set eg_flow_table eg_events eg_drained eg_rx_ops]. rewrite S2, ref_delta_app. lia.
Qed.

Lemma rx_calls_good p L ops : triple (good p L) (rx_calls ops) (fun _ => good p (fun m => L m - ref_delta m ops)).
Proof.
  intros e [H1 H2]. eexists _, _. split; [reflexivity|]. split; [by destruct H1|]. intros m. rewrite <- H2.
  unfold ledger, held. cbn [field_set eg_flow_table eg_events eg_drained eg_rx_ops]. rewrite ref_delta_app. lia.
Qed.

(** ** Slots *)

Lemma owned_insert m (l : list (option TcpConn)) i x y : l !! i = Some x ->
  owned m (<[i := y]> l) = owned m l + (owned m y - owned m x).
Proof.
  revert i. induction l as [|z l IH]; intros [|i] H; cbn [lookup list_lookup] in H; try done.
  - injection H as ->. cbn [insert list_insert]. rewrite !owned_cons. lia.
  - change (<[S i := y]> (z :: l)) with (z :: <[i := y]> l). rewrite !owned_cons, (IH i H). lia.
Qed.

Lemma slots_update t h f c : ft_get t h = Some c ->
  ft_slots (ft_update t h f) = <[handle_idx h := Some (f c)]> (ft_slots t) /\
  ft_slots t !! handle_idx h = Some (Some c).
Proof.
  intros E. unfold ft_update. rewrite E. cbn [field_set ft_slots]. split; [done|]. by apply ft_get_some in E as [_ ?].
Qed.

(** Assigning the connection of [h]: what the new one must satisfy, and what happens
    to the ledger. *)
Lemma update_conn_at p p' L L' h f :
  (forall c, conn_base c -> slot_inv p (handle_idx h) c ->
     c_four_tuple (f c) = c_four_tuple c /\ conn_base (f c) /\ slot_inv p' (handle_idx h) (f c) /\
     forall m, L' m = L m + (owned m (f c) - owned m c)) ->
  (forall i c, i <> handle_idx h -> slot_inv p i c -> slot_inv p' i c) ->
  match p' with Some P => pd_slot P = handle_idx h \/ p = p' | None => True end ->
  forall e, is_Some (ft_get (eg_flow_table e) h) -> good p L e ->
    good p' L' (e <| eg_flow_table ::= fun t => ft_update t h f |>).
Proof.
  intros Hf Hp Hh e [c Hc] [[H1 H2 H3 HH H4 H5 H6] H7]. destruct (slots_update _ _ f _ Hc) as [Es Ec].
  destruct (Hf c (H2 _ _ Ec) (H3 _ _ Ec)) as (F1 & F2 & F3 & F4).
  assert (Hsl : forall i c', ft_slots (ft_update (eg_flow_table e) h f) !! i = Some (Some c') ->
    (i = handle_idx h /\ c' = f c) \/ (i <> handle_idx h /\ ft_slots (eg_flow_table e) !! i = Some (Some c'))).
  { intros i c'. rewrite Es. destruct (decide (i = handle_idx h)) as [->|N].
    - rewrite list_lookup_insert_eq by (by eapply lookup_lt_Some). intros E. injection E as <-. by left.
    - rewrite list_lookup_insert_ne by done. by right. }
  split.
  - split; cbn [field_set eg_flow_table eg_gateway_mac eg_pmtu eg_events]; try done.
    + apply ft_update_ok; [|done]. intros c' Hc'. by rewrite Hc in Hc'; injection Hc' as <-.
    + intros i c' Hi. apply Hsl in Hi as [[_ ->]|[_ Hi]]; [done|by eapply H2].
    + intros i c' Hi. apply Hsl in Hi as [[-> ->]|[N Hi]]; [done|]. by apply Hp, H3.
    + destruct p' as [P|]; [|done]. rewrite Es. destruct (decide (pd_slot P = handle_idx h)) as [->|N].
      * rewrite list_lookup_insert_eq by (by eapply lookup_lt_Some). eauto.
      * destruct Hh as [?|Ep]; [done|]. rewrite Ep in HH. by rewrite list_lookup_insert_ne.
  - intros m. rewrite F4, <- H7. unfold ledger, held. cbn [field_set eg_flow_table eg_events eg_drained eg_rx_ops].
    rewrite Es, (owned_insert m _ _ (Some c)) by done. cbn [owned option_owner]. lia.
Qed.

Lemma ft_update_absent t h f : ft_get t h = None -> ft_update t h f = t.
Proof. intros E. unfold ft_update. by rewrite E. Qed.

Lemma safe_update_conn p h f : (forall c, keeps conn_view c (f c)) -> safe p (update_conn h f).
Proof.
  intros Hf L e He. eexists _, _. split; [reflexivity|].
  destruct (ft_get (eg_flow_table e) h) as [c|] eqn:Hc.
  - apply (update_conn_at p p L L h f); [|done|by destruct p; auto|by rewrite Hc|done].
    intros c' Hb Hs. specialize (Hf c'). split_and!; eauto using conn_base_keeps, slot_inv_keeps.
    + by apply conn_view_inv in Hf; destruct_and!.
    + intros m. rewrite (conn_owned_keeps m _ _ Hf). lia.
  - apply (good_core p L e); [|done]. unfold core_view. cbn [field_set eg_flow_table eg_gateway_mac eg_pmtu eg_events eg_drained eg_rx_ops].
    by rewrite ft_update_absent.
Qed.
