(* ===== verification/EngineSafe.v ===== *)
(** * The engine's operations keep its invariant: transmission and timers

    Every operation of [EngineTx] and [EngineTimers] that leaves the receive side
    alone is shown to keep [good p L] whatever [p]: it does not panic, keeps the
    invariant and moves no packet reference of the receive path. *)

From S2P Require Import Prelude.
From S2P Require Import Mbuf.
From S2P Require Import Reassembly.
From S2P Require Import Retrans.
From S2P Require Import Rtt.
From S2P Require Import TimerWheel.
From S2P Require Import Options.
From S2P Require Import Ip.
From S2P Require Import Output.
From S2P Require Import Segment.
From S2P Require Import Conn.
From S2P Require Import FlowTable.
From S2P Require Import Input.
From S2P Require Import Receive.
From S2P Require Import Dispatch.
From S2P Require Import InputSpec.
From S2P Require Import DispatchFrame.
From S2P Require Import AckBuild.
From S2P Require Import Arp.
From S2P Require Import Icmp.
From S2P Require Import Events.
From S2P Require Import Listen.
From S2P Require Import Engine.
From S2P Require Import EngineTx.
From S2P Require Import EngineTimers.
From S2P Require Import EngineListen.
From S2P Require Import EngineInv.

Create HintDb safe discriminated.
#[export] Hint Resolve safe_ret safe_skip safe_get safe_ask safe_inc safe_inc_by safe_tx_calls safe_wheel_add
  safe_wheel_cancel : safe.

(** A field update outside [conn_view], possibly through a named setter. *)
Ltac conn_keeps :=
  intros ?; cbv beta; unfold set_rto_timer, set_tlp_timer, set_syn_timer, forget_timer;
  repeat case_match; keeps_tac.

(** One step of the walk through a computation; leaves what it cannot do. *)
Ltac safe_step :=
  lazymatch goal with
  | |- safe _ (when _ _) => apply safe_when; intros ?
  | |- safe _ (when_some _ _) => apply safe_when_some; intros ? ?
  | |- safe _ (for_each _ _) => apply safe_for_each; intros ? ?
  | |- safe _ (update_conn _ _) => apply safe_update_conn; conn_keeps
  | |- safe _ (update _) => apply safe_update; intros ?; reflexivity
  | |- safe _ (push_event _) => apply safe_push_event; reflexivity
  | |- safe _ (mbind _ (get eg_gateway_mac)) =>
      apply (safe_get_bind _ _ _ (fun gw => length gw = 6%nat)); [intros ? Hi; exact (iv_mac _ _ Hi)|intros ? ?]
  | |- safe _ (mbind _ (lift _)) => fail
  | |- safe _ (mbind _ _) => apply safe_bind; [|intros ?]
  | |- safe _ (if ?b then _ else _) => destruct b eqn:?
  | |- safe _ (match ?x with _ => _ end) => destruct x eqn:?
  | |- safe _ _ => solve [eauto with safe]
  end.
Ltac safe_walk := repeat (cbv beta zeta; safe_step).

Lemma default_room : sack_room TcpOpts_default.
Proof. split; cbv; [apply Nat.le_0_l|done]. Qed.
Lemma syn_opts_room a b c d e : sack_room (build_connect_syn_opts a b c d e).
Proof. split; cbv; [apply Nat.le_0_l|done]. Qed.

Section Safe.
Context `{Platform} `{EngineConfig}.
Context (Hmac : length our_mac = 6%nat).

Lemma safe_get_conn p h : safe p (get_conn h).
Proof. apply safe_get. Qed.

Lemma safe_update_listen p f : safe p (update_listen f).
Proof. by apply safe_update. Qed.
Lemma safe_push_frame p b : safe p (push_tx_frame b).
Proof. by apply safe_update. Qed.
#[local] Hint Resolve safe_get_conn safe_update_listen safe_push_frame : safe.
Lemma safe_burst_one p m b : safe p (burst_one m b).
Proof. unfold burst_one. safe_walk. Qed.
#[local] Hint Resolve safe_burst_one : safe.
Lemma safe_tx_submit p a f bytes : safe p (tx_submit a f bytes).
Proof. unfold tx_submit. safe_walk. Qed.
#[local] Hint Resolve safe_tx_submit : safe.

Lemma safe_tx_frame p bytes : safe p (tx_frame bytes).
Proof. apply safe_tx_submit. Qed.
Lemma safe_tx_tcp_frame p bytes seg : safe p (tx_tcp_frame bytes seg).
Proof. apply safe_tx_submit. Qed.
Lemma safe_tx_data_frame p bytes : safe p (tx_data_frame bytes).
Proof. apply safe_tx_submit. Qed.
#[local] Hint Resolve safe_tx_frame safe_tx_tcp_frame : safe.

Lemma safe_build_and_tx p n seg : seg_shape seg -> safe p (build_and_tx n seg).
Proof.
  intros Hs. unfold build_and_tx. destruct (build_segment_total seg (replicate n 0) Hs) as (r & E & _).
  eapply safe_lift_bind; [exact E|]. safe_walk.
Qed.

Lemma ctrl_shape gw t seq ack fl w o : length gw = 6%nat -> sack_room o -> seg_shape (ctrl_segment gw t seq ack fl w o).
Proof. intros Hg [Ho1 Ho2]. split; cbn; [done|done|lia]. Qed.

(** ** Control segments *)

Lemma safe_emit_ack p h : safe p (emit_ack h).
Proof.
  unfold emit_ack. safe_walk. apply safe_build_and_tx, ctrl_shape; [done|]. apply ack_outcome_room.
Qed.
Lemma safe_emit_rst p h seg : safe p (emit_rst h seg).
Proof. unfold emit_rst. safe_walk. apply safe_build_and_tx, ctrl_shape; [done|apply default_room]. Qed.
Lemma safe_emit_rst_bad_ack p t seg : safe p (emit_rst_for_syn_sent_bad_ack t seg).
Proof. unfold emit_rst_for_syn_sent_bad_ack. safe_walk. apply safe_build_and_tx, ctrl_shape; [done|apply default_room]. Qed.
Lemma safe_rst_unmatched p t seg : safe p (send_rst_unmatched t seg).
Proof. unfold send_rst_unmatched. safe_walk. apply safe_build_and_tx, ctrl_shape; [done|apply default_room]. Qed.
Lemma safe_emit_syn_flags p h fl now : safe p (emit_syn_with_flags h fl now).
Proof. unfold emit_syn_with_flags. safe_walk. apply safe_build_and_tx, ctrl_shape; [done|apply syn_opts_room]. Qed.
#[local] Hint Resolve safe_emit_ack safe_emit_rst safe_emit_rst_bad_ack safe_rst_unmatched safe_emit_syn_flags : safe.
Lemma safe_emit_syn p h : safe p (emit_syn h).
Proof. unfold emit_syn. safe_walk. Qed.

(** The options of a segment after the handshake carry no SACK block. *)
Lemma ts_options_then {A} p L c (k : TcpOpts -> M A) R : (forall o, sack_room o -> triple (good p L) (k o) R) ->
  triple (good p L) (mbind (M := M) k (ts_options c)) R.
Proof.
  intros Hk e He. unfold ts_options. destruct (c_ts_enabled c); [|exact (Hk _ default_room e He)].
  set (o := TcpOpts_default <| timestamps := Some (tsval_of (pl_now (eg_step e)), c_ts_recent c) |>).
  apply (Hk o (conj (Nat.le_0_l _) eq_refl)). by apply (good_core p L e).
Qed.

Lemma ts_options_bind {A} p c (k : TcpOpts -> M A) : (forall o, sack_room o -> safe p (k o)) ->
  safe p (mbind (M := M) k (ts_options c)).
Proof. intros Hk L. apply ts_options_then. intros o Ho. by apply Hk. Qed.

(** ** The pending ring and retransmission *)

Lemma safe_burst_ring p ring : safe p (burst_ring ring).
Proof. unfold burst_ring. safe_walk. Qed.
#[local] Hint Resolve safe_burst_ring : safe.
Lemma safe_drain_tx p : safe p drain_tx_pending_data.
Proof. unfold drain_tx_pending_data. safe_walk. Qed.
#[local] Hint Resolve safe_emit_syn safe_drain_tx : safe.
Lemma safe_push_pending p m : safe p (push_pending m).
Proof. unfold push_pending. safe_walk. Qed.
Lemma safe_fill p m b : safe p (fill_mbuf m b).
Proof. unfold fill_mbuf. safe_walk. Qed.
Lemma safe_nomem p h : safe p (retransmit_nomem h).
Proof. unfold retransmit_nomem. safe_walk. Qed.
#[local] Hint Resolve safe_push_pending safe_fill safe_nomem : safe.

Lemma safe_retransmit p h idx : safe p (retransmit h idx).
Proof.
  unfold retransmit. apply safe_bind; [eauto with safe|intros _]. apply safe_bind; [eauto with safe|intros oc].
  destruct (oc ≫= _) as [[c entry]|]; [|safe_walk]. cbv zeta. destruct (re_mbuf entry =? 0); [safe_walk|].
  apply safe_bind; [eauto with safe|intros [hdr|]]; [|safe_walk].
  apply ts_options_bind. intros o Ho.
  apply (safe_get_bind _ _ _ (fun gw => length gw = 6%nat)); [intros ? Hi; exact (iv_mac _ _ Hi)|intros gw Hgw].
  apply safe_bind; [eauto with safe|intros room]. cbv zeta.
  set (seg := ctrl_segment _ _ _ _ _ _ _). set (pl := take _ _).
  destruct (build_retrans_total seg pl (replicate 128 0) (ctrl_shape _ _ _ _ _ _ _ Hgw Ho)) as (r & E & _).
  eapply safe_lift_bind; [exact E|]. safe_walk.
Qed.

(** ** Arming, and the timers *)

Lemma safe_arm p h k now at_ set : (forall o c, keeps conn_view c (set o c)) -> safe p (arm_timer h k now at_ set).
Proof.
  intros Hs. unfold arm_timer. apply safe_bind; [eauto with safe|intros id]. apply safe_update_conn.
  intros c. transitivity (c <| c_timer_ids ::= fun l => l ++ [id] |>); [keeps_tac|apply Hs].
Qed.
Lemma rto_keeps o c : keeps conn_view c (set_rto_timer o c).
Proof. unfold set_rto_timer. keeps_tac. Qed.
Lemma tlp_keeps o c : keeps conn_view c (set_tlp_timer o c).
Proof. unfold set_tlp_timer. keeps_tac. Qed.
Lemma syn_keeps o c : keeps conn_view c (set_syn_timer o c).
Proof. unfold set_syn_timer. keeps_tac. Qed.
#[local] Hint Resolve safe_retransmit safe_arm rto_keeps tlp_keeps syn_keeps : safe.

Lemma safe_arm_tlp p h : safe p (arm_tlp_pto h).
Proof.
  unfold arm_tlp_pto. safe_walk.
  destruct (srtt_us (c_rtt_est _)) as [s|] eqn:E; [|].
  - eapply safe_lift_bind; [reflexivity|]. safe_walk.
  - exfalso. unfold tlp_arm_gate_passes in *. rewrite E in *. repeat case_match; done.
Qed.

Lemma safe_cancel_all p l : safe p (cancel_all l).
Proof. unfold cancel_all. safe_walk. Qed.
#[local] Hint Resolve safe_arm_tlp safe_cancel_all : safe.

Lemma safe_report_rto p h l : safe p (report_rto h l).
Proof. unfold report_rto. safe_walk. Qed.
#[local] Hint Resolve safe_report_rto : safe.

(** ** The passive handshake *)

Lemma safe_clear_progress p h : safe p (clear_in_progress_for_conn h).
Proof. unfold clear_in_progress_for_conn. eauto with safe. Qed.
Lemma safe_promote p h : safe p (listen_promote_to_accept_queue h).
Proof. unfold listen_promote_to_accept_queue. eauto with safe. Qed.
Lemma safe_syn_ack p h : safe p (emit_syn_ack_for_passive h).
Proof. unfold emit_syn_ack_for_passive. safe_walk. Qed.
Lemma safe_refuse_syn p a b c d i : safe p (emit_rst_for_unsolicited_syn a b c d i).
Proof. unfold emit_rst_for_unsolicited_syn. safe_walk. apply safe_build_and_tx, ctrl_shape; [done|apply default_room]. Qed.

Lemma safe_tx_arp p b : safe p (tx_arp b).
Proof. unfold tx_arp. safe_walk. Qed.
#[local] Hint Resolve safe_tx_arp : safe.
Lemma safe_garp p : safe p maybe_emit_gratuitous_arp.
Proof. unfold maybe_emit_gratuitous_arp. safe_walk. Qed.
Lemma safe_probe_gw p : safe p maybe_probe_gateway_mac.
Proof. unfold maybe_probe_gateway_mac. safe_walk. Qed.
End Safe.

#[export] Hint Resolve safe_get_conn safe_update_listen safe_push_frame safe_burst_one safe_tx_submit safe_tx_frame safe_tx_tcp_frame safe_emit_ack
  safe_emit_rst safe_emit_rst_bad_ack safe_rst_unmatched safe_emit_syn_flags safe_emit_syn safe_drain_tx
  safe_push_pending safe_fill safe_nomem safe_retransmit safe_arm rto_keeps tlp_keeps syn_keeps safe_arm_tlp
  safe_cancel_all safe_report_rto safe_clear_progress safe_promote safe_syn_ack safe_refuse_syn safe_tx_arp safe_garp safe_probe_gw : safe.
