(* ===== verification/EngineStep.v ===== *)
(** * The engine's operations keep its invariant: states, removal and delivery

    State transitions, closing, forced close, the reaper, the timer handlers and the
    delivery of received bytes. *)

From S2P Require Import Prelude.
From S2P Require Import Seq.
From S2P Require Import Mbuf.
From S2P Require Import Reassembly.
From S2P Require Import Retrans.
From S2P Require Import Rtt.
From S2P Require Import TimerWheel.
From S2P Require Import Options.
From S2P Require Import Output.
From S2P Require Import Segment.
From S2P Require Import Conn.
From S2P Require Import FlowTable.
From S2P Require Import Input.
From S2P Require Import Receive.
From S2P Require Import Dispatch.
From S2P Require Import InputSpec.
From S2P Require Import DispatchFrame.
From S2P Require Import AckBuild.
From S2P Require Import Events.
From S2P Require Import Readable.
From S2P Require Import Listen.
From S2P Require Import Engine.
From S2P Require Import EngineTx.
From S2P Require Import EngineTimers.
From S2P Require Import EngineListen.
From S2P Require Import EngineRx.
From S2P Require Import EngineInv.
From S2P Require Import EngineSafe.

(** ** In and out of a pending slot *)

Lemma slot_inv_self P i c : slot_inv (Some P) i c -> i = pd_slot P -> pd_inv P c.
Proof. intros H ->. cbn in H. by rewrite Nat.eqb_refl in H. Qed.

Lemma slot_inv_other P i c : i <> pd_slot P -> slot_inv (Some P) i c <-> conn_ok c.
Proof. intros N. cbn. by rewrite (proj2 (Nat.eqb_neq _ _) N). Qed.

Lemma slot_inv_out P i c : slot_inv (Some P) i c -> i <> pd_slot P -> conn_ok c.
Proof. intros H N. by apply (slot_inv_other P i c N). Qed.

Lemma slot_inv_in P c : pd_inv P c -> slot_inv (Some P) (pd_slot P) c.
Proof. cbn. by rewrite Nat.eqb_refl. Qed.

(** The pending slot is settled when its connection is in order. *)
Lemma settle P L e : (forall c, pd_inv P c -> conn_ok c) -> good (Some P) L e -> good None L e.
Proof.
  intros HP [[H1 H2 H3 HH H4 H5 H6] H7]. split; [split; try done|done]. intros i c Hi. specialize (H3 i c Hi).
  destruct (decide (i = pd_slot P)) as [E|N].
  - by apply HP, (slot_inv_self P i).
  - exact (slot_inv_out P i c H3 N).
Qed.

Lemma unfocus h c L e : conn_ok c -> good (Some (is_conn h c)) L e -> good None L e.
Proof. intros Hc. apply settle. intros c' K. exact (conn_ok_keeps _ _ K Hc). Qed.

(** The connection named by the pending slot is there. *)
Lemma pending_here P h L e : pd_slot P = handle_idx h -> good (Some P) L e -> is_Some (ft_get (eg_flow_table e) h).
Proof.
  intros E [[H1 _ _ [c Hc] _ _ _] _]. rewrite E in Hc. exists c. by apply slot_get.
Qed.

(** Reading a connection: from then on its slot is known to hold it. *)
Lemma focus_at L h c e : ft_get (eg_flow_table e) h = Some c -> good None L e ->
  conn_ok c /\ conn_base c /\ good (Some (is_conn h c)) L e.
Proof.
  intros Hg [[H1 H2 H3 HH H4 H5 H6] H7]. pose proof (proj2 (ft_get_some _ _ _ Hg)) as Hi.
  split; [by apply (H3 _ _ Hi)|]. split; [by apply (H2 _ _ Hi)|].
  split; [split; try done|done]; [|by exists c]. intros i c' Hc'. destruct (decide (i = handle_idx h)) as [->|N].
  - rewrite Hi in Hc'. injection Hc' as <-. by apply (slot_inv_in (is_conn h c)).
  - apply slot_inv_other; [exact N|]. exact (H3 _ _ Hc').
Qed.

Lemma focus {A} L h (k : option TcpConn -> M A) R :
  triple (good None L) (k None) R ->
  (forall c, conn_ok c -> conn_base c -> triple (good (Some (is_conn h c)) L) (k (Some c)) R) ->
  triple (good None L) (mbind (M := M) k (get_conn h)) R.
Proof.
  intros Hn Hs e He. unfold mbind, M_bind, get_conn, get.
  destruct (ft_get (eg_flow_table e) h) as [c|] eqn:Hg; [|by apply Hn].
  destruct (focus_at L h c e Hg He) as (H1 & H2 & H3). by apply Hs.
Qed.

(** Assigning the connection in focus. *)
Lemma assign p' L L' h c f :
  (forall c', keeps conn_view c c' -> conn_base c' ->
     c_four_tuple (f c') = c_four_tuple c /\ conn_base (f c') /\ slot_inv p' (handle_idx h) (f c') /\
     forall m, L' m = L m + (owned m (f c') - owned m c)) ->
  match p' with Some P => pd_slot P = handle_idx h | None => True end ->
  triple (good (Some (is_conn h c)) L) (update_conn h f) (fun _ => good p' L').
Proof.
  intros Hf Hp e He. eexists _, _. split; [reflexivity|].
  apply (update_conn_at (Some (is_conn h c)) p' L L' h f); [| | |exact (pending_here (is_conn h c) h L e eq_refl He)|done].
  - intros c' Hb Hs. apply (slot_inv_self (is_conn h c)) in Hs; [|done]. cbn in Hs.
    destruct (Hf c' Hs Hb) as (F1 & F2 & F3 & F4). split; [rewrite F1; by apply conn_view_inv in Hs as (_ & _ & _ & _ & _ & _ & _ & -> & _)|].
    split_and!; try done. intros m. rewrite F4, (conn_owned_keeps m _ _ Hs). done.
  - intros i c' Ni Hs. apply (slot_inv_out (is_conn h c)) in Hs; [|done].
    destruct p' as [P|]; [|done]. apply slot_inv_other; [by rewrite Hp|done].
  - destruct p'; [by left|done].
Qed.

(** ** Removal *)

Lemma view_frees m (l : list InOrderSegment) : ref_delta m (map (fun s => FreeSeg (h_ptr (io_mbuf s))) l) = - owned m l.
Proof.
  induction l as [|s l IH]; [done|]. cbn [map]. rewrite ref_delta_cons, owned_cons, IH. cbn [op_delta].
  change (owned m s) with (if h_ptr (io_mbuf s) =? m then 1 else 0). destruct (h_ptr (io_mbuf s) =? m); lia.
Qed.

Lemma reorder_frees m (l : list OooSegment) : ref_delta m (map drop_segment_mbuf_ref l) = - owned m l.
Proof.
  induction l as [|s l IH]; [done|]. cbn [map]. rewrite ref_delta_cons, owned_cons, IH. unfold drop_segment_mbuf_ref.
  cbn [op_delta]. unfold owned at 2, OooSegment_owner. destruct (os_mbuf s =? m); lia.
Qed.

Lemma drop_conn_delta m c : ref_delta m (drop_conn c) = - owned m c.
Proof.
  unfold drop_conn. rewrite owned_conn, ref_delta_app, view_frees, owned_app. unfold reorder_drop. rewrite reorder_frees.
  change (owned m (c_recv c)) with (owned m (rv_bytes (c_recv c)) + owned m (segments (rv_reorder (c_recv c)))). lia.
Qed.

Lemma safe_remove_conn h : safe None (remove_conn h).
Proof.
  intros L e [[H1 H2 H3 HH H4 H5 H6] H7]. unfold remove_conn. pose proof (ft_remove_slots _ h H1) as R.
  destruct (ft_get (eg_flow_table e) h) as [c|] eqn:Hg.
  - destruct (ft_remove (eg_flow_table e) h) as [t r]. cbn [fst snd] in R. destruct R as (-> & Es & Hok).
    apply ft_get_some in Hg as [_ Hi]. eexists _, _. split; [reflexivity|].
    assert (Hold : forall i c', ft_slots t !! i = Some (Some c') -> ft_slots (eg_flow_table e) !! i = Some (Some c')).
    { intros i c' Hc'. rewrite Es in Hc'. destruct (decide (i = handle_idx h)) as [->|N].
      - rewrite list_lookup_insert_eq in Hc' by (by eapply lookup_lt_Some). discriminate Hc'.
      - by rewrite list_lookup_insert_ne in Hc'. }
    split; [split; cbn [field_set eg_flow_table eg_gateway_mac eg_pmtu eg_events]; eauto|].
    intros m. rewrite <- H7. unfold ledger, held. cbn [field_set eg_flow_table eg_events eg_drained eg_rx_ops].
    rewrite Es, (owned_insert m _ _ (Some c)), ref_delta_app, drop_conn_delta by done. cbn [owned option_owner]. lia.
  - rewrite R. eexists _, _. split; [reflexivity|].
    apply (good_core None L e); [|split; [by split|done]]. unfold core_view.
    cbn [field_set eg_flow_table eg_gateway_mac eg_pmtu eg_events eg_drained eg_rx_ops]. by rewrite app_nil_r.
Qed.
#[export] Hint Resolve safe_remove_conn : safe.

(** ** State transitions *)

Lemma state_eta c : keeps conn_view (c <| c_state := c_state c |>) c.
Proof. reflexivity. Qed.

(** States with no requirement beyond the numbers. *)
Definition late_state (s : TcpState) : bool :=
  match s with FinWait1 | FinWait2 | Closing | LastAck | TimeWait | Closed => true | _ => false end.

Lemma late_ok c s : late_state s = true -> conn_ok c -> conn_ok (c <| c_state := s |>).
Proof.
  intros Hl Hc. pose proof (conn_flight c Hc) as Hf. destruct Hc as [H1 H2 H3 _ H5 H6 _].
  split; conn_simpl; try done; by destruct s.
Qed.

(** Popping keeps the queue well formed and every reference accounted for. *)
Lemma pop_keeps l : forall n, Forall (fun v => 0 < io_len v < two16) l ->
  let '(popped, kept, ops, split) := pop_delivered l n in
  Forall (fun v => 0 < io_len v < two16) kept /\ zsum io_len kept <= zsum io_len l /\
  forall m, owned m popped + owned m kept = owned m l + ref_delta m ops.
Proof.
  induction l as [|s l IH]; intros n Hl; cbn [pop_delivered]; destruct (Z.ltb_spec 0 n).
  - split_and!; done.
  - split_and!; done.
  - apply Forall_cons in Hl as [Hs Hl]. destruct (Z.leb_spec (io_len s) n).
    + specialize (IH (n - io_len s) Hl). destruct (pop_delivered l (n - io_len s)) as [[[popped kept] ops] split].
      destruct IH as (I1 & I2 & I3). split_and!; [done|rewrite zsum_cons; lia|]. intros m. specialize (I3 m). refs.
    + rewrite u16_id by width_lia. destruct s as [[p] off len]. cbn [io_mbuf io_offset io_len try_clone field_set h_ptr] in *.
      unfold sat_sub. rewrite Z.max_r by lia. split_and!.
      * constructor; [cbn; lia|done].
      * rewrite !zsum_cons. cbn [io_len]. lia.
      * intros m. refs. unfold owned, InOrderSegment_owner, owned, MbufHandle_owner. cbn. destruct (p =? m); lia.
  - split_and!; [done|lia|]. intros m. refs.
Qed.

Lemma delivered_ok c kept : Forall (fun v => 0 < io_len v < two16) kept ->
  zsum io_len kept <= zsum io_len (rv_bytes (c_recv c)) -> conn_ok c ->
  conn_ok (c <| c_recv ::= fun q => q <| rv_bytes := kept |> |>).
Proof.
  intros Hk Hz [H1 H2 H3 H4 H5 [R1 R2 R3] H7]. split; conn_simpl; try done. split; [done|done|]. etrans; [exact Hz|exact R3].
Qed.

Section Step.
Context `{Platform} `{EngineConfig}.

(** The connection while [transition_conn] moves it to [to] at time [now]. *)
Definition moved (now : Z) (to : TcpState) (c : TcpConn) : TcpConn :=
  if bool_decide (to = TimeWait)
  then (c <| c_state := to |>) <| c_time_wait_deadline_ns := Some (msl_deadline now) |> else c <| c_state := to |>.

(** What [transition_conn] does, in one assignment and one event. *)
Lemma transition_conn_run h to e c : ft_get (eg_flow_table e) h = Some c -> c_state c <> to ->
  exists e1 now ts, core_view e1 = core_view (e <| eg_flow_table ::= fun t => ft_update t h (moved now to) |>) /\
    eg_counters e1 = eg_counters e ++ [(StateTrans (c_state c) to, 1)] /\ eg_tx_ops e1 = eg_tx_ops e /\
    transition_conn h to e = push_event (EvStateChange h (c_state c) to ts) e1.
Proof.
  intros Hg Hn. unfold transition_conn, mbind, M_bind, get_conn, get. rewrite Hg. cbv zeta.
  rewrite bool_decide_eq_false_2 by done. unfold moved. destruct (bool_decide (to = TimeWait)) eqn:Et; cbn [when].
  - unfold update_conn, update, inc, inc_by, ask, mbind, M_bind, update.
    eexists _, (pl_now (eg_step e)), _. split; [|split; [|split; [|reflexivity]]]; [|reflexivity..].
    unfold core_view. cbn [field_set eg_flow_table eg_gateway_mac eg_pmtu eg_events eg_drained eg_rx_ops].
    by rewrite ft_update_twice.
  - unfold update_conn, update, inc, inc_by, ask, mbind, M_bind, skip, mret, M_ret, update.
    eexists _, 0, _. split; [|split; [|split; [|reflexivity]]]; reflexivity.
Qed.

Lemma moved_view now to c : c_four_tuple (moved now to c) = c_four_tuple c /\
  (conn_base c -> conn_base (moved now to c)) /\ (conn_ok (c <| c_state := to |>) -> conn_ok (moved now to c)) /\
  (forall m, owned m (moved now to c) = owned m c).
Proof.
  unfold moved. destruct (decide (to = TimeWait)) as [E|E].
  - rewrite bool_decide_eq_true_2 by done. split_and!; try done.
    + intros [B1 B2 B3 B4]. split; conn_simpl; [done|done|by eexists|done].
    + by apply conn_ok_view.
  - rewrite bool_decide_eq_false_2 by done. split_and!; try done.
    intros [B1 B2 B3 B4]. split; conn_simpl; [done|done| |done]. intros ->. done.
Qed.

(** The transition announced by the pending slot. *)
Lemma transition_settles L h to :
  triple (good (Some (to_state h to)) L) (transition_conn h to) (fun _ => good None L).
Proof.
  intros e He. destruct (pending_here (to_state h to) h L e eq_refl He) as [c Hg]. destruct (decide (c_state c = to)) as [<-|N].
  - unfold transition_conn, mbind, M_bind, get_conn, get. rewrite Hg. cbv zeta. rewrite bool_decide_eq_true_2 by done.
    eexists _, _. split; [reflexivity|]. pose proof (proj2 (ft_get_some _ _ _ Hg)) as Hi.
    destruct He as [[H1 H2 H3 HH H4 H5 H6] H7]. split; [split; try done|done]. intros i c' Hc'.
    destruct (decide (i = handle_idx h)) as [->|Ni].
    + rewrite Hi in Hc'. injection Hc' as <-. pose proof (H3 _ _ Hi) as Hp.
      apply (slot_inv_self (to_state h (c_state c))) in Hp; [|done]. cbn in Hp. exact (conn_ok_keeps _ _ (state_eta c) Hp).
    + exact (slot_inv_out (to_state h (c_state c)) i c' (H3 _ _ Hc') Ni).
  - destruct (transition_conn_run h to e c Hg N) as (e1 & now & ts & Hv & _ & _ & ->).
    apply safe_push_event; [done|]. apply (good_core None L _ e1 Hv).
    apply (update_conn_at (Some (to_state h to)) None L L h); [| |done|by rewrite Hg|done].
    + intros c' Hb Hs. apply slot_inv_self in Hs; [|done]. destruct (moved_view now to c') as (M1 & M2 & M3 & M4).
      split_and!; auto. { by apply M3. } intros m. rewrite M4. lia.
    + intros i c' Ni Hs. exact (slot_inv_out (to_state h to) i c' Hs Ni).
Qed.

(** A transition to a late state is always allowed. *)
Lemma safe_transition_late h to : late_state to = true -> safe None (transition_conn h to).
Proof.
  intros Hl L e He. destruct (ft_get (eg_flow_table e) h) as [c|] eqn:Hg.
  - apply transition_settles. pose proof (proj2 (ft_get_some _ _ _ Hg)) as Hi.
    destruct He as [[H1 H2 H3 HH H4 H5 H6] H7]. split; [split; try done|done]; [|by exists c].
    intros i c' Hc'. specialize (H3 _ _ Hc'). cbn in H3 |- *. destruct (i =? handle_idx h)%nat; [by apply late_ok|done].
  - unfold transition_conn, mbind, M_bind, get_conn, get. rewrite Hg. by exists tt, e.
Qed.

(** ** Closing *)

Context (Hmac : length our_mac = 6%nat).

(** A FIN takes one sequence number. *)
Lemma fin_sent_ok c s : late_state s = true -> c_state c = Established \/ c_state c = CloseWait -> conn_ok c ->
  conn_ok (c <| c_snd_nxt := wadd32 (c_snd_nxt c) 1 |> <| c_state := s |>).
Proof.
  intros Hl Hs [H1 H2 H3 H4 H5 H6 _].
  assert (Hf : off (c_snd_una c) (c_snd_nxt c) <= two31) by (destruct Hs as [E|E]; by rewrite E in H4).
  split; conn_simpl; try done.
  - apply wadd32_range.
  - rewrite off_wadd by (pose proof (off_range (c_snd_una c) (c_snd_nxt c)); width_lia). destruct s; try done; cbn; lia.
  - by destruct s.
Qed.

Lemma safe_close_conn h : safe None (close_conn h).
Proof.
  intros L. unfold close_conn. apply focus; [apply triple_ret|]. intros c Hc Hb.
  assert (Hout : forall A (a : A), triple (good (Some (is_conn h c)) L) (mret a) (fun _ => good None L)).
  { intros A a e He. exists a, e. split; [done|]. by apply (unfocus h c). }
  destruct (fin_target (c_state c)) as [to|] eqn:Et; [|apply Hout].
  assert (Hst : late_state to = true /\ (c_state c = Established \/ c_state c = CloseWait)).
  { destruct (c_state c); try discriminate Et; injection Et as <-; auto. }
  destruct Hst as [Hl Hst]. apply ts_options_then. intros o Ho.
  apply (get_then _ _ _ _ _ (fun gw => length gw = 6%nat)); [intros ? Hi; exact (iv_mac _ _ Hi)|intros gw Hgw].
  cbv zeta. apply safe_then; [by apply safe_build_and_tx, ctrl_shape|]. intros ok. destruct (negb ok); [apply Hout|].
  apply safe_then; [apply safe_inc|]. intros _. eapply triple_bind.
  - apply (assign (Some (to_state h to)) L L h c); [|done]. intros c' Hs Hb'.
    set (f := c' <| c_our_fin_seq := _ |> <| c_snd_nxt := _ |>).
    apply conn_view_inv in Hs as (E1 & E2 & E3 & E4 & E5 & E6 & E7 & E8 & E9 & E10 & E11 & E12).
    split; [done|]. split; [destruct Hb' as [B1 B2 B3 B4]; split; [exact B1|exact B2|exact B3|exact B4]|]. split.
    + apply (slot_inv_in (to_state h to)). change (conn_ok (f <| c_state := to |>)).
      apply (conn_ok_keeps (c <| c_snd_nxt := wadd32 (c_snd_nxt c) 1 |> <| c_state := to |>)); [|by apply fin_sent_ok].
      unfold keeps, conn_view, engine_view, f. conn_simpl. congruence.
    + intros m. unfold f. rewrite !owned_conn. conn_simpl. rewrite E6, E7. lia.
  - intros ?. eapply triple_bind; [apply transition_settles|]. intros ?. apply triple_ret.
Qed.
#[local] Hint Resolve safe_close_conn : safe.

Lemma safe_close_flags h fl : safe None (close_conn_with_flags h fl).
Proof. unfold close_conn_with_flags. safe_walk. Qed.

(** ** Forced close, the reaper *)

Lemma safe_force_close h : safe None (force_close_etimedout h).
Proof.
  unfold force_close_etimedout. safe_walk. by apply safe_transition_late.
Qed.

Lemma safe_tear_down h : safe None (tear_down h).
Proof. unfold tear_down. safe_walk. Qed.
#[local] Hint Resolve safe_force_close safe_tear_down : safe.

Lemma safe_re_listen h : safe None (re_listen_if_from_passive h).
Proof. unfold re_listen_if_from_passive. safe_walk. Qed.
#[local] Hint Resolve safe_re_listen : safe.
Lemma safe_handshake_outcome h o : safe None (handshake_outcome h o).
Proof. unfold handshake_outcome. safe_walk. Qed.

Lemma safe_reap : safe None reap_time_wait.
Proof. unfold reap_time_wait. safe_walk. by apply safe_transition_late. Qed.

(** ** Timer handlers *)

Lemma safe_rto_fire h id : safe None (on_rto_fire h id).
Proof. unfold on_rto_fire. safe_walk. Qed.

Lemma safe_probe_fired h seq len now : safe None (try_update_conn h (fun c => on_tlp_probe_fired c seq len now)).
Proof.
  intros L. unfold try_update_conn. apply focus; [apply triple_ret|]. intros c Hc Hb.
  pose proof (cb_ring _ Hb) as R. pose proof (cb_slot _ Hb) as R'.
  unfold on_tlp_probe_fired. rewrite R. rewrite (proj2 (Nat.ltb_lt _ _)) by lia.
  eapply lift_then; [reflexivity|]. apply (assign None); [|done]. intros c' Hs Hb'. split; [done|]. split; [|split].
  - destruct Hb as [B1 B2 B3 B4]. split; conn_simpl; [by rewrite length_insert| |done|done].
    rewrite u8_id by (unfold is_u8, two8; pose proof (Nat.mod_upper_bound (Z.to_nat (c_tlp_recent_probes_next_slot c) + 1) 5); lia).
    pose proof (Nat.mod_upper_bound (Z.to_nat (c_tlp_recent_probes_next_slot c) + 1) 5). lia.
  - by apply (conn_ok_view c).
  - intros m. rewrite !owned_conn. conn_simpl. lia.
Qed.
#[local] Hint Resolve safe_rto_fire safe_probe_fired : safe.

Lemma safe_tlp_fire h id : safe None (on_tlp_fire h id).
Proof. unfold on_tlp_fire. safe_walk. Qed.

Lemma safe_syn_fire h id : safe None (on_syn_retrans_fire h id).
Proof. unfold on_syn_retrans_fire. safe_walk. Qed.
#[local] Hint Resolve safe_tlp_fire safe_syn_fire : safe.

Lemma safe_fire_one f : safe None (fire_one f).
Proof. unfold fire_one. safe_walk. Qed.
#[local] Hint Resolve safe_fire_one : safe.

Lemma safe_fire_timers now : safe None (fire_timers_at now).
Proof.
  unfold fire_timers_at. apply safe_bind; [|intros fired; safe_walk].
  intros L e He. destruct (advance now (eg_timer_wheel e)) as [w fired]. eexists _, _. split; [reflexivity|].
  by apply (good_core None L e).
Qed.
#[local] Hint Resolve safe_fire_timers : safe.

Lemma safe_advance_wheel : safe None advance_timer_wheel.
Proof. unfold advance_timer_wheel. safe_walk. Qed.

(** ** Delivery *)

Lemma safe_deliver_readable h n ts : safe None (deliver_readable h n ts).
Proof.
  intros L. unfold deliver_readable. apply focus; [apply triple_ret|]. intros c Hc Hb.
  eapply triple_bind; [apply rx_calls_good|]. intros ?.
  pose proof (pop_keeps (rv_bytes (c_recv c)) n (rvk_lens _ (ck_rv _ Hc))) as P.
  destruct (pop_delivered (rv_bytes (c_recv c)) n) as [[[popped kept] ops] split]. destruct P as (P1 & P2 & P3).
  eapply triple_bind; [apply rx_calls_good|]. intros ?.
  apply safe_then; [safe_walk|]. intros _. eapply triple_bind.
  - apply (assign None _ (fun m => L m - owned m popped)); [|done]. intros c' Hs Hb'.
    apply conn_view_inv in Hs as (E1 & E2 & E3 & E4 & E5 & E6 & E7 & E8 & E9 & E10 & E11 & E12).
    split; [done|]. split; [by destruct Hb' as [B1 B2 B3 B4]; split; conn_simpl|]. split.
    + apply (conn_ok_view (c <| c_recv ::= fun q => q <| rv_bytes := kept |> |>)); [|by apply delivered_ok].
      unfold keeps, ok_view. conn_simpl. congruence.
    + intros m. specialize (P3 m). rewrite !owned_conn. conn_simpl. rewrite E6, view_frees, owned_nil.
      change (owned m (c_recv c)) with (owned m (rv_bytes (c_recv c)) + owned m (rv_reorder (c_recv c))).
      change (owned m ((c_recv c) <| rv_bytes := kept |>)) with (owned m kept + owned m (rv_reorder (c_recv c))). lia.
  - intros ?. eapply triple_bind; [|intros ?; apply safe_inc_by].
    destruct (Z.ltb_spec 0 (zlen popped)) as [Hp|Hp]; cbn [when].
    + apply safe_then; [safe_walk|]. intros _. apply safe_then; [safe_walk|]. intros _. apply safe_then; [safe_walk|].
      intros now. eapply triple_conseq; [intros e He; exact He| |apply push_readable].
      intros ? e He. eapply good_ledger; [|exact He]. intros m. cbv beta.
      change (owned m (EvReadable _ _ popped _ _ _)) with (owned m popped). lia.
    + intros e He. exists tt, e. split; [done|]. eapply good_ledger; [|exact He]. intros m.
      destruct popped; [cbn; lia|rewrite zlen_cons in Hp; pose proof (zlen_nonneg popped); lia].
Qed.
End Step.

#[export] Hint Resolve safe_handshake_outcome safe_close_conn safe_close_flags safe_force_close safe_tear_down safe_reap
  safe_advance_wheel safe_deliver_readable : safe.
