(* ===== verification/EngineLoop.v ===== *)
(** * The engine keeps its invariant: the receive path, the calls, the poll loop

    The dispatch of a segment with everything that follows it, a received packet from
    layer 2 up, one turn of the poll loop, and the application's calls. *)

From S2P Require Import Prelude.
From S2P Require Import Bytes.
From S2P Require Import Seq.
From S2P Require Import Mbuf.
From S2P Require Import Reassembly.
From S2P Require Import Retrans.
From S2P Require Import Rtt.
From S2P Require Import TimerWheel.
From S2P Require Import Ip.
From S2P Require Import Options.
From S2P Require Import Output.
From S2P Require Import Segment.
From S2P Require Import Conn.
From S2P Require Import FlowTable.
From S2P Require Import Input.
From S2P Require Import Receive.
From S2P Require Import Dispatch.
From S2P Require Import InputSpec.
From S2P Require Import DispatchFrame.
From S2P Require Import AckBuild.
From S2P Require Import Arp.
From S2P Require Import Icmp.
From S2P Require Import Iss.
From S2P Require Import Events.
From S2P Require Import Readable.
From S2P Require Import Listen.
From S2P Require Import Engine.
From S2P Require Import EngineTx.
From S2P Require Import EngineTimers.
From S2P Require Import EngineListen.
From S2P Require Import EngineRx.
From S2P Require Import EngineApi.
From S2P Require Import EngineInv.
From S2P Require Import EngineSafe.
From S2P Require Import EngineStep.

Section Loop.
Context `{Platform} `{EngineConfig}.
Context (Hmac : length our_mac = 6%nat) (Hrbb : is_u32 recv_buffer_bytes).

(** ** A new connection *)

Lemma new_client_ok t iss mss a b d e s : is_u32 iss -> s = Closed \/ s = SynSent ->
  conn_ok ((new_client t iss mss recv_buffer_bytes a b d e) <| c_snd_nxt := if bool_decide (s = Closed) then iss else wadd32 iss 1 |>
             <| c_state := s |>).
Proof.
  intros Hi Hs. assert (Hw : 0 <= Z.min recv_buffer_bytes U16_MAX <= U16_MAX) by width_lia.
  assert (Hrv : rv_ok (recv_new recv_buffer_bytes)) by (split; cbn; [done|constructor|width_lia]).
  destruct Hs as [-> | ->]; split; try done.
  - conn_simpl. cbn [new_client c_snd_una bool_decide]. change (off iss iss <= flight_limit Closed). rewrite off_base. cbn. width_lia.
  - apply wadd32_range.
  - change (off iss (wadd32 iss 1) <= two31). rewrite off_wadd; rewrite off_base; width_lia.
Qed.

Lemma new_client_base t iss mss r a b d e : conn_base (new_client t iss mss r a b d e).
Proof. split; cbn; [done|lia|done|done]. Qed.

Lemma insert_good L conn : conn_base conn -> (forall m, owned m conn = 0) ->
  triple (good None L)
    (insert_conn conn)
    (fun oh e => match oh with Some h => good (Some (is_conn h conn)) L e | None => good None L e end).
Proof.
  intros Hb Ho e [[H1 H2 H3 HH H4 H5 H6] H7]. unfold insert_conn.
  destruct (ft_insert (eg_flow_table e) conn) as [t [h|]] eqn:Ei; eexists _, _; (split; [reflexivity|]).
  - destruct (ft_insert_slots _ _ _ _ H1 Ei) as (Hok & Hi & Es).
    assert (Hcase : forall i c, ft_slots t !! i = Some (Some c) ->
      (i = handle_idx h /\ c = conn) \/ (i <> handle_idx h /\ ft_slots (eg_flow_table e) !! i = Some (Some c))).
    { intros i c. rewrite Es. destruct (decide (i = handle_idx h)) as [->|N].
      - rewrite list_lookup_insert_eq by (by eapply lookup_lt_Some). intros E. injection E as <-. by left.
      - rewrite list_lookup_insert_ne by done. by right. }
    split.
    + split; cbn [field_set eg_flow_table eg_gateway_mac eg_pmtu eg_events]; try done.
      * intros i c Hi'. apply Hcase in Hi' as [[_ ->]|[_ ?]]; [done|by eapply H2].
      * intros i c Hi'. apply Hcase in Hi' as [[-> ->]|[N Hi']]; [by apply (slot_inv_in (is_conn h conn))|].
        apply slot_inv_other; [exact N|exact (H3 _ _ Hi')].
      * exists conn. cbn. rewrite Es. apply list_lookup_insert_eq. by eapply lookup_lt_Some.
    + intros m. rewrite <- H7. unfold ledger, held. cbn [field_set eg_flow_table eg_events eg_drained eg_rx_ops].
      rewrite Es, (owned_insert m _ _ None) by done. cbn [owned option_owner]. rewrite Ho. lia.
  - assert (t = eg_flow_table e) as ->.
    { unfold ft_insert in Ei. repeat case_match; try discriminate Ei; by injection Ei as <-. }
    apply (good_core None L e); [done|]. by split.
Qed.

(** ** Dispatch *)

(** Where the outcome's transition is still to be applied. *)
Definition owing (h : ConnHandle) (o : Outcome) : option Pending := to_state h <$> o_new_state o.

Lemma dispatch_assigned clk h ctx c seg c' o ops p : p = owing h o ->
  conn_ok c -> conn_base c -> segment_ok seg -> any_ctx_ok pl_links ctx (zlen (ps_payload seg)) ->
  dispatch test_server clk pl_links rtt_histogram_edges send_buffer_bytes ctx c seg = Some (c', o, ops) ->
  c_four_tuple c' = c_four_tuple c /\ conn_base c' /\ slot_inv p (handle_idx h) c'.
Proof.
  intros -> Hc Hb Hseg Hctx E. pose proof (dispatch_engine _ _ _ _ _ _ _ _ _ _ _ E (cb_idle _ Hb)) as K.
  pose proof (proj1 (dispatch_steps _ _ _ _ _ _ _ _ _ _ _ E)) as Es.
  pose proof (dispatch_any_ok _ _ _ _ _ _ _ _ _ _ _ Hc Hseg Hctx E) as Hok.
  unfold keeps, engine_view in K. injection K as K1 K2 K3 K4 K5. split; [done|]. split.
  - destruct Hb as [B1 B2 B3 B4]. split; [congruence|by rewrite K4| |congruence]. intros Et. rewrite K2. apply B3. congruence.
  - unfold owing, after in *. destruct (o_new_state o) as [s|]; cbn [fmap option_fmap option_map]; [|exact Hok].
    by apply (slot_inv_in (to_state h s)).
Qed.

Lemma dispatch_conn_good L h seg ctx : segment_ok seg -> any_ctx_ok pl_links ctx (zlen (ps_payload seg)) ->
  triple (good None L) (dispatch_conn h seg ctx)
    (fun oo => match oo with Some o => good (owing h o) L | None => good None L end).
Proof.
  intros Hseg Hctx. unfold dispatch_conn.
  set (r := fun (m : MbufId) => match ctx with Some ctx => if mi_mbuf ctx =? m then 1 else 0 | None => 0 end).
  assert (Hcalls : forall p L d, triple (good p L) (when_some ctx (fun ctx => rx_calls [RefcntUpdate (mi_mbuf ctx) d]))
            (fun _ => good p (fun m => L m - d * r m))).
  { intros p L' d. destruct ctx as [ctx|]; cbn [when_some].
    - eapply triple_conseq; [intros e He; exact He| |apply rx_calls_good]. intros ? e He.
      eapply good_ledger; [|exact He]. intros m. unfold r. refs. destruct (mi_mbuf ctx =? m); lia.
    - intros e He. exists tt, e. split; [done|]. eapply good_ledger; [|exact He]. intros m. unfold r. lia. }
  eapply triple_bind; [apply Hcalls|]. intros ?. apply focus.
  - eapply triple_bind; [apply Hcalls|]. intros ? e He. eexists _, e. split; [reflexivity|]. cbn.
    eapply good_ledger; [|exact He]. intros m. cbv beta. lia.
  - intros c Hc Hb. apply safe_then; [apply safe_ask|]. intros clk.
    destruct (dispatch_runs test_server clk pl_links rtt_histogram_edges send_buffer_bytes ctx c seg) as [[[c' o] ops] E].
    eapply lift_then; [exact E|]. eapply triple_bind.
    { apply (assign (owing h o) _ (fun m => L m - r m + (owned m c' - owned m c)) h c).
      - intros c0 _ _. destruct (dispatch_assigned clk h ctx c seg c' o ops _ eq_refl Hc Hb Hseg Hctx E) as (D1 & D2 & D3).
        split_and!; try done. intros m. lia.
      - unfold owing. by destruct (o_new_state o). }
    intros ?. eapply triple_bind; [apply rx_calls_good|]. intros ?. eapply triple_bind.
    + instantiate (1 := fun _ => good (owing h o) L).
      assert (Hret : forall m, owned m c' - owned m c - ref_delta m ops = if o_mbuf_ref_retained o then r m else 0).
      { intros m. rewrite (dispatch_any_refs _ _ _ _ _ _ _ _ _ _ _ m Hc Hseg Hctx E). unfold r.
        destruct ctx as [ctx|], (o_mbuf_ref_retained o); cbn [andb]; lia. }
      destruct (o_mbuf_ref_retained o); cbn [negb].
      * intros e He. exists tt, e. split; [by destruct ctx|]. eapply good_ledger; [|exact He].
        intros m. cbv beta. specialize (Hret m). lia.
      * eapply triple_conseq; [intros e He; exact He| |apply (Hcalls _ _ (-1))]. intros ? e He.
        eapply good_ledger; [|exact He]. intros m. cbv beta. specialize (Hret m). lia.
    + intros ? e He. by exists (Some o), e.
Qed.

(** ** After the dispatch *)

Lemma safe_counters p o : safe p (apply_tcp_input_counters o).
Proof. unfold apply_tcp_input_counters. safe_walk. Qed.
Lemma safe_rack_lost p h l : safe p (retransmit_rack_lost h l).
Proof. unfold retransmit_rack_lost. safe_walk. Qed.
Lemma safe_cancel_named p h o set : (forall c, keeps conn_view c (set None c)) -> safe p (cancel_named h o set).
Proof.
  intros Hs. unfold cancel_named. safe_walk. apply Hs.
Qed.
Lemma safe_restart_rto p h : safe p (restart_rto h).
Proof. unfold restart_rto. safe_walk. Qed.
#[local] Hint Resolve safe_counters safe_rack_lost safe_cancel_named safe_restart_rto : safe.

Lemma safe_ack_advance p h una : safe p (process_ack_advance h una).
Proof. unfold process_ack_advance. safe_walk; apply safe_cancel_named; intros c; auto with safe. Qed.
#[local] Hint Resolve safe_ack_advance : safe.

(** A new deadline for TIME_WAIT disturbs no pending transition. *)
Lemma safe_deadline h' h o d : safe (owing h' o) (update_conn h (fun c => c <| c_time_wait_deadline_ns := Some d |>)).
Proof.
  intros L e He. eexists _, _. split; [reflexivity|]. destruct (ft_get (eg_flow_table e) h) as [c|] eqn:Hg.
  - apply (update_conn_at (owing h' o) (owing h' o) L L h); [|done|by destruct (owing h' o); [right|]|by rewrite Hg|done].
    intros c' [B1 B2 B3 B4] Hs. split; [done|]. split; [split; conn_simpl; [done|done|by eexists|done]|].
    split; [|intros m; rewrite !owned_conn; conn_simpl; lia].
    unfold owing, slot_inv in *. destruct (o_new_state o); cbn [fmap option_fmap option_map] in *;
      [|by apply (conn_ok_view c')]. destruct (_ =? _)%nat; [|by apply (conn_ok_view c')].
    by apply (conn_ok_view (c' <| c_state := t |>)).
  - apply (good_core _ L e); [|done]. unfold core_view.
    cbn [field_set eg_flow_table eg_gateway_mac eg_pmtu eg_events eg_drained eg_rx_ops]. by rewrite ft_update_absent.
Qed.

Lemma safe_restart_tw h' h o' o : safe (owing h' o') (restart_time_wait h o).
Proof.
  unfold restart_time_wait. apply safe_bind; [eauto with safe|intros oc]. apply safe_when_some. intros c _.
  apply safe_when. intros _. apply safe_bind; [eauto with safe|intros now]. apply safe_deadline.
Qed.

Lemma safe_perform_tx h t seg tx : safe None (perform_tx h t seg tx).
Proof. unfold perform_tx. safe_walk; by apply safe_transition_late. Qed.

Lemma safe_finish_close h seg o : safe None (finish_close h seg o).
Proof. unfold finish_close. safe_walk. Qed.
#[local] Hint Resolve safe_restart_tw safe_perform_tx safe_finish_close : safe.

Lemma after_dispatch_good L h t seg hw o : triple (good (owing h o) L) (after_dispatch h t seg hw o) (fun _ => good None L).
Proof.
  unfold after_dispatch.
  do 7 (apply safe_then; [safe_walk|]; intros _). eapply triple_bind.
  - instantiate (1 := fun _ => good None L). unfold owing. destruct (o_new_state o); cbn [when_some fmap option_fmap option_map].
    + apply transition_settles.
    + apply triple_ret.
  - intros ?. apply safe_then; [eauto with safe|]. intros _. revert L.
    change (safe None (when (o_connected o) (when test_server (listen_promote_to_accept_queue h) ;;
        now ← ask pl_now; push_event (EvConnected h hw now) ;; inc ConnOpen) ;;
      handshake_outcome h o ;;
      when (0 <? o_delivered o) (deliver_readable h (o_delivered o) hw) ;;
      when (0 <? o_buf_full_drop o) (inc_by RecvBufDrops (o_buf_full_drop o)) ;;
      when (o_closed o) (finish_close h seg o))). safe_walk.
Qed.

(** ** A SYN for a listening address *)

(** What [new_passive] starts from, as far as the invariant goes. *)
Lemma new_passive_view now t iss iss_peer opts mss a b d e r :
  keeps conn_view ((new_client t iss mss r a b d e) <| c_state := SynReceived |> <| c_rcv_nxt := wadd32 iss_peer 1 |>)
    (new_passive now t iss iss_peer opts mss r a b d e).
Proof. unfold new_passive. by destruct (timestamps opts) as [[? ?]|]. Qed.

(** Once the SYN-ACK has taken its sequence number. *)
Lemma passive_ok c now t iss iss_peer opts mss a b d e : is_u32 iss ->
  keeps conn_view (new_passive now t iss iss_peer opts mss recv_buffer_bytes a b d e) c ->
  conn_ok (c <| c_snd_nxt := wadd32 (c_snd_nxt c) 1 |>).
Proof.
  intros Hi K. pose proof (new_passive_view now t iss iss_peer opts mss a b d e recv_buffer_bytes) as K0.
  assert (K1 := transitivity K0 K). clear K K0. apply conn_view_inv in K1 as (E1 & E2 & E3 & E4 & E5 & E6 & _).
  cbn [new_client field_set c_state c_rcv_nxt c_rcv_wnd c_snd_una c_snd_nxt c_recv] in *.
  assert (Hrv : rv_ok (recv_new recv_buffer_bytes)) by (split; cbn; [done|constructor|width_lia]).
  split; conn_simpl; rewrite ?E1, ?E2, ?E3, ?E4, ?E5, ?E6; try done.
  - apply wadd32_range.
  - apply wadd32_range.
  - change (off iss (wadd32 iss 1) <= two31). rewrite off_wadd; rewrite off_base; width_lia.
  - change (0 <= Z.min recv_buffer_bytes U16_MAX <= U16_MAX). width_lia.
Qed.

Lemma new_passive_base now t iss iss_peer opts mss r a b d e : conn_base (new_passive now t iss iss_peer opts mss r a b d e).
Proof.
  apply (conn_base_keeps _ _ (new_passive_view now t iss iss_peer opts mss a b d e r)).
  destruct (new_client_base t iss mss r a b d e) as [B1 B2 B3 B4]. split; conn_simpl; done.
Qed.

(** The connection of a SYN, read off the clock and the segment. *)
Lemma passive_conn_run t iss_peer opts e : exists now ts iss e', is_u32 iss /\
  passive_conn t iss_peer opts e = Some (new_passive ts t iss iss_peer opts (u16 tcp_mss) recv_buffer_bytes
    send_buffer_bytes tcp_min_rto_us tcp_initial_rto_us tcp_max_rto_us, e') /\
  iss = iss_next iss_gen now t /\ core_view e' = core_view e /\ eg_listen e' = eg_listen e.
Proof.
  unfold passive_conn, mbind, M_bind, ask. exists (pl_now (eg_step e)).
  destruct (timestamps opts) eqn:Et; eexists _, _, _; (split; [|split; [reflexivity|split_and!; reflexivity]]); apply wadd32_range.
Qed.

(** The admitted connection: the SYN-ACK, and the sequence number it takes. *)
Lemma admit_good L h ts t iss iss_peer opts mss a b d e0 : is_u32 iss ->
  triple (good (Some (is_conn h (new_passive ts t iss iss_peer opts mss recv_buffer_bytes a b d e0))) L)
    (emit_syn_ack_for_passive h ;;
     update_conn h (fun c => c <| c_snd_nxt := wadd32 (c_snd_nxt c) 1 |>) ;;
     mret (Ok (E := EngineError) tt)) (fun _ => good None L).
Proof.
  intros Hi. apply safe_then; [eauto with safe|]. intros _. eapply triple_bind; [|intros ?; apply triple_ret].
  apply (assign None L L); [|done]. intros c' K Hb'. split; [by apply conn_view_inv in K; destruct_and!|].
  split; [by destruct Hb' as [B1 B2 B3 B4]; split; conn_simpl|]. split; [by eapply passive_ok|].
  intros m. pose proof (conn_owned_keeps m _ _ K) as E. rewrite !owned_conn in *. conn_simpl. lia.
Qed.

Lemma inbound_syn_good L lh ip port iss_peer opts :
  triple (good None L) (handle_inbound_syn_listen lh ip port iss_peer opts) (fun _ => good None L).
Proof.
  intros e He. unfold handle_inbound_syn_listen, mbind at 1, M_bind at 1, get at 1.
  destruct (slot_status lh (eg_listen e)) as [[[lip lport] full]|] eqn:Est; [|by eexists _, _].
  destruct full.
  { clear Est. revert e He. apply safe_then; [eauto with safe|]. intros _. apply triple_ret. }
  destruct (passive_conn_run (mkFourTuple lip lport ip port) iss_peer opts e) as (now & ts & iss & e1 & Hi & E1 & _ & V1 & L1).
  unfold mbind at 1, M_bind at 1. rewrite E1. apply (good_core None L e e1 V1) in He.
  set (conn := new_passive _ _ _ _ _ _ _ _ _ _ _) in *.
  assert (Ho : forall m, owned m conn = 0) by (intros m; exact (conn_owned_keeps m _ _ (new_passive_view _ _ _ _ _ _ _ _ _ _ _))).
  destruct (insert_good L conn (new_passive_base _ _ _ _ _ _ _ _ _ _ _) Ho e1 He) as (oh & e2 & E2 & He2).
  assert (L2 : eg_listen e2 = eg_listen e).
  { rewrite <- L1. unfold insert_conn in E2. destruct (ft_insert _ _) as [t' o]. injection E2 as <- <-. done. }
  unfold mbind at 1, M_bind at 1. rewrite E2. destruct oh as [h|]; [|by eexists _, _].
  unfold mbind at 1, M_bind at 1, get at 1. rewrite L2, Est. clear E2 L2. revert e2 He2. apply safe_then; [eauto with safe|]. intros _. by apply admit_good.
Qed.

Lemma listen_input_good L t seg : triple (good None L) (listen_input t seg) (fun _ => good None L).
Proof.
  unfold listen_input. destruct (negb _); [apply triple_ret|]. apply safe_then; [eauto with safe|]. intros [lh|]; [|apply triple_ret].
  apply safe_then; [eauto with safe|]. intros _. destruct (parse_options_total (ps_options seg)) as [r E].
  eapply lift_then; [exact E|]. eapply triple_bind; [apply inbound_syn_good|]. intros ?. apply triple_ret.
Qed.

(** ** A received packet *)

Lemma insert_ctx_ok rx seg off : 0 <= off -> (20 <= ps_header_len seg <= 60)%nat ->
  off + Z.of_nat (ps_header_len seg) + zlen (ps_payload seg) < two16 ->
  any_ctx_ok pl_links (insert_ctx rx seg off) (zlen (ps_payload seg)).
Proof.
  intros Ho Hh Hl. unfold insert_ctx. destruct rx as [mb|]; [|done]. destruct (_ && _) eqn:E; [|done].
  apply andb_true_iff in E as [_ E]. apply Z.eqb_eq in E. unfold nb_segs in E.
  assert (El : pl_links mb = []) by (destruct (pl_links mb); [done|rewrite zlen_cons in E; pose proof (zlen_nonneg l); lia]).
  pose proof (zlen_nonneg (ps_payload seg)).
  unfold any_ctx_ok, sat_add16. rewrite u16_id by width_lia. rewrite Z.min_r by width_lia.
  split; cbn [mi_mbuf mi_payload_offset]; [lia|lia|]. rewrite El. by split; [constructor|].
Qed.

Lemma tcp_input_good L ip bytes ol rss hw rx off : is_bytes bytes -> 0 <= off -> off + zlen bytes < two16 ->
  triple (good None L) (tcp_input ip bytes ol rss hw rx off) (fun _ => good None L).
Proof.
  intros Hb Ho Hl. unfold tcp_input. destruct (nic_l4_verdict ol) as [ok|].
  2: { revert L. change (safe None (inc EthRxDropCksumBad ;; inc RxBadCsum ;; mret 0)). safe_walk. }
  destruct (parse_segment_spec bytes (l3_src_ip ip) (l3_dst_ip ip) ok Hb) as (r & E & Hr).
  eapply lift_then; [exact E|]. destruct r as [seg|err].
  2: { revert L. change (safe None (inc (parse_error_counter err) ;; mret 0)). safe_walk. }
  destruct (Hr seg eq_refl) as [Hwf Hlen]. apply safe_then; [eauto with safe|]. intros [h|].
  2: { cbv zeta. set (t := tuple_from_segment _ _ _). eapply triple_bind; [apply listen_input_good|].
       intros taken. revert L. change (safe None (if negb taken then inc RxUnmatched ;; send_rst_unmatched t seg ;; mret 0 else mret 0)).
       safe_walk. }
  apply safe_then; [unfold flag_counters; safe_walk|]. intros _. eapply triple_bind.
  - apply dispatch_conn_good; [split; apply Hwf|]. apply insert_ctx_ok; [done|apply Hwf|unfold zlen in *; lia].
  - intros [o|]; [|apply triple_ret]. eapply triple_bind; [apply after_dispatch_good|]. intros ?. apply triple_ret.
Qed.

Lemma safe_icmp p inner : is_bytes inner -> safe p (handle_icmp inner).
Proof.
  intros Hb. unfold handle_icmp. apply (safe_get_bind _ _ _ pmtu_ok); [intros ? Hi; apply Hi|]. intros t Ht.
  destruct (icmp_input_spec inner t Hb Ht) as (r & t' & E & Ht' & _). eapply safe_lift_bind; [exact E|].
  apply safe_bind; [|intros _; safe_walk]. intros L e [[H1 H2 H3 HH H4 H5 H6] H7]. eexists _, _. split; [reflexivity|]. by split.
Qed.

Lemma safe_arp p payload : safe p (handle_arp payload).
Proof.
  unfold handle_arp. destruct (arp_decode_total payload) as (r & E & Hr). eapply safe_lift_bind; [exact E|].
  destruct r as [pkt|]; [|apply safe_skip]. specialize (Hr _ eq_refl).
  destruct (classify_arp pkt local_ip gateway_ip) as [| |mac] eqn:Ec; [apply safe_skip|eauto with safe|].
  assert (length mac = 6%nat) as Hm by (unfold classify_arp in Ec; repeat case_match; try done; by injection Ec as <-).
  intros L e [[H1 H2 H3 HH H4 H5 H6] H7]. eexists _, _. split; [reflexivity|]. by split.
Qed.
#[local] Hint Resolve safe_icmp safe_arp : safe.

Lemma ip_aware_spec payload ol : is_bytes payload ->
  exists r, (ip_decode_offload_aware rx_cksum_feature payload local_ip ol rx_cksum_offload_active).1 = Some r /\
    forall d, r = Ok d -> (20 <= l3_header_len d <= 60)%nat /\ (l3_header_len d <= l3_total_len d <= length payload)%nat /\
      (l3_protocol d = IPPROTO_TCP \/ l3_protocol d = IPPROTO_ICMP).
Proof.
  intros Hb. assert (Hd : forall nic, exists r, ip_decode payload local_ip nic = Some r /\
    forall d, r = Ok d -> (20 <= l3_header_len d <= 60)%nat /\ (l3_header_len d <= l3_total_len d <= length payload)%nat /\
      (l3_protocol d = IPPROTO_TCP \/ l3_protocol d = IPPROTO_ICMP)).
  { intros nic. destruct (ip_decode_spec payload local_ip nic Hb) as (r & E & Hr). exists r. split; [done|].
    intros d Ed. destruct (Hr d Ed) as [[? ?] ? ? _ _ _ _]. split_and!; auto; lia. }
  unfold ip_decode_offload_aware. repeat case_match; cbn [fst]; auto. by eexists.
Qed.

Lemma handle_ipv4_good L payload ol rss hw rx off : is_bytes payload -> 0 <= off -> off + zlen payload < two16 ->
  triple (good None L) (handle_ipv4 payload ol rss hw rx off) (fun _ => good None L).
Proof.
  intros Hb Ho Hl. unfold handle_ipv4. destruct (ip_aware_spec payload ol Hb) as (r & E & Hr).
  destruct (ip_decode_offload_aware _ _ _ _ _) as [dec bad]. cbn [fst] in E.
  apply safe_then; [safe_walk|]. intros _. eapply lift_then; [exact E|]. destruct r as [d|err].
  2: { revert L. change (safe None (inc (l3_drop_counter err) ;; mret 0)). safe_walk. }
  destruct (Hr d eq_refl) as (R1 & R2 & R3).
  eapply lift_then; [apply get_slice_some; lia|]. set (inner := slice _ _ payload).
  assert (Hi : is_bytes inner) by by apply is_bytes_slice.
  assert (Hn : length inner = (l3_total_len d - l3_header_len d)%nat) by (apply length_slice; lia).
  destruct (Z.eqb_spec (l3_protocol d) IPPROTO_TCP) as [_|Np].
  - apply safe_then; [eauto with safe|]. intros _. unfold zlen in *. apply tcp_input_good; [done|..];
      unfold sat_add16, zlen; rewrite u16_id by width_lia; rewrite Z.min_r by width_lia; lia.
  - destruct R3 as [?|Ep]; [done|]. rewrite Ep, Z.eqb_refl.
    revert L. change (safe None (inc IpRxIcmp ;; handle_icmp inner ;; mret 0)). safe_walk.
Qed.

Lemma rx_frame_good L bytes ol rss hw rx : is_bytes bytes -> zlen bytes < two16 ->
  triple (good None L) (EngineRx.rx_frame bytes ol rss hw rx) (fun _ => good None L).
Proof.
  intros Hb Hl. unfold EngineRx.rx_frame. destruct (l2_decode_total bytes our_mac) as (r & E & Hr).
  eapply lift_then; [exact E|]. destruct r as [l2|err].
  2: { revert L. change (safe None (inc (l2_drop_counter err) ;; mret 0)). safe_walk. }
  destruct (Hr l2 eq_refl) as (-> & Hlen & Het). cbv zeta. destruct (Z.eqb_spec (l2_ethertype l2) ETHERTYPE_ARP) as [|Na].
  - revert L. change (safe None (inc EthRxArp ;; handle_arp (drop ETH_HDR_LEN bytes) ;; mret 0)). safe_walk.
  - destruct Het as [?|Et]; [done|]. rewrite Et, Z.eqb_refl. unfold ETH_HDR_LEN in *.
    apply handle_ipv4_good; [by apply Forall_drop|vm_compute; discriminate|]. unfold zlen in *. rewrite length_drop.
    change (u16 (Z.of_nat 14)) with 14. lia.
Qed.

(** What the driver guarantees of a received packet: bytes, with a 16-bit length. *)
Record packet_ok (p : RxPacket) : Prop := {
  pko_bytes : is_bytes (pk_bytes p);
  pko_len : zlen (pk_bytes p) < two16
}.

(** References to [m] that arrive with a packet: one per segment of its chain. *)
Definition arrives (m : MbufId) (p : RxPacket) : Z :=
  zsum (fun s => if s =? m then 1 else 0) (pk_mbuf p :: map fst (pl_links (pk_mbuf p))).

Lemma frees_delta m l : ref_delta m (map (fun s => FreeSeg s) l) = - zsum (fun s => if s =? m then 1 else 0) l.
Proof using Type.
  clear. induction l as [|s l IH]; [done|]. cbn [map]. rewrite ref_delta_cons, zsum_cons, IH. cbn [op_delta].
  destruct (s =? m); lia.
Qed.

Lemma dispatch_one_good L p : packet_ok p ->
  triple (good None L) (dispatch_one_real_mbuf (pk_bytes p) (pk_ol_flags p) (pk_rss_hash p) (pk_hw_ts p) (pk_mbuf p))
    (fun _ => good None (fun m => L m + arrives m p)).
Proof.
  intros [Hb Hl]. unfold dispatch_one_real_mbuf. do 2 (apply safe_then; [safe_walk|]; intros _).
  eapply triple_bind; [by apply rx_frame_good|]. intros n. eapply triple_bind; [apply rx_calls_good|].
  intros ? e He. exists n, e. split; [done|]. eapply good_ledger; [|exact He]. intros m. cbv beta.
  rewrite frees_delta. unfold arrives. lia.
Qed.

Lemma rx_burst_good burst : forall L, Forall packet_ok burst ->
  triple (good None L)
    (for_each burst (fun p =>
       dispatch_one_real_mbuf (pk_bytes p) (pk_ol_flags p) (pk_rss_hash p) (pk_hw_ts p) (pk_mbuf p) ;; skip))
    (fun _ => good None (fun m => L m + zsum (arrives m) burst)).
Proof.
  intros L Hf. apply for_each_good with (2 := Hf). intros p L' Hp.
  eapply triple_bind; [by apply dispatch_one_good|]. intros n. apply triple_ret.
Qed.

(** ** The poll loop *)

Lemma drop_events_delta m l : ref_delta m (mbind drop_event l) = - owned m l.
Proof using Type.
  clear. induction l as [|ev l IH]; [done|]. rewrite bind_cons, ref_delta_app, owned_cons, IH, drop_event_delta. lia.
Qed.

Lemma safe_clear_drained p : safe p clear_drained.
Proof.
  intros L e [[H1 H2 H3 HH H4 H5 H6] H7]. eexists _, _. split; [reflexivity|]. split; [by split|]. intros m.
  rewrite <- H7. unfold ledger, held. cbn [field_set eg_flow_table eg_events eg_drained eg_rx_ops].
  rewrite ref_delta_app, drop_events_delta, owned_nil. lia.
Qed.

Lemma safe_clear_delivered h : safe None (clear_delivered h).
Proof.
  intros L. unfold clear_delivered. apply focus; [apply triple_ret|]. intros c Hc Hb. cbn [when_some].
  eapply triple_bind; [apply rx_calls_good|]. intros ?. apply (assign None); [|done]. intros c' Hs Hb'.
  apply conn_view_inv in Hs as (E1 & E2 & E3 & E4 & E5 & E6 & E7 & E8 & _).
  split; [done|]. split; [by destruct Hb' as [B1 B2 B3 B4]; split; conn_simpl|]. split.
  - apply (conn_ok_view c); [|done]. unfold keeps, ok_view. conn_simpl. congruence.
  - intros m. rewrite !owned_conn. conn_simpl. rewrite E6, view_frees, owned_nil. lia.
Qed.
#[local] Hint Resolve safe_clear_drained safe_clear_delivered : safe.

Lemma safe_sample p : safe p sample_mempools.
Proof. unfold sample_mempools. safe_walk. Qed.
Lemma safe_enomem p prev : safe p (check_and_emit_rx_enomem prev).
Proof. unfold check_and_emit_rx_enomem. safe_walk. Qed.
#[local] Hint Resolve safe_sample safe_enomem : safe.
Lemma safe_poll_tail prev tx : safe None (poll_tail prev tx).
Proof. unfold poll_tail. safe_walk. Qed.
#[local] Hint Resolve safe_poll_tail : safe.

Lemma poll_good L burst : Forall packet_ok burst ->
  triple (good None L) (poll_once burst) (fun n e => good None (fun m => L m + zsum (arrives m) burst) e /\ n = length burst).
Proof.
  intros Hf. unfold poll_once. do 6 (apply safe_then; [eauto with safe|]; intros ?).
  apply safe_then; [safe_walk|]. intros _. eapply (triple_bind _ _ (fun _ => good None (fun m => L m + zsum (arrives m) burst))).
  - destruct burst as [|p burst].
    + intros e He. destruct (safe_inc None PollItersIdle L e He) as ([] & e' & E & He'). exists tt, e'. split; [exact E|].
      eapply good_ledger; [|exact He']. intros m. cbn. lia.
    + do 3 (apply safe_then; [safe_walk|]; intros _). by apply rx_burst_good.
  - intros ?. apply safe_then; [eauto with safe|]. intros _ e He. by exists (length burst), e.
Qed.

(** ** Sending *)

Lemma safe_record p h entry now : safe p (record_in_flight h entry now).
Proof. unfold record_in_flight. safe_walk. Qed.
#[local] Hint Resolve safe_record : safe.

Lemma safe_send_one p h c seq payload : safe p (send_one h c seq payload).
Proof.
  unfold send_one. apply ts_options_bind. intros o Ho.
  apply (safe_get_bind _ _ _ (fun gw => length gw = 6%nat)); [intros ? Hi; exact (iv_mac _ _ Hi)|intros gw Hgw]. cbv zeta.
  set (seg := data_segment gw c seq o payload).
  assert (Hs : seg_shape seg) by (destruct Ho as [Ho1 Ho2]; split; [exact Hmac|exact Hgw|cbn; lia]).
  destruct (build_segment_total seg (replicate (FRAME_HDRS_MIN + 40 + length payload) 0) Hs) as (r & E & _).
  eapply safe_lift_bind; [exact E|]. safe_walk.
Qed.

(** The driver never runs dry, and a full segment fits a datagram. *)
Definition driver_ready : Prop := (forall i, is_Some (pl_alloc_data i)) /\ forall i, pl_append i = true.
Definition MAX_PAYLOAD : Z := 65483.

Lemma ts_options_len c e o e' : ts_options c e = Some (o, e') -> (encoded_len o <= 12)%nat.
Proof.
  unfold ts_options. destruct (c_ts_enabled c).
  - intros Hx. apply run_bind_inv in Hx as (now & e1 & _ & Hx). injection Hx as <- _. by apply Nat.leb_le.
  - intros Hx. injection Hx as <- _. by apply Nat.leb_le.
Qed.

Lemma send_one_sends h c seq payload e r e' : driver_ready -> zlen payload <= MAX_PAYLOAD ->
  send_one h c seq payload e = Some (r, e') -> r = SentOk.
Proof.
  intros [Ha Hp] Hl Hx. unfold zlen, MAX_PAYLOAD in Hl. unfold send_one in Hx.
  apply run_bind_inv in Hx as (o & e1 & Ho & Hx). apply ts_options_len in Ho.
  apply run_bind_inv in Hx as (gw & e2 & _ & Hx). cbv zeta in Hx. set (seg := data_segment gw c seq o payload) in Hx.
  apply run_bind_inv in Hx as (built & e3 & Hb & Hx).
  assert (Hfit : build_segment seg (replicate (FRAME_HDRS_MIN + 40 + length payload) 0) <> Some None).
  { apply build_segment_fits; change (tx_payload seg) with payload; unfold tcp_hdr_len_of, TCP_HDR_MIN, FRAME_HDRS_MIN, U16_MAX;
      change (tx_options seg) with o; rewrite ?length_replicate; unfold ETH_HDR_LEN, IPV4_HDR_MIN, TCP_HDR_MIN; lia. }
  unfold lift in Hb. destruct (build_segment seg _) as [built'|]; [|done]. injection Hb as -> ->.
  destruct built as [[n buf]|]; [|done].
  apply run_bind_inv in Hx as (om & e4 & Hm & Hx). injection Hm as <- <-.
  destruct (Ha (eg_step e3)) as [m Em]. rewrite Em in Hx.
  apply run_bind_inv in Hx as (app & e5 & Happ & Hx). injection Happ as <- <-. rewrite Hp in Hx. cbn [negb] in Hx.
  repeat (apply run_bind_inv in Hx as (? & ? & _ & Hx)). by injection Hx.
Qed.

(** The loop sends whole segments: what it reports is what it moved past, and all of it
    when the driver is ready. *)
Lemma send_loop_good p L h c mss fuel : 1 <= mss -> forall bytes remaining accepted seq,
  0 <= remaining -> 0 <= accepted -> accepted + remaining < two32 ->
  triple (good p L) (send_loop fuel h c mss bytes remaining accepted seq)
    (fun r e => good p L e /\
       match r with
       | Some (a, s) => accepted <= a <= accepted + remaining /\ s = wadd32 seq (a - accepted) \/ a = accepted /\ s = seq
       | None => True
       end /\
       (driver_ready -> mss <= MAX_PAYLOAD -> remaining <= Z.of_nat fuel ->
        exists s, r = Some (accepted + remaining, s))).
Proof.
  intros Hm. induction fuel as [|fuel IH]; intros bytes remaining accepted seq Hr Ha Hlt; cbn [send_loop].
  { intros e He. eexists _, e. split; [reflexivity|]. split_and!; auto. intros _ _ ?. eexists. do 2 f_equal. lia. }
  destruct (Z.ltb_spec 0 remaining).
  2: { intros e He. eexists _, e. split; [reflexivity|]. split_and!; auto. intros _ _ ?. eexists. do 2 f_equal. lia. }
  set (t := Z.min remaining mss). assert (1 <= t <= remaining) by (unfold t; lia).
  assert (Hl : zlen (take (Z.to_nat t) bytes) <= mss) by (unfold zlen; rewrite length_take; unfold t in *; lia).
  apply (triple_bind (good p L)) with
    (Q := fun r e => good p L e /\ (driver_ready -> mss <= MAX_PAYLOAD -> r = SentOk)).
  { intros e He. destruct (safe_send_one p h c seq (take (Z.to_nat t) bytes) L e He) as (r & e' & E & He').
    exists r, e'. split; [exact E|]. split; [done|]. intros Hd Hmx. eapply send_one_sends; [done| |exact E]. lia. }
  intros r e [He Hd]. destruct r.
  - destruct (IH (drop (Z.to_nat t) bytes) (remaining - t) (wadd32 accepted t) (wadd32 seq t)
      ltac:(lia) ltac:(apply wadd32_range) ltac:(rewrite wadd32_id by width_lia; lia) e He) as (r & e' & E & He' & Hr' & Hall).
    rewrite wadd32_id in * by width_lia. exists r, e'. split; [exact E|]. split; [done|]. split.
    + destruct r as [[a s]|]; [|done]. left. destruct Hr' as [[? ->]|[-> ->]].
      * split; [lia|]. rewrite wadd32_assoc. f_equal. lia.
      * split; [lia|]. f_equal. lia.
    + intros Hrd Hmx Hf. destruct (Hall Hrd Hmx ltac:(lia)) as [s ->]. exists s. do 2 f_equal. lia.
  - eexists _, e. split; [reflexivity|]. split_and!; auto. intros Hrd Hmx _. by specialize (Hd Hrd Hmx).
  - eexists _, e. split; [reflexivity|]. split; [done|]. split; [destruct (accepted =? 0); auto|].
    intros Hrd Hmx _. by specialize (Hd Hrd Hmx).
Qed.

Context (Hsbb : 0 <= send_buffer_bytes < two31).

Lemma advance_nxt_ok c n : c_state c = Established -> 0 <= n <= send_room c -> conn_ok c ->
  conn_ok (c <| c_snd_nxt := wadd32 (c_snd_nxt c) n |>).
Proof.
  intros Hs Hn [H1 H2 H3 H4 H5 H6 H7]. unfold send_room in Hn. change (wsub32 (c_snd_nxt c) (c_snd_una c)) with (off (c_snd_una c) (c_snd_nxt c)) in Hn.
  rewrite Hs in *. cbn in H4. pose proof (off_range (c_snd_una c) (c_snd_nxt c)). unfold sat_sub in Hn.
  split; conn_simpl; try done.
  - apply wadd32_range.
  - rewrite off_wadd by width_lia. rewrite Hs. cbn. lia.
  - by rewrite Hs.
Qed.

Lemma send_room_range c : 0 <= send_room c < two31.
Proof.
  unfold send_room, sat_sub. pose proof (wsub32_range (c_snd_nxt c) (c_snd_una c)). width_lia.
Qed.

(** The connection after the call: only [snd_nxt] has moved, by what was accepted. *)
Definition sent_state (h : ConnHandle) (c : TcpConn) (n : Z) (e : Engine) : Prop :=
  exists c', ft_get (eg_flow_table e) h = Some c' /\
    keeps conn_view (c <| c_snd_nxt := wadd32 (c_snd_nxt c) n |>) c'.

(** What the call reports and leaves behind, against the connection it found. *)
Definition send_outcome (h : ConnHandle) (oc : option TcpConn) (len : Z) (r : result Z EngineError) (e : Engine) : Prop :=
  match oc with
  | None => r = Err (InvalidConnHandle h)
  | Some c =>
      if bool_decide (c_state c = Established)
      then let in_flight := wsub32 (c_snd_nxt c) (c_snd_una c) in
           let room := Z.max 0 (Z.min (c_snd_wnd c) send_buffer_bytes - in_flight) in
           match r with
           | Ok n => 0 <= n <= Z.min len room /\ sent_state h c n e
           | Err err => err = SendBufferFull /\ sent_state h c 0 e
           end /\
           (driver_ready -> Z.min (c_peer_mss c) tcp_mss <= MAX_PAYLOAD -> r = Ok (Z.min len room))
      else r = Err (InvalidConnHandle h)
  end.

Lemma focus_state h c L e : good (Some (is_conn h c)) L e ->
  exists c', ft_get (eg_flow_table e) h = Some c' /\ keeps conn_view c c'.
Proof.
  intros He. destruct (pending_here (is_conn h c) h L e eq_refl He) as [c' Hg]. exists c'. split; [done|].
  pose proof (proj2 (ft_get_some _ _ _ Hg)) as Hi.
  exact (slot_inv_self (is_conn h c) _ _ (iv_conns _ _ (proj1 He) _ _ Hi) eq_refl).
Qed.

(** The end of the call, once the loop has sent [n] bytes. *)
Lemma send_tail_good L h c n len : c_state c = Established -> 0 <= n <= send_room c -> conn_ok c ->
  triple (good (Some (is_conn h c)) L)
    (update_conn h (fun c' => c' <| c_snd_nxt := wadd32 (c_snd_nxt c) n |>) ;;
     when (n <? len) (inc SendBufFull ;; update_conn h (fun c => c <| c_send_refused_pending := true |>)) ;;
     when (0 <? n) (arm_tlp_pto h) ;; mret (Ok (E := EngineError) n))
    (fun r e => good None L e /\ sent_state h c n e /\ r = Ok n).
Proof.
  intros Hs Hn Hc. set (c2 := c <| c_snd_nxt := wadd32 (c_snd_nxt c) n |>).
  assert (Hc2 : conn_ok c2) by by apply advance_nxt_ok. eapply triple_bind.
  - apply (assign (Some (is_conn h c2)) L L); [|done]. intros c' Hk Hb'.
    apply conn_view_inv in Hk as (E1 & E2 & E3 & E4 & E5 & E6 & E7 & E8 & E9 & E10 & E11 & E12).
    split; [done|]. split; [by destruct Hb' as [B1 B2 B3 B4]; split; conn_simpl|]. split.
    + apply (slot_inv_in (is_conn h c2)). cbn [is_conn pd_inv]. unfold keeps, conn_view, engine_view, c2. conn_simpl. congruence.
    + intros m. rewrite !owned_conn. conn_simpl. rewrite E6, E7. lia.
  - intros ?. apply safe_then; [safe_walk|]. intros _. apply safe_then; [safe_walk|]. intros _ e He.
    exists (Ok n), e. split; [done|]. split; [by apply (unfocus h c2)|]. split; [by apply (focus_state h c2 L)|done].
Qed.

Lemma sent_nothing h c L e : conn_ok c -> good (Some (is_conn h c)) L e -> sent_state h c 0 e.
Proof.
  intros Hc He. destruct (focus_state h c L e He) as (c' & Hg & K). exists c'. split; [done|].
  etransitivity; [|exact K]. unfold keeps, conn_view, engine_view. conn_simpl. by rewrite wadd32_0_r by apply Hc.
Qed.

Lemma send_room_eq c :
  send_room c = Z.max 0 (Z.min (c_snd_wnd c) send_buffer_bytes - wsub32 (c_snd_nxt c) (c_snd_una c)).
Proof. unfold send_room, sat_sub. lia. Qed.

Lemma send_good L h bytes oc :
  triple (fun e => good None L e /\ ft_get (eg_flow_table e) h = oc) (send_bytes h bytes)
    (fun r e => good None L e /\ send_outcome h oc (zlen bytes) r e).
Proof.
  intros e [He Hg]. unfold send_bytes, mbind at 1, M_bind at 1, get_conn, get. rewrite Hg.
  destruct oc as [c|]; cbn [send_outcome]; [|eexists _, e; split; [reflexivity|]; eauto].
  destruct (focus_at L h c e Hg He) as (Hc & Hb & Hf).
  destruct (bool_decide (c_state c = Established)) eqn:Es; cbn [negb]; [|eexists _, e; split; [reflexivity|]; eauto].
  apply bool_decide_eq_true in Es. cbv zeta. rewrite <- send_room_eq.
  pose proof (send_room_range c) as Hroom. pose proof (zlen_nonneg bytes).
  set (mss := Z.max _ 1). set (rem := Z.min (zlen bytes) (send_room c)). clear He Hg. revert e Hf.
  assert (Hfuel : rem <= Z.of_nat (length bytes)) by (unfold rem, zlen; lia).
  assert (Hmss : Z.min (c_peer_mss c) tcp_mss <= MAX_PAYLOAD -> mss <= MAX_PAYLOAD) by (unfold mss, MAX_PAYLOAD; lia).
  apply (triple_bind (good (Some (is_conn h c)) L)) with (Q := fun r e => good (Some (is_conn h c)) L e /\
       match r with
       | Some (a, s) => 0 <= a <= rem /\ s = wadd32 (c_snd_nxt c) a
       | None => True
       end /\
       (driver_ready -> Z.min (c_peer_mss c) tcp_mss <= MAX_PAYLOAD -> exists s, r = Some (rem, s))).
  - eapply triple_conseq; [intros e He; exact He| |apply send_loop_good; [unfold mss; lia|unfold rem; lia|lia|unfold rem; width_lia]].
    intros r e (He & Hr & Hall). split; [done|]. split.
    + destruct r as [[a s]|]; [|done]. destruct Hr as [[? ->]|[-> ->]]; [split; [lia|f_equal; lia]|].
      split; [unfold rem; lia|]. by rewrite wadd32_0_r by apply Hc.
    + intros Hrd Hmx. by apply Hall; [|apply Hmss|].
  - intros [[a s]|].
    + intros e (He & [Ha ->] & Hall). destruct (send_tail_good L h c a (u32 (zlen bytes)) Es ltac:(unfold rem in *; lia) Hc e He)
        as (r & e' & E & He' & Hs' & ->).
      eexists _, e'. split; [exact E|]. split; [done|]. split; [done|].
      intros Hrd Hmx. destruct (Hall Hrd Hmx) as [s Es']. by injection Es' as ->.
    + intros e (He & _ & Hall). eexists _, e. split; [reflexivity|]. split; [by apply (unfocus h c)|].
      split; [split; [done|]; by apply (sent_nothing h c L)|].
      intros Hrd Hmx. by destruct (Hall Hrd Hmx).
Qed.

(** ** Connecting *)

Lemma handshake_good L h iss ip conn t mss a b d e : is_u32 iss -> conn = new_client t iss mss recv_buffer_bytes a b d e ->
  triple (good (Some (is_conn h conn)) L) (start_handshake h iss ip) (fun _ => good None L).
Proof.
  intros Hi Ec. unfold start_handshake. apply safe_then; [eauto with safe|]. intros ok.
  assert (Hc : conn_ok conn).
  { rewrite Ec. apply (conn_ok_view _ _) with (2 := new_client_ok t iss mss a b d e Closed Hi (or_introl eq_refl)). reflexivity. }
  destruct (negb ok).
  { eapply (triple_pre (good None L)); [intros e' He; by apply (unfocus h conn)|].
    eapply triple_bind; [apply safe_remove_conn|]. intros ?. apply triple_ret. }
  apply safe_then; [safe_walk|]. intros _. eapply triple_bind.
  - apply (assign (Some (to_state h SynSent)) L L h conn); [|done]. intros c' Hk Hb'.
    apply conn_view_inv in Hk as (E1 & E2 & E3 & E4 & E5 & E6 & E7 & E8 & _).
    split; [done|]. split; [by destruct Hb' as [B1 B2 B3 B4]; split; conn_simpl|]. split.
    + apply (slot_inv_in (to_state h SynSent)).
      apply (conn_ok_view _ _) with (2 := new_client_ok t iss mss a b d e SynSent Hi (or_intror eq_refl)).
      subst conn. unfold keeps, ok_view. conn_simpl. rewrite E2, E3, E4, E6. reflexivity.
    + intros m. rewrite !owned_conn. conn_simpl. rewrite E6, E7. lia.
  - intros ?. eapply triple_bind; [apply transition_settles|]. intros ?. apply safe_then; [eauto with safe|]. intros now.
    apply safe_then; [eauto with safe|]. intros _. apply triple_ret.
Qed.

Lemma safe_connect ip port hint opts : safe None (connect_with_opts ip port hint opts).
Proof.
  unfold connect_with_opts. destruct (local_ip =? 0); [apply safe_ret|].
  apply safe_bind; [eauto with safe|]. intros gw. destruct (bool_decide _); [apply safe_ret|].
  apply safe_bind; [eauto with safe|]. intros sec. destruct (select_source_ip _ _ _) as [sel|err]; [|apply safe_ret].
  apply safe_bind; [unfold next_ephemeral_port; safe_walk|]. intros lport. apply safe_bind; [eauto with safe|]. intros now.
  cbv zeta. set (t := mkFourTuple _ _ _ _). set (iss := iss_next _ _ _). assert (Hi : is_u32 iss) by apply wadd32_range.
  set (conn := new_client _ _ _ _ _ _ _ _). intros L. eapply triple_bind; [apply insert_good|].
  - apply new_client_base.
  - intros m. reflexivity.
  - intros [h|]; [|revert L; change (safe None (inc ConnTableFull ;; mret (Err (A := ConnHandle) TooManyConns))); safe_walk].
    apply safe_then; [apply safe_update_conn; intros c; unfold apply_connect_opts; keeps_tac|]. intros _.
    apply safe_then; [safe_walk|]. intros _. apply safe_then; [safe_walk|]. intros _.
    by apply (handshake_good L h iss ip conn t offered_mss send_buffer_bytes tcp_min_rto_us tcp_initial_rto_us tcp_max_rto_us).
Qed.

(** ** The remaining calls *)

Lemma safe_timer_add p d u : safe p (public_timer_add d u).
Proof. unfold public_timer_add. safe_walk. Qed.
Lemma safe_timer_cancel p id : safe p (public_timer_cancel id).
Proof. apply safe_wheel_cancel. Qed.
Lemma safe_add_ip p ip : safe p (add_local_ip ip).
Proof. unfold add_local_ip. safe_walk. Qed.

(** Draining hands the references from the queue to the drained list. *)
Lemma safe_drain p n : safe p (drain_events n).
Proof.
  induction n as [|n IH]; cbn [drain_events]; [apply safe_ret|]. intros L e He. unfold mbind at 1, M_bind at 1.
  pose proof He as [[H1' H2 H3 HH H4 H5 [H6 H6']] H7]. unfold event_pop.
  destruct (eq_q (eg_events e)) as [|ev q] eqn:Eq.
  - eexists _, _. split; [reflexivity|]. apply (good_core p L e); [|done]. unfold core_view. by destruct e.
  - assert (Hg : good p L (e <| eg_events ::= fun q0 => q0 <| eq_q := q |> |> <| eg_drained ::= fun l => l ++ [ev] |>)).
    { split; [split; try done|].
      - split; cbn; [done|]. rewrite zlen_cons in H6'. lia.
      - intros m. rewrite <- H7. unfold ledger, held. cbn [field_set eg_flow_table eg_events eg_drained eg_rx_ops].
        change (owned m (eg_events e)) with (owned m (eq_q (eg_events e))). rewrite Eq.
        change (owned m {| eq_q := q; eq_soft_cap := eq_soft_cap (eg_events e) |}) with (owned m q). rewrite owned_app, !owned_cons, owned_nil. lia. }
    destruct (IH L _ Hg) as (rest & e' & E & He'). exists (ev :: rest), e'. split; [|done].
    change (match drain_events n (e <| eg_events ::= fun q0 => q0 <| eq_q := q |> |> <| eg_drained ::= fun l => l ++ [ev] |>)
      with Some (a, e1) => Some (ev :: a, e1) | None => None end = Some (ev :: rest, e')).
    by rewrite E.
Qed.
End Loop.
