(* ===== verification/EngineSend.v ===== *)
(** * What a send puts on the wire: engine.rs

    Every packet [send_bytes] builds is, at the peer, a segment with the next bytes of
    the application's buffer under the next sequence number; it is kept for
    retransmission, and what reaches the driver is such packets only, in order. *)

From S2P Require Import Prelude.
From S2P Require Import Bytes.
From S2P Require Import Options.
From S2P Require Import Mbuf.
From S2P Require Import Retrans.
From S2P Require Import TimerWheel.
From S2P Require Import Ip.
From S2P Require Import Output.
From S2P Require Import Segment.
From S2P Require Import Conn.
From S2P Require Import FlowTable.
From S2P Require Import AckBuild.
From S2P Require Import Events.
From S2P Require Import Engine.
From S2P Require Import EngineTx.
From S2P Require Import EngineTimers.
From S2P Require Import EngineRx.
From S2P Require Import EngineApi.
From S2P Require Import EngineInv.
From S2P Require Import EngineSafe.
From S2P Require Import EngineLoop.

(** ** Frames *)

(** The segment the host with addresses [mac] and [ip] reads out of a frame: the layers
    of [rx_frame], every checksum verified in software. *)
Definition receive_frame (mac : list Z) (ip : Z) (frame : list Z) : option ParsedSegment :=
  match l2_decode frame mac with
  | Some (Ok l2) =>
      let pkt := drop (l2_payload_offset l2) frame in
      match ip_decode pkt ip false with
      | Some (Ok l3) =>
          match get_slice (l3_header_len l3) (l3_total_len l3) pkt with
          | Some tcp =>
              match parse_segment tcp (l3_src_ip l3) (l3_dst_ip l3) false with Some (Ok s) => Some s | _ => None end
          | None => None
          end
      | _ => None
      end
  | _ => None
  end.

(** [frame] takes [payload] to the peer under sequence number [seq]; the payload is
    the end of the frame. *)
Definition data_frame (mac : list Z) (t : FourTuple) (seq : Z) (payload frame : list Z) : Prop :=
  exists s, receive_frame mac (ft_peer_ip t) frame = Some s /\ segment_wf s /\
    ps_src_port s = ft_local_port t /\ ps_dst_port s = ft_peer_port t /\
    ps_seq s = seq /\ ps_payload s = payload /\ ps_flags s = Z.lor TCP_ACK TCP_PSH /\
    drop (34 + ps_header_len s) frame = payload.

(** Packets kept for retransmission, in order, holding frames that take [bytes] to the
    peer from sequence number [seq] on. *)
Fixpoint carried (mem : gmap MbufId (list Z)) (mac : list Z) (t : FourTuple) (seq : Z) (bytes : list Z)
    (l : list RetransEntry) : Prop :=
  match l with
  | [] => bytes = []
  | r :: l => exists payload rest frame, bytes = payload ++ rest /\ payload <> [] /\
      re_seq r = seq /\ re_len r = zlen payload /\ mem !! re_mbuf r = Some frame /\
      data_frame mac t seq payload frame /\ carried mem mac t (wadd32 seq (zlen payload)) rest l
  end.

Lemma carried_app mem mac t seq b1 b2 l1 l2 : is_u32 seq -> carried mem mac t seq b1 l1 ->
  carried mem mac t (wadd32 seq (zlen b1)) b2 l2 -> carried mem mac t seq (b1 ++ b2) (l1 ++ l2).
Proof.
  revert seq b1. induction l1 as [|r l1 IH]; intros seq b1 Hs; cbn [carried app].
  - intros ->. cbn [app]. by rewrite wadd32_0_r by done.
  - intros (p & rest & f & -> & Hp & E1 & E2 & E3 & Hf & Hc) H2. exists p, (rest ++ b2), f.
    rewrite <- app_assoc. split_and!; try done. apply IH; [apply wadd32_range|done|].
    by rewrite wadd32_assoc, <- zlen_app.
Qed.

Lemma carried_mem mem mem' mac t seq b l : (forall r, r ∈ l -> mem' !! re_mbuf r = mem !! re_mbuf r) ->
  carried mem mac t seq b l -> carried mem' mac t seq b l.
Proof.
  revert seq b. induction l as [|r l IH]; intros seq b Hm; cbn [carried]; [done|].
  intros (p & rest & f & ? & ? & ? & ? & E & Hf & Hc). exists p, rest, f.
  rewrite Hm by set_solver. split_and!; try done. apply IH; [|done]. intros. apply Hm. set_solver.
Qed.

(** A frame that was built decodes. *)
Lemma built_data_frame seg : seg_wf seg -> tx_flags seg = Z.lor TCP_ACK TCP_PSH ->
  (encoded_len (tx_options seg) <= 40)%nat -> ip_total_of seg (tx_payload seg) <= U16_MAX ->
  data_frame (tx_dst_mac seg) (mkFourTuple (tx_src_ip seg) (tx_src_port seg) (tx_dst_ip seg) (tx_dst_port seg))
    (tx_seq seg) (tx_payload seg) (frame_headers seg (tx_payload seg) ++ tx_payload seg).
Proof.
  intros Hwf Hfl Ho Ht. destruct (frame_decodes seg Hwf ltac:(by rewrite Hfl) Ho Ht) as (E2 & E3 & E4).
  set (frame := frame_headers seg (tx_payload seg) ++ tx_payload seg) in *. cbv zeta in E3, E4.
  pose proof (length_frame_headers seg (tx_payload seg) Hwf) as Hl.
  unfold data_frame, receive_frame. rewrite E2. cbn [l2_payload_offset]. cbv zeta. cbn [ft_peer_ip]. rewrite E3.
  cbn [l3_header_len l3_total_len l3_src_ip l3_dst_ip].
  assert (34 <= length frame)%nat by (unfold frame; rewrite length_app; lia).
  rewrite get_slice_some by (rewrite ?length_drop; lia). rewrite E4.
  eexists. split; [reflexivity|]. cbn [ps_src_port ps_dst_port ps_seq ps_payload ps_flags ps_header_len].
  split; [|split_and!; try done; unfold frame; by rewrite drop_app_length'].
  destruct (swf_ports _ Hwf), (swf_seqs _ Hwf). pose proof (encoded_len_wire _ (opts_count seg Hwf)).
  assert (tcp_hdr_len_of seg = 20 + encoded_len (tx_options seg))%nat by reflexivity.
  split; cbn [ps_src_port ps_dst_port ps_seq ps_payload ps_flags ps_header_len ps_ack ps_window ps_options].
  - done.
  - done.
  - done.
  - split; [apply Hwf|by rewrite Hfl].
  - apply Hwf.
  - apply Hwf.
  - split; [by apply is_bytes_opts_wire|]. lia.
  - lia.
Qed.

(** ** What leaves the transmit side alone *)

Section View.
Context `{EngineConfig}.

(** What has been handed over, what will be, and what the packets hold. *)
Definition tx_view (e : Engine) := (frames_out e, eg_tx_pending e, eg_mem e, eg_next e, eg_gateway_mac e).
Definition in_flight (h : ConnHandle) (e : Engine) : option (list RetransEntry) := c_snd_retrans <$> ft_get (eg_flow_table e) h.

Definition tx_same (h : ConnHandle) (e e' : Engine) : Prop :=
  tx_view e' = tx_view e /\ in_flight h e' = in_flight h e /\ (eg_step e <= eg_step e')%nat.
Definition tx_keeps {A} (h : ConnHandle) (m : M A) : Prop := forall e r e', m e = Some (r, e') -> tx_same h e e'.

Lemma tx_same_trans h e1 e2 e3 : tx_same h e1 e2 -> tx_same h e2 e3 -> tx_same h e1 e3.
Proof. intros (V1 & I1 & S1) (V2 & I2 & S2). split_and!; [congruence..|lia]. Qed.

Lemma tx_same_steps h e e' : tx_same h e e' -> (eg_step e <= eg_step e')%nat.
Proof. by intros (_ & _ & ?). Qed.

Lemma tx_same_ask {A} h (f : nat -> A) e a e' : ask f e = Some (a, e') -> tx_same h e e' /\ a = f (eg_step e) /\ eg_step e' = S (eg_step e).
Proof. intros E. injection E as <- <-. split; [split_and!; try done; cbn; lia|done]. Qed.

Section Keeps.
Context (h : ConnHandle) {A B : Type}.

Lemma tx_keeps_ret (a : A) : tx_keeps h (mret a).
Proof. intros e r e' E. injection E as <- <-. done. Qed.
Lemma tx_keeps_get (f : Engine -> A) : tx_keeps h (get f).
Proof. intros e r e' E. injection E as <- <-. done. Qed.
Lemma tx_keeps_ask (f : nat -> A) : tx_keeps h (ask f).
Proof. intros e r e' E. injection E as <- <-. split_and!; try done. cbn. lia. Qed.
Lemma tx_keeps_lift (o : option A) : tx_keeps h (lift o).
Proof. intros e r e' E. unfold lift in E. destruct o; [|done]. by injection E as <- <-. Qed.
Lemma tx_keeps_bind (m : M A) (k : A -> M B) : tx_keeps h m -> (forall a, tx_keeps h (k a)) -> tx_keeps h (mbind k m).
Proof.
  intros Hm Hk e r e' E. apply run_bind_inv in E as (a & e1 & E1 & E2).
  eapply tx_same_trans; [by eapply Hm|by eapply Hk].
Qed.
End Keeps.

Lemma tx_keeps_update h f : (forall e, tx_view (f e) = tx_view e /\ eg_flow_table (f e) = eg_flow_table e /\ eg_step (f e) = eg_step e) ->
  tx_keeps h (update f).
Proof.
  intros Hf e r e' E. injection E as <- <-. destruct (Hf e) as (V & F & S). split_and!; [done| |lia].
  unfold in_flight. by rewrite F.
Qed.
Lemma update_inv f e r e' : update f e = Some (r, e') -> e' = f e.
Proof. intros E. by injection E as _ <-. Qed.
Lemma tx_keeps_skip h : tx_keeps h skip.
Proof. apply tx_keeps_ret. Qed.
Lemma tx_keeps_when h b m : tx_keeps h m -> tx_keeps h (when b m).
Proof. intros Hm. destruct b; [done|apply tx_keeps_skip]. Qed.
Lemma tx_keeps_inc_by h c n : tx_keeps h (inc_by c n).
Proof. by apply tx_keeps_update. Qed.
Lemma tx_keeps_inc h c : tx_keeps h (inc c).
Proof. apply tx_keeps_inc_by. Qed.
Lemma tx_keeps_tx_calls h ops : tx_keeps h (tx_calls ops).
Proof. by apply tx_keeps_update. Qed.
Lemma tx_keeps_wheel_add h now n : tx_keeps h (wheel_add now n).
Proof.
  intros e r e' E. unfold wheel_add in E. destruct (add now n (eg_timer_wheel e)) as [w id]. by injection E as <- <-.
Qed.
Lemma tx_keeps_update_conn h f : (forall c, c_snd_retrans (f c) = c_snd_retrans c) -> tx_keeps h (update_conn h f).
Proof.
  intros Hf e r e' E. injection E as <- <-. split_and!; [done| |done]. unfold in_flight.
  cbn [field_set eg_flow_table]. rewrite ft_update_get_eq. destruct (ft_get _ _); cbn [fmap option_fmap option_map]; [by rewrite Hf|done].
Qed.

End View.

Create HintDb tx_keeps discriminated.
#[export] Hint Resolve tx_keeps_ret tx_keeps_skip tx_keeps_get tx_keeps_ask tx_keeps_lift tx_keeps_inc tx_keeps_inc_by
  tx_keeps_tx_calls tx_keeps_wheel_add : tx_keeps.

Ltac tx_step :=
  lazymatch goal with
  | |- tx_keeps _ (when _ _) => apply tx_keeps_when
  | |- tx_keeps _ (update_conn _ _) => apply tx_keeps_update_conn; intros ?; reflexivity
  | |- tx_keeps _ (mbind _ _) => apply tx_keeps_bind; [|intros ?]
  | |- tx_keeps _ (if ?b then _ else _) => destruct b eqn:?
  | |- tx_keeps _ (match ?x with _ => _ end) => destruct x eqn:?
  | |- tx_keeps _ _ => solve [eauto with tx_keeps]
  end.
Ltac tx_walk := repeat (cbv beta zeta; tx_step).

Section Send.
Context `{Platform} `{EngineConfig}.

Lemma tx_keeps_get_conn h h' : tx_keeps h (get_conn h').
Proof. apply tx_keeps_get. Qed.
Lemma tx_keeps_ts_options h c : tx_keeps h (ts_options c).
Proof. unfold ts_options. tx_walk. Qed.
Lemma tx_keeps_arm_rto h now at_ : tx_keeps h (arm_timer h Rto now at_ set_rto_timer).
Proof. unfold arm_timer. tx_walk. Qed.
Lemma tx_keeps_arm_tlp_timer h now at_ : tx_keeps h (arm_timer h Tlp now at_ set_tlp_timer).
Proof. unfold arm_timer. tx_walk. Qed.
#[local] Hint Resolve tx_keeps_get_conn tx_keeps_ts_options tx_keeps_arm_rto tx_keeps_arm_tlp_timer : tx_keeps.
Lemma tx_keeps_arm_tlp h : tx_keeps h (arm_tlp_pto h).
Proof. unfold arm_tlp_pto. tx_walk. Qed.
#[local] Hint Resolve tx_keeps_arm_tlp : tx_keeps.

(** ** The pending ring *)

Lemma for_each_keeps {A} h (l : list A) body : (forall x, tx_keeps h (body x)) -> tx_keeps h (for_each l body).
Proof. intros Hb. induction l as [|x l IH]; cbn [for_each]; [apply tx_keeps_skip|]. by apply tx_keeps_bind. Qed.

(** A burst takes a prefix of the ring and touches nothing else. *)
Lemma burst_ring_spec ring e n e' : burst_ring ring e = Some (n, e') ->
  frames_out e' = frames_out e ++ map (frame_bytes e) (take n ring) /\
  eg_tx_pending e' = eg_tx_pending e /\ eg_mem e' = eg_mem e /\ eg_next e' = eg_next e /\
  eg_gateway_mac e' = eg_gateway_mac e /\ eg_flow_table e' = eg_flow_table e /\ (eg_step e <= eg_step e')%nat.
Proof.
  unfold burst_ring, frames_out. destruct test_server; intros E; apply run_bind_inv in E as (u & e1 & E1 & E).
  - injection E as <- <-. rewrite firstn_all. revert e E1. induction ring as [|m ring IH]; intros e E1; cbn [for_each] in E1.
    { injection E1 as _ <-. by rewrite app_nil_r. }
    apply run_bind_inv in E1 as (? & e2 & E2 & E1). apply IH in E1 as (-> & -> & -> & -> & -> & -> & ?).
    apply run_bind_inv in E2 as (b & e3 & E3 & E2). injection E3 as <- <-. injection E2 as _ <-.
    cbn [field_set eg_tx_intercept eg_tx_pending eg_mem eg_next eg_gateway_mac eg_flow_table eg_step map] in *.
    split_and!; try done. by rewrite <- app_assoc.
  - injection E1 as <- <-. cbv zeta in E. apply run_bind_inv in E as (? & e2 & E2 & E). injection E as <- <-.
    apply update_inv in E2 as ->. split_and!; try done. cbn. lia.
Qed.

(** Draining hands over a prefix of the ring and forgets the rest. *)
Lemma drain_tx_spec h e r e' : drain_tx_pending_data e = Some (r, e') ->
  eg_tx_pending e' = [] /\ (exists k, frames_out e' = frames_out e ++ map (frame_bytes e) (take k (eg_tx_pending e))) /\
  eg_mem e' = eg_mem e /\ eg_next e' = eg_next e /\ eg_gateway_mac e' = eg_gateway_mac e /\
  in_flight h e' = in_flight h e /\ (eg_step e <= eg_step e')%nat.
Proof.
  intros E. unfold drain_tx_pending_data in E. apply run_bind_inv in E as (ring & e1 & E1 & E). injection E1 as <- <-.
  destruct (eg_tx_pending e) as [|m ring] eqn:Er.
  { injection E as <- <-. split_and!; try done. exists 0%nat. cbn. by rewrite app_nil_r. }
  rewrite <- Er in *. apply run_bind_inv in E as (k & e2 & E2 & E).
  apply burst_ring_spec in E2 as (W2 & P2 & M2 & N2 & G2 & F2 & S2).
  apply run_bind_inv in E as (? & e3 & E3 & E).
  apply (for_each_keeps h) in E3 as (V3 & I3 & S3); [|intros; tx_walk]. injection V3 as W3 P3 M3 N3 G3.
  apply run_bind_inv in E as (? & e4 & E4 & E). apply update_inv in E4.
  assert (Hl : tx_same h e4 e').
  { revert E. match goal with |- ?m e4 = _ -> _ => assert (Hm : tx_keeps h m) by tx_walk end. apply Hm. }
  subst e4. destruct Hl as (V & I & S). injection V as W P M N G.
  change (in_flight h e' = in_flight h e3) in I. assert (I2 : in_flight h e2 = in_flight h e) by (unfold in_flight; by rewrite F2).
  cbn [field_set eg_step] in S. split_and!; [done| |congruence..|lia].
  change (frames_out e' = frames_out e3) in W. exists k. by rewrite W, W3, W2.
Qed.

Lemma drain_flow_table e r e' : drain_tx_pending_data e = Some (r, e') -> eg_flow_table e' = eg_flow_table e.
Proof.
  assert (Hfe : forall l e r e', for_each l (fun m => tx_calls [FreeSeg m] ;; inc EthTxDropFullRing) e = Some (r, e') ->
    eg_flow_table e' = eg_flow_table e).
  { induction l as [|m l IH]; intros e1 r1 e2 E; cbn [for_each] in E; [by injection E as _ <-|].
    apply run_bind_inv in E as (? & e3 & E3 & E). apply IH in E as ->. by injection E3 as _ <-. }
  unfold drain_tx_pending_data. intros E. apply run_bind_inv in E as (ring & e1 & E1 & E). injection E1 as <- <-.
  destruct (eg_tx_pending e); [by injection E as _ <-|]. apply run_bind_inv in E as (k & e2 & E2 & E).
  apply burst_ring_spec in E2 as (_ & _ & _ & _ & _ & F2 & _).
  apply run_bind_inv in E as (? & e3 & E3 & E). apply Hfe in E3.
  transitivity (eg_flow_table e3); [|by rewrite E3]. destruct (0 <? _); injection E as _ <-; reflexivity.
Qed.

(** The ring after a push, drained first when it was full. *)
Lemma push_pending_spec h m e r e' : push_pending m e = Some (r, e') ->
  (exists ws ring, frames_out e' = frames_out e ++ ws /\ eg_tx_pending e' = ring ++ [m] /\
     (ws = [] /\ ring = eg_tx_pending e \/ ring = [] /\ exists k, ws = map (frame_bytes e) (take k (eg_tx_pending e)))) /\
  eg_mem e' = eg_mem e /\ eg_next e' = eg_next e /\ eg_gateway_mac e' = eg_gateway_mac e /\
  in_flight h e' = in_flight h e /\ (eg_step e <= eg_step e')%nat.
Proof.
  intros E. unfold push_pending in E. apply run_bind_inv in E as (ring & e1 & E1 & E). injection E1 as <- <-.
  apply run_bind_inv in E as (? & e1 & E1 & E). injection E as _ <-.
  unfold when in E1. destruct (negb _).
  - apply (drain_tx_spec h) in E1 as (P & [k W] & M & N & G & I & S).
    split_and!; try done. exists (map (frame_bytes e) (take k (eg_tx_pending e))), [].
    cbn [field_set frames_out eg_tx_pending]. rewrite P. split_and!; eauto.
  - injection E1 as _ <-. split_and!; try done. exists [], (eg_tx_pending e). rewrite app_nil_r. eauto.
Qed.

(** ** One segment *)

Lemma record_in_flight_spec h entry now e r e' : record_in_flight h entry now e = Some (r, e') ->
  tx_view e' = tx_view e /\ in_flight h e' = (fun l => l ++ [entry]) <$> in_flight h e /\ (eg_step e <= eg_step e')%nat.
Proof.
  intros E. unfold record_in_flight in E. apply run_bind_inv in E as (oc & e1 & E1 & E). injection E1 as <- <-.
  unfold in_flight at 2. destruct (ft_get (eg_flow_table e) h) as [c|] eqn:Eg.
  2: { injection E as _ <-. unfold in_flight. by rewrite Eg. }
  cbv zeta in E. apply run_bind_inv in E as (? & e1 & E1 & E). apply update_inv in E1.
  assert (Hk : tx_same h e1 e').
  { revert E. match goal with |- ?m e1 = _ -> _ => assert (Hm : tx_keeps h m) by tx_walk end. apply Hm. }
  destruct Hk as (V & I & S). subst e1. split_and!; [exact V| |exact S]. rewrite I. unfold in_flight.
  cbn [field_set eg_flow_table]. rewrite ft_update_get_eq, Eg. reflexivity.
Qed.

(** What the segment builder needs of the configuration, the gateway and the connection. *)
Record sender_ok (gw : list Z) (c : TcpConn) : Prop := {
  so_sum : tx_cksum_feature && tx_cksum_offload_active = false;
  so_mac : is_bytes our_mac /\ length our_mac = 6%nat;
  so_gw : is_bytes gw /\ length gw = 6%nat;
  so_ips : is_u32 (ft_local_ip (c_four_tuple c)) /\ is_u32 (ft_peer_ip (c_four_tuple c));
  so_ports : is_u16 (ft_local_port (c_four_tuple c)) /\ is_u16 (ft_peer_port (c_four_tuple c));
  so_ack : is_u32 (c_rcv_nxt c);
  so_ts : is_u32 (c_ts_recent c)
}.

Lemma ts_options_wf gw c e o e' : sender_ok gw c -> ts_options c e = Some (o, e') ->
  opts_wf o /\ ws_clamped o = false /\ (encoded_len o <= 12)%nat /\ tx_view e' = tx_view e.
Proof.
  intros Hc E. pose proof (ts_options_len _ _ _ _ E) as Hl. pose proof (tx_keeps_ts_options 0 c _ _ _ E) as (V & _ & _).
  unfold ts_options in E. destruct (c_ts_enabled c).
  - apply run_bind_inv in E as (now & e1 & _ & E). injection E as <- _. split_and!; try done.
    destruct TcpOpts_default_wf as [W1 W2 W3 W4 W5 W6 W7].
    split; [exact W1|exact W2| |exact W4|exact W5|exact W6|exact W7]. intros v x [= <- <-]. split; [apply u32_range|apply Hc].
  - injection E as <- _. split_and!; try done. apply TcpOpts_default_wf.
Qed.

Lemma data_segment_wf gw c seq o payload : sender_ok gw c -> is_u32 seq -> is_bytes payload -> opts_wf o -> ws_clamped o = false ->
  seg_wf (data_segment gw c seq o payload).
Proof.
  intros [_ Hm Hg Hi Hp Ha Ht] Hs Hb Ho Hw. split; try done. apply u16_range.
Qed.

(** What one turn of the loop leaves when the segment went out. *)
Record one_sent (h : ConnHandle) (c : TcpConn) (seq : Z) (payload : list Z) (e : Engine) (r : RetransEntry) (e' : Engine) : Prop := {
  os_seqno : re_seq r = seq;
  os_size : re_len r = zlen payload;
  os_from : exists i, (eg_step e <= i < eg_step e')%nat /\ pl_alloc_data i = Some (re_mbuf r);
  os_mem : exists frame, eg_mem e' = <[re_mbuf r := frame]> (eg_mem e) /\
    data_frame (eg_gateway_mac e) (c_four_tuple c) seq payload frame;
  os_next : eg_next e' = delete (re_mbuf r) (eg_next e);
  os_kept : in_flight h e' = (fun l => l ++ [r]) <$> in_flight h e;
  os_gw : eg_gateway_mac e' = eg_gateway_mac e;
  os_ring : exists ws ring, frames_out e' = frames_out e ++ ws /\ eg_tx_pending e' = ring ++ [re_mbuf r] /\
    (ws = [] /\ ring = eg_tx_pending e \/ ring = [] /\ exists k, ws = map (frame_bytes e') (take k (eg_tx_pending e)))
}.

Lemma frame_bytes_same e e' m : eg_mem e' = eg_mem e -> eg_next e' = eg_next e -> frame_bytes e' m = frame_bytes e m.
Proof. intros Em En. unfold frame_bytes. by rewrite Em, En. Qed.

Lemma send_one_spec h c seq payload e s e' : sender_ok (eg_gateway_mac e) c -> is_u32 seq -> is_bytes payload ->
  zlen payload < two31 -> send_one h c seq payload e = Some (s, e') ->
  (eg_step e <= eg_step e')%nat /\
  match s with SentOk => exists r, one_sent h c seq payload e r e' | _ => tx_same h e e' end.
Proof.
  intros Hc Hs Hb Hl E. unfold send_one in E.
  apply run_bind_inv in E as (o & e1 & E1 & E). pose proof (tx_keeps_ts_options h c _ _ _ E1) as S1.
  destruct (ts_options_wf _ _ _ _ _ Hc E1) as (Ho & Hw & Hlo & _). clear E1.
  apply run_bind_inv in E as (gw & e2 & E2 & E). injection E2 as <- <-. cbv zeta in E.
  destruct S1 as (V1 & I1 & S1). injection V1 as W1 P1 M1 N1 G1. rewrite G1 in E.
  set (seg := data_segment (eg_gateway_mac e) c seq o payload) in E.
  assert (Hwf : seg_wf seg) by by apply data_segment_wf.
  apply run_bind_inv in E as (built & e3 & E3 & E). unfold lift in E3.
  destruct (build_segment seg _) as [built'|] eqn:Eb; [|done]. injection E3 as -> ->.
  assert (Hsame : tx_same h e e3) by (split_and!; [unfold tx_view; congruence|done|done]).
  destruct built as [[n buf]|]; [|injection E as <- <-; by split; [apply Hsame|]].
  destruct (build_segment_sent seg _ n buf Hwf Hl ltac:(change (tx_options seg) with o; lia) Eb) as (Htot & En & Ef).
  apply run_bind_inv in E as (om & e4 & E4 & E). apply (tx_same_ask h) in E4 as (S4 & Em & Ek4). symmetry in Em.
  pose proof (tx_same_trans _ _ _ _ Hsame S4) as Hsame4.
  destruct om as [m|].
  2: { apply run_bind_inv in E as (? & e5 & E5 & E). injection E as <- <-. apply (tx_keeps_inc h) in E5.
       pose proof (tx_same_trans _ _ _ _ Hsame4 E5) as Hs5. split; [by eapply tx_same_steps|done]. }
  apply run_bind_inv in E as (app & e5 & E5 & E). apply (tx_same_ask h) in E5 as (S5 & _ & _).
  pose proof (tx_same_trans _ _ _ _ Hsame4 S5) as Hsame5.
  destruct app; cbn [negb] in E.
  2: { apply run_bind_inv in E as (? & e6 & E6 & E). apply (tx_keeps_tx_calls h) in E6.
       apply run_bind_inv in E as (? & e7 & E7 & E). injection E as <- <-. apply (tx_keeps_inc h) in E7.
       pose proof (tx_same_trans _ _ _ _ Hsame5 (tx_same_trans _ _ _ _ E6 E7)) as Hs7. split; [by eapply tx_same_steps|done]. }
  apply run_bind_inv in E as (? & e6 & E6 & E). apply update_inv in E6.
  apply run_bind_inv in E as (? & e7 & E7 & E). apply (tx_keeps_tx_calls h) in E7.
  apply run_bind_inv in E as (? & e8 & E8 & E). apply (push_pending_spec h) in E8 as ((ws & ring & W8 & P8 & R8) & M8 & N8 & G8 & I8 & S8).
  apply run_bind_inv in E as (? & e9 & E9 & E). apply (tx_keeps_inc_by h) in E9.
  apply run_bind_inv in E as (? & e10 & E10 & E). apply (tx_keeps_inc h) in E10.
  apply run_bind_inv in E as (now & e11 & E11 & E). apply (tx_same_ask h) in E11 as (S11 & _ & _).
  pose proof (tx_same_trans _ _ _ _ E9 (tx_same_trans _ _ _ _ E10 S11)) as (V11 & I11 & T11). clear E9 E10 S11.
  apply run_bind_inv in E as (? & e12 & E12 & E). injection E as <- <-.
  apply (record_in_flight_spec h) in E12 as (V12 & I12 & T12).
  destruct Hsame4 as (V4 & I4 & T4), Hsame5 as (V5 & I5 & T5), S5 as (_ & _ & T45), Hsame as (_ & _ & T3).
  destruct E7 as (V7 & I7 & T7). change (in_flight h e6) with (in_flight h e5) in I7 || (subst e6; change (in_flight h e7 = in_flight h e5) in I7).
  assert (Hsum : tx_offload_finalize seg (u32 (zlen payload)) (take n buf) = frame_headers seg payload ++ payload).
  { unfold tx_offload_finalize. rewrite (so_sum _ _ Hc). exact Ef. }
  rewrite Hsum in V7, T7. clear Hsum. unfold tx_view in V5, V7, V11, V12.
  cbn [field_set eg_mem eg_next eg_gateway_mac frames_out eg_tx_pending eg_step] in V7, T7.
  injection V5 as W5 P5 M5 N5 G5. injection V7 as W7 P7 M7 N7 G7. change (frames_out e7 = frames_out e5) in W7. injection V11 as W11 P11 M11 N11 G11. injection V12 as W12 P12 M12 N12 G12.
  split; [lia|]. exists (mkRetransEntry seq (u16 (zlen payload)) m now 1 false false now (u16 (Z.of_nat (n - length payload)))).
  split; cbn [re_seq re_len re_mbuf].
  - done.
  - apply u16_id. pose proof (zlen_nonneg payload) as Hz. unfold ip_total_of in Htot. change (tx_payload seg) with payload in Htot. unfold U16_MAX in Htot. clear -Htot Hz; width_lia.
  - exists (eg_step e3). split; [lia|done].
  - exists (frame_headers seg payload ++ payload). split; [congruence|].
    pose proof (built_data_frame seg Hwf eq_refl ltac:(change (tx_options seg) with o; lia) Htot) as Hd. exact Hd.
  - congruence.
  - rewrite I12, I11, I8, I7, I5. done.
  - congruence.
  - exists ws, ring. split; [congruence|]. split; [congruence|]. destruct R8 as [[-> ->]|(-> & k & ->)].
    + left. split; [done|congruence].
    + right. split; [done|]. exists k. rewrite P7, P5. apply map_ext. intros y. symmetry. apply frame_bytes_same; congruence.
Qed.

(** ** The loop *)

(** Packets the transmit side still refers to: waiting in the ring, chained behind one
    that is, or kept for retransmission. *)
Definition in_use (h : ConnHandle) (e : Engine) (m : MbufId) : Prop :=
  m ∈ eg_tx_pending e \/ (exists x, x ∈ eg_tx_pending e /\ eg_next e !! x = Some m) \/
  exists l, in_flight h e = Some l /\ m ∈ map re_mbuf l.

(** What the pool hands out from [e] up to step [b]: packets nobody refers to, and none
    of them twice. *)
Definition fresh (h : ConnHandle) (e : Engine) (b : nat) : Prop :=
  (forall i m, (eg_step e <= i < b)%nat -> pl_alloc_data i = Some m -> ~ in_use h e m) /\
  (forall i j m, (eg_step e <= i < b)%nat -> (eg_step e <= j < b)%nat ->
     pl_alloc_data i = Some m -> pl_alloc_data j = Some m -> i = j).

Lemma fresh_le h e b b' : (b <= b')%nat -> fresh h e b' -> fresh h e b.
Proof. 
  intros Hb [F1 F2]. split.
  - intros i m Hi. apply F1. lia.
  - intros i j m Hi Hj. apply F2; lia.
Qed.

(** Since [e0], the bytes [bytes] have gone out in the packets of [new]. *)
Record sent_since (h : ConnHandle) (c : TcpConn) (e0 : Engine) (bytes : list Z) (new : list RetransEntry) (e : Engine) : Prop := {
  ss_kept : in_flight h e = (fun l => l ++ new) <$> in_flight h e0;
  ss_carried : carried (eg_mem e) (eg_gateway_mac e0) (c_four_tuple c) (c_snd_nxt c) bytes new;
  ss_from : forall m, m ∈ map re_mbuf new -> exists i, (eg_step e0 <= i < eg_step e)%nat /\ pl_alloc_data i = Some m;
  ss_next : forall m, m ∈ map re_mbuf new -> eg_next e !! m = None;
  ss_rest : forall m, m ∉ map re_mbuf new -> eg_mem e !! m = eg_mem e0 !! m /\ eg_next e !! m = eg_next e0 !! m;
  ss_ring : forall m, m ∈ eg_tx_pending e -> m ∈ eg_tx_pending e0 \/ m ∈ map re_mbuf new;
  ss_wire : exists ws, frames_out e = frames_out e0 ++ ws /\
    ws ++ map (frame_bytes e) (eg_tx_pending e) `sublist_of`
      map (frame_bytes e0) (eg_tx_pending e0) ++ map (frame_bytes e) (map re_mbuf new);
  ss_gw : eg_gateway_mac e = eg_gateway_mac e0;
  ss_steps : (eg_step e0 <= eg_step e)%nat
}.

Lemma sent_since_start h c e : sent_since h c e [] [] e.
Proof.
  split; cbn [map]; try done; try (intros; set_solver).
  - destruct (in_flight h e); cbn; [by rewrite app_nil_r|done].
  - exists []. rewrite !app_nil_r. by split.
Qed.

Lemma sent_since_same h c e0 bytes new e e' : sent_since h c e0 bytes new e -> tx_same h e e' -> sent_since h c e0 bytes new e'.
Proof.
  intros [S1 S2 S3 S4 S5 S6 (ws & W & S7) S8 S9] (V & I & T). injection V as V1 V2 V3 V4 V5.
  split; rewrite ?V1, ?V2, ?V3, ?V4, ?V5, ?I; [exact S1|exact S2| |exact S4|exact S5|exact S6| |exact S8|lia].
  - intros m Hm. destruct (S3 m Hm) as (i & Hi & Ei). exists i. split; [lia|done].
  - exists ws. split; [done|]. erewrite !(map_ext (frame_bytes e') (frame_bytes e)) by (intros; by apply frame_bytes_same). done.
Qed.

(** A packet that is neither the new one nor chained to it sends what it did. *)
Lemma frame_bytes_other e e' m frame x : eg_mem e' = <[m := frame]> (eg_mem e) -> eg_next e' = delete m (eg_next e) ->
  x <> m -> eg_next e !! x <> Some m -> frame_bytes e' x = frame_bytes e x.
Proof.
  intros Em En Hx Hn. unfold frame_bytes. rewrite Em, En, lookup_insert_ne, lookup_delete_ne by done.
  destruct (eg_next e !! x) as [d|]; [|done]. by rewrite lookup_insert_ne by congruence.
Qed.

Lemma sent_since_one h c e0 bytes new e payload r e' : is_u32 (c_snd_nxt c) -> payload <> [] ->
  fresh h e0 (eg_step e') -> (eg_step e <= eg_step e')%nat ->
  sent_since h c e0 bytes new e -> one_sent h c (wadd32 (c_snd_nxt c) (zlen bytes)) payload e r e' ->
  sent_since h c e0 (bytes ++ payload) (new ++ [r]) e'.
Proof.
  intros Hs Hp [F1 F2] Hle [S1 S2 S3 S4 S5 S6 (ws & W & S7) S8 S9]
    [O1 O2 (i & Hi & Oi) (frame & O4 & Of) O5 O6 O7 (ws' & ring & O8 & O9 & O10)].
  assert (Hnew : re_mbuf r ∉ map re_mbuf new).
  { intros Hx. destruct (S3 _ Hx) as (j & Hj & Ej). assert (i = j); [|lia]. apply (F2 i j (re_mbuf r)); (done || lia). }
  assert (Huse : ~ in_use h e0 (re_mbuf r)) by (apply (F1 i); [lia|done]).
  assert (Hfb : forall x, x ∈ eg_tx_pending e \/ x ∈ map re_mbuf new -> frame_bytes e' x = frame_bytes e x).
  { intros x Hx. assert (Hx' : x ∈ eg_tx_pending e0 \/ x ∈ map re_mbuf new) by (destruct Hx; [by apply S6|by right]).
    eapply frame_bytes_other; [done|done| |].
    - intros ->. destruct Hx'; [|done]. apply Huse. by left.
    - destruct (decide (x ∈ map re_mbuf new)) as [Hn|Hn]; [by rewrite S4|].
      destruct Hx' as [Hx'|]; [|done]. destruct (S5 x Hn) as [_ ->]. intros En. apply Huse. right; left. eauto. }
  split; rewrite ?map_app.
  - rewrite O6, S1. destruct (in_flight h e0); cbn; [by rewrite app_assoc|done].
  - apply carried_app; [done| |].
    + eapply carried_mem; [|exact S2]. intros y Hy. rewrite O4, lookup_insert_ne; [done|].
      intros Ey. apply Hnew. rewrite Ey. by apply list_elem_of_fmap_2.
    + exists payload, [], frame. rewrite app_nil_r, O4, lookup_insert_eq. rewrite S8 in Of. split_and!; done.
  - intros m [Hm|Hm]%elem_of_app.
    + destruct (S3 m Hm) as (j & Hj & Ej). exists j. split; [lia|done].
    + apply list_elem_of_singleton in Hm as ->. exists i. split; [lia|done].
  - intros m Hm. rewrite O5. destruct (decide (m = re_mbuf r)) as [->|N]; [by apply lookup_delete_eq|].
    rewrite lookup_delete_ne by done. apply S4. cbn [map] in Hm. set_solver.
  - intros m Hm. cbn [map] in Hm. assert (m <> re_mbuf r) by set_solver. rewrite O4, O5, lookup_insert_ne, lookup_delete_ne by done.
    apply S5. set_solver.
  - intros m Hm. rewrite O9 in Hm. cbn [map]. apply elem_of_app in Hm as [Hm|Hm]; [|set_solver].
    destruct O10 as [[_ ->]|[-> _]]; [|set_solver]. apply S6 in Hm. set_solver.
  - rewrite O8, W. exists (ws ++ ws'). split; [by rewrite app_assoc|].
    rewrite O9. cbn [map]. rewrite !map_app. cbn [map]. rewrite !app_assoc. apply sublist_app; [|done].
    assert (E1 : map (frame_bytes e') (map re_mbuf new) = map (frame_bytes e) (map re_mbuf new)).
    { apply map_ext_in. intros x Hx. apply Hfb. right. by apply list_elem_of_In. }
    assert (E2 : forall k, map (frame_bytes e') (take k (eg_tx_pending e)) = map (frame_bytes e) (take k (eg_tx_pending e))).
    { intros k. apply map_ext_in. intros x Hx. apply Hfb. left. apply list_elem_of_In in Hx.
      rewrite <- (take_drop k (eg_tx_pending e)). apply elem_of_app. by left. }
    rewrite E1. etransitivity; [|exact S7]. destruct O10 as [[-> ->]|(-> & k & ->)].
    + rewrite app_nil_r. pose proof (E2 (length (eg_tx_pending e))) as E3. rewrite firstn_all in E3. by rewrite E3.
    + cbn [map]. rewrite app_nil_r, E2. apply sublist_app; [done|]. apply fmap_sublist, sublist_take.
  - by rewrite O7.
  - lia.
Qed.

Lemma take_succ_piece (t k : nat) (bytes : list Z) : (t <= length bytes)%nat ->
  take t bytes ++ take k (drop t bytes) = take (t + k) bytes.
Proof. intros Ht. by rewrite take_take_drop. Qed.

Lemma send_loop_spec h c e0 mss : sender_ok (eg_gateway_mac e0) c -> is_u32 (c_snd_nxt c) -> 1 <= mss ->
  forall fuel bytes remaining sent e r e', is_bytes bytes -> 0 <= remaining <= zlen bytes -> zlen sent + remaining < two31 ->
  eg_gateway_mac e = eg_gateway_mac e0 ->
  send_loop fuel h c mss bytes remaining (zlen sent) (wadd32 (c_snd_nxt c) (zlen sent)) e = Some (r, e') ->
  (eg_step e <= eg_step e')%nat /\
  forall new, sent_since h c e0 sent new e -> fresh h e0 (eg_step e') ->
  exists n new', (n <= Z.to_nat remaining)%nat /\ sent_since h c e0 (sent ++ take n bytes) (new ++ new') e' /\
    match r with Some (a, _) => a = zlen sent + Z.of_nat n | None => n = 0%nat /\ sent = [] end.
Proof.
  intros Hc Hs Hm. induction fuel as [|fuel IH]; intros bytes remaining sent e r e' Hb Hr Hlt Hgw E; cbn [send_loop] in E;
    pose proof (zlen_nonneg sent) as Hz.
  { injection E as <- <-. split; [lia|]. intros new Hsn _. exists 0%nat, []. rewrite take_0, !app_nil_r. split_and!; (done || lia). }
  destruct (Z.ltb_spec 0 remaining) as [Hpos|].
  2: { injection E as <- <-. split; [lia|]. intros new Hsn _. exists 0%nat, []. rewrite take_0, !app_nil_r. split_and!; (done || lia). }
  set (t := Z.min remaining mss) in *. assert (Ht : 1 <= t <= remaining) by lia. clearbody t.
  set (payload := take (Z.to_nat t) bytes) in *.
  assert (Hpl : zlen payload = t) by (unfold payload, zlen in *; rewrite length_take; lia).
  assert (Hpb : is_bytes payload) by by apply Forall_take.
  apply run_bind_inv in E as (s & e1 & E1 & E). rewrite <- Hgw in Hc.
  destruct (send_one_spec h c _ payload e s e1 Hc ltac:(apply wadd32_range) Hpb ltac:(lia) E1) as [T1 Hone]. rewrite Hgw in Hc.
  assert (Hstop : forall r', (match s with SentOk => False | _ => True end) -> Some (r', e1) = Some (r, e') ->
    match r' with Some (a, _) => a = zlen sent | None => sent = [] end ->
    (eg_step e <= eg_step e')%nat /\
    forall new, sent_since h c e0 sent new e -> fresh h e0 (eg_step e') ->
    exists n new', (n <= Z.to_nat remaining)%nat /\ sent_since h c e0 (sent ++ take n bytes) (new ++ new') e' /\
      match r with Some (a, _) => a = zlen sent + Z.of_nat n | None => n = 0%nat /\ sent = [] end).
  { intros r' Hstop Er Hr'. injection Er as -> ->. split; [done|]. intros new Hsn _. exists 0%nat, [].
    rewrite take_0, !app_nil_r. split; [lia|]. split.
    - eapply sent_since_same; [exact Hsn|]. by destruct s.
    - destruct r as [[a ?]|]; [lia|done]. }
  destruct s.
  - clear Hstop. destruct Hone as [en Hone].
    rewrite wadd32_id, wadd32_assoc in E by (unfold is_u32, two31, two32 in *; lia).
    replace (zlen sent + t) with (zlen (sent ++ payload)) in E by (rewrite zlen_app; lia).
    destruct (IH (drop (Z.to_nat t) bytes) (remaining - t) (sent ++ payload) e1 r e') as [T2 Hrest]; [| | | |exact E|].
    + by apply Forall_drop.
    + unfold zlen in *. rewrite length_drop. lia.
    + rewrite zlen_app. lia.
    + by rewrite (os_gw _ _ _ _ _ _ _ Hone).
    + split; [lia|]. intros new Hsn Hf.
      destruct (Hrest (new ++ [en])) as (n & new' & Hn & Hs' & Hr'); [|done|].
      { apply (sent_since_one h c e0 sent new e); (done || idtac).
        - intros E0. rewrite E0, zlen_nil in Hpl. lia.
        - by eapply fresh_le. }
      exists (Z.to_nat t + n)%nat, (en :: new'). split; [lia|]. rewrite <- !app_assoc in Hs'. cbn [app] in Hs'. unfold payload in Hs' at 1.
      rewrite take_succ_piece in Hs' by (unfold zlen in *; lia). split; [done|]. rewrite zlen_app in Hr'.
      destruct r as [[a ?]|]; [lia|]. destruct Hr' as [_ Hr']. apply app_eq_nil in Hr' as [_ Hr']. rewrite Hr', zlen_nil in Hpl. lia.
  - injection E as <- <-. by apply (Hstop (Some (zlen sent, wadd32 (c_snd_nxt c) (zlen sent)))).
  - injection E as E <-. apply (Hstop r); [done|done|]. subst r. destruct (Z.eqb_spec (zlen sent) 0) as [E0|]; [|done].
    destruct sent; [done|]. rewrite zlen_cons in E0. pose proof (zlen_nonneg sent). lia.
Qed.

Definition accepted (r : result Z EngineError) : Z := match r with Ok n => n | Err _ => 0 end.

Lemma send_bytes_sent h c e bytes r e' : 0 <= send_buffer_bytes < two31 -> sender_ok (eg_gateway_mac e) c ->
  is_u32 (c_snd_nxt c) -> is_bytes bytes -> ft_get (eg_flow_table e) h = Some c -> c_state c = Established ->
  send_bytes h bytes e = Some (r, e') -> fresh h e (eg_step e') ->
  exists new, sent_since h c e (take (Z.to_nat (accepted r)) bytes) new e' /\ 0 <= accepted r < two31.
Proof.
  intros Hsb Hc Hs Hb Hg Hst E Hf. unfold send_bytes in E. apply run_bind_inv in E as (oc & e1 & E1 & E).
  injection E1 as <- <-. rewrite Hg, Hst in E. cbn [negb] in E. rewrite bool_decide_eq_true_2 in E by done. cbn [negb] in E. cbv zeta in E.
  apply run_bind_inv in E as (o & e1 & E1 & E). pose proof (send_room_range (proj2 (so_mac _ _ Hc)) Hsb c) as Hroom. pose proof (zlen_nonneg bytes) as Hl.
  rewrite <- (wadd32_0_r (c_snd_nxt c) Hs) in E1. change (wadd32 (c_snd_nxt c) 0) with (wadd32 (c_snd_nxt c) (zlen (@nil Z))) in E1.
  set (mss := Z.max _ 1) in E1. set (room := Z.min (zlen bytes) (send_room c)) in E1.
  destruct (send_loop_spec h c e mss Hc Hs ltac:(lia) (length bytes) bytes room [] e o e1 Hb ltac:(lia) ltac:(rewrite zlen_nil; lia) eq_refl E1) as [T1 Hl1].
  assert (Hrest : tx_same h e1 e' /\ accepted r = match o with Some (a, _) => a | None => 0 end).
  { destruct o as [[a s]|]; [|by injection E as <- <-].
    apply run_bind_inv in E as (? & e2 & E2 & E). apply (tx_keeps_update_conn h) in E2; [|done].
    apply run_bind_inv in E as (? & e3 & E3 & E).
    assert (S3 : tx_same h e2 e3). { revert E3. match goal with |- ?m e2 = _ -> _ => assert (Hm : tx_keeps h m) by tx_walk end. apply Hm. }
    apply run_bind_inv in E as (? & e4 & E4 & E). injection E as <- <-.
    apply (tx_keeps_when h) in E4; [|apply tx_keeps_arm_tlp]. split; [|done].
    eapply tx_same_trans; [exact E2|]. by eapply tx_same_trans. }
  destruct Hrest as [Hs1 Ea].
  destruct (Hl1 [] (sent_since_start h c e) ltac:(eapply fresh_le; [by eapply tx_same_steps|done])) as (n & new & Hn & Hsent & Hr).
  assert (accepted r = Z.of_nat n) as ->.
  { rewrite Ea. destruct o as [[a s]|]; [exact Hr|]. destruct Hr as [-> _]. done. }
  exists new. rewrite Nat2Z.id. split; [|lia]. by eapply sent_since_same.
Qed.

(** ** Retransmission *)

Lemma tx_keeps_push_event h ev : tx_keeps h (push_event ev).
Proof.
  intros e r e' E. unfold push_event in E. destruct (event_push ev (eg_events e) (eg_obs e)) as [[q obs] ops].
  by injection E as <- <-.
Qed.
#[local] Hint Resolve tx_keeps_push_event : tx_keeps.
Lemma tx_keeps_nomem h h' : tx_keeps h (retransmit_nomem h').
Proof. unfold retransmit_nomem. tx_walk. Qed.
#[local] Hint Resolve tx_keeps_nomem : tx_keeps.

(** The header built for a payload kept elsewhere and the payload make a frame. *)
Lemma resent_frame gw c seq o payload n buf : sender_ok gw c -> is_u32 seq -> is_bytes payload -> opts_wf o -> ws_clamped o = false ->
  (encoded_len o <= 12)%nat -> let seg := data_segment gw c seq o [] in
  build_retrans_header seg payload (replicate 128 0) = Some (Some (n, buf)) ->
  data_frame gw (c_four_tuple c) seq payload (tx_offload_finalize seg (zlen payload) (take n buf) ++ payload).
Proof.
  intros Hc Hs Hb Ho Hw Hl seg E.
  assert (Hwf : seg_wf seg) by (apply data_segment_wf; (done || constructor)).
  destruct (build_retrans_sent seg payload _ n buf Hwf eq_refl ltac:(change (tx_options seg) with o; lia) E) as [Ht Eb].
  unfold tx_offload_finalize. rewrite (so_sum _ _ Hc), Eb, <- (frame_headers_payload seg payload payload).
  exact (built_data_frame (seg <| tx_payload := payload |>) (data_segment_wf gw c seq o payload Hc Hs Hb Ho Hw) eq_refl
    ltac:(change (tx_options (seg <| tx_payload := payload |>)) with o; lia) Ht).
Qed.

(** The packet of an entry, whole or already trimmed, ends in the entry's payload. *)
Definition ends_in (mem : gmap MbufId (list Z)) (r : RetransEntry) (payload : list Z) : Prop :=
  exists room pre, mem !! re_mbuf r = Some room /\ room = pre ++ payload /\ zlen room < two16 /\ re_len r = zlen payload.

Lemma ends_in_live mem r payload : ends_in mem r payload ->
  let room := default [] (mem !! re_mbuf r) in let live := wsub16 (zlen room) (re_len r) in
  0 <= live /\ drop (Z.to_nat live) room = payload /\ take (Z.to_nat (re_len r)) payload = payload /\ (live = 0 -> room = payload).
Proof.
  intros (room & pre & E & -> & Hz & El). rewrite E. cbn [default]. unfold id. cbv zeta. rewrite El. rewrite zlen_app in *.
  assert (Ew : wsub16 (zlen pre + zlen payload) (zlen payload) = zlen pre).
  { unfold wsub16. replace (zlen pre + zlen payload - zlen payload) with (zlen pre) by lia. apply u16_id.
    pose proof (zlen_nonneg pre). pose proof (zlen_nonneg payload). unfold is_u16. lia. }
  rewrite Ew. unfold zlen. rewrite !Nat2Z.id. split; [lia|]. split; [by apply drop_app_length|].
  split; [by apply take_ge|]. intros Hp. by destruct pre.
Qed.

(** The trimming of the data packet. *)
Lemma trim_spec h (data : MbufId) live (room payload : list Z) e (r : unit) e' : (forall i, pl_adj i = true) ->
  drop (Z.to_nat live) room = payload -> (live = 0 -> room = payload) -> 0 <= live -> eg_mem e !! data = Some room ->
  when (0 <? live) (did_adj ← ask pl_adj; when did_adj (update (fun e => e <| eg_mem ::= <[data := drop (Z.to_nat live) room]> |>))) e = Some (r, e') ->
  eg_mem e' = <[data := payload]> (eg_mem e) /\ eg_next e' = eg_next e /\ eg_tx_pending e' = eg_tx_pending e /\
  eg_gateway_mac e' = eg_gateway_mac e /\ in_flight h e' = in_flight h e.
Proof.
  intros Ha Hd H0' Hl Em E. unfold when in E at 1. destruct (Z.ltb_spec 0 live).
  - apply run_bind_inv in E as (ok & e1 & E1 & E). injection E1 as <- <-. rewrite Ha in E. apply update_inv in E as ->.
    rewrite Hd. done.
  - injection E as _ <-. rewrite insert_id by (rewrite Em; f_equal; apply H0'; lia). done.
Qed.

(** The last steps: the data chained behind the header, the pair pushed, the entry marked. *)
Lemma resend_tail h idx hdr data n e r e' l : eg_tx_pending e = [] -> in_flight h e = Some l ->
  (update (fun e => e <| eg_next ::= <[hdr := data]> |>) ;; push_pending hdr ;; now ← ask pl_now;
   update_conn h (fun c => c <| c_snd_retrans ::= alter (mark_resent now) idx |>) ;;
   inc TxRetrans ;; inc_by EthTxBytes n) e = Some (r, e') ->
  eg_mem e' = eg_mem e /\ eg_tx_pending e' = [hdr] /\ eg_next e' !! hdr = Some data /\
  exists now, in_flight h e' = Some (alter (mark_resent now) idx l).
Proof.
  intros P I E. apply run_bind_inv in E as (? & e1 & E1 & E). apply update_inv in E1.
  apply run_bind_inv in E as (? & e2 & E2 & E). apply (push_pending_spec h) in E2 as ((ws & ring & _ & P2 & R2) & M2 & N2 & _ & I2 & _).
  apply run_bind_inv in E as (now & e3 & E3 & E). apply (tx_same_ask h) in E3 as ((V3 & I3 & _) & _ & _).
  apply run_bind_inv in E as (? & e4 & E4 & E). apply update_inv in E4.
  assert (Hk : tx_same h e4 e').
  { revert E. match goal with |- ?m e4 = _ -> _ => assert (Hm : tx_keeps h m) by tx_walk end. apply Hm. }
  destruct Hk as (V & I' & _). injection V3 as _ P3 M3 N3 _. injection V as _ P' M' N' _.
  subst e4. cbn [field_set eg_mem eg_next eg_tx_pending] in M', N', P'.
  subst e1. cbn [field_set eg_mem eg_next eg_tx_pending] in M2, N2, R2. change (in_flight h e2 = in_flight h e) in I2.
  split; [congruence|]. split.
  - rewrite P', P3, P2. destruct R2 as [[_ ->]|[-> _]]; [by rewrite P|done].
  - split; [rewrite N', N3, N2; apply lookup_insert_eq|]. exists now. rewrite I'. unfold in_flight in *. cbn [field_set eg_flow_table].
    rewrite ft_update_get_eq. rewrite <- I2, <- I3 in I. destruct (ft_get (eg_flow_table e3) h); [|discriminate I].
    injection I as <-. reflexivity.
Qed.

(** From the filled header packet on. *)
Lemma resend_commit h idx hdr hbytes data live (room payload : list Z) n e r e' l : (forall i, pl_adj i = true) -> hdr <> data ->
  drop (Z.to_nat live) room = payload -> (live = 0 -> room = payload) -> 0 <= live -> eg_mem e !! data = Some room ->
  eg_tx_pending e = [] -> in_flight h e = Some l ->
  (fill_mbuf hdr hbytes ;;
   when (0 <? live) (did_adj ← ask pl_adj; when did_adj (update (fun e => e <| eg_mem ::= <[data := drop (Z.to_nat live) room]> |>))) ;;
   tx_calls [RefcntUpdate data 1] ;;
   chained ← ask pl_chain;
   if negb chained then tx_calls [FreeSeg hdr; RefcntUpdate data (-1)] ;; retransmit_nomem h else
   update (fun e => e <| eg_next ::= <[hdr := data]> |>) ;; push_pending hdr ;; now ← ask pl_now;
   update_conn h (fun c => c <| c_snd_retrans ::= alter (mark_resent now) idx |>) ;;
   inc TxRetrans ;; inc_by EthTxBytes n) e = Some (r, e') ->
  eg_mem e' !! data = Some payload /\
  (eg_tx_pending e' = [] /\ in_flight h e' = Some l \/
   eg_tx_pending e' = [hdr] /\ frame_bytes e' hdr = hbytes ++ payload /\ exists now, in_flight h e' = Some (alter (mark_resent now) idx l)).
Proof.
  intros Ha Hne Hd Hw Hl Em P I E.
  apply run_bind_inv in E as (? & e1 & E1 & E). apply update_inv in E1.
  assert (F1 : eg_mem e1 = <[hdr := hbytes]> (eg_mem e) /\ eg_tx_pending e1 = [] /\ in_flight h e1 = Some l) by (by subst e1).
  clear E1. destruct F1 as (M1 & P1 & I1).
  apply run_bind_inv in E as (? & e2 & E2 & E). apply (trim_spec h data live room payload) in E2 as (M2 & _ & P2 & _ & I2); try done.
  2: { by rewrite M1, lookup_insert_ne. }
  apply run_bind_inv in E as (? & e3 & E3 & E). apply (tx_keeps_tx_calls h) in E3 as (V3 & I3 & _). injection V3 as _ P3 M3 _ _.
  apply run_bind_inv in E as (ok & e4 & E4 & E). apply (tx_same_ask h) in E4 as ((V4 & I4 & _) & _ & _). injection V4 as _ P4 M4 _ _.
  assert (Mdata : eg_mem e4 !! data = Some payload) by (rewrite M4, M3, M2; apply lookup_insert_eq).
  destruct ok; cbn [negb] in E.
  - apply (resend_tail _ _ _ _ _ _ _ _ l) in E as (M' & P' & N' & I'); [|congruence..].
    split; [by rewrite M'|]. right. split; [done|]. split; [|exact I'].
    unfold frame_bytes. rewrite N', M', Mdata, M4, M3, M2, lookup_insert_ne, M1, lookup_insert_eq by done. done.
  - assert (Hk : tx_same h e4 e').
    { revert E. match goal with |- ?m e4 = _ -> _ => assert (Hm : tx_keeps h m) by tx_walk end. apply Hm. }
    destruct Hk as (V & I' & _). injection V as _ P' M' _ _. split; [by rewrite M'|]. left. split; congruence.
Qed.

(** What a retransmission leaves: nothing in the ring when it failed, else the header
    packet, which goes out with the entry's payload behind it. *)
Lemma retransmit_spec h idx e c r payload x e' : sender_ok (eg_gateway_mac e) c -> ft_get (eg_flow_table e) h = Some c ->
  c_snd_retrans c !! idx = Some r -> is_u32 (re_seq r) -> re_mbuf r <> 0 -> is_bytes payload -> ends_in (eg_mem e) r payload ->
  (forall i, pl_adj i = true) -> (forall i, pl_alloc_hdr i <> Some (re_mbuf r)) ->
  retransmit h idx e = Some (x, e') ->
  ends_in (eg_mem e') r payload /\
  (eg_tx_pending e' = [] /\ in_flight h e' = in_flight h e \/
   exists hdr now, eg_tx_pending e' = [hdr] /\ data_frame (eg_gateway_mac e) (c_four_tuple c) (re_seq r) payload (frame_bytes e' hdr) /\
     in_flight h e' = Some (alter (mark_resent now) idx (c_snd_retrans c))).
Proof.
  intros Hc Hg Hi Hs Hm Hb Hends Hadj Hhdr E. unfold retransmit in E.
  apply run_bind_inv in E as (? & e1 & E1 & E).
  assert (Hfl : eg_flow_table e1 = eg_flow_table e) by (by eapply drain_flow_table).
  apply (drain_tx_spec h) in E1 as (P1 & _ & M1 & N1 & G1 & I1 & _).
  apply run_bind_inv in E as (oc & e2 & E2 & E). injection E2 as <- <-.
  rewrite Hfl, Hg in E. cbn [mbind option_bind fmap option_fmap option_map] in E. rewrite Hi in E. cbn [fmap option_fmap option_map] in E.
  destruct (Z.eqb_spec (re_mbuf r) 0); [done|].
  apply run_bind_inv in E as (oh & e3 & E3 & E). pose proof (Hhdr (eg_step e1)) as Hne.
  apply (tx_same_ask h) in E3 as (S3 & Eh & _). rewrite Eh in E.
  destruct (ends_in_live _ _ _ Hends) as (Hl0 & Hdrop & Htake & Hwhole).
  destruct Hends as (room & pre & Em & Eroom & Hz & El).
  assert (Hfail : forall e2, tx_same h e1 e2 -> ends_in (eg_mem e2) r payload /\ eg_tx_pending e2 = [] /\ in_flight h e2 = in_flight h e).
  { intros e2 (V & I & _). injection V as _ P M _ _. rewrite M, P, I, M1. split; [|done]. by exists room, pre. }
  destruct (pl_alloc_hdr (eg_step e1)) as [hdr|].
  2: { apply (tx_keeps_nomem h h) in E. destruct (Hfail e' (tx_same_trans _ _ _ _ S3 E)) as (? & ? & ?). auto. }
  assert (Hhd : hdr <> re_mbuf r) by congruence. clear Hne Eh oh.
  apply run_bind_inv in E as (o & e4 & E4 & E). pose proof (tx_keeps_ts_options h c _ _ _ E4) as S4.
  assert (Hgw : sender_ok (eg_gateway_mac e3) c) by (destruct S3 as (V & _); injection V as _ _ _ _ ->; by rewrite G1).
  destruct (ts_options_wf _ _ _ _ _ Hgw E4) as (Ho & Hw & Hlo & _). clear E4 Hgw.
  apply run_bind_inv in E as (gw & e5 & E5 & E). injection E5 as <- <-. cbv zeta in E.
  apply run_bind_inv in E as (room' & e5 & E5 & E). injection E5 as <- <-.
  pose proof (tx_same_trans _ _ _ _ S3 S4) as S. clear S3 S4.
  assert (Ev : eg_gateway_mac e4 = eg_gateway_mac e /\ eg_mem e4 = eg_mem e) by (destruct S as (V & _); injection V as _ _ ? _ ?; split; congruence).
  destruct Ev as [Eg4 Em4]. rewrite Eg4, Em4, Hdrop, Htake in E.
  apply run_bind_inv in E as (built & e5 & E5 & E). unfold lift in E5.
  destruct (build_retrans_header _ payload _) as [built'|] eqn:Eb in E5; [|done]. injection E5 as -> ->.
  destruct built as [[n' buf]|].
  2: { assert (Hs5 : tx_same h e5 e').
       { revert E. match goal with |- ?m e5 = _ -> _ => assert (Hmm : tx_keeps h m) by tx_walk end. apply Hmm. }
       destruct (Hfail e' (tx_same_trans _ _ _ _ S Hs5)) as (? & ? & ?). auto. }
  pose proof (resent_frame _ _ _ _ _ _ _ Hc Hs Hb Ho Hw Hlo Eb) as Hframe.
  apply run_bind_inv in E as (ok & e6 & E6 & E). apply (tx_same_ask h) in E6 as (S6 & _ & _).
  pose proof (tx_same_trans _ _ _ _ S S6) as S'. clear S S6.
  destruct ok; cbn [negb] in E.
  2: { assert (Hs5 : tx_same h e6 e').
       { revert E. match goal with |- ?m e6 = _ -> _ => assert (Hmm : tx_keeps h m) by tx_walk end. apply Hmm. }
       destruct (Hfail e' (tx_same_trans _ _ _ _ S' Hs5)) as (? & ? & ?). auto. }
  destruct S' as (V6 & I6 & _). injection V6 as _ P6 M6 _ _. rewrite M1 in M6. rewrite P1 in P6.
  assert (Il : in_flight h e = Some (c_snd_retrans c)) by (unfold in_flight; by rewrite Hg).
  set (live := wsub16 _ _) in *. rewrite <- Hdrop in E.
  apply (resend_commit h idx hdr _ (re_mbuf r) live _ payload _ e6 x e' (c_snd_retrans c)) in E; try done; [| |congruence].
  2: { rewrite M6, Em. done. }
  destruct E as (Me & E). split.
  - exists payload, []. rewrite Eroom, zlen_app in Hz. pose proof (zlen_nonneg pre). split_and!; (done || lia).
  - destruct E as [[Pe Ie]|(Pe & Fe & now & Ie)]; [left; by rewrite Il|right]. exists hdr, now.
    split; [done|]. split; [|done]. rewrite Fe, El. exact Hframe.
Qed.
End Send.
