(* ===== verification/EngineSpec.v ===== *)
(** * What the engine guarantees: the properties of engine.rs

    Any sequence of calls of the application, received bursts included, runs without a
    panic, keeps the invariant and accounts for every packet reference; the functional
    behaviour of a transition, of a send, of the TIME_WAIT reaper; and three things the
    code does not do. *)

From S2P Require Import Prelude.
From S2P Require Import Bytes.
From S2P Require Import Seq.
From S2P Require Import Mbuf.
From S2P Require Import Reassembly.
From S2P Require Import Retrans.
From S2P Require Import Rtt.
From S2P Require Import TimerWheel.
From S2P Require Import Ip.
From S2P Require Import Options.
From S2P Require Import Sack.
From S2P Require Import Output.
From S2P Require Import Segment.
From S2P Require Import Conn.
From S2P Require Import FlowTable.
From S2P Require Import Input.
From S2P Require Import Receive.
From S2P Require Import Dispatch.
From S2P Require Import InputSpec.
From S2P Require Import DispatchFrame.
From S2P Require Import AckBuild.
From S2P Require Import Icmp.
From S2P Require Import Iss.
From S2P Require Import Events.
From S2P Require Import Listen.
From S2P Require Import Engine.
From S2P Require Import EngineTx.
From S2P Require Import EngineTimers.
From S2P Require Import EngineRx.
From S2P Require Import EngineApi.
From S2P Require Import EngineInv.
From S2P Require Import EngineSafe.
From S2P Require Import EngineStep.
From S2P Require Import EngineLoop.

Section Spec.
Context `{Platform} `{EngineConfig}.

(** ** Calls *)

(** What the application does with an engine. *)
Inductive Call :=
  | CallPoll (burst : list RxPacket)
  | CallConnect (peer_ip peer_port local_port : Z) (opts : ConnectOpts)
  | CallSend (h : ConnHandle) (bytes : list Z)
  | CallClose (h : ConnHandle) (flags : Z)
  | CallDrain (max : nat)
  | CallTimerAdd (deadline_ns user_data : Z)
  | CallTimerCancel (id : TimerId)
  | CallAddLocalIp (ip : Z).

Definition run_call (c : Call) : M unit :=
  match c with
  | CallPoll burst => poll_once burst ;; skip
  | CallConnect ip port hint opts => connect_with_opts ip port hint opts ;; skip
  | CallSend h bytes => send_bytes h bytes ;; skip
  | CallClose h flags => close_conn_with_flags h flags ;; skip
  | CallDrain max => drain_events max ;; skip
  | CallTimerAdd d u => public_timer_add d u ;; skip
  | CallTimerCancel id => public_timer_cancel id ;; skip
  | CallAddLocalIp ip => add_local_ip ip ;; skip
  end.

Definition call_ok (c : Call) : Prop := match c with CallPoll burst => Forall packet_ok burst | _ => True end.

(** The references to [m] that come with a call. *)
Definition call_arrives (m : MbufId) (c : Call) : Z :=
  match c with CallPoll burst => zsum (arrives m) burst | _ => 0 end.

(** What the validation of the configuration and the driver give. *)
Record config_ok : Prop := {
  cfg_mac : length our_mac = 6%nat;
  cfg_send : 0 <= send_buffer_bytes < two31;
  cfg_recv : is_u32 recv_buffer_bytes
}.

(** The invariant between two calls. *)
Definition engine_ok : Engine -> Prop := inv None.

Lemma safe_call {A} (m : M A) L : safe None m ->
  triple (good None L) (m ;; skip) (fun _ => good None (fun k => L k + 0)).
Proof.
  intros Hm. eapply triple_bind; [apply Hm|]. intros ? e He. exists tt, e. split; [done|].
  eapply good_ledger; [|exact He]. intros k. lia.
Qed.

Lemma run_call_good c L : config_ok -> call_ok c ->
  triple (good None L) (run_call c) (fun _ => good None (fun m => L m + call_arrives m c)).
Proof.
  intros [Hm Hs Hr] Hc. destruct c; cbn [run_call call_arrives].
  - eapply triple_bind; [by apply poll_good|]. intros n e [He _]. by exists tt, e.
  - by apply safe_call, safe_connect.
  - intros e He. destruct (send_good Hm Hs L h bytes _ e (conj He eq_refl)) as (r & e' & E & He' & _).
    exists tt, e'. split; [unfold mbind, M_bind; by rewrite E|]. eapply good_ledger; [|exact He']. intros m. lia.
  - by apply safe_call, safe_close_flags.
  - by apply safe_call, safe_drain.
  - apply safe_call, safe_timer_add.
  - apply safe_call, safe_timer_cancel.
  - apply safe_call, safe_add_ip.
Qed.

Lemma run_calls_good calls : config_ok -> Forall call_ok calls -> forall L,
  triple (good None L) (for_each calls run_call) (fun _ => good None (fun m => L m + zsum (call_arrives m) calls)).
Proof. intros Hcfg Hf. apply for_each_good with (2 := Hf). intros x L Hx. by apply run_call_good. Qed.

Lemma engine_new_ok n cap gw sec now mem e : 0 <= n < two32 -> length gw = 6%nat ->
  engine_new n cap gw sec now mem = Some e -> engine_ok e.
Proof.
  intros Hn Hg. unfold engine_new, with_cap, MIN_SOFT_CAP. destruct (Z.leb_spec 64 cap); [|done].
  cbn [mbind option_bind]. intros E. injection E as <-. split; cbn; try done.
  - by apply ft_new_ok.
  - intros i c Hi. by apply lookup_replicate in Hi as [? _].
  - intros i c Hi. by apply lookup_replicate in Hi as [? _].
  - change (0 < cap /\ 0 <= cap). lia.
Qed.

(** ** The table and the transmit side alone *)

(** What the theorems below follow through a computation. *)
Definition table_view (e : Engine) : FlowTable * list MbufOp := (eg_flow_table e, eg_tx_ops e).

(** Computations that leave both alone. *)
Definition quiet {A} (m : M A) : Prop :=
  forall v, triple (fun e => table_view e = v) m (fun _ e => table_view e = v).

Lemma quiet_then {A B} (P : FlowTable * list MbufOp -> Prop) (m : M A) (k : A -> M B) R : quiet m ->
  (forall a, triple (fun e => P (table_view e)) (k a) R) ->
  triple (fun e => P (table_view e)) (mbind (M := M) k m) R.
Proof.
  intros Hm Hk e He. destruct (Hm _ e eq_refl) as (a & e1 & E1 & T1). destruct (Hk a e1) as (b & e2 & E2 & H2).
  - cbn. by rewrite T1.
  - exists b, e2. split; [|done]. unfold mbind, M_bind. by rewrite E1.
Qed.

Lemma quiet_bind {A B} (m : M A) (k : A -> M B) : quiet m -> (forall a, quiet (k a)) -> quiet (mbind (M := M) k m).
Proof. intros Hm Hk v. apply (quiet_then (fun v' => v' = v)); [done|]. intros a. apply Hk. Qed.
Lemma quiet_ret {A} (a : A) : quiet (mret a).
Proof. intros v. apply triple_ret. Qed.
Lemma quiet_update f : (forall e, table_view (f e) = table_view e) -> quiet (update f).
Proof. intros Hf v e He. eexists _, _. split; [reflexivity|]. by rewrite Hf. Qed.
Lemma quiet_inc c : quiet (inc c).
Proof. by apply quiet_update. Qed.
Lemma quiet_ask {A} (f : nat -> A) : quiet (ask f).
Proof. intros v e He. by eexists _, _. Qed.
Lemma quiet_push ev : quiet (push_event ev).
Proof.
  intros v e He. unfold push_event. destruct (event_push _ _ _) as [[q obs] ops]. by eexists _, _.
Qed.
Lemma quiet_get_conn h : quiet (get_conn h).
Proof. intros v e He. by eexists _, _. Qed.
Lemma quiet_cancel_all ids : quiet (cancel_all ids).
Proof.
  unfold cancel_all. induction ids as [|id ids IH]; cbn [for_each]; [apply quiet_ret|].
  apply quiet_bind; [|intros _; apply IH]. apply quiet_bind; [|intros _; apply quiet_ret].
  intros v e He. unfold wheel_cancel. destruct (cancel id (eg_timer_wheel e)) as [b w]. by eexists _, _.
Qed.

(** Every handle but [h] leads where it led in [t], and no transmit call was made. *)
Definition others (t : FlowTable) (ops : list MbufOp) (h : ConnHandle) (v : FlowTable * list MbufOp) : Prop :=
  ft_ok v.1 /\ v.2 = ops /\ forall h', is_u32 h' -> h' <> h -> ft_get v.1 h' = ft_get t h'.

Lemma transition_others t ops h to : is_u32 h ->
  triple (fun e => others t ops h (table_view e)) (transition_conn h to) (fun _ e => others t ops h (table_view e)).
Proof.
  intros U e (Hok & Hops & Ho). cbn [fst snd table_view] in *.
  destruct (ft_get (eg_flow_table e) h) as [c|] eqn:Hg.
  - destruct (decide (c_state c = to)) as [<-|N].
    + unfold transition_conn, mbind, M_bind, get_conn, get. rewrite Hg. cbv zeta. rewrite bool_decide_eq_true_2 by done.
      by exists tt, e.
    + destruct (transition_conn_run h to e c Hg N) as (e1 & now & ts & Hv & _ & Htx & ->).
      destruct (quiet_push (EvStateChange h (c_state c) to ts) _ e1 eq_refl) as ([] & e2 & E2 & T2). exists tt, e2.
      split; [done|]. rewrite T2. unfold core_view in Hv. injection Hv as Ht _ _ _ _ _. unfold others. cbn [fst snd table_view].
      rewrite Ht, Htx. split_and!; [|done|].
      * apply ft_update_ok; [|done]. intros c' _. apply moved_view.
      * intros h' U' N'. rewrite <- Ho by done. by apply ft_update_get_ne.
  - unfold transition_conn, mbind, M_bind, get_conn, get. rewrite Hg. by exists tt, e.
Qed.

(** The table without [h]. *)
Definition without (t : FlowTable) (ops : list MbufOp) (h : ConnHandle) (e : Engine) : Prop :=
  ft_ok (eg_flow_table e) /\ eg_tx_ops e = ops /\ forall h', is_u32 h' ->
    ft_get (eg_flow_table e) h' = if bool_decide (h' = h) then None else ft_get t h'.

Lemma remove_without t ops h : is_u32 h ->
  triple (fun e => others t ops h (table_view e)) (remove_conn h) (fun _ => without t ops h).
Proof.
  intros U e (Hok & Hops & Ho). cbn [fst snd table_view] in *. unfold remove_conn.
  pose proof (ft_remove_spec (eg_flow_table e) h Hok U) as R.
  destruct (ft_remove (eg_flow_table e) h) as [t' r]. destruct R as (_ & R1 & R2 & R3 & _).
  eexists _, _. split; [reflexivity|]. unfold without. cbn [field_set eg_flow_table eg_tx_ops].
  split_and!; [done|done|]. intros h' U'. destruct (decide (h' = h)) as [->|N].
  - by rewrite bool_decide_eq_true_2.
  - rewrite bool_decide_eq_false_2 by done. rewrite R3 by done. by apply Ho.
Qed.

Lemma tear_down_without t ops h : is_u32 h ->
  triple (fun e => others t ops h (table_view e)) (tear_down h) (fun _ => without t ops h).
Proof.
  intros U. unfold tear_down. apply (quiet_then (others t ops h)); [apply quiet_get_conn|]. intros oc.
  apply (quiet_then (others t ops h)); [apply quiet_cancel_all|]. intros ?. by apply remove_without.
Qed.

Lemma others_refl e h : ft_ok (eg_flow_table e) -> others (eg_flow_table e) (eg_tx_ops e) h (table_view e).
Proof. done. Qed.

(** The wait is over: the deadline has come, or the connection asked to skip the rest. *)
Definition due (now : Z) (c : TcpConn) : Prop :=
  c_state c = TimeWait /\ (c_force_tw_skip c = true \/ exists d, c_time_wait_deadline_ns c = Some d /\ d <= now).

Lemma reapable_due now c : reapable now c = true <-> due now c.
Proof.
  unfold reapable, due. rewrite andb_true_iff, bool_decide_eq_true, orb_true_iff.
  destruct (c_time_wait_deadline_ns c) as [d|]; rewrite ?Z.leb_le; naive_solver.
Qed.

Lemma reap_loop_get l : forall e, Forall is_u32 l -> ft_ok (eg_flow_table e) ->
  exists e', for_each l (fun h => transition_conn h Closed ;; now ← ask pl_now; push_event (EvClosed h 0 now) ;;
       inc ConnClose ;; inc ConnTimeWaitReaped ;; tear_down h) e = Some (tt, e') /\
    forall h', is_u32 h' ->
      ft_get (eg_flow_table e') h' = if bool_decide (h' ∈ l) then None else ft_get (eg_flow_table e) h'.
Proof.
  induction l as [|h l IH]; intros e Hl Hok; cbn [for_each]; [by exists e|].
  apply Forall_cons in Hl as [U Hl].
  assert (Hone : triple (fun e1 => others (eg_flow_table e) (eg_tx_ops e) h (table_view e1))
     (transition_conn h Closed ;; now ← ask pl_now; push_event (EvClosed h 0 now) ;;
       inc ConnClose ;; inc ConnTimeWaitReaped ;; tear_down h) (fun _ => without (eg_flow_table e) (eg_tx_ops e) h)).
  { eapply triple_bind; [by apply transition_others|]. intros ?.
    apply quiet_then; [apply quiet_ask|]. intros now. apply quiet_then; [apply quiet_push|]. intros ?.
    apply quiet_then; [apply quiet_inc|]. intros ?. apply quiet_then; [apply quiet_inc|]. intros ?. by apply tear_down_without. }
  destruct (Hone e (others_refl e h Hok)) as ([] & e1 & E1 & Hok1 & _ & Hg). destruct (IH e1 Hl Hok1) as (e' & E & He').
  exists e'. split; [unfold mbind at 1, M_bind at 1; by rewrite E1|].
  intros h' U'. rewrite He', Hg by done. rewrite (bool_decide_ext (h' ∈ h :: l) (h' = h \/ h' ∈ l)) by apply elem_of_cons.
  destruct (decide (h' = h)) as [N1|N1], (decide (h' ∈ l)) as [N2|N2];
    rewrite ?(bool_decide_eq_true_2 (h' = h)), ?(bool_decide_eq_false_2 (h' = h)), ?(bool_decide_eq_true_2 (h' ∈ l)),
      ?(bool_decide_eq_false_2 (h' ∈ l)), ?bool_decide_eq_true_2, ?bool_decide_eq_false_2 by tauto; done.
Qed.

(** ** Properties *)

(** C1. No sequence of application calls and received bursts makes the engine panic:
    from any state in the invariant (the fresh engine is in it), with any answers of the
    clock, the allocators and the driver, each call returns and leaves the invariant.
    The invariant says that handles and 4-tuples are in bijection, every connection's
    sequence space and buffers are well formed ([conn_ok]), a connection in TIME_WAIT
    has a deadline, no learned MTU is below the IPv4 minimum, and the event queue is within
    its capacity.  Bursts are arbitrary packets of at most 65535 bytes. *)
Theorem engine_never_panics (calls : list Call) (e : Engine) (Hcfg : config_ok) (He : engine_ok e)
    (Hcalls : Forall call_ok calls) :
  exists e', for_each calls run_call e = Some (tt, e') /\ engine_ok e'.
Proof.
  destruct (run_calls_good calls Hcfg Hcalls (fun m => ledger m e) e) as ([] & e' & E & He' & _); [by split|].
  by exists e'.
Qed.

(** C7. The engine neither leaks nor double-frees a received packet: over any sequence of
    calls and bursts, for every packet, the references held by connections, queued
    events and events handed to the application change by exactly what arrived with the
    bursts plus the reference-count calls the engine made to the driver. *)
Theorem engine_conserves_refs (calls : list Call) (e e' : Engine) (m : MbufId) (Hcfg : config_ok) (He : engine_ok e)
    (Hcalls : Forall call_ok calls) (Hrun : for_each calls run_call e = Some (tt, e')) :
  held m e' = held m e + (ref_delta m (eg_rx_ops e') - ref_delta m (eg_rx_ops e)) + zsum (call_arrives m) calls.
Proof.
  destruct (run_calls_good calls Hcfg Hcalls (fun m => ledger m e) e) as ([] & e1 & E & _ & HL); [by split|].
  rewrite Hrun in E. injection E as <-. specialize (HL m). unfold ledger in HL. lia.
Qed.



(** The reaper frees exactly the connections due: those in TIME_WAIT whose deadline the
    clock, read once, has reached (or that asked to skip the wait).  Their handles are
    free afterwards, every other handle leads to the very connection it led to, and the
    engine's invariant holds again. *)
Theorem reap_time_wait_exact (e : Engine) (He : engine_ok e) :
  exists e', reap_time_wait e = Some (tt, e') /\ engine_ok e' /\
    forall h c, is_u32 h -> ft_get (eg_flow_table e') h = Some c <->
      ft_get (eg_flow_table e) h = Some c /\ ~ due (pl_now (eg_step e)) c.
Proof.
  destruct (safe_reap (fun m => ledger m e) e) as ([] & e' & E & Hok' & _); [by split|].
  exists e'. split; [done|]. split; [done|]. pose proof (iv_table _ _ He) as Hok.
  set (e1 := e <| eg_step ::= S |>). set (now := pl_now (eg_step e)).
  set (cands := reap_candidates now (eg_flow_table e1)).
  destruct (reap_loop_get (reverse cands) e1) as (e2 & E2 & Hg).
  { apply Forall_forall. intros h Hin. apply elem_of_reverse, list_elem_of_filter in Hin as [_ Hin]. by eapply handles_u32. }
  { done. }
  assert (Heq : Some (tt, e2) = Some (tt, e')) by (rewrite <- E2; exact E). injection Heq as ->.
  intros h c1 U. rewrite Hg by done. change (eg_flow_table e1) with (eg_flow_table e).
  destruct (ft_get (eg_flow_table e) h) as [c|] eqn:Hc; [|split; [by destruct (bool_decide _)|by intros []]].
  assert (Hiff : h ∈ reverse cands <-> reapable now c = true).
  { rewrite elem_of_reverse. unfold cands, reap_candidates. rewrite list_elem_of_filter.
    change (eg_flow_table e1) with (eg_flow_table e). rewrite Hc. split; [tauto|].
    intros R. split; [done|by eapply get_in_handles]. }
  rewrite (bool_decide_ext _ _ Hiff), bool_decide_decide, <- reapable_due. fold now.
  destruct (decide (reapable now c = true)); naive_solver.
Qed.

(** Packets in flight are released by one way out only.  Giving up after too many
    retransmissions frees the handle and every packet kept for retransmission; the other
    way out, taken by a reset, by LAST_ACK and by the reaper, frees the handle as well
    but makes no call on those packets, which stay allocated for good. *)
Theorem in_flight_released_only_on_timeout (e : Engine) (h : ConnHandle) (c : TcpConn) (Hh : is_u32 h) (He : engine_ok e)
    (Hc : ft_get (eg_flow_table e) h = Some c) :
  (exists e1, force_close_etimedout h e = Some (tt, e1) /\ ft_get (eg_flow_table e1) h = None /\
     eg_tx_ops e1 = eg_tx_ops e ++ map (fun r => FreeSeg (re_mbuf r)) (c_snd_retrans c)) /\
  (exists e2, tear_down h e = Some (tt, e2) /\ ft_get (eg_flow_table e2) h = None /\ eg_tx_ops e2 = eg_tx_ops e).
Proof.
  pose proof (iv_table _ _ He) as Hok. split.
  - set (g := fun c => set_syn_timer None (set_tlp_timer None (set_rto_timer None c)) <| c_timer_ids := [] |> <| c_snd_retrans := [] |>).
    set (t := eg_flow_table e). set (ops := eg_tx_ops e ++ map (fun r => FreeSeg (re_mbuf r)) (c_snd_retrans c)).
    set (e0 := e <| eg_flow_table ::= fun t => ft_update t h g |>
                 <| eg_tx_ops ::= fun l => l ++ map (fun r => FreeSeg (re_mbuf r)) (c_snd_retrans c) |>).
    assert (Ho : others t ops h (table_view e0)).
    { split; cbn [fst snd table_view]; [apply ft_update_ok; [|done]; intros c' _; reflexivity|]. split; [done|].
      intros h' U N. by apply ft_update_get_ne. }
    assert (Hrun : triple (fun e1 => others t ops h (table_view e1))
      (cancel_all (all_timer_ids c) ;; transition_conn h Closed ;; now ← ask pl_now;
       push_event (EvError h (- ETIMEDOUT) now) ;; push_event (EvClosed h (- ETIMEDOUT) now) ;;
       remove_conn h ;; inc ConnClose) (fun _ => without t ops h)).
    { apply quiet_then; [apply quiet_cancel_all|]. intros ?. eapply triple_bind; [by apply transition_others|]. intros ?.
      apply quiet_then; [apply quiet_ask|]. intros now. apply quiet_then; [apply quiet_push|]. intros ?.
      apply quiet_then; [apply quiet_push|]. intros ?. eapply triple_bind; [by apply remove_without|].
      intros ? e1 He1. by eexists _, _. }
    destruct (Hrun e0 Ho) as ([] & e1 & E1 & _ & H1 & H2). exists e1.
    split; [unfold force_close_etimedout, mbind at 1, M_bind at 1, get_conn at 1, get at 1; rewrite Hc; exact E1|].
    split; [|done]. rewrite H2 by done. by rewrite bool_decide_eq_true_2.
  - destruct (tear_down_without _ _ h Hh e (others_refl e h Hok)) as ([] & e2 & E2 & _ & H1 & H2).
    exists e2. split; [done|]. split; [|done]. rewrite H2 by done. by rewrite bool_decide_eq_true_2.
Qed.

(** The payload of a segment spread over several packets is thrown away: the receive
    path builds no zero-copy context for it, and without one an ESTABLISHED connection
    delivers nothing, queues nothing and keeps its receive queue, whatever the segment
    carries, while it still acknowledges. *)
Theorem multi_segment_payload_dropped (clk : Clock) (mb : MbufId) (c : TcpConn) (seg : ParsedSegment) (off : Z)
    (c' : TcpConn) (o : Outcome) (ops : list MbufOp) (Hmb : nb_segs mb <> 1) (Hc : conn_ok c) (Hs : c_state c = Established)
    (Hrun : dispatch test_server clk pl_links rtt_histogram_edges send_buffer_bytes (insert_ctx (Some mb) seg off) c seg =
              Some (c', o, ops)) :
  o_delivered o = 0 /\ c_recv c' = c_recv c /\ ops = [] /\ o_mbuf_ref_retained o = false.
Proof.
  assert (Ei : insert_ctx (Some mb) seg off = None).
  { unfold insert_ctx. destruct (Z.eqb_spec (nb_segs mb) 1); [done|]. by rewrite andb_false_r. }
  rewrite Ei in Hrun. apply dispatch_established in Hrun; [|done].
  apply established_none in Hrun as (E1 & _ & E2 & E3 & E4 & _); done.
Qed.
End Spec.

(** ** An engine to evaluate *)

(** A driver that always delivers: packet 100 + n for the n-th request, one tick of the
    clock a millisecond; packet 50 alone comes in two segments. *)
Definition sample_platform : Platform := {|
  pl_now := fun n => 1000000 * (1 + Z.of_nat n);
  pl_dispatch_clock := fun n _ => 1000000 * (1 + Z.of_nat n);
  pl_alloc_hdr := fun n => Some (100 + Z.of_nat n);
  pl_alloc_data := fun n => Some (100 + Z.of_nat n);
  pl_alloc_rx := fun n => Some (100 + Z.of_nat n);
  pl_append := fun _ => true;
  pl_adj := fun _ => true;
  pl_chain := fun _ => true;
  pl_burst := fun _ => 1%nat;
  pl_mtu := 1500;
  pl_links := fun m => if m =? 50 then [(51, 10)] else [];
  pl_data_ptr := fun m => 65536 * m;
  pl_siphash := fun _ => 0;
  pl_tsc := fun n => 1000 * Z.of_nat n;
  pl_tsc_hz := 1000000;
  pl_rx_avail := fun _ => 4000;
  pl_tx_data_avail := fun _ => 4000
|}.

Definition sample_config : EngineConfig := {|
  local_ip := 0x0a000001; gateway_ip := 0x0a000002; our_mac := [2; 0; 0; 0; 0; 1]; garp_interval_sec := 0;
  recv_buffer_bytes := 65535; send_buffer_bytes := 65536; tcp_mss := 1460; tcp_msl_ms := 10;
  tcp_timestamps := false; tcp_sack := true; tcp_min_rto_us := 5000; tcp_initial_rto_us := 5000;
  tcp_max_rto_us := 1000000; tcp_max_retrans_count := 3; tcp_per_packet_events := true;
  rtt_histogram_edges := DEFAULT_RTT_HISTOGRAM_EDGES_US; tx_ring_capacity := 32;
  iss_gen := mkIssGen (replicate 16 0) (replicate 16 7); rx_cksum_feature := false; rx_cksum_offload_active := false;
  tx_cksum_feature := false; tx_cksum_offload_active := false; rss_feature := false; rss_hash_offload_active := false;
  test_server := false
|}.
#[local] Existing Instances sample_platform sample_config.

Definition peer_mac : list Z := [2; 0; 0; 0; 0; 2].

(** An engine with room for two connections, and one whose first slot holds [c]. *)
Definition engine_with (t : FlowTable) : Engine :=
  mkEngine t wheel_new (mkEventQueue [] 64) (mkObsCounters 0 0) [] ∅ peer_mac (ephemeral_seed 0) 0 0 [] [] 0 0 0
    listen_table_new [] 0 [] [] [] [] ∅ ∅.
Definition engine_of (c : TcpConn) : Engine := engine_with (mkFlowTable [Some c; None] {[c_four_tuple c := 0]}).

Lemma engine_of_get c : ft_get (eg_flow_table (engine_of c)) 1 = Some c.
Proof. reflexivity. Qed.

Lemma sample_config_ok : config_ok.
Proof. split; [reflexivity|cbn; width_lia|cbn; width_lia]. Qed.

Lemma engine_of_ok c : conn_base c -> conn_ok c -> engine_ok (engine_of c).
Proof.
  intros Hb Hc. assert (Hs : forall i c', [Some c; None] !! i = Some (Some c') -> i = 0%nat /\ c' = c)
    by (intros [|[|i]] c' E; by simplify_eq/=).
  split; try done.
  - split; cbn [engine_of engine_with eg_flow_table ft_slots ft_by_tuple].
    + change (2 < two32). width_lia.
    + intros tup i Hi. apply lookup_singleton_Some in Hi as [<- <-]. by exists c.
    + intros i c' Hi. apply Hs in Hi as [-> ->]. apply lookup_singleton_eq.
  - intros i c' Hi. by apply Hs in Hi as [_ ->].
  - intros i c' Hi. by apply Hs in Hi as [_ ->].
Qed.

Lemma sample_base c : c_tlp_recent_probes c = replicate 5 None -> c_tlp_recent_probes_next_slot c = 0 ->
  (c_state c = TimeWait -> is_Some (c_time_wait_deadline_ns c)) -> sq_pending (c_snd c) = [] -> conn_base c.
Proof. intros E1 E2 E3 E4. split; [by rewrite E1|lia|done|done]. Qed.

Lemma engine_open_ok : engine_ok (engine_of sample_open).
Proof. by apply engine_of_ok; [apply sample_base|apply sample_open_ok]. Qed.

(** *** A session *)

(** A frame of the peer's, arriving in packet [m]. *)
Definition peer_frame (flags seq ack : Z) (payload : list Z) (m : MbufId) : RxPacket :=
  let seg := mkSegmentTx peer_mac our_mac 0x0a000002 0x0a000001 80 4000 seq ack flags 8192 TcpOpts_default payload in
  mkRxPacket (match build_segment seg (replicate 200 0) with Some (Some (n, b)) => take n b | _ => [] end) 0 0 0 m.

Definition sample_connect : Call := CallConnect 0x0a000002 80 4000 (mkConnectOpts false false 0 0 false 0 false 0).

(** The sequence number the SYN goes out with. *)
Definition sample_iss : Z :=
  match run_call sample_connect (engine_with (ft_new 2)) with
  | Some (_, e) => match ft_get (eg_flow_table e) 1 with Some c => c_iss c | None => 0 end
  | None => 0
  end.

(** Connect; the SYN-ACK; five bytes out; their acknowledgement with two bytes in; close; the
    peer's FIN, which acknowledges ours; a packet of rubbish; the events. *)
Definition sample_session : list Call :=
  [sample_connect; CallPoll [peer_frame 0x12 7000 (sample_iss + 1) [] 7]; CallSend 1 [1; 2; 3; 4; 5];
   CallPoll [peer_frame 0x10 7001 (sample_iss + 6) [9; 8] 8]; CallClose 1 0;
   CallPoll [peer_frame 0x11 7003 (sample_iss + 7) [] 9; mkRxPacket [1; 2; 3] 0 0 0 10]; CallDrain 10].

Definition packet_okb (p : RxPacket) : bool :=
  forallb (fun b => (0 <=? b) && (b <? 256)) (pk_bytes p) && (zlen (pk_bytes p) <? two16).
Definition call_okb (c : Call) : bool := match c with CallPoll burst => forallb packet_okb burst | _ => true end.

Lemma calls_okb_sound calls : forallb call_okb calls = true -> Forall call_ok calls.
Proof.
  rewrite forallb_forall, List.Forall_forall. intros H c Hc. specialize (H c Hc). destruct c; cbn in *; try done.
  apply List.Forall_forall. rewrite forallb_forall in H. intros p Hp. specialize (H p Hp).
  unfold packet_okb in H. apply andb_true_iff in H as [H1 H2]. split; [|lia].
  apply List.Forall_forall. rewrite forallb_forall in H1. intros b Hb. specialize (H1 b Hb). unfold is_u8. width_lia.
Qed.

(** What is left to see of a session: the connection, the sequence numbers gone out, the
    frames sent and the references held to the packets of the bursts. *)
Definition session_view (e : Engine) :=
  (option_map (fun c => (c_state c, c_snd_nxt c - sample_iss, c_rcv_nxt c)) (ft_get (eg_flow_table e) 1),
   length (eg_wire e), map (fun m => held m e) [7; 8; 9; 10]).

Lemma view_of {A B} (m : M A) (f : Engine -> B) e a e' v : m e = Some (a, e') ->
  option_map (fun r => f r.2) (m e) = Some v -> f e' = v.
Proof. intros E H. rewrite E in H. cbn in H. by injection H. Qed.

Lemma engine_fresh_ok : engine_ok (engine_with (ft_new 2)).
Proof. apply (engine_new_ok 2 64 peer_mac [] 0 ∅); [width_lia|done|by vm_compute]. Qed.

Lemma engine_never_panics_witness :
  exists e', for_each sample_session run_call (engine_with (ft_new 2)) = Some (tt, e') /\ engine_ok e' /\
    session_view e' = (Some (TimeWait, 7, 7004), 6%nat, [0; 1; 0; 0]).
Proof.
  destruct (engine_never_panics sample_session (engine_with (ft_new 2)) sample_config_ok engine_fresh_ok) as (e' & E & H).
  - apply calls_okb_sound. vm_compute. reflexivity.
  - exists e'. split; [exact E|]. split; [exact H|]. apply (view_of _ session_view _ _ _ _ E). vm_compute. reflexivity.
Defined.

Lemma engine_conserves_refs_witness :
  exists e', for_each sample_session run_call (engine_with (ft_new 2)) = Some (tt, e') /\ held 8 e' = 1 /\
    held 8 e' = held 8 (engine_with (ft_new 2)) + (ref_delta 8 (eg_rx_ops e') - ref_delta 8 []) +
      zsum (call_arrives 8) sample_session.
Proof.
  destruct (for_each sample_session run_call (engine_with (ft_new 2))) as [[[] e']|] eqn:E.
  2: { exfalso. assert (N : option_map (fun _ => tt) (for_each sample_session run_call (engine_with (ft_new 2))) = Some tt)
         by (vm_compute; reflexivity). rewrite E in N. discriminate N. }
  exists e'. split; [reflexivity|]. split; [apply (view_of _ (held 8) _ _ _ _ E); vm_compute; reflexivity|].
  apply (engine_conserves_refs sample_session (engine_with (ft_new 2)) e' 8 sample_config_ok engine_fresh_ok); [|exact E].
  apply calls_okb_sound. vm_compute. reflexivity.
Defined.

(** A peer with a window of 1000, 100 bytes of it in flight. *)
Definition sample_sender : TcpConn := sample_open <| c_snd_wnd := 1000 |>.



Definition sample_waiting : TcpConn :=
  sample_open <| c_state := TimeWait |> <| c_time_wait_deadline_ns := Some 900000 |> <| c_snd_una := 1101 |>.

Lemma sample_waiting_ok : engine_ok (engine_of sample_waiting).
Proof.
  apply engine_of_ok; [by apply sample_base|]. split; try (vm_compute; split; congruence); done.
Qed.

Lemma reap_time_wait_exact_witness :
  exists e', reap_time_wait (engine_of sample_waiting) = Some (tt, e') /\ engine_ok e' /\
    ft_get (eg_flow_table e') 1 = None.
Proof.
  destruct (reap_time_wait_exact (engine_of sample_waiting) sample_waiting_ok) as (e' & E & H & Hg).
  exists e'. split; [exact E|]. split; [exact H|].
  destruct (ft_get (eg_flow_table e') 1) as [c|] eqn:Hc; [|reflexivity]. exfalso.
  apply (Hg 1 c ltac:(width_lia)) in Hc as [Hc Hn]. injection Hc as <-. apply Hn.
  split; [reflexivity|]. right. exists 900000. split; [reflexivity|]. vm_compute. discriminate.
Defined.

Definition sample_flying : TcpConn :=
  sample_open <| c_snd_retrans := [mkRetransEntry 1001 50 3 0 1 false false 0 54; mkRetransEntry 1051 50 4 0 1 false false 0 54] |>.

Lemma in_flight_released_only_on_timeout_witness :
  (exists e1, force_close_etimedout 1 (engine_of sample_flying) = Some (tt, e1) /\ ft_get (eg_flow_table e1) 1 = None /\
     eg_tx_ops e1 = [FreeSeg 3; FreeSeg 4]) /\
  (exists e2, tear_down 1 (engine_of sample_flying) = Some (tt, e2) /\ ft_get (eg_flow_table e2) 1 = None /\ eg_tx_ops e2 = []).
Proof.
  apply (in_flight_released_only_on_timeout (engine_of sample_flying) 1 sample_flying); [width_lia| |reflexivity].
  apply engine_of_ok; [by apply sample_base|]. exact (conn_ok_view sample_open sample_flying eq_refl sample_open_ok).
Defined.

(** Packet 50 comes in two segments. *)
Lemma multi_segment_payload_dropped_witness :
  exists c' o ops,
    dispatch test_server (fun _ => 0) pl_links rtt_histogram_edges send_buffer_bytes (insert_ctx (Some 50) sample_data 54)
      sample_open sample_data = Some (c', o, ops) /\
    o_delivered o = 0 /\ c_recv c' = c_recv sample_open /\ ops = [] /\ o_mbuf_ref_retained o = false.
Proof.
  destruct (dispatch_total test_server (fun _ => 0) pl_links rtt_histogram_edges send_buffer_bytes
    (insert_ctx (Some 50) sample_data 54) sample_open sample_data) as [[[c' o] ops] E].
  exists c', o, ops. split; [exact E|].
  apply (multi_segment_payload_dropped (fun _ => 0) 50 sample_open sample_data 54 c' o ops); [|exact sample_open_ok|reflexivity|exact E].
  vm_compute. discriminate.
Defined.
