(* ===== verification/EndToEnd.v ===== *)
(** * From one application to the other: engine.rs, tcp_output.rs and tcp_input.rs together

    What [send_bytes] accepts, the packets it keeps and hands to the driver, and what a
    receiving connection makes of them after the network has dropped, repeated and
    reordered them. *)

From S2P Require Import Prelude.
From S2P Require Import Bytes.
From S2P Require Import Mbuf.
From S2P Require Import Reassembly.
From S2P Require Import Retrans.
From S2P Require Import Output.
From S2P Require Import Segment.
From S2P Require Import Conn.
From S2P Require Import FlowTable.
From S2P Require Import Input.
From S2P Require Import Receive.
From S2P Require Import Readable.
From S2P Require Import Dispatch.
From S2P Require Import InputSpec.
From S2P Require Import AckBuild.
From S2P Require Import Events.
From S2P Require Import Stream.
From S2P Require Import Engine.
From S2P Require Import EngineTx.
From S2P Require Import EngineTimers.
From S2P Require Import EngineRx.
From S2P Require Import EngineApi.
From S2P Require Import EngineInv.
From S2P Require Import EngineSafe.
From S2P Require Import EngineLoop.
From S2P Require Import EngineSend.
From S2P Require Import EngineSpec.

(** ** Pieces of the data *)

(** A frame that takes some part of [data] to the peer, [isn] numbering its first byte. *)
Definition carries_piece (mac : list Z) (t : FourTuple) (isn : Z) (data frame : list Z) : Prop :=
  exists pre payload post, data = pre ++ payload ++ post /\ payload <> [] /\
    data_frame mac t (wadd32 isn (zlen pre)) payload frame.

Lemma carried_piece mem mac t isn data l r : is_u32 isn -> carried mem mac t isn data l -> r ∈ l ->
  exists frame, mem !! re_mbuf r = Some frame /\ carries_piece mac t isn data frame.
Proof.
  revert isn data. induction l as [|x l IH]; intros isn data Hi; cbn [carried]; [set_solver|].
  intros (p & rest & f & -> & Hp & _ & _ & Em & Hf & Hc) [->|Hr]%elem_of_cons.
  - exists f. split; [done|]. exists [], p, rest. split_and!; try done. by rewrite zlen_nil, wadd32_0_r.
  - destruct (IH _ _ ltac:(apply wadd32_range) Hc Hr) as (f' & Em' & pre & p' & post & -> & Hp' & Hf').
    exists f'. split; [done|]. exists (p ++ pre), p', post. rewrite <- app_assoc. split_and!; try done.
    by rewrite zlen_app, <- wadd32_assoc.
Qed.

(** ** Arrival *)

Section Arrival.
Context `{Platform} (mem : MbufId -> Z -> Z).

(** [a] is the arrival of [frame] at the host with addresses [mac] and [ip]: the frame
    lies whole in a packet, and the receive path parses it and locates its payload. *)
Definition arrives (mac : list Z) (ip : Z) (frame : list Z) (a : Arrival) : Prop :=
  receive_frame mac ip frame = Some (ar_seg a) /\ zlen frame < two16 /\
  exists m, insert_ctx (Some m) (ar_seg a) 34 = Some (ar_ctx a) /\
    forall i b, frame !! i = Some b -> mem m (Z.of_nat i) = b.

(** [data] as the beginning of an endless stream. *)
Definition followed_by (data : list Z) (v x : Z) : Z := default v (data !! Z.to_nat x).

Lemma stream_followed data v k : 0 <= k <= zlen data -> stream (followed_by data v) 0 k = take (Z.to_nat k) data.
Proof.
  intros Hk. unfold zlen in Hk. apply list_eq. intros i. unfold stream. rewrite list_lookup_fmap.
  destruct (decide (i < Z.to_nat k)%nat) as [Hi|Hi].
  - rewrite lookup_seqZ_lt by lia. rewrite lookup_take_lt by lia. cbn [fmap option_fmap option_map]. unfold followed_by.
    destruct (lookup_lt_is_Some_2 data i ltac:(lia)) as [b Eb]. rewrite Z.add_0_l, Z.add_0_l, Nat2Z.id, Eb. done.
  - rewrite lookup_seqZ_ge by lia. by rewrite lookup_take_ge by lia.
Qed.

Lemma arrives_from_stream mac t isn data v frame a n : carries_piece mac t isn data frame ->
  arrives mac (ft_peer_ip t) frame a -> 0 <= n <= zlen data -> zlen data < two31 ->
  from_stream pl_links mem (followed_by data v) isn n a.
Proof.
  intros (pre & payload & post & -> & Hp & s & Es & Hwf & _ & _ & Eseq & Epl & _ & Hd) (Ea & Hsz & m & Hctx & Hm) Hn Hl.
  rewrite Ea in Es. injection Es as Es. rewrite Es in *.
  unfold insert_ctx in Hctx. destruct (_ && _) eqn:Hseg in Hctx; [|discriminate Hctx]. injection Hctx as Ectx.
  apply andb_true_iff in Hseg as [_ Hseg]. unfold nb_segs in Hseg. apply Z.eqb_eq in Hseg.
  assert (Hlinks : pl_links m = []) by (destruct (pl_links m) as [|x ls]; [done|rewrite zlen_cons in Hseg; pose proof (zlen_nonneg ls); lia]).
  destruct Hwf as [_ W2 W3 _ _ _ _ W8].
  assert (Hoff : sat_add16 34 (u16 (Z.of_nat (ps_header_len s))) = Z.of_nat (34 + ps_header_len s)).
  { unfold sat_add16. rewrite u16_id by (unfold is_u16, two16; lia). unfold U16_MAX. lia. }
  assert (Hlen : (length frame = 34 + ps_header_len s + length payload)%nat).
  { rewrite <- Hd, length_drop. assert (length payload <> 0%nat) by (by destruct payload). rewrite <- Hd, length_drop in *. lia. }
  rewrite !zlen_app in *. pose proof (zlen_nonneg pre). pose proof (zlen_nonneg payload). pose proof (zlen_nonneg post).
  split; rewrite ?Es, ?Epl, <- ?Ectx.
  - done.
  - split; cbn [mi_payload_offset mi_mbuf]; rewrite ?Hoff, ?Hlinks; [lia| |done]. unfold zlen in *. lia.
  - exists (zlen pre). split; [lia|]. split; [by rewrite Eseq|].
    split; cbn [mi_payload_offset mi_mbuf]; rewrite ?Hlinks; [|done]. intros i Hi. rewrite Hoff.
    destruct (lookup_lt_is_Some_2 payload (Z.to_nat i) ltac:(unfold zlen in *; lia)) as [b Eb].
    unfold followed_by. replace (Z.to_nat (zlen pre + i)) with (length pre + Z.to_nat i)%nat by (unfold zlen in *; lia).
    rewrite lookup_app_r by lia. replace (length pre + Z.to_nat i - length pre)%nat with (Z.to_nat i) by lia.
    rewrite lookup_app_l, Eb by (unfold zlen in *; lia). cbn [default].
    replace (Z.of_nat (34 + ps_header_len s) + i) with (Z.of_nat (34 + ps_header_len s + Z.to_nat i)) by lia.
    apply Hm. rewrite <- lookup_drop. by rewrite Hd.
Qed.
End Arrival.

(** ** Reading *)

(** A connection that has read everything so far and waits for byte [isn]. *)
Record awaits (c : TcpConn) (isn : Z) : Prop := {
  aw_ok : conn_ok c;
  aw_state : c_state c = Established;
  aw_next : c_rcv_nxt c = isn;
  aw_read : rv_bytes (c_recv c) = [];
  aw_queue : segments (rv_reorder (c_recv c)) = []
}.

Lemma awaits_at_byte c isn mem S : is_u32 isn -> awaits c isn -> at_byte mem S isn c 0.
Proof.
  intros Hi [H1 H2 H3 H4 H5]. split; try done.
  - intros _. by rewrite wadd32_0_r.
  - intros _. by rewrite H5.
  - by rewrite H2.
Qed.

Section Reading.
Context (pr : Platform) (mem : MbufId -> Z -> Z) (test_server : bool) (edges : list Z) (sbb : Z).
Context (mac : list Z) (t : FourTuple) (isn : Z) (data : list Z).
Context (Hisn : is_u32 isn) (Hdata : zlen data < two31).

Abbreviation Received v := (received test_server pl_links edges sbb mem (followed_by data v) isn).
Abbreviation Take := (take_segments test_server pl_links edges sbb).

(** Two streams that only agree on [data] cannot both be read past its end. *)
Lemma read_bounded c0 c l : awaits c0 isn -> Received 0 c0 0 c l -> Received 1 c0 0 c l ->
  0 <= zsum io_len l <= zlen data /\ concat (map (view_bytes mem) l) = take (Z.to_nat (zsum io_len l)) data /\ conn_ok c /\
  (c_state c = Established -> c_rcv_nxt c = wadd32 isn (zsum io_len l)).
Proof.
  intros Hc0 R0 R1. pose proof (zlen_nonneg data).
  destruct (received_ok _ _ _ _ _ _ _ _ _ _ _ (awaits_at_byte _ _ _ _ Hisn Hc0) R0) as ([Hok _ Hn _ _] & Hk & E0).
  destruct (received_ok _ _ _ _ _ _ _ _ _ _ _ (awaits_at_byte _ _ _ _ Hisn Hc0) R1) as (_ & _ & E1).
  rewrite Z.add_0_l in Hn. set (k := zsum io_len l) in *.
  assert (Hkl : k <= zlen data).
  { destruct (Z.le_gt_cases k (zlen data)) as [|Hgt]; [done|]. exfalso. rewrite E0 in E1. unfold stream in E1.
    assert (El : forall v, map (fun i => followed_by data v (0 + i)) (seqZ 0 k) !! Z.to_nat (zlen data) = Some v).
    { intros v. rewrite list_lookup_fmap, lookup_seqZ_lt by lia. cbn [fmap option_fmap option_map]. unfold followed_by.
      rewrite lookup_ge_None_2; [done|]. unfold zlen. lia. }
    pose proof (El 0) as A. rewrite E1, El in A. discriminate A. }
  split; [done|]. split; [|done]. rewrite E0. by apply stream_followed.
Qed.

(** Whatever arrives of the data, in whatever order and however often, what is read is a
    prefix of it. *)
Lemma read_prefix c0 l : awaits c0 isn ->
  Forall (fun a => exists frame, carries_piece mac t isn data frame /\ arrives mem mac (ft_peer_ip t) frame a) l ->
  forall c v, Received 0 c0 0 c v -> Received 1 c0 0 c v ->
  exists c' v', Take c l = Some (c', v') /\ Received 0 c0 0 c' (v ++ v') /\ Received 1 c0 0 c' (v ++ v').
Proof.
  intros Hc0. induction 1 as [|a l (frame & Hp & Ha) Hl IH]; intros c v R0 R1; cbn [take_segments].
  { exists c, []. by rewrite app_nil_r. }
  destruct (read_bounded _ _ _ Hc0 R0 R1) as (Hn & _).
  destruct (take_segment_total test_server pl_links edges sbb c a) as [[c1 popped] E1]. rewrite E1. cbn [mbind option_bind].
  assert (Hf : forall w, from_stream pl_links mem (followed_by data w) isn (zsum io_len v) a)
    by (intros w; by eapply arrives_from_stream).
  destruct (IH c1 (v ++ popped)) as (c2 & rest & E2 & Hr); [by eapply received_one..|]. rewrite E2. cbn [mbind option_bind].
  exists c2, (popped ++ rest). by rewrite app_assoc.
Qed.
End Reading.

(** ** Sending *)

Section Sending.
Context `{Platform} `{EngineConfig}.
Context (e e' : Engine) (h : ConnHandle) (c : TcpConn) (bytes : list Z) (r : result Z EngineError).
Context (Hcfg : config_ok) (He : engine_ok e).
Context (Hg : ft_get (eg_flow_table e) h = Some c) (Hst : c_state c = Established).
Context (Hok : sender_ok (eg_gateway_mac e) c) (Hb : is_bytes bytes).
Context (Hrun : send_bytes h bytes e = Some (r, e')) (Hfresh : fresh h e (eg_step e')).

Definition sent_data : list Z := take (Z.to_nat (accepted r)) bytes.

(** The entries the call has added to the retransmission queue. *)
Definition sent_packets : list RetransEntry := drop (length (c_snd_retrans c)) (default [] (in_flight h e')).

Lemma nxt_u32 : is_u32 (c_snd_nxt c).
Proof. pose proof (proj2 (ft_get_some _ _ _ Hg)) as Hi. apply (iv_conns _ _ He _ _ Hi). Qed.

Lemma send_bytes_since : sent_since h c e sent_data sent_packets e' /\ 0 <= accepted r < two31.
Proof.
  destruct (send_bytes_sent h c e bytes r e' (cfg_send Hcfg) Hok nxt_u32 Hb Hg Hst Hrun Hfresh) as (new & Hs & Ha).
  split; [|done]. assert (sent_packets = new) as ->; [|exact Hs]. unfold sent_packets. rewrite (ss_kept _ _ _ _ _ _ Hs).
  unfold in_flight. rewrite Hg. cbn. apply drop_app_length.
Qed.

(** C3. A send puts the application's bytes on the wire.  The packets it adds to the
    retransmission queue hold, in order, frames that decode at the peer to segments with
    the accepted bytes, under consecutive sequence numbers from [snd_nxt] on.  What is
    handed over (to the driver, or to the intercept queue), or still waits in the ring, is what waited before followed by these
    frames, some perhaps missing (a burst may be refused) but none altered, repeated or
    out of order.  The packets in use before keep their bytes. *)
Theorem send_puts_bytes_on_wire :
  in_flight h e' = Some (c_snd_retrans c ++ sent_packets) /\
  carried (eg_mem e') (eg_gateway_mac e) (c_four_tuple c) (c_snd_nxt c) sent_data sent_packets /\
  (exists ws, frames_out e' = frames_out e ++ ws /\
     ws ++ map (frame_bytes e') (eg_tx_pending e') `sublist_of`
       map (frame_bytes e) (eg_tx_pending e) ++ map (fun p => frame_bytes e' (re_mbuf p)) sent_packets) /\
  forall m, in_use h e m -> eg_mem e' !! m = eg_mem e !! m.
Proof.
  destruct send_bytes_since as [[S1 S2 S3 S4 S5 S6 S7 S8 S9] _]. split_and!.
  - rewrite S1. unfold in_flight. by rewrite Hg.
  - exact S2.
  - by rewrite map_map in S7.
  - intros m Hm. apply S5. intros Hin. destruct (S3 m Hin) as (i & Hi & Ei). by apply (proj1 Hfresh i m).
Qed.

(** C2. From one application to the other.  Every packet of the call holds a piece of the
    accepted bytes.  And whatever such frames reach a connection that waits for the first
    of these bytes - originals or retransmissions, in any order, any number of times, some
    never - the receiver processes them all, and what its application is handed, read one
    view after the other, is a prefix of the bytes the sender accepted; while the
    connection is ESTABLISHED, [rcv_nxt] stands at the first byte not handed over. *)
Theorem sent_bytes_are_read :
  (forall p, p ∈ sent_packets ->
     carries_piece (eg_gateway_mac e) (c_four_tuple c) (c_snd_nxt c) sent_data (frame_bytes e' (re_mbuf p))) /\
  forall (pr : Platform) (mem : MbufId -> Z -> Z) (test_server : bool) (edges : list Z) (sbb : Z) (c0 : TcpConn) (l : list Arrival),
    awaits c0 (c_snd_nxt c) ->
    Forall (fun a => exists frame, carries_piece (eg_gateway_mac e) (c_four_tuple c) (c_snd_nxt c) sent_data frame /\
      arrives mem (eg_gateway_mac e) (ft_peer_ip (c_four_tuple c)) frame a) l ->
    exists c' views, take_segments test_server (@pl_links pr) edges sbb c0 l = Some (c', views) /\
      let n := zsum io_len views in
      0 <= n <= zlen sent_data /\ concat (map (view_bytes mem) views) = take (Z.to_nat n) sent_data /\
      (c_state c' = Established -> c_rcv_nxt c' = wadd32 (c_snd_nxt c) n).
Proof.
  destruct send_bytes_since as [Hs Ha]. split.
  - intros p Hp. destruct (carried_piece _ _ _ _ _ _ _ nxt_u32 (ss_carried _ _ _ _ _ _ Hs) Hp) as (f & Ef & Hf).
    unfold frame_bytes. rewrite Ef, (ss_next _ _ _ _ _ _ Hs) by (by apply list_elem_of_fmap_2). cbn [default]. by rewrite app_nil_r.
  - intros pr mem test_server edges sbb c0 l Hc0 Hl.
    assert (Hd : zlen sent_data < two31) by (unfold sent_data, zlen; rewrite length_take; lia).
    destruct (read_prefix pr mem test_server edges sbb _ _ _ _ nxt_u32 Hd c0 l Hc0 Hl c0 []) as (c' & views & E & R0 & R1); [constructor..|].
    destruct (read_bounded pr mem test_server edges sbb _ _ nxt_u32 c0 c' views Hc0 R0 R1) as (? & ? & _ & ?).
    exists c', views. by cbv zeta.
Qed.
End Sending.

(** ** Resending *)

Section Resending.
Context `{Platform} `{EngineConfig}.

(** C4. A retransmission resends the same bytes under the same number.  When the packet
    kept for an entry ends in the entry's payload - whole frame, or already trimmed by an
    earlier retransmission - it still does afterwards; and what is pushed, if anything is,
    is a header whose frame, the kept packet chained behind it, decodes at the peer to a
    segment with that payload at the entry's sequence number, whatever acknowledgement,
    window and timestamp the new header carries.  The entry is then marked sent once more;
    when a packet or the chaining is refused the entry and the ring are left alone. *)
Theorem retransmission_resends (e : Engine) (h : ConnHandle) (idx : nat) (c : TcpConn) (r : RetransEntry) (payload : list Z)
    (Hcfg : config_ok) (He : engine_ok e) (Hg : ft_get (eg_flow_table e) h = Some c) (Hi : c_snd_retrans c !! idx = Some r)
    (Hok : sender_ok (eg_gateway_mac e) c) (Hseq : is_u32 (re_seq r)) (Hm : re_mbuf r <> 0)
    (Hb : is_bytes payload) (Hends : ends_in (eg_mem e) r payload)
    (Hadj : forall i, pl_adj i = true) (Hhdr : forall i, pl_alloc_hdr i <> Some (re_mbuf r)) :
  exists e', retransmit h idx e = Some (tt, e') /\ engine_ok e' /\ ends_in (eg_mem e') r payload /\
    (eg_tx_pending e' = [] /\ in_flight h e' = Some (c_snd_retrans c) \/
     exists hdr now, eg_tx_pending e' = [hdr] /\
       data_frame (eg_gateway_mac e) (c_four_tuple c) (re_seq r) payload (frame_bytes e' hdr) /\
       in_flight h e' = Some (alter (mark_resent now) idx (c_snd_retrans c))).
Proof.
  destruct (safe_retransmit (cfg_mac Hcfg) None h idx (fun m => ledger m e) e (conj He (fun _ => eq_refl))) as ([] & e' & E & [He' _]).
  exists e'. split; [done|]. split; [done|].
  destruct (retransmit_spec h idx e c r payload tt e' Hok Hg Hi Hseq Hm Hb Hends Hadj Hhdr E) as [Hends' Hout].
  split; [done|]. destruct Hout as [[P I]|Hout]; [left|by right]. split; [done|]. rewrite I. unfold in_flight. by rewrite Hg.
Qed.
End Resending.

(** ** An evaluated crossing *)

#[local] Existing Instances sample_platform sample_config.

(** Ten bytes go out in segments of at most four. *)
Definition sample_talker : TcpConn := sample_sender <| c_peer_mss := 4 |>.
Definition sample_words : list Z := [1; 2; 3; 4; 5; 6; 7; 8; 9; 10].

Lemma sample_talker_ok : engine_ok (engine_of sample_talker).
Proof. apply engine_of_ok; [by apply sample_base|]. exact (conn_ok_view sample_open sample_talker eq_refl sample_open_ok). Qed.

Lemma sample_talker_sender : sender_ok peer_mac sample_talker.
Proof.
  split; try reflexivity; try (vm_compute; repeat split; congruence).
  - split; [|reflexivity]. repeat constructor; vm_compute; congruence.
  - split; [|reflexivity]. repeat constructor; vm_compute; congruence.
Qed.

Lemma sample_fresh b : fresh 1 (engine_of sample_talker) b.
Proof.
  split.
  - intros i m _ _ [Hm|[(x & Hx & _)|(l & El & Hm)]].
    + by apply not_elem_of_nil in Hm.
    + by apply not_elem_of_nil in Hx.
    + unfold in_flight in El. rewrite engine_of_get in El. injection El as <-. by apply not_elem_of_nil in Hm.
  - intros i j m _ _ Ei Ej. cbn in Ei, Ej. simplify_eq. lia.
Qed.

Lemma sample_words_bytes : is_bytes sample_words.
Proof. repeat constructor; vm_compute; congruence. Qed.

Lemma sample_send : exists e', send_bytes 1 sample_words (engine_of sample_talker) = Some (Ok 10, e').
Proof.
  destruct (send_bytes 1 sample_words (engine_of sample_talker)) as [[r e']|] eqn:E.
  - assert (F : option_map fst (send_bytes 1 sample_words (engine_of sample_talker)) = Some (Ok 10)) by (vm_compute; reflexivity).
    rewrite E in F. injection F as ->. eauto.
  - exfalso. assert (F : option_map fst (send_bytes 1 sample_words (engine_of sample_talker)) = Some (Ok 10)) by (vm_compute; reflexivity).
    rewrite E in F. discriminate F.
Qed.

Lemma send_puts_bytes_on_wire_witness :
  exists e', send_bytes 1 sample_words (engine_of sample_talker) = Some (Ok 10, e') /\
    map (fun p => (re_seq p, re_len p)) (sent_packets e' 1 sample_talker) = [(1101, 4); (1105, 4); (1109, 2)] /\
    carried (eg_mem e') peer_mac (c_four_tuple sample_talker) 1101 sample_words (sent_packets e' 1 sample_talker).
Proof.
  destruct sample_send as [e' E]. exists e'. split; [exact E|]. split.
  - apply (view_of _ (fun e => map (fun p => (re_seq p, re_len p)) (sent_packets e 1 sample_talker)) _ _ _ _ E). vm_compute. reflexivity.
  - exact (proj1 (proj2 (send_puts_bytes_on_wire (engine_of sample_talker) e' 1 sample_talker sample_words (Ok 10) sample_config_ok
      sample_talker_ok (engine_of_get _) eq_refl sample_talker_sender sample_words_bytes E (sample_fresh _)))).
Defined.

(** The frames of the call, each received in a packet of its own. *)
Definition sample_frame (k : nat) : list Z :=
  match send_bytes 1 sample_words (engine_of sample_talker) with
  | Some (_, e') => match sent_packets e' 1 sample_talker !! k with Some p => frame_bytes e' (re_mbuf p) | None => [] end
  | None => []
  end.
Definition sample_received (m : MbufId) (i : Z) : Z := default 0 (sample_frame (Z.to_nat m) !! Z.to_nat i).
Definition sample_arrival (k : nat) : Arrival :=
  mkArrival (fun _ => 0) (default sample_data (receive_frame peer_mac (ft_peer_ip (c_four_tuple sample_talker)) (sample_frame k)))
    (mkMbufInsertCtx (Z.of_nat k) 54).
Definition sample_reader : TcpConn :=
  sample_open <| c_rcv_nxt := 1101 |> <| c_snd_una := 5000 |> <| c_snd_nxt := 5000 |> <| c_recv := recv_new 65536 |>.

Lemma sample_reader_awaits : awaits sample_reader 1101.
Proof.
  split; try reflexivity. split.
  1-3: vm_compute; split; congruence.
  - vm_compute; congruence.
  - vm_compute; split; congruence.
  - split; [vm_compute; split; congruence|constructor|vm_compute; congruence].
  - split; [apply rq_okb_sound; vm_compute; reflexivity|constructor].
Qed.

Lemma sample_arrives k : (k < 3)%nat ->
  arrives sample_received peer_mac (ft_peer_ip (c_four_tuple sample_talker)) (sample_frame k) (sample_arrival k).
Proof.
  intros Hk. split.
  - do 3 (destruct k as [|k]; [vm_compute; reflexivity|]). lia.
  - split; [do 3 (destruct k as [|k]; [vm_compute; reflexivity|]); lia|]. exists (Z.of_nat k). split.
    + do 3 (destruct k as [|k]; [vm_compute; reflexivity|]). lia.
    + intros i b Ei. unfold sample_received. by rewrite !Nat2Z.id, Ei.
Qed.

(** The second segment overtakes the first, which then comes twice; the third follows. *)
Lemma sent_bytes_are_read_witness :
  exists c' views, take_segments true pl_links [] 65536 sample_reader (map sample_arrival [1; 0; 0; 2]%nat) = Some (c', views) /\
    concat (map (view_bytes sample_received) views) = take (Z.to_nat (zsum io_len views)) sample_words /\
    zsum io_len views = 10 /\ c_rcv_nxt c' = 1111.
Proof.
  destruct sample_send as [e' E].
  destruct (sent_bytes_are_read (engine_of sample_talker) e' 1 sample_talker sample_words (Ok 10) sample_config_ok
    sample_talker_ok (engine_of_get _) eq_refl sample_talker_sender sample_words_bytes E (sample_fresh _)) as [Hp Hrd].
  assert (Hpiece : forall k, (k < 3)%nat ->
    carries_piece peer_mac (c_four_tuple sample_talker) (c_snd_nxt sample_talker) sample_words (sample_frame k)).
  { intros k Hk. unfold sample_frame. rewrite E.
    destruct (sent_packets e' 1 sample_talker !! k) as [p|] eqn:Ek; [apply (Hp p); by eapply list_elem_of_lookup_2|].
    exfalso. apply lookup_ge_None in Ek.
    assert (Hn : length (sent_packets e' 1 sample_talker) = 3%nat)
      by (apply (view_of _ (fun e => length (sent_packets e 1 sample_talker)) _ _ _ _ E); vm_compute; reflexivity). lia. }
  destruct (Hrd sample_platform sample_received true [] 65536 sample_reader (map sample_arrival [1; 0; 0; 2]%nat) sample_reader_awaits)
    as (c' & views & Et & _ & Hc & Hn).
  { repeat constructor; eexists; (split; [apply Hpiece|apply sample_arrives]; lia). }
  exists c', views. split; [exact Et|]. split; [exact Hc|].
  assert (F : option_map (fun r => (zsum io_len r.2, c_state r.1))
    (take_segments true pl_links [] 65536 sample_reader (map sample_arrival [1; 0; 0; 2]%nat)) = Some (10, Established)) by (vm_compute; reflexivity).
  rewrite Et in F. injection F as F1 F2. split; [exact F1|]. rewrite Hn, F1 by exact F2. reflexivity.
Defined.

(** One segment in flight, its packet still the whole frame. *)
Definition sample_waiting_ack : TcpConn := sample_sender <| c_snd_retrans := [mkRetransEntry 1001 3 7 0 1 false false 0 54] |>.
Definition sample_holding : Engine := (engine_of sample_waiting_ack) <| eg_mem := {[7 := replicate 54 0 ++ [8; 9; 10]]} |>.

Lemma sample_holding_ok : engine_ok sample_holding.
Proof.
  assert (H : engine_ok (engine_of sample_waiting_ack)).
  { apply engine_of_ok; [by apply sample_base|]. exact (conn_ok_view sample_open sample_waiting_ack eq_refl sample_open_ok). }
  by destruct H.
Qed.

Lemma retransmission_resends_witness :
  exists e' hdr, retransmit 1 0 sample_holding = Some (tt, e') /\ eg_tx_pending e' = [hdr] /\
    data_frame peer_mac (c_four_tuple sample_waiting_ack) 1001 [8; 9; 10] (frame_bytes e' hdr).
Proof.
  destruct (retransmission_resends sample_holding 1 0 sample_waiting_ack (mkRetransEntry 1001 3 7 0 1 false false 0 54) [8; 9; 10])
    as (e' & E & _ & _ & Hout).
  - exact sample_config_ok.
  - exact sample_holding_ok.
  - reflexivity.
  - reflexivity.
  - destruct sample_talker_sender as [T1 T2 T3 T4 T5 T6 T7]. split; assumption.
  - vm_compute; split; congruence.
  - discriminate.
  - repeat constructor; vm_compute; congruence.
  - exists (replicate 54 0 ++ [8; 9; 10]), (replicate 54 0). split_and!; reflexivity.
  - reflexivity.
  - intros i Hx. cbn in Hx. injection Hx as Hx. lia.
  - destruct Hout as [[P _]|(hdr & now & P & Hf & _)].
    + assert (Hp : eg_tx_pending e' = [100]) by (apply (view_of _ eg_tx_pending _ _ _ _ E); vm_compute; reflexivity). rewrite Hp in P. discriminate P.
    + exists e', hdr. split; [exact E|]. split; [exact P|exact Hf].
Defined.
