(* ===== verification/Connect.v ===== *)
(** * What a connect leaves behind: connect_with_opts of engine.rs

    The outcome of an active open on the flow table: one new connection in SYN_SENT with
    the tuple, options and sequence numbers asked for, or an error and the table as it was. *)

From S2P Require Import Prelude.
From S2P Require Import Seq.
From S2P Require Import Tlp.
From S2P Require Import Mbuf.
From S2P Require Import TimerWheel.
From S2P Require Import Output.
From S2P Require Import Conn.
From S2P Require Import FlowTable.
From S2P Require Import Input.
From S2P Require Import AckBuild.
From S2P Require Import Iss.
From S2P Require Import Events.
From S2P Require Import Engine.
From S2P Require Import EngineTx.
From S2P Require Import EngineTimers.
From S2P Require Import EngineListen.
From S2P Require Import EngineApi.
From S2P Require Import EngineInv.
From S2P Require Import EngineSafe.
From S2P Require Import EngineStep.
From S2P Require Import EngineLoop.
From S2P Require Import EngineSpec.

(** ** Computations local to one connection *)

(** What the theorems say of the connection. *)
Definition peer_view (c : TcpConn) :=
  (c_is_passive_open c, c_rcv_nxt c, c_irs c, c_peer_mss c, c_ws_shift_in c, c_ts_enabled c, c_sack_enabled c).
Definition open_view (c : TcpConn) :=
  (c_state c, c_four_tuple c, c_iss c, c_snd_una c, c_snd_nxt c, c_tlp_pto_min_floor_us c,
   c_tlp_pto_srtt_multiplier_x100 c, c_tlp_max_consecutive_probes c, peer_view c).

(** Every handle but [h] leads where it led. *)
Definition beside (h : ConnHandle) (t t' : FlowTable) : Prop :=
  forall h', is_u32 h' -> h' <> h -> ft_get t' h' = ft_get t h'.

(** Only the connection of [h] may differ, and not in what is said of it. *)
Definition stays (h : ConnHandle) (e e' : Engine) : Prop :=
  beside h (eg_flow_table e) (eg_flow_table e') /\
  open_view <$> ft_get (eg_flow_table e') h = open_view <$> ft_get (eg_flow_table e) h /\
  (ft_ok (eg_flow_table e) -> ft_ok (eg_flow_table e')).

Definition local {A} (h : ConnHandle) (m : M A) : Prop := forall e a e', m e = Some (a, e') -> stays h e e'.

Lemma stays_refl h e : stays h e e.
Proof. by split_and!. Qed.
Lemma stays_trans h e1 e2 e3 : stays h e1 e2 -> stays h e2 e3 -> stays h e1 e3.
Proof.
  intros (B1 & V1 & O1) (B2 & V2 & O2). split_and!; [|congruence|auto]. intros h' U N. rewrite B2 by done. by apply B1.
Qed.
Lemma stays_table h e e' : eg_flow_table e' = eg_flow_table e -> stays h e e'.
Proof. intros E. unfold stays. rewrite E. by split_and!. Qed.

Lemma local_bind {A B} h (m : M A) (k : A -> M B) : local h m -> (forall a, local h (k a)) -> local h (mbind (M := M) k m).
Proof.
  intros Hm Hk e b e' E. apply run_bind_inv in E as (a & e1 & E1 & E2).
  eapply stays_trans; [by eapply Hm|by eapply Hk].
Qed.
Lemma local_ret {A} h (a : A) : local h (mret a).
Proof. intros e b e' E. injection E as <- <-. apply stays_refl. Qed.
Lemma local_get {A} h (f : Engine -> A) : local h (get f).
Proof. intros e b e' E. injection E as <- <-. apply stays_refl. Qed.
Lemma local_ask {A} h (f : nat -> A) : local h (ask f).
Proof. intros e b e' E. injection E as <- <-. by apply stays_table. Qed.
Lemma local_lift {A} h (o : option A) : local h (lift o).
Proof. intros e b e' E. unfold lift in E. destruct o; [|done]. injection E as <- <-. apply stays_refl. Qed.
Lemma local_update h f : (forall e, eg_flow_table (f e) = eg_flow_table e) -> local h (update f).
Proof. intros Hf e b e' E. injection E as <- <-. by apply stays_table. Qed.
Lemma local_when h b m : local h m -> local h (when b m).
Proof. intros Hm. destruct b; [done|apply local_ret]. Qed.
Lemma local_inc_by h c n : local h (inc_by c n).
Proof. by apply local_update. Qed.
Lemma local_inc h c : local h (inc c).
Proof. apply local_inc_by. Qed.
Lemma local_tx_calls h ops : local h (tx_calls ops).
Proof. by apply local_update. Qed.
Lemma local_push h ev : local h (push_event ev).
Proof.
  intros e b e' E. unfold push_event in E. destruct (event_push _ _ _) as [[q obs] ops]. injection E as <- <-. by apply stays_table.
Qed.
Lemma local_wheel_add h now n : local h (wheel_add now n).
Proof. intros e b e' E. unfold wheel_add in E. destruct (add now n _) as [w id]. injection E as <- <-. by apply stays_table. Qed.
Lemma local_update_conn h f : is_u32 h -> (forall c, open_view (f c) = open_view c) -> local h (update_conn h f).
Proof.
  intros U Hf e b e' E. injection E as <- <-. split_and!; cbn [field_set eg_flow_table].
  - intros h' U' N. by apply ft_update_get_ne.
  - rewrite ft_update_get_eq. destruct (ft_get _ h); cbn [fmap option_fmap option_map]; [by rewrite Hf|done].
  - apply ft_update_ok. intros c _. specialize (Hf c). unfold open_view in Hf. congruence.
Qed.

Create HintDb local discriminated.
#[export] Hint Resolve local_ret local_get local_ask local_lift local_inc local_inc_by local_tx_calls local_push
  local_wheel_add : local.

Ltac local_step :=
  lazymatch goal with
  | |- local _ (when _ _) => apply local_when
  | |- local _ (update_conn _ _) => apply local_update_conn; [assumption|intros ?; try reflexivity]
  | |- local _ (update _) => apply local_update; intros ?; reflexivity
  | |- local _ (mbind _ _) => apply local_bind; [|intros ?]
  | |- local _ (if ?b then _ else _) => destruct b eqn:?
  | |- local _ (match ?x with _ => _ end) => destruct x eqn:?
  | |- local _ _ => solve [eauto with local]
  end.
Ltac local_walk := repeat (cbv beta zeta; local_step).

Section Connect.
Context `{Platform} `{EngineConfig}.

Lemma local_get_conn h h' : local h (get_conn h').
Proof. apply local_get. Qed.
#[local] Hint Resolve local_get_conn : local.

Lemma local_tx_tcp h bytes seg : local h (tx_tcp_frame bytes seg).
Proof. unfold tx_tcp_frame, tx_submit, burst_one, push_tx_frame. local_walk. Qed.
#[local] Hint Resolve local_tx_tcp : local.

Lemma local_emit_syn h : is_u32 h -> local h (emit_syn h).
Proof.
  intros U. unfold emit_syn, emit_syn_with_flags, build_and_tx. local_walk. by destruct (_ =? 0).
Qed.

Lemma local_arm_syn h now at_ : is_u32 h -> local h (arm_timer h SynRetrans now at_ set_syn_timer).
Proof. intros U. unfold arm_timer. local_walk. Qed.

(** A transition moves the state of that connection alone. *)
Lemma transition_moves h to e a e' c : is_u32 h -> to <> TimeWait -> transition_conn h to e = Some (a, e') ->
  ft_get (eg_flow_table e) h = Some c ->
  beside h (eg_flow_table e) (eg_flow_table e') /\
  exists c', ft_get (eg_flow_table e') h = Some c' /\ open_view c' = open_view (c <| c_state := to |>).
Proof.
  intros U Nt E Hg. destruct (decide (c_state c = to)) as [<-|N].
  - unfold transition_conn, mbind, M_bind, get_conn, get in E. rewrite Hg in E. cbv zeta in E.
    rewrite bool_decide_eq_true_2 in E by done. injection E as _ <-. split; [done|]. by exists c.
  - destruct (transition_conn_run h to e c Hg N) as (e1 & now & ts & Hv & _ & _ & Er). rewrite Er in E.
    unfold core_view in Hv. injection Hv as Ht _ _ _ _ _.
    assert (eg_flow_table e' = ft_update (eg_flow_table e) h (moved now to)) as ->.
    { rewrite <- Ht. unfold push_event in E. destruct (event_push _ _ _) as [[q obs] ops]. by injection E as _ <-. }
    split; [intros h' U' N'; by apply ft_update_get_ne|]. rewrite ft_update_get_eq, Hg. eexists. split; [reflexivity|].
    unfold moved. by rewrite bool_decide_eq_false_2.
Qed.

(** Running [m] and then [k] where [m] is local. *)
Lemma local_then {A B} h (m : M A) (k : A -> M B) e b e' : local h m -> mbind (M := M) k m e = Some (b, e') ->
  exists a e1, stays h e e1 /\ k a e1 = Some (b, e').
Proof. intros Hm E. apply run_bind_inv in E as (a & e1 & E1 & E2). exists a, e1. split; [by eapply Hm|done]. Qed.

Lemma stays_get h e e1 c : stays h e e1 -> ft_get (eg_flow_table e) h = Some c ->
  exists c1, ft_get (eg_flow_table e1) h = Some c1 /\ open_view c1 = open_view c.
Proof.
  intros (_ & V & _) Hg. rewrite Hg in V. destruct (ft_get (eg_flow_table e1) h) as [c1|]; [|done]. exists c1. split; [done|].
  cbn in V. congruence.
Qed.

Lemma beside_trans h t1 t2 t3 : beside h t1 t2 -> beside h t2 t3 -> beside h t1 t3.
Proof. intros B1 B2 h' U N. rewrite B2 by done. by apply B1. Qed.

(** The handshake of a connection just put in the table. *)
Lemma handshake_exact h iss ip e r e' c : is_u32 h -> ft_ok (eg_flow_table e) -> ft_get (eg_flow_table e) h = Some c ->
  start_handshake h iss ip e = Some (r, e') ->
  beside h (eg_flow_table e) (eg_flow_table e') /\
  ((r = Ok h /\ exists c', ft_get (eg_flow_table e') h = Some c' /\
      open_view c' = open_view (c <| c_snd_nxt := wadd32 iss 1 |> <| c_state := SynSent |>)) \/
   (r = Err (PeerUnreachable ip) /\ ft_get (eg_flow_table e') h = None)).
Proof.
  intros U Hok Hg E. unfold start_handshake in E. apply (local_then h) in E as (ok & e1 & S1 & E); [|by apply local_emit_syn].
  destruct (stays_get _ _ _ _ S1 Hg) as (c1 & Hg1 & V1). destruct (negb ok).
  - apply run_bind_inv in E as (? & e2 & E2 & E). injection E as <- <-. unfold remove_conn in E2.
    pose proof (ft_remove_spec _ h (proj2 (proj2 S1) Hok) U) as R. destruct (ft_remove _ h) as [t' o]. destruct R as (_ & _ & R1 & R2 & _).
    injection E2 as _ <-. cbn [field_set eg_flow_table]. split; [|by right].
    eapply beside_trans; [apply S1|]. intros h' U' N. by apply R2.
  - apply (local_then h) in E as (? & e2 & S2 & E); [|apply local_inc].
    destruct (stays_get _ _ _ _ S2 Hg1) as (c2 & Hg2 & V2).
    set (f := fun c : TcpConn => c <| c_snd_nxt := wadd32 iss 1 |> <| c_ws_shift_out := compute_ws_shift_for recv_buffer_bytes |>) in E.
    apply run_bind_inv in E as (? & e3 & E3 & E).
    assert (e3 = e2 <| eg_flow_table ::= fun t => ft_update t h f |>) as E3' by (by injection E3). clear E3.
    assert (Hg3 : ft_get (eg_flow_table e3) h = Some (f c2)).
    { rewrite E3'. cbn [field_set eg_flow_table]. by rewrite ft_update_get_eq, Hg2. }
    assert (B3 : beside h (eg_flow_table e2) (eg_flow_table e3)) by (rewrite E3'; intros h' U' N; by apply ft_update_get_ne).
    apply run_bind_inv in E as (? & e4 & E4 & E).
    destruct (transition_moves h SynSent _ _ _ _ U ltac:(discriminate) E4 Hg3) as (B4 & c4 & Hg4 & V4).
    apply (local_then h) in E as (now & e5 & S5 & E); [|apply local_ask].
    destruct (stays_get _ _ _ _ S5 Hg4) as (c5 & Hg5 & V5).
    apply (local_then h) in E as (? & e6 & S6 & E); [|by apply local_arm_syn].
    destruct (stays_get _ _ _ _ S6 Hg5) as (c6 & Hg6 & V6). injection E as <- <-. split.
    + intros h' U' N. rewrite (proj1 S6), (proj1 S5), B4, B3, (proj1 S2), (proj1 S1) by done. done.
    + left. split; [done|]. exists c6. split; [done|]. rewrite V6, V5, V4.
      assert (open_view c2 = open_view c) as V by congruence. clear -V. unfold open_view, peer_view, f in *. conn_simpl. congruence.
Qed.

(** The new connection: what was asked for, or the default where the option is zero. *)
Record opened (ip port hint : Z) (opts : ConnectOpts) (e : Engine) (c : TcpConn) : Prop := {
  op_state : c_state c = SynSent;
  op_una : c_snd_una c = c_iss c;
  op_nxt : c_snd_nxt c = wadd32 (c_iss c) 1;
  op_source : select_source_ip (co_local_addr opts) local_ip (eg_secondary_local_ips e) = Ok (ft_local_ip (c_four_tuple c));
  op_peer : ft_peer_ip (c_four_tuple c) = ip /\ ft_peer_port (c_four_tuple c) = port;
  op_port : if hint =? 0 then 49152 <= ft_local_port (c_four_tuple c) <= U16_MAX else ft_local_port (c_four_tuple c) = hint;
  op_fresh : lookup_by_tuple (eg_flow_table e) (c_four_tuple c) = None;
  op_floor : c_tlp_pto_min_floor_us c =
    if co_tlp_pto_min_floor_us opts =? 0 then tcp_min_rto_us else co_tlp_pto_min_floor_us opts;
  op_multiplier : c_tlp_pto_srtt_multiplier_x100 c =
    if co_tlp_pto_srtt_multiplier_x100 opts =? 0 then DEFAULT_MULTIPLIER_X100 else co_tlp_pto_srtt_multiplier_x100 opts;
  op_probes : c_tlp_max_consecutive_probes c =
    if co_tlp_max_consecutive_probes opts =? 0 then DEFAULT_MAX_CONSECUTIVE_PROBES else co_tlp_max_consecutive_probes opts
}.

(** Why no connection was opened. *)
Definition refusal (ip : Z) (opts : ConnectOpts) (e : Engine) (err : EngineError) : Prop :=
  err = PeerUnreachable ip \/
  (err = InvalidLocalAddr (co_local_addr opts) /\ co_local_addr opts <> 0 /\ co_local_addr opts <> local_ip /\
     co_local_addr opts ∉ eg_secondary_local_ips e) \/
  (err = TooManyConns /\
     ((exists h c, ft_get (eg_flow_table e) h = Some c /\ ft_peer_ip (c_four_tuple c) = ip) \/
      forall h, 1 <= h <= zlen (ft_slots (eg_flow_table e)) -> is_Some (ft_get (eg_flow_table e) h))).

Lemma select_source_refused req secs err : select_source_ip req local_ip secs = Err err ->
  err = InvalidLocalAddr req /\ req <> 0 /\ req <> local_ip /\ req ∉ secs.
Proof.
  unfold select_source_ip. destruct (req =? 0) eqn:E0; [done|]. destruct (_ || _) eqn:E; [done|]. intros [= <-].
  apply orb_false_iff in E as [E1 E2]. apply not_true_iff_false in E2. breflect. split_and!; try done. intros Hin.
  apply E2, existsb_exists. exists req. split; [by apply list_elem_of_In|]. lia.
Qed.

Lemma next_port_run e p e' : next_ephemeral_port e = Some (p, e') -> 49152 <= p <= U16_MAX /\ eg_flow_table e' = eg_flow_table e.
Proof.
  unfold next_ephemeral_port. intros E. apply run_bind_inv in E as (q & e1 & E1 & E). injection E1 as <- <-. cbv zeta in E.
  apply run_bind_inv in E as (? & e1 & E1 & E). injection E1 as _ <-. injection E as <- <-. split; [|done].
  pose proof (u16_range (eg_last_ephemeral_port e + 1)). destruct (_ <? 49152) eqn:E; breflect; width_lia.
Qed.

Lemma connect_run ip port hint opts e r e' : ft_ok (eg_flow_table e) -> connect_with_opts ip port hint opts e = Some (r, e') ->
  match r with
  | Ok h => is_u32 h /\ ft_get (eg_flow_table e) h = None /\ beside h (eg_flow_table e) (eg_flow_table e') /\
      exists c, ft_get (eg_flow_table e') h = Some c /\ opened ip port hint opts e c
  | Err err => refusal ip opts e err /\
      forall h, is_u32 h -> ft_get (eg_flow_table e') h = ft_get (eg_flow_table e) h
  end.
Proof.
  intros Hok. unfold connect_with_opts. destruct (local_ip =? 0); [intros E; injection E as <- <-; split; [by left|done]|].
  intros E. apply run_bind_inv in E as (gw & e1 & E1 & E). injection E1 as <- <-.
  destruct (bool_decide _); [injection E as <- <-; split; [by left|done]|].
  apply run_bind_inv in E as (secs & e1 & E1 & E). injection E1 as <- <-.
  destruct (select_source_ip _ _ _) as [sel|err] eqn:Es.
  2: { injection E as <- <-. split; [|done]. right. left. by apply select_source_refused. }
  apply run_bind_inv in E as (lport & e1 & E1 & E).
  assert ((if hint =? 0 then 49152 <= lport <= U16_MAX else lport = hint) /\ eg_flow_table e1 = eg_flow_table e) as [Hport Ht].
  { destruct (hint =? 0); cbn [negb] in E1; [by apply next_port_run|]. by injection E1 as <- <-. }
  apply run_bind_inv in E as (now & e2 & E2 & E). injection E2 as <- <-. cbv zeta in E.
  set (t := mkFourTuple _ _ _ _) in E. set (iss := iss_next _ _ _) in E. set (conn := new_client _ _ _ _ _ _ _ _) in E.
  apply run_bind_inv in E as (oh & e3 & E3 & E). unfold insert_conn in E3. cbn [field_set eg_flow_table] in E3. rewrite Ht in E3.
  pose proof (ft_insert_spec (eg_flow_table e) conn Hok) as Hi. destruct (ft_insert _ conn) as [t' o].
  injection E3 as <- <-. destruct o as [h|].
  - destruct Hi as (Hr & Hfree & Hfresh & Hnew & _ & Hb & Hok').
    assert (is_u32 h) as U by (pose proof (fto_size _ Hok); width_lia).
    apply run_bind_inv in E as (? & e4 & E4 & E).
    set (e3 := (e1 <| eg_step ::= S |>) <| eg_flow_table := t' |>) in E4.
    assert (e4 = e3 <| eg_flow_table ::= fun t => ft_update t h (apply_connect_opts opts) |>) as E4' by (by injection E4). clear E4.
    assert (eg_flow_table e3 = t') as Et by done. clearbody e3.
    assert (G4 : ft_get (eg_flow_table e4) h = Some (apply_connect_opts opts conn)).
    { rewrite E4'. cbn [field_set eg_flow_table]. by rewrite ft_update_get_eq, Et, Hnew. }
    assert (B4 : beside h (eg_flow_table e) (eg_flow_table e4)).
    { rewrite E4'. intros h' U' N. cbn [field_set eg_flow_table]. rewrite ft_update_get_ne, Et by done. by apply Hb. }
    assert (O4 : ft_ok (eg_flow_table e4)) by (rewrite E4'; apply ft_update_ok; [done|by rewrite Et]).
    clear E4'.
    apply (local_then h) in E as (? & e5 & S5 & E); [|apply local_when, local_inc].
    apply (local_then h) in E as (? & e6 & S6 & E); [|apply local_when, local_inc].
    pose proof (stays_trans _ _ _ _ S5 S6) as S. destruct (stays_get _ _ _ _ S G4) as (c6 & G6 & V6).
    destruct (handshake_exact h iss ip e6 r e' c6 U (proj2 (proj2 S) O4) G6 E) as (B & [[-> (c' & G & V)]|[-> G]]).
    + split_and!; [done|done| |].
      * intros h' U' N. rewrite B, (proj1 S), B4 by done. done.
      * exists c'. split; [done|]. revert V V6. clear -Hport Es Hfresh. unfold open_view. conn_simpl.
        intros V V6. injection V as V1 V2 V3 V4 V5 V7 V8 V9 _. injection V6 as W1 W2 W3 W4 W5 W7 W8 W9 _.
        assert (c_four_tuple c' = t) as Etup by (transitivity (c_four_tuple c6); [exact V2|exact W2]).
        split; rewrite ?Etup; try done; congruence.
    + split; [by left|]. intros h' U'. destruct (decide (h' = h)) as [->|N]; [by rewrite G|].
      rewrite B, (proj1 S), B4 by done. done.
  - destruct Hi as [-> Hi]. apply run_bind_inv in E as (? & e4 & E4 & E). injection E4 as _ <-. injection E as <- <-.
    split; [|done]. right. right. split; [done|]. destruct Hi as [(h & c0 & G & Et)|Hf]; [left|by right].
    exists h, c0. split; [done|]. by rewrite Et.
Qed.
End Connect.

(** ** Properties *)

(** C14. An active open (connect_with_opts of engine.rs): it always returns.  On success the
    handle was free and now leads to a connection in SYN_SENT with the SYN counted, from the
    source address the options select, to the peer asked for, on the port asked for or an
    ephemeral one, under a 4-tuple no connection had, with the probe options asked for or
    their defaults.  A refusal names one of three reasons (the peer cannot be
    reached, the source address is not the engine's, the table has no room for the
    4-tuple), and gives the slot back.  Either way no other handle is affected. *)
Theorem connect_exact `{Platform} `{EngineConfig} (ip port hint : Z) (opts : ConnectOpts) (e : Engine) :
  config_ok -> engine_ok e ->
  exists r e', connect_with_opts ip port hint opts e = Some (r, e') /\ engine_ok e' /\
    match r with
    | Ok h => is_u32 h /\ ft_get (eg_flow_table e) h = None /\ beside h (eg_flow_table e) (eg_flow_table e') /\
        exists c, ft_get (eg_flow_table e') h = Some c /\ opened ip port hint opts e c
    | Err err => refusal ip opts e err /\
        forall h, is_u32 h -> ft_get (eg_flow_table e') h = ft_get (eg_flow_table e) h
    end.
Proof.
  intros [Hm _ Hr] He. destruct (safe_connect Hm Hr ip port hint opts (fun m => ledger m e) e) as (r & e' & E & He' & _); [by split|].
  exists r, e'. split; [done|]. split; [done|]. apply connect_run; [apply He|done].
Qed.

#[local] Existing Instances sample_platform sample_config.

Definition sample_opts : ConnectOpts := mkConnectOpts false false 0 150 false 0 false 0.

Lemma connect_exact_witness :
  exists e', connect_with_opts 0x0a000002 80 40000 sample_opts (engine_with (ft_new 2)) = Some (Ok 1, e') /\ engine_ok e' /\
    exists c, ft_get (eg_flow_table e') 1 = Some c /\ opened 0x0a000002 80 40000 sample_opts (engine_with (ft_new 2)) c.
Proof.
  destruct (connect_exact 0x0a000002 80 40000 sample_opts (engine_with (ft_new 2)) sample_config_ok engine_fresh_ok)
    as (r & e' & E & He & H).
  assert (r = Ok 1) as ->.
  { apply (f_equal (option_map fst)) in E. vm_compute in E. injection E as <-. reflexivity. }
  exists e'. split; [exact E|]. split; [exact He|]. apply H.
Defined.

(** A second connect on the same port is refused as if the table were full. *)
Example duplicate_reported_full :
  option_map fst ((connect_with_opts 0x0a000002 80 40000 sample_opts ;; connect_with_opts 0x0a000002 80 40000 sample_opts)
    (engine_with (ft_new 2))) = Some (Err TooManyConns).
Proof. vm_compute. reflexivity. Qed.
