(* ===== verification/Inject.v ===== *)
(** * Injected packets: the test-inject build of engine.rs

    That build copies a frame, or a chain of segments, into packets of a pool of its own and
    runs them through the receive path.  [seg_size] is the data room of the pool, [meta] what
    the driver leaves in the descriptor of a fresh packet: the hash and the time stamp. *)

From S2P Require Import Prelude.
From S2P Require Import Bytes.
From S2P Require Import Text.
From S2P Require Import Mbuf.
From S2P Require Import Input.
From S2P Require Import AckBuild.
From S2P Require Import Engine.
From S2P Require Import EngineRx.
From S2P Require Import EngineApi.
From S2P Require Import EngineInv.
From S2P Require Import EngineSafe.
From S2P Require Import EngineStep.
From S2P Require Import EngineLoop.
From S2P Require Import EngineSpec.

Inductive InjectErr :=
  | MempoolExhausted
  | InjFrameTooLarge (frame_len seg_size : Z)
  | EmptyChain.

(** [DPDK_NET_TEST_INJECT_POOL_SIZE] when it is set to a number, else 4096. *)
Definition test_inject_pool_size (var : option text) : Z := default 4096 (s ← var; from_str_radix 10 U32_MAX s).

Section Inject.
Context `{P : Platform} `{EngineConfig}.
Context (seg_size : Z) (meta : MbufId -> Z * Z).

(** The platform once [m] heads a chain. *)
Definition linked (m : MbufId) (links : list (MbufId * Z)) : Platform := {|
  pl_now := pl_now; pl_dispatch_clock := pl_dispatch_clock; pl_alloc_hdr := pl_alloc_hdr; pl_alloc_data := pl_alloc_data;
  pl_alloc_rx := pl_alloc_rx; pl_append := pl_append; pl_adj := pl_adj; pl_chain := pl_chain; pl_burst := pl_burst; pl_mtu := pl_mtu;
  pl_links := fun x => if x =? m then links else pl_links x;
  pl_data_ptr := pl_data_ptr; pl_siphash := pl_siphash; pl_tsc := pl_tsc; pl_tsc_hz := pl_tsc_hz;
  pl_rx_avail := pl_rx_avail; pl_tx_data_avail := pl_tx_data_avail |}.

(** [dispatch_one_rx_mbuf] of a packet with these links. *)
Definition dispatch_injected (bytes : list Z) (ol_flags : Z) (m : MbufId) (links : list (MbufId * Z)) : M Z :=
  @dispatch_one_real_mbuf (linked m links) _ bytes ol_flags (meta m).1 (meta m).2 m.

(** [inject_rx_frame] is the case of no extra flags. *)
Definition inject_rx_frame_with_ol_flags (frame : list Z) (extra_ol_flags : Z) : M (result unit InjectErr) :=
  if seg_size <? zlen frame then mret (Err (InjFrameTooLarge (zlen frame) seg_size)) else
  om ← ask pl_alloc_rx;
  match om with
  | None => mret (Err (A := unit) MempoolExhausted)
  | Some m =>
      appended ← ask pl_append;
      if negb appended then rx_calls [FreeSeg m] ;; mret (Err (InjFrameTooLarge (zlen frame) seg_size)) else
      inc EthRxPkts ;;
      dispatch_injected frame extra_ol_flags m [] ;;
      mret (Ok tt)
  end.

Definition inject_rx_frame (frame : list Z) : M (result unit InjectErr) := inject_rx_frame_with_ol_flags frame 0.

(** One packet per segment; on a failure those already held are freed. *)
Fixpoint fill_segments (segments : list (list Z)) (mbufs : list MbufId) : M (result (list MbufId) InjectErr) :=
  match segments with
  | [] => mret (Ok mbufs)
  | seg :: segments =>
      if seg_size <? zlen seg then rx_calls (map FreeSeg mbufs) ;; mret (Err (InjFrameTooLarge (zlen seg) seg_size)) else
      om ← ask pl_alloc_rx;
      match om with
      | None => rx_calls (map FreeSeg mbufs) ;; mret (Err (A := list MbufId) MempoolExhausted)
      | Some m =>
          appended ← ask pl_append;
          if negb appended then rx_calls (map FreeSeg (m :: mbufs)) ;; mret (Err (InjFrameTooLarge (zlen seg) seg_size)) else
          fill_segments segments (mbufs ++ [m])
      end
  end.

(** The links from the second packet on; false is [-EOVERFLOW]. *)
Fixpoint chain_segments (rest : list MbufId) : M bool :=
  match rest with
  | [] => mret true
  | _ :: rest => ok ← ask pl_chain; if (ok : bool) then chain_segments rest else mret false
  end.

Definition inject_rx_chain (segments : list (list Z)) : M (result unit InjectErr) :=
  match segments with
  | [] => mret (Err (A := unit) EmptyChain)
  | _ =>
      r ← fill_segments segments [];
      match r with
      | Err e => mret (Err e)
      | Ok [] => panic
      | Ok (head :: rest) =>
          ok ← chain_segments rest;
          if negb ok then rx_calls (map FreeSeg (head :: rest)) ;; mret (Err (A := unit) MempoolExhausted) else
          dispatch_injected (concat segments) 0 head (zip rest (map zlen (tail segments))) ;;
          mret (Ok tt)
      end
  end.

(** ** No packet of the pool is lost *)

Definition count_of (m : MbufId) (ids : list MbufId) : Z := zsum (fun s => if s =? m then 1 else 0) ids.

(** [ids] taken from the pool and given back, nothing else changed. *)
Definition gave_back (ids : list MbufId) (e e' : Engine) : Prop :=
  core_view e' = core_view (e <| eg_rx_ops ::= fun l => l ++ map FreeSeg ids |>).

Lemma gave_back_good p L ids e e' : gave_back ids e e' -> good p L e -> good p (fun m => L m + count_of m ids) e'.
Proof.
  intros E He. eapply (good_core p _ (e <| eg_rx_ops ::= fun l => l ++ map FreeSeg ids |>)); [exact E|].
  destruct (rx_calls_good p L (map FreeSeg ids) e He) as ([] & e1 & E1 & H1). injection E1 as <-. eapply good_ledger; [|exact H1].
  intros m. cbv beta. rewrite frees_delta. unfold count_of. lia.
Qed.

Lemma gave_back_nil e e' : core_view e' = core_view e -> gave_back [] e e'.
Proof. intros Hc. unfold gave_back. rewrite Hc. destruct e. unfold core_view. cbn. by rewrite app_nil_r. Qed.

Lemma fill_segments_run segments : forall mbufs e, exists r e', fill_segments segments mbufs e = Some (r, e') /\
  match r with
  | Ok l => exists ids, l = mbufs ++ ids /\ length ids = length segments /\ core_view e' = core_view e
  | Err _ => exists ids, gave_back ids e e'
  end.
Proof.
  induction segments as [|seg segments IH]; intros mbufs e; cbn [fill_segments].
  { eexists _, e. split; [reflexivity|]. exists []. by rewrite app_nil_r. }
  destruct (seg_size <? zlen seg); [eexists _, _; split; [reflexivity|]; by exists mbufs|].
  unfold mbind at 1, M_bind at 1, ask at 1. destruct (pl_alloc_rx (eg_step e)) as [m|]; [|eexists _, _; split; [reflexivity|]; by exists mbufs].
  unfold mbind at 1, M_bind at 1, ask at 1. destruct (pl_append _); cbn [negb]; [|eexists _, _; split; [reflexivity|]; by exists (m :: mbufs)].
  destruct (IH (mbufs ++ [m]) (e <| eg_step ::= S |> <| eg_step ::= S |>)) as (r & e' & E & Hr). exists r, e'. split; [exact E|].
  destruct r as [l|x].
  - destruct Hr as (ids & -> & Hl & Hc). exists (m :: ids). rewrite <- app_assoc. split_and!; [done|cbn; by rewrite Hl|by rewrite Hc].
  - destruct Hr as (ids & Hc). by exists ids.
Qed.

Lemma chain_segments_run rest : forall e, exists ok e', chain_segments rest e = Some (ok, e') /\ core_view e' = core_view e.
Proof.
  induction rest as [|m rest IH]; intros e; cbn [chain_segments]; [by eexists _, e|]. unfold mbind, M_bind, ask.
  destruct (pl_chain (eg_step e)); [|by eexists _, _]. destruct (IH (e <| eg_step ::= S |>)) as (ok & e' & E & Hc). by exists ok, e'.
Qed.

Lemma dispatch_injected_good L bytes ol m links : config_ok -> is_bytes bytes -> zlen bytes < two16 ->
  triple (good None L) (dispatch_injected bytes ol m links) (fun _ => good None (fun x => L x + count_of x (m :: map fst links))).
Proof.
  intros [Hm _ Hr] Hb Hl.
  pose proof (@dispatch_one_good (linked m links) _ Hm Hr L (mkRxPacket bytes ol (meta m).1 (meta m).2 m)) as D.
  assert (Hp : packet_ok (mkRxPacket bytes ol (meta m).1 (meta m).2 m)) by (by split).
  intros e He. destruct (D Hp e He) as (n & e' & E & He'). exists n, e'. split; [exact E|]. eapply good_ledger; [|exact He']. intros x.
  unfold arrives, count_of. cbn [pk_mbuf pl_links linked]. by rewrite Z.eqb_refl.
Qed.

(** Injecting a chain of segments, or a frame (the case of one segment): the engine does not
    panic and stays in order.  On success there was one packet per segment, and each of them
    is released or held by a queue; on any error - a segment longer than the data room, the
    pool exhausted half way, a chain too long - what was taken from the pool is given back and
    nothing else changes. *)
Theorem inject_chain_conserves (segments : list (list Z)) (e : Engine) : config_ok -> engine_ok e ->
  is_bytes (concat segments) -> zlen (concat segments) < two16 ->
  exists r e' ids, inject_rx_chain segments e = Some (r, e') /\ engine_ok e' /\
    (forall m, ledger m e' = ledger m e + count_of m ids) /\
    match r with Ok _ => length ids = length segments | Err _ => gave_back ids e e' end.
Proof.
  intros Hcfg He Hb Hl. assert (Hg : good None (fun m => ledger m e) e) by (by split).
  assert (Hend : forall ids e', gave_back ids e e' -> engine_ok e' /\ forall m, ledger m e' = ledger m e + count_of m ids).
  { intros ids e' Hc. exact (gave_back_good _ _ _ _ _ Hc Hg). }
  destruct segments as [|seg segments].
  { exists (Err EmptyChain), e, []. split; [done|]. destruct (Hend [] e) as [H1 H2]; [by apply gave_back_nil|]. split_and!; [done|done|by apply gave_back_nil]. }
  unfold inject_rx_chain, mbind, M_bind. destruct (fill_segments_run (seg :: segments) [] e) as (r & e1 & -> & Hr).
  destruct r as [l|x]; [|destruct Hr as (ids & Hc); exists (Err x), e1, ids; destruct (Hend _ _ Hc); by split_and!].
  destruct Hr as (ids & -> & Hi & Hc). cbn [app]. destruct ids as [|head rest]; [done|].
  destruct (chain_segments_run rest e1) as (ok & e2 & -> & Hc2). destruct ok; cbn [negb].
  - assert (Hg2 : good None (fun m => ledger m e) e2) by (eapply good_core; [|exact Hg]; congruence).
    destruct (dispatch_injected_good _ (concat (seg :: segments)) 0 head (zip rest (map zlen (tail (seg :: segments)))) Hcfg Hb Hl e2 Hg2) as (n & e3 & -> & H3 & H4).
    exists (Ok tt), e3, (head :: rest). split; [done|]. split; [done|]. split; [|done]. intros m. rewrite H4. cbv beta.
    do 2 f_equal. rewrite fst_zip; [done|]. rewrite length_map. cbn [tail length] in *. lia.
  - destruct (Hend (head :: rest) (e2 <| eg_rx_ops ::= fun l => l ++ map FreeSeg (head :: rest) |>)) as [H1 H2].
    { unfold gave_back. unfold core_view in Hc, Hc2 |- *. cbn [field_set eg_flow_table eg_gateway_mac eg_pmtu eg_events eg_drained eg_rx_ops]. congruence. }
    eexists _, _, (head :: rest). split; [reflexivity|]. split; [done|]. split; [done|].
    unfold gave_back, core_view in *. cbn [field_set eg_flow_table eg_gateway_mac eg_pmtu eg_events eg_drained eg_rx_ops]. congruence.
Qed.

Theorem inject_frame_conserves (frame : list Z) (ol_flags : Z) (e : Engine) : config_ok -> engine_ok e ->
  is_bytes frame -> zlen frame < two16 ->
  exists r e' ids, inject_rx_frame_with_ol_flags frame ol_flags e = Some (r, e') /\ engine_ok e' /\
    (forall m, ledger m e' = ledger m e + count_of m ids) /\
    match r with Ok _ => length ids = 1%nat | Err _ => gave_back ids e e' end.
Proof.
  intros Hcfg He Hb Hl. assert (Hg : good None (fun m => ledger m e) e) by (by split).
  assert (Hend : forall ids e', gave_back ids e e' -> engine_ok e' /\ forall m, ledger m e' = ledger m e + count_of m ids).
  { intros ids e' Hc. exact (gave_back_good _ _ _ _ _ Hc Hg). }
  unfold inject_rx_frame_with_ol_flags. destruct (seg_size <? zlen frame).
  { eexists _, e, []. split; [reflexivity|]. destruct (Hend [] e) as [H1 H2]; [by apply gave_back_nil|]. split_and!; [done|done|by apply gave_back_nil]. }
  unfold mbind at 1, M_bind at 1, ask at 1. destruct (pl_alloc_rx (eg_step e)) as [m|].
  2: { eexists _, _, []. split; [reflexivity|]. destruct (Hend [] (e <| eg_step ::= S |>)) as [H1 H2]; [by apply gave_back_nil|]. split_and!; [done|done|by apply gave_back_nil]. }
  unfold mbind at 1, M_bind at 1, ask at 1. destruct (pl_append _); cbn [negb].
  - unfold mbind, M_bind. match goal with |- context [inc EthRxPkts ?x] => destruct (safe_inc None EthRxPkts (fun m => ledger m e) x (good_core None _ e x eq_refl Hg)) as ([] & e1 & E1 & H1) end.
    rewrite E1.
    destruct (dispatch_injected_good _ frame ol_flags m [] Hcfg Hb Hl e1 H1) as (n & e3 & -> & H3 & H4).
    exists (Ok tt), e3, [m]. split_and!; [done|done|exact H4|done].
  - eexists _, _, [m]. split; [reflexivity|]. destruct (Hend [m] ((e <| eg_step ::= S |> <| eg_step ::= S |>) <| eg_rx_ops ::= fun l => l ++ [FreeSeg m] |>)) as [H1 H2]; [done|].
    split_and!; [done|done|done].
Qed.
End Inject.
