(* ===== verification/Bringup.v ===== *)
(** * Bring-up and tear-down: Engine::new and Drop for Engine of engine.rs

    [engine_create] is [Engine::new]: the validation of the configuration, the memory
    pools, the negotiation of the port's offloads and the port's start, in a monad that
    records every call made on the driver and every counter bumped.  The driver's answers
    are the class [Bringup].  An error frees what was built so far, as the locals of the
    function are dropped.  [engine_drop] is the release of everything an engine holds. *)

From S2P Require Import Prelude.
From S2P Require Import Text.
From S2P Require Import Mbuf.
From S2P Require Import Conn.
From S2P Require Import FlowTable.
From S2P Require Import AckBuild.
From S2P Require Import Iss.
From S2P Require Import ProcFiles.
From S2P Require Import Clock.
From S2P Require Import Nic.
From S2P Require Import Events.
From S2P Require Import Engine.
From S2P Require Import EngineApi.

(** ** Configuration *)

Record CoreConfig := mkCoreConfig {
  cfg_lcore_id : Z;
  cfg_port_id : Z;
  cfg_rx_queue_id : Z;
  cfg_tx_queue_id : Z;
  cfg_rx_ring_size : Z;
  cfg_tx_ring_size : Z;
  cfg_mbuf_data_room : Z;
  cfg_rx_mempool_size : Z;
  cfg_tx_data_mempool_size : Z;
  cfg_tx_hdr_mempool_size : Z;
  cfg_local_ip : Z;
  cfg_secondary_local_ips : list Z;
  cfg_gateway_ip : Z;
  cfg_gateway_mac : list Z;
  cfg_garp_interval_sec : Z;
  cfg_max_connections : Z;
  cfg_recv_buffer_bytes : Z;
  cfg_send_buffer_bytes : Z;
  cfg_tcp_mss : Z;
  cfg_tcp_msl_ms : Z;
  cfg_tcp_nagle : bool;
  cfg_tcp_delayed_ack : bool;
  cfg_cc_mode : Z;
  cfg_tcp_timestamps : bool;
  cfg_tcp_sack : bool;
  cfg_tcp_ecn : bool;
  cfg_tcp_min_rto_us : Z;
  cfg_tcp_initial_rto_us : Z;
  cfg_tcp_max_rto_us : Z;
  cfg_tcp_max_retrans_count : Z;
  cfg_tcp_per_packet_events : bool;
  cfg_event_queue_soft_cap : Z;
  cfg_rtt_histogram_bucket_edges_us : list Z;
  cfg_ena_large_llq_hdr : Z;
  cfg_ena_miss_txc_to_sec : Z
}.

#[export] Instance CoreConfig_eta : Settable CoreConfig := fun c =>
  mkCoreConfig (cfg_lcore_id c) (cfg_port_id c) (cfg_rx_queue_id c) (cfg_tx_queue_id c) (cfg_rx_ring_size c)
    (cfg_tx_ring_size c) (cfg_mbuf_data_room c) (cfg_rx_mempool_size c) (cfg_tx_data_mempool_size c)
    (cfg_tx_hdr_mempool_size c) (cfg_local_ip c) (cfg_secondary_local_ips c) (cfg_gateway_ip c) (cfg_gateway_mac c)
    (cfg_garp_interval_sec c) (cfg_max_connections c) (cfg_recv_buffer_bytes c) (cfg_send_buffer_bytes c)
    (cfg_tcp_mss c) (cfg_tcp_msl_ms c) (cfg_tcp_nagle c) (cfg_tcp_delayed_ack c) (cfg_cc_mode c)
    (cfg_tcp_timestamps c) (cfg_tcp_sack c) (cfg_tcp_ecn c) (cfg_tcp_min_rto_us c) (cfg_tcp_initial_rto_us c)
    (cfg_tcp_max_rto_us c) (cfg_tcp_max_retrans_count c) (cfg_tcp_per_packet_events c) (cfg_event_queue_soft_cap c)
    (cfg_rtt_histogram_bucket_edges_us c) (cfg_ena_large_llq_hdr c) (cfg_ena_miss_txc_to_sec c).

(** [Default for EngineConfig]. *)
Definition config_default : CoreConfig := {|
  cfg_lcore_id := 0; cfg_port_id := 0; cfg_rx_queue_id := 0; cfg_tx_queue_id := 0;
  cfg_rx_ring_size := 512; cfg_tx_ring_size := 512; cfg_mbuf_data_room := 2048;
  cfg_rx_mempool_size := 0; cfg_tx_data_mempool_size := 0; cfg_tx_hdr_mempool_size := 0;
  cfg_local_ip := 0; cfg_secondary_local_ips := []; cfg_gateway_ip := 0; cfg_gateway_mac := replicate 6 0;
  cfg_garp_interval_sec := 0; cfg_max_connections := 16; cfg_recv_buffer_bytes := 256 * 1024;
  cfg_send_buffer_bytes := 256 * 1024; cfg_tcp_mss := 1460; cfg_tcp_msl_ms := 30000;
  cfg_tcp_nagle := false; cfg_tcp_delayed_ack := false; cfg_cc_mode := 0;
  cfg_tcp_timestamps := true; cfg_tcp_sack := true; cfg_tcp_ecn := false;
  cfg_tcp_min_rto_us := 5000; cfg_tcp_initial_rto_us := 5000; cfg_tcp_max_rto_us := 1000000;
  cfg_tcp_max_retrans_count := 15; cfg_tcp_per_packet_events := false; cfg_event_queue_soft_cap := 4096;
  cfg_rtt_histogram_bucket_edges_us := replicate 15 0; cfg_ena_large_llq_hdr := 0; cfg_ena_miss_txc_to_sec := 0
|}.

(** The compile-time features of the crate. *)
Record Features := mkFeatures {
  ft_verify_llq : bool;
  ft_tx_cksum : bool;
  ft_rx_cksum : bool;
  ft_mbuf_fast_free : bool;
  ft_rss_hash : bool;
  ft_rx_timestamp : bool;
  ft_test_server : bool
}.

(** The default build: everything but the server. *)
Definition default_features : Features := mkFeatures true true true true true true false.

(** ** Sizes of the memory pools *)

(** [ceil(buffer / room)]. *)
Definition segments_per_conn (buffer room : Z) : Z := sat_add32 buffer (sat_sub room 1) / Z.max room 1.

Definition rx_mempool_size (c : CoreConfig) : Z :=
  if 0 <? cfg_rx_mempool_size c then cfg_rx_mempool_size c else
  let per_conn := segments_per_conn (cfg_recv_buffer_bytes c) (cfg_mbuf_data_room c) in
  let computed := sat_add32 (sat_mul32 (sat_mul32 4 (cfg_max_connections c)) per_conn) 4096 in
  Z.max computed (sat_mul32 4 (cfg_rx_ring_size c)).

Definition tx_hdr_mempool_size (c : CoreConfig) : Z :=
  if 0 <? cfg_tx_hdr_mempool_size c then cfg_tx_hdr_mempool_size c else 2048.

Definition tx_data_mempool_size (c : CoreConfig) : Z :=
  if 0 <? cfg_tx_data_mempool_size c then cfg_tx_data_mempool_size c else
  let per_conn := segments_per_conn (cfg_send_buffer_bytes c) (cfg_mbuf_data_room c) in
  let computed := sat_add32 (sat_mul32 (sat_mul32 2 (cfg_max_connections c)) per_conn) 8192 in
  Z.max computed (sat_mul32 8 (cfg_tx_ring_size c)).

(** ** Offload bits *)

Definition RTE_ETH_TX_OFFLOAD_IPV4_CKSUM : Z := Z.shiftl 1 1.
Definition RTE_ETH_TX_OFFLOAD_UDP_CKSUM : Z := Z.shiftl 1 2.
Definition RTE_ETH_TX_OFFLOAD_TCP_CKSUM : Z := Z.shiftl 1 3.
Definition RTE_ETH_TX_OFFLOAD_MBUF_FAST_FREE : Z := Z.shiftl 1 14.
Definition RTE_ETH_TX_OFFLOAD_MULTI_SEGS : Z := Z.shiftl 1 15.
Definition RTE_ETH_RX_OFFLOAD_IPV4_CKSUM : Z := Z.shiftl 1 1.
Definition RTE_ETH_RX_OFFLOAD_UDP_CKSUM : Z := Z.shiftl 1 2.
Definition RTE_ETH_RX_OFFLOAD_TCP_CKSUM : Z := Z.shiftl 1 3.
Definition RTE_ETH_RX_OFFLOAD_RSS_HASH : Z := Z.shiftl 1 19.
Definition RTE_ETH_RSS_NONFRAG_IPV4_TCP : Z := Z.shiftl 1 13.
Definition RTE_ETH_RSS_NONFRAG_IPV6_TCP : Z := Z.shiftl 1 19.

(** ** Outside the source *)

Record DevInfo := mkDevInfo {
  di_driver_name : option (list Z);      (* NULL, or the bytes of the C string *)
  di_rx_offload_capa : Z;
  di_tx_offload_capa : Z;
  di_reta_size : Z
}.

(** What is asked of the port: [rte_eth_conf]. *)
Record EthConf := mkEthConf {
  ec_rx_offloads : Z;
  ec_tx_offloads : Z;
  ec_rss_hf : option Z                   (* mq_mode RSS with these hash functions *)
}.

Class Bringup := {
  bu_cpuid_edx : Z;
  bu_pool_create : text -> Z -> bool;                (* rte_pktmbuf_pool_create of a name and a size *)
  bu_dev_info : Z * DevInfo;                         (* rte_eth_dev_info_get *)
  bu_bar_phys : Z;                                   (* the prefetchable BAR *)
  bu_pat_file : option text;                         (* pat_memtype_list *)
  bu_configure : EthConf -> Z * Z;                   (* rte_eth_dev_configure: code and errno *)
  bu_rx_queue_setup : Z * Z;
  bu_tx_queue_setup : Z * Z;
  bu_dev_start : Z * Z;
  bu_llq_verdict : option LlqVerdict;                (* EAL_INIT_VERDICT *)
  bu_ts_dynfield : Z;                                (* rte_mbuf_dynfield_lookup *)
  bu_ts_dynflag : Z;                                 (* rte_mbuf_dynflag_lookup *)
  bu_macaddr : Z * Z * list Z;                       (* code, errno and the address *)
  bu_xstats_probe : Z;
  bu_xstats_fetch : Z * list (list Z);
  bu_urandom : option (list Z);
  bu_urandom2 : option (list Z);
  bu_boot_id : option text;
  bu_now : nat -> Z                                  (* clock::now_ns, per read *)
}.

(** ** Errors and effects *)

Inductive BringupError :=
  | InvalidRtoBounds (min max : Z)
  | NoInvariantTsc
  | Invalid (e : EngineError)
  | MempoolCreate (why : text)
  | PortInfo (port rc : Z)
  | PortConfigure (port errno : Z)
  | RxQueueSetup (port errno : Z)
  | TxQueueSetup (port errno : Z)
  | PortStart (port errno : Z)
  | LlqActivationFailed (port : Z)
  | MacAddrLookup (port errno : Z).

Inductive Offload :=
  | OffMbufFastFree | OffTxIpv4 | OffTxTcp | OffTxUdp | OffRxIpv4 | OffRxTcp | OffRxUdp | OffRssHash | OffLlq
  | OffRxTimestamp.

Inductive Effect :=
  | PoolCreated (name : text) (size : Z)
  | PoolFreed (name : text)
  | CountersBound
  | CountersUnbound
  | Missing (o : Offload)                (* eth.offload_missing_* *)
  | WcMissing                            (* eth.llq_wc_missing *)
  | HeaderOverflowRisk                   (* eth.llq_header_overflow_risk *)
  | Configured (r : EthConf)
  | RxQueueReady
  | TxQueueReady
  | PortStarted
  | PortStopped
  | PortClosed
  | RetaProgrammed (entries : Z).

#[export] Instance EthConf_eq_dec : EqDecision EthConf.
Proof. solve_decision. Defined.
#[export] Instance Offload_eq_dec : EqDecision Offload.
Proof. solve_decision. Defined.
#[export] Instance Effect_eq_dec : EqDecision Effect.
Proof. solve_decision. Defined.

Definition BM (A : Type) : Type := list Effect -> result A BringupError * list Effect.

#[export] Instance BM_ret : MRet BM := fun A a tr => (Ok a, tr).
#[export] Instance BM_bind : MBind BM := fun A C k m tr =>
  match m tr with (Ok a, tr) => k a tr | (Err e, tr) => (Err e, tr) end.

Definition fail {A} (e : BringupError) : BM A := fun tr => (Err e, tr).
Definition effect (x : Effect) : BM unit := fun tr => (Ok tt, tr ++ [x]).
Definition effect_if (b : bool) (x : Effect) : BM unit := if b then effect x else mret tt.

(** What an early return drops: [cleanup] runs when [m] fails. *)
Definition or_drop {A} (cleanup : list Effect) (m : BM A) : BM A :=
  fun tr => match m tr with (Err e, tr) => (Err e, tr ++ cleanup) | r => r end.

(** ** Engine::new *)

Section Operations.
Context `{Bringup} (feat : Features).

(** [Mempool::new_pktmbuf]. *)
Definition new_pktmbuf (name : text) (n_elements : Z) : BM unit :=
  if has_nul name then fail (MempoolCreate (txt "name contains NUL")) else
  if bu_pool_create name n_elements then effect (PoolCreated name n_elements)
  else fail (MempoolCreate (txt "rte_pktmbuf_pool_create returned NULL")).

Definition and_offload_with_miss_counter (requested_bit advertised_mask : Z) (o : Offload) : BM Z :=
  if requested_bit =? 0 then mret 0 else
  if Z.land requested_bit advertised_mask =? 0 then effect (Missing o) ;; mret 0 else
  mret requested_bit.

(** A group of three checksum bits: what is applied and whether IPv4 and TCP both are. *)
Definition cksum_offload (enabled : bool) (ipv4 tcp udp capa : Z) (oi ot ou : Offload) : BM (Z * bool) :=
  if negb enabled then mret (0, false) else
  i ← and_offload_with_miss_counter ipv4 capa oi;
  t ← and_offload_with_miss_counter tcp capa ot;
  u ← and_offload_with_miss_counter udp capa ou;
  mret (Z.lor (Z.lor i t) u, negb (i =? 0) && negb (t =? 0)).

(** The 32-byte copy of the driver's name, NUL-terminated. *)
Definition capture_driver_name (name : option (list Z)) : list Z :=
  match name with
  | None => replicate 32 0
  | Some src => let s := take 31 (c_str src) in s ++ replicate (32 - length s) 0
  end.

Definition WORST_CASE_HEADER : Z := 14 + 20 + 20 + 40.
Definition LLQ_DEFAULT_HEADER_LIMIT : Z := 96.
Definition LLQ_OVERFLOW_MARGIN : Z := 6.

Record PortConfigOutcome := mkPortConfigOutcome {
  po_applied_rx_offloads : Z;
  po_applied_tx_offloads : Z;
  po_tx_cksum_offload_active : bool;
  po_rx_cksum_offload_active : bool;
  po_rss_hash_offload_active : bool;
  po_driver_name : list Z
}.

Definition header_overflow_risk (cfg : CoreConfig) (driver_name : list Z) : bool :=
  is_ena driver_name && (cfg_ena_large_llq_hdr cfg =? 0) &&
  (LLQ_DEFAULT_HEADER_LIMIT <? WORST_CASE_HEADER + LLQ_OVERFLOW_MARGIN).

(** The two warnings about an ENA card. *)
Definition port_warnings (cfg : CoreConfig) (driver_name : list Z) : BM unit :=
  effect_if (0 <? verify_wc_for_ena driver_name bu_bar_phys bu_pat_file) WcMissing ;;
  effect_if (header_overflow_risk cfg driver_name) HeaderOverflowRisk.

(** The request, the driver's answer and the latches. *)
Definition negotiate_offloads (cfg : CoreConfig) (info : DevInfo) (driver_name : list Z) : BM PortConfigOutcome :=
  let multi := if Z.land (di_tx_offload_capa info) RTE_ETH_TX_OFFLOAD_MULTI_SEGS =? 0 then 0
               else RTE_ETH_TX_OFFLOAD_MULTI_SEGS in
  fast ← (if ft_mbuf_fast_free feat
          then and_offload_with_miss_counter RTE_ETH_TX_OFFLOAD_MBUF_FAST_FREE (di_tx_offload_capa info) OffMbufFastFree
          else mret 0);
  tx ← cksum_offload (ft_tx_cksum feat) RTE_ETH_TX_OFFLOAD_IPV4_CKSUM RTE_ETH_TX_OFFLOAD_TCP_CKSUM
         RTE_ETH_TX_OFFLOAD_UDP_CKSUM (di_tx_offload_capa info) OffTxIpv4 OffTxTcp OffTxUdp;
  rx ← cksum_offload (ft_rx_cksum feat) RTE_ETH_RX_OFFLOAD_IPV4_CKSUM RTE_ETH_RX_OFFLOAD_TCP_CKSUM
         RTE_ETH_RX_OFFLOAD_UDP_CKSUM (di_rx_offload_capa info) OffRxIpv4 OffRxTcp OffRxUdp;
  rss ← (if ft_rss_hash feat
         then and_offload_with_miss_counter RTE_ETH_RX_OFFLOAD_RSS_HASH (di_rx_offload_capa info) OffRssHash
         else mret 0);
  let applied_tx := Z.lor (Z.lor multi fast) (fst tx) in
  let applied_rx := Z.lor (fst rx) rss in
  let conf := mkEthConf applied_rx applied_tx
    (if rss =? 0 then None else Some (Z.lor RTE_ETH_RSS_NONFRAG_IPV4_TCP RTE_ETH_RSS_NONFRAG_IPV6_TCP)) in
  let (rc, errno) := bu_configure conf in
  if negb (rc =? 0) then fail (PortConfigure (cfg_port_id cfg) errno) else
  effect (Configured conf) ;;
  mret (mkPortConfigOutcome applied_rx applied_tx (snd tx) (snd rx) (negb (rss =? 0)) driver_name).

Definition configure_port_offloads (cfg : CoreConfig) : BM PortConfigOutcome :=
  let (info_rc, info) := bu_dev_info in
  if negb (info_rc =? 0) then fail (PortInfo (cfg_port_id cfg) info_rc) else
  let driver_name := capture_driver_name (di_driver_name info) in
  port_warnings cfg driver_name ;;
  negotiate_offloads cfg info driver_name.

(** A set-up call of the port: a negative code is an error. *)
Definition port_call (answer : Z * Z) (err : Z -> BringupError) (x : Effect) : BM unit :=
  let (rc, errno) := answer in
  if rc <? 0 then fail (err errno) else effect x.

(** [program_rss_reta_single_queue]: one entry per 64 slots; its failure is tolerated. *)
Definition program_rss_reta_single_queue (reta_size : Z) : BM unit :=
  if reta_size =? 0 then mret tt else effect (RetaProgrammed (div_ceil reta_size 64)).

Definition port_setup (cfg : CoreConfig) : BM PortConfigOutcome :=
  let port := cfg_port_id cfg in
  outcome ← configure_port_offloads cfg;
  port_call bu_rx_queue_setup (RxQueueSetup port) RxQueueReady ;;
  port_call bu_tx_queue_setup (TxQueueSetup port) TxQueueReady ;;
  port_call bu_dev_start (PortStart port) PortStarted ;;
  (if ft_verify_llq feat
   then let (ok, missing) := verify_llq_activation_from_global (po_driver_name outcome) bu_llq_verdict in
        effect_if (0 <? missing) (Missing OffLlq) ;;
        (if ok then mret tt else fail (LlqActivationFailed port))
   else mret tt) ;;
  (if po_rss_hash_offload_active outcome
   then program_rss_reta_single_queue (di_reta_size (snd bu_dev_info)) else mret tt) ;;
  mret outcome.

(** The offset and flag of the receive timestamp, when the driver registered both. *)
Definition rx_timestamp_lookup : BM (option Z * option Z) :=
  if negb (ft_rx_timestamp feat) then mret (None, None) else
  let offset := if 0 <=? bu_ts_dynfield then Some bu_ts_dynfield else None in
  let mask := if 0 <=? bu_ts_dynflag then Some (Z.shiftl 1 bu_ts_dynflag) else None in
  effect_if (match offset, mask with Some _, Some _ => false | _, _ => true end) (Missing OffRxTimestamp) ;;
  mret (offset, mask).

(** [hw_rx_ts_ns]: [dynfield] is the 64-bit field of the packet. *)
Definition hw_rx_ts_ns (ts : option Z * option Z) (ol_flags dynfield : Z) : Z :=
  match ts with
  | (Some _, Some mask) => if negb (Z.land ol_flags mask =? 0) then dynfield else 0
  | _ => 0
  end.

Record Started := mkStarted {
  sd_config : EngineConfig;
  sd_engine : Engine;
  sd_outcome : PortConfigOutcome;
  sd_rx_timestamp : option Z * option Z;
  sd_xstat_map : list (option Z);
  sd_rx_mempool_size : Z;
  sd_tx_hdr_mempool_size : Z;
  sd_tx_data_mempool_size : Z
}.

(** The configuration the running engine reads. *)
Definition running_config (cfg : CoreConfig) (edges mac : list Z) (gen : IssGen) (o : PortConfigOutcome) : EngineConfig := {|
  local_ip := cfg_local_ip cfg;
  gateway_ip := cfg_gateway_ip cfg;
  our_mac := mac;
  garp_interval_sec := cfg_garp_interval_sec cfg;
  recv_buffer_bytes := cfg_recv_buffer_bytes cfg;
  send_buffer_bytes := cfg_send_buffer_bytes cfg;
  tcp_mss := cfg_tcp_mss cfg;
  tcp_msl_ms := cfg_tcp_msl_ms cfg;
  tcp_timestamps := cfg_tcp_timestamps cfg;
  tcp_sack := cfg_tcp_sack cfg;
  tcp_min_rto_us := cfg_tcp_min_rto_us cfg;
  tcp_initial_rto_us := cfg_tcp_initial_rto_us cfg;
  tcp_max_rto_us := cfg_tcp_max_rto_us cfg;
  tcp_max_retrans_count := cfg_tcp_max_retrans_count cfg;
  tcp_per_packet_events := cfg_tcp_per_packet_events cfg;
  rtt_histogram_edges := edges;
  tx_ring_capacity := cfg_tx_ring_size cfg;
  iss_gen := gen;
  rx_cksum_feature := ft_rx_cksum feat;
  rx_cksum_offload_active := po_rx_cksum_offload_active o;
  tx_cksum_feature := ft_tx_cksum feat;
  tx_cksum_offload_active := po_tx_cksum_offload_active o;
  rss_feature := ft_rss_hash feat;
  rss_hash_offload_active := po_rss_hash_offload_active o;
  test_server := ft_test_server feat
|}.

Definition pool_name (prefix : text) (cfg : CoreConfig) : text := prefix ++ show 10 (cfg_lcore_id cfg).

(** The test-server build takes port 65535 for no port at all. *)
Definition virtual_port (cfg : CoreConfig) : bool := ft_test_server feat && (cfg_port_id cfg =? U16_MAX).
Definition no_port : PortConfigOutcome := mkPortConfigOutcome 0 0 false false false (replicate 32 0).
Definition virtual_mac : list Z := [2; 0; 0; 0; 0; 1].

Definition port_mac (cfg : CoreConfig) : BM (list Z) :=
  if virtual_port cfg then mret virtual_mac else
  let '(rc, errno, mac) := bu_macaddr in
  if negb (rc =? 0) then fail (MacAddrLookup (cfg_port_id cfg) errno) else mret mac.

(** The part under the thread's pointer to the counters; [mem] is the pools' memory.  The
    inner [None] is the assertion on the capacity of the event queue. *)
Definition start_port (cfg : CoreConfig) (edges : list Z) (mem : gmap MbufId (list Z)) : BM (option Started) :=
  outcome ← (if virtual_port cfg then mret no_port else port_setup cfg);
  ts ← rx_timestamp_lookup;
  mac ← port_mac cfg;
  let gen := iss_gen_new bu_urandom bu_boot_id bu_urandom2 (bu_now 0) (bu_now 1) in
  mret (e ← engine_new (cfg_max_connections cfg) (cfg_event_queue_soft_cap cfg) (cfg_gateway_mac cfg)
         (cfg_secondary_local_ips cfg) (bu_now 2) mem;
       Some (mkStarted (running_config cfg edges mac gen outcome) e outcome ts
         (resolve_xstat_ids bu_xstats_probe bu_xstats_fetch)
         (rx_mempool_size cfg) (tx_hdr_mempool_size cfg) (tx_data_mempool_size cfg))).

Definition engine_create (cfg : CoreConfig) (mem : gmap MbufId (list Z)) : BM (option Started) :=
  if cfg_tcp_max_rto_us cfg <? cfg_tcp_min_rto_us cfg
  then fail (InvalidRtoBounds (cfg_tcp_min_rto_us cfg) (cfg_tcp_max_rto_us cfg)) else
  if negb (check_invariant_tsc bu_cpuid_edx) then fail NoInvariantTsc else
  match validate_and_default_histogram_edges (cfg_rtt_histogram_bucket_edges_us cfg) with
  | Err e => fail (Invalid e)
  | Ok edges =>
      let rx_mp := pool_name (txt "rx_mp_") cfg in
      let hdr_mp := pool_name (txt "tx_hdr_mp_") cfg in
      let data_mp := pool_name (txt "tx_data_mp_") cfg in
      new_pktmbuf rx_mp (rx_mempool_size cfg) ;;
      or_drop [PoolFreed rx_mp] (
        new_pktmbuf hdr_mp (tx_hdr_mempool_size cfg) ;;
        or_drop [PoolFreed hdr_mp] (
          new_pktmbuf data_mp (tx_data_mempool_size cfg) ;;
          or_drop [CountersUnbound; PoolFreed data_mp] (
            effect CountersBound ;;
            start_port cfg edges mem)))
  end.

End Operations.


(** ** Rules for the monad *)

(** [m] appends effects to the trace, and its result and they satisfy [P]. *)
Definition emits {A} (m : BM A) (P : result A BringupError -> list Effect -> Prop) : Prop :=
  forall tr, exists r l, m tr = (r, tr ++ l) /\ P r l.

Section Rules.
Context {A C : Type}.
Implicit Types (P : result A BringupError -> list Effect -> Prop) (Q : result C BringupError -> list Effect -> Prop).

Lemma emits_weaken (m : BM A) P P' : (forall r l, P r l -> P' r l) -> emits m P -> emits m P'.
Proof. intros H Hm tr. destruct (Hm tr) as (r & l & E & Hp). eauto. Qed.

Lemma emits_ret (a : A) P : P (Ok a) [] -> emits (mret a) P.
Proof. intros H tr. exists (Ok a), []. by rewrite app_nil_r. Qed.

Lemma emits_fail e P : P (Err e) [] -> emits (fail (A := A) e) P.
Proof. intros H tr. exists (Err e), []. by rewrite app_nil_r. Qed.

Lemma emits_bind (m : BM A) (k : A -> BM C) Q :
  emits m (fun r l => match r with
    | Ok a => emits (k a) (fun r' l' => Q r' (l ++ l'))
    | Err e => Q (Err e) l end) ->
  emits (mbind (M := BM) k m) Q.
Proof.
  intros Hm tr. destruct (Hm tr) as ([a|e] & l & E & Hp); unfold mbind, BM_bind; rewrite E.
  - destruct (Hp (tr ++ l)) as (r' & l' & E' & Hq). exists r', (l ++ l'). by rewrite E', app_assoc.
  - by exists (Err e), l.
Qed.

Lemma emits_or_drop cleanup (m : BM A) P :
  emits m (fun r l => match r with Ok a => P (Ok a) l | Err e => P (Err e) (l ++ cleanup) end) ->
  emits (or_drop cleanup m) P.
Proof.
  intros Hm tr. destruct (Hm tr) as ([a|e] & l & E & Hp); unfold or_drop; rewrite E; [by exists (Ok a), l|].
  exists (Err e), (l ++ cleanup). by rewrite app_assoc.
Qed.
End Rules.

Lemma emits_effect x (P : result unit BringupError -> list Effect -> Prop) : P (Ok tt) [x] -> emits (effect x) P.
Proof. intros H tr. by exists (Ok tt), [x]. Qed.

Lemma emits_effect_if (b : bool) x (P : result unit BringupError -> list Effect -> Prop) :
  P (Ok tt) (if b then [x] else []) -> emits (effect_if b x) P.
Proof. destruct b; [apply emits_effect|apply emits_ret]. Qed.

(** ** Negotiation of the offloads *)

(** Every bit of [x] is in the mask. *)
Definition within (x mask : Z) : Prop := forall i, 0 <= i -> Z.testbit x i = true -> Z.testbit mask i = true.

Lemma within_0 mask : within 0 mask.
Proof. intros i _. by rewrite Z.bits_0. Qed.
Lemma within_lor x y mask : within x mask -> within y mask -> within (Z.lor x y) mask.
Proof. intros Hx Hy i Hi. rewrite Z.lor_spec. intros [?|?]%orb_true_iff; auto. Qed.

Lemma land_bit k mask : 0 <= k -> (Z.land (Z.shiftl 1 k) mask =? 0) = negb (Z.testbit mask k).
Proof.
  intros Hk. rewrite Z.land_comm, Z.shiftl_1_l. destruct (Z.testbit mask k) eqn:E; cbn.
  - apply Z.eqb_neq. intros H. apply (f_equal (fun z => Z.testbit z k)) in H.
    rewrite Z.land_spec, Z.pow2_bits_true, E, Z.bits_0 in H by done. done.
  - apply Z.eqb_eq. apply Z.bits_inj'. intros i Hi. rewrite Z.land_spec, Z.bits_0.
    destruct (Z.eq_dec i k) as [->|Hne]; [by rewrite E|]. rewrite Z.pow2_bits_false by lia. by rewrite andb_false_r.
Qed.

(** The bit when the mask has it. *)
Definition granted (k mask : Z) : Z := if Z.testbit mask k then Z.shiftl 1 k else 0.

Lemma granted_within k mask : 0 <= k -> within (granted k mask) mask.
Proof.
  intros Hk. unfold granted. destruct (Z.testbit mask k) eqn:E; [|apply within_0].
  intros i Hi. rewrite Z.shiftl_1_l. destruct (Z.eq_dec i k) as [->|Hne]; [done|]. by rewrite Z.pow2_bits_false by lia.
Qed.

Lemma granted_zero k mask : 0 <= k -> (granted k mask =? 0) = negb (Z.testbit mask k).
Proof.
  intros Hk. unfold granted. destruct (Z.testbit mask k); [|done]. cbn. apply Z.eqb_neq. rewrite Z.shiftl_1_l. lia.
Qed.

Definition missing_if (b : bool) (o : Offload) : list Effect := if b then [] else [Missing o].

Lemma and_offload_emits k mask o P : 0 <= k ->
  P (Ok (granted k mask)) (missing_if (Z.testbit mask k) o) ->
  emits (and_offload_with_miss_counter (Z.shiftl 1 k) mask o) P.
Proof.
  intros Hk Hp. unfold and_offload_with_miss_counter.
  rewrite (proj2 (Z.eqb_neq _ 0)) by (rewrite Z.shiftl_1_l; lia). rewrite land_bit by done.
  unfold granted, missing_if in *. destruct (Z.testbit mask k); cbn [negb].
  - by apply emits_ret.
  - apply emits_bind, emits_effect, emits_ret. done.
Qed.

Section Negotiation.
Context `{Bringup} (feat : Features).

(** The counters a bring-up must bump: the enabled offloads the driver lacks. *)
Definition missing_offloads (info : DevInfo) : list Effect :=
  let tx := di_tx_offload_capa info in
  let rx := di_rx_offload_capa info in
  (if ft_mbuf_fast_free feat then missing_if (Z.testbit tx 14) OffMbufFastFree else []) ++
  (if ft_tx_cksum feat
   then missing_if (Z.testbit tx 1) OffTxIpv4 ++ missing_if (Z.testbit tx 3) OffTxTcp ++ missing_if (Z.testbit tx 2) OffTxUdp
   else []) ++
  (if ft_rx_cksum feat
   then missing_if (Z.testbit rx 1) OffRxIpv4 ++ missing_if (Z.testbit rx 3) OffRxTcp ++ missing_if (Z.testbit rx 2) OffRxUdp
   else []) ++
  (if ft_rss_hash feat then missing_if (Z.testbit rx 19) OffRssHash else []).

Lemma cksum_offload_emits (enabled : bool) capa oi ot ou P :
  P (Ok (if enabled then Z.lor (Z.lor (granted 1 capa) (granted 3 capa)) (granted 2 capa) else 0,
         enabled && Z.testbit capa 1 && Z.testbit capa 3))
    (if enabled then missing_if (Z.testbit capa 1) oi ++ missing_if (Z.testbit capa 3) ot ++ missing_if (Z.testbit capa 2) ou
     else []) ->
  emits (cksum_offload enabled (Z.shiftl 1 1) (Z.shiftl 1 3) (Z.shiftl 1 2) capa oi ot ou) P.
Proof.
  intros Hp. unfold cksum_offload. destruct enabled; cbn [negb andb] in *; [|by apply emits_ret].
  apply emits_bind, and_offload_emits; [lia|]. apply emits_bind, and_offload_emits; [lia|].
  apply emits_bind, and_offload_emits; [lia|]. apply emits_ret.
  rewrite !granted_zero, !negb_involutive by lia. by rewrite app_nil_r.
Qed.

(** What a negotiation that ends well agreed on. *)
Record negotiated (info : DevInfo) (o : PortConfigOutcome) (l : list Effect) : Prop := {
  ng_tx_within : within (po_applied_tx_offloads o) (di_tx_offload_capa info);
  ng_rx_within : within (po_applied_rx_offloads o) (di_rx_offload_capa info);
  ng_tx_cksum : po_tx_cksum_offload_active o =
    ft_tx_cksum feat && Z.testbit (di_tx_offload_capa info) 1 && Z.testbit (di_tx_offload_capa info) 3;
  ng_rx_cksum : po_rx_cksum_offload_active o =
    ft_rx_cksum feat && Z.testbit (di_rx_offload_capa info) 1 && Z.testbit (di_rx_offload_capa info) 3;
  ng_rss : po_rss_hash_offload_active o = ft_rss_hash feat && Z.testbit (di_rx_offload_capa info) 19;
  ng_driver : po_driver_name o = capture_driver_name (di_driver_name info);
  ng_effects : exists warnings rss_hf, (forall x, x ∈ warnings -> x = WcMissing \/ x = HeaderOverflowRisk) /\
    l = warnings ++ missing_offloads info ++
        [Configured (mkEthConf (po_applied_rx_offloads o) (po_applied_tx_offloads o) rss_hf)] /\
    (rss_hf <> None <-> po_rss_hash_offload_active o = true)
}.

(** Effects that touch neither a pool nor the port. *)
Definition is_warning (x : Effect) : bool :=
  match x with Missing _ | WcMissing | HeaderOverflowRisk => true | _ => false end.

Lemma missing_if_warnings b o : forallb is_warning (missing_if b o) = true.
Proof. by destruct b. Qed.

Lemma missing_offloads_warnings info : forallb is_warning (missing_offloads info) = true.
Proof.
  unfold missing_offloads. rewrite !forallb_app.
  destruct (ft_mbuf_fast_free feat), (ft_tx_cksum feat), (ft_rx_cksum feat), (ft_rss_hash feat);
    by rewrite ?forallb_app, ?missing_if_warnings.
Qed.

Lemma configure_emits cfg :
  emits (configure_port_offloads feat cfg) (fun r l =>
    match r with
    | Ok o => negotiated (snd bu_dev_info) o l
    | Err e => (exists rc, e = PortInfo (cfg_port_id cfg) rc \/ e = PortConfigure (cfg_port_id cfg) rc) /\
        forallb is_warning l = true
    end).
Proof.
  unfold configure_port_offloads. destruct bu_dev_info as [info_rc info]. cbn [snd].
  destruct (negb (info_rc =? 0)); [apply emits_fail; split; [eauto|done]|].
  set (name := capture_driver_name _). unfold negotiate_offloads.
  apply emits_bind. unfold port_warnings. apply emits_bind, emits_effect_if, emits_effect_if.
  set (w1 := if (_ : bool) then [WcMissing] else []). set (w2 := if (_ : bool) then [HeaderOverflowRisk] else []).
  set (multi := if (_ : bool) then 0 else RTE_ETH_TX_OFFLOAD_MULTI_SEGS).
  assert (Hmulti : within multi (di_tx_offload_capa info)).
  { subst multi. unfold RTE_ETH_TX_OFFLOAD_MULTI_SEGS. rewrite Z.land_comm, land_bit by lia. destruct (Z.testbit _ 15) eqn:E; cbn [negb]; [|apply within_0].
    intros i Hi Ht. pose proof (granted_within 15 (di_tx_offload_capa info) ltac:(lia) i Hi) as G.
    unfold granted in G. rewrite E in G. auto. }
  assert (Hw : forallb is_warning (w1 ++ w2) = true) by (subst w1 w2; repeat case_match; done).
  assert (Hww : forall x, x ∈ w1 ++ w2 -> x = WcMissing \/ x = HeaderOverflowRisk).
  { subst w1 w2. intros x. repeat case_match; set_solver. }
  clearbody w1 w2 multi. unfold missing_offloads.
  apply emits_bind. apply (emits_weaken _ (fun r l => r = Ok (if ft_mbuf_fast_free feat then granted 14 (di_tx_offload_capa info) else 0) /\
    l = (if ft_mbuf_fast_free feat then missing_if (Z.testbit (di_tx_offload_capa info) 14) OffMbufFastFree else []))).
  2: { destruct (ft_mbuf_fast_free feat); [by apply and_offload_emits|by apply emits_ret]. }
  intros r l [-> ->].
  apply emits_bind, cksum_offload_emits. apply emits_bind, cksum_offload_emits.
  apply emits_bind. apply (emits_weaken _ (fun r l => r = Ok (if ft_rss_hash feat then granted 19 (di_rx_offload_capa info) else 0) /\
    l = (if ft_rss_hash feat then missing_if (Z.testbit (di_rx_offload_capa info) 19) OffRssHash else []))).
  2: { destruct (ft_rss_hash feat); [by apply and_offload_emits|by apply emits_ret]. }
  intros r l [-> ->]. cbn [fst snd].
  set (conf := mkEthConf _ _ _). destruct (bu_configure conf) as [rc errno] eqn:Ec.
  pose proof (missing_offloads_warnings info) as Hm. unfold missing_offloads in Hm.
  destruct (negb (rc =? 0)).
  - apply emits_fail. split; [eauto|]. rewrite !app_nil_r, !app_assoc. rewrite <- !app_assoc, (app_assoc w1 w2).
    by rewrite forallb_app, Hw, Hm.
  - apply emits_bind, emits_effect, emits_ret.
    split; cbn [po_applied_rx_offloads po_applied_tx_offloads po_tx_cksum_offload_active po_rx_cksum_offload_active
      po_rss_hash_offload_active po_driver_name].
    + repeat apply within_lor; try done; [destruct (ft_mbuf_fast_free feat)|destruct (ft_tx_cksum feat)];
        repeat apply within_lor; (apply within_0 || apply granted_within; lia).
    + repeat apply within_lor; [destruct (ft_rx_cksum feat)|destruct (ft_rss_hash feat)];
        repeat apply within_lor; (apply within_0 || apply granted_within; lia).
    + done.
    + done.
    + destruct (ft_rss_hash feat); [|done]. by rewrite granted_zero, negb_involutive by lia.
    + done.
    + exists (w1 ++ w2), (ec_rss_hf conf). split; [done|]. split.
      * unfold missing_offloads. by rewrite <- !app_assoc.
      * subst conf. cbn [ec_rss_hf]. by destruct (_ =? 0).
Qed.
End Negotiation.

(** ** What a bring-up leaves behind *)

Definition created (tr : list Effect) : list (text * Z) :=
  omap (fun x => match x with PoolCreated n s => Some (n, s) | _ => None end) tr.
Definition freed (tr : list Effect) : list text := omap (fun x => match x with PoolFreed n => Some n | _ => None end) tr.
Definition port_started (tr : list Effect) : bool := existsb (fun x => match x with PortStarted => true | _ => false end) tr.
Definition port_stopped (tr : list Effect) : bool := existsb (fun x => match x with PortStopped => true | _ => false end) tr.
Definition bound (tr : list Effect) : bool := existsb (fun x => match x with CountersBound => true | _ => false end) tr.
Definition unbound (tr : list Effect) : bool := existsb (fun x => match x with CountersUnbound => true | _ => false end) tr.

(** Effects on the port and on counters only. *)
Definition port_effect (x : Effect) : bool :=
  match x with PoolCreated _ _ | PoolFreed _ | CountersBound | CountersUnbound | PortStopped | PortClosed => false | _ => true end.

Lemma created_app a b : created (a ++ b) = created a ++ created b.
Proof. apply omap_app. Qed.
Lemma freed_app a b : freed (a ++ b) = freed a ++ freed b.
Proof. apply omap_app. Qed.

Lemma port_effects_inert l : forallb port_effect l = true ->
  created l = [] /\ freed l = [] /\ bound l = false /\ unbound l = false /\ port_stopped l = false.
Proof.
  induction l as [|x l IH]; [done|]. cbn [forallb]. intros [Hx Hl]%andb_true_iff. destruct (IH Hl) as (E1 & E2 & E3 & E4 & E5).
  unfold created, freed, bound, unbound, port_stopped in *. cbn [omap list_omap existsb].
  destruct x; try discriminate Hx; by rewrite ?E1, ?E2, ?E3, ?E4, ?E5.
Qed.

Lemma warnings_inert l : forallb is_warning l = true -> forallb port_effect l = true /\ port_started l = false.
Proof.
  induction l as [|x l IH]; [done|]. cbn [forallb]. intros [Hx Hl]%andb_true_iff. destruct (IH Hl) as [E1 E2].
  unfold port_started in *. cbn [existsb]. rewrite E1, E2. by destruct x.
Qed.

Section Leftovers.
Context `{Bringup} (feat : Features).

Lemma negotiated_inert info o l : negotiated feat info o l -> forallb port_effect l = true /\ port_started l = false.
Proof.
  intros [_ _ _ _ _ _ (ws & hf & Hw & -> & _)].
  assert (forallb is_warning ws = true) as Hws.
  { apply forallb_forall. intros x Hx%list_elem_of_In. by destruct (Hw x Hx) as [-> | ->]. }
  destruct (warnings_inert _ Hws) as [E1 E2].
  destruct (warnings_inert _ (missing_offloads_warnings feat info)) as [E3 E4].
  unfold port_started in *. rewrite !forallb_app, !existsb_app, E1, E2, E3, E4. done.
Qed.

(** The port is started at the end of a set-up, and before a failure only when it is the
    verification of the queues that failed. *)
Lemma port_setup_emits cfg :
  emits (port_setup feat cfg) (fun r l => forallb port_effect l = true /\
    match r with
    | Ok o => port_started l = true /\ exists l0, negotiated feat (snd bu_dev_info) o l0
    | Err e => (forall errno, e <> MacAddrLookup (cfg_port_id cfg) errno) /\
        (port_started l = true <-> e = LlqActivationFailed (cfg_port_id cfg))
    end).
Proof.
  unfold port_setup. apply emits_bind. eapply emits_weaken; [|apply configure_emits].
  intros [o|e] l0 H0.
  2: { destruct H0 as [(rc & [-> | ->]) Hw]; destruct (warnings_inert _ Hw) as [E1 E2]; (split; [done|]);
       rewrite E2; by repeat split. }
  destruct (negotiated_inert _ _ _ H0) as [E1 E2].
  assert (Hcall : forall {C} answer err x (k : BM C) (Q : result C BringupError -> list Effect -> Prop),
    (forall rc, Q (Err (err rc)) []) -> emits k (fun r l => Q r (x :: l)) ->
    emits (port_call answer err x ;; k) Q).
  { intros C [rc errno] err x k Q He Hk. apply emits_bind. unfold port_call.
    destruct (rc <? 0); [by apply emits_fail|apply emits_effect]. exact Hk. }
  apply Hcall; [intros rc; rewrite app_nil_r, E1, E2; by repeat split|].
  apply Hcall; [intros rc; unfold port_started in *; rewrite forallb_app, existsb_app, E1, E2; by repeat split|].
  apply Hcall; [intros rc; unfold port_started in *; rewrite forallb_app, existsb_app, E1, E2; by repeat split|].
  apply emits_bind. destruct (ft_verify_llq feat).
  - destruct (verify_llq_activation_from_global _ _) as [ok n]. apply emits_bind, emits_effect_if.
    destruct ok; [apply emits_ret|apply emits_fail].
    + apply emits_bind. destruct (po_rss_hash_offload_active o); [unfold program_rss_reta_single_queue; destruct (_ =? 0)|];
        (apply emits_ret || apply emits_effect); apply emits_ret; unfold port_started in *;
        rewrite !forallb_app, !existsb_app, E1, E2; destruct (0 <? n); cbn; split_and!; eauto.
    + unfold port_started in *. rewrite !forallb_app, !existsb_app, E1, E2. by destruct (0 <? n).
  - apply emits_ret. apply emits_bind. destruct (po_rss_hash_offload_active o); [unfold program_rss_reta_single_queue; destruct (_ =? 0)|];
        (apply emits_ret || apply emits_effect); apply emits_ret; unfold port_started in *;
        rewrite !forallb_app, !existsb_app, E1, E2; cbn; split_and!; eauto.
Qed.
End Leftovers.

Section Outcome.
Context `{Bringup} (feat : Features).
Context (cfg : CoreConfig) (mem : gmap MbufId (list Z)).

(** A late error: the port has been started. *)
Definition late_error (e : BringupError) : Prop :=
  e = LlqActivationFailed (cfg_port_id cfg) \/ exists errno, e = MacAddrLookup (cfg_port_id cfg) errno.

Definition wanted_pools : list (text * Z) :=
  [(pool_name (txt "rx_mp_") cfg, rx_mempool_size cfg); (pool_name (txt "tx_hdr_mp_") cfg, tx_hdr_mempool_size cfg);
   (pool_name (txt "tx_data_mp_") cfg, tx_data_mempool_size cfg)].

(** What the engine that comes out of a bring-up is. *)
Definition started_from (edges : list Z) (st : Started) : Prop :=
  exists o mac gen l0,
    sd_config st = running_config feat cfg edges mac gen o /\
    (if virtual_port feat cfg then o = no_port /\ mac = virtual_mac
     else negotiated feat (snd bu_dev_info) o l0 /\ mac = snd bu_macaddr) /\
    sd_outcome st = o /\
    engine_new (cfg_max_connections cfg) (cfg_event_queue_soft_cap cfg) (cfg_gateway_mac cfg)
      (cfg_secondary_local_ips cfg) (bu_now 2) mem = Some (sd_engine st).

Lemma start_port_emits edges :
  emits (start_port feat cfg edges mem) (fun r l => forallb port_effect l = true /\
    match r with
    | Ok r => port_started l = negb (virtual_port feat cfg) /\
        match r with Some st => started_from edges st | None => with_cap (cfg_event_queue_soft_cap cfg) = None end
    | Err e => port_started l = true <-> late_error e
    end).
Proof.
  unfold start_port. apply emits_bind.
  apply (emits_weaken _ (fun r l => forallb port_effect l = true /\
    match r with
    | Ok o => port_started l = negb (virtual_port feat cfg) /\
        exists l0, if virtual_port feat cfg then o = no_port else negotiated feat (snd bu_dev_info) o l0
    | Err e => port_started l = true <-> late_error e
    end)).
  2: { destruct (virtual_port feat cfg); [apply emits_ret; split_and!; [done|done|by exists []]|].
       eapply emits_weaken; [|apply port_setup_emits]. intros [o|e] l0 [E1 H0]; (split; [done|]); [exact H0|].
       destruct H0 as [Hm H0]. rewrite H0. unfold late_error. split; [by left|].
       intros [?|[errno ->]]; [done|]. by destruct (Hm errno). }
  intros [o|e] l0 [E1 H0]; [|by split].
  destruct H0 as [E2 (l1 & Hn)]. unfold port_started in *. apply emits_bind.
  apply (emits_weaken _ (fun r l => (exists ts, r = Ok ts) /\ forallb port_effect l = true /\ port_started l = false)).
  2: { unfold rx_timestamp_lookup. destruct (negb (ft_rx_timestamp feat)); [apply emits_ret; eauto|].
       apply emits_bind, emits_effect_if, emits_ret. split; [eauto|]. unfold port_started; split; repeat case_match; done. }
  intros r l2 [[ts ->] [E3 E4]]. unfold port_started in E4. apply emits_bind. unfold port_mac.
  assert (Hret : forall mac, mac = (if virtual_port feat cfg then virtual_mac else snd bu_macaddr) ->
    emits (mret (M := BM) mac) (fun r l => match r with
      | Ok mac => l = [] /\ mac = if virtual_port feat cfg then virtual_mac else snd bu_macaddr
      | Err e => l = [] /\ virtual_port feat cfg = false /\ late_error e end)) by (intros mac ->; by apply emits_ret).
  eapply emits_weaken; [|instantiate (1 := fun r l => match r with
      | Ok mac => l = [] /\ mac = if virtual_port feat cfg then virtual_mac else snd bu_macaddr
      | Err e => l = [] /\ virtual_port feat cfg = false /\ late_error e end)].
  2: { destruct (virtual_port feat cfg) eqn:Ev; [by apply Hret|]. destruct bu_macaddr as [[rc errno] mac] eqn:Em.
       destruct (negb (rc =? 0)); [apply emits_fail; split_and!; [done|done|right; eauto]|by apply Hret]. }
  intros [mac|e] l [-> Hmac].
  - apply emits_ret. rewrite !forallb_app, !existsb_app, E1, E2, E3, E4. split; [done|]. split; [by destruct (virtual_port _ _)|].
    unfold engine_new. destruct (with_cap _) as [q|] eqn:Eq; cbn [mbind option_bind]; [|done].
    exists o, mac, (iss_gen_new bu_urandom bu_boot_id bu_urandom2 (bu_now 0) (bu_now 1)), l1.
    split; [done|]. split; [by destruct (virtual_port feat cfg)|]. split; [done|]. unfold engine_new. by rewrite Eq.
  - destruct Hmac as [Ev Hl]. rewrite !forallb_app, !existsb_app, E1, E2, E3, E4, Ev. by split.
Qed.

Lemma new_pktmbuf_emits name n :
  emits (new_pktmbuf name n) (fun r l =>
    match r with Ok _ => l = [PoolCreated name n] | Err e => l = [] /\ exists why, e = MempoolCreate why end).
Proof.
  unfold new_pktmbuf. destruct (has_nul name); [apply emits_fail; eauto|].
  destruct (bu_pool_create name n); [by apply emits_effect|apply emits_fail; eauto].
Qed.

(** What is left behind by an outcome of [Engine::new]. *)
Definition left_behind (r : result (option Started) BringupError) (tr : list Effect) : Prop :=
  match r with
  | Ok r => created tr = wanted_pools /\ freed tr = [] /\ bound tr = true /\ unbound tr = false /\ port_started tr = negb (virtual_port feat cfg) /\
      match r with
      | Some st => exists edges, validate_and_default_histogram_edges (cfg_rtt_histogram_bucket_edges_us cfg) = Ok edges /\
          cfg_tcp_min_rto_us cfg <= cfg_tcp_max_rto_us cfg /\ started_from edges st
      | None => with_cap (cfg_event_queue_soft_cap cfg) = None
      end
  | Err e => freed tr = rev (fst <$> created tr) /\ bound tr = unbound tr /\
      (port_started tr = true <-> late_error e) /\ port_stopped tr = false
  end.

Lemma early_error e : (exists why, e = MempoolCreate why) -> false = true <-> late_error e.
Proof. intros [why ->]. split; [done|]. intros [?|[? ?]]; done. Qed.

Lemma engine_create_emits : emits (engine_create feat cfg mem) left_behind.
Proof.
  unfold engine_create. destruct (_ <? _) eqn:Er; breflect.
  { apply emits_fail. split; [done|]. split; [done|]. split; [|done]. split; [done|]. by intros [?|[? ?]]. }
  destruct (negb (check_invariant_tsc _)); [apply emits_fail; split; [done|]; split; [done|]; split; [|done]; split; [done|]; by intros [?|[? ?]]|].
  destruct (validate_and_default_histogram_edges _) as [edges|e] eqn:Ee;
    [|apply emits_fail; split; [done|]; split; [done|]; split; [|done]; split; [done|]; by intros [?|[? ?]]].
  set (rx := pool_name (txt "rx_mp_") cfg). set (hdr := pool_name (txt "tx_hdr_mp_") cfg).
  set (data := pool_name (txt "tx_data_mp_") cfg).
  set (n1 := rx_mempool_size cfg). set (n2 := tx_hdr_mempool_size cfg). set (n3 := tx_data_mempool_size cfg).
  assert (wanted_pools = [(rx, n1); (hdr, n2); (data, n3)]) as Hw by done. clearbody rx hdr data n1 n2 n3.
  apply emits_bind. eapply emits_weaken; [|apply new_pktmbuf_emits]. intros [_|e] l Hl;
    [subst l|destruct Hl as [-> Hl]; split; [done|split; [done|split; [by apply early_error|done]]]].
  apply emits_or_drop, emits_bind. eapply emits_weaken; [|apply new_pktmbuf_emits]. intros [_|e] l Hl;
    [subst l|destruct Hl as [-> Hl]; split; [done|split; [done|split; [by apply early_error|done]]]].
  apply emits_or_drop, emits_bind. eapply emits_weaken; [|apply new_pktmbuf_emits]. intros [_|e] l Hl;
    [subst l|destruct Hl as [-> Hl]; split; [done|split; [done|split; [by apply early_error|done]]]].
  apply emits_or_drop, emits_bind, emits_effect. eapply emits_weaken; [|apply start_port_emits].
  intros r l [Hp Hr]. destruct (port_effects_inert l Hp) as (C1 & C2 & C3 & C4 & C5).
  unfold left_behind, bound, unbound, port_started, port_stopped in *. destruct r as [r|e];
    rewrite ?created_app, ?freed_app, ?existsb_app, ?C1, ?C2, ?C3, ?C4; cbn.
  - destruct Hr as [Hs Hr]. rewrite Hs, Hw. split_and!; try done. destruct r as [st|]; [eauto|done].
  - rewrite ?existsb_app, ?C3, ?C4, ?C5, !orb_false_r. split_and!; [done|done|exact Hr|done].
Qed.
End Outcome.

(** ** Properties *)

(** C29. Failed bring-up (Engine::new of engine.rs): whatever the driver answers, an error
    frees every memory pool created so far, in the reverse order, and unbinds the counters
    exactly when it had bound them.  The port has been started exactly when the error is the
    verification of the low-latency queues or the lookup of the address, and no error stops it: in
    those two cases the port keeps running on freed pools. *)
Theorem engine_create_error `{Bringup} (feat : Features) (cfg : CoreConfig) (mem : gmap MbufId (list Z))
    (e : BringupError) (tr : list Effect) :
  engine_create feat cfg mem [] = (Err e, tr) ->
  freed tr = rev (fst <$> created tr) /\ bound tr = unbound tr /\
  (port_started tr = true <-> late_error cfg e) /\ port_stopped tr = false.
Proof.
  intros E. destruct (engine_create_emits feat cfg mem []) as (r & l & E' & Hl). rewrite E in E'.
  injection E' as <- ->. exact Hl.
Qed.

(** Offload negotiation (configure_port_offloads of engine.rs): a negotiation that ends
    well requests no bit the driver did not advertise, turns the checksum paths on exactly
    when the build has the feature and the driver advertises both the IPv4 and the TCP bit,
    the RSS path exactly when it is built and advertised, requests RSS hashing exactly then,
    and bumps one counter per enabled offload the driver lacks, in order, before the port is
    configured with the masks it reports. *)
Theorem offloads_negotiated `{Bringup} (feat : Features) (cfg : CoreConfig) (o : PortConfigOutcome) (tr tr' : list Effect) :
  configure_port_offloads feat cfg tr = (Ok o, tr') ->
  exists l, tr' = tr ++ l /\ negotiated feat (snd bu_dev_info) o l.
Proof.
  intros E. destruct (configure_emits feat cfg tr) as (r & l & E' & Hl). rewrite E in E'.
  injection E' as <- ->. by exists l.
Qed.

Lemma segments_cover buffer room :
  is_u32 buffer -> 0 <= room -> buffer + room <= two32 ->
  0 <= segments_per_conn buffer room /\ buffer <= segments_per_conn buffer room * Z.max room 1.
Proof.
  intros [Hb Hbu] Hr Hs. unfold segments_per_conn, sat_sub, sat_add32.
  rewrite Z.min_r by width_lia. set (m := Z.max room 1). replace (Z.max 0 (room - 1)) with (m - 1) by lia.
  pose proof (Z.div_mod (buffer + (m - 1)) m ltac:(lia)) as Hd. pose proof (Z.mod_pos_bound (buffer + (m - 1)) m ltac:(lia)).
  split; [apply Z.div_pos; lia|]. lia.
Qed.

(** The shape of both formulas. *)
Lemma pool_formula k conns buffer room slack k' ring n :
  0 < k <= 8 -> is_u32 conns -> is_u32 buffer -> 0 <= room -> buffer + room <= two32 -> 0 <= slack < 16384 -> 0 < k' <= 8 ->
  is_u16 ring ->
  n = Z.max (sat_add32 (sat_mul32 (sat_mul32 k conns) (segments_per_conn buffer room)) slack) (sat_mul32 k' ring) ->
  is_u32 n /\ k' * ring <= n /\ (n = U32_MAX \/ k * conns * buffer <= (n - slack) * Z.max room 1).
Proof.
  intros Hk Hc Hb Hr Hs Hsl Hk' Hring ->. destruct (segments_cover buffer room Hb Hr Hs) as [Hp0 Hp].
  set (p := segments_per_conn buffer room) in *. set (m := Z.max room 1) in *.
  assert (1 <= m) by (subst m; lia). unfold is_u32, is_u16 in *.
  assert (k' * ring <= 8 * 65535) by (widths; nia).
  assert (0 <= k * conns) by nia.
  unfold sat_add32, sat_mul32. rewrite (Z.min_r U32_MAX (k' * ring)) by width_lia.
  set (a := Z.min U32_MAX (k * conns)). assert (0 <= a <= U32_MAX) by (subst a; width_lia).
  assert (0 <= a * p) by nia. set (b := Z.min U32_MAX (a * p)). assert (0 <= b <= U32_MAX) by (subst b; width_lia).
  split; [width_lia|]. split; [lia|].
  destruct (Z.le_gt_cases U32_MAX (b + slack)) as [Hsat|Hfit].
  { left. rewrite Z.min_l by done. width_lia. }
  right. rewrite Z.min_r by lia.
  assert (b = a * p) as Eb by (subst b; lia).
  assert (k * conns * buffer <= b * m) as Hmain.
  { destruct (Z.eq_dec p 0) as [Ep|Ep].
    { rewrite Ep in Hp. assert (buffer = 0) as -> by lia. nia. }
    assert (a = k * conns) as Ea by (subst a; nia). rewrite Eb, Ea. nia. }
  nia.
Qed.

(** Sizes of the packet pools (Engine::new of engine.rs): unless the caller sets them, the
    receive pool has four buffers per descriptor of the receive ring and, beside 4096
    spare ones, room for four times the receive buffers of all connections; the data pool
    has eight per descriptor of the send ring and, beside 8192 spare ones, twice the send
    buffers; neither wraps for any configuration, a size that does not fit being the largest one. *)
Theorem mempools_cover_buffers (c : CoreConfig) :
  is_u32 (cfg_max_connections c) -> is_u16 (cfg_rx_ring_size c) -> is_u16 (cfg_tx_ring_size c) ->
  is_u16 (cfg_mbuf_data_room c) ->
  is_u32 (cfg_recv_buffer_bytes c) -> cfg_recv_buffer_bytes c + cfg_mbuf_data_room c <= two32 ->
  is_u32 (cfg_send_buffer_bytes c) -> cfg_send_buffer_bytes c + cfg_mbuf_data_room c <= two32 ->
  cfg_rx_mempool_size c = 0 -> cfg_tx_data_mempool_size c = 0 ->
  let room := Z.max (cfg_mbuf_data_room c) 1 in
  let rx := rx_mempool_size c in
  let tx := tx_data_mempool_size c in
  is_u32 rx /\ 4 * cfg_rx_ring_size c <= rx /\
  (rx = U32_MAX \/ 4 * cfg_max_connections c * cfg_recv_buffer_bytes c <= (rx - 4096) * room) /\
  is_u32 tx /\ 8 * cfg_tx_ring_size c <= tx /\
  (tx = U32_MAX \/ 2 * cfg_max_connections c * cfg_send_buffer_bytes c <= (tx - 8192) * room).
Proof.
  intros Hc Hr Ht [Hm _] Hb Hbs Hs Hss Erx Etx room rx tx.
  destruct (pool_formula 4 (cfg_max_connections c) (cfg_recv_buffer_bytes c) (cfg_mbuf_data_room c) 4096 4
    (cfg_rx_ring_size c) rx ltac:(lia) Hc Hb Hm Hbs ltac:(lia) ltac:(lia) Hr) as (H1 & H2 & H3).
  { subst rx. unfold rx_mempool_size. by rewrite Erx. }
  destruct (pool_formula 2 (cfg_max_connections c) (cfg_send_buffer_bytes c) (cfg_mbuf_data_room c) 8192 8
    (cfg_tx_ring_size c) tx ltac:(lia) Hc Hs Hm Hss ltac:(lia) ltac:(lia) Ht) as (H4 & H5 & H6).
  { subst tx. unfold tx_data_mempool_size. by rewrite Etx. }
  done.
Qed.

(** The default configuration: 12288 buffers in each, three times the 4096 of old. *)
Lemma default_mempools :
  rx_mempool_size config_default = 12288 /\ tx_data_mempool_size config_default = 12288 /\
  tx_hdr_mempool_size config_default = 2048.
Proof. done. Qed.

Lemma mempools_cover_buffers_witness :
  4 * 16 * 262144 <= (rx_mempool_size config_default - 4096) * 2048 /\
  2 * 16 * 262144 <= (tx_data_mempool_size config_default - 8192) * 2048.
Proof.
  pose proof (mempools_cover_buffers config_default) as H.
  do 10 specialize (H ltac:(first [reflexivity | vm_compute; discriminate | split; vm_compute; [discriminate|reflexivity]])).
  destruct H as (_ & _ & H1 & _ & _ & H2).
  split; [destruct H1 as [E|H1]; [vm_compute in E; discriminate E|exact H1]|
    destruct H2 as [E|H2]; [vm_compute in E; discriminate E|exact H2]].
Defined.

(** ** A concrete driver: an ENA card without receive hashing whose address cannot be read *)

Definition sample_info : DevInfo := mkDevInfo (Some (txt "net_ena")) (2 + 8) (2 + 8 + 16384 + 32768) 128.

Definition sample_bringup (mac_rc : Z) : Bringup := {|
  bu_cpuid_edx := 256;
  bu_pool_create _ _ := true;
  bu_dev_info := (0, sample_info);
  bu_bar_phys := 0xfe900000;
  bu_pat_file := Some (pat_file sample_pat);
  bu_configure _ := (0, 0);
  bu_rx_queue_setup := (0, 0);
  bu_tx_queue_setup := (0, 0);
  bu_dev_start := (0, 0);
  bu_llq_verdict := Some (mkLlqVerdict true false true);
  bu_ts_dynfield := -2;
  bu_ts_dynflag := -2;
  bu_macaddr := (mac_rc, 19, [2; 0; 0; 0; 0; 1]);
  bu_xstats_probe := 0;
  bu_xstats_fetch := (0, []);
  bu_urandom := Some (replicate 16 7);
  bu_urandom2 := None;
  bu_boot_id := None;
  bu_now n := Z.of_nat n
|}.

(** Every pool is freed and the port was started, but nothing stopped it. *)
Lemma engine_create_error_witness :
  exists tr, engine_create (H := sample_bringup (-1)) default_features config_default ∅ [] = (Err (MacAddrLookup 0 19), tr) /\
    freed tr = rev (fst <$> created tr) /\ length (freed tr) = 3%nat /\ port_started tr = true /\ port_stopped tr = false.
Proof.
  eexists. split; [vm_compute; reflexivity|].
  pose proof (engine_create_error (H := sample_bringup (-1)) default_features config_default ∅ (MacAddrLookup 0 19) _
    ltac:(vm_compute; reflexivity)) as (H1 & _ & _ & H4).
  split_and!; [exact H1|vm_compute; reflexivity|vm_compute; reflexivity|exact H4].
Defined.

(** The checksum bits and both segment features are granted, the UDP bits and the hash are not. *)
Lemma offloads_negotiated_witness :
  exists o tr', configure_port_offloads (H := sample_bringup 0) default_features config_default [] = (Ok o, tr') /\
    po_tx_cksum_offload_active o = true /\ po_rss_hash_offload_active o = false /\
    po_applied_tx_offloads o = 2 + 8 + 16384 + 32768 /\
    tr' = [HeaderOverflowRisk; Missing OffTxUdp; Missing OffRxUdp; Missing OffRssHash;
           Configured (mkEthConf (2 + 8) (2 + 8 + 16384 + 32768) None)].
Proof.
  destruct (configure_port_offloads (H := sample_bringup 0) default_features config_default []) as [r tr'] eqn:E.
  assert (E' := E). vm_compute in E'. injection E' as <- <-.
  eexists _, _. split; [reflexivity|].
  destruct (offloads_negotiated (H := sample_bringup 0) default_features config_default _ _ _ E) as (l & El & Hn).
  split_and!; [exact (ng_tx_cksum _ _ _ _ Hn)|exact (ng_rss _ _ _ _ Hn)|reflexivity|reflexivity].
Defined.
