(* ===== verification/Lifetime.v ===== *)
(** * The life of an engine: from Engine::new to Drop for Engine

    [engine_drop] releases what an engine holds; the theorem joins bring-up, any sequence
    of calls and the release. *)

From S2P Require Import Prelude.
From S2P Require Import Text.
From S2P Require Import Mbuf.
From S2P Require Import Conn.
From S2P Require Import FlowTable.
From S2P Require Import AckBuild.
From S2P Require Import Events.
From S2P Require Import Engine.
From S2P Require Import EngineTx.
From S2P Require Import EngineTimers.
From S2P Require Import EngineRx.
From S2P Require Import EngineApi.
From S2P Require Import EngineInv.
From S2P Require Import EngineSafe.
From S2P Require Import EngineStep.
From S2P Require Import EngineLoop.
From S2P Require Import EngineSpec.
From S2P Require Import Nic.
From S2P Require Import Bringup.

(** [while q.pop().is_some() {}]: the popped event is dropped. *)
Fixpoint drop_queued (fuel : nat) : M unit :=
  match fuel with
  | O => skip
  | S fuel =>
      q ← get eg_events;
      match event_pop q with
      | (None, _) => skip
      | (Some ev, q') =>
          update (fun e => e <| eg_events := q' |>) ;;
          rx_calls (drop_event ev) ;;
          drop_queued fuel
      end
  end.

(** [flow_table.clear_all()]: every connection is dropped, in slot order. *)
Definition clear_flow_table : M unit :=
  slots ← get (fun e => ft_slots (eg_flow_table e));
  update (fun e => e <| eg_flow_table ::= clear_all |>) ;;
  rx_calls (mbind (fun s => match s with Some c => drop_conn c | None => [] end) slots).

(** The packets still queued for transmission go back to their pool unsent. *)
Definition free_pending : M unit :=
  ring ← get eg_tx_pending;
  update (fun e => e <| eg_tx_pending := [] |>) ;;
  tx_calls (map FreeSeg ring).

Definition engine_drop : M unit :=
  clear_drained ;;
  n ← get (fun e => length (eq_q (eg_events e)));
  drop_queued (S n) ;;
  clear_flow_table ;;
  free_pending.

(** The rest of [drop]: the port is stopped and closed unless it is the virtual one, the
    counters are unbound, and the fields that are pools are dropped in their order. *)
Definition drop_effects (cfg : CoreConfig) : list Effect :=
  (if cfg_port_id cfg =? U16_MAX then [] else [PortStopped; PortClosed]) ++ [CountersUnbound] ++
  map (fun p => PoolFreed (fst p)) (wanted_pools cfg).

(** ** Release *)

Lemma drop_queued_spec n : forall e, length (eq_q (eg_events e)) = n ->
  exists e', drop_queued (S n) e = Some (tt, e') /\ eq_q (eg_events e') = [] /\
    eg_flow_table e' = eg_flow_table e /\ eg_drained e' = eg_drained e /\ eg_tx_pending e' = eg_tx_pending e /\
    forall m, ref_delta m (eg_rx_ops e') = ref_delta m (eg_rx_ops e) - owned m (eg_events e).
Proof.
  induction n as [|n IH]; intros e Hn.
  - exists e. destruct (eg_events e) as [[|? ?] cap] eqn:Eq; [|discriminate Hn].
    cbn [drop_queued mbind M_bind get]. unfold mbind, M_bind, get. rewrite Eq. split_and!; try done.
    intros m. change (owned m (mkEventQueue [] cap)) with (owned m (@nil InternalEvent)). rewrite owned_nil. lia.
  - destruct (eg_events e) as [[|ev q] cap] eqn:Eq; [discriminate Hn|]. cbn in Hn. injection Hn as Hn.
    set (e1 := e <| eg_events := mkEventQueue q cap |> <| eg_rx_ops ::= fun l => l ++ drop_event ev |>).
    destruct (IH e1) as (e' & E & H1 & H2 & H3 & H4 & H5); [done|].
    exists e'. split_and!; try done.
    + rewrite <- E. cbn [drop_queued]. unfold mbind, M_bind, get. rewrite Eq. reflexivity.
    + intros m. rewrite H5. subst e1. cbn [field_set eg_rx_ops eg_events]. rewrite ref_delta_app, drop_event_delta.
      unfold owned at 2 3. unfold EventQueue_owner. cbn [eq_q]. rewrite owned_cons. lia.
Qed.

Lemma drop_slots_delta m (slots : list (option TcpConn)) :
  ref_delta m (mbind (fun s => match s with Some c => drop_conn c | None => [] end) slots) = - owned m slots.
Proof.
  induction slots as [|s slots IH]; [done|]. cbn [mbind list_bind]. rewrite ref_delta_app, IH, owned_cons.
  destruct s as [c|]; cbn [owned option_owner]; [rewrite drop_conn_delta; lia|]. cbn. lia.
Qed.

Lemma run_bind {A C} (m : M A) (k : A -> M C) e a e1 r :
  m e = Some (a, e1) -> k a e1 = Some r -> mbind (M := M) k m e = Some r.
Proof. intros E1 E2. unfold mbind, M_bind. by rewrite E1. Qed.

(** Dropping an engine gives back every reference it holds. *)
Lemma engine_drop_spec e :
  exists e', engine_drop e = Some (tt, e') /\ eq_q (eg_events e') = [] /\ eg_drained e' = [] /\
    (forall h, ft_get (eg_flow_table e') h = None) /\ eg_tx_pending e' = [] /\
    forall m, ref_delta m (eg_rx_ops e') = ref_delta m (eg_rx_ops e) - held m e.
Proof.
  set (e1 := e <| eg_drained := [] |> <| eg_rx_ops ::= fun l => l ++ mbind drop_event (eg_drained e) |>).
  destruct (drop_queued_spec (length (eq_q (eg_events e1))) e1 eq_refl) as (e2 & E2 & H1 & H2 & H3 & H4 & H5).
  set (slots := ft_slots (eg_flow_table e2)).
  set (e3 := e2 <| eg_flow_table ::= clear_all |>
                <| eg_rx_ops ::= fun l => l ++ mbind (fun s => match s with Some c => drop_conn c | None => [] end) slots |>).
  set (e4 := e3 <| eg_tx_pending := [] |> <| eg_tx_ops ::= fun l => l ++ map FreeSeg (eg_tx_pending e3) |>).
  exists e4. split.
  { unfold engine_drop. eapply run_bind; [reflexivity|]. eapply run_bind; [reflexivity|].
    eapply run_bind; [exact E2|]. eapply (run_bind _ _ e2 tt e3); [reflexivity|]. reflexivity. }
  split_and!; [exact H1|exact H3| |done|].
  - intros h. unfold ft_get. destruct (h =? INVALID_HANDLE); [done|]. subst e4 e3.
    cbn [field_set eg_flow_table clear_all ft_slots]. rewrite lookup_map.
    by destruct (ft_slots (eg_flow_table e2) !! handle_idx h).
  - intros m. subst e4 e3. cbn [field_set eg_rx_ops]. rewrite ref_delta_app, drop_slots_delta, H5.
    subst slots. rewrite H2. subst e1. cbn [field_set eg_rx_ops eg_events eg_flow_table].
    rewrite ref_delta_app, drop_events_delta. unfold held. lia.
Qed.

(** ** The whole life *)

(** What the program must give [Engine::new]; the address is six bytes. *)
Record core_ok `{Bringup} (cfg : CoreConfig) : Prop := {
  co_conns : is_u32 (cfg_max_connections cfg);
  co_recv : is_u32 (cfg_recv_buffer_bytes cfg);
  co_send : 0 <= cfg_send_buffer_bytes cfg < two31;
  co_gateway : length (cfg_gateway_mac cfg) = 6%nat;
  co_mac : length (snd bu_macaddr) = 6%nat
}.

Lemma started_ok `{Bringup} feat cfg mem edges st : core_ok cfg -> started_from feat cfg mem edges st ->
  config_ok (H0 := sd_config st) /\ engine_ok (sd_engine st) /\ forall m, ledger m (sd_engine st) = 0.
Proof.
  intros [Hc Hr Hs Hg Hm] (o & mac & gen & l0 & Ecfg & Hport & _ & Enew).
  assert (length mac = 6%nat) as Hmac by (destruct (virtual_port feat cfg); by destruct Hport as [_ ->]). split; [|split].
  - rewrite Ecfg. split; [exact Hmac|exact Hs|exact Hr].
  - exact (engine_new_ok _ _ _ _ _ _ _ Hc Hg Enew).
  - intros m. unfold engine_new, with_cap in Enew. destruct (_ <=? _); [|done]. cbn [mbind option_bind] in Enew.
    injection Enew as <-. unfold ledger, held. cbn [eg_flow_table eg_events eg_drained eg_rx_ops ft_new ft_slots].
    change (owned m (mkEventQueue [] (cfg_event_queue_soft_cap cfg))) with (owned m (@nil InternalEvent)).
    rewrite !owned_nil. change (ref_delta m []) with 0.
    induction (Z.to_nat (cfg_max_connections cfg)) as [|n IH]; [done|]. cbn [replicate]. rewrite owned_cons.
    cbn [owned option_owner]. lia.
Qed.

(** Any session that keeps the invariant may be followed by the release; [L] is what came in. *)
Lemma session_released `{Platform} `{EngineConfig} (m : M unit) (L : MbufId -> Z) e :
  engine_ok e -> (forall k, ledger k e = 0) ->
  (forall L0, triple (good None L0) m (fun _ => good None (fun k => L0 k + L k))) ->
  exists e', (m ;; engine_drop) e = Some (tt, e') /\ (forall k, ref_delta k (eg_rx_ops e') + L k = 0) /\
    (forall h, ft_get (eg_flow_table e') h = None) /\
    eq_q (eg_events e') = [] /\ eg_drained e' = [] /\ eg_tx_pending e' = [].
Proof.
  intros He HL Hm. destruct (Hm (fun _ => 0) e) as ([] & e1 & E1 & _ & HL1); [by split|].
  destruct (engine_drop_spec e1) as (e2 & E2 & Hq & Hd & Ht & Hp & Hr).
  exists e2. split; [by eapply run_bind|]. split_and!; try done.
  intros k. rewrite Hr. specialize (HL1 k). unfold ledger in HL1. lia.
Qed.

(** What the effects of a whole life add up to. *)
Definition balanced (cfg : CoreConfig) (tr : list Effect) : Prop :=
  let whole := tr ++ drop_effects cfg in
  freed whole = fst <$> created whole /\ port_started tr = true /\ port_stopped (drop_effects cfg) = true /\
  unbound tr = false /\ unbound whole = true.

(** A successful bring-up and what follows from it. *)
Lemma started_whole `{Bringup} feat cfg mem st tr : core_ok cfg ->
  engine_create feat cfg mem [] = (Ok (Some st), tr) ->
  config_ok (H0 := sd_config st) /\ engine_ok (sd_engine st) /\ (forall m, ledger m (sd_engine st) = 0) /\
  (cfg_port_id cfg <> U16_MAX -> balanced cfg tr).
Proof.
  intros Hok E. destruct (engine_create_emits feat cfg mem []) as (r & l & E' & Hl).
  rewrite E in E'. injection E' as <- <-. destruct Hl as (Hc & Hf & _ & Hu & Hs & edges & _ & _ & Hst).
  destruct (started_ok _ _ _ _ _ Hok Hst) as (Hcfg & He & HL). split_and!; [done..|]. intros Hport.
  unfold balanced, drop_effects. unfold virtual_port in Hs. rewrite (proj2 (Z.eqb_neq _ _)) in Hs |- * by done.
  rewrite andb_false_r in Hs.
  unfold freed, created, port_stopped, unbound in *. rewrite !omap_app, !existsb_app, Hc, Hf, Hu. by split_and!.
Qed.

(** C9. The life of an engine: whenever Engine::new succeeds, no matter how the driver
    answers, every sequence of calls and received bursts runs without a panic, and dropping
    the engine afterwards gives back exactly the packet references that came in, for every
    packet, and empties the table, the event queue and the send ring.  Over the whole life every
    pool created is freed once, the port is stopped after it was started, and the pointer
    to the counters is unbound. *)
Theorem engine_lifetime `{Platform} `{Bringup} (feat : Features) (cfg : CoreConfig) (mem : gmap MbufId (list Z))
    (st : Started) (tr : list Effect) (calls : list Call) :
  core_ok cfg -> cfg_port_id cfg <> U16_MAX ->
  engine_create feat cfg mem [] = (Ok (Some st), tr) -> Forall call_ok calls ->
  (exists e', (for_each calls (run_call (H0 := sd_config st)) ;; engine_drop) (sd_engine st) = Some (tt, e') /\
     (forall m, ref_delta m (eg_rx_ops e') + zsum (call_arrives m) calls = 0) /\
     (forall h, ft_get (eg_flow_table e') h = None) /\
     eq_q (eg_events e') = [] /\ eg_drained e' = [] /\ eg_tx_pending e' = []) /\
  balanced cfg tr.
Proof.
  intros Hok Hport E Hcalls. destruct (started_whole _ _ _ _ _ Hok E) as (Hcfg & He & HL & Hb). split; [|by apply Hb].
  apply (session_released (H0 := sd_config st)); [done|done|]. intros L0. by apply (run_calls_good (H0 := sd_config st)).
Qed.

(** ** A concrete life: the sample session on a plain card *)

Definition plain_features : Features := mkFeatures false false false false false false false.

Definition plain_bringup : Bringup := {|
  bu_cpuid_edx := 256;
  bu_pool_create _ _ := true;
  bu_dev_info := (0, mkDevInfo (Some (txt "net_tap")) 0 0 0);
  bu_bar_phys := 0;
  bu_pat_file := None;
  bu_configure _ := (0, 0);
  bu_rx_queue_setup := (0, 0);
  bu_tx_queue_setup := (0, 0);
  bu_dev_start := (0, 0);
  bu_llq_verdict := None;
  bu_ts_dynfield := -1;
  bu_ts_dynflag := -1;
  bu_macaddr := (0, 0, [2; 0; 0; 0; 0; 1]);
  bu_xstats_probe := 0;
  bu_xstats_fetch := (0, []);
  bu_urandom := Some (replicate 16 0);
  bu_urandom2 := Some (replicate 16 7);
  bu_boot_id := None;
  bu_now _ := 0
|}.

Definition plain_config : CoreConfig := config_default
  <| cfg_local_ip := 0x0a000001 |> <| cfg_gateway_ip := 0x0a000002 |> <| cfg_gateway_mac := peer_mac |>
  <| cfg_max_connections := 2 |> <| cfg_recv_buffer_bytes := 65535 |> <| cfg_send_buffer_bytes := 65536 |>
  <| cfg_tcp_msl_ms := 10 |> <| cfg_tcp_timestamps := false |> <| cfg_tcp_max_retrans_count := 3 |>
  <| cfg_tcp_per_packet_events := true |> <| cfg_event_queue_soft_cap := 64 |> <| cfg_tx_ring_size := 32 |>.

#[local] Existing Instances sample_platform plain_bringup.

Definition plain_started : Started :=
  mkStarted sample_config (engine_with (ft_new 2)) (mkPortConfigOutcome 0 0 false false false (capture_driver_name (Some (txt "net_tap"))))
    (None, None) (replicate 13 None) (rx_mempool_size plain_config) 2048 (tx_data_mempool_size plain_config).

(** Packet 8 is held by the application when the engine is dropped and is given back. *)
Lemma engine_lifetime_witness :
  exists tr, engine_create plain_features plain_config ∅ [] = (Ok (Some plain_started), tr) /\
    (exists e', (for_each sample_session (run_call (H0 := sample_config)) ;; engine_drop) (engine_with (ft_new 2)) = Some (tt, e') /\
       ref_delta 8 (eg_rx_ops e') + zsum (call_arrives 8) sample_session = 0) /\
    freed (tr ++ drop_effects plain_config) = fst <$> created (tr ++ drop_effects plain_config).
Proof.
  assert (core_ok plain_config) as Hok by (split; try reflexivity; cbn; width_lia).
  assert (Forall call_ok sample_session) as Hcalls by (apply calls_okb_sound; vm_compute; reflexivity).
  eexists. split; [vm_compute; reflexivity|].
  destruct (engine_lifetime plain_features plain_config ∅ plain_started _ sample_session Hok ltac:(vm_compute; discriminate)
    ltac:(vm_compute; reflexivity) Hcalls) as ((e' & E & Hr & _) & Hf & _).
  split; [exists e'; split; [exact E|apply Hr]|exact Hf].
Defined.
