(* ===== verification/Server.v ===== *)
(** * The listening engine: engine.rs and test_tx_intercept.rs under test-server

    The calls only that build has: listen and accept, a frame injected into the receive
    path, the pumps that replace the poll loop, and the release of what the receive side
    holds.  A server session mixes them with the application's calls. *)

From S2P Require Import Prelude.
From S2P Require Import Bytes.
From S2P Require Import Options.
From S2P Require Import Mbuf.
From S2P Require Import Reassembly.
From S2P Require Import TimerWheel.
From S2P Require Import Output.
From S2P Require Import Segment.
From S2P Require Import Conn.
From S2P Require Import FlowTable.
From S2P Require Import Input.
From S2P Require Import Receive.
From S2P Require Import InputSpec.
From S2P Require Import AckBuild.
From S2P Require Import Events.
From S2P Require Import Listen.
From S2P Require Import Engine.
From S2P Require Import EngineTx.
From S2P Require Import EngineTimers.
From S2P Require Import EngineListen.
From S2P Require Import EngineRx.
From S2P Require Import EngineApi.
From S2P Require Import EngineInv.
From S2P Require Import EngineSafe.
From S2P Require Import EngineStep.
From S2P Require Import EngineLoop.
From S2P Require Import EngineSpec.
From S2P Require Import Lifetime.

Section Server.
Context `{Platform} `{EngineConfig}.

(** ** Calls *)

Definition listen (ip port : Z) : M (result ListenHandle EngineError) :=
  fun e => let '(t, r) := listen_add ip port (eg_listen e) in Some (r, e <| eg_listen := t |>).

Definition accept_next (lh : ListenHandle) : M (option ConnHandle) :=
  fun e => let '(t, r) := take_accept lh (eg_listen e) in Some (r, e <| eg_listen := t |>).

Definition state_of (h : ConnHandle) : M (option TcpState) := oc ← get_conn h; mret (c_state <$> oc).
Definition conn_peer_mss (h : ConnHandle) : M (option Z) := oc ← get_conn h; mret (c_peer_mss <$> oc).

(** A frame of at most 65535 bytes goes through the receive path in a packet of the
    receive pool, which is released at the end. *)
Definition inject_rx_frame (frame : list Z) : M (result unit EngineError) :=
  if U16_MAX <? zlen frame then mret (Err InvalidArgument) else
  om ← ask pl_alloc_rx;
  match om with
  | None => mret (Err (A := unit) InvalidArgument)
  | Some m =>
      appended ← ask pl_append;
      if negb appended then rx_calls (map FreeSeg (m :: map fst (pl_links m))) ;; mret (Err InvalidArgument) else
      inc EthRxPkts ;;
      inc_by EthRxBytes (zlen frame) ;;
      rx_frame frame 0 0 0 (Some m) ;;
      rx_calls (map FreeSeg (m :: map fst (pl_links m))) ;;
      mret (Ok tt)
  end.

(** [drain_tx_frames] and [is_empty] of the intercept queue. *)
Definition drain_tx_frames : M (list (list Z)) :=
  q ← get eg_tx_intercept;
  update (fun e => e <| eg_tx_intercept := [] |>) ;;
  mret q.
Definition intercept_is_empty : M bool := get (fun e => bool_decide (eg_tx_intercept e = [])).

Definition pump_tx_drain : M bool :=
  before_empty ← intercept_is_empty;
  drain_tx_pending_data ;;
  after_empty ← intercept_is_empty;
  mret (before_empty && negb after_empty).

Definition pump_timers (now_ns : Z) : M nat := fire_timers_at now_ns.

(** Everything the connection holds of received packets. *)
Definition clear_pinned (h : ConnHandle) : M unit :=
  oc ← get_conn h;
  when_some oc (fun c =>
    let '(q, ops) := reorder_clear (rv_reorder (c_recv c)) in
    rx_calls (map (fun s => FreeSeg (h_ptr (io_mbuf s))) (rv_bytes (c_recv c)) ++
              map (fun s => FreeSeg (h_ptr (io_mbuf s))) (c_delivered_segments c) ++ ops) ;;
    update_conn h (fun c => c <| c_recv ::= fun r => r <| rv_bytes := [] |> <| rv_reorder := q |> |>
                              <| c_delivered_segments := [] |> <| c_readable_scratch_iovecs := [] |>)).

Definition test_clear_pinned_rx_mbufs : M unit :=
  clear_drained ;;
  n ← get (fun e => length (eq_q (eg_events e)));
  drop_queued (S n) ;;
  handles ← get (fun e => iter_handles (eg_flow_table e));
  for_each handles clear_pinned.

Definition test_reap_time_wait : M unit := reap_time_wait.

(** ** Sessions *)

Inductive ServerCall :=
  | SrvCall (c : Call)
  | SrvListen (ip port : Z)
  | SrvAccept (lh : ListenHandle)
  | SrvInject (frame : list Z)
  | SrvPumpTx
  | SrvPumpTimers (now_ns : Z)
  | SrvTakeFrames
  | SrvClearPinned
  | SrvReap.

Definition run_server (c : ServerCall) : M unit :=
  match c with
  | SrvCall c => run_call c
  | SrvListen ip port => listen ip port ;; skip
  | SrvAccept lh => accept_next lh ;; skip
  | SrvInject frame => inject_rx_frame frame ;; skip
  | SrvPumpTx => pump_tx_drain ;; skip
  | SrvPumpTimers now => pump_timers now ;; skip
  | SrvTakeFrames => drain_tx_frames ;; skip
  | SrvClearPinned => test_clear_pinned_rx_mbufs
  | SrvReap => test_reap_time_wait
  end.

Definition server_call_ok (c : ServerCall) : Prop :=
  match c with SrvCall c => call_ok c | SrvInject frame => is_bytes frame | _ => True end.

(** ** The invariant of the engine holds over server sessions *)

Context (Hcfg : config_ok).

Lemma safe_listen p ip port : safe p (listen ip port).
Proof.
  intros L e He. unfold listen. destruct (listen_add ip port (eg_listen e)) as [t r].
  eexists _, _. split; [reflexivity|]. by apply (good_core p L e).
Qed.
Lemma safe_accept p lh : safe p (accept_next lh).
Proof.
  intros L e He. unfold accept_next. destruct (take_accept lh (eg_listen e)) as [t r].
  eexists _, _. split; [reflexivity|]. by apply (good_core p L e).
Qed.
Lemma safe_take_frames p : safe p drain_tx_frames.
Proof. unfold drain_tx_frames. safe_walk. Qed.
Lemma safe_pump_tx p : safe p pump_tx_drain.
Proof. unfold pump_tx_drain, intercept_is_empty. safe_walk. Qed.

(** References that come in with a packet of the receive pool. *)
Definition arrives_in (m p : MbufId) : Z := zsum (fun s => if s =? m then 1 else 0) (p :: map fst (pl_links p)).

Lemma release_good p L q : triple (good p L) (rx_calls (map FreeSeg (q :: map fst (pl_links q))))
  (fun _ => good p (fun m => L m + arrives_in m q)).
Proof.
  eapply triple_conseq; [intros e He; exact He| |apply rx_calls_good]. intros ? e He.
  eapply good_ledger; [|exact He]. intros m. cbv beta. rewrite frees_delta. unfold arrives_in. lia.
Qed.

(** What came in with an injected frame: a packet of the pool, when there was one. *)
Definition came_in (m : MbufId) (om : option MbufId) : Z := match om with Some q => arrives_in m q | None => 0 end.
Definition grown (L : MbufId -> Z) (e : Engine) : Prop := exists om, good None (fun m => L m + came_in m om) e.

Lemma grown_none L e : good None L e -> grown L e.
Proof. intros He. exists None. eapply good_ledger; [|exact He]. intros m. cbn. lia. Qed.

Lemma inject_good L frame : is_bytes frame -> triple (good None L) (inject_rx_frame frame) (fun _ => grown L).
Proof.
  destruct Hcfg as [Hm Hs Hr]. intros Hb. unfold inject_rx_frame. destruct (Z.ltb_spec U16_MAX (zlen frame)) as [|Hl].
  { intros e He. eexists _, e. split; [reflexivity|]. by apply grown_none. }
  apply safe_then; [apply safe_ask|]. intros [q|].
  2: { intros e He. eexists _, e. split; [reflexivity|]. by apply grown_none. }
  apply safe_then; [apply safe_ask|]. intros app.
  assert (Hend : forall r : result unit EngineError,
    triple (good None L) (rx_calls (map FreeSeg (q :: map fst (pl_links q))) ;; mret r) (fun _ => grown L)).
  { intros r. eapply triple_bind; [apply release_good|]. intros ? e He. eexists _, e. split; [reflexivity|]. by exists (Some q). }
  destruct (negb app); [apply Hend|]. apply safe_then; [apply safe_inc|]. intros _. apply safe_then; [apply safe_inc_by|]. intros _.
  eapply triple_bind; [apply (rx_frame_good Hm Hr); [done|unfold U16_MAX in Hl; width_lia]|]. intros ?. apply Hend.
Qed.

(** A connection that holds no packet is still in order. *)
Lemma pinned_ok c q : q = (reorder_clear (rv_reorder (c_recv c))).1 -> conn_ok c ->
  conn_ok (c <| c_recv ::= fun r => r <| rv_bytes := [] |> <| rv_reorder := q |> |>).
Proof.
  intros -> [H1 H2 H3 H4 H5 [R1 R2 R3] H7]. split; conn_simpl; try done.
  - split; cbn; [done|constructor|apply R1].
  - destruct (c_state c); try done.
    + destruct H7 as [E ?]. split; [|done]. cbn. by rewrite E.
    + destruct H7 as [E ?]. split; [|done]. cbn. by rewrite E.
    + destruct H7 as [[Q1 Q2 Q3 Q4 Q5] ?]. split; [|constructor]. split; cbn; [constructor|constructor|done|apply Q5|done].
Qed.

Lemma safe_clear_pinned h : safe None (clear_pinned h).
Proof.
  intros L. unfold clear_pinned. apply focus; [apply triple_ret|]. intros c Hc Hb. cbn [when_some].
  destruct (reorder_clear _) as [q ops] eqn:Eq. eapply triple_bind; [apply rx_calls_good|]. intros ?.
  apply (assign None); [|done]. intros c' K Hb'. pose proof K as K'.
  apply conn_view_inv in K as (E1 & E2 & E3 & E4 & E5 & E6 & E7 & E8 & _).
  split; [done|]. split; [by destruct Hb' as [B1 B2 B3 B4]; split; conn_simpl|]. split.
  - apply (conn_ok_view (c' <| c_recv ::= fun r => r <| rv_bytes := [] |> <| rv_reorder := q |> |>)); [reflexivity|].
    apply pinned_ok; [by rewrite E6, Eq|]. exact (conn_ok_keeps _ _ K' Hc).
  - intros m. rewrite !ref_delta_app, !view_frees, !owned_conn. conn_simpl. rewrite E6.
    unfold reorder_clear in Eq. injection Eq as <- <-. rewrite reorder_frees.
    change (owned m (c_recv c)) with (owned m (rv_bytes (c_recv c)) + owned m (segments (rv_reorder (c_recv c)))).
    change (owned m (_ <| rv_bytes := [] |> <| rv_reorder := _ |>)) with (owned m (@nil InOrderSegment) + owned m (@nil OooSegment)).
    rewrite !owned_nil. lia.
Qed.

Lemma safe_drop_queued n p : safe p (drop_queued n).
Proof.
  induction n as [|n IH]; cbn [drop_queued]; [apply safe_skip|]. intros L e He. unfold mbind at 1, M_bind at 1, get at 1.
  destruct (event_pop (eg_events e)) as [[ev|] q'] eqn:Eq; [|by exists tt, e].
  set (e1 := (e <| eg_events := q' |>) <| eg_rx_ops ::= fun l => l ++ drop_event ev |>).
  assert (good p L e1) as He1.
  { destruct He as [[H1 H2 H3 HH H4 H5 [Q1 Q2]] H7]. unfold event_pop in Eq.
    destruct (eq_q (eg_events e)) as [|ev' q] eqn:El; [done|]. injection Eq as -> <-. split.
    - split; try done. split; cbn; [done|]. rewrite zlen_cons in Q2. lia.
    - intros m. rewrite <- H7. unfold ledger, held, e1. cbn [field_set eg_flow_table eg_events eg_drained eg_rx_ops].
      rewrite ref_delta_app, drop_event_delta. change (owned m (eg_events e)) with (owned m (eq_q (eg_events e))).
      rewrite El. change (owned m (mkEventQueue q (eq_soft_cap (eg_events e)))) with (owned m q). rewrite owned_cons. lia. }
  exact (IH L e1 He1).
Qed.

Lemma safe_clear_all_pinned : safe None test_clear_pinned_rx_mbufs.
Proof.
  destruct Hcfg as [Hm Hs Hr]. unfold test_clear_pinned_rx_mbufs. apply safe_bind; [by apply safe_clear_drained|]. intros _.
  apply safe_bind; [apply safe_get|]. intros n. apply safe_bind; [apply safe_drop_queued|]. intros _.
  apply safe_bind; [apply safe_get|]. intros l. apply safe_for_each. intros h _. apply safe_clear_pinned.
Qed.

(** What a call leaves in the ledger: a burst, or the packet of an injected frame, more. *)
Definition server_grown (c : ServerCall) (L : MbufId -> Z) (e : Engine) : Prop :=
  match c with
  | SrvCall c => good None (fun m => L m + call_arrives m c) e
  | SrvInject _ => grown L e
  | _ => good None L e
  end.

Lemma run_server_good c L : server_call_ok c -> triple (good None L) (run_server c) (fun _ => server_grown c L).
Proof.
  destruct Hcfg as [Hm Hs Hr]. intros Hc.
  assert (Hthen : forall {A} (m : M A), safe None m -> triple (good None L) (m ;; skip) (fun _ => good None L)).
  { intros A m Hsafe. apply safe_then; [exact Hsafe|]. intros _. apply triple_ret. }
  destruct c; cbn [run_server server_grown server_call_ok] in *.
  - by apply run_call_good.
  - apply Hthen, safe_listen.
  - apply Hthen, safe_accept.
  - eapply triple_bind; [by apply inject_good|]. intros ? e He. by exists tt, e.
  - apply Hthen, safe_pump_tx.
  - by apply Hthen, safe_fire_timers.
  - apply Hthen, safe_take_frames.
  - apply safe_clear_all_pinned.
  - by apply safe_reap.
Qed.
End Server.
