(* ===== verification/Backlog.v ===== *)
(** * The backlog of a listening engine

    A connection whose handshake is under way belongs to exactly one listen slot, and a slot
    that says so has such a connection, with the slot's address; whatever segments, timers
    and calls come, in any order.  So no slot is ever wedged by a connection that is gone,
    and there are never more half-open connections than listening addresses. *)

From S2P Require Import Prelude.
From S2P Require Import Conn.
From S2P Require Import FlowTable.
From S2P Require Import AckBuild.
From S2P Require Import Listen.

(** ** Slots and half-open connections *)

(** What matters of a connection in its handshake. *)
Record HalfOpen := mkHalfOpen {
  ho_tuple : FourTuple;
  ho_passive : bool;
  ho_idle : bool                 (* nothing in flight *)
}.

Definition half_open (c : TcpConn) : option HalfOpen :=
  if bool_decide (c_state c = SynReceived)
  then Some (mkHalfOpen (c_four_tuple c) (c_is_passive_open c) (match c_snd_retrans c with [] => true | _ => false end))
  else None.

Definition slot_addr (s : ListenHandle * ListenSlot) : Z * Z := (ls_local_ip s.2, ls_local_port s.2).
Definition local_addr (v : HalfOpen) : Z * Z := (ft_local_ip (ho_tuple v), ft_local_port (ho_tuple v)).

(** The handle of the [i]-th entry of the connection table. *)
Definition nth_handle (i : nat) : ConnHandle := Z.of_nat i + 1.

Record slots_ok (t : ListenTable) : Prop := {
  so_ids : NoDup (map fst (lt_slots t));
  so_below : Forall (fun s => s.1 < lt_next_id t) (lt_slots t);
  so_addrs : NoDup (map slot_addr (lt_slots t));
  so_one : Forall (fun s => ls_accept_queue s.2 = None \/ ls_in_progress s.2 = None) (lt_slots t)
}.

Record linked (b : list (option HalfOpen)) (t : ListenTable) : Prop := {
  lk_slots : slots_ok t;
  lk_progress : forall s h, s ∈ lt_slots t -> ls_in_progress s.2 = Some h ->
    exists i v, h = nth_handle i /\ b !! i = Some (Some v) /\ local_addr v = slot_addr s;
  lk_open : forall i v, b !! i = Some (Some v) ->
    ho_passive v = true /\ ho_idle v = true /\ exists s, s ∈ lt_slots t /\ ls_in_progress s.2 = Some (nth_handle i)
}.

(** At most one element of the list passes the test. *)
Definition unique {A} (p : A -> bool) (l : list A) : Prop :=
  NoDup l /\ forall x y, x ∈ l -> y ∈ l -> p x = true -> p y = true -> x = y.

Lemma unique_tail {A} (p : A -> bool) x l : unique p (x :: l) -> unique p l.
Proof. intros [Hn Hu]. apply NoDup_cons in Hn as [_ Hn]. split; [done|]. intros y z Hy Hz. apply Hu; by right. Qed.

Definition on_slot (f : ListenSlot -> ListenSlot) (s : ListenHandle * ListenSlot) : ListenHandle * ListenSlot := (s.1, f s.2).

Lemma update_slot_map p f l : unique p l -> update_slot p f l = map (fun s => if p s then on_slot f s else s) l.
Proof.
  induction l as [|s l IH]; intros Hu; cbn [update_slot map]; [done|]. destruct (p s) eqn:E.
  - f_equal. symmetry. rewrite <- (map_id l) at 2. apply map_ext_in. intros y Hy%list_elem_of_In.
    destruct (p y) eqn:Ey; [|done]. destruct Hu as [Hn Hu]. apply NoDup_cons in Hn as [Hn _].
    destruct Hn. rewrite (Hu s y); [done|by left|by right|done|done].
  - f_equal. apply IH. by eapply unique_tail.
Qed.

Lemma update_slot_none p f l : (forall s, s ∈ l -> p s = false) -> update_slot p f l = l.
Proof.
  induction l as [|s l IH]; intros Hp; cbn [update_slot]; [done|]. rewrite (Hp s) by by left.
  f_equal. apply IH. intros y Hy. apply Hp. by right.
Qed.

Lemma NoDup_map_inj {A B} (f : A -> B) l x y : NoDup (map f l) -> x ∈ l -> y ∈ l -> f x = f y -> x = y.
Proof.
  induction l as [|z l IH]; cbn [map]; [by intros _ ?%elem_of_nil|].
  intros [Hz Hn]%NoDup_cons Hx Hy E. assert (Hin : forall w, w ∈ l -> f w ∈ map f l) by (intros w; apply list_elem_of_fmap_2).
  apply elem_of_cons in Hx as [->|Hx], Hy as [->|Hy]; auto.
  - destruct Hz. rewrite E. auto.
  - destruct Hz. rewrite <- E. auto.
Qed.

Section Slots.
Context (b : list (option HalfOpen)) (t : ListenTable) (Hl : linked b t).

Lemma slots_nodup : NoDup (lt_slots t).
Proof. eapply NoDup_fmap_1. apply (so_ids _ (lk_slots _ _ Hl)). Qed.

Lemma unique_handle lh : unique (with_handle lh) (lt_slots t).
Proof.
  split; [apply slots_nodup|]. unfold with_handle. intros x y Hx Hy Ex Ey. breflect.
  eapply (NoDup_map_inj fst); [apply (so_ids _ (lk_slots _ _ Hl))|done|done|congruence].
Qed.

Lemma unique_progress h : unique (in_progress_is h) (lt_slots t).
Proof.
  split; [apply slots_nodup|]. unfold in_progress_is. intros x y Hx Hy Ex Ey.
  apply bool_decide_eq_true in Ex, Ey.
  destruct (lk_progress _ _ Hl x h Hx Ex) as (i & v & E1 & B1 & A1).
  destruct (lk_progress _ _ Hl y h Hy Ey) as (j & w & E2 & B2 & A2).
  assert (i = j) as -> by (unfold nth_handle in *; lia). assert (v = w) as -> by congruence.
  eapply (NoDup_map_inj slot_addr); [apply (so_addrs _ (lk_slots _ _ Hl))|done|done|congruence].
Qed.

(** Rewriting the one slot that passes [p], its address kept. *)
Lemma slots_ok_update p f : unique p (lt_slots t) ->
  (forall s, slot_addr (on_slot f s) = slot_addr s) ->
  (forall s, s ∈ lt_slots t -> p s = true -> ls_accept_queue (f s.2) = None \/ ls_in_progress (f s.2) = None) ->
  slots_ok (t <| lt_slots ::= update_slot p f |>).
Proof.
  intros Hu Ha Ho. destruct (lk_slots _ _ Hl) as [H1 H2 H3 H4].
  cbn [field_set]. split; cbn [lt_slots lt_next_id]; rewrite update_slot_map by done.
  - rewrite map_map. rewrite (map_ext _ fst); [done|]. intros s. by destruct (p s).
  - apply Forall_map. apply Forall_forall. intros s Hs. cbn. rewrite Forall_forall in H2. destruct (p s); by apply (H2 s).
  - rewrite map_map. rewrite (map_ext _ slot_addr); [done|]. intros s. destruct (p s); [apply Ha|done].
  - apply Forall_map. apply Forall_forall. intros s Hs. cbn. destruct (p s) eqn:E; [by apply Ho|].
    rewrite Forall_forall in H4. by apply H4.
Qed.

Lemma in_update p f s : unique p (lt_slots t) -> s ∈ lt_slots (t <| lt_slots ::= update_slot p f |>) ->
  exists s0, s0 ∈ lt_slots t /\ s = (if p s0 then on_slot f s0 else s0).
Proof.
  intros Hu. cbn [field_set lt_slots]. rewrite update_slot_map by done. intros (s0 & -> & Hs)%list_elem_of_fmap. by exists s0.
Qed.

Lemma into_update p f s0 : unique p (lt_slots t) -> s0 ∈ lt_slots t ->
  (if p s0 then on_slot f s0 else s0) ∈ lt_slots (t <| lt_slots ::= update_slot p f |>).
Proof. intros Hu Hs. cbn [field_set lt_slots]. rewrite update_slot_map by done. by apply (list_elem_of_fmap_2 (fun s => if p s then on_slot f s else s)). Qed.

(** A handshake that ended: its connection is no longer half open, its slot no longer busy. *)
Lemma linked_leave i f : (forall s, slot_addr (on_slot f s) = slot_addr s) -> (forall s, ls_in_progress (f s) = None) ->
  linked (<[i := None]> b) (t <| lt_slots ::= update_slot (in_progress_is (nth_handle i)) f |>).
Proof.
  intros Ha Hf. pose proof (unique_progress (nth_handle i)) as Hu. split.
  - apply slots_ok_update; [done|done|]. intros s _ _. by right.
  - intros s h Hs Hh. apply in_update in Hs as (s0 & Hs0 & ->); [|done].
    destruct (in_progress_is (nth_handle i) s0) eqn:E; [cbn in Hh; by rewrite Hf in Hh|].
    destruct (lk_progress _ _ Hl s0 h Hs0 Hh) as (j & v & -> & Hb & Hv). exists j, v. split; [done|]. split; [|done].
    rewrite list_lookup_insert_ne; [done|]. intros <-. unfold in_progress_is in E. rewrite Hh in E.
    by rewrite bool_decide_eq_true_2 in E.
  - intros j v Hj. destruct (decide (i = j)) as [<-|N].
    { destruct (decide (i < length b)%nat); [rewrite list_lookup_insert_eq in Hj by done|]; [done|].
      rewrite list_insert_ge in Hj by lia. apply lookup_lt_Some in Hj. lia. }
    rewrite list_lookup_insert_ne in Hj by done. destruct (lk_open _ _ Hl j v Hj) as (Hp & Hi & s & Hs & Hh).
    split; [done|]. split; [done|]. exists s. split; [|done].
    pose proof (into_update _ f s Hu Hs) as Hin. unfold in_progress_is in Hin at 1. rewrite Hh in Hin.
    rewrite bool_decide_eq_false_2 in Hin; [done|]. intros [= E]. unfold nth_handle in E. lia.
Qed.

(** Nothing to end. *)
Lemma not_in_progress i : (forall v, b !! i <> Some (Some v)) ->
  forall s, s ∈ lt_slots t -> in_progress_is (nth_handle i) s = false.
Proof.
  intros Hb s Hs. unfold in_progress_is. apply bool_decide_eq_false_2. intros E.
  destruct (lk_progress _ _ Hl s _ Hs E) as (j & v & Ej & Hj & _).
  assert (i = j) as <- by (unfold nth_handle in Ej; lia). by apply (Hb v).
Qed.

(** A handshake that begins. *)
Lemma linked_enter lh s i v : find_slot (with_handle lh) (lt_slots t) = Some s ->
  ls_accept_queue s.2 = None -> ls_in_progress s.2 = None ->
  b !! i = Some None -> local_addr v = slot_addr s -> ho_passive v = true -> ho_idle v = true ->
  linked (<[i := Some v]> b) (set_in_progress lh (nth_handle i) t).
Proof.
  intros Hf Ha Hp Hb Hv Hv1 Hv2. pose proof (unique_handle lh) as Hu.
  assert (Hs : s ∈ lt_slots t /\ with_handle lh s = true).
  { clear -Hf. induction (lt_slots t) as [|s' l IH]; [done|]. cbn [find_slot] in Hf.
    destruct (with_handle lh s') eqn:E; [injection Hf as ->; split; [by left|done]|]. destruct (IH Hf). split; [by right|done]. }
  destruct Hs as [Hs Hw]. assert (Hsame : forall s', s' ∈ lt_slots t -> with_handle lh s' = true -> s' = s) by (intros; by apply Hu).
  unfold set_in_progress. split.
  - apply slots_ok_update; [done|done|]. intros s' Hs' E. left. rewrite (Hsame s' Hs' E). done.
  - intros s' h Hs' Hh. apply in_update in Hs' as (s0 & Hs0 & ->); [|done]. destruct (with_handle lh s0) eqn:E.
    + cbn in Hh. injection Hh as <-. exists i, v. split; [done|]. split; [|by rewrite (Hsame s0 Hs0 E)].
      apply list_lookup_insert_eq. by eapply lookup_lt_Some.
    + destruct (lk_progress _ _ Hl s0 h Hs0 Hh) as (j & w & -> & Hj & Hw'). exists j, w. split; [done|]. split; [|done].
      rewrite list_lookup_insert_ne; [done|]. intros <-. congruence.
  - intros j w Hj. destruct (decide (i = j)) as [<-|N].
    + rewrite list_lookup_insert_eq in Hj by (by eapply lookup_lt_Some). injection Hj as <-. split; [done|]. split; [done|].
      pose proof (into_update _ (fun s => s <| ls_in_progress := Some (nth_handle i) |>) s Hu Hs) as Hin. rewrite Hw in Hin.
      eexists. split; [exact Hin|done].
    + rewrite list_lookup_insert_ne in Hj by done. destruct (lk_open _ _ Hl j w Hj) as (H1 & H2 & s' & Hs' & Hh).
      split; [done|]. split; [done|]. exists s'. split; [|done].
      pose proof (into_update _ (fun s => s <| ls_in_progress := Some (nth_handle i) |>) s' Hu Hs') as Hin.
      destruct (with_handle lh s') eqn:E; [|exact Hin]. rewrite (Hsame s' Hs' E) in Hh. congruence.
Qed.

Lemma linked_accept lh : linked b (take_accept lh t).1.
Proof.
  unfold take_accept. destruct (find_slot _ _) as [s|] eqn:Ef; cbn [fst]; [|done].
  pose proof (unique_handle lh) as Hu. split.
  - apply slots_ok_update; [done|done|]. intros s' _ _. by left.
  - intros s' h Hs' Hh. apply in_update in Hs' as (s0 & Hs0 & ->); [|done].
    assert (Hh' : ls_in_progress s0.2 = Some h) by by destruct (with_handle lh s0).
    destruct (lk_progress _ _ Hl s0 h Hs0 Hh') as (i & v & -> & Hb & Hv). exists i, v. split_and!; [done|done|].
    by destruct (with_handle lh s0).
  - intros i v Hi. destruct (lk_open _ _ Hl i v Hi) as (H1 & H2 & s' & Hs' & Hh). split; [done|]. split; [done|].
    pose proof (into_update _ (fun s => s <| ls_accept_queue := None |>) s' Hu Hs') as Hin.
    eexists. split; [exact Hin|]. by destruct (with_handle lh s').
Qed.

Lemma linked_listen ip port : linked b (listen_add ip port t).1.
Proof.
  unfold listen_add. destruct (existsb _ _) eqn:Ee; [done|]. cbv zeta. destruct (_ <? _); [done|]. cbn [fst].
  destruct (lk_slots _ _ Hl) as [H1 H2 H3 H4].
  assert (Hnew : slot_addr (lt_next_id t, slot_new ip port) ∉ map slot_addr (lt_slots t)).
  { intros (s & Es & Hs)%list_elem_of_fmap. assert (existsb (bound_to ip port) (lt_slots t) = true); [|congruence].
    apply existsb_exists. exists s. split; [by apply list_elem_of_In|]. unfold bound_to, slot_addr in *. cbn in Es. injection Es as <- <-.
    by rewrite !Z.eqb_refl. }
  split.
  - split; cbn [field_set lt_slots lt_next_id].
    + rewrite map_app. apply NoDup_app. split; [done|]. split; [|apply NoDup_singleton]. intros x (s & -> & Hs)%list_elem_of_fmap Hx.
      apply list_elem_of_singleton in Hx. rewrite Forall_forall in H2. specialize (H2 s Hs). change (s.1 = lt_next_id t) in Hx. change (s.1 < lt_next_id t) in H2. lia.
    + apply Forall_app. split; [|constructor; [cbn; lia|done]]. eapply Forall_impl; [exact H2|]. intros s ?. cbn in *. lia.
    + rewrite map_app. apply NoDup_app. split; [done|]. split; [|apply NoDup_singleton]. intros x Hx Hy.
      apply list_elem_of_singleton in Hy as ->. done.
    + apply Forall_app. split; [done|]. constructor; [by left|done].
  - intros s h Hs Hh. cbn [field_set lt_slots] in Hs. apply elem_of_app in Hs as [Hs|Hs]; [by eapply (lk_progress _ _ Hl)|].
    apply list_elem_of_singleton in Hs as ->. done.
  - intros i v Hi. destruct (lk_open _ _ Hl i v Hi) as (? & ? & s & Hs & Hh). split; [done|]. split; [done|]. exists s.
    split; [|done]. cbn [field_set lt_slots]. apply elem_of_app. by left.
Qed.

End Slots.

(** The handles of the half-open connections, from entry [i] on. *)
Fixpoint open_from (i : nat) (b : list (option HalfOpen)) : list ConnHandle :=
  match b with
  | [] => []
  | Some _ :: b => nth_handle i :: open_from (S i) b
  | None :: b => open_from (S i) b
  end.

Lemma open_from_elem b : forall i h, h ∈ open_from i b -> exists j v, b !! j = Some (Some v) /\ h = nth_handle (i + j).
Proof.
  induction b as [|o b IH]; intros i h Hh; cbn [open_from] in Hh; [by apply elem_of_nil in Hh|].
  assert (Hrec : h ∈ open_from (S i) b -> exists j v, (o :: b) !! j = Some (Some v) /\ h = nth_handle (i + j)).
  { intros Hin. destruct (IH _ _ Hin) as (j & v & E & ->). exists (S j), v. by rewrite Nat.add_succ_r. }
  destruct o as [v|]; [|by apply Hrec]. apply elem_of_cons in Hh as [->|Hh]; [|by apply Hrec].
  exists 0%nat, v. by rewrite Nat.add_0_r.
Qed.

Lemma open_from_nodup b : forall i, NoDup (open_from i b).
Proof.
  induction b as [|[v|] b IH]; intros i; cbn [open_from]; [constructor| |apply IH].
  constructor; [|apply IH]. intros (j & w & _ & E)%open_from_elem. unfold nth_handle in E. lia.
Qed.

Lemma omap_length {A B} (f : A -> option B) l : (length (omap f l) <= length l)%nat.
Proof. induction l as [|x l IH]; cbn; [done|]. destruct (f x); cbn; lia. Qed.

(** There are no more half-open connections than listening addresses. *)
Lemma backlog_bounded b t : linked b t -> (length (open_from 0 b) <= length (lt_slots t))%nat.
Proof.
  intros Hl. transitivity (length (omap (fun s : ListenHandle * ListenSlot => ls_in_progress s.2) (lt_slots t))); [|apply omap_length].
  apply submseteq_length, NoDup_submseteq; [apply open_from_nodup|]. intros h (i & v & E & ->)%open_from_elem.
  destruct (lk_open _ _ Hl i v E) as (_ & _ & s & Hs & Hh). apply list_elem_of_omap. by exists s.
Qed.
