(* ===== verification/EngineBacklog.v ===== *)
(** * The engine keeps its backlog in order

    The invariant of [Backlog] is carried through every operation of the engine.  Most of
    them are calm: they leave the half-open connections and the slots as they are.  The
    others end a handshake, or begin one, and touch the slot accordingly. *)

From S2P Require Import Prelude.
From S2P Require Import Options.
From S2P Require Import Mbuf.
From S2P Require Import Reassembly.
From S2P Require Import Retrans.
From S2P Require Import Rtt.
From S2P Require Import TimerWheel.
From S2P Require Import Output.
From S2P Require Import Segment.
From S2P Require Import Conn.
From S2P Require Import FlowTable.
From S2P Require Import Input.
From S2P Require Import Receive.
From S2P Require Import Dispatch.
From S2P Require Import InputSpec.
From S2P Require Import DispatchFrame.
From S2P Require Import AckBuild.
From S2P Require Import Events.
From S2P Require Import Listen.
From S2P Require Import Engine.
From S2P Require Import EngineTx.
From S2P Require Import EngineTimers.
From S2P Require Import EngineListen.
From S2P Require Import EngineRx.
From S2P Require Import EngineApi.
From S2P Require Import EngineInv.
From S2P Require Import EngineSpec.
From S2P Require Import Lifetime.
From S2P Require Import Server.
From S2P Require Import Backlog.

(** ** What the invariant sees of an engine *)

Definition entry_open (o : option TcpConn) : option HalfOpen := o ≫= half_open.
Definition backlog (e : Engine) : list (option HalfOpen) := map entry_open (ft_slots (eg_flow_table e)).

(** Timers name connections by 32-bit handles. *)
Definition typed_wheel (w : TimerWheel) : Prop :=
  Forall (fun o => match o with Some n => is_u32 (owner_handle n) | None => True end) (slots w).

Definition sized (b : list (option HalfOpen)) : Prop := zlen b < two32.

Record backlog_ok (e : Engine) : Prop := {
  bo_sized : sized (backlog e);
  bo_wheel : typed_wheel (eg_timer_wheel e);
  bo_linked : linked (backlog e) (eg_listen e)
}.

Definition same (e e' : Engine) : Prop :=
  backlog e' = backlog e /\ eg_listen e' = eg_listen e /\ (typed_wheel (eg_timer_wheel e) -> typed_wheel (eg_timer_wheel e')).

Definition Cond : Type := list (option HalfOpen) -> ListenTable -> Prop.

Definition calm {A} (P : Cond) (m : M A) : Prop :=
  forall e a e', P (backlog e) (eg_listen e) -> m e = Some (a, e') -> same e e'.
Definition preserves {A} (m : M A) : Prop := forall e a e', backlog_ok e -> m e = Some (a, e') -> backlog_ok e'.

Lemma same_refl e : same e e.
Proof. by split_and!. Qed.
Lemma same_trans e1 e2 e3 : same e1 e2 -> same e2 e3 -> same e1 e3.
Proof. intros (B1 & L1 & W1) (B2 & L2 & W2). split_and!; [congruence|congruence|auto]. Qed.
Lemma same_cond (P : Cond) e e' : same e e' -> P (backlog e) (eg_listen e) -> P (backlog e') (eg_listen e').
Proof. intros (-> & -> & _). done. Qed.
Lemma same_ok e e' : same e e' -> backlog_ok e -> backlog_ok e'.
Proof. intros (B & L & W) [H1 H2 H3]. split; rewrite ?B, ?L; auto. Qed.
Lemma same_parts e e' : eg_flow_table e' = eg_flow_table e -> eg_listen e' = eg_listen e -> eg_timer_wheel e' = eg_timer_wheel e -> same e e'.
Proof. intros E1 E2 E3. unfold same, backlog. rewrite E1, E2, E3. by split_and!. Qed.

(** ** Rules *)

Section Rules.
Context (P : Cond) {A B : Type}.

Lemma calm_ret (a : A) : calm P (mret a).
Proof. intros e b e' _ E. injection E as <- <-. apply same_refl. Qed.
Lemma calm_get (f : Engine -> A) : calm P (get f).
Proof. intros e b e' _ E. injection E as <- <-. apply same_refl. Qed.
Lemma calm_ask (f : nat -> A) : calm P (ask f).
Proof. intros e b e' _ E. injection E as <- <-. by apply same_parts. Qed.
Lemma calm_lift (o : option A) : calm P (lift o).
Proof. intros e b e' _ E. unfold lift in E. destruct o; [|done]. injection E as <- <-. apply same_refl. Qed.
Lemma calm_bind (m : M A) (k : A -> M B) : calm P m -> (forall a, calm P (k a)) -> calm P (mbind (M := M) k m).
Proof.
  intros Hm Hk e b e' HP E. apply run_bind_inv in E as (a & e1 & E1 & E2). pose proof (Hm _ _ _ HP E1) as S1.
  eapply same_trans; [exact S1|]. eapply Hk; [|exact E2]. by eapply same_cond.
Qed.
Lemma calm_weaken (P' : Cond) (m : M A) : (forall b t, P b t -> P' b t) -> calm P' m -> calm P m.
Proof. intros H Hm e a e' HP. apply Hm. by apply H. Qed.
Lemma calm_for_each (l : list A) (body : A -> M unit) : (forall x, x ∈ l -> calm P (body x)) -> calm P (for_each l body).
Proof.
  induction l as [|x l IH]; intros Hb; cbn [for_each]; [intros e a e' _ E; injection E as _ <-; apply same_refl|].
  intros e b e' HP E. apply run_bind_inv in E as (a & e1 & E1 & E2). pose proof (Hb x (list_elem_of_here _ _) _ _ _ HP E1) as S1.
  eapply same_trans; [exact S1|]. eapply IH; [intros y Hy; apply Hb; by right| |exact E2]. by eapply same_cond.
Qed.
End Rules.

Lemma calm_skip P : calm P skip.
Proof. apply calm_ret. Qed.
Lemma calm_when P b m : calm P m -> calm P (when b m).
Proof. intros Hm. destruct b; [done|apply calm_skip]. Qed.
Lemma calm_when_some {A} P (o : option A) k : (forall a, calm P (k a)) -> calm P (when_some o k).
Proof. intros Hk. destruct o; [apply Hk|apply calm_skip]. Qed.
Lemma calm_update P f : (forall e, eg_flow_table (f e) = eg_flow_table e /\ eg_listen (f e) = eg_listen e /\ eg_timer_wheel (f e) = eg_timer_wheel e) ->
  calm P (update f).
Proof. intros Hf e b e' _ E. injection E as <- <-. destruct (Hf e) as (? & ? & ?). by apply same_parts. Qed.
Lemma calm_inc_by P c n : calm P (inc_by c n).
Proof. by apply calm_update. Qed.
Lemma calm_inc P c : calm P (inc c).
Proof. apply calm_inc_by. Qed.
Lemma calm_rx_calls P ops : calm P (rx_calls ops).
Proof. by apply calm_update. Qed.
Lemma calm_tx_calls P ops : calm P (tx_calls ops).
Proof. by apply calm_update. Qed.
Lemma calm_push_frame P b : calm P (push_tx_frame b).
Proof. by apply calm_update. Qed.
Lemma calm_push P ev : calm P (push_event ev).
Proof.
  intros e b e' _ E. unfold push_event in E. destruct (event_push _ _ _) as [[q obs] ops]. injection E as <- <-. by apply same_parts.
Qed.

(** *** The wheel *)

Lemma typed_add now n w : is_u32 (owner_handle n) -> typed_wheel w -> typed_wheel (add now n w).1.
Proof.
  intros Hn Hw. unfold add, typed_wheel in *. destruct (level_and_bucket_offset _) as [lv off].
  destruct (free_list w) as [|s free]; cbn [fst]; unfold push_bucket; cbn [field_set slots]; apply Forall_insert; auto.
  apply Forall_app. by split; [|constructor].
Qed.
Lemma typed_slot w s n : typed_wheel w -> slot w s = Some n -> is_u32 (owner_handle n).
Proof.
  unfold typed_wheel, slot. intros Hw Hs. destruct (slots w !! s) as [o|] eqn:E; [|done]. cbn in Hs. subst o.
  eapply Forall_lookup_1 in Hw; [|exact E]. done.
Qed.
Lemma typed_cancel id w : typed_wheel w -> typed_wheel (cancel id w).2.
Proof.
  intros Hw. unfold cancel. destruct (slot w (ti_slot id)) as [n|] eqn:E; [|done]. destruct (_ && _); [|done].
  cbn [snd]. unfold typed_wheel. cbn [field_set slots]. apply Forall_insert; [done|]. exact (typed_slot _ _ _ Hw E).
Qed.
Lemma typed_replace ss now : forall w, typed_wheel w -> typed_wheel (replace_slots ss now w).
Proof.
  induction ss as [|s ss IH]; intros w Hw; cbn [replace_slots]; [done|]. destruct (slot w s) as [n|] eqn:E; [|auto].
  assert (typed_wheel (w <| slots ::= <[s := None]> |>)) by (unfold typed_wheel; cbn [field_set slots]; by apply Forall_insert).
  destruct (cancelled n); [by apply IH|]. destruct (level_and_bucket_offset _) as [lv off]. apply IH.
  unfold typed_wheel, push_bucket. cbn [field_set slots]. apply Forall_insert; [by apply Forall_insert|exact (typed_slot _ _ _ Hw E)].
Qed.
Lemma typed_cascade n : forall lv w, typed_wheel w -> typed_wheel (cascade n lv w).
Proof.
  induction n as [|n IH]; intros lv w Hw; cbn [cascade]; [done|]. destruct (_ <=? _)%nat; [done|].
  match goal with |- context [replace_slots ?ss ?nw ?wx] =>
    assert (H1 : typed_wheel (replace_slots ss nw wx)) by (apply typed_replace; exact Hw); set (w1 := replace_slots ss nw wx) in *; clearbody w1 end.
  destruct (_ =? 0)%nat; [apply IH|]; done.
Qed.
Definition typed_fired (l : list (TimerId * TimerNode)) : Prop := Forall (fun f => is_u32 (owner_handle f.2)) l.
Lemma typed_fire ss : forall w fired, typed_wheel w -> typed_fired fired ->
  typed_wheel (fire_slots ss w fired).1 /\ typed_fired (fire_slots ss w fired).2.
Proof.
  induction ss as [|s ss IH]; intros w fired Hw Hf; cbn [fire_slots]; [done|]. destruct (slot w s) as [n|] eqn:E; [|auto].
  apply IH.
  - unfold typed_wheel. cbn [field_set slots]. by apply Forall_insert.
  - destruct (negb _); [|done]. apply Forall_app. split; [done|]. constructor; [|done]. exact (typed_slot _ _ _ Hw E).
Qed.
Lemma typed_advance_loop n : forall w fired, typed_wheel w -> typed_fired fired ->
  typed_wheel (advance_loop n w fired).1 /\ typed_fired (advance_loop n w fired).2.
Proof.
  induction n as [|n IH]; intros w fired Hw Hf; cbn [advance_loop]; [done|]. unfold advance_tick.
  match goal with |- context [fire_slots ?ss ?wx fired] => pose proof (typed_fire ss wx fired) as F;
    destruct (fire_slots ss wx fired) as [w1 f1] end.
  destruct F as [F1 F2]; [done|done|]. cbn [fst snd] in *. apply IH; [|done].
  destruct (_ =? 0)%nat; [apply typed_cascade|]; done.
Qed.
Lemma typed_advance now w : typed_wheel w -> typed_wheel (advance now w).1 /\ typed_fired (advance now w).2.
Proof. intros Hw. unfold advance. destruct (_ <=? _); [by split; [|constructor]|]. by apply typed_advance_loop; [|constructor]. Qed.

Lemma calm_wheel_add P now n : is_u32 (owner_handle n) -> calm P (wheel_add now n).
Proof.
  intros Hn e a e' _ E. unfold wheel_add in E. pose proof (typed_add now n (eg_timer_wheel e) Hn) as T.
  destruct (add _ _ _) as [w id]. injection E as <- <-. by split_and!.
Qed.
Lemma calm_wheel_cancel P id : calm P (wheel_cancel id).
Proof.
  intros e a e' _ E. unfold wheel_cancel in E. pose proof (typed_cancel id (eg_timer_wheel e)) as T.
  destruct (cancel _ _) as [b w]. injection E as <- <-. by split_and!.
Qed.

(** *** Connections *)

Lemma backlog_update t h f : (forall c, ft_get t h = Some c -> half_open (f c) = half_open c) ->
  map entry_open (ft_slots (ft_update t h f)) = map entry_open (ft_slots t).
Proof.
  intros Hf. unfold ft_update. destruct (ft_get t h) as [c|] eqn:E; [|done]. cbn [field_set ft_slots].
  apply ft_get_some in E as [_ Hi]. rewrite list_fmap_insert. apply list_insert_id.
  change (map entry_open (ft_slots t) !! handle_idx h = Some (half_open (f c))).
  rewrite Hf by done. by rewrite list_lookup_fmap, Hi.
Qed.

Lemma calm_update_conn P h f :
  (forall e c, P (backlog e) (eg_listen e) -> ft_get (eg_flow_table e) h = Some c -> half_open (f c) = half_open c) ->
  calm P (update_conn h f).
Proof.
  intros Hf e a e' HP E. injection E as <- <-. split_and!; [|done|done]. apply backlog_update. intros c Hc. by eapply Hf.
Qed.

(** The entry of a handle is not half open. *)
Definition not_open (h : ConnHandle) : Cond := fun b _ => forall v, b !! handle_idx h <> Some (Some v).

(** ... nor is the table too large for its handles. *)
Definition closed (h : ConnHandle) : Cond := fun b t => sized b /\ not_open h b t.

Lemma not_open_conn h e c : not_open h (backlog e) (eg_listen e) -> ft_get (eg_flow_table e) h = Some c -> half_open c = None.
Proof.
  intros Hn Hg. apply ft_get_some in Hg as [_ Hi]. destruct (half_open c) as [v|] eqn:E; [|done]. destruct (Hn v).
  unfold backlog. rewrite list_lookup_fmap, Hi. cbn. by rewrite E.
Qed.

Lemma open_conn h e c v : ft_get (eg_flow_table e) h = Some c -> half_open c = Some v ->
  backlog e !! handle_idx h = Some (Some v).
Proof. intros Hg Hv. apply ft_get_some in Hg as [_ Hi]. unfold backlog. rewrite list_lookup_fmap, Hi. cbn. by rewrite Hv. Qed.

Lemma closed_conn h e c : ft_get (eg_flow_table e) h = Some c -> half_open c = None -> not_open h (backlog e) (eg_listen e).
Proof.
  intros Hg Hv v. apply ft_get_some in Hg as [_ Hi]. unfold backlog. rewrite list_lookup_fmap, Hi. cbn. by rewrite Hv.
Qed.

Lemma half_open_state c : half_open c = None <-> c_state c <> SynReceived.
Proof. unfold half_open. case_bool_decide; by split. Qed.

Create HintDb calm discriminated.
#[export] Hint Resolve calm_ret calm_skip calm_get calm_ask calm_lift calm_inc calm_inc_by calm_rx_calls calm_tx_calls
  calm_push_frame calm_push calm_wheel_cancel : calm.

Ltac half_tac :=
  intros; cbv beta; unfold set_rto_timer, set_tlp_timer, set_syn_timer, forget_timer; repeat case_match; reflexivity.

Ltac calm_step :=
  lazymatch goal with
  | |- calm _ (when _ _) => apply calm_when
  | |- calm _ (when_some _ _) => apply calm_when_some; intros ?
  | |- calm _ (for_each _ _) => apply calm_for_each; intros ? ?
  | |- calm _ (update_conn _ _) => apply calm_update_conn; half_tac
  | |- calm _ (update _) => apply calm_update; intros ?; split_and!; reflexivity
  | |- calm _ (mbind _ _) => apply calm_bind; [|intros ?]
  | |- calm _ (if ?b then _ else _) => destruct b eqn:?
  | |- calm _ (match ?x with _ => _ end) => destruct x eqn:?
  | |- calm _ _ => solve [eauto with calm]
  end.
Ltac calm_walk := repeat (cbv beta zeta; calm_step).

Section Calm.
Context `{Platform} `{EngineConfig}.
Context (P : Cond).

Lemma calm_get_conn h : calm P (get_conn h).
Proof. apply calm_get. Qed.
#[local] Hint Resolve calm_get_conn : calm.
Lemma calm_burst_one m b : calm P (burst_one m b).
Proof. unfold burst_one. calm_walk. Qed.
#[local] Hint Resolve calm_burst_one : calm.
Lemma calm_tx_submit a f b : calm P (tx_submit a f b).
Proof. unfold tx_submit. calm_walk. Qed.
#[local] Hint Resolve calm_tx_submit : calm.
Lemma calm_tx_frame b : calm P (tx_frame b).
Proof. apply calm_tx_submit. Qed.
Lemma calm_tx_tcp b seg : calm P (tx_tcp_frame b seg).
Proof. apply calm_tx_submit. Qed.
#[local] Hint Resolve calm_tx_frame calm_tx_tcp : calm.
Lemma calm_build_and_tx n seg : calm P (build_and_tx n seg).
Proof. unfold build_and_tx. calm_walk. Qed.
#[local] Hint Resolve calm_build_and_tx : calm.
Lemma calm_emit_ack h : calm P (emit_ack h).
Proof. unfold emit_ack. calm_walk. Qed.
Lemma calm_emit_rst h seg : calm P (emit_rst h seg).
Proof. unfold emit_rst. calm_walk. Qed.
Lemma calm_emit_rst_bad t seg : calm P (emit_rst_for_syn_sent_bad_ack t seg).
Proof. unfold emit_rst_for_syn_sent_bad_ack. calm_walk. Qed.
Lemma calm_rst_unmatched t seg : calm P (send_rst_unmatched t seg).
Proof. unfold send_rst_unmatched. calm_walk. Qed.
Lemma calm_emit_syn_flags h fl now : calm P (emit_syn_with_flags h fl now).
Proof. unfold emit_syn_with_flags. calm_walk. Qed.
#[local] Hint Resolve calm_emit_ack calm_emit_rst calm_emit_rst_bad calm_rst_unmatched calm_emit_syn_flags : calm.
Lemma calm_emit_syn h : calm P (emit_syn h).
Proof. unfold emit_syn. calm_walk. Qed.
Lemma calm_ts_options c : calm P (ts_options c).
Proof. unfold ts_options. calm_walk. Qed.
Lemma calm_refuse_syn a b c d i : calm P (emit_rst_for_unsolicited_syn a b c d i).
Proof. unfold emit_rst_for_unsolicited_syn. calm_walk. Qed.
Lemma calm_burst_ring l : calm P (burst_ring l).
Proof. unfold burst_ring. calm_walk. Qed.
#[local] Hint Resolve calm_emit_syn calm_ts_options calm_burst_ring : calm.
Lemma calm_drain_tx : calm P drain_tx_pending_data.
Proof. unfold drain_tx_pending_data. calm_walk. Qed.
#[local] Hint Resolve calm_drain_tx : calm.
Lemma calm_push_pending m : calm P (push_pending m).
Proof. unfold push_pending. calm_walk. Qed.
Lemma calm_fill m b : calm P (fill_mbuf m b).
Proof. unfold fill_mbuf. calm_walk. Qed.
Lemma calm_nomem h : calm P (retransmit_nomem h).
Proof. unfold retransmit_nomem. calm_walk. Qed.
#[local] Hint Resolve calm_push_pending calm_fill calm_nomem : calm.

(** Rewriting the entries in flight leaves none where there was none. *)
Lemma half_open_entries c f : f [] = [] -> (forall l, l <> [] -> f l <> []) ->
  half_open (c <| c_snd_retrans ::= f |>) = half_open c.
Proof.
  intros H1 H2. unfold half_open. conn_simpl. destruct (bool_decide _); [|done]. do 2 f_equal.
  destruct (c_snd_retrans c) as [|x l]; [by rewrite H1|]. specialize (H2 (x :: l) ltac:(done)). by destruct (f (x :: l)).
Qed.

Lemma alter_nonempty {A} (g : A -> A) i l : l <> [] -> alter g i l <> [].
Proof. destruct l as [|x l]; [done|]. by destruct i. Qed.

Lemma calm_retransmit h idx : calm P (retransmit h idx).
Proof.
  unfold retransmit. calm_walk. apply calm_update_conn. intros e c _ _.
  apply (half_open_entries c (alter (mark_resent _) idx)); [by destruct idx|intros ?; apply alter_nonempty].
Qed.

(** Arming a timer for a connection. *)
Lemma calm_arm h k now at_ set : is_u32 h -> (forall o c, half_open (set o c) = half_open c) -> calm P (arm_timer h k now at_ set).
Proof.
  intros Hh Hs. unfold arm_timer. apply calm_bind; [by apply calm_wheel_add|]. intros id. apply calm_update_conn.
  intros e c _ _. rewrite Hs. reflexivity.
Qed.
Lemma calm_arm_rto h now at_ : is_u32 h -> calm P (arm_timer h Rto now at_ set_rto_timer).
Proof. intros Hh. by apply calm_arm. Qed.
Lemma calm_arm_tlp_timer h now at_ : is_u32 h -> calm P (arm_timer h Tlp now at_ set_tlp_timer).
Proof. intros Hh. by apply calm_arm. Qed.
Lemma calm_arm_syn h now at_ : is_u32 h -> calm P (arm_timer h SynRetrans now at_ set_syn_timer).
Proof. intros Hh. by apply calm_arm. Qed.
#[local] Hint Resolve calm_retransmit calm_arm_rto calm_arm_tlp_timer calm_arm_syn : calm.

Lemma calm_arm_tlp h : is_u32 h -> calm P (arm_tlp_pto h).
Proof. intros Hh. unfold arm_tlp_pto. calm_walk. Qed.
Lemma calm_cancel_all l : calm P (cancel_all l).
Proof. unfold cancel_all. calm_walk. Qed.
Lemma calm_report_rto h l : calm P (report_rto h l).
Proof. unfold report_rto. calm_walk. Qed.
Lemma calm_syn_ack h : is_u32 h -> calm P (emit_syn_ack_for_passive h).
Proof. intros Hh. unfold emit_syn_ack_for_passive. calm_walk. Qed.
Lemma calm_tx_arp b : calm P (tx_arp b).
Proof. unfold tx_arp. calm_walk. Qed.
#[local] Hint Resolve calm_tx_arp : calm.
Lemma calm_garp : calm P maybe_emit_gratuitous_arp.
Proof. unfold maybe_emit_gratuitous_arp. calm_walk. Qed.
Lemma calm_probe_gw : calm P maybe_probe_gateway_mac.
Proof. unfold maybe_probe_gateway_mac. calm_walk. Qed.
Lemma calm_timer_add d u : calm P (public_timer_add d u).
Proof.
  unfold public_timer_add. apply calm_bind; [apply calm_ask|]. intros now. apply calm_wheel_add. cbn. width_lia.
Qed.
Lemma calm_deliver_readable h n ts : calm P (deliver_readable h n ts).
Proof. unfold deliver_readable. calm_walk. Qed.
Lemma calm_counters o : calm P (apply_tcp_input_counters o).
Proof. unfold apply_tcp_input_counters. calm_walk. Qed.
Lemma calm_rack_lost h l : calm P (retransmit_rack_lost h l).
Proof. unfold retransmit_rack_lost. calm_walk. Qed.
Lemma calm_cancel_named h o set : (forall c, half_open (set None c) = half_open c) -> calm P (cancel_named h o set).
Proof.
  intros Hs. unfold cancel_named. apply calm_when_some. intros id. apply calm_bind; [apply calm_wheel_cancel|]. intros _.
  apply calm_update_conn. intros e c _ _. rewrite <- (Hs c). reflexivity.
Qed.
Lemma calm_restart_rto h : is_u32 h -> calm P (restart_rto h).
Proof. intros Hh. unfold restart_rto. calm_walk. Qed.
Lemma calm_restart_tw h o : calm P (restart_time_wait h o).
Proof. unfold restart_time_wait. calm_walk. Qed.
Lemma calm_flags seg : calm P (flag_counters seg).
Proof. unfold flag_counters. calm_walk. Qed.
Lemma calm_arp payload : calm P (handle_arp payload).
Proof. unfold handle_arp, set_gateway_mac. calm_walk. Qed.
Lemma calm_icmp inner : calm P (handle_icmp inner).
Proof. unfold handle_icmp. calm_walk. Qed.
Lemma calm_drain_events n : calm P (drain_events n).
Proof.
  induction n as [|n IH]; cbn [drain_events]; [apply calm_ret|]. apply calm_bind; [|intros oev; calm_walk].
  intros e a e' _ E. destruct (event_pop _) as [oev q]. injection E as <- <-. by apply same_parts.
Qed.
Lemma calm_clear_drained : calm P clear_drained.
Proof. unfold clear_drained. calm_walk. Qed.
Lemma calm_clear_delivered h : calm P (clear_delivered h).
Proof. unfold clear_delivered. calm_walk. Qed.
Lemma calm_sample : calm P sample_mempools.
Proof. unfold sample_mempools. calm_walk. Qed.
Lemma calm_enomem n : calm P (check_and_emit_rx_enomem n).
Proof. unfold check_and_emit_rx_enomem. calm_walk. Qed.
Lemma calm_add_ip ip : calm P (add_local_ip ip).
Proof. unfold add_local_ip. calm_walk. Qed.
Lemma calm_next_port : calm P next_ephemeral_port.
Proof. unfold next_ephemeral_port. calm_walk. Qed.
Lemma calm_drop_queued n : calm P (drop_queued n).
Proof. induction n as [|n IH]; cbn [drop_queued]; calm_walk. Qed.
Lemma calm_clear_pinned h : calm P (clear_pinned h).
Proof. unfold clear_pinned. calm_walk. Qed.
Lemma calm_take_frames : calm P drain_tx_frames.
Proof. unfold drain_tx_frames. calm_walk. Qed.
Lemma calm_pump_tx : calm P pump_tx_drain.
Proof. unfold pump_tx_drain, intercept_is_empty. calm_walk. Qed.
End Calm.

#[export] Hint Resolve calm_get_conn calm_burst_one calm_tx_submit calm_tx_frame calm_tx_tcp calm_build_and_tx
  calm_emit_ack calm_emit_rst calm_emit_rst_bad calm_rst_unmatched calm_emit_syn_flags calm_emit_syn calm_ts_options
  calm_refuse_syn calm_burst_ring calm_drain_tx calm_push_pending calm_fill calm_nomem calm_retransmit calm_arm_rto
  calm_arm_tlp_timer calm_arm_syn calm_arm_tlp calm_cancel_all calm_report_rto calm_syn_ack calm_tx_arp calm_garp
  calm_probe_gw calm_timer_add calm_deliver_readable calm_counters calm_rack_lost calm_restart_rto calm_restart_tw
  calm_flags calm_arp calm_icmp calm_drain_events calm_clear_drained calm_clear_delivered calm_sample calm_enomem
  calm_add_ip calm_next_port calm_drop_queued calm_clear_pinned calm_take_frames calm_pump_tx : calm.

(** ** Ending a handshake *)

(** Wherever it leaves the connection, the entry of [h] is not half open any more. *)
Definition leaves {A} (h : ConnHandle) (m : M A) : Prop := forall e a e', sized (backlog e) -> m e = Some (a, e') ->
  backlog e' = <[handle_idx h := None]> (backlog e) /\ eg_listen e' = eg_listen e /\
  (typed_wheel (eg_timer_wheel e) -> typed_wheel (eg_timer_wheel e')).

Lemma insert_closed h b t : not_open h b t -> <[handle_idx h := None]> b = b.
Proof.
  intros Hn. destruct (b !! handle_idx h) as [[v|]|] eqn:E; [by destruct (Hn v)|by apply list_insert_id|].
  apply list_insert_ge. by apply lookup_ge_None.
Qed.

Lemma closed_insert h b t : not_open h (<[handle_idx h := None]> b) t.
Proof.
  intros v. destruct (decide (handle_idx h < length b)%nat); [by rewrite list_lookup_insert_eq|].
  rewrite list_insert_ge by lia. rewrite lookup_ge_None_2 by lia. done.
Qed.

Lemma sized_insert b i x : sized (<[i := x]> b) <-> sized b.
Proof. unfold sized, zlen. by rewrite length_insert. Qed.

(** Where the entry was closed to begin with, that is nothing. *)
Lemma leaves_calm {A} h (m : M A) : leaves h m -> calm (closed h) m.
Proof.
  intros Hm e a e' [Hs Hn] E. destruct (Hm _ _ _ Hs E) as (B & L & W). split_and!; [|done|done].
  rewrite B. by eapply insert_closed.
Qed.

Lemma calm_leaves {A B} P h (m : M A) (k : A -> M B) : (forall b t, P b t) -> calm P m -> (forall a, leaves h (k a)) ->
  leaves h (mbind (M := M) k m).
Proof.
  intros HP Hm Hk e b e' Hs E. apply run_bind_inv in E as (a & e1 & E1 & E2).
  destruct (Hm _ _ _ (HP _ _) E1) as (B1 & L1 & W1). destruct (Hk a e1 b e') as (B2 & L2 & W2); [by rewrite B1|done|].
  rewrite B2, L2, B1, L1. split_and!; auto.
Qed.

Lemma leaves_then {A B} h (m : M A) (k : A -> M B) : leaves h m ->
  (forall a, calm (closed h) (k a)) -> leaves h (mbind (M := M) k m).
Proof.
  intros Hm Hk e b e' Hs E. apply run_bind_inv in E as (a & e1 & E1 & E2). destruct (Hm _ _ _ Hs E1) as (B1 & L1 & W1).
  destruct (Hk a e1 b e') as (B2 & L2 & W2); [|done|].
  - rewrite B1. split; [by apply sized_insert|apply closed_insert].
  - rewrite B2, L2, L1. split_and!; auto.
Qed.

(** A handle without a connection. *)
Lemma absent_closed h e : sized (backlog e) -> ft_get (eg_flow_table e) h = None -> not_open h (backlog e) (eg_listen e).
Proof.
  intros Hs Hg v Hv. unfold ft_get, INVALID_HANDLE in Hg. destruct (Z.eqb_spec h 0) as [->|N].
  - pose proof handle_idx_0 as H0. apply lookup_lt_Some in Hv. unfold sized, zlen in Hs. lia.
  - unfold backlog in Hv. rewrite list_lookup_fmap in Hv.
    destruct (ft_slots (eg_flow_table e) !! handle_idx h) as [[c|]|]; cbn in Hg, Hv; done.
Qed.

(** A connection put in the place of another, or of none. *)
Lemma backlog_set t i o : map entry_open (<[i := o]> (ft_slots t)) = <[i := entry_open o]> (map entry_open (ft_slots t)).
Proof. apply list_fmap_insert. Qed.

Section Ending.
Context `{Platform} `{EngineConfig}.

Lemma leaves_transition h to : to <> SynReceived -> leaves h (transition_conn h to).
Proof.
  intros Nt e a e' Hs E. unfold transition_conn in E. apply run_bind_inv in E as (oc & e1 & E1 & E). injection E1 as <- <-.
  destruct (ft_get (eg_flow_table e) h) as [c|] eqn:Hg.
  2: { injection E as _ <-. split_and!; try done. symmetry. eapply insert_closed. by apply absent_closed. }
  cbv zeta in E. case_bool_decide as Ec.
  - injection E as _ <-. split_and!; try done. symmetry. eapply insert_closed. eapply closed_conn; [exact Hg|].
    apply half_open_state. congruence.
  - apply run_bind_inv in E as (? & e2 & E2 & E).
    assert (S : same e2 e').
    { revert E. match goal with |- ?m e2 = _ -> _ => assert (Hm : calm (fun _ _ => True) m) by calm_walk end. by apply Hm. }
    destruct S as (B & L & W). injection E2 as _ <-. split_and!; [|done|done]. rewrite B. unfold backlog.
    cbn [field_set eg_flow_table]. unfold ft_update. rewrite Hg. cbn [field_set ft_slots]. rewrite backlog_set. f_equal.
    cbn. by apply half_open_state.
Qed.

Lemma leaves_remove h : leaves h (remove_conn h).
Proof.
  intros e a e' Hs E. unfold remove_conn in E. destruct (ft_get (eg_flow_table e) h) as [c|] eqn:Hg.
  - assert (ft_slots (ft_remove (eg_flow_table e) h).1 = <[handle_idx h := None]> (ft_slots (eg_flow_table e))) as Et.
    { apply ft_get_some in Hg as [N Hi]. unfold ft_remove, INVALID_HANDLE. destruct (Z.eqb_spec h 0); [done|]. by rewrite Hi. }
    destruct (ft_remove _ h) as [t r]. injection E as _ <-. split_and!; [|done|done]. unfold backlog.
    cbn [field_set eg_flow_table fst] in *. rewrite Et. apply backlog_set.
  - assert (ft_remove (eg_flow_table e) h = (eg_flow_table e, None)) as Et.
    { unfold ft_get in Hg. unfold ft_remove. destruct (h =? INVALID_HANDLE); [done|]. by rewrite Hg. }
    rewrite Et in E. injection E as _ <-. split_and!; [|done|done]. symmetry.
    exact (insert_closed _ _ _ (absent_closed h e Hs Hg)).
Qed.

Lemma calm_transition h to : to <> SynReceived -> calm (closed h) (transition_conn h to).
Proof. intros N. by apply leaves_calm, leaves_transition. Qed.
Lemma calm_remove h : calm (closed h) (remove_conn h).
Proof. apply leaves_calm, leaves_remove. Qed.

Lemma leaves_tear_down h : leaves h (tear_down h).
Proof.
  unfold tear_down. apply (calm_leaves (fun _ _ => True)); [done|apply calm_get_conn|]. intros oc.
  apply (calm_leaves (fun _ _ => True)); [done|apply calm_cancel_all|]. intros _. apply leaves_remove.
Qed.
End Ending.
#[export] Hint Resolve calm_transition calm_remove : calm.

Section Ending2.
Context `{Platform} `{EngineConfig}.

Lemma leaves_force_close h : leaves h (force_close_etimedout h).
Proof.
  unfold force_close_etimedout. intros e a e' Hs E. apply run_bind_inv in E as (oc & e1 & E1 & E). injection E1 as <- <-.
  destruct (ft_get (eg_flow_table e) h) as [c|] eqn:Hg.
  2: { injection E as _ <-. split_and!; try done. symmetry. eapply insert_closed. by apply absent_closed. }
  revert E. match goal with |- ?m e = _ -> _ => assert (Hm : leaves h m) end; [|by apply Hm].
  clear. intros e a e' Hs E. apply run_bind_inv in E as (? & e1 & E1 & E).
  (* clearing what is in flight may change what is seen of the connection, which then goes *)
  assert (B1 : <[handle_idx h := None]> (backlog e1) = <[handle_idx h := None]> (backlog e) /\ sized (backlog e1) /\
    eg_listen e1 = eg_listen e /\ eg_timer_wheel e1 = eg_timer_wheel e).
  { injection E1 as _ <-. unfold backlog. cbn [field_set eg_flow_table eg_listen eg_timer_wheel]. unfold ft_update.
    destruct (ft_get _ h) as [c'|]; [|done]. cbn [field_set ft_slots]. rewrite backlog_set, list_insert_insert_eq.
    by rewrite sized_insert. }
  destruct B1 as (B1 & S1 & L1 & W1).
  assert (Hm : leaves h (tx_calls (map (fun e => FreeSeg (re_mbuf e)) (c_snd_retrans c)) ;; cancel_all (all_timer_ids c) ;;
    transition_conn h Closed ;; now ← ask pl_now; push_event (EvError h (- ETIMEDOUT) now) ;;
    push_event (EvClosed h (- ETIMEDOUT) now) ;; remove_conn h ;; inc ConnClose)).
  { apply (calm_leaves (fun _ _ => True)); [done|apply calm_tx_calls|]. intros _.
    apply (calm_leaves (fun _ _ => True)); [done|apply calm_cancel_all|]. intros _.
    apply leaves_then; [by apply leaves_transition|]. intros _. calm_walk. }
  destruct (Hm _ _ _ S1 E) as (B2 & L2 & W2). rewrite B2, L2, B1, L1. rewrite W1 in W2. by split_and!.
Qed.
End Ending2.
