(* ===== verification/ServerBacklog.v ===== *)
(** * Sessions of a listening engine keep the backlog in order

    The rules of [EngineBacklog] applied to the operations that begin or end a handshake,
    to the receive path and the timers around them, and to a whole server session. *)

From S2P Require Import Prelude.
From S2P Require Import Options.
From S2P Require Import Mbuf.
From S2P Require Import Reassembly.
From S2P Require Import Retrans.
From S2P Require Import Rtt.
From S2P Require Import Tlp.
From S2P Require Import Ip.
From S2P Require Import TimerWheel.
From S2P Require Import Output.
From S2P Require Import Segment.
From S2P Require Import Conn.
From S2P Require Import FlowTable.
From S2P Require Import Input.
From S2P Require Import Receive.
From S2P Require Import Dispatch.
From S2P Require Import InputSpec.
From S2P Require Import DispatchFrame.
From S2P Require Import AckBuild.
From S2P Require Import Events.
From S2P Require Import Iss.
From S2P Require Import Listen.
From S2P Require Import Engine.
From S2P Require Import EngineTx.
From S2P Require Import EngineTimers.
From S2P Require Import EngineListen.
From S2P Require Import EngineRx.
From S2P Require Import EngineApi.
From S2P Require Import EngineInv.
From S2P Require Import EngineSpec.
From S2P Require Import Lifetime.
From S2P Require Import Server.
From S2P Require Import Backlog.
From S2P Require Import EngineBacklog.

(** ** More rules *)

Lemma calm_closed {A} h (m : M A) : calm (fun _ _ => True) m -> calm (closed h) m.
Proof. by apply calm_weaken. Qed.

(** The entry of [h] holds a connection seen as [o]. *)
Definition seen (h : ConnHandle) (o : option HalfOpen) : Cond := fun b _ => b !! handle_idx h = Some o.

Lemma seen_conn h o e c : seen h o (backlog e) (eg_listen e) -> ft_get (eg_flow_table e) h = Some c -> half_open c = o.
Proof.
  unfold seen, backlog. intros Hs Hg. apply ft_get_some in Hg as [_ Hi]. rewrite list_lookup_fmap, Hi in Hs. by injection Hs.
Qed.

Lemma conn_seen h e c : ft_get (eg_flow_table e) h = Some c -> seen h (half_open c) (backlog e) (eg_listen e).
Proof. unfold seen, backlog. intros Hg. apply ft_get_some in Hg as [_ Hi]. by rewrite list_lookup_fmap, Hi. Qed.

Lemma seen_closed h b t : sized b -> seen h None b t -> closed h b t.
Proof. intros Hs Hn. split; [done|]. intros v Hv. unfold seen in Hn. congruence. Qed.

Section Rules2.
Context (P : Cond).

(** Looking a connection up, and what is known of its entry from then on. *)
Lemma calm_focus {B} h (k : option TcpConn -> M B) : calm P (k None) ->
  (forall c, h <> 0 -> calm (fun b t => P b t /\ seen h (half_open c) b t) (k (Some c))) ->
  calm P (mbind (M := M) k (get_conn h)).
Proof.
  intros H1 H2 e b e' HP E. apply run_bind_inv in E as (oc & e1 & E1 & E). injection E1 as <- <-.
  destruct (ft_get (eg_flow_table e) h) as [c|] eqn:Hg; [|by eapply H1].
  assert (h <> 0) by (apply ft_get_some in Hg; tauto). eapply (H2 c); [done| |exact E]. split; [done|]. by apply conn_seen.
Qed.

Lemma calm_update_seen h o f : (forall b t, P b t -> seen h o b t) -> (forall c, half_open c = o -> half_open (f c) = o) ->
  calm P (update_conn h f).
Proof.
  intros Hp Hf. apply calm_update_conn. intros e c HP Hg. pose proof (seen_conn _ _ _ _ (Hp _ _ HP) Hg) as Ho.
  rewrite Ho. by apply Hf.
Qed.

Lemma calm_update_closed h f : (forall b t, P b t -> not_open h b t) ->
  (forall c, c_state c <> SynReceived -> c_state (f c) <> SynReceived) -> calm P (update_conn h f).
Proof.
  intros Hp Hf. apply calm_update_conn. intros e c HP Hg. pose proof (not_open_conn h e c (Hp _ _ HP) Hg) as Hc.
  rewrite Hc. apply half_open_state. apply Hf. by apply half_open_state.
Qed.
End Rules2.

(** A connection that never was in its handshake may be put in the table. *)
Lemma insert_spec conn e oh e' : sized (backlog e) -> insert_conn conn e = Some (oh, e') ->
  eg_listen e' = eg_listen e /\ eg_timer_wheel e' = eg_timer_wheel e /\
  match oh with
  | None => backlog e' = backlog e
  | Some h => is_u32 h /\ nth_handle (handle_idx h) = h /\ backlog e !! handle_idx h = Some None /\
              backlog e' = <[handle_idx h := half_open conn]> (backlog e)
  end.
Proof.
  intros Hs E. unfold insert_conn, ft_insert in E. destruct (_ !! c_four_tuple conn) as [i|] eqn:El.
  { injection E as <- <-. by split_and!. }
  pose proof (first_free_spec (ft_slots (eg_flow_table e))) as Hff.
  destruct (first_free (ft_slots (eg_flow_table e))) as [i|]; [|injection E as <- <-; by split_and!].
  destruct Hff as [Hi _]. cbn [field_set] in E. injection E as <- <-. cbn [field_set eg_listen eg_timer_wheel].
  split; [done|]. split; [done|].
  assert (Hb : 0 <= Z.of_nat i < two32 - 1).
  { apply lookup_lt_Some in Hi. unfold sized, backlog, zlen in Hs. rewrite length_map in Hs. lia. }
  destruct (handle_idx_S i Hb) as [-> Hx]. rewrite Hx. unfold nth_handle, backlog. cbn [field_set eg_flow_table ft_slots].
  split; [width_lia|]. split; [done|]. split; [by rewrite list_lookup_fmap, Hi|]. apply backlog_set.
Qed.

Lemma nth_idx h : is_u32 h -> h <> 0 -> nth_handle (handle_idx h) = h.
Proof. intros Hu N. unfold nth_handle, handle_idx. rewrite wsub32_id by width_lia. width_lia. Qed.

(** ** Steps that end a handshake *)

Definition hoare {A} (P Q : Engine -> Prop) (m : M A) : Prop := forall e a e', P e -> m e = Some (a, e') -> Q e'.

(** What only looks at the backlog, the slots and the owners of the timers. *)
Definition stable (P : Engine -> Prop) : Prop := forall e e', same e e' -> P e -> P e'.

(** The invariant, the entry of [h] being closed. *)
Record settled (h : ConnHandle) (e : Engine) : Prop := {
  se_ok : backlog_ok e;
  se_closed : closed h (backlog e) (eg_listen e)
}.

(** The connection of [h] has left its handshake, its slot does not know yet ... *)
Definition leaving (h : ConnHandle) (e : Engine) : Prop :=
  exists b, sized b /\ typed_wheel (eg_timer_wheel e) /\ linked b (eg_listen e) /\ backlog e = <[handle_idx h := None]> b.
(** ... or the other way round. *)
Definition freed (h : ConnHandle) (e : Engine) : Prop :=
  exists t, sized (backlog e) /\ typed_wheel (eg_timer_wheel e) /\ linked (backlog e) t /\ eg_listen e = clear_progress h t.

Definition seeing (h : ConnHandle) (o : option HalfOpen) (e : Engine) : Prop :=
  backlog_ok e /\ seen h o (backlog e) (eg_listen e).

Lemma stable_ok : stable backlog_ok.
Proof. intros e e' S. by apply same_ok. Qed.
Lemma stable_settled h : stable (settled h).
Proof. intros e e' S [H1 H2]. split; [by eapply same_ok|by eapply same_cond]. Qed.
Lemma stable_seeing h o : stable (seeing h o).
Proof. intros e e' S [H1 H2]. split; [by eapply same_ok|by eapply same_cond]. Qed.
Lemma stable_leaving h : stable (leaving h).
Proof. intros e e' (B & L & W) (b & H1 & H2 & H3 & H4). exists b. rewrite B, L. auto. Qed.
Lemma stable_freed h : stable (freed h).
Proof. intros e e' (B & L & W) (t & H1 & H2 & H3 & H4). exists t. rewrite B, L. auto. Qed.
#[export] Hint Resolve stable_ok stable_settled stable_seeing stable_leaving stable_freed : calm.

Lemma settled_ok h e : settled h e -> backlog_ok e.
Proof. by intros []. Qed.
Lemma settled_leaving h e : settled h e -> leaving h e.
Proof.
  intros [[H1 H2 H3] [_ H4]]. exists (backlog e). split_and!; try done. symmetry. by eapply insert_closed.
Qed.
Lemma seeing_closed h e : seeing h None e -> settled h e.
Proof. intros [H1 H2]. split; [done|]. by apply seen_closed; [destruct H1|]. Qed.
Lemma seeing_ok h o e : seeing h o e -> backlog_ok e.
Proof. by intros []. Qed.
(** A half-open connection is a passive one, with nothing in flight. *)
Lemma seeing_open h v e : seeing h (Some v) e -> ho_passive v = true /\ ho_idle v = true.
Proof. intros [[_ _ H3] Hs]. destruct (lk_open _ _ H3 _ _ Hs) as (? & ? & _). done. Qed.

Section Hoare.
Context {A B : Type} (P Q R : Engine -> Prop).

Lemma hoare_bind (m : M A) (k : A -> M B) : hoare P R m -> (forall a, hoare R Q (k a)) -> hoare P Q (mbind (M := M) k m).
Proof. intros Hm Hk e b e' HP E. apply run_bind_inv in E as (a & e1 & E1 & E2). eapply Hk; [|exact E2]. by eapply Hm. Qed.
Lemma hoare_pre (m : M A) : (forall e, P e -> R e) -> hoare R Q m -> hoare P Q m.
Proof. intros H Hm e a e' HP. apply Hm. by apply H. Qed.
Lemma hoare_post (m : M A) : (forall e, R e -> Q e) -> hoare P R m -> hoare P Q m.
Proof. intros H Hm e a e' HP E. eapply H. by eapply Hm. Qed.
Lemma hoare_pure (phi : Prop) (m : M A) : (forall e, P e -> phi) -> (phi -> hoare P Q m) -> hoare P Q m.
Proof. intros H Hm e a e' HP. apply Hm; [by eapply H|done]. Qed.
Lemma hoare_calm (C : Cond) (m : M A) : calm C m -> stable P -> (forall e, P e -> C (backlog e) (eg_listen e)) -> hoare P P m.
Proof. intros Hm Hs Hc e a e' HP E. eapply Hs; [|exact HP]. eapply Hm; [|exact E]. by apply Hc. Qed.
Lemma hoare_ret (a : A) : (forall e, P e -> Q e) -> hoare P Q (mret a).
Proof. intros H e b e' HP E. injection E as _ <-. by apply H. Qed.
End Hoare.

Lemma hoare_quiet {A} P (m : M A) : calm (fun _ _ => True) m -> stable P -> hoare P P m.
Proof. intros Hm Hs. by eapply hoare_calm. Qed.
Lemma hoare_settled {A} h (m : M A) : calm (closed h) m -> hoare (settled h) (settled h) m.
Proof. intros Hm. eapply hoare_calm; [exact Hm|apply stable_settled|]. by intros e []. Qed.
Lemma hoare_when P b (m : M unit) : hoare P P m -> hoare P P (when b m).
Proof. intros Hm. destruct b; [done|]. intros e a e' HP E. by injection E as _ <-. Qed.
Lemma hoare_then {A B} P Q (m : M A) (k : A -> M B) : calm (fun _ _ => True) m -> stable P -> (forall a, hoare P Q (k a)) ->
  hoare P Q (mbind (M := M) k m).
Proof. intros Hm Hs Hk. eapply hoare_bind; [by apply hoare_quiet|exact Hk]. Qed.
Lemma hoare_for_each {A} P (l : list A) (body : A -> M unit) : (forall x, x ∈ l -> hoare P P (body x)) -> hoare P P (for_each l body).
Proof.
  induction l as [|x l IH]; intros Hb; cbn [for_each]; [by apply hoare_ret|].
  eapply hoare_bind; [apply Hb; by left|]. intros _. apply IH. intros y Hy. apply Hb. by right.
Qed.

(** Looking a connection up under the invariant. *)
Lemma hoare_focus {B} Q h (k : option TcpConn -> M B) : hoare backlog_ok Q (k None) ->
  (forall c, h <> 0 -> hoare (seeing h (half_open c)) Q (k (Some c))) -> hoare backlog_ok Q (mbind (M := M) k (get_conn h)).
Proof.
  intros H1 H2 e b e' He E. apply run_bind_inv in E as (oc & e1 & E1 & E). injection E1 as <- <-.
  destruct (ft_get (eg_flow_table e) h) as [c|] eqn:Hg; [|by eapply H1].
  assert (h <> 0) by (apply ft_get_some in Hg; tauto). eapply (H2 c); [done| |exact E]. split; [done|]. by apply conn_seen.
Qed.

(** *** The two halves of an ending, in either order *)

Lemma hoare_leave {A} h (m : M A) : leaves h m -> hoare backlog_ok (leaving h) m.
Proof.
  intros Hm e a e' [H1 H2 H3] E. destruct (Hm _ _ _ H1 E) as (B & L & W). exists (backlog e). rewrite L. auto.
Qed.

Lemma hoare_free h : hoare backlog_ok (freed h) (clear_in_progress_for_conn h).
Proof. intros e a e' [H1 H2 H3] E. injection E as _ <-. by exists (eg_listen e). Qed.

Section Slot.
Context (h : ConnHandle) (Hu : is_u32 h) (Hn : h <> 0).

Lemma hoare_slot (f : ListenSlot -> ListenSlot) :
  (forall s, slot_addr (on_slot f s) = slot_addr s) -> (forall s, ls_in_progress (f s) = None) ->
  hoare (leaving h) (settled h) (update_listen (fun t => t <| lt_slots ::= update_slot (in_progress_is h) f |>)).
Proof.
  intros Ha Hf e a e' (b & H1 & H2 & H3 & H4) E. injection E as _ <-.
  assert (Hl : linked (<[handle_idx h := None]> b) ((eg_listen e) <| lt_slots ::= update_slot (in_progress_is h) f |>)).
  { rewrite <- (nth_idx h Hu Hn) at 2. by apply linked_leave. }
  split; [split|split].
  - change (sized (backlog e)). rewrite H4. by apply sized_insert.
  - exact H2.
  - change (linked (backlog e) ((eg_listen e) <| lt_slots ::= update_slot (in_progress_is h) f |>)). by rewrite H4.
  - change (sized (backlog e)). rewrite H4. by apply sized_insert.
  - change (not_open h (backlog e) (eg_listen e)). rewrite H4. by eapply closed_insert.
Qed.

Lemma hoare_promote : hoare (leaving h) (settled h) (listen_promote_to_accept_queue h).
Proof. by apply hoare_slot. Qed.
Lemma hoare_clear : hoare (leaving h) (settled h) (clear_in_progress_for_conn h).
Proof. by apply hoare_slot. Qed.

Lemma hoare_finish {A} (m : M A) : leaves h m -> hoare (freed h) (settled h) m.
Proof.
  intros Hm e a e' (t & H1 & H2 & H3 & H4) E. destruct (Hm _ _ _ H1 E) as (B & L & W).
  assert (Hl : linked (<[handle_idx h := None]> (backlog e)) (clear_progress h t)).
  { unfold clear_progress. rewrite <- (nth_idx h Hu Hn) at 2. by apply linked_leave. }
  split; [split|split]; rewrite ?B, ?L, ?H4; auto; try by apply sized_insert. by eapply closed_insert.
Qed.
End Slot.

(** ** Operations *)

Section Steps.
Context `{Platform} `{EngineConfig}.

(** *** Where the connection is not half open *)

Lemma calm_record h entry now : is_u32 h -> calm (closed h) (record_in_flight h entry now).
Proof.
  intros Hu. unfold record_in_flight. apply calm_bind; [apply calm_get_conn|]. intros [c|]; [|apply calm_skip]. cbv zeta.
  apply calm_bind; [|intros ?; calm_walk]. apply calm_update_closed; [by intros b t []|]. done.
Qed.

Lemma calm_send_one h c seq payload : is_u32 h -> calm (closed h) (send_one h c seq payload).
Proof. intros Hu. pose proof calm_record. unfold send_one. calm_walk. Qed.

Lemma calm_send_loop n h c cap : is_u32 h -> forall bytes rem acc cur, calm (closed h) (send_loop n h c cap bytes rem acc cur).
Proof.
  intros Hu. induction n as [|n IH]; intros bytes rem acc cur; cbn [send_loop]; [calm_walk|]. destruct (0 <? rem); [|calm_walk].
  cbv zeta. apply calm_bind; [by apply calm_send_one|]. intros [| |]; [apply IH| |]; calm_walk.
Qed.

Lemma calm_cancel_rto P h o : calm P (cancel_named h o set_rto_timer).
Proof. by apply calm_cancel_named. Qed.
Lemma calm_cancel_tlp P h o : calm P (cancel_named h o set_tlp_timer).
Proof. by apply calm_cancel_named. Qed.
#[local] Hint Resolve calm_cancel_rto calm_cancel_tlp : calm.

Lemma calm_ack_advance h una : is_u32 h -> calm (closed h) (process_ack_advance h una).
Proof.
  intros Hu. unfold process_ack_advance. apply calm_bind; [apply calm_get_conn|]. intros oc. apply calm_bind.
  - apply calm_when_some. intros c. destruct (prune_below_into_mbufs _ _ _) as [kept freed_]. apply calm_bind; [|intros ?; calm_walk].
    apply calm_update_closed; [by intros b t []|done].
  - intros _. calm_walk.
Qed.

Lemma calm_tear_down h : calm (closed h) (tear_down h).
Proof. apply leaves_calm, leaves_tear_down. Qed.
Lemma calm_force_close h : calm (closed h) (force_close_etimedout h).
Proof. apply leaves_calm, leaves_force_close. Qed.
#[local] Hint Resolve calm_tear_down calm_force_close calm_ack_advance : calm.

Lemma calm_finish_close h seg o : calm (closed h) (finish_close h seg o).
Proof. unfold finish_close. calm_walk. Qed.

Lemma calm_perform_tx h tuple seg tx : calm (closed h) (perform_tx h tuple seg tx).
Proof.
  unfold perform_tx. destruct tx; [apply calm_skip|calm_walk| |]; (apply calm_bind; [calm_walk|]; intros _; by apply calm_transition).
Qed.
#[local] Hint Resolve calm_finish_close calm_perform_tx : calm.

(** *** Calls of the application *)

Lemma calm_state h (c : TcpConn) b t : sized b /\ seen h (half_open c) b t -> c_state c <> SynReceived -> closed h b t.
Proof. intros [Hs Hn] Hc. apply seen_closed; [done|]. apply half_open_state in Hc. by rewrite <- Hc. Qed.

Lemma preserves_send h bytes : is_u32 h -> hoare backlog_ok backlog_ok (send_bytes h bytes).
Proof.
  intros Hu. unfold send_bytes. apply hoare_focus; [by apply hoare_ret|]. intros c _.
  case_bool_decide as Es; cbn [negb]; [|apply hoare_ret; apply seeing_ok]. cbv zeta.
  eapply hoare_pre; [|eapply hoare_post; [apply (settled_ok h)|]].
  { intros e He. apply seeing_closed. by rewrite (proj2 (half_open_state c)) in He by congruence. }
  eapply hoare_bind; [apply hoare_settled; by apply calm_send_loop|]. intros [[accepted cur]|]; [|by apply hoare_ret].
  eapply hoare_settled. calm_walk.
Qed.

Lemma preserves_close h flags : hoare backlog_ok backlog_ok (close_conn_with_flags h flags).
Proof.
  unfold close_conn_with_flags. apply hoare_then; [calm_walk|apply stable_ok|]. intros _. unfold close_conn.
  apply hoare_focus; [by apply hoare_ret|]. intros c _.
  destruct (fin_target (c_state c)) as [to|] eqn:Ef; [|apply hoare_ret; apply seeing_ok].
  assert (Hc : c_state c <> SynReceived /\ to <> SynReceived) by (destruct (c_state c); try discriminate Ef; injection Ef as <-; done).
  destruct Hc as [Hc Ht]. eapply hoare_pre; [|eapply hoare_post; [apply (settled_ok h)|]].
  { intros e He. apply seeing_closed. by rewrite (proj2 (half_open_state c)) in He. }
  apply hoare_settled. calm_walk.
Qed.

Lemma preserves_connect ip port hint opts : hoare backlog_ok backlog_ok (connect_with_opts ip port hint opts).
Proof.
  unfold connect_with_opts. destruct (local_ip =? 0); [by apply hoare_ret|]. apply hoare_then; [calm_walk|apply stable_ok|]. intros gw.
  destruct (bool_decide _); [by apply hoare_ret|]. apply hoare_then; [calm_walk|apply stable_ok|]. intros sec.
  destruct (select_source_ip _ _ _) as [sel|]; [|by apply hoare_ret]. apply hoare_then; [calm_walk|apply stable_ok|]. intros lp.
  apply hoare_then; [calm_walk|apply stable_ok|]. intros now. cbv zeta.
  intros e b e' He E. apply run_bind_inv in E as (oh & e1 & E1 & E).
  apply insert_spec in E1 as (L & W & E1); [|by destruct He].
  destruct oh as [h|].
  2: { revert E. assert (same e e1) as S by (unfold same; by rewrite E1, L, W). apply (same_ok _ _ S) in He. revert He. generalize e1.
       intros e2 He E. eapply (hoare_quiet backlog_ok); [|apply stable_ok|exact He|exact E]. calm_walk. }
  destruct E1 as (Hu & Hh & Hi & E1). change (half_open (new_client _ _ _ _ _ _ _ _)) with (@None HalfOpen) in E1.
  rewrite list_insert_id in E1 by done. assert (same e e1) as S by (unfold same; by rewrite E1, L, W). apply (same_ok _ _ S) in He.
  assert (Hs : settled h e1).
  { split; [done|]. apply seen_closed; [by destruct He|]. unfold seen. by rewrite E1. }
  eapply settled_ok. revert Hs E.
  match goal with |- _ -> ?m e1 = _ -> _ => assert (Hm : hoare (settled h) (settled h) m) end; [|by apply Hm].
  apply hoare_settled. unfold start_handshake. calm_walk.
Qed.

(** *** Timers *)

Lemma calm_try_update P h f : (forall c c', f c = Some c' -> half_open c' = half_open c) -> calm P (try_update_conn h f).
Proof.
  intros Hf. unfold try_update_conn. apply calm_focus; [apply calm_skip|]. intros c _. destruct (f c) as [c'|] eqn:Ef.
  - match goal with |- calm ?C _ => change (calm C (update_conn h (fun _ => c'))) end.
    apply (calm_update_seen _ h (half_open c)); [by intros b t []|]. intros _ _. by apply Hf.
  - by intros e a e' _ E.
Qed.

Lemma probe_half_open c seq len now c' : on_tlp_probe_fired c seq len now = Some c' -> half_open c' = half_open c.
Proof. unfold on_tlp_probe_fired. destruct (_ <? _)%nat; [|done]. intros E. by injection E as <-. Qed.

Lemma calm_tlp_fire P h id : calm P (on_tlp_fire h id).
Proof.
  unfold on_tlp_fire. apply calm_bind; [apply calm_get_conn|]. intros [c|]; [|apply calm_skip].
  destruct (negb _); [apply calm_skip|]. apply calm_bind; [calm_walk|]. intros _. cbv zeta.
  destruct (select_probe _ _); [|apply calm_skip]. apply calm_bind; [calm_walk|]. intros _. apply calm_bind; [calm_walk|]. intros _.
  apply calm_bind; [calm_walk|]. intros oc. apply calm_bind; [|intros ?; calm_walk]. apply calm_when_some. intros en.
  apply calm_bind; [calm_walk|]. intros now. apply calm_try_update. intros c1 c2. apply probe_half_open.
Qed.

(** A half-open connection has nothing to retransmit. *)
Lemma preserves_rto_fire h id : is_u32 h -> hoare backlog_ok backlog_ok (on_rto_fire h id).
Proof.
  intros Hu. unfold on_rto_fire. apply hoare_focus; [by apply hoare_ret|]. intros c _.
  destruct (negb _); [apply hoare_ret; apply seeing_ok|]. destruct (half_open c) as [v|] eqn:Hc.
  - apply (hoare_pure _ _ (ho_idle v = true)); [intros e He; exact (proj2 (seeing_open _ _ _ He))|]. intros Hi.
    eapply hoare_post; [apply (seeing_ok h (Some v))|]. apply hoare_then; [calm_walk|apply stable_seeing|]. intros _.
    unfold half_open in Hc. destruct (bool_decide _); [|done]. injection Hc as <-. cbn [ho_idle] in Hi.
    destruct (c_snd_retrans c); [by apply hoare_ret|done].
  - eapply hoare_pre; [apply seeing_closed|]. eapply hoare_post; [apply (settled_ok h)|]. apply hoare_settled.
    apply calm_bind; [calm_walk|]. intros _. destruct (match c_snd_retrans c with [] => true | _ => false end); [apply calm_skip|].
    apply calm_bind; [calm_walk|]. intros now. apply calm_bind; [apply calm_update_closed; [by intros b t []|done]|]. intros _.
    pose proof calm_force_close. calm_walk.
Qed.

Lemma preserves_syn_fire h id : test_server = true -> is_u32 h -> hoare backlog_ok backlog_ok (on_syn_retrans_fire h id).
Proof.
  intros Hts Hu. unfold on_syn_retrans_fire. apply hoare_focus; [by apply hoare_ret|]. intros c Hn.
  destruct (negb _); [apply hoare_ret; apply seeing_ok|]. apply hoare_then; [calm_walk|apply stable_seeing|]. intros _.
  destruct (negb _); [apply hoare_ret; apply seeing_ok|]. cbv zeta. apply hoare_then; [calm_walk|apply stable_seeing|]. intros _.
  destruct (3 <? _).
  2: { eapply hoare_pre; [apply seeing_ok|]. apply hoare_quiet; [|apply stable_ok]. calm_walk. }
  apply hoare_then; [calm_walk|apply stable_seeing|]. intros _. rewrite Hts. destruct (c_is_passive_open c) eqn:Ep; cbn [andb when].
  - eapply hoare_pre; [apply seeing_ok|]. eapply hoare_bind; [apply hoare_free|]. intros _.
    eapply hoare_post; [apply (settled_ok h)|]. apply hoare_finish; [done|done|]. apply leaves_force_close.
  - destruct (half_open c) as [v|] eqn:Hc.
    { apply (hoare_pure _ _ (ho_passive v = true)); [intros e He; exact (proj1 (seeing_open _ _ _ He))|]. intros Hi. exfalso.
      unfold half_open in Hc. destruct (bool_decide _); [|done]. injection Hc as <-. cbn in Hi. congruence. }
    eapply hoare_pre; [apply seeing_closed|]. eapply hoare_post; [apply (settled_ok h)|]. apply hoare_settled.
    apply calm_bind; [apply calm_skip|]. intros _. apply calm_force_close.
Qed.

Lemma preserves_fire_timers now : test_server = true -> hoare backlog_ok backlog_ok (fire_timers_at now).
Proof.
  intros Hts e n e' He E. unfold fire_timers_at in E. apply run_bind_inv in E as (fired & e1 & E1 & E).
  pose proof (typed_advance now (eg_timer_wheel e)) as T. destruct (advance now (eg_timer_wheel e)) as [w fired'].
  injection E1 as -> <-. destruct He as [H1 H2 H3]. destruct T as [T1 T2]; [done|]. cbn [fst snd] in *.
  assert (He : backlog_ok (e <| eg_timer_wheel := w |>)) by by split.
  revert E. match goal with |- ?m ?e1 = _ -> _ => assert (Hm : hoare backlog_ok backlog_ok m) end; [|by apply Hm].
  eapply hoare_bind; [|intros ?; by apply hoare_ret]. apply hoare_for_each. intros [id nd] Hx.
  assert (Hu : is_u32 (owner_handle nd)) by (unfold typed_fired in T2; rewrite Forall_forall in T2; exact (T2 _ Hx)).
  unfold fire_one. destruct (tn_kind nd).
  - by apply preserves_rto_fire.
  - apply hoare_quiet; [apply calm_tlp_fire|apply stable_ok].
  - by apply preserves_syn_fire.
  - apply hoare_quiet; [calm_walk|apply stable_ok].
Qed.

Lemma preserves_reap : hoare backlog_ok backlog_ok reap_time_wait.
Proof.
  unfold reap_time_wait. apply hoare_then; [calm_walk|apply stable_ok|]. intros now e a e' He E.
  apply run_bind_inv in E as (l & e1 & E1 & E). injection E1 as <- <-.
  assert (Hl : forall h, h ∈ reverse (reap_candidates now (eg_flow_table e)) -> closed h (backlog e) (eg_listen e)).
  { intros h Hh. rewrite elem_of_reverse in Hh. unfold reap_candidates in Hh. apply list_elem_of_filter in Hh as [Hr _].
    destruct (ft_get (eg_flow_table e) h) as [c|] eqn:Hg; [|done]. split; [by destruct He|]. eapply closed_conn; [exact Hg|].
    apply half_open_state. unfold reapable in Hr. apply andb_true_iff in Hr as [Hr _]. apply bool_decide_eq_true in Hr. congruence. }
  revert Hl E. generalize (reverse (reap_candidates now (eg_flow_table e))) as l. intros l Hl E.
  eapply same_ok; [|exact He]. revert E. apply (calm_for_each (fun b t => forall h, h ∈ l -> closed h b t)); [|done].
  intros h Hh. eapply (calm_weaken _ (closed h)); [by auto|]. pose proof calm_tear_down. calm_walk.
Qed.

(** *** The passive open *)

Lemma status_inv lh t ip port : slot_status lh t = Some (ip, port, false) ->
  exists s, find_slot (with_handle lh) (lt_slots t) = Some s /\ slot_addr s = (ip, port) /\
    ls_accept_queue s.2 = None /\ ls_in_progress s.2 = None.
Proof.
  unfold slot_status, slot_addr. destruct (find_slot _ _) as [s|]; [|done]. cbn [fmap option_fmap option_map].
  intros E. exists s. injection E as <- <- E. by destruct (ls_accept_queue s.2), (ls_in_progress s.2).
Qed.

Lemma passive_half_open tuple iss_peer opts e c e' : passive_conn tuple iss_peer opts e = Some (c, e') ->
  half_open c = Some (mkHalfOpen tuple true true).
Proof.
  unfold passive_conn. intros E. apply run_bind_inv in E as (now & e1 & _ & E). cbv zeta in E.
  apply run_bind_inv in E as (ts & e2 & _ & E). injection E as <- _. unfold new_passive. by destruct (timestamps opts) as [[? ?]|].
Qed.

Lemma calm_passive P tuple iss_peer opts : calm P (passive_conn tuple iss_peer opts).
Proof. unfold passive_conn. calm_walk. Qed.

Lemma preserves_inbound_syn lh ip port iss opts : hoare backlog_ok backlog_ok (handle_inbound_syn_listen lh ip port iss opts).
Proof.
  unfold handle_inbound_syn_listen. intros e r e' He E. apply run_bind_inv in E as (st & e1 & E1 & E). injection E1 as <- <-.
  destruct (slot_status lh (eg_listen e)) as [[[lip lport] full]|] eqn:Est; [|by injection E as _ <-].
  destruct full.
  { eapply (hoare_quiet backlog_ok); [|apply stable_ok|exact He|exact E]. pose proof @calm_refuse_syn. calm_walk. }
  apply run_bind_inv in E as (c & e1 & E1 & E). pose proof (passive_half_open _ _ _ _ _ _ E1) as Hc.
  assert (S1 : same e e1) by (by apply (calm_passive (fun _ _ => True)) in E1). apply (same_ok _ _ S1) in He.
  destruct S1 as (_ & L1 & _). apply status_inv in Est as (s & Hs & Ha & Hq & Hp). rewrite <- L1 in Hs.
  apply run_bind_inv in E as (oh & e2 & E2 & E). apply insert_spec in E2 as (L2 & W2 & E2); [|by destruct He].
  destruct oh as [h|]; [|injection E as _ <-; eapply same_ok; [|exact He]; unfold same; by rewrite E2, L2, W2].
  destruct E2 as (Hu & Hh & Hi & B2). rewrite Hc in B2.
  apply run_bind_inv in E as (st & e3 & E3 & E). injection E3 as <- <-. rewrite L2 in E. unfold slot_status in E. rewrite Hs in E.
  cbn [fmap option_fmap option_map] in E. apply run_bind_inv in E as (u & e4 & E4 & E). injection E4 as _ <-.
  assert (He4 : backlog_ok (e2 <| eg_listen ::= set_in_progress lh h |>)).
  { destruct He as [H1 H2 H3]. split.
    - change (sized (backlog e2)). rewrite B2. by apply sized_insert.
    - change (typed_wheel (eg_timer_wheel e2)). by rewrite W2.
    - change (linked (backlog e2) (set_in_progress lh h (eg_listen e2))). rewrite B2, L2. rewrite <- Hh at 2.
      by eapply linked_enter. }
  revert E. match goal with |- ?m ?e4 = _ -> _ => assert (Hm : hoare backlog_ok backlog_ok m) end.
  { apply hoare_quiet; [|apply stable_ok]. calm_walk. }
  intros E. exact (Hm _ _ _ He4 E).
Qed.

Lemma preserves_listen_input tuple seg : hoare backlog_ok backlog_ok (listen_input tuple seg).
Proof.
  unfold listen_input. destruct (negb _); [by apply hoare_ret|]. apply hoare_then; [calm_walk|apply stable_ok|]. intros [lh|]; [|by apply hoare_ret].
  apply hoare_then; [calm_walk|apply stable_ok|]. intros _. apply hoare_then; [calm_walk|apply stable_ok|]. intros parsed. cbv zeta.
  eapply hoare_bind; [apply preserves_inbound_syn|]. intros ?. by apply hoare_ret.
Qed.

(** *** The end of a handshake *)

Lemma settled_relisten h : is_u32 h -> hoare backlog_ok (settled h) (re_listen_if_from_passive h).
Proof.
  intros Hu. unfold re_listen_if_from_passive. intros e a e' He E. destruct (ft_get (eg_flow_table e) h) as [c|] eqn:Hg.
  2: { unfold get_conn, get, mbind, M_bind in E. rewrite Hg in E. injection E as _ <-. split; [done|].
       destruct He as [H1 _ _]. split; [done|]. by apply absent_closed. }
  revert e a e' He Hg E. intros e a e' He Hg E. apply run_bind_inv in E as (oc & e1 & E1 & E). injection E1 as <- <-. rewrite Hg in E.
  assert (Hs : seeing h (half_open c) e) by (split; [done|by apply conn_seen]).
  assert (Hn : h <> 0) by (apply ft_get_some in Hg as [? _]; done).
  destruct (c_is_passive_open c) eqn:Ep; cbn [negb] in E.
  - revert He E. match goal with |- _ -> ?m e = _ -> _ => assert (Hm : hoare backlog_ok (settled h) m) end; [|by apply Hm].
    eapply hoare_bind; [apply hoare_free|]. intros _. apply hoare_then; [calm_walk|apply stable_freed|]. intros _.
    apply hoare_then; [calm_walk|apply stable_freed|]. intros oc. cbv zeta. apply hoare_then; [calm_walk|apply stable_freed|]. intros _.
    apply hoare_then; [calm_walk|apply stable_freed|]. intros _. apply hoare_finish; [done|done|]. apply leaves_remove.
  - injection E as _ <-. destruct (half_open c) as [v|] eqn:Hc; [|by apply seeing_closed]. exfalso.
    apply seeing_open in Hs as [Hv _]. unfold half_open in Hc. destruct (bool_decide _); [|done]. injection Hc as <-. cbn in Hv. congruence.
Qed.

Lemma settled_clear h : is_u32 h -> h <> 0 -> hoare (settled h) (settled h) (clear_in_progress_for_conn h).
Proof. intros Hu Hn. eapply hoare_pre; [apply settled_leaving|]. by apply hoare_clear. Qed.

Lemma settled_outcome h o : is_u32 h -> h <> 0 -> hoare (settled h) (settled h) (handshake_outcome h o).
Proof.
  intros Hu Hn. unfold handshake_outcome. apply hoare_when.
  eapply hoare_bind; [by apply hoare_when, settled_clear|]. intros _. eapply hoare_bind.
  - apply hoare_when. eapply hoare_pre; [apply settled_ok|]. by apply settled_relisten.
  - intros _. apply hoare_when, hoare_quiet; [by apply calm_syn_ack|apply stable_settled].
Qed.

Lemma settled_promote h : is_u32 h -> h <> 0 -> hoare (settled h) (settled h) (listen_promote_to_accept_queue h).
Proof. intros Hu Hn. eapply hoare_pre; [apply settled_leaving|]. by apply hoare_promote. Qed.

(** The outcomes of a segment for a half-open connection. *)
Inductive handshake_outcomes : Outcome -> Prop :=
  | HsReset : handshake_outcomes (outcome_base <| o_closed := true |> <| o_re_listen_if_passive := true |>)
  | HsRefuse : handshake_outcomes (outcome_rst <| o_clear_listen_slot_on_close := true |>)
  | HsRepeat : handshake_outcomes (outcome_base <| o_retransmit_syn_ack_for_passive := true |>)
  | HsIgnore : handshake_outcomes outcome_none
  | HsChallenge : handshake_outcomes (outcome_base <| o_tx := TxAck |> <| o_bad_seq := true |>)
  | HsOpen id : handshake_outcomes (outcome_base <| o_new_state := Some Established |> <| o_connected := true |>
                                      <| o_syn_retrans_timer_to_cancel := id |>).

Lemma absorb_half_open clk c seg c' : absorb_final_ack clk c seg = Some c' -> half_open c' = half_open c.
Proof.
  unfold absorb_final_ack. set (c1 := c <| c_snd_una := _ |> <| c_snd_wnd := _ |> <| c_snd_wl1 := _ |> <| c_snd_wl2 := _ |>).
  assert (E1 : half_open c1 = half_open c) by reflexivity. clearbody c1. rewrite <- E1. clear E1.
  destruct (c_ts_enabled c1); [|by intros [= <-]].
  destruct (parse_options _) as [[opts|err]|]; cbn [mbind option_bind]; [|by intros [= <-]|done].
  destruct (timestamps opts) as [[? ?]|]; intros E; apply (inj Some) in E; subst c'; reflexivity.
Qed.

Lemma syn_received_half_open clk c seg c' o ops : c_is_passive_open c = true ->
  handle_syn_received clk c seg = Some (c', o, ops) -> half_open c' = half_open c /\ handshake_outcomes o.
Proof.
  intros Hp. unfold handle_syn_received, leave. rewrite Hp.
  destruct (has_flag _ TCP_RST); [intros E; injection E as <- <- <-; split; [done|constructor]|].
  destruct (has_flag _ TCP_SYN).
  { destruct (_ =? _); intros E; injection E as <- <- <-; (split; [done|constructor]). }
  destruct (has_flag _ TCP_ACK); cbn [negb]; [|intros E; injection E as <- <- <-; split; [done|constructor]].
  destruct (_ =? _); cbn [negb]; [|intros E; injection E as <- <- <-; split; [done|constructor]].
  destruct (handshake_ack_ok c seg); cbn [negb]; [|intros E; injection E as <- <- <-; split; [done|constructor]].
  destruct (absorb_final_ack clk c seg) as [c1|] eqn:Ea; cbn [mbind option_bind]; [|done]. apply absorb_half_open in Ea.
  intros E. injection E as <- <- <-. split; [|constructor]. rewrite <- Ea. reflexivity.
Qed.

Ltac quiet := apply hoare_then; [solve [calm_walk]|eauto with calm|intros ?].
Ltac settle := eapply hoare_bind; [apply hoare_settled; solve [calm_walk; eauto]|intros ?].

(** What the engine does with the outcome for a connection that is not half open. *)
Lemma settled_after h tuple seg ts o : is_u32 h -> h <> 0 -> o_new_state o <> Some SynReceived ->
  hoare (settled h) (settled h) (after_dispatch h tuple seg ts o).
Proof.
  intros Hu Hn Ho. unfold after_dispatch. do 7 settle.
  eapply hoare_bind.
  { apply hoare_settled. destruct (o_new_state o) as [s|]; cbn [when_some]; [apply calm_transition; congruence|apply calm_skip]. }
  intros ?. settle. eapply hoare_bind.
  { apply hoare_when. eapply hoare_bind; [by apply hoare_when, settled_promote|]. intros ?. apply hoare_settled. calm_walk. }
  intros ?. eapply hoare_bind; [by apply settled_outcome|intros ?]. do 2 settle. apply hoare_settled. calm_walk.
Qed.

Lemma leaving_closed h e : leaving h e -> closed h (backlog e) (eg_listen e).
Proof. intros (b & H1 & H2 & H3 & ->). split; [by apply sized_insert|by eapply closed_insert]. Qed.

(** ... and for one that is: its handshake goes on, or ends in one of three ways. *)
Lemma handshake_after h tuple seg ts o : is_u32 h -> h <> 0 -> test_server = true -> handshake_outcomes o ->
  hoare backlog_ok backlog_ok (after_dispatch h tuple seg ts o).
Proof.
  intros Hu Hn Hts Ho. unfold after_dispatch, handshake_outcome. rewrite Hts.
  assert (Hl : forall s, s <> SynReceived -> hoare backlog_ok (leaving h) (transition_conn h s))
    by (intros s Hs; by apply hoare_leave, leaves_transition).
  assert (Htx : hoare (leaving h) (leaving h) (perform_tx h tuple seg (o_tx o)))
    by (eapply hoare_calm; [apply calm_perform_tx|apply stable_leaving|apply leaving_closed]).
  destruct Ho; cbn [outcome_base outcome_rst outcome_none field_set o_tx o_new_state o_connected o_closed when when_some
    o_clear_listen_slot_on_close o_re_listen_if_passive o_retransmit_syn_ack_for_passive o_snd_una_advanced_to] in *.
  - do 10 quiet. eapply hoare_bind; [|intros ?; eapply hoare_post; [apply (settled_ok h)|]].
    + quiet. eapply hoare_bind; [by apply settled_relisten|intros ?]. by apply hoare_ret.
    + do 2 settle. apply hoare_settled, calm_finish_close.
  - do 7 quiet. eapply hoare_bind; [by apply Hl|intros ?]. eapply hoare_bind; [exact Htx|intros ?]. quiet.
    eapply hoare_post; [apply (settled_ok h)|]. eapply hoare_bind; [|intros ?].
    + eapply hoare_bind; [by apply hoare_clear|intros ?]. eapply hoare_quiet; [calm_walk|apply stable_settled].
    + do 2 settle. apply hoare_settled, calm_finish_close.
  - apply hoare_quiet; [calm_walk|apply stable_ok].
  - apply hoare_quiet; [calm_walk|apply stable_ok].
  - apply hoare_quiet; [calm_walk|apply stable_ok].
  - do 7 quiet. eapply hoare_bind; [by apply Hl|intros ?]. eapply hoare_bind; [exact Htx|intros ?].
    eapply hoare_post; [apply (settled_ok h)|]. eapply hoare_bind; [eapply hoare_bind; [by apply hoare_promote|intros ?]|intros ?].
    + apply hoare_settled. calm_walk.
    + apply hoare_settled. calm_walk.
Qed.

(** *** The receive path *)

Context (Hts : test_server = true).

(** After a dispatch either the connection is not half open, or it is and the outcome is
    one of the six. *)
Lemma dispatch_conn_spec h seg ctx e oo e' : backlog_ok e -> dispatch_conn h seg ctx e = Some (oo, e') ->
  match oo with
  | None => backlog_ok e'
  | Some o => h <> 0 /\ ((settled h e' /\ o_new_state o <> Some SynReceived) \/ (backlog_ok e' /\ handshake_outcomes o))
  end.
Proof.
  intros He E. unfold dispatch_conn in E. apply run_bind_inv in E as (u & e1 & E1 & E).
  assert (S1 : same e e1) by (revert E1; apply (calm_when_some (fun _ _ => True)); [intros ?; calm_walk|done]).
  apply (same_ok _ _ S1) in He. clear S1 E1. apply run_bind_inv in E as (oc & e2 & E2 & E). injection E2 as <- <-.
  destruct (ft_get (eg_flow_table e1) h) as [c|] eqn:Hg.
  2: { revert E. match goal with |- ?m e1 = _ -> _ => assert (Hm : hoare backlog_ok backlog_ok m) end.
       - apply hoare_quiet; [calm_walk|apply stable_ok].
       - intros E. pose proof (Hm _ _ _ He E). apply run_bind_inv in E as (? & ? & _ & E). by injection E as <- _. }
  assert (Hn : h <> 0) by (apply ft_get_some in Hg as [? _]; done).
  assert (Hse : seeing h (half_open c) e1) by (split; [done|by apply conn_seen]).
  apply run_bind_inv in E as (clk & e2 & E2 & E).
  assert (S2 : same e1 e2) by (revert E2; by apply (calm_ask (fun _ _ => True))).
  apply run_bind_inv in E as ([[c' o] ops] & e3 & E3 & E). unfold lift in E3.
  destruct (dispatch _ _ _ _ _ _ _ _) as [r|] eqn:Ed; [|done]. injection E3 as -> <-. cbn beta iota in E.
  assert (Hc : half_open c' = half_open c /\
    (half_open c = None -> o_new_state o <> Some SynReceived) /\ (forall v, half_open c = Some v -> ho_passive v = true -> handshake_outcomes o)).
  { pose proof (dispatch_steps _ _ _ _ _ _ _ _ _ _ _ Ed) as [Es Hst]. split; [|split].
    - destruct (decide (c_state c = SynReceived)) as [Er|Er].
      + destruct (half_open c) as [v|] eqn:Hv; [|by apply half_open_state in Hv].
        apply seeing_open in Hse as [Hp _]. assert (c_is_passive_open c = true).
        { unfold half_open in Hv. destruct (bool_decide _); [|done]. by injection Hv as <-. }
        unfold dispatch in Ed. rewrite Er, Hts in Ed. apply syn_received_half_open in Ed as [-> _]; done.
      + rewrite (proj2 (half_open_state c)) by done. apply half_open_state. congruence.
    - intros Hv En. apply Hst in En. apply half_open_state in Hv. by inversion En.
    - intros v Hv Hp. unfold half_open in Hv. destruct (bool_decide _) eqn:Er; [|done]. apply bool_decide_eq_true in Er.
      injection Hv as <-. cbn in Hp. unfold dispatch in Ed. rewrite Er, Hts in Ed. by apply syn_received_half_open in Ed as [_ ?]. }
  destruct Hc as (Hc & Hc1 & Hc2). apply (stable_seeing h (half_open c) _ _ S2) in Hse.
  revert E. match goal with |- ?m e2 = _ -> _ => assert (Hm : hoare (seeing h (half_open c)) (seeing h (half_open c)) m) end.
  { eapply hoare_bind.
    - eapply hoare_calm; [|apply stable_seeing|intros ? [_ Hs]; exact Hs]. by apply (calm_update_seen _ h (half_open c)).
    - intros ?. apply hoare_quiet; [calm_walk|apply stable_seeing]. }
  intros E. pose proof (Hm _ _ _ Hse E) as H'. assert (oo = Some o) as ->.
  { repeat (apply run_bind_inv in E as (? & ? & _ & E)). by injection E as <- _. }
  split; [done|]. destruct (half_open c) as [v|] eqn:Hv.
  - right. split; [by eapply seeing_ok|]. apply seeing_open in H' as [Hp _]. by apply (Hc2 v).
  - left. split; [by apply seeing_closed|by apply Hc1].
Qed.

Lemma preserves_tcp_input ip bytes ol rss ts mb off : hoare backlog_ok backlog_ok (tcp_input ip bytes ol rss ts mb off).
Proof.
  unfold tcp_input. destruct (nic_l4_verdict ol) as [ok|]; [|apply hoare_quiet; [calm_walk|apply stable_ok]]. quiet.
  destruct a as [seg|]; [|apply hoare_quiet; [calm_walk|apply stable_ok]]. cbv zeta.
  intros e r e' He E. apply run_bind_inv in E as (oh & e1 & E1 & E). injection E1 as Eh <-. revert He E. destruct oh as [h|].
  - assert (Hu : is_u32 h).
    { unfold lookup_by_hash, lookup_by_tuple in Eh. destruct (_ !! _); [|done]. injection Eh as <-. apply wadd32_range. }
    clear Eh. match goal with |- _ -> ?m e = _ -> _ => assert (Hm : hoare backlog_ok backlog_ok m) end; [|by apply Hm].
    quiet. intros e1 r1 e2 He1 E1. apply run_bind_inv in E1 as (oo & e3 & E3 & E1). apply dispatch_conn_spec in E3; [|done].
    destruct oo as [o|]; [|by injection E1 as _ <-]. destruct E3 as [Hn Ho].
    apply run_bind_inv in E1 as (u & e4 & E4 & E1). injection E1 as _ <-.
    destruct Ho as [[Hs Ho]|[Hs Ho]]; [eapply settled_ok, settled_after; eauto|eapply handshake_after; eauto].
  - clear Eh. match goal with |- _ -> ?m e = _ -> _ => assert (Hm : hoare backlog_ok backlog_ok m) end; [|by apply Hm].
    eapply hoare_bind; [apply preserves_listen_input|]. intros taken. apply hoare_quiet; [calm_walk|apply stable_ok].
Qed.

Lemma preserves_ipv4 payload ol rss ts mb off : hoare backlog_ok backlog_ok (handle_ipv4 payload ol rss ts mb off).
Proof.
  unfold handle_ipv4. destruct (ip_decode_offload_aware _ _ _ _ _) as [d bad]. quiet. quiet.
  destruct a0 as [ip|]; [|apply hoare_quiet; [calm_walk|apply stable_ok]]. quiet.
  destruct (_ =? _); [quiet; apply preserves_tcp_input|]. destruct (_ =? _); [apply hoare_quiet; [calm_walk|apply stable_ok]|].
  by intros ? ? ? _ E.
Qed.

Lemma preserves_rx_frame bytes ol rss ts mb : hoare backlog_ok backlog_ok (rx_frame bytes ol rss ts mb).
Proof.
  unfold rx_frame. quiet. destruct a as [l2|]; [|apply hoare_quiet; [calm_walk|apply stable_ok]]. cbv zeta.
  destruct (_ =? _); [apply hoare_quiet; [calm_walk|apply stable_ok]|]. destruct (_ =? _); [apply preserves_ipv4|]. by intros ? ? ? _ E.
Qed.

Lemma preserves_inject frame : hoare backlog_ok backlog_ok (inject_rx_frame frame).
Proof.
  unfold inject_rx_frame. destruct (_ <? _); [by apply hoare_ret|]. quiet. destruct a as [m|]; [|by apply hoare_ret]. quiet.
  destruct (negb a); [apply hoare_quiet; [calm_walk|apply stable_ok]|]. quiet. quiet.
  eapply hoare_bind; [apply preserves_rx_frame|intros ?]. apply hoare_quiet; [calm_walk|apply stable_ok].
Qed.

Lemma preserves_poll burst : hoare backlog_ok backlog_ok (poll_once burst).
Proof.
  unfold poll_once. do 7 quiet. eapply hoare_bind.
  - destruct burst as [|p burst]; [apply hoare_quiet; [calm_walk|apply stable_ok]|]. do 3 quiet. apply hoare_for_each. intros q _.
    eapply hoare_bind; [|intros ?; by apply hoare_ret]. unfold dispatch_one_real_mbuf. quiet. quiet.
    eapply hoare_bind; [apply preserves_rx_frame|intros ?]. apply hoare_quiet; [calm_walk|apply stable_ok].
  - intros _. eapply hoare_bind; [|intros ?; by apply hoare_ret]. unfold poll_tail. eapply hoare_bind.
    { unfold advance_timer_wheel. quiet. eapply hoare_bind; [by apply preserves_fire_timers|intros ?]. by apply hoare_ret. }
    intros _. eapply hoare_bind; [apply preserves_reap|]. intros _. apply hoare_quiet; [calm_walk|apply stable_ok].
Qed.

(** ** Sessions *)

(** Handles are 32-bit values. *)
Definition typed_call (c : ServerCall) : Prop :=
  match c with SrvCall (CallSend h _) => is_u32 h | _ => True end.

Lemma preserves_call c : typed_call c -> hoare backlog_ok backlog_ok (run_server c).
Proof.
  assert (Hthen : forall {A} (m : M A), hoare backlog_ok backlog_ok m -> hoare backlog_ok backlog_ok (m ;; skip)).
  { intros A m Hm. eapply hoare_bind; [exact Hm|]. intros ?. by apply hoare_ret. }
  intros Hc. destruct c as [c|ip port|lh|frame| |now| | |]; cbn [run_server].
  - destruct c; cbn [run_call]; cbn [typed_call] in Hc; apply Hthen.
    + apply preserves_poll.
    + apply preserves_connect.
    + by apply preserves_send.
    + apply preserves_close.
    + apply hoare_quiet; [calm_walk|apply stable_ok].
    + apply hoare_quiet; [calm_walk|apply stable_ok].
    + apply hoare_quiet; [apply calm_wheel_cancel|apply stable_ok].
    + apply hoare_quiet; [calm_walk|apply stable_ok].
  - apply Hthen. intros e r e' [H1 H2 H3] E. unfold listen in E. pose proof (linked_listen _ _ H3 ip port) as L.
    destruct (listen_add ip port (eg_listen e)) as [t x]. injection E as _ <-. by split.
  - apply Hthen. intros e r e' [H1 H2 H3] E. unfold accept_next in E. pose proof (linked_accept _ _ H3 lh) as L.
    destruct (take_accept lh (eg_listen e)) as [t x]. injection E as _ <-. by split.
  - apply Hthen, preserves_inject.
  - apply Hthen, hoare_quiet; [calm_walk|apply stable_ok].
  - by apply Hthen, preserves_fire_timers.
  - apply Hthen, hoare_quiet; [calm_walk|apply stable_ok].
  - unfold test_clear_pinned_rx_mbufs. apply hoare_quiet; [calm_walk|apply stable_ok].
  - apply preserves_reap.
Qed.
End Steps.
