(* ===== verification/ServerSpec.v ===== *)
(** * What a listening engine promises

    One SYN, by cases; and any session of calls, timers and segments: the engine runs, keeps
    its invariant, and its half-open connections are those its listeners wait for. *)

From S2P Require Import Prelude.
From S2P Require Import Bytes.
From S2P Require Import Options.
From S2P Require Import Mbuf.
From S2P Require Import Tlp.
From S2P Require Import TimerWheel.
From S2P Require Import Output.
From S2P Require Import Segment.
From S2P Require Import Conn.
From S2P Require Import FlowTable.
From S2P Require Import Input.
From S2P Require Import AckBuild.
From S2P Require Import Iss.
From S2P Require Import Events.
From S2P Require Import Listen.
From S2P Require Import Engine.
From S2P Require Import EngineTx.
From S2P Require Import EngineTimers.
From S2P Require Import EngineListen.
From S2P Require Import EngineRx.
From S2P Require Import EngineApi.
From S2P Require Import EngineInv.
From S2P Require Import EngineSafe.
From S2P Require Import EngineStep.
From S2P Require Import EngineLoop.
From S2P Require Import EngineSpec.
From S2P Require Import Connect.
From S2P Require Import Server.
From S2P Require Import Backlog.
From S2P Require Import EngineBacklog.
From S2P Require Import ServerBacklog.

(** ** One SYN *)

Section InboundSyn.
Context `{Platform} `{EngineConfig}.

#[local] Hint Resolve local_get_conn local_tx_tcp local_arm_syn : local.

Lemma local_refuse h a b c d i : local h (emit_rst_for_unsolicited_syn a b c d i).
Proof. unfold emit_rst_for_unsolicited_syn, build_and_tx. local_walk. Qed.

Lemma local_syn_ack h : is_u32 h -> local h (emit_syn_ack_for_passive h).
Proof. intros U. unfold emit_syn_ack_for_passive, emit_syn_with_flags, build_and_tx. local_walk. Qed.

Lemma quiet_listen {A} (m : M A) e a e' : calm (fun _ _ => True) m -> m e = Some (a, e') -> eg_listen e' = eg_listen e.
Proof. intros Hm E. by apply Hm in E as (_ & ? & _). Qed.

(** The connection an admitted SYN leaves. *)
Record admitted (local_ip local_port peer_ip peer_port iss_peer : Z) (opts : TcpOpts) (c : TcpConn) : Prop := {
  ad_state : c_state c = SynReceived /\ c_is_passive_open c = true;
  ad_tuple : c_four_tuple c = mkFourTuple local_ip local_port peer_ip peer_port;
  ad_receive : c_irs c = iss_peer /\ c_rcv_nxt c = wadd32 iss_peer 1;
  ad_send : c_snd_una c = c_iss c /\ c_snd_nxt c = wadd32 (c_iss c) 1;
  ad_mss : c_peer_mss c = default 536 (mss opts);
  ad_scale : c_ws_shift_in c = Z.min (default 0 (wscale opts)) 14;
  ad_options : c_ts_enabled c = bool_decide (is_Some (timestamps opts)) /\ c_sack_enabled c = sack_permitted opts
}.

Lemma admitted_view lip lport ip port iss iss_peer opts ts our_mss rcv snd a b d c :
  open_view c = open_view (new_passive ts (mkFourTuple lip lport ip port) iss iss_peer opts our_mss rcv snd a b d) ->
  admitted lip lport ip port iss_peer opts (c <| c_snd_nxt := wadd32 (c_snd_nxt c) 1 |>).
Proof.
  intros V. assert (V' : open_view c = (SynReceived, mkFourTuple lip lport ip port, iss, iss, iss, 0, DEFAULT_MULTIPLIER_X100,
    DEFAULT_MAX_CONSECUTIVE_PROBES, (true, wadd32 iss_peer 1, iss_peer, default 536 (mss opts), Z.min (default 0 (wscale opts)) 14,
     bool_decide (is_Some (timestamps opts)), sack_permitted opts))).
  { rewrite V. unfold new_passive. by destruct (timestamps opts) as [[? ?]|]. }
  unfold open_view, peer_view in V'. injection V' as V1 V2 V3 V4 V5 _ _ _ V6 V7 V8 V9 V10 V11 V12.
  split; conn_simpl; try done; split; congruence.
Qed.

(** The branches of [handle_inbound_syn_listen]. *)
Definition syn_refused (lip lport ip port : Z) (e : Engine) : Prop :=
  (exists h c, ft_get (eg_flow_table e) h = Some c /\ c_four_tuple c = mkFourTuple lip lport ip port) \/
  forall h, 1 <= h <= zlen (ft_slots (eg_flow_table e)) -> is_Some (ft_get (eg_flow_table e) h).
Definition same_conns (e e' : Engine) : Prop := forall h, is_u32 h -> ft_get (eg_flow_table e') h = ft_get (eg_flow_table e) h.

Lemma stays_all e e' : (forall h, is_u32 h -> stays h e e') -> same_conns e e'.
Proof.
  intros S h U. destruct (decide (h = 0)) as [->|N]; [done|]. apply (S 0); [width_lia|done|done].
Qed.

Lemma inbound_syn_run lh ip port iss opts e r e' : engine_ok e ->
  handle_inbound_syn_listen lh ip port iss opts e = Some (r, e') ->
  match slot_status lh (eg_listen e) with
  | None => r = Err InvalidArgument /\ e' = e
  | Some (_, _, true) => r = Ok tt /\ eg_listen e' = eg_listen e /\ same_conns e e'
  | Some (lip, lport, false) =>
      (r = Err TooManyConns /\ eg_listen e' = eg_listen e /\ same_conns e e' /\ syn_refused lip lport ip port e) \/
      (r = Ok tt /\ exists h c, is_u32 h /\ ft_get (eg_flow_table e) h = None /\ beside h (eg_flow_table e) (eg_flow_table e') /\
         ft_get (eg_flow_table e') h = Some c /\ admitted lip lport ip port iss opts c /\
         eg_listen e' = set_in_progress lh h (eg_listen e))
  end.
Proof.
  intros [Hok _ _ _ _ _ _] E. unfold handle_inbound_syn_listen in E. apply run_bind_inv in E as (st & e1 & E1 & E). injection E1 as <- <-.
  destruct (slot_status lh (eg_listen e)) as [[[lip lport] full]|] eqn:Est; [|by injection E as <- <-]. destruct full.
  { apply run_bind_inv in E as (u & e1 & E1 & E). injection E as <- <-. split; [done|].
    split; [by apply (quiet_listen _ _ _ _ (calm_refuse_syn _ _ _ _ _ _) E1)|]. apply stays_all. intros h _. exact (local_refuse h _ _ _ _ _ _ _ _ E1). }
  destruct (passive_conn_run (mkFourTuple lip lport ip port) iss opts e) as (now & ts & iss_us & e1 & Hi & E1 & _ & V1 & L1).
  unfold mbind at 1, M_bind at 1 in E. rewrite E1 in E. set (conn := new_passive _ _ _ _ _ _ _ _ _ _ _) in *.
  assert (T1 : eg_flow_table e1 = eg_flow_table e) by by injection V1.
  apply run_bind_inv in E as (oh & e2 & E2 & E). unfold insert_conn in E2. rewrite T1 in E2.
  pose proof (ft_insert_spec (eg_flow_table e) conn Hok) as Hins. destruct (ft_insert _ conn) as [t' o]. injection E2 as <- <-.
  assert (Ec : c_four_tuple conn = mkFourTuple lip lport ip port) by (unfold conn, new_passive; by destruct (timestamps opts) as [[? ?]|]).
  rewrite Ec in Hins. destruct o as [h|].
  2: { injection E as <- <-. destruct Hins as [-> Hf]. left. split; [done|]. split; [exact L1|]. split; [by intros h _|exact Hf]. }
  destruct Hins as (Hr & Hfree & _ & Hnew & _ & Hb & _).
  assert (U : is_u32 h) by (pose proof (fto_size _ Hok); width_lia).
  apply run_bind_inv in E as (st & e3 & E3 & E). injection E3 as <- <-.
  change (eg_listen (e1 <| eg_flow_table := t' |>)) with (eg_listen e1) in E. rewrite L1, Est in E.
  apply run_bind_inv in E as (u & e3 & E3 & E). injection E3 as _ <-.
  apply run_bind_inv in E as (u2 & e4 & E4 & E). apply run_bind_inv in E as (u3 & e5 & E5 & E). injection E as <- <-. injection E5 as _ <-.
  pose proof (quiet_listen _ _ _ _ (calm_syn_ack _ _ U) E4) as L4. pose proof (local_syn_ack h U _ _ _ E4) as S4.
  destruct (stays_get h _ _ _ S4 Hnew) as (c & G4 & V4). right. split; [done|]. eexists h, _. split; [done|]. split; [done|].
  split; [|split; [cbn [field_set eg_flow_table]; by rewrite ft_update_get_eq, G4|]].
  - intros h' U' N. cbn [field_set eg_flow_table]. rewrite ft_update_get_ne by done. rewrite (proj1 S4) by done. by apply Hb.
  - split; [by eapply admitted_view|].
    match goal with |- ?x = _ => change x with (eg_listen e4) end. rewrite L4. reflexivity.
Qed.
End InboundSyn.

(** ** Sessions *)

Section Sessions.
Context `{Platform} `{EngineConfig}.

Definition server_ok (e : Engine) : Prop := engine_ok e /\ backlog_ok e.

Definition is_half_open (o : option TcpConn) : bool :=
  match o with Some c => bool_decide (c_state c = SynReceived) | None => false end.
Definition half_open_count (e : Engine) : nat := length (List.filter is_half_open (ft_slots (eg_flow_table e))).

(** Every half-open connection is passive, has sent nothing and is the one a slot of its
    address waits for; every slot waits for such a connection or for none. *)
Record backlog_in_order (e : Engine) : Prop := {
  bk_open : forall h c, is_u32 h -> ft_get (eg_flow_table e) h = Some c -> c_state c = SynReceived ->
    c_is_passive_open c = true /\ c_snd_retrans c = [] /\ exists s, s ∈ lt_slots (eg_listen e) /\ ls_in_progress s.2 = Some h;
  bk_slot : forall s h, s ∈ lt_slots (eg_listen e) -> ls_in_progress s.2 = Some h ->
    ls_accept_queue s.2 = None /\
    exists c, ft_get (eg_flow_table e) h = Some c /\ c_state c = SynReceived /\
      ft_local_ip (c_four_tuple c) = ls_local_ip s.2 /\ ft_local_port (c_four_tuple c) = ls_local_port s.2;
  bk_addrs : NoDup (map slot_addr (lt_slots (eg_listen e)));
  bk_bound : (half_open_count e <= length (lt_slots (eg_listen e)))%nat
}.

Lemma half_open_inv c v : half_open c = Some v -> c_state c = SynReceived /\
  v = mkHalfOpen (c_four_tuple c) (c_is_passive_open c) (match c_snd_retrans c with [] => true | _ => false end).
Proof. unfold half_open. case_bool_decide; [|done]. intros E. by injection E as <-. Qed.

Lemma open_count slots : forall i, length (open_from i (map entry_open slots)) = length (List.filter is_half_open slots).
Proof.
  induction slots as [|[c|] slots IH]; intros i; [done| |apply IH].
  change (map entry_open (Some c :: slots)) with (half_open c :: map entry_open slots). cbn [List.filter is_half_open].
  unfold half_open. case_bool_decide; cbn [open_from length]; by rewrite IH.
Qed.

Lemma ok_in_order e : server_ok e -> backlog_in_order e.
Proof.
  intros [[Hok _ _ _ _ _ _] [H1 H2 H3]]. split.
  - intros h c U Hg Hc. assert (Hn : h <> 0) by (apply ft_get_some in Hg as [? _]; done).
    assert (Hv : exists v, half_open c = Some v) by (unfold half_open; rewrite bool_decide_eq_true_2 by done; eauto).
    destruct Hv as [v Hv]. pose proof (open_conn _ _ _ _ Hg Hv) as Hb. destruct (lk_open _ _ H3 _ _ Hb) as (Hp & Hi & s & Hs & Hh).
    rewrite nth_idx in Hh by done. apply half_open_inv in Hv as [_ ->]. cbn in Hp, Hi.
    split; [done|]. split; [by destruct (c_snd_retrans c)|]. by exists s.
  - intros s h Hs Hh. pose proof (so_one _ (lk_slots _ _ H3)) as Ho. rewrite Forall_forall in Ho. destruct (Ho _ Hs) as [Hq|?]; [|congruence].
    split; [done|]. destruct (lk_progress _ _ H3 _ _ Hs Hh) as (i & v & -> & Hb & Ha).
    unfold backlog in Hb. rewrite list_lookup_fmap in Hb. destruct (ft_slots (eg_flow_table e) !! i) as [[c|]|] eqn:Ei; [|done|done].
    cbn in Hb. injection Hb as Hv. exists c. split.
    + pose proof (ft_get_slot (eg_flow_table e) i) as G. rewrite Ei in G. apply G. pose proof (slot_bound _ _ _ Hok Ei). lia.
    + apply half_open_inv in Hv as [Hc ->]. split; [done|]. unfold local_addr, slot_addr in Ha. by injection Ha.
  - apply (so_addrs _ (lk_slots _ _ H3)).
  - unfold half_open_count. rewrite <- (open_count _ 0). by apply backlog_bounded.
Qed.

(** An engine that has just started. *)
Lemma typed_new : typed_wheel wheel_new.
Proof. constructor. Qed.

Lemma fresh_ok e : engine_ok e -> ft_slots (eg_flow_table e) = replicate (length (ft_slots (eg_flow_table e))) None ->
  sized (backlog e) -> eg_timer_wheel e = wheel_new -> eg_listen e = listen_table_new -> server_ok e.
Proof.
  intros He Ht Hs Hw Hl. split; [done|]. split; [done|by rewrite Hw; apply typed_new|]. rewrite Hl. split.
  - split; cbn; [apply NoDup_nil_2|constructor|apply NoDup_nil_2|constructor].
  - intros s h Hin. by apply elem_of_nil in Hin.
  - intros i v Hi. unfold backlog in Hi. rewrite Ht, list_lookup_fmap in Hi.
    destruct (replicate _ None !! i) as [o|] eqn:Eo; [|done]. apply lookup_replicate in Eo as [-> _]. done.
Qed.

Context (Hcfg : config_ok) (Hts : test_server = true).

Definition session_call_ok (c : ServerCall) : Prop := server_call_ok c /\ typed_call c.

Lemma run_server_ok c e : session_call_ok c -> server_ok e -> exists e', run_server c e = Some (tt, e') /\ server_ok e'.
Proof.
  intros [H1 H2] [He Hb]. destruct (run_server_good Hcfg c (fun m => ledger m e) H1 e) as ([] & e' & E & Hg); [by split|].
  exists e'. split; [done|]. split; [|by eapply preserves_call].
  destruct c; cbn [server_grown] in Hg; try apply Hg. destruct Hg as [om Hg]. apply Hg.
Qed.

Lemma run_servers_ok calls : Forall session_call_ok calls -> forall e, server_ok e ->
  exists e', for_each calls run_server e = Some (tt, e') /\ server_ok e'.
Proof.
  induction 1 as [|c calls Hc _ IH]; intros e He; [by exists e|]. destruct (run_server_ok c e Hc He) as (e1 & E1 & H1).
  destruct (IH e1 H1) as (e' & E' & H'). exists e'. split; [|done]. cbn [for_each]. unfold mbind, M_bind. by rewrite E1.
Qed.
End Sessions.

(** ** Properties *)

(** C15. Sessions of a listening engine: from any state in order (an engine that has just started
    is), whatever calls, injected frames, received bursts and timer pumps come in whatever
    order and however the driver answers, the engine never panics and its backlog stays in
    order.  Every half-open connection is a passive one with nothing in flight, and a
    listener of its local address waits for it; a listener that waits has nothing queued
    for accept and waits for a connection that is still half open, so none is ever wedged by
    one that is gone; and there are never more half-open connections than listeners. *)
Theorem server_sessions `{Platform} `{EngineConfig} (calls : list ServerCall) (e : Engine) (Hcfg : config_ok)
    (Hts : test_server = true) (Hcalls : Forall session_call_ok calls) (He : server_ok e) :
  exists e', for_each calls run_server e = Some (tt, e') /\ server_ok e' /\ backlog_in_order e'.
Proof.
  destruct (run_servers_ok Hcfg Hts calls Hcalls e He) as (e' & E & He'). exists e'. split; [done|]. split; [done|].
  by apply ok_in_order.
Qed.

(** C16. A SYN for a listener (handle_inbound_syn_listen of engine.rs), by cases: it always
    returns.  Without the listener it is an error and nothing changes.  A listener that
    already has a connection in its handshake or waiting refuses it and keeps what it has.
    Otherwise the table has no room for the 4-tuple, which is reported and changes no
    connection and no listener; or a connection in SYN_RECEIVED takes a handle that was free,
    with the sequence number of the SYN taken and its own counted, the options the peer
    offered within their limits (536 when it named no segment size, a shift of at most 14),
    no other connection is affected and the listener alone waits for it. *)
Theorem inbound_syn_exact `{Platform} `{EngineConfig} (lh : ListenHandle) (ip port iss : Z) (opts : TcpOpts) (e : Engine)
    (Hcfg : config_ok) (He : engine_ok e) :
  exists r e', handle_inbound_syn_listen lh ip port iss opts e = Some (r, e') /\ engine_ok e' /\
    match slot_status lh (eg_listen e) with
    | None => r = Err InvalidArgument /\ e' = e
    | Some (_, _, true) => r = Ok tt /\ eg_listen e' = eg_listen e /\ same_conns e e'
    | Some (lip, lport, false) =>
        (r = Err TooManyConns /\ eg_listen e' = eg_listen e /\ same_conns e e' /\ syn_refused lip lport ip port e) \/
        (r = Ok tt /\ exists h c, is_u32 h /\ ft_get (eg_flow_table e) h = None /\ beside h (eg_flow_table e) (eg_flow_table e') /\
           ft_get (eg_flow_table e') h = Some c /\ admitted lip lport ip port iss opts c /\
           eg_listen e' = set_in_progress lh h (eg_listen e))
    end.
Proof.
  destruct Hcfg as [Hm Hs Hr]. destruct (inbound_syn_good Hm Hr (fun m => ledger m e) lh ip port iss opts e) as (r & e' & E & He' & _); [by split|].
  exists r, e'. split; [done|]. split; [done|]. by apply inbound_syn_run.
Qed.

(** ** A handshake between two engines

    The client is the engine of [EngineSpec]; the server has its address for a peer, and the
    two exchange the frames they really build. *)

Definition server_config : EngineConfig := {|
  local_ip := 0x0a000002; gateway_ip := 0x0a000001; our_mac := peer_mac; garp_interval_sec := 0;
  recv_buffer_bytes := 65535; send_buffer_bytes := 65536; tcp_mss := 1000; tcp_msl_ms := 10;
  tcp_timestamps := false; tcp_sack := true; tcp_min_rto_us := 5000; tcp_initial_rto_us := 5000;
  tcp_max_rto_us := 1000000; tcp_max_retrans_count := 3; tcp_per_packet_events := true;
  rtt_histogram_edges := DEFAULT_RTT_HISTOGRAM_EDGES_US; tx_ring_capacity := 32;
  iss_gen := mkIssGen (replicate 16 3) (replicate 16 9); rx_cksum_feature := false; rx_cksum_offload_active := false;
  tx_cksum_feature := false; tx_cksum_offload_active := false; rss_feature := false; rss_hash_offload_active := false;
  test_server := true
|}.
#[local] Existing Instance sample_platform.

Definition client_engine : Engine := engine_with (ft_new 2).
Definition server_engine : Engine := (engine_with (ft_new 2)) <| eg_gateway_mac := @our_mac sample_config |>.

Definition after {A} (m : M A) (e : Engine) : Engine := match m e with Some (_, e') => e' | None => e end.
Definition wire_at (i : nat) (e : Engine) : list Z := nth i (eg_wire e) [].

(** Two connects, on two ports. *)
Definition client_calling : Engine :=
  after (for_each [sample_connect; CallConnect 0x0a000002 80 4001 (mkConnectOpts false false 0 0 false 0 false 0)]
    (@run_call sample_platform sample_config)) client_engine.
Definition sample_syn : list Z := wire_at 0 client_calling.
Definition sample_syn2 : list Z := wire_at 1 client_calling.

Definition server_called : Engine :=
  after (for_each [SrvListen 0x0a000002 80; SrvInject sample_syn] (@run_server sample_platform server_config)) server_engine.
Definition sample_syn_ack : list Z := nth 0 (eg_tx_intercept server_called) [].

Definition client_connected : Engine :=
  after (@run_call sample_platform sample_config (CallPoll [mkRxPacket sample_syn_ack 0 0 0 7])) client_calling.
Definition sample_final_ack : list Z := wire_at 2 client_connected.

(** The first handshake to its end, the accept, and the first step of the second. *)
Definition server_session : list ServerCall :=
  [SrvListen 0x0a000002 80; SrvInject sample_syn; SrvTakeFrames; SrvInject sample_final_ack; SrvAccept 1; SrvInject sample_syn2].

Definition server_view (e : Engine) :=
  (map (fun h => c_state <$> ft_get (eg_flow_table e) h) [1; 2],
   map (fun s => (ls_accept_queue s.2, ls_in_progress s.2)) (lt_slots (eg_listen e)), half_open_count e).

#[local] Existing Instance server_config.

Lemma server_config_ok : config_ok.
Proof. split; [reflexivity|cbn; width_lia|cbn; width_lia]. Qed.

Lemma server_engine_ok : server_ok server_engine.
Proof.
  apply fresh_ok; [|reflexivity|done|reflexivity|reflexivity].
  apply (engine_new_ok 2 64 (@our_mac sample_config) [] 0 ∅); [width_lia|done|by vm_compute].
Qed.

Definition frame_okb (b : list Z) : bool := forallb (fun b => (0 <=? b) && (b <? 256)) b.

Definition session_okb (c : ServerCall) : bool :=
  match c with
  | SrvCall (CallSend h _) => (0 <=? h) && (h <? two32)
  | SrvCall c => call_okb c
  | SrvInject f => frame_okb f
  | _ => true
  end.

Lemma frame_okb_sound b : frame_okb b = true -> is_bytes b.
Proof.
  unfold frame_okb, is_bytes. rewrite forallb_forall, Forall_forall. intros Hb x Hx. apply list_elem_of_In in Hx.
  specialize (Hb x Hx). breflect. width_lia.
Qed.

Lemma sessions_okb_sound calls : forallb session_okb calls = true -> Forall session_call_ok calls.
Proof.
  rewrite forallb_forall, Forall_forall. intros Hb c Hc%list_elem_of_In. specialize (Hb c Hc).
  destruct c as [c| | |f| | | | |]; cbn [session_okb] in Hb; try (by split).
  - assert (Hcall : forall c, call_okb c = true -> call_ok c).
    { intros c0 Hc0. pose proof (calls_okb_sound [c0]) as Hs. cbn [forallb] in Hs. rewrite Hc0 in Hs. specialize (Hs eq_refl).
      by inversion Hs. }
    destruct c; split; try (by apply Hcall); try done. breflect. split; [lia|done].
  - split; [|done]. by apply frame_okb_sound.
Qed.

Lemma server_sessions_witness :
  exists e', for_each server_session run_server server_engine = Some (tt, e') /\ server_ok e' /\ backlog_in_order e' /\
    server_view e' = ([Some Established; Some SynReceived], [(None, Some 2)], 1%nat).
Proof.
  destruct (server_sessions server_session server_engine server_config_ok eq_refl
    (sessions_okb_sound server_session ltac:(vm_compute; reflexivity)) server_engine_ok) as (e' & E & Ho & Hb).
  exists e'. split; [exact E|]. split; [exact Ho|]. split; [exact Hb|].
  apply (view_of _ server_view _ _ _ _ E). vm_compute. reflexivity.
Defined.

(** What the SYN of the client asks for reaches the connection. *)
Definition listening : Engine := after (listen 0x0a000002 80) server_engine.
Definition sample_offer : TcpOpts := TcpOpts_default <| Options.mss := Some 1460 |> <| wscale := Some 20 |>.

Lemma listening_ok : server_ok listening.
Proof.
  destruct (run_server_ok server_config_ok eq_refl (SrvListen 0x0a000002 80) server_engine) as (e' & E & He');
    [by split|apply server_engine_ok|]. assert (e' = listening) as <-; [|done]. cbn in E. by injection E as <-.
Qed.

Lemma inbound_syn_exact_witness :
  exists e' c, handle_inbound_syn_listen 1 0x0a000001 4000 7000 sample_offer listening = Some (Ok tt, e') /\ engine_ok e' /\
    ft_get (eg_flow_table e') 1 = Some c /\ admitted 0x0a000002 80 0x0a000001 4000 7000 sample_offer c /\ c_ws_shift_in c = 14 /\
    eg_listen e' = set_in_progress 1 1 (eg_listen listening).
Proof.
  destruct (inbound_syn_exact 1 0x0a000001 4000 7000 sample_offer listening server_config_ok (proj1 listening_ok))
    as (r & e' & E & He & Hc).
  assert (Hs : slot_status 1 (eg_listen listening) = Some (0x0a000002, 80, false)) by (vm_compute; reflexivity).
  rewrite Hs in Hc. assert (Hr : r = Ok tt).
  { apply (f_equal (option_map fst)) in E. vm_compute in E. injection E as <-. reflexivity. }
  destruct Hc as [[Hn _]|(_ & h & c & _ & _ & _ & Hg & Ha & Hl)]; [congruence|].
  assert (h = 1) as ->.
  { assert (Hv : ls_in_progress <$> (snd <$> lt_slots (eg_listen e')) = [Some 1]).
    { apply (view_of _ (fun e => ls_in_progress <$> (snd <$> lt_slots (eg_listen e))) _ _ _ _ E). vm_compute. reflexivity. }
    rewrite Hl in Hv. vm_compute in Hv. injection Hv as <-. reflexivity. }
  exists e', c. subst r. split; [exact E|]. split; [exact He|]. split; [exact Hg|]. split; [exact Ha|]. split; [|exact Hl].
  exact (ad_scale _ _ _ _ _ _ _ Ha).
Defined.

(** The listener's own segment size is 1000; its SYN-ACK offers the 1460 of the peer. *)
Example syn_ack_offers_peer_mss :
  (r ← parse_segment (drop 34 sample_syn_ack) 0x0a000002 0x0a000001 true;
   match r with
   | Ok seg => o ← parse_options (ps_options seg); match o with Ok o => Options.mss o | Err _ => None end
   | Err _ => None
   end) = Some 1460 /\ tcp_mss = 1000.
Proof. split; [vm_compute|]; reflexivity. Qed.
