(* ===== verification/Observe.v ===== *)
(** * What an operation of the engine leaves alone

    [untouched f m]: whatever [m] does, what [f] reads of the engine stays as it is.  One
    tactic walks through the operations; two facts come of it.  A send pushes no event.
    And no call of an engine of the test-server build hands a frame to the driver: what it
    transmits goes to the intercept queue, and nowhere else. *)

From S2P Require Import Prelude.
From S2P Require Import Options.
From S2P Require Import Mbuf.
From S2P Require Import TimerWheel.
From S2P Require Import Output.
From S2P Require Import Segment.
From S2P Require Import Conn.
From S2P Require Import FlowTable.
From S2P Require Import Input.
From S2P Require Import AckBuild.
From S2P Require Import Events.
From S2P Require Import Listen.
From S2P Require Import Engine.
From S2P Require Import EngineTx.
From S2P Require Import EngineTimers.
From S2P Require Import EngineListen.
From S2P Require Import EngineRx.
From S2P Require Import EngineApi.
From S2P Require Import EngineInv.
From S2P Require Import EngineSpec.
From S2P Require Import Lifetime.
From S2P Require Import Server.
From S2P Require Import ServerSpec.

Definition untouched {A B} (f : Engine -> B) (m : M A) : Prop := forall e a e', m e = Some (a, e') -> f e' = f e.

(** ** Rules *)

Section Rules.
Context {A B C : Type} (f : Engine -> C).

Lemma untouched_ret (a : A) : untouched f (mret a).
Proof. intros e b e' E. by injection E as <- <-. Qed.
Lemma untouched_get (g : Engine -> A) : untouched f (get g).
Proof. intros e b e' E. by injection E as <- <-. Qed.
Lemma untouched_lift (o : option A) : untouched f (lift o).
Proof. intros e b e' E. unfold lift in E. destruct o; [|done]. by injection E as <- <-. Qed.
Lemma untouched_panic : untouched f (panic (A := A)).
Proof. done. Qed.
Lemma untouched_bind (m : M A) (k : A -> M B) : untouched f m -> (forall a, untouched f (k a)) ->
  untouched f (mbind (M := M) k m).
Proof. intros Hm Hk e b e' E. apply run_bind_inv in E as (a & e1 & E1 & E2). rewrite (Hk _ _ _ _ E2). by eapply Hm. Qed.
Lemma untouched_update (g : Engine -> Engine) : (forall e, f (g e) = f e) -> untouched f (update g).
Proof. intros Hg e b e' E. injection E as <- <-. apply Hg. Qed.
Lemma untouched_skip : untouched f skip.
Proof. intros e b e' E. by injection E as <- <-. Qed.
Lemma untouched_when b m : untouched f m -> untouched f (when b m).
Proof. intros Hm. destruct b; [done|apply untouched_skip]. Qed.
Lemma untouched_when_some (o : option A) k : (forall a, untouched f (k a)) -> untouched f (when_some o k).
Proof. intros Hk. destruct o; [apply Hk|apply untouched_skip]. Qed.
Lemma untouched_for_each (l : list A) (body : A -> M unit) : (forall x, untouched f (body x)) -> untouched f (for_each l body).
Proof.
  intros Hb. induction l as [|x l IH]; cbn [for_each]; [apply untouched_skip|].
  intros e b e' E. apply run_bind_inv in E as (a & e1 & E1 & E2). rewrite (IH _ _ _ E2). by eapply Hb.
Qed.
End Rules.

Ltac head_of t := lazymatch t with ?h _ => head_of h | _ => t end.

(** A primitive that is not built of others takes a result apart and assigns. *)
Ltac untouched_primitive :=
  intros ? ? ? E; cbv beta in E; repeat case_match; simplify_eq; reflexivity.

Ltac untouched_step :=
  lazymatch goal with
  | |- untouched _ (when _ _) => apply untouched_when
  | |- untouched _ (when_some _ _) => apply untouched_when_some; intros ?
  | |- untouched _ (for_each _ _) => apply untouched_for_each; intros ?
  | |- untouched _ (update _) => apply untouched_update; intros ?; reflexivity
  | |- untouched _ (mbind _ _) => apply untouched_bind; [|intros ?]
  | Hb : ?b = true |- untouched _ (if ?b then _ else _) => rewrite Hb
  | |- untouched _ (if ?b then _ else _) => destruct b eqn:?
  | |- untouched _ (match ?x with _ => _ end) => destruct x eqn:?
  | |- untouched _ (mret _) => apply untouched_ret
  | |- untouched _ skip => apply untouched_skip
  | |- untouched _ (get _) => apply untouched_get
  | |- untouched _ (lift _) => apply untouched_lift
  | |- untouched _ panic => apply untouched_panic
  | |- untouched _ (fun e => _) => untouched_primitive
  | |- untouched _ (send_loop _ _ _ _ _ _ _ _) => fail
  | |- untouched _ (drain_events _) => fail
  | |- untouched _ (drop_queued _) => fail
  | |- untouched _ ?m => let h := head_of m in unfold h
  end.
Ltac untouched_walk := repeat (cbv beta zeta; untouched_step).

Section Observe.
Context `{Platform} `{EngineConfig}.

(** ** A send pushes no event *)

Lemma send_loop_no_event fuel h c mss : forall bytes remaining accepted seq,
  untouched eg_events (send_loop fuel h c mss bytes remaining accepted seq).
Proof. induction fuel as [|fuel IH]; intros; cbn [send_loop]; untouched_walk; apply IH. Qed.

Lemma send_no_event h bytes : untouched eg_events (send_bytes h bytes).
Proof. untouched_walk. apply send_loop_no_event. Qed.

(** ** The test-server build hands nothing to the driver *)

Section Silent.
Context (Htest : test_server = true).

Lemma drain_silent n : untouched eg_wire (drain_events n).
Proof. induction n as [|n IH]; cbn [drain_events]; untouched_walk; apply IH. Qed.
Lemma drop_silent n : untouched eg_wire (drop_queued n).
Proof. induction n as [|n IH]; cbn [drop_queued]; untouched_walk; apply IH. Qed.
Lemma send_loop_silent fuel h c mss : forall bytes remaining accepted seq,
  untouched eg_wire (send_loop fuel h c mss bytes remaining accepted seq).
Proof. induction fuel as [|fuel IH]; intros; cbn [send_loop]; untouched_walk; apply IH. Qed.

Lemma send_silent h bytes : untouched eg_wire (send_bytes h bytes).
Proof. untouched_walk. apply send_loop_silent. Qed.
Lemma poll_silent burst : untouched eg_wire (poll_once burst).
Proof. untouched_walk. Qed.

Lemma call_silent c : untouched eg_wire (run_call c).
Proof. destruct c; cbn [run_call]; try solve [untouched_walk; first [apply drain_silent|apply send_loop_silent]]. Qed.

Lemma server_silent c : untouched eg_wire (run_server c).
Proof.
  destruct c as [c| | | | | | | |]; cbn [run_server]; [apply call_silent| | | | | | | |]; untouched_walk. apply drop_silent.
Qed.
End Silent.

(** C21. In the build with the test server, no sequence of calls, whatever arrives
    and whatever the driver answers, hands a frame to the driver. *)
Theorem server_build_never_transmits (calls : list ServerCall) (e e' : Engine) (Htest : test_server = true)
    (Hrun : for_each calls run_server e = Some (tt, e')) : eg_wire e' = eg_wire e.
Proof. revert Hrun. apply untouched_for_each. intros c. by apply server_silent. Qed.
End Observe.

(** ** A session of the listening engine of [ServerSpec], which answers into its queue *)

Lemma server_build_never_transmits_witness :
  exists e', for_each server_session (@run_server sample_platform server_config) server_engine = Some (tt, e') /\
    eg_wire e' = [] /\ length (eg_tx_intercept e') = 1%nat.
Proof.
  set (r := for_each server_session (@run_server sample_platform server_config) server_engine).
  assert (Hv : option_map (fun x => length (eg_tx_intercept x.2)) r = Some 1%nat) by (vm_compute; reflexivity).
  destruct r as [[[] e']|] eqn:E; [|discriminate Hv]. exists e'. split; [reflexivity|]. split.
  - exact (@server_build_never_transmits sample_platform server_config server_session server_engine e' eq_refl E).
  - cbn in Hv. by injection Hv.
Defined.
