(* ===== verification/Workload.v ===== *)
(** * The request-response workload: workload.rs and attribution.rs of tools/bench-e2e

    The loop the measurement and the correctness tools drive an engine with: send a request,
    poll until the response is there, account for the time.  What the loop cannot know, the
    burst of each poll and whether the wall clock has passed the deadline after it, is a
    list of [Turn]s; a loop that reaches the end of the list is still running.  The clock
    of the measurement is the platform's.  Samples stay integers; the tool stores them as
    floats. *)

From S2P Require Import Prelude.
From S2P Require Import Iss.
From S2P Require Import Mbuf.
From S2P Require Import TimerWheel.
From S2P Require Import Conn.
From S2P Require Import FlowTable.
From S2P Require Import AckBuild.
From S2P Require Import Events.
From S2P Require Import Engine.
From S2P Require Import EngineApi.
From S2P Require Import EngineInv.
From S2P Require Import EngineStep.
From S2P Require Import EngineLoop.
From S2P Require Import EngineSpec.
From S2P Require Import Observe.

(** ** Attribution: attribution.rs *)

Record HwTsBuckets := mkHwTsBuckets {
  hw_user_send_to_tx_sched_ns : Z;
  hw_tx_sched_to_nic_tx_wire_ns : Z;
  hw_nic_tx_wire_to_nic_rx_ns : Z;
  hw_nic_rx_to_enqueued_ns : Z;
  hw_enqueued_to_user_return_ns : Z
}.

Definition hw_total_ns (b : HwTsBuckets) : Z :=
  sat_add64 (sat_add64 (sat_add64 (sat_add64 (hw_user_send_to_tx_sched_ns b) (hw_tx_sched_to_nic_tx_wire_ns b))
    (hw_nic_tx_wire_to_nic_rx_ns b)) (hw_nic_rx_to_enqueued_ns b)) (hw_enqueued_to_user_return_ns b).

Record TscFallbackBuckets := mkTscFallbackBuckets {
  tsc_user_send_to_tx_sched_ns : Z;
  tsc_tx_sched_to_enqueued_ns : Z;
  tsc_enqueued_to_user_return_ns : Z
}.

Definition tsc_total_ns (b : TscFallbackBuckets) : Z :=
  sat_add64 (sat_add64 (tsc_user_send_to_tx_sched_ns b) (tsc_tx_sched_to_enqueued_ns b)) (tsc_enqueued_to_user_return_ns b).

Inductive AttributionMode := Hw | Tsc.
Definition from_rx_hw_ts (rx_hw_ts_ns : Z) : AttributionMode := if rx_hw_ts_ns =? 0 then Tsc else Hw.

(** sum_identity.rs: [Err] carries the difference. *)
Definition assert_sum_identity (bucket_sum_ns rtt_ns tol_ns : Z) : result unit Z :=
  let diff := Z.abs (bucket_sum_ns - rtt_ns) in
  if diff <=? tol_ns then Ok tt else Err diff.

(** ** One round trip *)

Record IterRecord := mkIterRecord {
  it_rtt_ns : Z;
  it_rx_hw_ts_ns : Z;
  it_mode : AttributionMode;
  it_hw_buckets : option HwTsBuckets;
  it_tsc_buckets : option TscFallbackBuckets
}.

Definition U128_MAX : Z := 2 ^ 128 - 1.

(** Division by a frequency of zero panics. *)
Definition tsc_delta_to_ns (t0 t1 tsc_hz : Z) : option Z :=
  if tsc_hz =? 0 then None else
  let delta := (t1 - t0) mod two64 in
  Some (u64 (Z.min U128_MAX (delta * 1000000000) / tsc_hz)).

(** The record from the four reads of the clock. *)
Definition compose_record (t_user_send t_tx_sched t_enqueued t_user_return tsc_hz rx_hw_ts_ns : Z) : option IterRecord :=
  rtt_ns ← tsc_delta_to_ns t_user_send t_user_return tsc_hz;
  let mode := from_rx_hw_ts rx_hw_ts_ns in
  match mode with
  | Hw =>
      host_span_ns ← tsc_delta_to_ns t_tx_sched t_enqueued tsc_hz;
      bucket_a ← tsc_delta_to_ns t_user_send t_tx_sched tsc_hz;
      bucket_e ← tsc_delta_to_ns t_enqueued t_user_return tsc_hz;
      Some (mkIterRecord rtt_ns rx_hw_ts_ns mode (Some (mkHwTsBuckets bucket_a 0 host_span_ns 0 bucket_e)) None)
  | Tsc =>
      bucket_a ← tsc_delta_to_ns t_user_send t_tx_sched tsc_hz;
      bucket_b ← tsc_delta_to_ns t_tx_sched t_enqueued tsc_hz;
      bucket_c ← tsc_delta_to_ns t_enqueued t_user_return tsc_hz;
      Some (mkIterRecord rtt_ns rx_hw_ts_ns mode None (Some (mkTscFallbackBuckets bucket_a bucket_b bucket_c)))
  end.

(** The sum of whichever buckets the record has. *)
Definition bucket_sum (r : IterRecord) : option Z :=
  match it_hw_buckets r, it_tsc_buckets r with
  | Some b, None => Some (hw_total_ns b)
  | None, Some b => Some (tsc_total_ns b)
  | _, _ => None
  end.

(** What the loops give up with. *)
Inductive WorkloadError :=
  | RecvError (errno : Z) | RecvClosed (err : Z) | PeerClosed (sent total : Z) | SendFailed (e : EngineError)
  | SendTimeout (sent total : Z) | RecvTimeout (got total : Z)
  | ConnectError (e : EngineError) | NoGateway | HandshakeError (errno : Z) | HandshakeClosed (err : Z) | ConnectTimeout.

(** One pass of a loop that polls: the burst, and whether the deadline had passed. *)
Record Turn := mkTurn { tn_burst : list RxPacket; tn_expired : bool }.

Inductive Phase (A : Type) :=
  | Finished (a : A) (turns : list Turn)
  | Bailed (e : WorkloadError)
  | Waiting.
Arguments Finished {A} a turns.
Arguments Bailed {A} e.
Arguments Waiting {A}.

Section Workload.
Context `{Platform} `{EngineConfig}.

(** [events.pop()]; what is popped is dropped before the next turn of the loop. *)
Definition pop_event : M (option InternalEvent) :=
  fun e => let '(oev, q) := event_pop (eg_events e) in Some (oev, e <| eg_events := q |>).

(** The loop of [drain_and_accumulate_readable], [fuel] being more than the events queued. *)
Fixpoint drain_readable (fuel : nat) (h : ConnHandle) (bytes : Z) (last_rx_hw_ts_ns : option Z)
    : M (result (Z * option Z) WorkloadError) :=
  match fuel with
  | O => mret (Ok (bytes, last_rx_hw_ts_ns))
  | S fuel =>
      oev ← pop_event;
      match oev with
      | None => mret (Ok (bytes, last_rx_hw_ts_ns))
      | Some ev =>
          rx_calls (drop_event ev) ;;
          match ev with
          | EvReadable ch _ _ total_len rx_hw_ts_ns _ =>
              if ch =? h then drain_readable fuel h (sat_add64 bytes total_len) (Some rx_hw_ts_ns)
              else drain_readable fuel h bytes last_rx_hw_ts_ns
          | EvError ch err _ =>
              if ch =? h then mret (Err (RecvError err)) else drain_readable fuel h bytes last_rx_hw_ts_ns
          | EvClosed ch err _ =>
              if ch =? h then mret (Err (RecvClosed err)) else drain_readable fuel h bytes last_rx_hw_ts_ns
          | _ => drain_readable fuel h bytes last_rx_hw_ts_ns
          end
      end
  end.

Definition drain_and_accumulate_readable (h : ConnHandle) (last_rx_hw_ts_ns : option Z)
    : M (result (Z * option Z) WorkloadError) :=
  n ← get (fun e => length (eq_q (eg_events e)));
  drain_readable (S n) h 0 last_rx_hw_ts_ns.

(** *** Sending the request; the result is [carry_forward]. *)
Fixpoint send_phase (turns : list Turn) (h : ConnHandle) (request : list Z) (sent carry_forward : Z) : M (Phase Z) :=
  if zlen request <=? sent then mret (Finished carry_forward turns) else
  r ← send_bytes h (drop (Z.to_nat sent) request);
  match r with
  | Err (InvalidConnHandle _) => mret (Bailed (PeerClosed sent (zlen request)))
  | Err e => mret (Bailed (SendFailed e))
  | Ok accepted =>
      let sent := sent + accepted in
      if zlen request <=? sent then mret (Finished carry_forward turns) else
      match turns with
      | [] => mret Waiting
      | t :: turns =>
          poll_once (tn_burst t) ;;
          d ← drain_and_accumulate_readable h None;
          match d with
          | Err e => mret (Bailed e)
          | Ok (n, _) =>
              if tn_expired t then mret (Bailed (SendTimeout sent (zlen request)))
              else send_phase turns h request sent (sat_add64 carry_forward n)
          end
      end
  end.

(** *** Receiving the response: how much there is, and the last hardware time stamp. *)
Fixpoint receive_phase (turns : list Turn) (h : ConnHandle) (response_bytes got : Z) (last_rx_hw_ts_ns : option Z)
    : M (Phase (Z * option Z)) :=
  if response_bytes <=? got then mret (Finished (got, last_rx_hw_ts_ns) turns) else
  match turns with
  | [] => mret Waiting
  | t :: turns =>
      poll_once (tn_burst t) ;;
      d ← drain_and_accumulate_readable h last_rx_hw_ts_ns;
      match d with
      | Err e => mret (Bailed e)
      | Ok (n, last) =>
          let got := wadd64 got n in
          if (got <? response_bytes) && tn_expired t then mret (Bailed (RecvTimeout got response_bytes))
          else receive_phase turns h response_bytes got last
      end
  end.

Definition request_response_attributed (turns : list Turn) (h : ConnHandle) (request : list Z)
    (response_bytes tsc_hz carry_forward : Z) : M (Phase (IterRecord * Z)) :=
  t_user_send ← ask pl_tsc;
  p ← send_phase turns h request 0 carry_forward;
  match p with
  | Bailed e => mret (Bailed e)
  | Waiting => mret Waiting
  | Finished carry_forward turns =>
      t_tx_sched ← ask pl_tsc;
      q ← receive_phase turns h response_bytes carry_forward None;
      match q with
      | Bailed e => mret (Bailed e)
      | Waiting => mret Waiting
      | Finished (got, last_rx_hw_ts_ns) turns =>
          let carry_forward := if response_bytes <? got then got - response_bytes else 0 in
          t_enqueued ← ask pl_tsc;
          t_user_return ← ask pl_tsc;
          r ← lift (compose_record t_user_send t_tx_sched t_enqueued t_user_return tsc_hz (default 0 last_rx_hw_ts_ns));
          mret (Finished (r, carry_forward) turns)
      end
  end.

(** [n] round trips; the records, and what the last left over. *)
Fixpoint round_trips (n : nat) (turns : list Turn) (h : ConnHandle) (request : list Z)
    (response_bytes tsc_hz carry_forward : Z) : M (Phase (list IterRecord * Z)) :=
  match n with
  | O => mret (Finished ([], carry_forward) turns)
  | S n =>
      p ← request_response_attributed turns h request response_bytes tsc_hz carry_forward;
      match p with
      | Bailed e => mret (Bailed e)
      | Waiting => mret Waiting
      | Finished (r, carry_forward) turns =>
          q ← round_trips n turns h request response_bytes tsc_hz carry_forward;
          mret (match q with
                | Bailed e => Bailed e
                | Waiting => Waiting
                | Finished (rs, carry_forward) turns => Finished (r :: rs, carry_forward) turns
                end)
      end
  end.

(** [run_rtt_workload]: the samples of the measured round trips. *)
Definition run_rtt_workload (turns : list Turn) (h : ConnHandle) (request_bytes : nat) (response_bytes tsc_hz : Z)
    (warmup iterations : nat) : M (Phase (list Z)) :=
  let request := replicate request_bytes 0 in
  p ← round_trips warmup turns h request response_bytes tsc_hz 0;
  match p with
  | Bailed e => mret (Bailed e)
  | Waiting => mret Waiting
  | Finished (_, carry_forward) turns =>
      q ← round_trips iterations turns h request response_bytes tsc_hz carry_forward;
      mret (match q with
            | Bailed e => Bailed e
            | Waiting => Waiting
            | Finished (rs, _) turns => Finished (map it_rtt_ns rs) turns
            end)
  end.

(** *** Opening the connection *)

(** [retry_on_peer_unreachable] around [connect]; a turn is the poll in between and the
    check of the time after it. *)
Fixpoint retry_connect (turns : list Turn) (peer_ip peer_port : Z) : M (Phase ConnHandle) :=
  r ← connect peer_ip peer_port 0;
  match r with
  | Ok h => mret (Finished h turns)
  | Err (PeerUnreachable _) =>
      match turns with
      | [] => mret Waiting
      | t :: turns =>
          poll_once (tn_burst t) ;;
          if tn_expired t then mret (Bailed NoGateway) else retry_connect turns peer_ip peer_port
      end
  | Err e => mret (Bailed (ConnectError e))
  end.

(** The loop of [drain_until_connected_or_error]. *)
Fixpoint drain_connected (fuel : nat) (h : ConnHandle) : M (result bool WorkloadError) :=
  match fuel with
  | O => mret (Ok false)
  | S fuel =>
      oev ← pop_event;
      match oev with
      | None => mret (Ok false)
      | Some ev =>
          rx_calls (drop_event ev) ;;
          match ev with
          | EvConnected ch _ _ => if ch =? h then mret (Ok true) else drain_connected fuel h
          | EvError ch err _ => if ch =? h then mret (Err (HandshakeError err)) else drain_connected fuel h
          | EvClosed ch err _ => if ch =? h then mret (Err (HandshakeClosed err)) else drain_connected fuel h
          | _ => drain_connected fuel h
          end
      end
  end.

Definition drain_until_connected_or_error (h : ConnHandle) : M (result bool WorkloadError) :=
  n ← get (fun e => length (eq_q (eg_events e)));
  drain_connected (S n) h.

Fixpoint await_connected (turns : list Turn) (h : ConnHandle) : M (Phase ConnHandle) :=
  match turns with
  | [] => mret Waiting
  | t :: turns =>
      poll_once (tn_burst t) ;;
      d ← drain_until_connected_or_error h;
      match d with
      | Err e => mret (Bailed e)
      | Ok true => mret (Finished h turns)
      | Ok false => if tn_expired t then mret (Bailed ConnectTimeout) else await_connected turns h
      end
  end.

Definition open_connection (turns : list Turn) (peer_ip peer_port : Z) : M (Phase ConnHandle) :=
  p ← retry_connect turns peer_ip peer_port;
  match p with
  | Finished h turns => await_connected turns h
  | Bailed e => mret (Bailed e)
  | Waiting => mret Waiting
  end.

(** ** Draining *)

(** The events that end a drain, and what the others say of the response. *)
Definition ends_drain (h : ConnHandle) (ev : InternalEvent) : option WorkloadError :=
  match ev with
  | EvError ch err _ => if ch =? h then Some (RecvError err) else None
  | EvClosed ch err _ => if ch =? h then Some (RecvClosed err) else None
  | _ => None
  end.
Definition response_part (h : ConnHandle) (ev : InternalEvent) : option (Z * Z) :=
  match ev with EvReadable ch _ _ n hw _ => if ch =? h then Some (n, hw) else None | _ => None end.

Definition drained (e : Engine) : Prop := eq_q (eg_events e) = [].

(** What the queue says: the bytes announced and the last time stamp, or the first event
    that ends the drain; and the events left. *)
Fixpoint queue_says (h : ConnHandle) (q : list InternalEvent) (bytes : Z) (hw : option Z)
    : result (Z * option Z) WorkloadError * list InternalEvent :=
  match q with
  | [] => (Ok (bytes, hw), [])
  | ev :: q =>
      match ends_drain h ev, response_part h ev with
      | Some err, _ => (Err err, q)
      | None, Some (n, ts) => queue_says h q (sat_add64 bytes n) (Some ts)
      | None, None => queue_says h q bytes hw
      end
  end.

Lemma drain_readable_run fuel h : forall q bytes hw e, eq_q (eg_events e) = q -> (length q < fuel)%nat ->
  exists e', drain_readable fuel h bytes hw e = Some ((queue_says h q bytes hw).1, e') /\
    eq_q (eg_events e') = (queue_says h q bytes hw).2.
Proof.
  induction fuel as [|fuel IH]; intros q bytes hw e Hq Hl; [lia|].
  cbn [drain_readable]. unfold mbind at 1, M_bind at 1, pop_event, event_pop. rewrite Hq.
  destruct q as [|ev q]; [by eexists; split; [reflexivity|]|]. cbn [length] in Hl.
  unfold mbind, M_bind, rx_calls, update. cbv beta iota.
  set (e1 := (e <| eg_events := (eg_events e) <| eq_q := q |> |>) <| eg_rx_ops ::= fun l => l ++ drop_event ev |>).
  change (exists e', (match ev with
    | EvReadable ch _ _ total_len rx_hw_ts_ns _ =>
        if ch =? h then drain_readable fuel h (sat_add64 bytes total_len) (Some rx_hw_ts_ns) else drain_readable fuel h bytes hw
    | EvError ch err _ => if ch =? h then mret (Err (RecvError err)) else drain_readable fuel h bytes hw
    | EvClosed ch err _ => if ch =? h then mret (Err (RecvClosed err)) else drain_readable fuel h bytes hw
    | _ => drain_readable fuel h bytes hw
    end) e1 = Some ((queue_says h (ev :: q) bytes hw).1, e') /\ eq_q (eg_events e') = (queue_says h (ev :: q) bytes hw).2).
  assert (Hq1 : eq_q (eg_events e1) = q) by done. clearbody e1.
  assert (Hgo : forall b w, exists e', drain_readable fuel h b w e1 = Some ((queue_says h q b w).1, e') /\
    eq_q (eg_events e') = (queue_says h q b w).2) by (intros; apply IH; [done|lia]).
  destruct ev; cbn [queue_says ends_drain response_part]; try destruct (_ =? h); try apply Hgo; by exists e1.
Qed.

Lemma drain_run h hw e : exists e',
  drain_and_accumulate_readable h hw e = Some ((queue_says h (eq_q (eg_events e)) 0 hw).1, e') /\
  eq_q (eg_events e') = (queue_says h (eq_q (eg_events e)) 0 hw).2.
Proof.
  destruct (drain_readable_run (S (length (eq_q (eg_events e)))) h (eq_q (eg_events e)) 0 hw e) as (e' & E & Hq); [done|lia|].
  by exists e'.
Qed.

Lemma says_ok h : forall q bytes hw x rest, queue_says h q bytes hw = (Ok x, rest) -> rest = [] /\
  Forall (fun ev => ends_drain h ev = None) q /\
  x = (foldl sat_add64 bytes (omap (fun ev => fst <$> response_part h ev) q),
       foldl (fun _ ts => Some ts) hw (omap (fun ev => snd <$> response_part h ev) q)).
Proof.
  induction q as [|ev q IH]; intros bytes hw x rest; cbn [queue_says]; [by intros [= <- <-]|].
  destruct (ends_drain h ev) as [err|] eqn:Ee; [done|]. cbn [omap list_omap].
  destruct (response_part h ev) as [[n ts]|]; intros Hs; apply IH in Hs as (-> & Hf & ->); split_and!; try done; by constructor.
Qed.

Lemma says_err h : forall q bytes hw err rest, queue_says h q bytes hw = (Err err, rest) ->
  exists pre ev, q = pre ++ ev :: rest /\ Forall (fun ev => ends_drain h ev = None) pre /\ ends_drain h ev = Some err.
Proof.
  induction q as [|ev q IH]; intros bytes hw err rest; cbn [queue_says]; [done|].
  destruct (ends_drain h ev) as [err'|] eqn:Ee; [intros [= -> ->]; by exists [], ev|].
  destruct (response_part h ev) as [[n ts]|]; intros Hs; apply IH in Hs as (pre & ev' & -> & Hf & He);
    exists (ev :: pre), ev'; (split; [done|]); (split; [by constructor|done]).
Qed.

Lemma drain_ok_drained h hw e x e' : drain_and_accumulate_readable h hw e = Some (Ok x, e') -> drained e'.
Proof.
  destruct (drain_run h hw e) as (e2 & E & Hq). rewrite E. intros [= Hr <-]. unfold drained. rewrite Hq.
  destruct (queue_says h _ 0 hw) as [r rest] eqn:Eq. cbn [fst snd] in *. subst r. by apply says_ok in Eq as (-> & _).
Qed.

(** ** The loops keep the invariant of the engine *)

(** [m] returns a value as [Q] says, and the invariant holds again. *)
Definition steady {A} (Q : A -> Prop) (m : M A) : Prop :=
  forall e, engine_ok e -> exists a e', m e = Some (a, e') /\ Q a /\ engine_ok e'.

Lemma steady_ret {A} (Q : A -> Prop) (a : A) : Q a -> steady Q (mret a).
Proof. intros Ha e He. by exists a, e. Qed.
Lemma steady_bind {A B} (P : A -> Prop) (Q : B -> Prop) (m : M A) (k : A -> M B) :
  steady P m -> (forall a, P a -> steady Q (k a)) -> steady Q (mbind (M := M) k m).
Proof.
  intros Hm Hk e He. destruct (Hm e He) as (a & e1 & E1 & Ha & H1). destruct (Hk a Ha e1 H1) as (b & e2 & E2 & H2).
  exists b, e2. split; [|done]. unfold mbind, M_bind. by rewrite E1.
Qed.
Definition any {A} : A -> Prop := fun _ => True.
Lemma steady_safe {A} (m : M A) : safe None m -> steady any m.
Proof.
  intros Hs e He. destruct (Hs (fun m => ledger m e) e) as (a & e' & E & H1 & _); [by split|]. by exists a, e'.
Qed.

Lemma safe_pop {B} p (k0 : M B) (k : InternalEvent -> M B) : safe p k0 -> (forall ev, safe p (k ev)) ->
  safe p (oev ← pop_event; match oev with None => k0 | Some ev => rx_calls (drop_event ev) ;; k ev end).
Proof.
  intros Hnone Hk L e He. unfold mbind at 1, M_bind at 1, pop_event, event_pop.
  destruct (eq_q (eg_events e)) as [|ev q] eqn:Eq.
  - by apply (Hnone L (e <| eg_events := eg_events e |>)), (good_core p L e).
  - apply (Hk ev L). destruct He as [[H1 H2 H3 HH H4 H5 [Q1 Q2]] H7]. rewrite Eq in Q2. split.
    + split; try done. split; cbn; [done|]. rewrite zlen_cons in Q2. lia.
    + intros m. rewrite <- H7. unfold ledger, held. cbn [field_set eg_flow_table eg_events eg_drained eg_rx_ops].
      rewrite ref_delta_app, drop_event_delta. change (owned m (eg_events e)) with (owned m (eq_q (eg_events e))).
      rewrite Eq. change (owned m (mkEventQueue q (eq_soft_cap (eg_events e)))) with (owned m q). rewrite owned_cons. lia.
Qed.

Lemma safe_drain_readable p h : forall fuel bytes hw, safe p (drain_readable fuel h bytes hw).
Proof.
  induction fuel as [|fuel IH]; intros bytes hw; cbn [drain_readable]; [apply safe_ret|].
  apply safe_pop; [apply safe_ret|]. intros ev. destruct ev; try apply IH; destruct (_ =? h); try apply IH; apply safe_ret.
Qed.
Lemma safe_drain_accumulate p h hw : safe p (drain_and_accumulate_readable h hw).
Proof. apply safe_bind; [apply safe_get|]. intros n. apply safe_drain_readable. Qed.
Lemma safe_drain_connected p h : forall fuel, safe p (drain_connected fuel h).
Proof.
  induction fuel as [|fuel IH]; cbn [drain_connected]; [apply safe_ret|].
  apply safe_pop; [apply safe_ret|]. intros ev. destruct ev; try apply IH; destruct (_ =? h); try apply IH; apply safe_ret.
Qed.

Definition turns_ok (turns : list Turn) : Prop := Forall (fun t => Forall packet_ok (tn_burst t)) turns.

Definition phase_ok {A} (p : Phase A) : Prop := match p with Finished _ turns => turns_ok turns | _ => True end.

Section Steady.
Context (Hcfg : config_ok).

Lemma steady_call c {A} (m : M A) : run_call c = (m ;; skip) -> call_ok c -> steady any m.
Proof.
  intros Hm Hc e He. destruct (run_call_good c (fun m => ledger m e) Hcfg Hc e) as (u & e' & E & H1 & _); [by split|].
  rewrite Hm in E. apply run_bind_inv in E as (a & e1 & E1 & E2). injection E2 as _ <-. by exists a, e1.
Qed.
Lemma steady_poll burst : Forall packet_ok burst -> steady any (poll_once burst).
Proof. by apply (steady_call (CallPoll burst)). Qed.
Lemma steady_send h bytes : steady any (send_bytes h bytes).
Proof. by apply (steady_call (CallSend h bytes)). Qed.
Lemma steady_connect ip port : steady any (connect ip port 0).
Proof. destruct Hcfg as [Hm Hs Hr]. apply steady_safe. by apply safe_connect. Qed.
Lemma steady_ask {A} (f : nat -> A) : steady any (ask f).
Proof. apply steady_safe, safe_ask. Qed.

Ltac by_ret := by apply steady_ret.

Lemma steady_sending h request : forall turns sent carry, turns_ok turns -> steady phase_ok (send_phase turns h request sent carry).
Proof.
  intros turns. induction turns as [|t turns IH]; intros sent carry Ht; cbn [send_phase];
    (destruct (_ <=? _); [by_ret|]); (eapply steady_bind; [apply steady_send|]);
    intros [n|[]] _; try by_ret; (destruct (_ <=? _); [by_ret|]); [by_ret|].
  inversion_clear Ht as [|? ? Hp Ht']. eapply steady_bind; [by apply steady_poll|]. intros _ _.
  eapply steady_bind; [apply steady_safe, safe_drain_accumulate|]. intros [[k hw]|e] _; [|by_ret].
  destruct (tn_expired t); [by_ret|]. by apply IH.
Qed.

Lemma steady_receiving h want : forall turns got hw, turns_ok turns -> steady phase_ok (receive_phase turns h want got hw).
Proof.
  intros turns. induction turns as [|t turns IH]; intros got hw Ht; cbn [receive_phase];
    (destruct (_ <=? _); [by_ret|]); [by_ret|].
  inversion_clear Ht as [|? ? Hp Ht']. eapply steady_bind; [by apply steady_poll|]. intros _ _.
  eapply steady_bind; [apply steady_safe, safe_drain_accumulate|]. intros [[k ts]|e] _; [|by_ret].
  destruct (_ && _); [by_ret|]. by apply IH.
Qed.

Lemma compose_some a b c d hz hw : hz <> 0 -> is_Some (compose_record a b c d hz hw).
Proof.
  intros Hz. unfold compose_record, tsc_delta_to_ns. apply Z.eqb_neq in Hz. rewrite Hz. cbn [mbind option_bind].
  destruct (from_rx_hw_ts hw); by eexists.
Qed.

Lemma steady_round_trip turns h request want hz carry : hz <> 0 -> turns_ok turns ->
  steady phase_ok (request_response_attributed turns h request want hz carry).
Proof.
  intros Hz Ht. unfold request_response_attributed. eapply steady_bind; [apply steady_ask|]. intros t0 _.
  eapply steady_bind; [by apply steady_sending|]. intros [c ts|e|] Hp; try by_ret.
  eapply steady_bind; [apply steady_ask|]. intros t1 _.
  eapply steady_bind; [by apply steady_receiving|]. intros [[got hw] ts'|e|] Hp'; try by_ret.
  eapply steady_bind; [apply steady_ask|]. intros t2 _. eapply steady_bind; [apply steady_ask|]. intros t3 _.
  destruct (compose_some t0 t1 t2 t3 hz (default 0 hw) Hz) as [r Hr]. rewrite Hr.
  eapply (steady_bind any); [intros e He; by exists r, e|]. intros r' _. by_ret.
Qed.

Lemma steady_round_trips h request want hz : hz <> 0 -> forall n turns carry, turns_ok turns ->
  steady phase_ok (round_trips n turns h request want hz carry).
Proof.
  intros Hz. induction n as [|n IH]; intros turns carry Ht; cbn [round_trips]; [by_ret|].
  eapply steady_bind; [by apply steady_round_trip|]. intros [[r c] ts|e|] Hp; try by_ret.
  eapply steady_bind; [by apply IH|]. intros [[rs c'] ts'|e|] Hp'; by_ret.
Qed.

Lemma steady_workload turns h n want hz warmup iterations : hz <> 0 -> turns_ok turns ->
  steady phase_ok (run_rtt_workload turns h n want hz warmup iterations).
Proof.
  intros Hz Ht. unfold run_rtt_workload. eapply steady_bind; [by apply steady_round_trips|].
  intros [[r c] ts|e|] Hp; try by_ret. eapply steady_bind; [by apply steady_round_trips|].
  intros [[rs c'] ts'|e|] Hp'; by_ret.
Qed.

Lemma steady_retry ip port : forall turns, turns_ok turns -> steady phase_ok (retry_connect turns ip port).
Proof.
  intros turns. induction turns as [|t turns IH]; intros Ht; cbn [retry_connect];
    (eapply steady_bind; [apply steady_connect|]); intros [h|[]] _; try by_ret.
  inversion_clear Ht as [|? ? Hp Ht']. eapply steady_bind; [by apply steady_poll|]. intros _ _.
  destruct (tn_expired t); [by_ret|]. by apply IH.
Qed.
Lemma steady_await h : forall turns, turns_ok turns -> steady phase_ok (await_connected turns h).
Proof.
  intros turns. induction turns as [|t turns IH]; intros Ht; cbn [await_connected]; [by_ret|].
  inversion_clear Ht as [|? ? Hp Ht']. eapply steady_bind; [by apply steady_poll|]. intros _ _.
  eapply steady_bind; [apply steady_safe, safe_bind; [apply safe_get|intros n; apply safe_drain_connected]|].
  intros [[]|e] _; [by_ret| |by_ret]. destruct (tn_expired t); [by_ret|]. by apply IH.
Qed.
Lemma steady_open turns ip port : turns_ok turns -> steady phase_ok (open_connection turns ip port).
Proof.
  intros Ht. unfold open_connection. eapply steady_bind; [by apply steady_retry|]. intros [h ts|e|] Hp; try by_ret.
  by apply steady_await.
Qed.
End Steady.

(** ** What the loops leave in the queue *)

(** Either the queue is drained, or it is the one found and [K] holds. *)
Definition left_over (e e' : Engine) (K : Prop) : Prop := drained e' \/ eg_events e' = eg_events e /\ K.

Lemma left_over_then e1 e2 e3 (K1 K2 K3 : Prop) : left_over e1 e2 K1 -> left_over e2 e3 K2 -> (K1 -> K2 -> K3) -> left_over e1 e3 K3.
Proof.
  intros H1 [H2|[H2 K]] HK; [by left|]. destruct H1 as [H1|[H1 K']].
  - left. unfold drained. by rewrite H2.
  - right. split; [congruence|auto].
Qed.

Lemma sending_leaves h request : forall turns sent carry e c' turns' e',
  send_phase turns h request sent carry e = Some (Finished c' turns', e') -> left_over e e' (c' = carry).
Proof.
  intros turns. induction turns as [|t turns IH]; intros sent carry e c' turns' e' E; cbn [send_phase] in E;
    (destruct (_ <=? _); [injection E as <- _ <-; by right|]);
    apply run_bind_inv in E as (r & e1 & E1 & E); apply send_no_event in E1; (destruct r as [n|[]]; try done);
    (destruct (_ <=? _); [injection E as <- _ <-; by right|]); [done|].
  apply run_bind_inv in E as (? & e2 & _ & E). apply run_bind_inv in E as (d & e3 & E3 & E).
  destruct d as [[k hw]|err]; [|done]. destruct (tn_expired t); [done|]. apply drain_ok_drained in E3. apply IH in E as [E|[E _]].
  - by left.
  - left. unfold drained. by rewrite E.
Qed.

Lemma receiving_leaves h want : forall turns got hw e x turns' e',
  receive_phase turns h want got hw e = Some (Finished x turns', e') -> left_over e e' (want <= got).
Proof.
  intros turns. induction turns as [|t turns IH]; intros got hw e x turns' e' E; cbn [receive_phase] in E;
    (destruct (Z.leb_spec want got) as [Hl|Hl]; [injection E as _ _ <-; by right|]); [done|].
  apply run_bind_inv in E as (? & e2 & _ & E). apply run_bind_inv in E as (d & e3 & E3 & E).
  destruct d as [[k ts]|err]; [|done]. destruct (_ && _); [done|]. apply drain_ok_drained in E3. apply IH in E as [E|[E _]].
  - by left.
  - left. unfold drained. by rewrite E.
Qed.

Lemma ask_leaves {A} (f : nat -> A) e a e' : ask f e = Some (a, e') -> eg_events e' = eg_events e.
Proof. intros E. by injection E as <- <-. Qed.

Lemma round_trip_leaves turns h request want hz carry e r c' turns' e' :
  request_response_attributed turns h request want hz carry e = Some (Finished (r, c') turns', e') ->
  left_over e e' (want <= carry).
Proof.
  unfold request_response_attributed. intros E. apply run_bind_inv in E as (t0 & e1 & E1 & E). apply ask_leaves in E1.
  apply run_bind_inv in E as ([c ts|?|] & e2 & E2 & E); try done. apply sending_leaves in E2.
  apply run_bind_inv in E as (t1 & e3 & E3 & E). apply ask_leaves in E3.
  apply run_bind_inv in E as ([[got hw] ts'|?|] & e4 & E4 & E); try done. apply receiving_leaves in E4.
  apply run_bind_inv in E as (t2 & e5 & E5 & E). apply ask_leaves in E5.
  apply run_bind_inv in E as (t3 & e6 & E6 & E). apply ask_leaves in E6.
  apply run_bind_inv in E as (r' & e7 & E7 & E). unfold lift in E7. destruct (compose_record _ _ _ _ _ _); [|done].
  injection E7 as _ <-. injection E as _ _ _ <-. unfold left_over, drained in *. rewrite E6, E5.
  destruct E4 as [E4|[E4 H4]]; [by left|]. rewrite E4, E3. destruct E2 as [E2|[E2 ->]]; [by left|]. right. split; [congruence|done].
Qed.

Lemma round_trips_leave h request want hz : forall n turns carry e rs c' turns' e',
  round_trips n turns h request want hz carry e = Some (Finished (rs, c') turns', e') ->
  left_over e e' ((n = 0%nat /\ c' = carry) \/ want <= carry).
Proof.
  induction n as [|n IH]; intros turns carry e rs c' turns' e' E; cbn [round_trips] in E.
  - injection E as _ <- _ <-. right. split; [done|]. by left.
  - apply run_bind_inv in E as ([[r c] ts|?|] & e1 & E1 & E); try done. apply round_trip_leaves in E1.
    apply run_bind_inv in E as ([[rs' c2] ts'|?|] & e2 & E2 & E); try done. apply IH in E2. injection E as _ _ _ <-.
    eapply left_over_then; [exact E1|exact E2|]. intros Hw _. by right.
Qed.

(** ** Properties *)

(** A request-response workload (run_rtt_workload and everything it calls) on an
    engine in order returns, whatever arrives and whenever the deadlines pass: no panic, and
    the engine is in order again.  A frequency of zero is the one thing that would panic. *)
Theorem workload_never_panics (turns : list Turn) (h : ConnHandle) (request_bytes : nat) (response_bytes tsc_hz : Z)
    (warmup iterations : nat) (e : Engine) (Hcfg : config_ok) (Hz : tsc_hz <> 0) (Ht : turns_ok turns) (He : engine_ok e) :
  exists p e', run_rtt_workload turns h request_bytes response_bytes tsc_hz warmup iterations e = Some (p, e') /\ engine_ok e'.
Proof.
  destruct (steady_workload Hcfg turns h request_bytes response_bytes tsc_hz warmup iterations Hz Ht e He) as (p & e' & E & _ & H').
  by exists p, e'.
Qed.

(** Drain_and_accumulate_readable empties the queue: when no event of the queue is
    an error or a close of this connection it returns the bytes its readable events announce,
    saturating, and the last hardware time stamp among them; otherwise the first such event
    is the error it returns, and the events after it stay queued. *)
Theorem drain_accumulates (h : ConnHandle) (hw : option Z) (e : Engine) :
  let q := eq_q (eg_events e) in
  exists r e', drain_and_accumulate_readable h hw e = Some (r, e') /\
    match r with
    | Ok (bytes, ts) =>
        eq_q (eg_events e') = [] /\ Forall (fun ev => ends_drain h ev = None) q /\
        bytes = foldl sat_add64 0 (omap (fun ev => fst <$> response_part h ev) q) /\
        ts = foldl (fun _ ts => Some ts) hw (omap (fun ev => snd <$> response_part h ev) q)
    | Err err =>
        exists pre ev, q = pre ++ ev :: eq_q (eg_events e') /\ Forall (fun ev => ends_drain h ev = None) pre /\
          ends_drain h ev = Some err
    end.
Proof.
  cbv zeta. destruct (drain_run h hw e) as (e' & E & Hq). eexists _, e'. split; [exact E|].
  destruct (queue_says h _ 0 hw) as [[[bytes ts]|err] rest] eqn:Es; cbn [fst snd] in *; rewrite Hq.
  - apply says_ok in Es as (-> & Hf & [= -> ->]). done.
  - by apply says_err in Es.
Qed.

(** When a workload of at least one round trip that waits for a byte finishes, it
    has taken every event off the queue, the state changes included. *)
Theorem workload_drains_all (turns turns' : list Turn) (h : ConnHandle) (request_bytes : nat) (response_bytes tsc_hz : Z)
    (warmup iterations : nat) (samples : list Z) (e e' : Engine) (Hw : 0 < response_bytes) (Hn : (0 < warmup + iterations)%nat)
    (Hrun : run_rtt_workload turns h request_bytes response_bytes tsc_hz warmup iterations e = Some (Finished samples turns', e')) :
  event_is_empty (eg_events e') = true.
Proof.
  unfold run_rtt_workload in Hrun. apply run_bind_inv in Hrun as ([[r c] ts|?|] & e1 & E1 & E); try done.
  apply run_bind_inv in E as ([[rs c2] ts'|?|] & e2 & E2 & E); try done. injection E as _ _ <-.
  apply round_trips_leave in E1. apply round_trips_leave in E2.
  assert (Hd : left_over e e2 False).
  { eapply left_over_then; [exact E1|exact E2|]. intros [[? ->]|?] [[? _]|?]; lia. }
  destruct Hd as [Hd|[_ []]]. unfold event_is_empty. by rewrite Hd.
Qed.
End Workload.

(** *** Attribution *)

Lemma floor_split a b c hz : 0 < hz -> 0 <= a -> 0 <= b -> 0 <= c ->
  (a + b + c) / hz - 2 <= a / hz + b / hz + c / hz <= (a + b + c) / hz.
Proof.
  intros Hz Ha Hb Hc. pose proof (Z.mod_pos_bound a hz Hz). pose proof (Z.mod_pos_bound b hz Hz). pose proof (Z.mod_pos_bound c hz Hz).
  pose proof (Z.div_mod a hz ltac:(lia)). pose proof (Z.div_mod b hz ltac:(lia)). pose proof (Z.div_mod c hz ltac:(lia)).
  pose proof (Z.div_mod (a + b + c) hz ltac:(lia)). pose proof (Z.mod_pos_bound (a + b + c) hz Hz). nia.
Qed.

Lemma tsc_delta_plain t0 t1 hz : 0 < hz -> 0 <= t0 <= t1 -> t1 < two64 -> (t1 - t0) * 1000000000 / hz < two64 ->
  tsc_delta_to_ns t0 t1 hz = Some ((t1 - t0) * 1000000000 / hz).
Proof.
  intros Hz H0 H1 Hlt. unfold tsc_delta_to_ns. destruct (Z.eqb_spec hz 0); [lia|]. f_equal. rewrite (Z.mod_small (t1 - t0)) by lia.
  rewrite Z.min_r by (unfold U128_MAX; unfold two64 in H1; lia). apply Z.mod_small. split; [apply Z.div_pos; lia|exact Hlt].
Qed.

(** The buckets of a round trip add up to its time within 2 ns, each being rounded
    down on its own; so they pass the tool's check with any tolerance of at least 2. *)
Theorem attribution_sums (t0 t1 t2 t3 tsc_hz hw tol : Z) (Hz : 0 < tsc_hz) (H0 : 0 <= t0 <= t1) (H1 : t1 <= t2) (H2 : t2 <= t3)
    (H3 : t3 < two64) (Hspan : (t3 - t0) * 1000000000 / tsc_hz < two64) (Htol : 2 <= tol) :
  exists r s, compose_record t0 t1 t2 t3 tsc_hz hw = Some r /\ bucket_sum r = Some s /\
    it_rtt_ns r - 2 <= s <= it_rtt_ns r /\ assert_sum_identity s (it_rtt_ns r) tol = Ok tt.
Proof.
  pose proof (floor_split ((t1 - t0) * 1000000000) ((t2 - t1) * 1000000000) ((t3 - t2) * 1000000000) tsc_hz Hz
    ltac:(lia) ltac:(lia) ltac:(lia)) as Hf.
  replace ((t1 - t0) * 1000000000 + (t2 - t1) * 1000000000 + (t3 - t2) * 1000000000) with ((t3 - t0) * 1000000000) in Hf by lia.
  assert (Hp : forall a b, a <= b -> 0 <= (b - a) * 1000000000 / tsc_hz) by (intros; apply Z.div_pos; lia).
  pose proof (Hp t0 t1 ltac:(lia)) as P1. pose proof (Hp t1 t2 ltac:(lia)) as P2. pose proof (Hp t2 t3 ltac:(lia)) as P3.
  unfold compose_record. rewrite !tsc_delta_plain by lia. cbn [mbind option_bind].
  set (a := (t1 - t0) * 1000000000 / tsc_hz) in *. set (b := (t2 - t1) * 1000000000 / tsc_hz) in *.
  set (c := (t3 - t2) * 1000000000 / tsc_hz) in *. set (rtt := (t3 - t0) * 1000000000 / tsc_hz) in *. clearbody a b c rtt.
  assert (Hok : forall s, rtt - 2 <= s <= rtt -> assert_sum_identity s rtt tol = Ok tt).
  { intros s Hs. unfold assert_sum_identity. by rewrite (proj2 (Z.leb_le _ _)) by lia. }
  destruct (from_rx_hw_ts hw); eexists _, _; (split; [reflexivity|]); (split; [reflexivity|]);
    unfold hw_total_ns, tsc_total_ns, sat_add64, U64_MAX; cbn -[Z.min Z.sub Z.add]; unfold two64 in *; (split; [lia|]);
    apply Hok; lia.
Qed.

(** Three reads of two cycles each at 3 GHz: no bucket comes to a nanosecond, the whole does. *)
Example attribution_falls_short :
  option_map (fun r => (it_rtt_ns r, bucket_sum r)) (compose_record 0 2 4 6 3000000000 0) = Some (2, Some 0).
Proof. reflexivity. Qed.
