(* ===== verification/Oracle.v ===== *)
(** * The oracle of the correctness gate: tools/layer-h-correctness

    assertions.rs (relations on the change of a counter), counters_snapshot.rs and
    observation.rs (the window of events and the watch over one connection).  Counters are
    looked up in the registry of [Counters]; [CounterValues] is what their atomics read.  A
    message that only formats its parts is a constructor of [Message] with those parts.
    [TcpStateName] has the constructors of [TcpState], and [From] maps each to its name. *)

From S2P Require Import Prelude.
From stdpp Require Import strings.
From S2P Require Import Text.
From S2P Require Import TimerWheel.
From S2P Require Import Conn.
From S2P Require Import FlowTable.
From S2P Require Import Events.
From S2P Require Import Engine.
From S2P Require Import EngineApi.
From S2P Require Import EngineInv.
From S2P Require Import EngineLoop.
From S2P Require Import EngineSpec.
From S2P Require Import Server.
From S2P Require Import Counters.
From S2P Require Import Observe.
From S2P Require Import Workload.

#[local] Open Scope Z_scope.

(** ** Relations: assertions.rs *)

Inductive Relation := GreaterThanZero | EqualsZero | LessOrEqualThan (n : Z).
Inductive RelationParseError := Unknown (s : text) | InvalidBound (s : text).

Definition relation_parse (s : text) : result Relation RelationParseError :=
  if bool_decide (s = txt ">0") then Ok GreaterThanZero
  else if bool_decide (s = txt "==0") then Ok EqualsZero
  else if starts_with (txt "<=") s then
    match from_str_radix 10 U64_MAX (drop 2 s) with
    | Some n => Ok (LessOrEqualThan n)
    | None => Err (InvalidBound s)
    end
  else Err (Unknown s).

(** [fmt::Display]. *)
Definition relation_display (r : Relation) : text :=
  match r with
  | GreaterThanZero => txt ">0"
  | EqualsZero => txt "==0"
  | LessOrEqualThan n => txt "<=" ++ show 10 n
  end.

(** The diagnostics of [check]. *)
Inductive Mismatch :=
  | NotPositive (counter : string) (delta : Z)
  | NotZero (counter : string) (delta : Z)
  | NegativeDelta (counter : string) (n delta : Z)
  | AboveBound (counter : string) (n delta : Z).

Definition relation_check (r : Relation) (counter : string) (delta : Z) : result unit Mismatch :=
  match r with
  | GreaterThanZero => if 0 <? delta then Ok tt else Err (NotPositive counter delta)
  | EqualsZero => if delta =? 0 then Ok tt else Err (NotZero counter delta)
  | LessOrEqualThan n =>
      if delta <? 0 then Err (NegativeDelta counter n delta)
      else if delta <=? n then Ok tt else Err (AboveBound counter n delta)
  end.

(** ** Snapshots: counters_snapshot.rs *)

Definition MIN_RX_MEMPOOL_AVAIL : Z := 32.
Definition SIDE_CHECK_COUNTERS : list string := ["tcp.mbuf_refcnt_drop_unexpected"%string; "obs.events_dropped"%string].

Definition Snapshot : Type := gmap string Z.
Definition CounterValues : Type := Group * string -> Z.

Inductive SnapshotError := UnknownCounter (name : string) | MissingFromSnapshot (name : string).

Definition read_counter (c : CounterValues) (name : string) : option Z := c <$> lookup_counter name.

Fixpoint snapshot_from (c : CounterValues) (names : list string) (out : Snapshot) : result Snapshot SnapshotError :=
  match names with
  | [] => Ok out
  | n :: names =>
      match read_counter c n with
      | Some v => snapshot_from c names (<[n := v]> out)
      | None => Err (UnknownCounter n)
      end
  end.
Definition snapshot (c : CounterValues) (names : list string) : result Snapshot SnapshotError := snapshot_from c names ∅.

Definition snapshot_delta (pre post : Snapshot) (name : string) : result Z SnapshotError :=
  match pre !! name, post !! name with
  | Some p0, Some p1 => Ok (p1 - p0)
  | _, _ => Err (MissingFromSnapshot name)
  end.

(** ** Failures: observation.rs *)

Inductive Message :=
  | MsgMismatch (m : Mismatch)
  | MsgParse (e : RelationParseError)
  | MsgMissing (e : SnapshotError)
  | MsgDelta (counter : string) (r : Relation) (delta : Z)
  | MsgDisjunctive (counters : list string) (r : Relation) (deltas : list Z).

Inductive FailureReason :=
  | ConnectFailed (error : WorkloadError)
  | FsmDeparted (observed : option TcpState)
  | IllegalTransition (from to : TcpState) (at_event_idx : Z)
  | CounterRelation (counter : string) (relation : text) (observed_delta : Z) (message : Message)
  | DisjunctiveCounterRelation (counters : list string) (relation : text) (observed_deltas : list Z) (message : Message)
  | LiveCounterBelowMin (counter : string) (observed min : Z)
  | EventsDropped (count : Z)
  | WorkloadFailed (error : WorkloadError).

Inductive Verdict := Pass | Failed (failures : list FailureReason).

Definition counter_relation (counter : string) (r : Relation) (delta : Z) : FailureReason :=
  CounterRelation counter (relation_display r) delta (MsgDelta counter r delta).
Definition disjunctive (counters : list string) (r : Relation) (deltas : list Z) : FailureReason :=
  DisjunctiveCounterRelation counters (relation_display r) deltas (MsgDisjunctive counters r deltas).

(** ** Evaluation: assertions.rs *)

Definition evaluate_expectation (pre post : Snapshot) (x : string * text) : list FailureReason :=
  let '(counter, rel_str) := x in
  match relation_parse rel_str with
  | Err e => [CounterRelation counter rel_str 0 (MsgParse e)]
  | Ok rel =>
      match snapshot_delta pre post counter with
      | Err e => [CounterRelation counter (relation_display rel) 0 (MsgMissing e)]
      | Ok delta =>
          match relation_check rel counter delta with
          | Err msg => [CounterRelation counter (relation_display rel) delta (MsgMismatch msg)]
          | Ok _ => []
          end
      end
  end.
Definition evaluate_counter_expectations (pre post : Snapshot) (expectations : list (string * text)) : list FailureReason :=
  mbind (evaluate_expectation pre post) expectations.

(** [unwrap_or(0)]. *)
Definition delta_or_zero (pre post : Snapshot) (c : string) : Z :=
  match snapshot_delta pre post c with Ok d => d | Err _ => 0 end.
Definition check_passes (r : Relation) (c : string) (d : Z) : bool :=
  match relation_check r c d with Ok _ => true | Err _ => false end.

Definition evaluate_group (pre post : Snapshot) (x : list string * text) : list FailureReason :=
  let '(counters, rel_str) := x in
  match relation_parse rel_str with
  | Err e => [DisjunctiveCounterRelation counters rel_str [] (MsgParse e)]
  | Ok rel =>
      let deltas := map (delta_or_zero pre post) counters in
      if existsb (fun c => check_passes rel c (delta_or_zero pre post c)) counters then []
      else [disjunctive counters rel deltas]
  end.
Definition evaluate_disjunctive (pre post : Snapshot) (expectations : list (list string * text)) : list FailureReason :=
  mbind (evaluate_group pre post) expectations.

Definition evaluate_side_check (pre post : Snapshot) (counter : string) : list FailureReason :=
  match snapshot_delta pre post counter with
  | Err e => [CounterRelation counter (txt "==0") 0 (MsgMissing e)]
  | Ok d => if negb (d =? 0) then [counter_relation counter EqualsZero d] else []
  end.
Definition evaluate_global_side_checks (pre post : Snapshot) : list FailureReason :=
  mbind (evaluate_side_check pre post) SIDE_CHECK_COUNTERS.

(** ** The window of events: observation.rs *)

Definition EVENT_RING_CAPACITY : Z := 256.
Definition MAX_DRAIN_PER_BATCH : nat := 256.

Inductive EventKind := KConnected | KStateChange | KClosed | KError | KTcpRetrans | KTcpLossDetected | KOther.

Record EventRecord := mkEventRecord {
  rec_ord : Z;
  rec_kind : EventKind;
  rec_conn_idx : Z;
  rec_emitted_ts_ns : Z;
  rec_from : option TcpState;
  rec_to : option TcpState;
  rec_err : option Z;
  rec_seq : option Z
}.

Record EventRing := mkEventRing { er_buf : list EventRecord; er_next_seq : Z; er_truncated : bool }.
#[export] Instance EventRing_eta : Settable EventRing := fun r => mkEventRing (er_buf r) (er_next_seq r) (er_truncated r).

Definition ring_new : EventRing := mkEventRing [] 0 false.

Definition record_from_event (ev : InternalEvent) (ord : Z) : EventRecord :=
  match ev with
  | EvConnected conn _ ts => mkEventRecord ord KConnected conn ts None None None None
  | EvStateChange conn from to ts => mkEventRecord ord KStateChange conn ts (Some from) (Some to) None None
  | EvClosed conn err ts => mkEventRecord ord KClosed conn ts None None (Some err) None
  | EvError conn err ts => mkEventRecord ord KError conn ts None None (Some err) None
  | EvTcpRetrans conn seq _ ts => mkEventRecord ord KTcpRetrans conn ts None None None (Some seq)
  | EvTcpLossDetected conn _ ts => mkEventRecord ord KTcpLossDetected conn ts None None None None
  | _ => mkEventRecord ord KOther 0 0 None None None None
  end.

Definition ring_push (ev : InternalEvent) (ord : Z) (r : EventRing) : EventRing :=
  let rec := record_from_event ev ord in
  let r := if zlen (er_buf r) =? EVENT_RING_CAPACITY then r <| er_buf ::= tail |> <| er_truncated := true |> else r in
  r <| er_buf ::= fun b => b ++ [rec] |> <| er_next_seq := ord + 1 |>.

Definition drain_into_vec (r : EventRing) : list EventRecord * EventRing :=
  (er_buf r, r <| er_next_seq := 0 |> <| er_buf := [] |>).
Definition clone_for_bundle (r : EventRing) : EventRing := mkEventRing (er_buf r) (er_next_seq r) (er_truncated r).

(** ** The watch *)

Inductive ObserveOutcome := ObserveOk | ObserveFail (f : FailureReason).

(** One event of a batch: the first departure from ESTABLISHED, the next ordinal, the window. *)
Definition observe_event (acc : option (TcpState * TcpState * Z) * Z * EventRing) (ev : InternalEvent)
    : option (TcpState * TcpState * Z) * Z * EventRing :=
  let '(illegal, idx, window) := acc in
  let illegal :=
    match illegal, ev with
    | None, EvStateChange _ from to _ =>
        if bool_decide (from = Established) && negb (bool_decide (to = Established)) then Some (from, to, idx) else None
    | _, _ => illegal
    end in
  (illegal, idx + 1, ring_push ev idx window).

Definition fsm_replay_batch (state_now : option TcpState) (events : list InternalEvent) (window : EventRing)
    : EventRing * ObserveOutcome :=
  if negb (bool_decide (state_now = Some Established)) then (window, ObserveFail (FsmDeparted state_now)) else
  let '(illegal, _, window) := foldl observe_event (None, er_next_seq window, window) events in
  (window, match illegal with Some (from, to, idx) => ObserveFail (IllegalTransition from to idx) | None => ObserveOk end).

Definition check_rx_mempool_floor (avail : Z) : ObserveOutcome :=
  if avail <? MIN_RX_MEMPOOL_AVAIL then ObserveFail (LiveCounterBelowMin "tcp.rx_mempool_avail" avail MIN_RX_MEMPOOL_AVAIL)
  else ObserveOk.
Definition check_events_dropped_delta (pre now : Z) : ObserveOutcome :=
  if pre <? now then ObserveFail (EventsDropped (now - pre)) else ObserveOk.

Section Oracle.
Context `{Platform} `{EngineConfig}.

Definition observe_batch (h : ConnHandle) (window : EventRing) (obs_events_dropped_pre : Z) : M (EventRing * ObserveOutcome) :=
  state_now ← state_of h;
  if negb (bool_decide (state_now = Some Established)) then mret (window, ObserveFail (FsmDeparted state_now)) else
  events ← drain_events MAX_DRAIN_PER_BATCH;
  let '(illegal, _, window) := foldl observe_event (None, er_next_seq window, window) events in
  match illegal with
  | Some (from, to, idx) => mret (window, ObserveFail (IllegalTransition from to idx))
  | None =>
      avail ← get eg_rx_mempool_avail;
      match check_rx_mempool_floor avail with
      | ObserveFail f => mret (window, ObserveFail f)
      | ObserveOk =>
          dropped_now ← get (fun e => events_dropped (eg_obs e));
          mret (window, check_events_dropped_delta obs_events_dropped_pre dropped_now)
      end
  end.
End Oracle.

(** ** Relations *)

Definition relation_wf (r : Relation) : Prop := match r with LessOrEqualThan n => is_u64 n | _ => True end.

(** What a relation means. *)
Definition holds (r : Relation) (delta : Z) : Prop :=
  match r with GreaterThanZero => 0 < delta | EqualsZero => delta = 0 | LessOrEqualThan n => 0 <= delta <= n end.

Lemma check_holds r c d : relation_check r c d = Ok tt <-> holds r d.
Proof.
  destruct r as [| |n]; cbn.
  - destruct (Z.ltb_spec 0 d); split; try done; lia.
  - destruct (Z.eqb_spec d 0); split; done.
  - destruct (Z.ltb_spec d 0); [split; [done|lia]|]. destruct (Z.leb_spec d n); split; try done; lia.
Qed.

Lemma passes_holds r c d : check_passes r c d = true <-> holds r d.
Proof. unfold check_passes. rewrite <- (check_holds r c). destruct (relation_check r c d) as [[]|]; by split. Qed.

(** What a relation prints as is read back as that relation, and whatever is read
    passes exactly the changes the relation means. *)
Theorem relation_roundtrip (r : Relation) (counter : string) (delta : Z) (Hr : relation_wf r) :
  relation_parse (relation_display r) = Ok r /\ (relation_check r counter delta = Ok tt <-> holds r delta).
Proof.
  split; [|apply check_holds]. destruct r as [| |n]; [reflexivity|reflexivity|]. unfold relation_parse, relation_display.
  rewrite !bool_decide_eq_false_2 by (cbn; intros [=]).
  change (starts_with _ _) with true. change (drop 2 _) with (show 10 n). cbv iota.
  rewrite from_str_radix_show; [done|lia|unfold relation_wf, is_u64, U64_MAX, two64 in *; lia|done].
Qed.

(** ** Evaluation *)

Definition expectation_met (pre post : Snapshot) (x : string * text) : Prop :=
  exists r d, relation_parse x.2 = Ok r /\ snapshot_delta pre post x.1 = Ok d /\ holds r d.
Definition group_met (pre post : Snapshot) (x : list string * text) : Prop :=
  exists r c, relation_parse x.2 = Ok r /\ c ∈ x.1 /\ holds r (delta_or_zero pre post c).
Definition side_met (pre post : Snapshot) (c : string) : Prop := snapshot_delta pre post c = Ok 0.

Lemma mbind_nil {A B} (f : A -> list B) (P : A -> Prop) l : (forall x, f x = [] <-> P x) -> mbind f l = [] <-> Forall P l.
Proof.
  intros Hf. induction l as [|x l IH]; [by split|]. rewrite bind_cons, app_nil, IH, Hf, Forall_cons. done.
Qed.

Lemma expectation_exact pre post x : evaluate_expectation pre post x = [] <-> expectation_met pre post x.
Proof.
  destruct x as [c s]. unfold evaluate_expectation, expectation_met. cbn [fst snd].
  destruct (relation_parse s) as [r|e]; [|split; [done|intros (? & ? & ? & _); done]].
  destruct (snapshot_delta pre post c) as [d|e]; [|split; [done|intros (? & ? & _ & ? & _); done]].
  destruct (relation_check r c d) as [[]|m] eqn:Ec.
  - apply check_holds in Ec. split; [intros _; by exists r, d|done].
  - split; [done|]. intros (r' & d' & [= <-] & [= <-] & Hh). apply (check_holds r c d) in Hh. congruence.
Qed.

Lemma group_exact pre post x : evaluate_group pre post x = [] <-> group_met pre post x.
Proof.
  destruct x as [cs s]. unfold evaluate_group, group_met. cbn [fst snd].
  destruct (relation_parse s) as [r|e]; [|split; [done|intros (? & ? & ? & _); done]].
  destruct (existsb _ cs) eqn:Ec.
  - apply existsb_exists in Ec as (c & Hc%list_elem_of_In & Hp). apply passes_holds in Hp. split; [intros _; by exists r, c|done].
  - split; [done|]. intros (r' & c & [= <-] & Hc%list_elem_of_In & Hh). apply (passes_holds r c) in Hh.
    rewrite (proj2 (existsb_exists _ cs)) in Ec; [done|]. by exists c.
Qed.

Lemma side_exact pre post c : evaluate_side_check pre post c = [] <-> side_met pre post c.
Proof.
  unfold evaluate_side_check, side_met. destruct (snapshot_delta pre post c) as [d|e]; [|by split].
  destruct (Z.eqb_spec d 0) as [->|Hd]; cbn; [by split|]. split; [done|congruence].
Qed.

(** The end of a scenario reports nothing exactly when every expectation of the row
    is met, every group has a member that meets its relation, and the two counters every
    scenario watches did not change. *)
Theorem gate_exact (pre post : Snapshot) (expectations : list (string * text)) (groups : list (list string * text)) :
  evaluate_counter_expectations pre post expectations ++ evaluate_disjunctive pre post groups ++
    evaluate_global_side_checks pre post = [] <->
  Forall (expectation_met pre post) expectations /\ Forall (group_met pre post) groups /\
    Forall (side_met pre post) SIDE_CHECK_COUNTERS.
Proof.
  unfold evaluate_counter_expectations, evaluate_disjunctive, evaluate_global_side_checks. rewrite !app_nil.
  rewrite (mbind_nil _ _ _ (expectation_exact pre post)), (mbind_nil _ _ _ (group_exact pre post)),
    (mbind_nil _ _ _ (side_exact pre post)). done.
Qed.

(** ** The window *)

Definition departs (ev : InternalEvent) : Prop := exists c to ts, ev = EvStateChange c Established to ts /\ to <> Established.

Fixpoint records (idx : Z) (evs : list InternalEvent) : list EventRecord :=
  match evs with [] => [] | ev :: evs => record_from_event ev idx :: records (idx + 1) evs end.

Lemma length_records evs : forall idx, length (records idx evs) = length evs.
Proof. induction evs as [|ev evs IH]; intros idx; cbn; [done|]. by rewrite IH. Qed.

(** The last [n] of a list. *)
Definition latest {A} (n : nat) (l : list A) : list A := drop (length l - n) l.

Lemma latest_snoc {A} n (l : list A) x : (0 < n)%nat -> latest n (latest n l ++ [x]) = latest n (l ++ [x]).
Proof.
  intros Hn. unfold latest. rewrite !length_app, length_drop. cbn [length].
  destruct (Nat.le_gt_cases (length l) n) as [Hl|Hl].
  - replace (length l - n)%nat with 0%nat by lia. by rewrite drop_0, Nat.sub_0_r.
  - replace (length l - (length l - n) + 1 - n)%nat with 1%nat by lia.
    replace (length l + 1 - n)%nat with (S (length l - n)) by lia.
    rewrite !drop_app_le by (rewrite ?length_drop; lia). rewrite drop_drop. do 2 f_equal. lia.
Qed.

Definition ring_ok (r : EventRing) : Prop := zlen (er_buf r) <= EVENT_RING_CAPACITY.

Lemma ring_push_run ev idx r : ring_ok r ->
  ring_push ev idx r = mkEventRing (latest 256 (er_buf r ++ [record_from_event ev idx])) (idx + 1)
    (er_truncated r || (EVENT_RING_CAPACITY <? zlen (er_buf r) + 1)) /\ ring_ok (ring_push ev idx r).
Proof.
  unfold ring_ok, ring_push, EVENT_RING_CAPACITY, latest. intros Hr. unfold zlen in *. rewrite length_app. cbn [length].
  destruct (Z.eqb_spec (Z.of_nat (length (er_buf r))) 256) as [E|E].
  - rewrite (proj2 (Z.ltb_lt _ _)) by lia. rewrite orb_true_r. cbn [field_set er_buf er_truncated er_next_seq].
    replace (length (er_buf r) + 1 - 256)%nat with 1%nat by lia. rewrite drop_app_le by lia.
    destruct (er_buf r) as [|x b]; [done|]. cbn [drop tail length] in *. rewrite length_app. cbn [length]. split; [done|lia].
  - rewrite (proj2 (Z.ltb_ge _ _)) by lia. rewrite orb_false_r. cbn [field_set er_buf er_truncated er_next_seq].
    replace (length (er_buf r) + 1 - 256)%nat with 0%nat by lia. rewrite drop_0, length_app. cbn [length]. split; [done|lia].
Qed.

(** The first departure of a batch, and its ordinal. *)
Definition departure (ev : InternalEvent) (idx : Z) : option (TcpState * TcpState * Z) :=
  match ev with
  | EvStateChange _ from to _ =>
      if bool_decide (from = Established) && negb (bool_decide (to = Established)) then Some (from, to, idx) else None
  | _ => None
  end.
Fixpoint first_departure (idx : Z) (evs : list InternalEvent) : option (TcpState * TcpState * Z) :=
  match evs with
  | [] => None
  | ev :: evs => match departure ev idx with Some d => Some d | None => first_departure (idx + 1) evs end
  end.

Lemma departure_none ev idx : departure ev idx = None <-> ~ departs ev.
Proof.
  split.
  - intros Hd (c & to & ts & -> & Hto). cbn in Hd. by rewrite bool_decide_eq_true_2, bool_decide_eq_false_2 in Hd.
  - intros Hd. destruct ev; try done. cbn. destruct (bool_decide_reflect (from = Established)) as [->|]; [|done].
    destruct (bool_decide_reflect (to = Established)); [done|]. destruct Hd. by eexists _, _, _.
Qed.
Lemma departure_some ev idx d : departure ev idx = Some d -> exists c to ts, ev = EvStateChange c Established to ts /\
  to <> Established /\ d = (Established, to, idx).
Proof.
  destruct ev; try done. cbn. destruct (bool_decide_reflect (from = Established)) as [->|]; [|done].
  destruct (bool_decide_reflect (to = Established)); [done|]. intros [= <-]. by eexists _, _, _.
Qed.

Lemma first_departure_none evs : forall idx, first_departure idx evs = None <-> Forall (fun ev => ~ departs ev) evs.
Proof.
  induction evs as [|ev evs IH]; intros idx; cbn [first_departure]; [by split|]. rewrite Forall_cons, <- (IH (idx + 1)).
  rewrite <- (departure_none ev idx). destruct (departure ev idx); [split; [done|by intros [? ?]]|]. split; [done|by intros [_ ?]].
Qed.
Lemma first_departure_some evs : forall idx d, first_departure idx evs = Some d ->
  exists pre c to ts post, evs = pre ++ EvStateChange c Established to ts :: post /\ to <> Established /\
    Forall (fun ev => ~ departs ev) pre /\ d = (Established, to, idx + zlen pre).
Proof.
  induction evs as [|ev evs IH]; intros idx d; cbn [first_departure]; [done|]. destruct (departure ev idx) as [d'|] eqn:Ed.
  - intros [= <-]. apply departure_some in Ed as (c & to & ts & -> & Hto & ->). exists [], c, to, ts, evs.
    split_and!; try done. by rewrite Z.add_0_r.
  - intros Hf. apply IH in Hf as (pre & c & to & ts & post & -> & Hto & Hpre & ->). exists (ev :: pre), c, to, ts, post.
    split_and!; try done; [constructor; [by eapply departure_none|done]|]. rewrite zlen_cons. f_equal. lia.
Qed.

Lemma watch evs : forall illegal w, ring_ok w ->
  foldl observe_event (illegal, er_next_seq w, w) evs =
    (match illegal with Some d => Some d | None => first_departure (er_next_seq w) evs end, er_next_seq w + zlen evs,
     mkEventRing (latest 256 (er_buf w ++ records (er_next_seq w) evs)) (er_next_seq w + zlen evs)
       (er_truncated w || (EVENT_RING_CAPACITY <? zlen (er_buf w) + zlen evs))).
Proof.
  induction evs as [|ev evs IH]; intros illegal w Hw; cbn [foldl records first_departure].
  - change (zlen []) with 0. rewrite !Z.add_0_r, app_nil_r. unfold ring_ok in Hw. rewrite (proj2 (Z.ltb_ge _ _)) by lia.
    rewrite orb_false_r. unfold latest. unfold EVENT_RING_CAPACITY, zlen in Hw.
    replace (length (er_buf w) - 256)%nat with 0%nat by lia. rewrite drop_0. by destruct w, illegal.
  - destruct (ring_push_run ev (er_next_seq w) w Hw) as [Hp Hok].
    assert (Hs : observe_event (illegal, er_next_seq w, w) ev =
      (match illegal with Some d => Some d | None => departure ev (er_next_seq w) end, er_next_seq w + 1, ring_push ev (er_next_seq w) w)).
    { unfold observe_event. destruct illegal; [by destruct ev|]. by destruct ev. }
    rewrite Hs. replace (er_next_seq w + 1) with (er_next_seq (ring_push ev (er_next_seq w) w)) by (by rewrite Hp).
    rewrite (IH _ _ Hok). rewrite Hp. cbn [er_buf er_next_seq er_truncated]. rewrite zlen_cons.
    replace (er_next_seq w + 1 + zlen evs) with (er_next_seq w + (1 + zlen evs)) by lia.
    f_equal; [f_equal; destruct illegal; [done|]; by destruct (departure ev _)|]. f_equal.
    + change (record_from_event ev (er_next_seq w) :: records (er_next_seq w + 1) evs) with
        ([record_from_event ev (er_next_seq w)] ++ records (er_next_seq w + 1) evs). rewrite app_assoc.
      generalize (er_buf w ++ [record_from_event ev (er_next_seq w)]) as b. intros b.
      generalize (records (er_next_seq w + 1) evs) as k. intros k. unfold latest. rewrite !length_app, length_drop.
      destruct (Nat.le_gt_cases (length b) 256) as [Hl|Hl].
      * replace (length b - 256)%nat with 0%nat by lia. by rewrite drop_0, Nat.sub_0_r.
      * replace (length b - (length b - 256) + length k - 256)%nat with (length k) by lia.
        replace (length b + length k - 256)%nat with (length b - 256 + length k)%nat by lia.
        rewrite <- (drop_drop (b ++ k)), (drop_app_le b k) by lia. done.
    + rewrite <- orb_assoc. f_equal. unfold latest, zlen. rewrite length_drop, length_app. cbn [length].
      unfold EVENT_RING_CAPACITY. destruct (Z.ltb_spec 256 (Z.of_nat (length (er_buf w)) + 1)).
      * symmetry. apply Z.ltb_lt. lia.
      * cbn [orb]. f_equal. lia.
Qed.

(** C24. A batch of events of a connection that is ESTABLISHED is passed exactly when no
    event of it is a departure from that state; otherwise the first departure is reported
    with the ordinal of its record.  Either way the window holds the last 256 of what it
    held and the records of the whole batch, numbered on, and knows whether it lost any. *)
Theorem fsm_replay_exact (events : list InternalEvent) (window : EventRing) (Hw : ring_ok window) :
  exists outcome,
    fsm_replay_batch (Some Established) events window =
      (mkEventRing (latest 256 (er_buf window ++ records (er_next_seq window) events)) (er_next_seq window + zlen events)
        (er_truncated window || (EVENT_RING_CAPACITY <? zlen (er_buf window) + zlen events)), outcome) /\
    match outcome with
    | ObserveOk => Forall (fun ev => ~ departs ev) events
    | ObserveFail f =>
        exists pre c to ts post, events = pre ++ EvStateChange c Established to ts :: post /\ to <> Established /\
          Forall (fun ev => ~ departs ev) pre /\ f = IllegalTransition Established to (er_next_seq window + zlen pre)
    end.
Proof.
  unfold fsm_replay_batch. cbn [bool_decide negb]. rewrite bool_decide_eq_true_2 by done. cbn [negb]. rewrite (watch _ None) by done.
  destruct (first_departure (er_next_seq window) events) as [d|] eqn:Ed.
  - apply first_departure_some in Ed as (pre & c & to & ts & post & Hevs & Hto & Hpre & ->). eexists. split; [reflexivity|].
    cbn. by exists pre, c, to, ts, post.
  - apply first_departure_none in Ed. eexists. by split; [reflexivity|].
Qed.

(** ** The watch over an engine *)

Section Watch.
Context `{Platform} `{EngineConfig}.

Lemma drain_events_run n : forall e, exists e', drain_events n e = Some (take n (eq_q (eg_events e)), e') /\
  eq_q (eg_events e') = drop n (eq_q (eg_events e)) /\ eg_obs e' = eg_obs e /\ eg_rx_mempool_avail e' = eg_rx_mempool_avail e.
Proof.
  induction n as [|n IH]; intros e; cbn [drain_events]; [by exists e|].
  unfold mbind at 1, M_bind at 1, event_pop. destruct (eq_q (eg_events e)) as [|ev q] eqn:Eq.
  - exists (e <| eg_events := eg_events e |>). cbn [field_set eg_events]. by rewrite Eq.
  - unfold mbind, M_bind, update. cbv beta iota.
    set (e1 := (e <| eg_events := (eg_events e) <| eq_q := q |> |>) <| eg_drained ::= fun l => l ++ [ev] |>).
    destruct (IH e1) as (e' & E & Hq & Ho & Ha). exists e'. change (eq_q (eg_events e1)) with q in *.
    change (match drain_events n e1 with Some (a, e0) => mret (M := M) (ev :: a) e0 | None => None end =
      Some (take (S n) (ev :: q), e') /\ eq_q (eg_events e') = drop (S n) (ev :: q) /\ eg_obs e' = eg_obs e /\
      eg_rx_mempool_avail e' = eg_rx_mempool_avail e). rewrite E. split; [done|]. split; [exact Hq|]. split; [exact Ho|exact Ha].
Qed.

(** The side checks, in their order. *)
Definition side_checks (avail pre dropped : Z) : ObserveOutcome :=
  match check_rx_mempool_floor avail with
  | ObserveFail f => ObserveFail f
  | ObserveOk => check_events_dropped_delta pre dropped
  end.

(** Observe_batch is its pure counterpart on the oldest 256 events queued, which it
    takes off the queue, followed by the two side checks when there is nothing to report; on
    a connection that is gone or not ESTABLISHED it reports that and touches nothing. *)
Theorem observe_batch_exact (h : ConnHandle) (window : EventRing) (pre : Z) (e : Engine) :
  let q := eq_q (eg_events e) in
  let state := c_state <$> ft_get (eg_flow_table e) h in
  exists outcome e', observe_batch h window pre e = Some (((fsm_replay_batch state (take 256 q) window).1, outcome), e') /\
    match (fsm_replay_batch state (take 256 q) window).2 with
    | ObserveFail f => outcome = ObserveFail f
    | ObserveOk => outcome = side_checks (eg_rx_mempool_avail e) pre (events_dropped (eg_obs e))
    end /\
    (if bool_decide (state = Some Established) then eq_q (eg_events e') = drop 256 q else e' = e).
Proof.
  cbv zeta. unfold observe_batch, state_of, get_conn. unfold mbind at 1, M_bind at 1. unfold mbind at 1, M_bind at 1, get at 1.
  cbn [mret M_ret]. unfold fsm_replay_batch.
  destruct (bool_decide_reflect (c_state <$> ft_get (eg_flow_table e) h = Some Established)) as [Es|Es]; cbn [negb].
  2: { eexists _, e. by split; [reflexivity|]. }
  destruct (drain_events_run MAX_DRAIN_PER_BATCH e) as (e' & E & Hq & Ho & Ha). unfold mbind at 1, M_bind at 1.
  rewrite E. change MAX_DRAIN_PER_BATCH with 256%nat in *.
  destruct (foldl observe_event _ _) as [[illegal idx] w]. cbn [fst snd].
  destruct illegal as [[[from to] i]|]; [eexists _, e'; by split; [reflexivity|]|].
  unfold mbind at 1, M_bind at 1, get at 1. rewrite Ha. unfold side_checks.
  destruct (check_rx_mempool_floor _); [|eexists _, e'; by split; [reflexivity|]].
  unfold mbind, M_bind, get. rewrite Ho. eexists _, e'. by split; [reflexivity|].
Qed.

Lemma side_checks_quiet avail pre dropped from to idx : side_checks avail pre dropped <> ObserveFail (IllegalTransition from to idx).
Proof. unfold side_checks, check_rx_mempool_floor, check_events_dropped_delta. by destruct (avail <? _), (pre <? dropped). Qed.

Lemma idle_observation h window pre e r e' : eq_q (eg_events e) = [] -> observe_batch h window pre e = Some (r, e') ->
  r.1 = window /\ forall from to idx, r.2 <> ObserveFail (IllegalTransition from to idx).
Proof.
  intros Hq E. destruct (observe_batch_exact h window pre e) as (o & e2 & E2 & Ho & _). rewrite E in E2. injection E2 as -> _.
  rewrite Hq in *. cbn [take fst snd] in *. unfold fsm_replay_batch in *. destruct (negb _); cbn [foldl fst snd] in *; (split; [done|]); intros from to idx.
  - by rewrite Ho.
  - rewrite Ho. apply side_checks_quiet.
Qed.

(** The watch sees nothing of a finished workload: the workload itself has taken the
    events off the queue, so the observation that follows it adds nothing to the window and
    never reports an illegal transition, whatever the connection went through. *)
Theorem workload_hides_transitions (turns turns' : list Turn) (h : ConnHandle) (request_bytes : nat)
    (response_bytes tsc_hz : Z) (warmup iterations : nat) (samples : list Z) (e e' e'' : Engine) (window window' : EventRing)
    (pre : Z) (outcome : ObserveOutcome) (Hr : 0 < response_bytes) (Hn : (0 < warmup + iterations)%nat)
    (Hrun : run_rtt_workload turns h request_bytes response_bytes tsc_hz warmup iterations e = Some (Finished samples turns', e'))
    (Hobs : observe_batch h window pre e' = Some ((window', outcome), e'')) :
  window' = window /\ forall from to idx, outcome <> ObserveFail (IllegalTransition from to idx).
Proof.
  apply workload_drains_all in Hrun; [|done|done]. apply (idle_observation h window pre e' (window', outcome) e''); [|exact Hobs].
  unfold event_is_empty in Hrun. by destruct (eq_q (eg_events e')).
Qed.
End Watch.

(** ** A batch evaluated: the third event is the departure *)

Definition sample_batch : list InternalEvent :=
  [EvWritable 1 10; EvTcpRetrans 1 500 1 20; EvStateChange 1 Established CloseWait 30; EvClosed 1 0 40].

Lemma fsm_replay_exact_witness :
  ring_ok ring_new /\ exists w, fsm_replay_batch (Some Established) sample_batch ring_new =
    (w, ObserveFail (IllegalTransition Established CloseWait 2)) /\
    map rec_kind (er_buf w) = [KOther; KTcpRetrans; KStateChange; KClosed] /\ er_next_seq w = 4.
Proof.
  assert (Hr : ring_ok ring_new) by (unfold ring_ok; by vm_compute). split; [exact Hr|].
  destruct (fsm_replay_exact sample_batch ring_new Hr) as (o & E & _).
  assert (Ho : (fsm_replay_batch (Some Established) sample_batch ring_new).2 = ObserveFail (IllegalTransition Established CloseWait 2))
    by (vm_compute; reflexivity).
  rewrite E in Ho. cbn [snd] in Ho. subst o. eexists. split; [exact E|]. split; vm_compute; reflexivity.
Defined.
