(* ===== verification/Scenario.v ===== *)
(** * Scenarios of the correctness gate: tools/layer-h-correctness

    scenarios.rs (the matrix), the selection and the checks main.rs makes before it starts,
    and run_one_scenario of workload.rs: open a connection, warm up, watch it batch by batch
    until the deadline, compare the counters, close.  The wall clock is in the arguments, as
    in [Workload]: each round of the loop is the list of turns its workload may take, and the
    rounds end when the deadline has passed.  [elsewhere] is what the counters read that the
    engine's logic does not bump, those of the fault injector among them. *)

From S2P Require Import Prelude.
From stdpp Require Import strings.
From S2P Require Import Text.
From S2P Require Import FaultConfig.
From S2P Require Import TimerWheel.
From S2P Require Import Output.
From S2P Require Import Conn.
From S2P Require Import FlowTable.
From S2P Require Import Events.
From S2P Require Import Engine.
From S2P Require Import EngineTx.
From S2P Require Import EngineApi.
From S2P Require Import EngineInv.
From S2P Require Import EngineStep.
From S2P Require Import EngineLoop.
From S2P Require Import EngineSpec.
From S2P Require Import Server.
From S2P Require Import Counters.
From S2P Require Import Observe.
From S2P Require Import Workload.
From S2P Require Import Oracle.

#[local] Open Scope Z_scope.

(** ** The matrix: scenarios.rs *)

Record LayerHScenario := mkScenario {
  sc_name : text;
  sc_netem : option text;
  sc_fault_injector : option text;
  sc_duration : Z;                                        (* seconds *)
  sc_smoke : bool;
  sc_counter_expectations : list (string * text);
  sc_disjunctive_expectations : list (list string * text)
}.

Definition DUR : Z := 30.

Definition MATRIX : list LayerHScenario :=
  [
   mkScenario (txt "delay_20ms") (Some (txt "delay 20ms")) None DUR false
     [("tcp.tx_retrans"%string, txt "==0"); ("tcp.tx_rto"%string, txt "==0"); ("obs.events_dropped"%string, txt "==0")]
     [];
   mkScenario (txt "delay_20ms_jitter_5ms") (Some (txt "delay 20ms 5ms")) None DUR false
     [("tcp.tx_retrans"%string, txt "<=10"); ("obs.events_dropped"%string, txt "==0")]
     [];
   mkScenario (txt "delay_50ms") (Some (txt "delay 50ms")) None DUR false
     [("tcp.tx_retrans"%string, txt "==0"); ("tcp.tx_rto"%string, txt "==0"); ("obs.events_dropped"%string, txt "==0")]
     [];
   mkScenario (txt "delay_50ms_jitter_10ms") (Some (txt "delay 50ms 10ms")) None DUR true
     [("tcp.tx_retrans"%string, txt "<=10"); ("obs.events_dropped"%string, txt "==0")]
     [];
   mkScenario (txt "delay_200ms") (Some (txt "delay 200ms")) None DUR false
     [("tcp.tx_retrans"%string, txt "==0"); ("obs.events_dropped"%string, txt "==0")]
     [];
   mkScenario (txt "delay_200ms_jitter_50ms") (Some (txt "delay 200ms 50ms")) None DUR false
     [("tcp.tx_retrans"%string, txt "<=20"); ("obs.events_dropped"%string, txt "==0")]
     [];
   mkScenario (txt "loss_01pct") (Some (txt "loss 0.1%")) None DUR false
     [("tcp.tx_retrans"%string, txt ">0"); ("tcp.tx_retrans"%string, txt "<=10000"); ("obs.events_dropped"%string, txt "==0")]
     [];
   mkScenario (txt "loss_1pct") (Some (txt "loss 1%")) None DUR true
     [("tcp.tx_retrans"%string, txt ">0"); ("tcp.tx_retrans"%string, txt "<=50000"); ("obs.events_dropped"%string, txt "==0")]
     [];
   mkScenario (txt "loss_5pct") (Some (txt "loss 5%")) None DUR false
     [("tcp.tx_retrans"%string, txt ">0"); ("tcp.tx_retrans"%string, txt "<=200000"); ("obs.events_dropped"%string, txt "==0")]
     [];
   mkScenario (txt "loss_correlated_burst_1pct") (Some (txt "loss 1% 25%")) None DUR false
     [("tcp.tx_retrans"%string, txt ">0"); ("obs.events_dropped"%string, txt "==0")]
     [(["tcp.tx_rto"%string; "tcp.tx_tlp"%string], txt ">0")];
   mkScenario (txt "dup_05pct") (Some (txt "duplicate 0.5%")) None DUR false
     [("tcp.rx_dup_ack"%string, txt ">0"); ("tcp.tx_retrans"%string, txt "==0"); ("obs.events_dropped"%string, txt "==0")]
     [];
   mkScenario (txt "dup_2pct") (Some (txt "duplicate 2%")) None DUR true
     [("tcp.rx_dup_ack"%string, txt ">0"); ("tcp.tx_retrans"%string, txt "==0"); ("obs.events_dropped"%string, txt "==0")]
     [];
   mkScenario (txt "reorder_depth_3") (Some (txt "delay 5ms reorder 50% gap 3")) None DUR true
     [("tcp.rx_dup_ack"%string, txt ">0"); ("tcp.tx_retrans"%string, txt "==0"); ("obs.events_dropped"%string, txt "==0")]
     [];
   mkScenario (txt "corruption_001pct") (Some (txt "corrupt 0.01%")) None DUR true
     [("obs.events_dropped"%string, txt "==0"); ("tcp.rx_rst"%string, txt "==0")]
     [(["eth.rx_drop_cksum_bad"%string; "ip.rx_csum_bad"%string; "tcp.rx_bad_csum"%string], txt ">0")];
   mkScenario (txt "composed_loss_1pct_50ms_fi_drop") (Some (txt "loss 1% delay 50ms")) (Some (txt "drop=0.005")) DUR false
     [("fault_injector.drops"%string, txt ">0"); ("tcp.tx_retrans"%string, txt ">0"); ("obs.events_dropped"%string, txt "==0")]
     [];
   mkScenario (txt "composed_loss_1pct_50ms_fi_dup") (Some (txt "loss 1% delay 50ms")) (Some (txt "dup=0.005")) DUR false
     [("fault_injector.dups"%string, txt ">0"); ("tcp.rx_dup_ack"%string, txt ">0"); ("obs.events_dropped"%string, txt "==0")]
     [];
   mkScenario (txt "composed_loss_1pct_50ms_fi_reord") (Some (txt "loss 1% delay 50ms")) (Some (txt "reorder=0.005")) DUR false
     [("fault_injector.reorders"%string, txt ">0"); ("tcp.rx_dup_ack"%string, txt ">0"); ("obs.events_dropped"%string, txt "==0")]
     []
  ].

Definition find_scenario (name : text) : option LayerHScenario :=
  list_find (fun s => sc_name s = name) MATRIX ≫= fun x => Some x.2.
Definition is_smoke_member (name : text) : bool := existsb (fun s => bool_decide (sc_name s = name) && sc_smoke s) MATRIX.

(** Add a scenario to the group of its specification, or open one. *)
Fixpoint add_to_group (s : LayerHScenario) (groups : list (option text * list LayerHScenario))
    : list (option text * list LayerHScenario) :=
  match groups with
  | [] => [(sc_fault_injector s, [s])]
  | (spec, group) :: groups =>
      if bool_decide (spec = sc_fault_injector s) then (spec, group ++ [s]) :: groups
      else (spec, group) :: add_to_group s groups
  end.
Definition partition_by_fi_spec (selected : list LayerHScenario) : list (option text * list LayerHScenario) :=
  foldl (fun groups s => add_to_group s groups) [] selected.

(** ** Before the run: main.rs *)

Definition SMOKE_SET : list text :=
  [txt "delay_50ms_jitter_10ms"; txt "loss_1pct"; txt "dup_2pct"; txt "reorder_depth_3"; txt "corruption_001pct"].

Inductive SelectionError := UnknownScenario (name : text) | TwoFiSpecs (prev spec : text)
  | BadRelation (scenario : text) (e : RelationParseError) | UnknownCounterName (scenario : text) (counter : string).

Fixpoint find_all (names : list text) : result (list LayerHScenario) SelectionError :=
  match names with
  | [] => Ok []
  | n :: names =>
      match find_scenario n with
      | None => Err (UnknownScenario n)
      | Some s => match find_all names with Ok l => Ok (s :: l) | Err e => Err e end
      end
  end.

Definition resolve_selection (smoke : bool) (scenarios : text) : result (list LayerHScenario) SelectionError :=
  if smoke then find_all SMOKE_SET
  else if bool_decide (trim_text scenarios = []) then Ok (filter (fun s => sc_fault_injector s = None) MATRIX)
  else find_all (filter (fun n => n <> []) (map trim_text (split_char COMMA scenarios))).

Fixpoint enforce_from (seen : option text) (selection : list LayerHScenario) : result unit SelectionError :=
  match selection with
  | [] => Ok tt
  | s :: selection =>
      match sc_fault_injector s, seen with
      | None, _ => enforce_from seen selection
      | Some spec, None => enforce_from (Some spec) selection
      | Some spec, Some prev => if bool_decide (prev = spec) then enforce_from seen selection else Err (TwoFiSpecs prev spec)
      end
  end.
Definition enforce_single_fi_spec (selection : list LayerHScenario) : result unit SelectionError := enforce_from None selection.

(** What the fault injector's variable is set to. *)
Definition fi_spec_for_run (selection : list LayerHScenario) : option text := head (omap sc_fault_injector selection).

(** The first error of a list of checks. *)
Fixpoint all_ok {A E} (check : A -> result unit E) (l : list A) : result unit E :=
  match l with [] => Ok tt | x :: l => match check x with Ok _ => all_ok check l | Err e => Err e end end.

Definition check_name (scenario : text) (n : string) : result unit SelectionError :=
  match read_counter (fun _ => 0) n with Some _ => Ok tt | None => Err (UnknownCounterName scenario n) end.
Definition check_relation (scenario : text) (rel : text) : result unit SelectionError :=
  match relation_parse rel with Ok _ => Ok tt | Err e => Err (BadRelation scenario e) end.

Definition validate_scenario (s : LayerHScenario) : result unit SelectionError :=
  match all_ok (fun x => match check_relation (sc_name s) x.2 with Ok _ => check_name (sc_name s) x.1 | Err e => Err e end)
          (sc_counter_expectations s) with
  | Err e => Err e
  | Ok _ =>
      all_ok (fun x => match check_relation (sc_name s) x.2 with Ok _ => all_ok (check_name (sc_name s)) x.1 | Err e => Err e end)
        (sc_disjunctive_expectations s)
  end.
Definition pre_flight_validate (selection : list LayerHScenario) : result unit SelectionError := all_ok validate_scenario selection.

(** ** Names: workload.rs *)

(** [BTreeSet::insert]. *)
Fixpoint set_insert (x : string) (l : list string) : list string :=
  match l with
  | [] => [x]
  | y :: l => match String.compare x y with Eq => y :: l | Lt => x :: y :: l | Gt => y :: set_insert x l end
  end.

Definition scenario_names (s : LayerHScenario) : list string :=
  map fst (sc_counter_expectations s) ++ mbind fst (sc_disjunctive_expectations s).
Definition select_counter_names (selection : list LayerHScenario) : list string :=
  foldl (fun l x => set_insert x l) [] (mbind scenario_names selection ++ SIDE_CHECK_COUNTERS).

(** ** One scenario: workload.rs *)

Definition WARMUP_ITERS : nat := 100.
Definition OBSERVATION_BATCH : nat := 100.

(** The duration observed is left out. *)
Record ScenarioResult := mkScenarioResult {
  sr_scenario_name : text;
  sr_snapshot_pre : Snapshot;
  sr_snapshot_post : Snapshot;
  sr_verdict : Verdict;
  sr_event_ring : EventRing
}.

Inductive RunError := WarmupFailed (e : WorkloadError) | SnapshotFailed (e : SnapshotError).

Section Run.
Context `{Platform} `{EngineConfig}.
Context (elsewhere : nat -> CounterValues).

(** [engine.counters()]. *)
Definition engine_counters (e : Engine) : CounterValues := fun p =>
  if bool_decide (p = (Obs, "events_dropped"%string)) then events_dropped (eg_obs e)
  else if bool_decide (p = (Obs, "events_queue_high_water"%string)) then events_queue_high_water (eg_obs e)
  else u64 (zsum (fun x => if bool_decide (counter_path x.1 = Some p) then x.2 else 0) (eg_counters e) + elsewhere (eg_step e) p).

(** The arguments of the workload. *)
Record RunArgs := mkRunArgs { ra_request_bytes : nat; ra_response_bytes : Z; ra_tsc_hz : Z }.

(** The loop: the window, the count of dropped events, and what ended it early. *)
Fixpoint watch_loop (rounds : list (list Turn)) (h : ConnHandle) (args : RunArgs) (window : EventRing) (obs_dropped_pre : Z)
    : M (option (EventRing * Z * list FailureReason * option FailureReason)) :=
  match rounds with
  | [] => mret (Some (window, obs_dropped_pre, [], None))
  | turns :: rounds =>
      o ← observe_batch h window obs_dropped_pre;
      match o with
      | (window, ObserveFail f) => mret (Some (window, obs_dropped_pre, [f], None))
      | (window, ObserveOk) =>
          obs_dropped_pre ← get (fun e => events_dropped (eg_obs e));
          w ← run_rtt_workload turns h (ra_request_bytes args) (ra_response_bytes args) (ra_tsc_hz args) 0 OBSERVATION_BATCH;
          match w with
          | Finished _ _ => watch_loop rounds h args window obs_dropped_pre
          | Bailed e => mret (Some (window, obs_dropped_pre, [], Some (WorkloadFailed e)))
          | Waiting => mret None
          end
      end
  end.

(** From the snapshot after the warm-up to the verdict. *)
Definition watch_scenario (rounds : list (list Turn)) (scenario : LayerHScenario) (counter_names : list string)
    (h : ConnHandle) (args : RunArgs) : M (option (result ScenarioResult RunError)) :=
  counters ← get engine_counters;
  match snapshot counters counter_names with
  | Err e => mret (Some (Err (SnapshotFailed e)))
  | Ok snapshot_pre =>
      obs_dropped_pre ← get (fun e => events_dropped (eg_obs e));
      r ← watch_loop rounds h args ring_new obs_dropped_pre;
      match r with
      | None => mret None
      | Some (window, obs_dropped_pre, fail_fast_failures, workload_error) =>
          final ← observe_batch h window obs_dropped_pre;
          let '(window, final_outcome) := final in
          let fail_fast_failures :=
            match final_outcome with ObserveOk => fail_fast_failures | ObserveFail f => fail_fast_failures ++ [f] end in
          counters ← get engine_counters;
          match snapshot counters counter_names with
          | Err e => mret (Some (Err (SnapshotFailed e)))
          | Ok snapshot_post =>
              let all_failures :=
                fail_fast_failures ++ option_list workload_error ++
                evaluate_counter_expectations snapshot_pre snapshot_post (sc_counter_expectations scenario) ++
                evaluate_disjunctive snapshot_pre snapshot_post (sc_disjunctive_expectations scenario) ++
                evaluate_global_side_checks snapshot_pre snapshot_post in
              close_conn h ;;
              let verdict := match all_failures with [] => Pass | _ => Failed all_failures end in
              mret (Some (Ok (mkScenarioResult (sc_name scenario) snapshot_pre snapshot_post verdict window)))
          end
      end
  end.

(** [run_one_scenario]; [None] is a run that has not ended. *)
Definition run_one_scenario (connect_turns warmup_turns : list Turn) (rounds : list (list Turn)) (scenario : LayerHScenario)
    (counter_names : list string) (peer_ip peer_port : Z) (args : RunArgs) : M (option (result ScenarioResult RunError)) :=
  c ← open_connection connect_turns peer_ip peer_port;
  match c with
  | Waiting => mret None
  | Bailed e =>
      mret (Some (Ok (mkScenarioResult (sc_name scenario) ∅ ∅ (Failed [ConnectFailed e]) ring_new)))
  | Finished h _ =>
      w ← run_rtt_workload warmup_turns h (ra_request_bytes args) (ra_response_bytes args) (ra_tsc_hz args) 0 WARMUP_ITERS;
      match w with
      | Waiting => mret None
      | Bailed e => mret (Some (Err (WarmupFailed e)))
      | Finished _ _ =>
          n ← get (fun e => zlen (eq_q (eg_events e)));
          drain_events (Z.to_nat (Z.min n U32_MAX)) ;;
          watch_scenario rounds scenario counter_names h args
      end
  end.
End Run.

(** The exit status of the tool. *)
Definition exit_code (results : list ScenarioResult) : Z :=
  if existsb (fun r => match sr_verdict r with Failed _ => true | Pass => false end) results then 1 else 0.

(** ** The matrix is in order *)

(** A specification of the matrix, with its rates left as text. *)
Definition fi_spec_accepted (spec : text) : bool :=
  match parse_fault_config (txt "0") Some (fun _ => true) (fun _ => true) spec with Ok _ => true | Err _ => false end.

Definition scenario_nonetb (s : LayerHScenario) : bool := bool_decide (sc_fault_injector s = None).

(** The checks before a run accept the whole matrix and every selection made by
    default; names are unique, the smoke set is the rows marked so and in their order, and
    the fault injector accepts the specifications of the composed rows. *)
Theorem matrix_in_order :
  pre_flight_validate MATRIX = Ok tt /\ NoDup (map sc_name MATRIX) /\
  resolve_selection true [] = Ok (filter (fun s => sc_smoke s = true) MATRIX) /\
  resolve_selection false [] = Ok (List.filter scenario_nonetb MATRIX) /\
  enforce_single_fi_spec (List.filter scenario_nonetb MATRIX) = Ok tt /\
  forallb fi_spec_accepted (omap sc_fault_injector MATRIX) = true.
Proof.
  split; [by vm_compute|]. split; [|split_and!; by vm_compute].
  apply (bool_decide_unpack _). by vm_compute.
Qed.

(** ** Selections *)

Lemma enforce_exact selection : forall seen, enforce_from seen selection = Ok tt <->
  forall a b, a ∈ option_list seen ++ omap sc_fault_injector selection ->
    b ∈ option_list seen ++ omap sc_fault_injector selection -> a = b.
Proof.
  induction selection as [|s selection IH]; intros seen; cbn [enforce_from omap list_omap].
  - rewrite app_nil_r. split; [|done]. intros _ a b Ha Hb. destruct seen; cbn in *; set_solver.
  - destruct (sc_fault_injector s) as [spec|]; [|apply IH]. destruct seen as [prev|]; cbn [option_list].
    + case_bool_decide as Hp.
      * subst. rewrite IH. cbn [option_list app]. split; intros H a b Ha Hb; apply H; set_solver.
      * split; [done|]. intros H. destruct Hp. apply H; cbn; set_solver.
    + rewrite IH. done.
Qed.

Definition group_ok (g : option text * list LayerHScenario) : Prop :=
  g.2 <> [] /\ Forall (fun s => sc_fault_injector s = g.1) g.2.

Lemma add_to_group_ok s : forall groups, Forall group_ok groups -> NoDup (map fst groups) ->
  Forall group_ok (add_to_group s groups) /\ NoDup (map fst (add_to_group s groups)) /\
  mbind snd (add_to_group s groups) ≡ₚ mbind snd groups ++ [s] /\
  (forall spec, spec ∈ map fst (add_to_group s groups) <-> spec = sc_fault_injector s \/ spec ∈ map fst groups).
Proof.
  induction groups as [|[spec group] groups IH]; intros Hg Hn; cbn [add_to_group].
  - cbn. split_and!; [|by repeat constructor; set_solver|done|set_solver]. repeat constructor; done.
  - apply Forall_cons in Hg as [[H1 H2] Hg]. apply NoDup_cons in Hn as [Hx Hn]. case_bool_decide as Hs.
    + cbn [map fst]. rewrite !bind_cons. cbn [snd]. split_and!.
      * constructor; [|done]. split; cbn in *; [by destruct group|]. apply Forall_app. by split; [|repeat constructor].
      * by constructor.
      * rewrite <- !app_assoc. f_equiv. apply Permutation_app_comm.
      * subst. set_solver.
    + destruct (IH Hg Hn) as (G & N & P & E). cbn [map fst] in *. rewrite !bind_cons. cbn [snd]. split_and!.
      * by constructor.
      * constructor; [|done]. rewrite E. by intros [?|?].
      * rewrite P. by rewrite app_assoc.
      * intros sp. rewrite !elem_of_cons, E. set_solver.
Qed.

Lemma partition_ok selected : forall groups, Forall group_ok groups -> NoDup (map fst groups) ->
  let out := foldl (fun groups s => add_to_group s groups) groups selected in
  Forall group_ok out /\ NoDup (map fst out) /\ mbind snd out ≡ₚ mbind snd groups ++ selected.
Proof.
  induction selected as [|s selected IH]; intros groups Hg Hn; cbn [foldl]; cbv zeta.
  - by rewrite app_nil_r.
  - destruct (add_to_group_ok s groups Hg Hn) as (G & N & P & _). destruct (IH _ G N) as (G' & N' & P').
    split_and!; [done|done|]. rewrite P', P, <- app_assoc. done.
Qed.

(** Partition_by_fi_spec loses and repeats no scenario, has one group for each
    specification, and each group can be run in one process: enforce_single_fi_spec accepts
    it. *)
Theorem partition_exact (selected : list LayerHScenario) :
  let groups := partition_by_fi_spec selected in
  mbind snd groups ≡ₚ selected /\ NoDup (map fst groups) /\
  Forall (fun g => g.2 <> [] /\ Forall (fun s => sc_fault_injector s = g.1) g.2 /\ enforce_single_fi_spec g.2 = Ok tt) groups.
Proof.
  cbv zeta. unfold partition_by_fi_spec. destruct (partition_ok selected [] (List.Forall_nil _) (NoDup_nil_2)) as (G & N & P).
  split_and!; [done|done|]. eapply Forall_impl; [exact G|]. intros [spec group] [H1 H2]. cbn in *. split_and!; [done|done|].
  apply enforce_exact. cbn [option_list app].
  assert (D : forall a, a ∈ omap sc_fault_injector group -> spec = Some a).
  { intros a Ha. apply list_elem_of_omap in Ha as (s & Hs & Es). rewrite Forall_forall in H2. rewrite <- (H2 s Hs). done. }
  intros a b Ha%D Hb%D. congruence.
Qed.

(** ** Names and snapshots *)

Lemma elem_of_set_insert x y l : y ∈ set_insert x l <-> y = x \/ y ∈ l.
Proof.
  induction l as [|z l IH]; cbn [set_insert]; [set_solver|]. destruct (String.compare x z) eqn:Ec; [|set_solver|rewrite elem_of_cons, IH; set_solver].
  apply String.compare_eq_iff in Ec. set_solver.
Qed.
Lemma elem_of_names l : forall acc x, x ∈ foldl (fun l x => set_insert x l) acc l <-> x ∈ acc \/ x ∈ l.
Proof.
  induction l as [|y l IH]; intros acc x; cbn [foldl]; [set_solver|]. rewrite IH, elem_of_set_insert. set_solver.
Qed.
Lemma elem_of_select selection x : x ∈ select_counter_names selection <->
  x ∈ SIDE_CHECK_COUNTERS \/ exists s, s ∈ selection /\ x ∈ scenario_names s.
Proof.
  unfold select_counter_names. rewrite elem_of_names, elem_of_app, list_elem_of_bind. set_solver.
Qed.

Lemma snapshot_run c names : forall out, (forall n, n ∈ names -> is_Some (read_counter c n)) ->
  exists s, snapshot_from c names out = Ok s /\ (forall n, n ∈ names -> s !! n = read_counter c n) /\
    (forall n, n ∉ names -> s !! n = out !! n).
Proof.
  unfold Snapshot in *. induction names as [|n names IH]; intros out Hn; cbn [snapshot_from]; [exists out; set_solver|].
  destruct (Hn n) as [v Hv]; [set_solver|]. rewrite Hv. destruct (IH (<[n:=v]> out)) as (s & E & H1 & H2); [set_solver|].
  exists s. split; [done|]. split.
  - intros m Hm. destruct (decide (m ∈ names)) as [Hi|Hi]; [by apply H1|]. assert (m = n) as -> by set_solver.
    by rewrite H2, lookup_insert_eq, Hv.
  - intros m Hm. rewrite H2 by set_solver. apply lookup_insert_ne. set_solver.
Qed.

Lemma all_ok_forall {A E} (check : A -> result unit E) l : all_ok check l = Ok tt <-> Forall (fun x => check x = Ok tt) l.
Proof.
  induction l as [|x l IH]; cbn [all_ok]; [by split|]. rewrite Forall_cons, <- IH.
  destruct (check x) as [[]|]; [split; [done|by intros [_ ?]]|]. by split; [|intros [? _]].
Qed.

Lemma check_name_known sc n : check_name sc n = Ok tt -> is_Some (lookup_counter n).
Proof. unfold check_name, read_counter. by destruct (lookup_counter n). Qed.
Lemma check_relation_known sc r : check_relation sc r = Ok tt -> exists rel, relation_parse r = Ok rel.
Proof. unfold check_relation. destruct (relation_parse r) as [rel|]; [by exists rel|done]. Qed.

Lemma check_both {E} (a b : result unit E) : (match a with Ok _ => b | Err e => Err e end) = Ok tt -> a = Ok tt /\ b = Ok tt.
Proof. by destruct a as [[]|]. Qed.

(** What a scenario refers to is known. *)
Definition scenario_known (s : LayerHScenario) : Prop :=
  Forall (fun x => is_Some (lookup_counter x.1) /\ exists r, relation_parse x.2 = Ok r) (sc_counter_expectations s) /\
  Forall (fun x => Forall (fun n => is_Some (lookup_counter n)) x.1 /\ exists r, relation_parse x.2 = Ok r)
    (sc_disjunctive_expectations s).

Lemma validate_known s : validate_scenario s = Ok tt -> scenario_known s.
Proof.
  unfold validate_scenario. destruct (all_ok _ (sc_counter_expectations s)) as [[]|] eqn:E1; [|done]. intros E2.
  apply all_ok_forall in E1, E2. split; (eapply Forall_impl; [eassumption|]); intros [x rel] Hx; cbn [fst snd] in *;
    apply check_both in Hx as [Hr Hn]; apply check_relation_known in Hr; (split; [|exact Hr]).
  - by eapply check_name_known.
  - apply all_ok_forall in Hn. eapply Forall_impl; [exact Hn|]. intros n. apply check_name_known.
Qed.

Lemma known_names s n : scenario_known s -> n ∈ scenario_names s -> is_Some (lookup_counter n).
Proof.
  intros [H1 H2]. unfold scenario_names. rewrite elem_of_app, list_elem_of_fmap, list_elem_of_bind.
  rewrite Forall_forall in H1. rewrite Forall_forall in H2. intros [(x & -> & Hx)|(g & Hn & Hg)]; [by apply H1|].
  destruct (H2 g Hg) as [Hall _]. rewrite Forall_forall in Hall. by apply Hall.
Qed.

(** A failure that only a bug of the tool could produce. *)
Definition tool_bug (f : FailureReason) : Prop :=
  match f with
  | CounterRelation _ _ _ (MsgParse _) | CounterRelation _ _ _ (MsgMissing _)
  | DisjunctiveCounterRelation _ _ _ (MsgParse _) | DisjunctiveCounterRelation _ _ _ (MsgMissing _) => True
  | _ => False
  end.

Lemma expectation_sound pre post x f : is_Some (pre !! x.1) -> is_Some (post !! x.1) -> (exists r, relation_parse x.2 = Ok r) ->
  f ∈ evaluate_expectation pre post x -> ~ tool_bug f.
Proof.
  destruct x as [c s]. cbn [fst snd]. intros [p0 E0] [p1 E1] [r Er]. unfold evaluate_expectation. rewrite Er. unfold snapshot_delta.
  rewrite E0, E1. destruct (relation_check r c (p1 - p0)) as [[]|m]; intros Hf; [set_solver|]. apply list_elem_of_singleton in Hf as ->. exact id.
Qed.
Lemma group_sound pre post x f : (exists r, relation_parse x.2 = Ok r) -> f ∈ evaluate_group pre post x -> ~ tool_bug f.
Proof.
  destruct x as [cs s]. cbn [fst snd]. intros [r Er]. unfold evaluate_group. rewrite Er.
  destruct (existsb _ cs); intros Hf; [set_solver|]. apply list_elem_of_singleton in Hf as ->. exact id.
Qed.
Lemma side_sound pre post c f : is_Some (pre !! c) -> is_Some (post !! c) -> f ∈ evaluate_side_check pre post c -> ~ tool_bug f.
Proof.
  intros [p0 E0] [p1 E1]. unfold evaluate_side_check, snapshot_delta. rewrite E0, E1.
  destruct (negb _); intros Hf; [|set_solver]. apply list_elem_of_singleton in Hf as ->. exact id.
Qed.

(** After the checks before a run, the names of a selection can always be read, and
    an evaluation over two such readings never reports a relation it cannot parse or a counter
    it cannot find. *)
Theorem pre_flight_suffices (selection : list LayerHScenario) (c0 c1 : CounterValues)
    (Hok : pre_flight_validate selection = Ok tt) :
  exists pre post, snapshot c0 (select_counter_names selection) = Ok pre /\ snapshot c1 (select_counter_names selection) = Ok post /\
    forall s f, s ∈ selection ->
      f ∈ evaluate_counter_expectations pre post (sc_counter_expectations s) ++
          evaluate_disjunctive pre post (sc_disjunctive_expectations s) ++ evaluate_global_side_checks pre post -> ~ tool_bug f.
Proof.
  apply all_ok_forall in Hok. assert (Hk : forall s, s ∈ selection -> scenario_known s).
  { intros s Hs. rewrite Forall_forall in Hok. by apply validate_known, Hok. }
  assert (Hread : forall c n, n ∈ select_counter_names selection -> is_Some (read_counter c n)).
  { intros c n [Hn|(s & Hs & Hn)]%elem_of_select; unfold read_counter; apply fmap_is_Some; [|by eapply known_names; [apply Hk|]].
    unfold SIDE_CHECK_COUNTERS in Hn. repeat (apply elem_of_cons in Hn as [->|Hn]; [by eexists; vm_compute|]). set_solver. }
  destruct (snapshot_run c0 _ ∅ (Hread c0)) as (pre & E0 & H0 & _). destruct (snapshot_run c1 _ ∅ (Hread c1)) as (post & E1 & H1 & _).
  exists pre, post. split; [exact E0|]. split; [exact E1|]. intros s f Hs Hf.
  assert (Hin : forall n, n ∈ SIDE_CHECK_COUNTERS \/ n ∈ scenario_names s -> is_Some (pre !! n) /\ is_Some (post !! n)).
  { intros n Hn. assert (n ∈ select_counter_names selection) by (apply elem_of_select; destruct Hn; [by left|right; by exists s]).
    rewrite H0, H1 by done. split; by apply Hread. }
  destruct (Hk s Hs) as [K1 K2]. rewrite Forall_forall in K1. rewrite Forall_forall in K2.
  apply elem_of_app in Hf as [Hf|Hf]; [|apply elem_of_app in Hf as [Hf|Hf]]; apply list_elem_of_bind in Hf as (x & Hf & Hx).
  - destruct (Hin x.1) as [P0 P1]; [right; apply elem_of_app; left; by apply list_elem_of_fmap_2|].
    destruct (K1 x Hx) as [_ Kr]. by apply (expectation_sound pre post x f P0 P1 Kr).
  - destruct (K2 x Hx) as [_ Kr]. by apply (group_sound pre post x f Kr).
  - destruct (Hin x) as [P0 P1]; [by left|]. by apply (side_sound pre post x f P0 P1).
Qed.

(** ** What a scenario reports *)

Definition illegal (f : FailureReason) : Prop := match f with IllegalTransition _ _ _ => True | _ => False end.
Definition workload_failed (f : FailureReason) : Prop := match f with WorkloadFailed _ => True | _ => False end.

Lemma evaluation_reports pre post exps groups f :
  f ∈ evaluate_counter_expectations pre post exps ++ evaluate_disjunctive pre post groups ++ evaluate_global_side_checks pre post ->
  ~ illegal f.
Proof.
  rewrite !elem_of_app. intros [Hf|[Hf|Hf]]; apply list_elem_of_bind in Hf as (x & Hf & _).
  - destruct x as [c s]. unfold evaluate_expectation in Hf.
    repeat case_match; try (apply list_elem_of_singleton in Hf as ->; exact id); set_solver.
  - destruct x as [cs s]. unfold evaluate_group, disjunctive in Hf.
    repeat case_match; try (apply list_elem_of_singleton in Hf as ->; exact id); set_solver.
  - unfold evaluate_side_check, counter_relation in Hf.
    repeat case_match; try (apply list_elem_of_singleton in Hf as ->; exact id); set_solver.
Qed.

Section Reports.
Context `{Platform} `{EngineConfig}.
Context (elsewhere : nat -> CounterValues).

(** On an empty queue an observation adds nothing, leaves the queue empty and reports no
    transition. *)
Lemma observe_drained h window pre e w o e' : drained e -> observe_batch h window pre e = Some ((w, o), e') ->
  w = window /\ drained e' /\ forall f, o = ObserveFail f -> ~ illegal f.
Proof.
  intros Hd E. pose proof (idle_observation _ _ _ _ _ _ Hd E) as [Hw Hf]. cbn [fst snd] in *. split; [done|].
  destruct (observe_batch_exact h window pre e) as (o' & e2 & E2 & _ & Hq). rewrite E in E2. injection E2 as _ _ <-. split.
  - unfold drained in *. rewrite Hd in Hq. destruct (bool_decide _); [exact Hq|by subst].
  - intros f ->. destruct f; try exact id. intros _. by eapply Hf.
Qed.

Lemma watch_loop_hides args h : 0 < ra_response_bytes args -> forall rounds window pre e w pre' ff we e',
  drained e -> watch_loop rounds h args window pre e = Some (Some (w, pre', ff, we), e') ->
  w = window /\ Forall (fun f => ~ illegal f) ff /\ (forall f, we = Some f -> workload_failed f) /\ (we = None -> drained e').
Proof.
  intros Hr. induction rounds as [|turns rounds IH]; intros window pre e w pre' ff we e' Hd E; cbn [watch_loop] in E.
  - injection E as <- _ <- <- <-. by split_and!.
  - apply run_bind_inv in E as ([w1 o] & e1 & E1 & E). destruct (observe_drained _ _ _ _ _ _ _ Hd E1) as (-> & Hd1 & Hf).
    destruct o as [|f].
    + apply run_bind_inv in E as (d & e2 & E2 & E). injection E2 as _ <-. apply run_bind_inv in E as (wl & e3 & E3 & E).
      destruct wl as [samples ts|err|]; [|injection E as <- _ <- <- <-; by split_and!; [done|constructor|intros f [= <-]|]|done].
      eapply IH in E; [exact E|]. apply workload_drains_all in E3; [|done|unfold OBSERVATION_BATCH; lia].
      unfold event_is_empty in E3. unfold drained. by destruct (eq_q (eg_events e3)).
    + injection E as <- _ <- <- <-. split_and!; [done|repeat constructor; by apply Hf|done|done].
Qed.

(** C23. A scenario reports an illegal transition, or has an event to show for a failure,
    only if its workload gave up: as long as round trips complete, what the watch is there to
    see has been taken off the queue by the round trips themselves. *)
Theorem scenario_hides_transitions (connect_turns warmup_turns : list Turn) (rounds : list (list Turn))
    (scenario : LayerHScenario) (counter_names : list string) (peer_ip peer_port : Z) (args : RunArgs) (e e' : Engine)
    (res : ScenarioResult) (Hr : 0 < ra_response_bytes args)
    (Hrun : run_one_scenario elsewhere connect_turns warmup_turns rounds scenario counter_names peer_ip peer_port args e =
      Some (Some (Ok res), e')) :
  (exists fs f, sr_verdict res = Failed fs /\ f ∈ fs /\ workload_failed f) \/
  (er_buf (sr_event_ring res) = [] /\ forall fs f, sr_verdict res = Failed fs -> f ∈ fs -> ~ illegal f).
Proof.
  unfold run_one_scenario in Hrun. apply run_bind_inv in Hrun as (c & e1 & E1 & E). destruct c as [h ts|err|]; [| |done].
  2: { injection E as <- _. right. cbn. split; [done|]. intros fs f [= <-] Hf. apply list_elem_of_singleton in Hf as ->. exact id. }
  apply run_bind_inv in E as (w & e2 & E2 & E). destruct w as [samples ts'|err|]; [|done|done].
  apply workload_drains_all in E2; [|done|unfold WARMUP_ITERS; lia].
  apply run_bind_inv in E as (n & e2' & En & E). injection En as <- <-. apply run_bind_inv in E as (evs & e3 & E3 & E).
  assert (Hd : drained e3).
  { destruct (drain_events_run (Z.to_nat (Z.min (zlen (eq_q (eg_events e2))) U32_MAX)) e2) as (e4 & E4 & Hq & _).
    rewrite E3 in E4. injection E4 as _ <-. unfold drained. rewrite Hq. unfold event_is_empty in E2.
    destruct (eq_q (eg_events e2)); [by rewrite drop_nil|done]. }
  unfold watch_scenario in E. apply run_bind_inv in E as (cs & e4 & E4 & E). injection E4 as <- <-.
  destruct (snapshot _ _) as [pre|]; [|done]. apply run_bind_inv in E as (d & e4 & E4 & E). injection E4 as <- <-.
  apply run_bind_inv in E as (r & e5 & E5 & E). destruct r as [[[[w pre'] ff] we]|]; [|done].
  apply watch_loop_hides in E5 as (-> & Hff & Hwe & Hd5); [|done|done].
  apply run_bind_inv in E as ([w o] & e6 & E6 & E). apply run_bind_inv in E as (cs & e7 & E7 & E). injection E7 as <- <-.
  destruct (snapshot _ _) as [post|]; [|done]. apply run_bind_inv in E as (u & e8 & E8 & E). injection E as <- _. cbn [sr_verdict sr_event_ring].
  destruct we as [f|].
  { left. pose proof (Hwe f eq_refl) as Hf. clear -Hf. cbn [option_list].
    match goal with |- context [match ?l with [] => Pass | _ => _ end] => set (l0 := l); assert (Hin : f ∈ l0) by (unfold l0; set_solver) end.
    destruct l0 as [|x l0]; [set_solver|]. by exists (x :: l0), f. }
  right. destruct (observe_drained _ _ _ _ _ _ _ (Hd5 eq_refl) E6) as (-> & _ & Ho). split; [done|].
  cbn [option_list app]. intros fs f Hv Hf.
  assert (Hall : forall g, g ∈ fs -> g ∈ (match o with ObserveOk => ff | ObserveFail f => ff ++ [f] end) \/
    g ∈ evaluate_counter_expectations pre post (sc_counter_expectations scenario) ++
        evaluate_disjunctive pre post (sc_disjunctive_expectations scenario) ++ evaluate_global_side_checks pre post).
  { intros g Hg. apply elem_of_app. revert Hv. destruct (_ ++ _) eqn:El; [done|]. intros [= <-]. exact Hg. }
  destruct (Hall f Hf) as [Hin|Hin]; [|by apply evaluation_reports in Hin].
  rewrite Forall_forall in Hff. destruct o as [|g]; [by apply Hff|]. apply elem_of_app in Hin as [Hin|Hin]; [by apply Hff|].
  apply list_elem_of_singleton in Hin as ->. by apply Ho.
Qed.

(** ** A scenario leaves the engine in order, and passes for a reason *)

Section Sound.
Context (Hcfg : config_ok) (scenario : LayerHScenario) (args : RunArgs) (Hz : ra_tsc_hz args <> 0).

Lemma steady_get {A} (f : Engine -> A) : steady any (get f).
Proof. apply steady_safe, safe_get. Qed.
Lemma steady_observe h window pre : steady any (observe_batch h window pre).
Proof.
  apply steady_safe. unfold observe_batch, state_of. apply safe_bind; [apply safe_bind; [apply safe_get|intros ?; apply safe_ret]|].
  intros st. destruct (negb _); [apply safe_ret|]. apply safe_bind; [destruct Hcfg; by apply safe_drain|]. intros evs.
  destruct (foldl _ _ _) as [[[[[from to] i]|] idx] w]; [apply safe_ret|]. apply safe_bind; [apply safe_get|]. intros avail.
  destruct (check_rx_mempool_floor _); [|apply safe_ret]. apply safe_bind; [apply safe_get|intros ?; apply safe_ret].
Qed.

Lemma steady_watch_loop h : forall rounds window pre, Forall turns_ok rounds -> steady any (watch_loop rounds h args window pre).
Proof.
  induction rounds as [|turns rounds IH]; intros window pre Ht; cbn [watch_loop]; [by apply steady_ret|].
  apply Forall_cons in Ht as [Ht Hts]. eapply steady_bind; [apply steady_observe|]. intros [w [|f]] _; [|by apply steady_ret].
  eapply steady_bind; [apply steady_get|]. intros d _. eapply steady_bind; [by apply steady_workload|].
  intros [samples ts|err|] _; [by apply IH|by apply steady_ret|by apply steady_ret].
Qed.

Definition passes_soundly (r : option (result ScenarioResult RunError)) : Prop :=
  match r with
  | Some (Ok res) => sr_verdict res = Pass ->
      Forall (expectation_met (sr_snapshot_pre res) (sr_snapshot_post res)) (sc_counter_expectations scenario) /\
      Forall (group_met (sr_snapshot_pre res) (sr_snapshot_post res)) (sc_disjunctive_expectations scenario) /\
      Forall (side_met (sr_snapshot_pre res) (sr_snapshot_post res)) SIDE_CHECK_COUNTERS
  | _ => True
  end.

Lemma steady_watch rounds names h : Forall turns_ok rounds ->
  steady passes_soundly (watch_scenario elsewhere rounds scenario names h args).
Proof.
  intros Ht. unfold watch_scenario. eapply steady_bind; [apply steady_get|]. intros c0 _.
  destruct (snapshot c0 names) as [pre|err]; [|by apply steady_ret]. eapply steady_bind; [apply steady_get|]. intros d _.
  eapply steady_bind; [by apply steady_watch_loop|]. intros [[[[w pre'] ff] we]|] _; [|by apply steady_ret].
  eapply steady_bind; [apply steady_observe|]. intros [w' o] _. eapply steady_bind; [apply steady_get|]. intros c1 _.
  destruct (snapshot c1 names) as [post|err]; [|by apply steady_ret].
  eapply steady_bind; [apply steady_safe; destruct Hcfg; by apply safe_close_conn|]. intros u _. apply steady_ret.
  unfold passes_soundly. cbn [sr_verdict sr_snapshot_pre sr_snapshot_post]. intros Hv. apply gate_exact.
  destruct (_ ++ _) eqn:El; [|done]. apply app_nil in El as [_ El]. by apply app_nil in El as [_ El].
Qed.

End Sound.
End Reports.

(** ** A scenario evaluated

    The peer answers the SYN of the first connect, sends a hundred bytes for the warm-up, each
    of which is the response to one empty request, and a hundred more for the one round. *)

(** The platform of [EngineSpec] with its time stamp counter past the first second, so that
    the free packets are sampled on the first poll. *)
Definition late_platform : Platform := {|
  pl_now := @pl_now sample_platform; pl_dispatch_clock := @pl_dispatch_clock sample_platform;
  pl_alloc_hdr := @pl_alloc_hdr sample_platform; pl_alloc_data := @pl_alloc_data sample_platform;
  pl_alloc_rx := @pl_alloc_rx sample_platform; pl_append := @pl_append sample_platform; pl_adj := @pl_adj sample_platform;
  pl_chain := @pl_chain sample_platform; pl_burst := @pl_burst sample_platform; pl_mtu := @pl_mtu sample_platform;
  pl_links := @pl_links sample_platform; pl_data_ptr := @pl_data_ptr sample_platform; pl_siphash := @pl_siphash sample_platform;
  pl_tsc := fun n => 2000000 + 1000 * Z.of_nat n; pl_tsc_hz := 1000000;
  pl_rx_avail := @pl_rx_avail sample_platform; pl_tx_data_avail := @pl_tx_data_avail sample_platform
|}.
#[local] Existing Instances late_platform sample_config.

Definition calling : Engine := match connect 0x0a000002 80 0 (engine_with (ft_new 2)) with Some (_, e) => e | None => engine_with (ft_new 2) end.
Definition calling_port_iss : Z * Z :=
  match ft_get (eg_flow_table calling) 1 with Some c => (ft_local_port (c_four_tuple c), c_iss c) | None => (0, 0) end.

Definition answer (flags seq : Z) (payload : list Z) (m : Mbuf.MbufId) : RxPacket :=
  let seg := mkSegmentTx peer_mac our_mac 0x0a000002 0x0a000001 80 calling_port_iss.1 seq (calling_port_iss.2 + 1) flags 8192
               Options.TcpOpts_default payload in
  mkRxPacket (match build_segment seg (replicate 200 0) with Some (Some (n, b)) => take n b | _ => [] end) 0 0 0 m.

Definition sample_connect_turns : list Turn := [mkTurn [answer 0x12 7000 [] 7] false].
Definition sample_warmup_turns : list Turn := [mkTurn [answer 0x18 7001 (replicate 100 1) 8] false].
Definition sample_rounds : list (list Turn) := [[mkTurn [answer 0x18 7101 (replicate 100 2) 9] false]].
Definition sample_args : RunArgs := mkRunArgs 0 1 1000000.
Definition sample_scenario : LayerHScenario := nth 0 MATRIX (mkScenario [] None None 0 false [] []).
Definition sample_names : list string := select_counter_names [sample_scenario].

Definition sample_run : option (option (result ScenarioResult RunError) * Engine) :=
  run_one_scenario (fun _ _ => 0) sample_connect_turns sample_warmup_turns sample_rounds sample_scenario sample_names
    0x0a000002 80 sample_args (engine_with (ft_new 2)).

(** The same, but the peer closes with the bytes of the round. *)
Definition departing_rounds : list (list Turn) := [[mkTurn [answer 0x19 7101 (replicate 100 2) 9] false]].
Definition departing_run : option (option (result ScenarioResult RunError) * Engine) :=
  run_one_scenario (fun _ _ => 0) sample_connect_turns sample_warmup_turns departing_rounds sample_scenario sample_names
    0x0a000002 80 sample_args (engine_with (ft_new 2)).

Definition turns_okb (turns : list Turn) : bool := forallb (fun t => forallb packet_okb (tn_burst t)) turns.
Lemma turns_okb_sound turns : turns_okb turns = true -> turns_ok turns.
Proof.
  unfold turns_okb, turns_ok. rewrite forallb_forall, Forall_forall. intros Hb t Ht%list_elem_of_In. specialize (Hb t Ht).
  pose proof (calls_okb_sound [CallPoll (tn_burst t)]) as Hs. cbn [forallb call_okb] in Hs. rewrite Hb in Hs.
  specialize (Hs eq_refl). by inversion Hs.
Qed.

Definition verdict_of (r : option (option (result ScenarioResult RunError) * Engine)) : option (Verdict * list EventRecord) :=
  match r with Some (Some (Ok res), _) => Some (sr_verdict res, er_buf (sr_event_ring res)) | _ => None end.


Lemma scenario_hides_transitions_witness :
  exists res e', departing_run = Some (Some (Ok res), e') /\ sr_verdict res = Failed [FsmDeparted (Some CloseWait)] /\
    er_buf (sr_event_ring res) = [].
Proof.
  assert (Hv : verdict_of departing_run = Some (Failed [FsmDeparted (Some CloseWait)], [])) by (vm_compute; reflexivity).
  destruct departing_run as [[[[res|err]|] e']|] eqn:E; [|discriminate Hv|discriminate Hv|discriminate Hv].
  injection Hv as Hv _. exists res, e'. split; [reflexivity|]. split; [exact Hv|].
  destruct (scenario_hides_transitions (fun _ _ => 0) sample_connect_turns sample_warmup_turns departing_rounds sample_scenario
    sample_names 0x0a000002 80 sample_args _ e' res ltac:(reflexivity) E) as [(fs & f & Hfs & Hf & Hw)|[Hb _]]; [|exact Hb].
  rewrite Hv in Hfs. injection Hfs as <-. apply list_elem_of_singleton in Hf as ->. destruct Hw.
Defined.
