(* ===== verification/TestPacket.v ===== *)
(** * Packets for scripts: mod test_packet of test_server.rs

    The scripts that drive a listening engine build their peer's frames with the engine's own
    segment builder and read sequence numbers off the frames it answers with. *)

From S2P Require Import Prelude.
From S2P Require Import Bytes.
From S2P Require Import Options.
From S2P Require Import Ip.
From S2P Require Import Output.
From S2P Require Import Segment.
From S2P Require Import Conn.
From S2P Require Import FlowTable.
From S2P Require Import Engine.
From S2P Require Import AckBuild.
From S2P Require Import Iss.
From S2P Require Import EngineSpec.
From S2P Require Import Server.
From S2P Require Import ServerSpec.

(** The frame in a buffer with room for the longest header; [expect] and [truncate]. *)
Definition build_tcp_frame (src_ip src_port dst_ip dst_port seq ack flags window : Z) (options : TcpOpts) (payload : list Z)
    : option (list Z) :=
  let seg := mkSegmentTx [2; 0; 0; 0; 0; 2] [2; 0; 0; 0; 0; 1] src_ip dst_ip src_port dst_port seq ack flags window options payload in
  let buf := replicate (14 + 20 + 60 + length payload) 0 in
  r ← build_segment seg buf;
  '(n, buf) ← r;
  Some (take n buf).

Definition build_tcp_syn (src_ip src_port dst_ip dst_port iss peer_mss : Z) : option (list Z) :=
  let opts := TcpOpts_default <| mss := Some peer_mss |> in
  build_tcp_frame src_ip src_port dst_ip dst_port iss 0 TCP_SYN U16_MAX opts [].

Definition build_tcp_ack (src_ip src_port dst_ip dst_port seq ack : Z) : option (list Z) :=
  build_tcp_frame src_ip src_port dst_ip dst_port seq ack TCP_ACK U16_MAX TcpOpts_default [].

Definition build_tcp_fin (src_ip src_port dst_ip dst_port seq ack : Z) : option (list Z) :=
  build_tcp_frame src_ip src_port dst_ip dst_port seq ack (Z.lor TCP_FIN TCP_ACK) U16_MAX TcpOpts_default [].

Definition build_tcp_ack_with_sack (src_ip src_port dst_ip dst_port seq ack sack_left sack_right tsval : Z) : option (list Z) :=
  let opts := TcpOpts_default <| timestamps := Some (tsval, 0) |> in
  let '(_, opts) := push_sack_block_decode opts (mkSackBlock sack_left sack_right) in
  build_tcp_frame src_ip src_port dst_ip dst_port seq ack TCP_ACK U16_MAX opts [].

(** Panics where an index is out of range. *)
Definition parse_syn_ack (frame : list Z) : option (option (Z * Z)) :=
  if (length frame <? 14 + 20 + 20)%nat then Some None else
  b ← frame !! 14%nat;
  let ip_ihl := (Z.to_nat (Z.land b 0x0f) * 4)%nat in
  let tcp_off := (14 + ip_ihl)%nat in
  if (length frame <? tcp_off + 20)%nat then Some None else
  let tcp := drop tcp_off frame in
  flags ← tcp !! 13%nat;
  if negb (Z.land flags 0x12 =? 0x12) then Some None else
  seq ← read_be32 tcp 4;
  ack ← read_be32 tcp 8;
  Some (Some (seq, ack)).

Definition parse_tcp_seq_ack (frame : list Z) : option (Z * Z) :=
  b ← frame !! 14%nat;
  let ip_ihl := (Z.to_nat (Z.land b 0x0f) * 4)%nat in
  if (length frame <? 14 + ip_ihl)%nat then None else
  let tcp := drop (14 + ip_ihl) frame in
  seq ← read_be32 tcp 4;
  ack ← read_be32 tcp 8;
  Some (seq, ack).

(** ** What they promise *)

(** A frame of the builder: the stack receives the segment [seg] from it, and the two readers find its numbers. *)
Record frame_of (seg : SegmentTx) (frame : list Z) : Prop := {
  fr_l2 : l2_decode frame (tx_dst_mac seg) = Some (Ok (mkL2Decoded ETHERTYPE_IPV4 (tx_src_mac seg) (tx_dst_mac seg) 14));
  fr_l3 : ip_decode (drop 14 frame) (tx_dst_ip seg) false =
    Some (Ok (mkL3Decoded IPPROTO_TCP (tx_src_ip seg) (tx_dst_ip seg) 20 (length (drop 14 frame)) 64));
  fr_l4 : exists s, parse_segment (slice 20 (length (drop 14 frame)) (drop 14 frame)) (tx_src_ip seg) (tx_dst_ip seg) false = Some (Ok s) /\
    ps_src_port s = tx_src_port seg /\ ps_dst_port s = tx_dst_port seg /\ ps_seq s = tx_seq seg /\ ps_ack s = tx_ack seg /\
    ps_flags s = tx_flags seg /\ ps_window s = tx_window seg /\ ps_payload s = tx_payload seg /\
    parse_options (ps_options s) = Some (Ok (tx_options seg));
  fr_numbers : parse_tcp_seq_ack frame = Some (tx_seq seg, tx_ack seg);
  fr_syn_ack : parse_syn_ack frame = Some (if Z.land (tx_flags seg) 0x12 =? 0x12 then Some (tx_seq seg, tx_ack seg) else None)
}.

(** The two readers on any frame the segment builder writes, the engine's own included. *)
Lemma readers_wire seg pl rest : seg_wf seg ->
  let frame := frame_headers seg pl ++ rest in
  parse_tcp_seq_ack frame = Some (tx_seq seg, tx_ack seg) /\
  parse_syn_ack frame = Some (if Z.land (tx_flags seg) 0x12 =? 0x12 then Some (tx_seq seg, tx_ack seg) else None).
Proof.
  intros Hwf frame. destruct (swf_seqs _ Hwf) as [Hs Ha]. destruct (swf_src_mac _ Hwf) as [_ Ls]. destruct (swf_dst_mac _ Hwf) as [_ Ld].
  set (d := u8 (Z.shiftl (u8 (Z.of_nat (tcp_hdr_len_of seg / 4))) 4)).
  assert (E : exists l, frame = (eth_wire seg ++ ip_wire seg (ip_total_of seg pl) (ip_csum_of seg (ip_total_of seg pl))) ++
    (to_be16 (tx_src_port seg) ++ to_be16 (tx_dst_port seg)) ++ to_be32 (tx_seq seg) ++ to_be32 (tx_ack seg) ++ d :: tx_flags seg :: l /\ (6 <= length l)%nat).
  { eexists. unfold frame, frame_headers, tcp_wire, tcp_wire_head. rewrite <- !app_assoc. cbn [app]. split; [reflexivity|].
    rewrite !length_app, !length_to_be16. lia. }
  destruct E as (l & E & Hl).
  assert (Li : length (eth_wire seg ++ ip_wire seg (ip_total_of seg pl) (ip_csum_of seg (ip_total_of seg pl))) = 34%nat).
  { unfold eth_wire, ip_wire. rewrite !length_app, Ls, Ld. reflexivity. }
  assert (Hb : frame !! 14%nat = Some 0x45).
  { rewrite E, lookup_app_l by lia. unfold eth_wire. rewrite lookup_app_r by (rewrite !length_app, Ls, Ld; cbn; lia).
    rewrite !length_app, Ls, Ld. reflexivity. }
  assert (Hd : drop 34 frame = (to_be16 (tx_src_port seg) ++ to_be16 (tx_dst_port seg)) ++ to_be32 (tx_seq seg) ++ to_be32 (tx_ack seg) ++ d :: tx_flags seg :: l)
    by (rewrite E; by apply drop_app_length').
  assert (Hlen : (54 <= length frame)%nat) by (rewrite E, length_app, Li, !length_app, !length_to_be32, !length_to_be16; cbn [length]; lia).
  assert (R1 : read_be32 (drop 34 frame) 4 = Some (tx_seq seg)) by (rewrite Hd; by apply read_be32_app).
  assert (R2 : read_be32 (drop 34 frame) 8 = Some (tx_ack seg)).
  { rewrite Hd, (app_assoc (_ ++ _) (to_be32 (tx_seq seg))). by apply read_be32_app. }
  assert (R3 : drop 34 frame !! 13%nat = Some (tx_flags seg)) by (rewrite Hd; reflexivity).
  unfold parse_tcp_seq_ack, parse_syn_ack. rewrite Hb. cbn [mbind option_bind].
  change (14 + Z.to_nat (Z.land 0x45 0x0f) * 4)%nat with 34%nat. rewrite R1, R2, R3.
  rewrite (proj2 (Nat.ltb_ge (length frame) 34)) by lia. rewrite (proj2 (Nat.ltb_ge (length frame) (14 + 20 + 20))) by lia.
  rewrite (proj2 (Nat.ltb_ge (length frame) (34 + 20))) by lia. cbn [mbind option_bind]. split; [done|]. by destruct (_ =? 0x12).
Qed.

Section Built.
Context (src_ip src_port dst_ip dst_port seq ack : Z).
Context (Hips : is_u32 src_ip /\ is_u32 dst_ip) (Hports : is_u16 src_port /\ is_u16 dst_port) (Hnums : is_u32 seq /\ is_u32 ack).

Definition script_segment (flags window : Z) (options : TcpOpts) (payload : list Z) : SegmentTx :=
  mkSegmentTx [2; 0; 0; 0; 0; 2] [2; 0; 0; 0; 0; 1] src_ip dst_ip src_port dst_port seq ack flags window options payload.

Lemma build_tcp_frame_ok flags window options payload : is_u8 flags -> bad_flags flags = false -> is_u16 window ->
  opts_wf options -> ws_clamped options = false -> (encoded_len options <= 40)%nat -> is_bytes payload -> zlen payload <= 65400 ->
  exists frame, build_tcp_frame src_ip src_port dst_ip dst_port seq ack flags window options payload = Some frame /\
    frame_of (script_segment flags window options payload) frame.
Proof.
  intros Hf Hbf Hw Ho Hc Hl Hp Hn. set (seg := script_segment flags window options payload).
  assert (Hwf : seg_wf seg).
  { split; cbn; try tauto; split; try done; repeat constructor; unfold is_u8, two8; lia. }
  assert (Htot : ip_total_of seg (tx_payload seg) <= U16_MAX).
  { unfold ip_total_of, tcp_hdr_len_of, IPV4_HDR_MIN, TCP_HDR_MIN, U16_MAX, zlen in *. unfold seg. cbn [tx_options tx_payload script_segment]. lia. }
  assert (Hroom : (34 + (tcp_hdr_len_of seg + length (tx_payload seg)) <= length (replicate (14 + 20 + 60 + length payload) 0%Z))%nat).
  { rewrite length_replicate. unfold tcp_hdr_len_of, TCP_HDR_MIN, seg. cbn [tx_options tx_payload script_segment]. lia. }
  pose proof (build_segment_inner_wire seg Hwf (tx_payload seg) _ Htot Hroom) as E.
  destruct (frame_decodes seg Hwf Hbf Hl Htot) as (E2 & E3 & E4).
  exists (frame_headers seg payload ++ payload). split.
  - unfold build_tcp_frame, build_segment. fold (script_segment flags window options payload). fold seg. unfold build_segment. rewrite E. cbn [mbind option_bind].
    rewrite app_assoc. f_equal. apply take_app_length'. rewrite length_app, length_frame_headers by done. change (tx_payload seg) with payload. lia.
  - destruct (readers_wire seg payload payload Hwf) as [R1 R2]. split; [exact E2|exact E3| |exact R1|exact R2].
    eexists. split; [exact E4|]. cbn [ps_src_port ps_dst_port ps_seq ps_ack ps_flags ps_window ps_payload ps_options]. split_and!; try done.
    rewrite parse_options_general. by apply parse_general_wire.
Qed.
End Built.

(** The packets the scripts build, received by the stack as they were meant. *)
Theorem script_packets (src_ip src_port dst_ip dst_port seq ack : Z) (Hips : is_u32 src_ip /\ is_u32 dst_ip)
    (Hports : is_u16 src_port /\ is_u16 dst_port) (Hnums : is_u32 seq /\ is_u32 ack) (peer_mss left_ right_ tsval : Z)
    (Hopts : is_u16 peer_mss /\ is_u32 left_ /\ is_u32 right_ /\ is_u32 tsval) :
  let segment seq ack flags options := script_segment src_ip src_port dst_ip dst_port seq ack flags U16_MAX options [] in
  (exists f, build_tcp_syn src_ip src_port dst_ip dst_port seq peer_mss = Some f /\
     frame_of (segment seq 0 TCP_SYN (TcpOpts_default <| mss := Some peer_mss |>)) f) /\
  (exists f, build_tcp_ack src_ip src_port dst_ip dst_port seq ack = Some f /\ frame_of (segment seq ack TCP_ACK TcpOpts_default) f) /\
  (exists f, build_tcp_fin src_ip src_port dst_ip dst_port seq ack = Some f /\ frame_of (segment seq ack (Z.lor TCP_FIN TCP_ACK) TcpOpts_default) f) /\
  (exists f, build_tcp_ack_with_sack src_ip src_port dst_ip dst_port seq ack left_ right_ tsval = Some f /\
     frame_of (segment seq ack TCP_ACK (TcpOpts_default <| timestamps := Some (tsval, 0) |>
       <| sack_blocks := [mkSackBlock left_ right_; mkSackBlock 0 0; mkSackBlock 0 0; mkSackBlock 0 0] |> <| sack_block_count := 1%nat |>)) f).
Proof.
  destruct Hopts as (Hm & Hl & Hr & Ht).
  assert (G : forall seq ack flags o, is_u32 seq -> is_u32 ack -> is_u8 flags -> bad_flags flags = false -> opts_wf o -> ws_clamped o = false ->
    (encoded_len o <= 40)%nat -> exists f, build_tcp_frame src_ip src_port dst_ip dst_port seq ack flags U16_MAX o [] = Some f /\
      frame_of (script_segment src_ip src_port dst_ip dst_port seq ack flags U16_MAX o []) f).
  { intros sq ak flags o H1 H2 H3 H4 H5 H6 H7. apply build_tcp_frame_ok; [done|done|by split|done|done|by split|done|done|done|constructor|]. unfold zlen. cbn [length]. lia. }
  pose proof TcpOpts_default_wf as W0. assert (H0 : is_u32 0) by (by split).
  assert (Wm : opts_wf (TcpOpts_default <| mss := Some peer_mss |>)) by (destruct W0; split; cbn; try assumption; by intros ? [= <-]).
  assert (Ws : opts_wf (TcpOpts_default <| timestamps := Some (tsval, 0) |>
    <| sack_blocks := [mkSackBlock left_ right_; mkSackBlock 0 0; mkSackBlock 0 0; mkSackBlock 0 0] |> <| sack_block_count := 1%nat |>)).
  { destruct W0. split; cbn; try assumption; [by intros ? ? [= <- <-]|unfold MAX_SACK_BLOCKS_DECODE; lia|rewrite !Forall_cons, Forall_nil; cbn; tauto|].
    intros i Hi. do 4 (destruct i as [|i]; [first [lia|reflexivity]|]). lia. }
  destruct Hnums as [Hs Ha].
  split_and!; (apply G; [assumption|assumption|by split|reflexivity|assumption|reflexivity|apply Nat.leb_le; reflexivity]).
Qed.

(** *** A scripted handshake: the peer's frames are the builder's, the engine's sequence number is read off its answer *)

#[local] Existing Instance sample_platform.

(** The listening engine of [ServerSpec] behind the address the builder writes. *)
Definition script_config : EngineConfig := {|
  local_ip := 0x0a000002; gateway_ip := 0x0a000001; our_mac := [2; 0; 0; 0; 0; 1]; garp_interval_sec := 0;
  recv_buffer_bytes := 65535; send_buffer_bytes := 65536; tcp_mss := 1000; tcp_msl_ms := 10;
  tcp_timestamps := false; tcp_sack := true; tcp_min_rto_us := 5000; tcp_initial_rto_us := 5000;
  tcp_max_rto_us := 1000000; tcp_max_retrans_count := 3; tcp_per_packet_events := true;
  rtt_histogram_edges := DEFAULT_RTT_HISTOGRAM_EDGES_US; tx_ring_capacity := 32;
  iss_gen := mkIssGen (replicate 16 3) (replicate 16 9); rx_cksum_feature := false; rx_cksum_offload_active := false;
  tx_cksum_feature := false; tx_cksum_offload_active := false; rss_feature := false; rss_hash_offload_active := false;
  test_server := true
|}.
#[local] Existing Instance script_config.

Definition script_syn : list Z := default [] (build_tcp_syn 0x0a000001 4000 0x0a000002 80 0x11223344 1400).
Definition script_called : Engine := after (for_each [SrvListen 0x0a000002 80; SrvInject script_syn] run_server) server_engine.
Definition script_answer : option (Z * Z) := default None (parse_syn_ack (nth 0 (eg_tx_intercept script_called) [])).
Definition script_ack : list Z :=
  default [] ('(iss, _) ← script_answer; build_tcp_ack 0x0a000001 4000 0x0a000002 80 0x11223345 (wadd32 iss 1)).

Example scripted_handshake :
  snd <$> script_answer = Some 0x11223345 /\
  server_view (after (for_each [SrvTakeFrames; SrvInject script_ack] run_server) script_called) =
    ([Some Established; None], [(Some 1, None)], 0%nat).
Proof. split; by vm_compute. Qed.
