(* ===== verification/CApi.v ===== *)
(** * The C interface: crates/dpdk-net

    The extern "C" functions of lib.rs and the types of api.rs they read and write.  A
    pointer argument is [Null] or not; what is behind it is an option, and what a
    function writes through an out pointer is part of its result.  The engine a pointer
    names is the state of the monad [M].  Integers in network byte order are read the way
    a little-endian host does. *)

From S2P Require Import Prelude.
From S2P Require Import Text.
From S2P Require Import Bytes.
From S2P Require Import Rtt.
From S2P Require Import Tlp.
From S2P Require Import TimerWheel.
From S2P Require Import Conn.
From S2P Require Import FlowTable.
From S2P Require Import AckBuild.
From S2P Require Import Mbuf.
From S2P Require Import Events.
From S2P Require Import Engine.
From S2P Require Import EngineTx.
From S2P Require Import EngineTimers.
From S2P Require Import EngineApi.
From S2P Require Import ProcFiles.
From S2P Require Import Nic.
From S2P Require Import Bringup.
From S2P Require Import InputSpec.
From S2P Require Import EngineInv.
From S2P Require Import EngineSafe.
From S2P Require Import EngineStep.
From S2P Require Import EngineLoop.
From S2P Require Import EngineSpec.
From S2P Require Import Connect.
From S2P Require Import Lifetime.

(** ** Errno values of the target *)

Definition ENOENT : Z := 2.
Definition EIO : Z := 5.
Definition EAGAIN : Z := 11.
Definition EINVAL : Z := 22.
Definition EMFILE : Z := 24.
Definition ENOSPC : Z := 28.
Definition ERANGE : Z := 34.
Definition EDEADLK : Z := 35.
Definition EOPNOTSUPP : Z := 95.
Definition ENOTCONN : Z := 107.
Definition EHOSTUNREACH : Z := 113.

Inductive Ptr := Null | NonNull.

#[export] Instance Ptr_eq_dec : EqDecision Ptr.
Proof. solve_decision. Defined.

Definition is_null (p : Ptr) : bool := match p with Null => true | NonNull => false end.

(** [u32::from_be] is [swap_bytes]. *)
Definition from_be16 (z : Z) : Z := (z mod 256) * 256 + (z / 256) mod 256.

(** [x as u32] of a connection handle. *)
Definition conn_handle (conn : Z) : ConnHandle := u32 conn.

Definition or_default (v d : Z) : Z := if v =? 0 then d else v.

(** ** Configuration *)

Record dpdk_net_engine_config_t := mkEngineConfigC {
  ccfg_port_id : Z;
  ccfg_rx_queue_id : Z;
  ccfg_tx_queue_id : Z;
  ccfg_max_connections : Z;
  ccfg_recv_buffer_bytes : Z;
  ccfg_send_buffer_bytes : Z;
  ccfg_tcp_mss : Z;
  ccfg_tcp_timestamps : bool;
  ccfg_tcp_sack : bool;
  ccfg_tcp_ecn : bool;
  ccfg_tcp_nagle : bool;
  ccfg_tcp_delayed_ack : bool;
  ccfg_cc_mode : Z;
  ccfg_tcp_min_rto_us : Z;
  ccfg_tcp_initial_rto_us : Z;
  ccfg_tcp_max_rto_us : Z;
  ccfg_tcp_max_retrans_count : Z;
  ccfg_tcp_msl_ms : Z;
  ccfg_tcp_per_packet_events : bool;
  ccfg_preset : Z;
  ccfg_local_ip : Z;
  ccfg_gateway_ip : Z;
  ccfg_gateway_mac : list Z;
  ccfg_garp_interval_sec : Z;
  ccfg_event_queue_soft_cap : Z;
  ccfg_rtt_histogram_bucket_edges_us : list Z;
  ccfg_ena_large_llq_hdr : Z;
  ccfg_ena_miss_txc_to_sec : Z;
  ccfg_rx_mempool_size : Z
}.

Definition DPDK_NET_PRESET_LATENCY : Z := 0.
Definition DPDK_NET_PRESET_RFC_COMPLIANCE : Z := 1.

(** [None] is [Err(())]. *)
Definition apply_preset (preset : Z) (core_cfg : CoreConfig) : option CoreConfig :=
  if preset =? DPDK_NET_PRESET_LATENCY then Some core_cfg else
  if preset =? DPDK_NET_PRESET_RFC_COMPLIANCE then
    Some (core_cfg <| cfg_tcp_nagle := true |> <| cfg_tcp_delayed_ack := true |> <| cfg_cc_mode := 1 |>
                   <| cfg_tcp_min_rto_us := 200000 |> <| cfg_tcp_initial_rto_us := 1000000 |>)
  else None.

(** The core configuration before the preset: zero stands for the default. *)
Definition core_config (lcore_id event_cap : Z) (c : dpdk_net_engine_config_t) : CoreConfig := {|
  cfg_lcore_id := lcore_id;
  cfg_port_id := ccfg_port_id c;
  cfg_rx_queue_id := ccfg_rx_queue_id c;
  cfg_tx_queue_id := ccfg_tx_queue_id c;
  cfg_rx_ring_size := 512;
  cfg_tx_ring_size := 512;
  cfg_mbuf_data_room := 2048;
  cfg_rx_mempool_size := ccfg_rx_mempool_size c;
  cfg_tx_data_mempool_size := 0;
  cfg_tx_hdr_mempool_size := 0;
  cfg_local_ip := ccfg_local_ip c;
  cfg_secondary_local_ips := [];
  cfg_gateway_ip := ccfg_gateway_ip c;
  cfg_gateway_mac := ccfg_gateway_mac c;
  cfg_garp_interval_sec := ccfg_garp_interval_sec c;
  cfg_max_connections := or_default (ccfg_max_connections c) 16;
  cfg_recv_buffer_bytes := or_default (ccfg_recv_buffer_bytes c) (256 * 1024);
  cfg_send_buffer_bytes := or_default (ccfg_send_buffer_bytes c) (256 * 1024);
  cfg_tcp_mss := or_default (ccfg_tcp_mss c) 1460;
  cfg_tcp_msl_ms := or_default (ccfg_tcp_msl_ms c) 30000;
  cfg_tcp_nagle := ccfg_tcp_nagle c;
  cfg_tcp_delayed_ack := ccfg_tcp_delayed_ack c;
  cfg_cc_mode := ccfg_cc_mode c;
  cfg_tcp_timestamps := ccfg_tcp_timestamps c;
  cfg_tcp_sack := ccfg_tcp_sack c;
  cfg_tcp_ecn := ccfg_tcp_ecn c;
  cfg_tcp_min_rto_us := or_default (ccfg_tcp_min_rto_us c) 5000;
  cfg_tcp_initial_rto_us := or_default (ccfg_tcp_initial_rto_us c) 5000;
  cfg_tcp_max_rto_us := or_default (ccfg_tcp_max_rto_us c) 1000000;
  cfg_tcp_max_retrans_count := or_default (ccfg_tcp_max_retrans_count c) 15;
  cfg_tcp_per_packet_events := ccfg_tcp_per_packet_events c;
  cfg_event_queue_soft_cap := event_cap;
  cfg_rtt_histogram_bucket_edges_us := ccfg_rtt_histogram_bucket_edges_us c;
  cfg_ena_large_llq_hdr := ccfg_ena_large_llq_hdr c;
  cfg_ena_miss_txc_to_sec := ccfg_ena_miss_txc_to_sec c
|}.

(** What [dpdk_net_engine_create] hands to [Engine::new]; [None] is a null return. *)
Definition checked_config (lcore_id : Z) (cfg : option dpdk_net_engine_config_t) : option CoreConfig :=
  c ← cfg;
  let event_cap := or_default (ccfg_event_queue_soft_cap c) 4096 in
  if event_cap <? 64 then None else
  apply_preset (ccfg_preset c) (core_config lcore_id event_cap c).

(** The inner [None] is a null return, the outer one a panic. *)
Definition dpdk_net_engine_create `{Bringup} (feat : Features) (lcore_id : Z) (cfg : option dpdk_net_engine_config_t)
    (mem : gmap MbufId (list Z)) (tr : list Effect) : option (option Started) * list Effect :=
  match checked_config lcore_id cfg with
  | None => (Some None, tr)
  | Some core_cfg =>
      match engine_create feat core_cfg mem tr with
      | (Ok (Some st), tr) => (Some (Some st), tr)
      | (Ok None, tr) => (None, tr)
      | (Err _, tr) => (Some None, tr)
      end
  end.

(** [argv] holds the bytes of each C string, or null. *)
Definition dpdk_net_eal_init (poisoned : bool) (argc : Z) (argv : option (list (option (list Z))))
    (rte_eal_init : list text -> EalAnswer) (s : EalState) : Z * EalState :=
  match argv with
  | None => (- EINVAL, s)
  | Some argv =>
      if argc <? 0 then (- EINVAL, s) else
      let args := map (fun p => match p with Some bytes => to_string_lossy bytes | None => [] end)
                    (take (Z.to_nat argc) argv) in
      match eal_init poisoned args rte_eal_init s with
      | (Ok _, s) => (0, s)
      | (Err EalArgvNul, s) => (- EINVAL, s)
      | (Err EalReentrant, s) => (- EDEADLK, s)
      | (Err _, s) => (- EAGAIN, s)
      end
  end.

(** ** Connect options *)

Record dpdk_net_connect_opts_t := mkConnectOptsC {
  cop_peer_addr : Z;                       (* network byte order *)
  cop_peer_port : Z;
  cop_local_addr : Z;
  cop_local_port : Z;
  cop_connect_timeout_ms : Z;
  cop_idle_keepalive_sec : Z;
  cop_rack_aggressive : bool;
  cop_rto_no_backoff : bool;
  cop_tlp_pto_min_floor_us : Z;
  cop_tlp_pto_srtt_multiplier_x100 : Z;
  cop_tlp_skip_flight_size_gate : bool;
  cop_tlp_max_consecutive_probes : Z;
  cop_tlp_skip_rtt_sample_gate : bool
}.

#[export] Instance ConnectOptsC_eta : Settable dpdk_net_connect_opts_t := fun o =>
  mkConnectOptsC (cop_peer_addr o) (cop_peer_port o) (cop_local_addr o) (cop_local_port o) (cop_connect_timeout_ms o)
    (cop_idle_keepalive_sec o) (cop_rack_aggressive o) (cop_rto_no_backoff o) (cop_tlp_pto_min_floor_us o)
    (cop_tlp_pto_srtt_multiplier_x100 o) (cop_tlp_skip_flight_size_gate o) (cop_tlp_max_consecutive_probes o)
    (cop_tlp_skip_rtt_sample_gate o).

(** ** Events *)

Record dpdk_net_event_readable_t := mkReadableC {
  rd_segs : option (list Iovec);           (* the array behind the pointer *)
  rd_n_segs : Z;
  rd_total_len : Z
}.

(** The union, by the member that was written. *)
Inductive dpdk_net_event_payload_t :=
  | PlPad
  | PlReadable (v : dpdk_net_event_readable_t)
  | PlError (err : Z)
  | PlClosed (err : Z)
  | PlTimer (timer_id user_data : Z)
  | PlRetrans (seq rtx_count : Z)
  | PlLoss (first_seq trigger : Z)
  | PlState (from_state to_state : Z).

Inductive dpdk_net_event_kind_t :=
  | EVT_CONNECTED | EVT_READABLE | EVT_WRITABLE | EVT_CLOSED | EVT_ERROR | EVT_TIMER | EVT_TCP_RETRANS
  | EVT_TCP_LOSS_DETECTED | EVT_TCP_STATE_CHANGE.

(** The discriminants. *)
Definition kind_code (k : dpdk_net_event_kind_t) : Z :=
  match k with
  | EVT_CONNECTED => 1 | EVT_READABLE => 2 | EVT_WRITABLE => 3 | EVT_CLOSED => 4 | EVT_ERROR => 5 | EVT_TIMER => 6
  | EVT_TCP_RETRANS => 7 | EVT_TCP_LOSS_DETECTED => 8 | EVT_TCP_STATE_CHANGE => 9
  end.

Record dpdk_net_event_t := mkEventC {
  cev_kind : dpdk_net_event_kind_t;
  cev_conn : Z;
  cev_rx_hw_ts_ns : Z;
  cev_enqueued_ts_ns : Z;
  cev_u : dpdk_net_event_payload_t
}.

(** [state as u8]. *)
Definition state_code (s : TcpState) : Z :=
  match s with
  | Closed => 0 | Listen => 1 | SynSent => 2 | SynReceived => 3 | Established => 4 | FinWait1 => 5 | FinWait2 => 6
  | CloseWait => 7 | Closing => 8 | LastAck => 9 | TimeWait => 10
  end.

Definition loss_code (cause : LossCause) : Z := match cause with LossRack => 0 | LossTlp => 1 | LossRto => 2 end.

Definition build_event_from_internal (ev : InternalEvent) (readable_view : dpdk_net_event_readable_t) : dpdk_net_event_t :=
  match ev with
  | EvConnected conn hw emitted => mkEventC EVT_CONNECTED conn hw emitted PlPad
  | EvReadable conn _ _ _ hw emitted => mkEventC EVT_READABLE conn hw emitted (PlReadable readable_view)
  | EvClosed conn err emitted => mkEventC EVT_CLOSED conn 0 emitted (PlClosed err)
  | EvStateChange conn from to emitted =>
      mkEventC EVT_TCP_STATE_CHANGE conn 0 emitted (PlState (state_code from) (state_code to))
  | EvError conn err emitted => mkEventC EVT_ERROR conn 0 emitted (PlError err)
  | EvTcpRetrans conn seq n emitted => mkEventC EVT_TCP_RETRANS conn 0 emitted (PlRetrans seq n)
  | EvTcpLossDetected conn cause emitted => mkEventC EVT_TCP_LOSS_DETECTED conn 0 emitted (PlLoss 0 (loss_code cause))
  | EvApiTimer id user_data emitted => mkEventC EVT_TIMER 0 0 emitted (PlTimer (pack_timer_id id) user_data)
  | EvWritable conn emitted => mkEventC EVT_WRITABLE conn 0 emitted PlPad
  end.

(** The scatter-gather view the sink of [dpdk_net_poll] takes of an event. *)
Definition readable_view (ev : InternalEvent) : dpdk_net_event_readable_t :=
  match ev with
  | EvReadable _ segs _ total _ _ => mkReadableC (Some segs) (u32 (zlen segs)) total
  | _ => mkReadableC None 0 0
  end.

Definition event_out (ev : InternalEvent) : dpdk_net_event_t := build_event_from_internal ev (readable_view ev).

(** ** Calls on an engine *)

Definition DPDK_NET_SHUT_RD : Z := 0.
Definition DPDK_NET_SHUT_WR : Z := 1.
Definition DPDK_NET_SHUT_RDWR : Z := 2.

Section CApi.
Context `{Platform} `{EngineConfig}.

Definition dpdk_net_engine_add_local_ip (p : Ptr) (local_addr_nbo : Z) : M Z :=
  if is_null p then mret (- EINVAL) else
  let ip := swap_bytes local_addr_nbo in
  if ip =? 0 then mret (- EINVAL) else
  if ip =? local_ip then mret (- EINVAL) else
  add_local_ip ip ;;
  mret 0.

(** The events written to [events_out], in order, beside the code. *)
Definition dpdk_net_poll (burst : list RxPacket) (p events_out : Ptr) (max_events timeout_ns : Z)
    : M (Z * list dpdk_net_event_t) :=
  if is_null p then mret (- EINVAL, []) else
  poll_once burst ;;
  if is_null events_out || (max_events =? 0) then mret (0, []) else
  evs ← drain_events (Z.to_nat max_events);
  let out := map event_out evs in
  mret (as_i32 (u32 (zlen out)), out).

Definition dpdk_net_flush (p : Ptr) : M unit := if is_null p then skip else drain_tx_pending_data.

Definition validate_and_defaults_tlp_opts (o : dpdk_net_connect_opts_t) : result dpdk_net_connect_opts_t Z :=
  let o := o <| cop_tlp_pto_srtt_multiplier_x100 := or_default (cop_tlp_pto_srtt_multiplier_x100 o) DEFAULT_MULTIPLIER_X100 |>
             <| cop_tlp_max_consecutive_probes := or_default (cop_tlp_max_consecutive_probes o) DEFAULT_MAX_CONSECUTIVE_PROBES |>
             <| cop_tlp_pto_min_floor_us := or_default (cop_tlp_pto_min_floor_us o) tcp_min_rto_us |> in
  if negb ((100 <=? cop_tlp_pto_srtt_multiplier_x100 o) && (cop_tlp_pto_srtt_multiplier_x100 o <=? 200)) then Err (- EINVAL) else
  if negb ((1 <=? cop_tlp_max_consecutive_probes o) && (cop_tlp_max_consecutive_probes o <=? 5)) then Err (- EINVAL) else
  if negb (cop_tlp_pto_min_floor_us o =? U32_MAX) && (tcp_max_rto_us <? cop_tlp_pto_min_floor_us o) then Err (- EINVAL) else
  Ok o.

(** [ConnectOpts] of the validated options. *)
Definition core_connect_opts (o : dpdk_net_connect_opts_t) : ConnectOpts := {|
  co_rack_aggressive := cop_rack_aggressive o;
  co_rto_no_backoff := cop_rto_no_backoff o;
  co_tlp_pto_min_floor_us := cop_tlp_pto_min_floor_us o;
  co_tlp_pto_srtt_multiplier_x100 := cop_tlp_pto_srtt_multiplier_x100 o;
  co_tlp_skip_flight_size_gate := cop_tlp_skip_flight_size_gate o;
  co_tlp_max_consecutive_probes := cop_tlp_max_consecutive_probes o;
  co_tlp_skip_rtt_sample_gate := cop_tlp_skip_rtt_sample_gate o;
  co_local_addr := swap_bytes (cop_local_addr o)
|}.

(** The code and, on success, the handle written to [out]. *)
Definition dpdk_net_connect (p : Ptr) (opts : option dpdk_net_connect_opts_t) (out : Ptr) : M (Z * option Z) :=
  match opts with
  | None => mret (- EINVAL, None)
  | Some opts =>
      if is_null p || is_null out then mret (- EINVAL, None) else
      match validate_and_defaults_tlp_opts opts with
      | Err rc => mret (rc, None)
      | Ok o =>
          r ← connect_with_opts (swap_bytes (cop_peer_addr o)) (from_be16 (cop_peer_port o)) (from_be16 (cop_local_port o))
                (core_connect_opts o);
          mret match r with
               | Ok h => (0, Some h)
               | Err TooManyConns => (- EMFILE, None)
               | Err (PeerUnreachable _) => (- EHOSTUNREACH, None)
               | Err (InvalidLocalAddr _) => (- EINVAL, None)
               | Err _ => (- EIO, None)
               end
      end
  end.

(** [buf] is the memory from the pointer on. *)
Definition dpdk_net_send (p : Ptr) (conn : Z) (buf : option (list Z)) (len : Z) : M Z :=
  if is_null p then mret (- EINVAL) else
  if (0 <? len) && match buf with None => true | Some _ => false end then mret (- EINVAL) else
  let slice := if len =? 0 then [] else take (Z.to_nat len) (default [] buf) in
  r ← send_bytes (conn_handle conn) slice;
  mret match r with
       | Ok n => as_i32 n
       | Err (InvalidConnHandle _) => - ENOTCONN
       | Err SendBufferFull => - ENOMEM
       | Err _ => - EIO
       end.

Definition dpdk_net_close (p : Ptr) (conn flags : Z) : M Z :=
  if is_null p then mret (- EINVAL) else
  r ← close_conn_with_flags (conn_handle conn) flags;
  mret match r with
       | Ok _ => 0
       | Err (InvalidConnHandle _) => - ENOTCONN
       | Err _ => - EIO
       end.

Definition dpdk_net_shutdown (p : Ptr) (conn how : Z) : M Z :=
  if how =? DPDK_NET_SHUT_RDWR then dpdk_net_close p conn 0 else
  if (how =? DPDK_NET_SHUT_RD) || (how =? DPDK_NET_SHUT_WR) then mret (- EOPNOTSUPP) else
  mret (- EINVAL).

Definition dpdk_net_timer_add (p : Ptr) (deadline_ns user_data : Z) (timer_id_out : Ptr) : M (Z * option Z) :=
  if is_null p || is_null timer_id_out then mret (- EINVAL, None) else
  id ← public_timer_add deadline_ns user_data;
  mret (0, Some (pack_timer_id id)).

Definition dpdk_net_timer_cancel (p : Ptr) (timer_id : Z) : M Z :=
  if is_null p then mret (- EINVAL) else
  b ← public_timer_cancel (unpack_timer_id timer_id);
  mret (if b : bool then 0 else - ENOENT).

(** *** Read-only calls *)

(** [FlowTable::get_stats]. *)
Definition get_stats (t : FlowTable) (h : ConnHandle) (send_buffer_bytes : Z) : option ConnStats :=
  (fun c => stats c send_buffer_bytes) <$> ft_get t h.

Definition dpdk_net_conn_stats (p : Ptr) (conn : Z) (out : Ptr) : M (Z * option ConnStats) :=
  if is_null p || is_null out then mret (- EINVAL, None) else
  t ← get eg_flow_table;
  mret match get_stats t (conn_handle conn) send_buffer_bytes with
       | Some s => (0, Some s)
       | None => (- ENOENT, None)
       end.

Definition dpdk_net_conn_rtt_histogram (p : Ptr) (conn : Z) (out : Ptr) : M (Z * option (list Z)) :=
  if is_null p || is_null out then mret (- EINVAL, None) else
  oc ← get_conn (conn_handle conn);
  mret match oc with
       | Some c => (0, Some (c_rtt_histogram c))
       | None => (- ENOENT, None)
       end.

Definition dpdk_net_now_ns : M Z := ask pl_now.
End CApi.

Definition dpdk_net_rx_mempool_size (p : Ptr) (st : Started) : Z :=
  if is_null p then U32_MAX else sd_rx_mempool_size st.

(** The snapshots of [counters.eth]; [None] is a panic. *)
Definition dpdk_net_scrape_xstats (p : Ptr) (ids : list (option Z)) (get_by_id : list Z -> Z * list Z) (c : EniCounters)
    : option (Z * EniCounters) :=
  if is_null p then Some (- EINVAL, c) else c' ← scrape ids get_by_id c; Some (0, c').

(** ** Calls without an engine *)

(** The code and the bytes written to [out], the terminating NUL included. *)
Definition dpdk_net_recommended_ena_devargs (bdf : option (list Z)) (large_llq_hdr miss_txc_to_sec : Z) (out : Ptr)
    (out_cap : Z) : Z * list Z :=
  match bdf with
  | None => (- EINVAL, [])
  | Some bdf =>
      if is_null out then (- EINVAL, []) else
      if 60 <? miss_txc_to_sec then (- ERANGE, []) else
      if negb (utf8_valid bdf) then (- EINVAL, []) else
      let s := bdf ++ (if large_llq_hdr =? 0 then [] else txt ",large_llq_hdr=1") ++
               (if miss_txc_to_sec =? 0 then [] else txt ",miss_txc_to=" ++ show 10 miss_txc_to_sec) in
      if out_cap <? zlen s + 1 then (- ENOSPC, []) else
      (as_i32 (u32 (zlen s)), s ++ [0])
  end.

(** [arp_file] and [route_file] are the contents of the files, [None] when unreadable. *)
Definition dpdk_net_resolve_gateway_mac (arp_file : option text) (gateway_ip : Z) (out_mac : Ptr) : Z * option (list Z) :=
  if is_null out_mac then (- EINVAL, None) else
  match resolve_from_proc_arp arp_file gateway_ip with
  | Ok mac => (0, Some mac)
  | Err (GatewayMacNotFound _) => (- ENOENT, None)
  | Err _ => (- EIO, None)
  end.

Definition dpdk_net_read_default_gateway_ip (route_file : option text) (iface : option (list Z)) (out_ip : Ptr)
    : Z * option Z :=
  if is_null out_ip then (- EINVAL, None) else
  if match iface with Some s => negb (utf8_valid s) | None => false end then (- EINVAL, None) else
  match read_default_gateway_ip route_file iface with
  | Ok ip => (0, Some ip)
  | Err (GatewayIpNotFound _) => (- ENOENT, None)
  | Err _ => (- EIO, None)
  end.

(** ** Sessions of calls *)

(** A call on an engine, the first argument being its pointer. *)
Inductive CCall :=
  | CPoll (burst : list RxPacket) (events_out : Ptr) (max_events timeout_ns : Z)
  | CConnect (opts : option dpdk_net_connect_opts_t) (out : Ptr)
  | CSend (conn : Z) (buf : option (list Z)) (len : Z)
  | CClose (conn flags : Z)
  | CShutdown (conn how : Z)
  | CFlush
  | CTimerAdd (deadline_ns user_data : Z) (out : Ptr)
  | CTimerCancel (timer_id : Z)
  | CAddLocalIp (local_addr_nbo : Z)
  | CConnStats (conn : Z) (out : Ptr)
  | CRttHistogram (conn : Z) (out : Ptr)
  | CNowNs.

Definition run_ccall `{Platform} `{EngineConfig} (pc : Ptr * CCall) : M unit :=
  let '(p, c) := pc in
  match c with
  | CPoll burst out max t => dpdk_net_poll burst p out max t ;; skip
  | CConnect opts out => dpdk_net_connect p opts out ;; skip
  | CSend conn buf len => dpdk_net_send p conn buf len ;; skip
  | CClose conn flags => dpdk_net_close p conn flags ;; skip
  | CShutdown conn how => dpdk_net_shutdown p conn how ;; skip
  | CFlush => dpdk_net_flush p
  | CTimerAdd d u out => dpdk_net_timer_add p d u out ;; skip
  | CTimerCancel id => dpdk_net_timer_cancel p id ;; skip
  | CAddLocalIp ip => dpdk_net_engine_add_local_ip p ip ;; skip
  | CConnStats conn out => dpdk_net_conn_stats p conn out ;; skip
  | CRttHistogram conn out => dpdk_net_conn_rtt_histogram p conn out ;; skip
  | CNowNs => dpdk_net_now_ns ;; skip
  end.

(** [dpdk_net_engine_destroy], on the engine. *)
Definition dpdk_net_engine_destroy (p : Ptr) : M unit := if is_null p then skip else engine_drop.

Definition ccall_ok `{Platform} (pc : Ptr * CCall) : Prop :=
  match pc with (NonNull, CPoll burst _ _ _) => Forall packet_ok burst | _ => True end.

(** The references to [m] that come with a call. *)
Definition ccall_arrives `{Platform} (m : MbufId) (pc : Ptr * CCall) : Z :=
  match pc with (NonNull, CPoll burst _ _ _) => zsum (arrives m) burst | _ => 0 end.

Section Sessions.
Context `{Platform} `{EngineConfig}.

(** A call that only asks and answers. *)
Lemma safe_answer {A B} (m : M A) (k : A -> B) : safe None m -> safe None (x ← m; mret (k x)).
Proof. intros Hm. apply safe_bind; [done|]. intros x. apply safe_ret. Qed.

Lemma poll_ccall_good L burst p out max t : config_ok -> ccall_ok (p, CPoll burst out max t) ->
  triple (good None L) (dpdk_net_poll burst p out max t)
    (fun _ => good None (fun m => L m + ccall_arrives m (p, CPoll burst out max t))).
Proof.
  intros [Hm Hs Hr] Hc. unfold dpdk_net_poll. destruct p; cbn [is_null ccall_arrives].
  - intros e He. eexists _, e. split; [reflexivity|]. eapply good_ledger; [|exact He]. intros m. lia.
  - eapply triple_bind; [by apply poll_good|]. intros n.
    eapply (triple_pre (good None (fun m => L m + zsum (arrives m) burst))); [by intros e [He _]|].
    destruct (_ || _); [apply triple_ret|]. apply safe_answer. by apply safe_drain.
Qed.

Lemma send_ccall_good L p conn buf len : config_ok ->
  triple (good None L) (dpdk_net_send p conn buf len) (fun _ => good None L).
Proof.
  intros [Hm Hs Hr]. unfold dpdk_net_send. destruct (is_null p); [apply triple_ret|].
  destruct (_ && _); [apply triple_ret|]. cbv zeta. set (slice := if len =? 0 then [] else _). eapply triple_bind.
  - intros e He. destruct (send_good Hm Hs L (conn_handle conn) slice _ e (conj He eq_refl)) as (r & e' & E & He' & _).
    exists r, e'. split; [exact E|]. exact He'.
  - intros r. apply triple_ret.
Qed.

Lemma safe_ccall pc : config_ok ->
  match pc.2 with CPoll _ _ _ _ | CSend _ _ _ => True | _ => safe None (run_ccall pc) end.
Proof.
  intros [Hm Hs Hr]. destruct pc as [p c]. cbn [snd]. destruct c; cbn [run_ccall]; try done.
  - apply safe_bind; [|intros; apply safe_ret]. unfold dpdk_net_connect. destruct opts as [o|]; [|apply safe_ret].
    destruct (_ || _); [apply safe_ret|]. destruct (validate_and_defaults_tlp_opts o); [|apply safe_ret].
    apply safe_answer. by apply safe_connect.
  - apply safe_bind; [|intros; apply safe_ret]. unfold dpdk_net_close. destruct (is_null p); [apply safe_ret|].
    apply safe_answer. by apply safe_close_flags.
  - apply safe_bind; [|intros; apply safe_ret]. unfold dpdk_net_shutdown, dpdk_net_close.
    destruct (how =? _); [|destruct (_ || _); apply safe_ret]. destruct (is_null p); [apply safe_ret|].
    apply safe_answer. by apply safe_close_flags.
  - unfold dpdk_net_flush. destruct (is_null p); [apply safe_ret|apply safe_drain_tx].
  - apply safe_bind; [|intros; apply safe_ret]. unfold dpdk_net_timer_add. destruct (_ || _); [apply safe_ret|].
    apply safe_answer. apply safe_timer_add.
  - apply safe_bind; [|intros; apply safe_ret]. unfold dpdk_net_timer_cancel. destruct (is_null p); [apply safe_ret|].
    apply safe_answer. apply safe_timer_cancel.
  - apply safe_bind; [|intros; apply safe_ret]. unfold dpdk_net_engine_add_local_ip. destruct (is_null p); [apply safe_ret|].
    cbv zeta. destruct (_ =? 0); [apply safe_ret|]. destruct (_ =? local_ip); [apply safe_ret|].
    apply safe_answer. apply safe_add_ip.
  - apply safe_bind; [|intros; apply safe_ret]. unfold dpdk_net_conn_stats. destruct (_ || _); [apply safe_ret|].
    apply safe_answer. eauto with safe.
  - apply safe_bind; [|intros; apply safe_ret]. unfold dpdk_net_conn_rtt_histogram. destruct (_ || _); [apply safe_ret|].
    apply safe_answer. eauto with safe.
  - apply safe_answer. apply safe_ask.
Qed.

Lemma run_ccall_good L pc : config_ok -> ccall_ok pc ->
  triple (good None L) (run_ccall pc) (fun _ => good None (fun m => L m + ccall_arrives m pc)).
Proof.
  intros Hcfg Hc. pose proof (safe_ccall pc Hcfg) as Hs.
  assert (Hz : safe None (run_ccall pc) -> (forall m, ccall_arrives m pc = 0) ->
    triple (good None L) (run_ccall pc) (fun _ => good None (fun m => L m + ccall_arrives m pc))).
  { intros H' Hz. eapply triple_conseq; [intros e He; exact He| |apply H']. intros ? e He.
    eapply good_ledger; [|exact He]. intros m. rewrite Hz. lia. }
  destruct pc as [p c]. destruct c; try (apply Hz; [exact Hs|by destruct p]).
  - cbn [run_ccall]. eapply triple_bind; [by apply poll_ccall_good|]. intros ?. apply triple_ret.
  - apply Hz; [|by destruct p]. intros L'. cbn [run_ccall].
    eapply triple_bind; [by apply send_ccall_good|]. intros ?. apply triple_ret.
Qed.

Lemma run_ccalls_good calls : config_ok -> Forall ccall_ok calls -> forall L,
  triple (good None L) (for_each calls run_ccall) (fun _ => good None (fun m => L m + zsum (ccall_arrives m) calls)).
Proof. intros Hcfg Hf. apply for_each_good with (2 := Hf). intros x L Hx. by apply run_ccall_good. Qed.
End Sessions.

(** ** Validation *)

(** A configuration of the machine's types; the send buffer is below 2 GiB. *)
Record cconfig_ok (c : dpdk_net_engine_config_t) : Prop := {
  cc_conns : is_u32 (ccfg_max_connections c);
  cc_recv : is_u32 (ccfg_recv_buffer_bytes c);
  cc_send : 0 <= ccfg_send_buffer_bytes c < two31;
  cc_gateway : length (ccfg_gateway_mac c) = 6%nat
}.

Lemma or_default_range v d lo hi : lo <= v < hi -> lo <= d < hi -> lo <= or_default v d < hi.
Proof. unfold or_default. destruct (v =? 0); lia. Qed.

Lemma checked_config_inv lcore c core : checked_config lcore (Some c) = Some core ->
  64 <= cfg_event_queue_soft_cap core /\
  exists pre, apply_preset (ccfg_preset c) pre = Some core /\
    pre = core_config lcore (cfg_event_queue_soft_cap core) c.
Proof.
  unfold checked_config. cbn [mbind option_bind]. destruct (_ <? 64) eqn:E; [done|]. breflect. intros Hp.
  assert (cfg_event_queue_soft_cap core = or_default (ccfg_event_queue_soft_cap c) 4096) as ->.
  { unfold apply_preset in Hp. destruct (_ =? _); [by injection Hp as <-|]. destruct (_ =? _); [by injection Hp as <-|done]. }
  split; [done|]. eauto.
Qed.

(** What survives the zero substitution and the preset. *)
Lemma checked_config_ok `{Bringup} lcore c core : cconfig_ok c -> length (snd bu_macaddr) = 6%nat ->
  checked_config lcore (Some c) = Some core ->
  core_ok core /\ cfg_port_id core = ccfg_port_id c /\ is_Some (with_cap (cfg_event_queue_soft_cap core)).
Proof.
  intros [H1 H2 H3 H4] Hm Hc. destruct (checked_config_inv _ _ _ Hc) as (Hcap & pre & Hp & ->).
  remember (cfg_event_queue_soft_cap core) as cap eqn:Ecap. clear Ecap Hc.
  assert (forall v d, is_u32 v -> is_u32 d -> is_u32 (or_default v d)) as Hd by (intros; by apply or_default_range).
  assert (core_ok (core_config lcore cap c)) as Hk.
  { split; cbn [core_config cfg_max_connections cfg_recv_buffer_bytes cfg_send_buffer_bytes cfg_gateway_mac];
      [apply Hd; [done|width_lia]|apply Hd; [done|width_lia]|apply or_default_range; [done|width_lia]|done|done]. }
  split; [|split].
  - unfold apply_preset in Hp. destruct (_ =? _); [by injection Hp as <-|].
    destruct (_ =? _); [|done]. injection Hp as <-. destruct Hk. by split.
  - unfold apply_preset in Hp. destruct (_ =? _); [by injection Hp as <-|]. destruct (_ =? _); [by injection Hp as <-|done].
  - unfold with_cap, MIN_SOFT_CAP. destruct (Z.leb_spec 64 cap); [by eexists|lia].
Qed.

(** Creation returns; a null return leaves no pool behind. *)
Lemma create_returns `{Bringup} feat lcore c mem : cconfig_ok c -> length (snd bu_macaddr) = 6%nat ->
  exists r tr, dpdk_net_engine_create feat lcore (Some c) mem [] = (Some r, tr) /\
    match r with
    | Some st => exists core, core_ok core /\ cfg_port_id core = ccfg_port_id c /\
        checked_config lcore (Some c) = Some core /\ engine_create feat core mem [] = (Ok (Some st), tr)
    | None => freed tr = rev (fst <$> created tr)
    end.
Proof.
  intros Hc Hm. unfold dpdk_net_engine_create. destruct (checked_config lcore (Some c)) as [core|] eqn:Ec.
  - destruct (checked_config_ok _ _ _ Hc Hm Ec) as (Hk & Hport & Hcap).
    destruct (engine_create_emits feat core mem []) as (r & l & E & Hl). rewrite E.
    destruct r as [[st|]|e]; [| |eexists None, _; split; [reflexivity|apply Hl]].
    + eexists (Some st), _. split; [reflexivity|]. exists core. by rewrite E.
    + destruct Hl as (_ & _ & _ & _ & _ & Hl). rewrite Hl in Hcap. by destruct Hcap.
  - by eexists None, [].
Qed.

(** ** Draining *)

Lemma drain_events_spec n : forall e, exists e', drain_events n e = Some (take n (eq_q (eg_events e)), e') /\
  eq_q (eg_events e') = drop n (eq_q (eg_events e)) /\ eg_drained e' = eg_drained e ++ take n (eq_q (eg_events e)) /\
  eg_flow_table e' = eg_flow_table e /\ eg_rx_ops e' = eg_rx_ops e.
Proof.
  induction n as [|n IH]; intros e; cbn [drain_events].
  - exists e. rewrite app_nil_r. by split_and!.
  - unfold mbind at 1, M_bind at 1, event_pop. destruct (eq_q (eg_events e)) as [|ev q] eqn:Eq.
    + exists (e <| eg_events := eg_events e |>). rewrite app_nil_r. by split_and!.
    + set (e1 := e <| eg_events ::= fun q0 => q0 <| eq_q := q |> |> <| eg_drained ::= fun l => l ++ [ev] |>).
      destruct (IH e1) as (e' & E & H1 & H2 & H3 & H4). exists e'. split_and!; [|exact H1| |exact H3|exact H4].
      * change (match drain_events n e1 with Some (a, e2) => Some (ev :: a, e2) | None => None end =
          Some (take (S n) (ev :: q), e')). by rewrite E.
      * rewrite H2. subst e1. cbn [field_set eg_drained eg_events eq_q take]. by rewrite <- app_assoc.
Qed.

Lemma as_i32_u32 z : 0 <= z < two31 -> as_i32 (u32 z) = z.
Proof. intros Hz. rewrite u32_id by width_lia. unfold as_i32. case_tests; breflect; width_lia. Qed.

(** ** Properties *)



(** What validation leaves of the probe options. *)
Definition tlp_in_range `{EngineConfig} (floor multiplier probes : Z) : Prop :=
  100 <= multiplier <= 200 /\ 1 <= probes <= 5 /\ (floor = U32_MAX \/ floor <= tcp_max_rto_us).

Lemma tlp_opts_valid `{EngineConfig} o o' : validate_and_defaults_tlp_opts o = Ok o' ->
  tlp_in_range (cop_tlp_pto_min_floor_us o') (cop_tlp_pto_srtt_multiplier_x100 o') (cop_tlp_max_consecutive_probes o') /\
  cop_peer_addr o' = cop_peer_addr o /\ cop_peer_port o' = cop_peer_port o /\ cop_local_port o' = cop_local_port o /\
  cop_local_addr o' = cop_local_addr o /\
  (cop_tlp_pto_min_floor_us o' = 0 -> tcp_min_rto_us = 0).
Proof.
  unfold validate_and_defaults_tlp_opts. cbv zeta. set (o1 := o <| cop_tlp_pto_srtt_multiplier_x100 := _ |> <| cop_tlp_max_consecutive_probes := _ |> <| cop_tlp_pto_min_floor_us := _ |>).
  case_match eqn:E1; [done|]. case_match eqn:E2; [done|]. case_match eqn:E3; [done|]. intros [= <-].
  apply negb_false_iff, andb_true_iff in E1 as [? ?]. apply negb_false_iff, andb_true_iff in E2 as [? ?].
  apply andb_false_iff in E3. rewrite negb_false_iff in E3. breflect.
  split; [split_and!; [lia..|]|split_and!; try done].
  - destruct E3; breflect; [by left|right; lia].
  - subst o1. cbn [field_set cop_tlp_pto_min_floor_us]. unfold or_default. destruct (Z.eqb_spec (cop_tlp_pto_min_floor_us o) 0); [done|lia].
Qed.

Lemma tlp_opts_refused `{EngineConfig} o rc : validate_and_defaults_tlp_opts o = Err rc -> rc = - EINVAL.
Proof.
  unfold validate_and_defaults_tlp_opts. cbv zeta. repeat case_match; by intros [= <-].
Qed.

(** C30. Connecting through the C interface (dpdk_net_connect): the call returns and either
    writes a handle and returns 0, the handle having been free and now leading to a
    connection in SYN_SENT to the address and port given in network byte order, whose probe
    parameters are all in the documented ranges, or writes nothing and returns one of
    -EINVAL, -EMFILE and -EHOSTUNREACH, never -EIO, with every connection as it was. *)
Theorem c_connect_exact `{Platform} `{EngineConfig} (opts : dpdk_net_connect_opts_t) (e : Engine) :
  config_ok -> engine_ok e -> tcp_min_rto_us <= tcp_max_rto_us ->
  exists rc oh e', dpdk_net_connect NonNull (Some opts) NonNull e = Some ((rc, oh), e') /\ engine_ok e' /\
    match oh with
    | Some h => rc = 0 /\ is_u32 h /\ ft_get (eg_flow_table e) h = None /\
        beside h (eg_flow_table e) (eg_flow_table e') /\
        exists c, ft_get (eg_flow_table e') h = Some c /\ c_state c = SynSent /\
          ft_peer_ip (c_four_tuple c) = swap_bytes (cop_peer_addr opts) /\
          ft_peer_port (c_four_tuple c) = from_be16 (cop_peer_port opts) /\
          tlp_in_range (c_tlp_pto_min_floor_us c) (c_tlp_pto_srtt_multiplier_x100 c) (c_tlp_max_consecutive_probes c)
    | None => rc ∈ [- EINVAL; - EMFILE; - EHOSTUNREACH] /\
        forall h, is_u32 h -> ft_get (eg_flow_table e') h = ft_get (eg_flow_table e) h
    end.
Proof.
  intros [Hm _ Hr] He Hrto. unfold dpdk_net_connect. cbn [is_null orb].
  destruct (validate_and_defaults_tlp_opts opts) as [o|rc] eqn:Ev.
  2: { apply tlp_opts_refused in Ev as ->. exists (- EINVAL), None, e. split_and!; [done|done|set_solver|done]. }
  destruct (tlp_opts_valid _ _ Ev) as (Hv & P1 & P2 & _ & _ & Hfl).
  set (ip := swap_bytes _). set (port := from_be16 (cop_peer_port o)). set (hint := from_be16 _). set (co := core_connect_opts o).
  destruct (safe_connect Hm Hr ip port hint co (fun m => ledger m e) e) as (r & e' & E & He' & _); [by split|].
  pose proof (connect_run ip port hint co e r e' (iv_table _ _ He) E) as Hrun. unfold mbind, M_bind. rewrite E.
  destruct r as [h|err].
  - exists 0, (Some h), e'. split; [done|]. split; [done|]. destruct Hrun as (H1 & H2 & H3 & c & Hg & Ho). split_and!; try done.
    exists c. destruct Ho as [O1 _ _ _ [O2 O3] _ _ O4 O5 O6]. rewrite O2, O3, O4, O5, O6. subst ip port co. rewrite P1, P2.
    split_and!; try done. destruct Hv as (V1 & V2 & V3). unfold core_connect_opts.
    cbn [co_tlp_pto_min_floor_us co_tlp_pto_srtt_multiplier_x100 co_tlp_max_consecutive_probes].
    rewrite (proj2 (Z.eqb_neq (cop_tlp_pto_srtt_multiplier_x100 o) 0)), (proj2 (Z.eqb_neq (cop_tlp_max_consecutive_probes o) 0)) by lia.
    split_and!; try lia. destruct (Z.eqb_spec (cop_tlp_pto_min_floor_us o) 0) as [Ez|_]; [right; lia|exact V3].
  - destruct Hrun as [H1 H2].
    destruct H1 as [->|[(-> & _)|(-> & _)]]; (eexists _, None, e'; split; [reflexivity|]; split; [exact He'|]; split; [set_solver|exact H2]).
Qed.

(** Sending through the C interface (dpdk_net_send): the result is the number of bytes
    taken, between 0 and [len] and never wrapped to a negative number, exactly by which the
    connection's next sequence number has advanced, or -ENOTCONN for a handle that does
    not name an established connection, -ENOMEM when the first packet could not be had, or
    -EINVAL for a null pointer; never -EIO. *)
Theorem c_send_exact `{Platform} `{EngineConfig} (p : Ptr) (conn : Z) (buf : option (list Z)) (len : Z) (e : Engine) :
  config_ok -> engine_ok e -> 0 <= len < two31 ->
  match buf with Some b => len <= zlen b | None => True end ->
  exists rc e', dpdk_net_send p conn buf len e = Some (rc, e') /\ engine_ok e' /\
    if is_null p || ((0 <? len) && match buf with None => true | Some _ => false end) then rc = - EINVAL /\ e' = e
    else match ft_get (eg_flow_table e) (conn_handle conn) with
         | Some c =>
             if bool_decide (c_state c = Established)
             then (0 <= rc <= len /\ sent_state (conn_handle conn) c rc e') \/
                  (rc = - ENOMEM /\ sent_state (conn_handle conn) c 0 e')
             else rc = - ENOTCONN
         | None => rc = - ENOTCONN
         end.
Proof.
  intros [Hm Hs Hr] He Hlen Hbuf. unfold dpdk_net_send. destruct (is_null p); cbn [orb]; [by exists (- EINVAL), e|].
  destruct (_ && _) eqn:En; [by exists (- EINVAL), e|]. cbv zeta. set (slice := if len =? 0 then [] else _).
  assert (zlen slice = len) as El.
  { subst slice. destruct (Z.eqb_spec len 0) as [->|Hnz]; [done|]. apply andb_false_iff in En as [En|En]; [breflect; lia|].
    destruct buf as [b|]; [|done]. cbn [default id]. unfold zlen in *. rewrite length_take. lia. }
  destruct (send_good Hm Hs (fun m => ledger m e) (conn_handle conn) slice _ e (conj (conj He (fun _ => eq_refl)) eq_refl))
    as (r & e' & E & [He' _] & Ho). unfold mbind, M_bind. rewrite E. eexists _, e'. split; [reflexivity|]. split; [done|].
  rewrite El in Ho. unfold send_outcome in Ho. destruct (ft_get (eg_flow_table e) (conn_handle conn)) as [c|]; [|by subst r].
  destruct (bool_decide _); [|by subst r]. cbv zeta in Ho. destruct Ho as [Ho _]. destruct r as [n|err].
  - left. destruct Ho as [Hn Hst]. assert (as_i32 n = n) as ->.
    { rewrite <- (u32_id n) at 1 by width_lia. apply as_i32_u32. lia. }
    split; [lia|done].
  - right. destruct Ho as [-> Hst]. done.
Qed.

(** ** Statistics *)

(** The snapshot of a live connection never shows anything pending: the send queue it
    reads is never filled, so the free room is the whole buffer whatever is in flight. *)
Lemma conn_stats_ignore_flight `{Platform} `{EngineConfig} (conn : Z) (c : TcpConn) (e : Engine) :
  config_ok -> engine_ok e -> ft_get (eg_flow_table e) (conn_handle conn) = Some c ->
  exists s, dpdk_net_conn_stats NonNull conn NonNull e = Some ((0, Some s), e) /\
    cs_snd_una s = c_snd_una c /\ cs_snd_nxt s = c_snd_nxt c /\
    cs_send_buf_bytes_pending s = 0 /\ cs_send_buf_bytes_free s = send_buffer_bytes.
Proof.
  intros [_ Hs _] He Hg. exists (stats c send_buffer_bytes). split.
  { unfold dpdk_net_conn_stats, mbind, M_bind, get, get_stats. cbn [is_null orb]. by rewrite Hg. }
  assert (conn_base c) as Hb by (apply ft_get_some in Hg as [_ Hg]; by eapply (iv_base _ _ He)).
  unfold stats. rewrite (cb_idle _ Hb). split_and!; try done. cbn [cs_send_buf_bytes_free].
  change (u32 (zlen [])) with 0. unfold sat_sub. lia.
Qed.

(** A handle of 64 bits is cut to 32: [2^32 + h] names the connection of [h]. *)
Lemma wide_handle_aliases `{Platform} `{EngineConfig} (p : Ptr) (h : Z) (buf : option (list Z)) (len : Z) : is_u32 h ->
  dpdk_net_send p (h + two32) buf len = dpdk_net_send p h buf len.
Proof.
  intros Hh. unfold dpdk_net_send, conn_handle. replace (u32 (h + two32)) with (u32 h); [done|].
  unfold u32. by rewrite <- (Z_mod_plus_full h 1 two32), Z.mul_1_l.
Qed.

(** ** Timers *)

(** The wheel's slots as the timer calls use them. *)
Record slots_ok (w : TimerWheel) : Prop := {
  so_free : Forall (fun s => (s < length (slots w))%nat) (free_list w);
  so_gens : length (generations w) = length (slots w);
  so_range : Forall is_u32 (generations w);
  so_count : Z.of_nat (length (slots w)) < two32 - 1
}.

Lemma push_bucket_slots l b s w : slots (push_bucket l b s w) = slots w.
Proof. reflexivity. Qed.

Lemma add_slot now n w w' id : slots_ok w -> add now n w = (w', id) ->
  slot w' (ti_slot id) = Some (n <| tn_generation := ti_generation id |> <| cancelled := false |>) /\
  Z.of_nat (ti_slot id) < two32 /\ is_u32 (ti_generation id).
Proof.
  intros [Hf Hg Hr Hc]. unfold add. destruct (level_and_bucket_offset _) as [lv off].
  destruct (free_list w) as [|s free] eqn:Ef.
  - intros E. injection E as <- <-. unfold slot. rewrite push_bucket_slots. cbn [field_set slots generations ti_slot ti_generation].
    rewrite list_lookup_insert_eq by (rewrite length_app; cbn; lia). split; [done|]. split; [width_lia|].
    rewrite lookup_app_r, Hg, Nat.sub_diag by lia. cbn. width_lia.
  - apply Forall_cons in Hf as [Hs _]. intros E. injection E as <- <-. unfold slot. rewrite push_bucket_slots.
    cbn [field_set slots generations ti_slot ti_generation]. rewrite list_lookup_insert_eq by done.
    split; [done|]. split; [width_lia|]. rewrite list_lookup_insert_eq by lia. apply wadd32_range.
Qed.

Lemma cancel_twice id n w : slot w (ti_slot id) = Some n -> tn_generation n = ti_generation id -> cancelled n = false ->
  exists w', cancel id w = (true, w') /\ cancel id w' = (false, w').
Proof.
  intros Hs Hg Hc. unfold cancel at 1. rewrite Hs, Hg, Hc, Z.eqb_refl. cbn [negb andb]. eexists. split; [reflexivity|].
  unfold cancel. set (w' := w <| slots ::= _ |>).
  assert (slot w' (ti_slot id) = Some (n <| cancelled := true |>)) as ->.
  { unfold slot, w'. cbn [field_set slots]. rewrite list_lookup_insert_eq; [done|].
    unfold slot in Hs. destruct (slots w !! ti_slot id) eqn:E; [by apply lookup_lt_Some in E|done]. }
  cbn [field_set tn_generation cancelled negb]. by rewrite andb_false_r.
Qed.

Lemma timer_cancel_run `{Platform} `{EngineConfig} id e b w :
  cancel (unpack_timer_id id) (eg_timer_wheel e) = (b, w) ->
  dpdk_net_timer_cancel NonNull id e = Some (if b then 0 else - ENOENT, e <| eg_timer_wheel := w |>).
Proof.
  intros E. unfold dpdk_net_timer_cancel, public_timer_cancel, wheel_cancel, mbind, M_bind. cbn [is_null]. by rewrite E.
Qed.

(** Timer handles (dpdk_net_timer_add, dpdk_net_timer_cancel): the 64-bit handle that
    arming a timer writes names that timer: cancelling it at once succeeds, cancelling it again
    is -ENOENT, and the event of the timer carries the same handle and the caller's
    user data. *)
Theorem c_timer_roundtrip `{Platform} `{EngineConfig} (deadline_ns user_data emitted : Z) (e : Engine) :
  slots_ok (eg_timer_wheel e) ->
  exists id e1 e2, dpdk_net_timer_add NonNull deadline_ns user_data NonNull e = Some ((0, Some id), e1) /\
    is_u64 id /\
    dpdk_net_timer_cancel NonNull id e1 = Some (0, e2) /\
    dpdk_net_timer_cancel NonNull id e2 = Some (- ENOENT, e2) /\
    event_out (EvApiTimer (unpack_timer_id id) user_data emitted) = mkEventC EVT_TIMER 0 0 emitted (PlTimer id user_data).
Proof.
  intros Hok. unfold dpdk_net_timer_add, public_timer_add, wheel_add. cbn [is_null orb].
  set (n := mkTimerNode _ _ _ _ _ _). set (now := pl_now (eg_step e)).
  destruct (add now n (eg_timer_wheel e)) as [w id] eqn:Ea.
  destruct (add_slot _ _ _ _ _ Hok Ea) as (Hslot & Hs & Hg).
  destruct (cancel_twice id _ w Hslot eq_refl eq_refl) as (w2 & C1 & C2).
  set (e1 := (e <| eg_step ::= S |>) <| eg_timer_wheel := w |>).
  exists (pack_timer_id id), e1, (e1 <| eg_timer_wheel := w2 |>). split_and!.
  - unfold mbind, M_bind, ask. cbn [field_set eg_timer_wheel]. change (pl_now (eg_step e)) with now. rewrite Ea. reflexivity.
  - by apply pack_range.
  - apply (timer_cancel_run _ _ true). rewrite pack_unpack by done. exact C1.
  - rewrite (timer_cancel_run _ (e1 <| eg_timer_wheel := w2 |>) false w2); [done|]. rewrite pack_unpack by done. exact C2.
  - unfold event_out, build_event_from_internal. by rewrite pack_unpack.
Qed.

(** ** Start-up calls *)

(** A C string never holds a NUL, so the argument check of [eal_init] cannot fail here:
    the arguments reach DPDK in order, followed by the log level. *)
Lemma eal_init_codes argc argv rte s : 0 <= argc -> Forall (fun p => forall b, p = Some b -> free_of (Z.eqb 0) b) argv ->
  let args := map (fun p => match p with Some b => to_string_lossy b | None => [] end) (take (Z.to_nat argc) argv) ++ [LLQ_LOG_LEVEL] in
  (dpdk_net_eal_init false argc (Some argv) rte s).1 =
    if eal_done s || (0 <=? ea_rc (rte args)) then 0 else - EAGAIN.
Proof.
  intros Ha Hargv args. unfold dpdk_net_eal_init. destruct (Z.ltb_spec argc 0); [lia|]. unfold eal_init.
  destruct (eal_done s); cbn [orb]; [done|]. fold args.
  assert (existsb has_nul args = false) as ->.
  { apply not_true_iff_false. rewrite existsb_exists. intros (a & Hin & Hn). apply list_elem_of_In in Hin.
    unfold args in Hin. apply elem_of_app in Hin as [Hin|Hin]; [|apply list_elem_of_singleton in Hin as ->; vm_compute in Hn; discriminate].
    apply list_elem_of_fmap in Hin as (p & -> & Hp). destruct p as [b|]; [|done].
    assert (free_of (Z.eqb 0) (to_string_lossy b)) as Hf.
    { apply lossy_free; [by repeat constructor|]. apply Forall_take with (n := Z.to_nat argc) in Hargv.
      rewrite Forall_forall in Hargv. by eapply Hargv. }
    unfold has_nul in Hn. apply existsb_exists in Hn as (z & Hz & E). apply list_elem_of_In in Hz.
    unfold free_of in Hf. rewrite Forall_forall in Hf. rewrite (Hf z Hz) in E. done. }
  cbv zeta. rewrite Z.leb_antisym. by destruct (ea_rc (rte args) <? 0).
Qed.

(** The devargs string fits the buffer with its terminator, which is its only NUL. *)
Lemma devargs_written bdf large miss cap rc out : 0 <= cap < two31 -> 0 <= miss -> free_of (Z.eqb 0) bdf ->
  dpdk_net_recommended_ena_devargs (Some bdf) large miss NonNull cap = (rc, out) -> 0 <= rc ->
  exists s, out = s ++ [0] /\ rc = zlen s /\ zlen out <= cap /\ free_of (Z.eqb 0) s /\ (exists rest, s = bdf ++ rest).
Proof.
  intros Hcap Hmiss Hf. unfold dpdk_net_recommended_ena_devargs. cbn [is_null].
  destruct (60 <? miss) eqn:Em; [intros [= <- <-]; unfold ERANGE; lia|].
  destruct (negb (utf8_valid bdf)); [intros [= <- <-]; unfold EINVAL; lia|]. cbv zeta.
  set (rest := (if large =? 0 then [] else _) ++ _). destruct (cap <? zlen (bdf ++ rest) + 1) eqn:Ec; [intros [= <- <-]; unfold ENOSPC; lia|].
  breflect. intros [= <- <-] _. pose proof (zlen_nonneg (bdf ++ rest)). rewrite as_i32_u32 by lia.
  exists (bdf ++ rest). split_and!; [done|done|rewrite zlen_app; change (zlen [0]) with 1; lia| |by exists rest].
  apply free_of_app. split; [done|]. apply free_of_app. split; [destruct (large =? 0); by repeat constructor|].
  destruct (miss =? 0); [constructor|]. apply free_of_app. split; [by repeat constructor|].
  apply free_of_show; [lia|done|]. intros c Hc _. apply Z.eqb_neq. lia.
Qed.

(** ** Concrete inputs *)

#[local] Existing Instances sample_platform plain_bringup.

Definition plain_ccfg : dpdk_net_engine_config_t := {|
  ccfg_port_id := 0; ccfg_rx_queue_id := 0; ccfg_tx_queue_id := 0; ccfg_max_connections := 2;
  ccfg_recv_buffer_bytes := 65535; ccfg_send_buffer_bytes := 65536; ccfg_tcp_mss := 0;
  ccfg_tcp_timestamps := false; ccfg_tcp_sack := true; ccfg_tcp_ecn := false; ccfg_tcp_nagle := false;
  ccfg_tcp_delayed_ack := false; ccfg_cc_mode := 0; ccfg_tcp_min_rto_us := 0; ccfg_tcp_initial_rto_us := 0;
  ccfg_tcp_max_rto_us := 0; ccfg_tcp_max_retrans_count := 3; ccfg_tcp_msl_ms := 10;
  ccfg_tcp_per_packet_events := true; ccfg_preset := 0; ccfg_local_ip := 0x0a000001; ccfg_gateway_ip := 0x0a000002;
  ccfg_gateway_mac := peer_mac; ccfg_garp_interval_sec := 0; ccfg_event_queue_soft_cap := 64;
  ccfg_rtt_histogram_bucket_edges_us := replicate 15 0; ccfg_ena_large_llq_hdr := 0; ccfg_ena_miss_txc_to_sec := 0;
  ccfg_rx_mempool_size := 0
|}.

(** 10.0.0.2, port 80, from port 4000, in network byte order. *)
Definition plain_copts : dpdk_net_connect_opts_t :=
  mkConnectOptsC 0x0200000a 0x5000 0 0xa00f 0 0 false false 0 150 false 0 false.

(** The sample session through the C calls, with a null pointer, a stale handle and a
    handle beyond 32 bits among them. *)
Definition plain_csession : list (Ptr * CCall) :=
  [(NonNull, CConnect (Some plain_copts) NonNull); (Null, CSend 1 None 5); (NonNull, CSend 9 (Some [1]) 1);
   (NonNull, CPoll [peer_frame 0x12 7000 (sample_iss + 1) [] 7] NonNull 4 0); (NonNull, CSend 1 (Some [1; 2; 3; 4; 5]) 5);
   (NonNull, CPoll [peer_frame 0x10 7001 (sample_iss + 6) [9; 8] 8] NonNull 4 0); (NonNull, CConnStats 1 NonNull);
   (NonNull, CShutdown 1 2); (NonNull, CFlush); (NonNull, CTimerAdd 5 6 NonNull)].

Definition ccall_okb (pc : Ptr * CCall) : bool :=
  match pc.2 with CPoll burst _ _ _ => forallb packet_okb burst | _ => true end.

Lemma ccalls_okb_sound calls : forallb ccall_okb calls = true -> Forall ccall_ok calls.
Proof.
  rewrite forallb_forall, List.Forall_forall. intros H pc Hin. specialize (H pc Hin). destruct pc as [[] []]; cbn in *; try done.
  assert (Forall call_ok [CallPoll burst]) as Hc by (apply calls_okb_sound; cbn; by rewrite H). by inversion Hc.
Qed.

Lemma plain_ccfg_ok : cconfig_ok plain_ccfg.
Proof. split; cbn; try done; width_lia. Qed.


#[local] Existing Instance sample_config.


Lemma c_connect_exact_witness :
  exists e', dpdk_net_connect NonNull (Some plain_copts) NonNull (engine_with (ft_new 2)) = Some ((0, Some 1), e') /\
    exists c, ft_get (eg_flow_table e') 1 = Some c /\ c_state c = SynSent /\ ft_peer_ip (c_four_tuple c) = 0x0a000002 /\
      ft_peer_port (c_four_tuple c) = 80 /\ 100 <= c_tlp_pto_srtt_multiplier_x100 c <= 200.
Proof.
  destruct (c_connect_exact plain_copts (engine_with (ft_new 2)) sample_config_ok engine_fresh_ok ltac:(vm_compute; discriminate))
    as (rc & oh & e' & E & _ & H).
  assert (rc = 0 /\ oh = Some 1) as [-> ->].
  { apply (f_equal (option_map fst)) in E. vm_compute in E. injection E as <- <-. split; reflexivity. }
  destruct H as (_ & _ & _ & _ & c & Hg & Hs & Hi & Hp & Hm & _). exists e'. split; [exact E|].
  exists c. split; [exact Hg|]. split; [exact Hs|]. split; [exact Hi|]. split; [exact Hp|exact Hm].
Defined.

Lemma c_send_exact_witness :
  exists e', dpdk_net_send NonNull 1 (Some (replicate 2000 7)) 2000 (engine_of sample_sender) = Some (900, e') /\ engine_ok e' /\
    sent_state 1 sample_sender 900 e'.
Proof.
  assert (engine_ok (engine_of sample_sender)) as He.
  { apply engine_of_ok; [by apply sample_base|]. apply (conn_ok_view sample_open); [reflexivity|apply sample_open_ok]. }
  destruct (c_send_exact NonNull 1 (Some (replicate 2000 7)) 2000 (engine_of sample_sender) sample_config_ok He
    ltac:(width_lia) ltac:(vm_compute; discriminate)) as (rc & e' & E & He' & H).
  assert (rc = 900) as ->.
  { apply (f_equal (option_map fst)) in E. vm_compute in E. injection E as <-. reflexivity. }
  exists e'. split; [exact E|]. split; [exact He'|]. destruct H as [[_ H]|[H _]]; [exact H|vm_compute in H; discriminate H].
Defined.

Lemma c_timer_roundtrip_witness :
  exists id e1 e2, dpdk_net_timer_add NonNull 5000000 77 NonNull (engine_with (ft_new 2)) = Some ((0, Some id), e1) /\
    dpdk_net_timer_cancel NonNull id e1 = Some (0, e2) /\ dpdk_net_timer_cancel NonNull id e2 = Some (- ENOENT, e2).
Proof.
  destruct (c_timer_roundtrip 5000000 77 0 (engine_with (ft_new 2))) as (id & e1 & e2 & E & _ & C1 & C2 & _).
  { split; cbn; [constructor|reflexivity|constructor|width_lia]. }
  exists id, e1, e2. split; [exact E|]. split; [exact C1|exact C2].
Defined.

(** With 100 bytes in flight the statistics still report an empty, fully free buffer. *)
Example stats_miss_flight :
  option_map (fun r => option_map (fun s => (cs_snd_nxt s - cs_snd_una s, cs_send_buf_bytes_pending s, cs_send_buf_bytes_free s)) r.1.2)
    (dpdk_net_conn_stats NonNull 1 NonNull (engine_of sample_sender)) = Some (Some (100, 0, 65536)).
Proof. vm_compute. reflexivity. Qed.
