(* ===== verification/Normalize.v ===== *)
(** * Capture normalisation: tools/bench-vs-linux/src/normalize.rs

    The wire comparison against Linux rewrites what two stacks choose freely - initial
    sequence numbers, timestamp bases, MAC addresses - to fixed values before it compares
    bytes.  One pass over the capture records the first sequence number and timestamp of
    each direction of each connection, a second rewrites.  A panic is [None]; the reader and
    writer of the capture format are another crate and are parameters. *)

From S2P Require Import Prelude.
From S2P Require Import Bytes.
From S2P Require Import Ip.

(** ** Options, errors and frames *)

Record CanonicalizationOptions := mkCanonicalizationOptions {
  canonical_iss : Z;
  canonical_ts_base : Z;
  canonical_src_mac : list Z;
  canonical_dst_mac : list Z
}.

Definition canon_default : CanonicalizationOptions :=
  mkCanonicalizationOptions 0x12345678 0xaabbccdd [2; 0; 0; 0; 0; 1] [2; 0; 0; 0; 0; 2].

(** [pcap] is the errors of the capture crate and of I/O. *)
Inductive CanonError (pcap : Type) :=
  | CePcap (e : pcap)
  | MalformedSackOption (body_len : nat).
Arguments CePcap {pcap} e.
Arguments MalformedSackOption {pcap} body_len.

(** [std::net::Ipv4Addr]: its four octets. *)
Abbreviation Ipv4Addr := (list Z).

Record FrameOffsets := mkFrameOffsets {
  fo_tcp_off : nat;
  fo_tcp_data_off : nat;
  fo_src_ip : Ipv4Addr;
  fo_src_port : Z;
  fo_dst_ip : Ipv4Addr;
  fo_dst_port : Z;
  fo_ip_total_len : nat;
  fo_flags : Z;
  fo_seq : Z;
  fo_ack : Z
}.

Definition TCP_FLAG_ACK : Z := 0x10.
Definition TCP_FLAG_SYN : Z := 0x02.

Definition parse_l2l3l4 (data : list Z) : option (option FrameOffsets) :=
  if (length data <? 14)%nat then Some None else
  ethertype ← read_be16 data 12;
  if negb (ethertype =? ETHERTYPE_IPV4) then Some None else
  if (length data <? 14 + 20)%nat then Some None else
  b0 ← data !! 14%nat;
  let ihl := (Z.to_nat (Z.land b0 0x0f) * 4)%nat in
  if ((ihl <? 20) || (length data <? 14 + ihl))%nat then Some None else
  proto ← data !! (14 + 9)%nat;
  if negb (proto =? IPPROTO_TCP) then Some None else
  src_ip ← get_slice (14 + 12) (14 + 16) data;
  dst_ip ← get_slice (14 + 16) (14 + 20) data;
  tl ← read_be16 data (14 + 2);
  let ip_total_len := Z.to_nat tl in
  if (length data <? 14 + ip_total_len)%nat then Some None else
  let tcp_off := (14 + ihl)%nat in
  if (length data <? tcp_off + 20)%nat then Some None else
  src_port ← read_be16 data tcp_off;
  dst_port ← read_be16 data (tcp_off + 2);
  d ← data !! (tcp_off + 12)%nat;
  let tcp_data_off := (Z.to_nat (Z.land (Z.shiftr d 4) 0x0f) * 4)%nat in
  if ((tcp_data_off <? 20) || (14 + ip_total_len <? tcp_off + tcp_data_off))%nat then Some None else
  flags ← data !! (tcp_off + 13)%nat;
  seq ← read_be32 data (tcp_off + 4);
  ack ← read_be32 data (tcp_off + 8);
  Some (Some (mkFrameOffsets tcp_off tcp_data_off src_ip src_port dst_ip dst_port ip_total_len flags seq ack)).

(** ** Connections and their state *)

Record ConnTuple := mkConnTuple { low_ip : Ipv4Addr; low_port : Z; high_ip : Ipv4Addr; high_port : Z }.
#[export] Instance ConnTuple_eq_dec : EqDecision ConnTuple.
Proof. solve_decision. Defined.
#[export] Instance ConnTuple_countable : Countable ConnTuple.
Proof.
  refine (inj_countable' (fun t => (low_ip t, low_port t, high_ip t, high_port t))
    (fun '(a, b, c, d) => mkConnTuple a b c d) _). by intros [].
Defined.

Record FlowKey := mkFlowKey { fk_tuple : ConnTuple; fk_instance : Z; fk_is_low : bool }.
#[export] Instance FlowKey_eq_dec : EqDecision FlowKey.
Proof. solve_decision. Defined.
#[export] Instance FlowKey_countable : Countable FlowKey.
Proof.
  refine (inj_countable' (fun k => (fk_tuple k, fk_instance k, fk_is_low k)) (fun '(a, b, c) => mkFlowKey a b c) _). by intros [].
Defined.

Record FlowState := mkFlowState {
  fs_iss : gmap FlowKey Z;
  fs_ts_base : gmap FlowKey Z;
  fs_syn_count : gmap ConnTuple Z
}.
#[export] Instance FlowState_eta : Settable FlowState := fun s => mkFlowState (fs_iss s) (fs_ts_base s) (fs_syn_count s).
Definition flow_state_default : FlowState := mkFlowState ∅ ∅ ∅.

(** [(octets, port) <= (octets, port)], lexicographic. *)
Fixpoint octets_compare (a b : list Z) : comparison :=
  match a, b with
  | [], [] => Eq
  | [], _ => Lt
  | _, [] => Gt
  | x :: a, y :: b => match x ?= y with Eq => octets_compare a b | c => c end
  end.
Definition endpoint_le (ip1 : Ipv4Addr) (port1 : Z) (ip2 : Ipv4Addr) (port2 : Z) : bool :=
  match octets_compare ip1 ip2 with Lt => true | Gt => false | Eq => port1 <=? port2 end.

Definition classify_direction (src_ip : Ipv4Addr) (src_port : Z) (dst_ip : Ipv4Addr) (dst_port : Z) : ConnTuple * bool :=
  if endpoint_le src_ip src_port dst_ip dst_port
  then (mkConnTuple src_ip src_port dst_ip dst_port, true)
  else (mkConnTuple dst_ip dst_port src_ip src_port, false).

(** [entry(k).or_insert(v)]. *)
Definition or_insert `{Countable K} (k : K) (v : Z) (m : gmap K Z) : gmap K Z :=
  match m !! k with Some _ => m | None => <[k := v]> m end.

Definition instance_of (count : gmap ConnTuple Z) (tuple : ConnTuple) : Z := default 0 (count !! tuple).

(** A SYN that is not the repetition of the one that opened the instance opens the next;
    both passes do this on their own counters. *)
Definition observe_syn (iss : gmap FlowKey Z) (tuple : ConnTuple) (is_low : bool) (frame : FrameOffsets)
    (count : gmap ConnTuple Z) : gmap ConnTuple Z :=
  if negb (Z.land (fo_flags frame) TCP_FLAG_SYN =? 0) && (Z.land (fo_flags frame) TCP_FLAG_ACK =? 0) then
    let current_key := mkFlowKey tuple (instance_of count tuple) is_low in
    if negb (bool_decide (iss !! current_key = Some (fo_seq frame)))
    then <[tuple := wadd32 (instance_of count tuple) 1]> count else count
  else count.

(** ** Walking the TCP options *)

Inductive OptionKind := EndOfOptions | Nop | Mss | WindowScale | SackPermitted | Sack | Timestamps | Other (kind : Z).

Definition OPT_KIND_EOL : Z := 0.
Definition OPT_KIND_NOP : Z := 1.
Definition OPT_KIND_MSS : Z := 2.
Definition OPT_KIND_WSCALE : Z := 3.
Definition OPT_KIND_SACK_PERM : Z := 4.
Definition OPT_KIND_SACK : Z := 5.
Definition OPT_KIND_TIMESTAMPS : Z := 8.

Definition kind_from_raw (kind : Z) : OptionKind :=
  if kind =? OPT_KIND_EOL then EndOfOptions else if kind =? OPT_KIND_NOP then Nop
  else if kind =? OPT_KIND_MSS then Mss else if kind =? OPT_KIND_WSCALE then WindowScale
  else if kind =? OPT_KIND_SACK_PERM then SackPermitted else if kind =? OPT_KIND_SACK then Sack
  else if kind =? OPT_KIND_TIMESTAMPS then Timestamps else Other kind.

Section Walk.
Context {E : Type}.

(** [walk_options_mut]: the options from the current position on, each body replaced by
    what the visitor makes of it.  Every turn consumes a byte, so the length is fuel enough. *)
Fixpoint walk_options_mut (fuel : nat) (visitor : OptionKind -> list Z -> list Z) (opts : list Z) : result (list Z) (CanonError E) :=
  match fuel, opts with
  | S fuel, kind :: rest =>
      if kind =? OPT_KIND_EOL then Ok opts else
      if kind =? OPT_KIND_NOP then
        match walk_options_mut fuel visitor rest with Ok r => Ok (kind :: r) | Err e => Err e end
      else
      match rest with
      | [] => Ok opts
      | len :: tail =>
          if (Z.to_nat len <? 2)%nat || (length opts <? Z.to_nat len)%nat then Ok opts else
          let body_len := (Z.to_nat len - 2)%nat in
          if (kind =? OPT_KIND_SACK) && negb (body_len mod 8 =? 0)%nat then Err (MalformedSackOption body_len) else
          match walk_options_mut fuel visitor (drop body_len tail) with
          | Ok r => Ok (kind :: len :: visitor (kind_from_raw kind) (take body_len tail) ++ r)
          | Err e => Err e
          end
      end
  | _, _ => Ok opts
  end.

(** [walk_options]: the visits, in order. *)
Fixpoint walk_options (fuel : nat) (opts : list Z) : result (list (OptionKind * list Z)) (CanonError E) :=
  match fuel, opts with
  | S fuel, kind :: rest =>
      if kind =? OPT_KIND_EOL then Ok [] else
      if kind =? OPT_KIND_NOP then walk_options fuel rest else
      match rest with
      | [] => Ok []
      | len :: tail =>
          if (Z.to_nat len <? 2)%nat || (length opts <? Z.to_nat len)%nat then Ok [] else
          let body_len := (Z.to_nat len - 2)%nat in
          if (kind =? OPT_KIND_SACK) && negb (body_len mod 8 =? 0)%nat then Err (MalformedSackOption body_len) else
          match walk_options fuel (drop body_len tail) with
          | Ok r => Ok ((kind_from_raw kind, take body_len tail) :: r)
          | Err e => Err e
          end
      end
  | _, _ => Ok []
  end.

(** ** The first pass *)

(** The visitor of [discover_pins]. *)
Definition pin_ts (key : FlowKey) (v : OptionKind * list Z) (m : gmap FlowKey Z) : gmap FlowKey Z :=
  match v with
  | (Timestamps, [a; b; c; d; _; _; _; _]) => or_insert key (from_be32 a b c d) m
  | _ => m
  end.

Definition discover_pins (data : list Z) (state : FlowState) : option (result FlowState (CanonError E)) :=
  parsed ← parse_l2l3l4 data;
  match parsed with
  | None => Some (Ok state)
  | Some frame =>
      let '(tuple, is_low) := classify_direction (fo_src_ip frame) (fo_src_port frame) (fo_dst_ip frame) (fo_dst_port frame) in
      let count := observe_syn (fs_iss state) tuple is_low frame (fs_syn_count state) in
      let inst_key := mkFlowKey tuple (instance_of count tuple) is_low in
      let state := state <| fs_syn_count := count |> <| fs_iss ::= or_insert inst_key (fo_seq frame) |> in
      if (20 <? fo_tcp_data_off frame)%nat then
        opts_slice ← get_slice (fo_tcp_off frame + 20) (fo_tcp_off frame + fo_tcp_data_off frame) data;
        Some (match walk_options (length opts_slice) opts_slice with
              | Ok visits => Ok (state <| fs_ts_base ::= fun m => foldl (fun m v => pin_ts inst_key v m) m visits |>)
              | Err e => Err e
              end)
      else Some (Ok state)
  end.

(** ** The second pass *)

Fixpoint rewrite_blocks (f : Z -> Z) (body : list Z) : list Z :=
  match body with
  | a :: b :: c :: d :: e :: g :: h :: i :: rest =>
      to_be32 (f (from_be32 a b c d)) ++ to_be32 (f (from_be32 e g h i)) ++ rewrite_blocks f rest
  | _ => body
  end.

(** The visitor of [rewrite_tcp_options]. *)
Definition rewrite_option (canon : CanonicalizationOptions) (state : FlowState) (inst_key reverse_key : FlowKey)
    (kind : OptionKind) (body : list Z) : list Z :=
  match kind, body with
  | Timestamps, [a; b; c; d; e; g; h; i] =>
      let tsval := from_be32 a b c d in
      let tsecr := from_be32 e g h i in
      let base := default tsval (fs_ts_base state !! inst_key) in
      to_be32 (wadd32 (canonical_ts_base canon) (wsub32 tsval base)) ++
      (if negb (tsecr =? 0) then
         match fs_ts_base state !! reverse_key with
         | Some reverse_base => to_be32 (wadd32 (canonical_ts_base canon) (wsub32 tsecr reverse_base))
         | None => [e; g; h; i]
         end
       else [e; g; h; i])
  | Sack, _ =>
      match fs_iss state !! reverse_key with
      | Some reverse_iss => rewrite_blocks (fun x => wadd32 (canonical_iss canon) (wsub32 x reverse_iss)) body
      | None => body
      end
  | _, _ => body
  end.

(** [data[i..i + bs.len()].copy_from_slice(bs)], out of range a panic. *)
Definition write_at (i : nat) (bs data : list Z) : option (list Z) :=
  if (i + length bs <=? length data)%nat then Some (copy_at i bs data) else None.

(** The 16-bit words added up in 32 bits, an odd last byte padded. *)
Fixpoint sum_words (sum : Z) (bytes : list Z) : Z :=
  match bytes with
  | hi :: lo :: rest => sum_words (wadd32 sum (from_be16 hi lo)) rest
  | [tail] => wadd32 sum (from_be16 tail 0)
  | [] => sum
  end.

Definition internet_checksum (bytes : list Z) : Z := not16 (fold_carries FOLD_FUEL (sum_words 0 bytes)).

Definition tcp_checksum (src_ip dst_ip : Ipv4Addr) (tcp_len : Z) (tcp_bytes : list Z) : option Z :=
  s1 ← read_be16 src_ip 0; s2 ← read_be16 src_ip 2; d1 ← read_be16 dst_ip 0; d2 ← read_be16 dst_ip 2;
  let sum := wadd32 (wadd32 (wadd32 (wadd32 0 s1) s2) d1) d2 in
  let sum := wadd32 (wadd32 sum IPPROTO_TCP) tcp_len in
  Some (not16 (fold_carries FOLD_FUEL (sum_words sum tcp_bytes))).

(** The two checksums over the rewritten frame. *)
Definition recompute_checksums (frame : FrameOffsets) (data : list Z) : option (list Z) :=
  let tcp_off := fo_tcp_off frame in
  let ihl := (tcp_off - 14)%nat in
  data ← write_at (14 + 10) [0; 0] data;
  ip_hdr ← get_slice 14 (14 + ihl) data;
  data ← write_at (14 + 10) (to_be16 (internet_checksum ip_hdr)) data;
  let tcp_len := (fo_ip_total_len frame - ihl)%nat in
  data ← write_at (tcp_off + 16) [0; 0] data;
  tcp ← get_slice tcp_off (tcp_off + tcp_len) data;
  csum ← tcp_checksum (fo_src_ip frame) (fo_dst_ip frame) (u16 (Z.of_nat tcp_len)) tcp;
  write_at (tcp_off + 16) (to_be16 csum) data.

Definition rewrite_frame (data : list Z) (opts : CanonicalizationOptions) (state : FlowState)
    (count : gmap ConnTuple Z) : option (result (list Z * gmap ConnTuple Z) (CanonError E)) :=
  parsed ← parse_l2l3l4 data;
  match parsed with
  | None => Some (Ok (data, count))
  | Some frame =>
      let tcp_off := fo_tcp_off frame in
      let '(tuple, is_low) := classify_direction (fo_src_ip frame) (fo_src_port frame) (fo_dst_ip frame) (fo_dst_port frame) in
      let count := observe_syn (fs_iss state) tuple is_low frame count in
      let inst_key := mkFlowKey tuple (instance_of count tuple) is_low in
      let reverse_key := mkFlowKey tuple (instance_of count tuple) (negb is_low) in
      match fs_iss state !! inst_key with
      | None => Some (Ok (data, count))
      | Some iss =>
          data ← write_at (tcp_off + 4) (to_be32 (wadd32 (canonical_iss opts) (wsub32 (fo_seq frame) iss))) data;
          data ← (if negb (Z.land (fo_flags frame) TCP_FLAG_ACK =? 0) then
                    match fs_iss state !! reverse_key with
                    | Some reverse_iss =>
                        write_at (tcp_off + 8) (to_be32 (wadd32 (canonical_iss opts) (wsub32 (fo_ack frame) reverse_iss))) data
                    | None => Some data
                    end
                  else Some data);
          opts_slice ← get_slice (tcp_off + 20) (tcp_off + fo_tcp_data_off frame) data;
          match walk_options_mut (length opts_slice) (rewrite_option opts state inst_key reverse_key) opts_slice with
          | Err e => Some (Err e)
          | Ok opts_slice =>
              data ← write_at (tcp_off + 20) opts_slice data;
              let '(our_mac, their_mac) :=
                if is_low then (canonical_src_mac opts, canonical_dst_mac opts) else (canonical_dst_mac opts, canonical_src_mac opts) in
              data ← write_at 0 their_mac data;
              data ← write_at 6 our_mac data;
              data ← recompute_checksums frame data;
              Some (Ok (data, count))
          end
      end
  end.

(** ** The capture *)

Record Packet := mkPacket { pp_ts : Z; pp_orig_len : Z; pp_data : list Z }.

(** What the reader yields: packets, or an error in a packet's place. *)
Fixpoint discover_all (items : list (result Packet E)) (state : FlowState) : option (result FlowState (CanonError E)) :=
  match items with
  | [] => Some (Ok state)
  | Err e :: _ => Some (Err (CePcap e))
  | Ok p :: items =>
      r ← discover_pins (pp_data p) state;
      match r with Ok state => discover_all items state | Err e => Some (Err e) end
  end.

(** [write] is the writer's [write_packet] on its state. *)
Fixpoint rewrite_all {W} (write : Packet -> W -> result W E) (opts : CanonicalizationOptions) (state : FlowState)
    (items : list (result Packet E)) (count : gmap ConnTuple Z) (out : W) : option (result W (CanonError E)) :=
  match items with
  | [] => Some (Ok out)
  | Err e :: _ => Some (Err (CePcap e))
  | Ok p :: items =>
      r ← rewrite_frame (pp_data p) opts state count;
      match r with
      | Err e => Some (Err e)
      | Ok (data, count) =>
          match write (mkPacket (pp_ts p) (pp_orig_len p) data) out with
          | Err e => Some (Err (CePcap e))
          | Ok out => rewrite_all write opts state items count out
          end
      end
  end.

Definition canonicalize_pcap {Header W} (read : list Z -> result (Header * list (result Packet E)) E)
    (with_header : Header -> result W E) (write_packet : Packet -> W -> result W E) (into_bytes : W -> list Z)
    (pcap_bytes : list Z) (opts : CanonicalizationOptions) : option (result (list Z) (CanonError E)) :=
  match read pcap_bytes with
  | Err e => Some (Err (CePcap e))
  | Ok (header, items) =>
      r ← discover_all items flow_state_default;
      match r with
      | Err e => Some (Err e)
      | Ok state =>
          match with_header header with
          | Err e => Some (Err (CePcap e))
          | Ok out =>
              r ← rewrite_all write_packet opts state items ∅ out;
              Some (match r with Ok out => Ok (into_bytes out) | Err e => Err e end)
          end
      end
  end.

(** [probe_pass1_instance_counts]. *)
Definition probe_pass1_instance_counts (read : list Z -> result (list (result Packet E)) E) (pcap_bytes : list Z)
    : option (result (list (ConnTuple * Z)) (CanonError E)) :=
  match read pcap_bytes with
  | Err e => Some (Err (CePcap e))
  | Ok items =>
      r ← discover_all items flow_state_default;
      Some (match r with Ok state => Ok (map_to_list (fs_syn_count state)) | Err e => Err e end)
  end.
End Walk.

Fixpoint byte_diff_count (a b : list Z) : nat :=
  match a, b with
  | x :: a, y :: b => ((if Z.eqb x y then 0 else 1) + byte_diff_count a b)%nat
  | [], l | l, [] => length l
  end.
