(* ===== verification/NormalizeSpec.v ===== *)
(** * What normalisation promises

    A frame that parses is a record of its parts ([Frame]); rewriting it edits some of them
    and recomputes the checksums, and edits compose.  So normalising twice is normalising
    once, and captures that differ only in what each side chose freely become equal. *)

From S2P Require Import Prelude.
From S2P Require Import Bytes.
From S2P Require Import Ip.
From S2P Require Import Normalize.

(** ** The parts of a frame *)

Record Frame := mkFrame {
  fr_dst : list Z;
  fr_src : list Z;
  fr_pre : list Z;               (* type, and the IP header up to its checksum *)
  fr_ipck : list Z;
  fr_src_ip : list Z;
  fr_dst_ip : list Z;
  fr_ipopts : list Z;
  fr_ports : list Z;
  fr_seq : Z;
  fr_ack : Z;
  fr_mid : list Z;               (* data offset, flags, window *)
  fr_tck : list Z;
  fr_urg : list Z;
  fr_opts : list Z;
  fr_payload : list Z;
  fr_rest : list Z               (* beyond the datagram *)
}.
#[export] Instance Frame_eta : Settable Frame := fun f =>
  mkFrame (fr_dst f) (fr_src f) (fr_pre f) (fr_ipck f) (fr_src_ip f) (fr_dst_ip f) (fr_ipopts f) (fr_ports f) (fr_seq f) (fr_ack f)
    (fr_mid f) (fr_tck f) (fr_urg f) (fr_opts f) (fr_payload f) (fr_rest f).

Definition tcp_part (f : Frame) : list Z :=
  fr_ports f ++ to_be32 (fr_seq f) ++ to_be32 (fr_ack f) ++ fr_mid f ++ fr_tck f ++ fr_urg f ++ fr_opts f ++ fr_payload f.
Definition ip_header (f : Frame) : list Z := drop 2 (fr_pre f) ++ fr_ipck f ++ fr_src_ip f ++ fr_dst_ip f ++ fr_ipopts f.
Definition flat (f : Frame) : list Z :=
  fr_dst f ++ fr_src f ++ fr_pre f ++ fr_ipck f ++ fr_src_ip f ++ fr_dst_ip f ++ fr_ipopts f ++ tcp_part f ++ fr_rest f.

Definition ihl_of (f : Frame) : nat := (20 + length (fr_ipopts f))%nat.
Definition total_of (f : Frame) : nat := (ihl_of f + 20 + length (fr_opts f) + length (fr_payload f))%nat.

Record frame_ok (f : Frame) : Prop := {
  fk_dst : length (fr_dst f) = 6%nat;
  fk_src : length (fr_src f) = 6%nat;
  fk_pre : length (fr_pre f) = 12%nat;
  fk_ipck : length (fr_ipck f) = 2%nat;
  fk_src_ip : length (fr_src_ip f) = 4%nat;
  fk_dst_ip : length (fr_dst_ip f) = 4%nat;
  fk_ports : length (fr_ports f) = 4%nat;
  fk_mid : length (fr_mid f) = 4%nat;
  fk_tck : length (fr_tck f) = 2%nat;
  fk_urg : length (fr_urg f) = 2%nat;
  fk_type : read_be16 (fr_pre f) 0 = Some ETHERTYPE_IPV4;
  fk_ihl : exists b, fr_pre f !! 2%nat = Some b /\ (Z.to_nat (Z.land b 0x0f) * 4 = ihl_of f)%nat;
  fk_proto : fr_pre f !! 11%nat = Some IPPROTO_TCP;
  fk_total : exists t, read_be16 (fr_pre f) 4 = Some t /\ Z.to_nat t = total_of f;
  fk_off : exists d, fr_mid f !! 0%nat = Some d /\ (Z.to_nat (Z.land (Z.shiftr d 4) 0x0f) * 4 = 20 + length (fr_opts f))%nat;
  fk_nums : is_u32 (fr_seq f) /\ is_u32 (fr_ack f)
}.

Definition port_at (i : nat) (f : Frame) : Z := default 0 (read_be16 (fr_ports f) i).
Definition flags_of (f : Frame) : Z := default 0 (fr_mid f !! 1%nat).

Definition offsets (f : Frame) : FrameOffsets :=
  mkFrameOffsets (14 + ihl_of f) (20 + length (fr_opts f)) (fr_src_ip f) (port_at 0 f) (fr_dst_ip f) (port_at 2 f)
    (total_of f) (flags_of f) (fr_seq f) (fr_ack f).

Lemma lookup_mid {A} (p m q : list A) i j : (j = i - length p)%nat -> (length p <= i)%nat -> (j < length m)%nat ->
  (p ++ m ++ q) !! i = m !! j.
Proof. intros -> H1 H2. rewrite lookup_app_r by lia. by apply lookup_app_l. Qed.

Lemma read16_mid p m q i j : (j = i - length p)%nat -> (length p <= i)%nat -> (j + 1 < length m)%nat ->
  read_be16 (p ++ m ++ q) i = read_be16 m j.
Proof. intros -> H1 H2. unfold read_be16. by rewrite (lookup_mid p m q i _ eq_refl), (lookup_mid p m q (i + 1) (i - length p + 1)) by lia. Qed.

Lemma slice_mid (p m q : list Z) i j : i = length p -> (j = i + length m)%nat -> get_slice i j (p ++ m ++ q) = Some m.
Proof.
  intros -> ->. rewrite get_slice_some by (rewrite !length_app; lia). f_equal. by apply slice_app_mid.
Qed.

Lemma write_mid (p old new q : list Z) i : i = length p -> length old = length new ->
  write_at i new (p ++ old ++ q) = Some (p ++ new ++ q).
Proof.
  intros -> Hl. unfold write_at. destruct (_ <=? _)%nat eqn:E; [|apply Nat.leb_gt in E; rewrite !length_app in E; lia].
  f_equal. unfold copy_at. rewrite take_app_length. f_equal. f_equal. rewrite drop_app_ge by lia.
  replace (length p + length new - length p)%nat with (length old) by lia. apply drop_app_length.
Qed.

(** Where each part lies. *)
Section Positions.
Context (f : Frame) (Hf : frame_ok f).

Lemma length_tcp : length (tcp_part f) = (20 + length (fr_opts f) + length (fr_payload f))%nat.
Proof. destruct Hf. unfold tcp_part. rewrite !length_app, !length_to_be32. lia. Qed.
Lemma length_flat : length (flat f) = (14 + total_of f + length (fr_rest f))%nat.
Proof. destruct Hf. unfold flat, total_of, ihl_of. rewrite !length_app, length_tcp. lia. Qed.

Lemma at_pre : exists q, flat f = (fr_dst f ++ fr_src f) ++ fr_pre f ++ q.
Proof. eexists. unfold flat. by rewrite <- !app_assoc. Qed.
Lemma at_src_ip : flat f = (fr_dst f ++ fr_src f ++ fr_pre f ++ fr_ipck f) ++ fr_src_ip f ++ (fr_dst_ip f ++ fr_ipopts f ++ tcp_part f ++ fr_rest f).
Proof. unfold flat. by rewrite <- !app_assoc. Qed.
Lemma at_dst_ip : flat f = (fr_dst f ++ fr_src f ++ fr_pre f ++ fr_ipck f ++ fr_src_ip f) ++ fr_dst_ip f ++ (fr_ipopts f ++ tcp_part f ++ fr_rest f).
Proof. unfold flat. by rewrite <- !app_assoc. Qed.

(** What precedes the TCP header. *)
Definition tcp_prefix : list Z := fr_dst f ++ fr_src f ++ fr_pre f ++ fr_ipck f ++ fr_src_ip f ++ fr_dst_ip f ++ fr_ipopts f.
Lemma length_prefix : length tcp_prefix = (14 + ihl_of f)%nat.
Proof. destruct Hf. unfold tcp_prefix, ihl_of. rewrite !length_app. lia. Qed.
Lemma at_tcp : flat f = tcp_prefix ++ tcp_part f ++ fr_rest f.
Proof. unfold flat, tcp_prefix. by rewrite <- !app_assoc. Qed.
Lemma at_ports : exists q, flat f = tcp_prefix ++ fr_ports f ++ q.
Proof. eexists. rewrite at_tcp. unfold tcp_part. by rewrite <- !app_assoc. Qed.
Lemma at_seq : exists q, flat f = (tcp_prefix ++ fr_ports f) ++ to_be32 (fr_seq f) ++ q.
Proof. eexists. rewrite at_tcp. unfold tcp_part. by rewrite <- !app_assoc. Qed.
Lemma at_ack : exists q, flat f = (tcp_prefix ++ fr_ports f ++ to_be32 (fr_seq f)) ++ to_be32 (fr_ack f) ++ q.
Proof. eexists. rewrite at_tcp. unfold tcp_part. by rewrite <- !app_assoc. Qed.
Lemma at_mid : exists q, flat f = (tcp_prefix ++ fr_ports f ++ to_be32 (fr_seq f) ++ to_be32 (fr_ack f)) ++ fr_mid f ++ q.
Proof. eexists. rewrite at_tcp. unfold tcp_part. by rewrite <- !app_assoc. Qed.

Ltac lens := rewrite ?length_app, ?length_to_be32, ?length_prefix; lia.

Lemma read_pre i : (i + 1 < 12)%nat -> read_be16 (flat f) (12 + i) = read_be16 (fr_pre f) i.
Proof. destruct Hf. intros Hi. destruct at_pre as [q ->]. apply read16_mid; lens. Qed.
Lemma byte_pre i : (i < 12)%nat -> flat f !! (12 + i)%nat = fr_pre f !! i.
Proof. destruct Hf. intros Hi. destruct at_pre as [q ->]. apply lookup_mid; lens. Qed.
Lemma read_ports i : (i <= 2)%nat -> read_be16 (flat f) (14 + ihl_of f + i) = Some (port_at i f).
Proof.
  destruct Hf. intros Hi. destruct at_ports as [q ->]. rewrite (read16_mid _ _ _ _ i) by lens. unfold port_at.
  destruct (read_be16_some (fr_ports f) i) as [v ->]; [lia|done].
Qed.
Lemma byte_mid i : (i < 4)%nat -> flat f !! (14 + ihl_of f + (12 + i))%nat = fr_mid f !! i.
Proof. destruct Hf. intros Hi. destruct at_mid as [q ->]. apply lookup_mid; lens. Qed.
Lemma read_seq : read_be32 (flat f) (14 + ihl_of f + 4) = Some (fr_seq f).
Proof. destruct Hf as [? ? ? ? ? ? ? ? ? ? ? ? ? ? ? [Hs _]]. destruct at_seq as [q E]. eapply read_be32_at; [exact E|lens|done]. Qed.
Lemma read_ack : read_be32 (flat f) (14 + ihl_of f + 8) = Some (fr_ack f).
Proof. destruct Hf as [? ? ? ? ? ? ? ? ? ? ? ? ? ? ? [_ Hs]]. destruct at_ack as [q E]. eapply read_be32_at; [exact E|lens|done]. Qed.

(** A frame with its parts in order parses, to those parts. *)
Lemma parse_flat : parse_l2l3l4 (flat f) = Some (Some (offsets f)).
Proof.
  pose proof length_flat as L. pose proof (read_pre 0 ltac:(lia)) as R0. pose proof (read_pre 4 ltac:(lia)) as R4.
  pose proof (byte_pre 2 ltac:(lia)) as B2. pose proof (byte_pre 11 ltac:(lia)) as B11.
  pose proof (read_ports 0 ltac:(lia)) as P0. pose proof (read_ports 2 ltac:(lia)) as P2.
  pose proof (byte_mid 0 ltac:(lia)) as M0. pose proof (byte_mid 1 ltac:(lia)) as M1.
  assert (S1 : get_slice 26 30 (flat f) = Some (fr_src_ip f)) by (destruct Hf; rewrite at_src_ip; apply slice_mid; lens).
  assert (S2 : get_slice 30 34 (flat f) = Some (fr_dst_ip f)) by (destruct Hf; rewrite at_dst_ip; apply slice_mid; lens).
  assert (Hm : exists fl, fr_mid f !! 1%nat = Some fl) by (destruct Hf; apply lookup_some; lia). destruct Hm as [fl Hfl].
  pose proof read_seq as Rs. pose proof read_ack as Ra.
  destruct Hf as [F1 F2 F3 F4 F5 F6 F7 F8 F9 F10 Ft (b & Eb & Eihl) Fp (t & Et & Etot) (d & Ed & Eoff) _].
  rewrite Ft in R0. rewrite Et in R4. rewrite Eb in B2. rewrite Fp in B11. rewrite Ed in M0. rewrite Hfl in M1. rewrite Nat.add_0_r in P0.
  assert (Hle : (34 <= 14 + ihl_of f)%nat /\ (14 + ihl_of f + (20 + length (fr_opts f)) <= 14 + total_of f)%nat)
    by (unfold total_of, ihl_of; lia).
  destruct Hle as [Hi Ht]. unfold parse_l2l3l4. change (14 + 9)%nat with (12 + 11)%nat. change (14 + 12)%nat with 26%nat.
  change (14 + 16)%nat with 30%nat. change (14 + 20)%nat with 34%nat. change (14 + 2)%nat with (12 + 4)%nat.
  change (read_be16 (flat f) 12) with (read_be16 (flat f) (12 + 0)). change (flat f !! 14%nat) with (flat f !! (12 + 2)%nat).
  rewrite (proj2 (Nat.ltb_ge (length (flat f)) 14)) by lia. rewrite R0. cbn [mbind option_bind]. rewrite Z.eqb_refl. cbn [negb].
  rewrite (proj2 (Nat.ltb_ge (length (flat f)) 34)) by lia. rewrite B2. cbn [mbind option_bind]. rewrite Eihl.
  rewrite (proj2 (Nat.ltb_ge (ihl_of f) 20)) by (unfold ihl_of; lia). rewrite (proj2 (Nat.ltb_ge (length (flat f)) (14 + ihl_of f))) by lia.
  cbn [orb]. rewrite B11. cbn [mbind option_bind]. rewrite Z.eqb_refl. cbn [negb]. rewrite S1, S2, R4. cbn [mbind option_bind]. rewrite Etot.
  rewrite (proj2 (Nat.ltb_ge (length (flat f)) (14 + total_of f))) by lia.
  rewrite (proj2 (Nat.ltb_ge (length (flat f)) (14 + ihl_of f + 20))) by lia.
  rewrite P0, P2. cbn [mbind option_bind]. change (14 + ihl_of f + 12)%nat with (14 + ihl_of f + (12 + 0))%nat. rewrite M0. cbn [mbind option_bind]. rewrite Eoff.
  rewrite (proj2 (Nat.ltb_ge (20 + length (fr_opts f)) 20)) by lia.
  rewrite (proj2 (Nat.ltb_ge (14 + total_of f) (14 + ihl_of f + (20 + length (fr_opts f))))) by lia. cbn [orb].
  change (14 + ihl_of f + 13)%nat with (14 + ihl_of f + (12 + 1))%nat. rewrite M1, Rs, Ra. cbn [mbind option_bind].
  unfold offsets, flags_of. by rewrite Hfl.
Qed.
End Positions.

(** And a frame that parses is its parts in order. *)
Definition frame_at (ihl doff total : nat) (seq ack : Z) (data : list Z) : Frame :=
  let t := (14 + ihl)%nat in
  mkFrame (slice 0 6 data) (slice 6 12 data) (slice 12 24 data) (slice 24 26 data) (slice 26 30 data) (slice 30 34 data) (slice 34 t data)
    (slice t (t + 4) data) seq ack (slice (t + 12) (t + 16) data) (slice (t + 16) (t + 18) data) (slice (t + 18) (t + 20) data)
    (slice (t + 20) (t + doff) data) (slice (t + doff) (14 + total) data) (drop (14 + total) data).

Lemma slice_drop (l : list Z) i j : (i <= j <= length l)%nat -> slice i j l ++ drop j l = drop i l.
Proof.
  intros Hj. unfold slice. rewrite <- (take_drop (j - i) (drop i l)) at 2. f_equal. rewrite drop_drop. f_equal. lia.
Qed.

Lemma slice_32 l i v : is_bytes l -> read_be32 l i = Some v -> to_be32 v = slice i (i + 4) l.
Proof.
  intros Hb. unfold read_be32. destruct (l !! i) as [a|] eqn:Ea; [|done]. destruct (l !! (i + 1)%nat) as [b|] eqn:Eb; [|done].
  destruct (l !! (i + 2)%nat) as [c|] eqn:Ec; [|done]. destruct (l !! (i + 3)%nat) as [d|] eqn:Ed; [|done]. cbn [mbind option_bind].
  intros [= <-].
  assert (Ha : is_u8 a /\ is_u8 b /\ is_u8 c /\ is_u8 d) by (split_and!; by eapply is_bytes_lookup). destruct Ha as (Ha & Hb' & Hc & Hd).
  assert (El : drop i l = a :: b :: c :: d :: drop (i + 4) l).
  { rewrite (drop_S l a i Ea). f_equal. replace (S i) with (i + 1)%nat by lia. rewrite (drop_S l b (i + 1) Eb). f_equal.
    replace (S (i + 1)) with (i + 2)%nat by lia. rewrite (drop_S l c (i + 2) Ec). f_equal.
    replace (S (i + 2)) with (i + 3)%nat by lia. rewrite (drop_S l d (i + 3) Ed). f_equal. f_equal. lia. }
  unfold slice. rewrite El. replace (i + 4 - i)%nat with 4%nat by lia. cbn [take]. unfold to_be32, from_be32.
  repeat f_equal; unfold is_u8, two8 in *; Z.to_euclidean_division_equations; lia.
Qed.

Lemma lookup_slice (l : list Z) i j k : (k < j - i)%nat -> slice i j l !! k = l !! (i + k)%nat.
Proof. intros Hk. unfold slice. rewrite lookup_take_lt by done. apply lookup_drop. Qed.
Lemma read16_slice l i j k : (k + 1 < j - i)%nat -> read_be16 (slice i j l) k = read_be16 l (i + k).
Proof. intros Hk. unfold read_be16. rewrite !lookup_slice by lia. by rewrite Nat.add_assoc. Qed.

Lemma flat_frame_at ihl doff total seq ack data : is_bytes data -> (20 <= ihl)%nat -> (20 <= doff)%nat ->
  (ihl + doff <= total)%nat -> (14 + total <= length data)%nat ->
  read_be32 data (14 + ihl + 4) = Some seq -> read_be32 data (14 + ihl + 8) = Some ack -> flat (frame_at ihl doff total seq ack data) = data.
Proof.
  intros Hb H1 H2 H3 H4 Hs Ha. unfold flat, tcp_part, frame_at. cbn [fr_dst fr_src fr_pre fr_ipck fr_src_ip fr_dst_ip fr_ipopts fr_ports fr_seq fr_ack
    fr_mid fr_tck fr_urg fr_opts fr_payload fr_rest].
  rewrite (slice_32 _ _ _ Hb Hs), (slice_32 _ _ _ Hb Ha). rewrite <- !app_assoc.
  replace (14 + ihl + 4 + 4)%nat with (14 + ihl + 8)%nat by lia. replace (14 + ihl + 8 + 4)%nat with (14 + ihl + 12)%nat by lia.
  rewrite !slice_drop by lia. apply drop_0.
Qed.

Lemma guard_inv {A} (b : bool) (m : option (option A)) r : (if b then Some None else m) = Some (Some r) -> b = false /\ m = Some (Some r).
Proof. by destruct b. Qed.

Lemma parse_inv data fo : is_bytes data -> parse_l2l3l4 data = Some (Some fo) ->
  exists f, frame_ok f /\ data = flat f /\ fo = offsets f.
Proof.
  intros Hb E. pose proof E as E0. unfold parse_l2l3l4 in E.
  apply guard_inv in E as [G1 E]. apply Nat.ltb_ge in G1. apply bind_inv in E as (ty & Ety & E).
  apply guard_inv in E as [G2 E]. apply negb_false_iff, Z.eqb_eq in G2. subst ty.
  apply guard_inv in E as [G3 E]. apply Nat.ltb_ge in G3. apply bind_inv in E as (b0 & Eb0 & E). cbv zeta in E.
  set (ihl := (Z.to_nat (Z.land b0 0x0f) * 4)%nat) in *. apply guard_inv in E as [G4 E]. apply orb_false_iff in G4 as [G4 G5].
  apply Nat.ltb_ge in G4, G5. apply bind_inv in E as (pr & Epr & E). apply guard_inv in E as [G6 E]. apply negb_false_iff, Z.eqb_eq in G6. subst pr.
  apply bind_inv in E as (sip & _ & E). apply bind_inv in E as (dip & _ & E). apply bind_inv in E as (tl & Etl & E).
  apply guard_inv in E as [G7 E]. apply Nat.ltb_ge in G7. apply guard_inv in E as [G8 E]. apply Nat.ltb_ge in G8.
  apply bind_inv in E as (sp & _ & E). apply bind_inv in E as (dp & _ & E). apply bind_inv in E as (d & Ed & E).
  set (doff := (Z.to_nat (Z.land (Z.shiftr d 4) 0x0f) * 4)%nat) in *. apply guard_inv in E as [G9 E]. apply orb_false_iff in G9 as [G9 G10].
  apply Nat.ltb_ge in G9, G10. apply bind_inv in E as (fl & _ & E). apply bind_inv in E as (seq & Es & E). apply bind_inv in E as (ack & Ea & _).
  set (total := Z.to_nat tl) in *.
  assert (Hok : frame_ok (frame_at ihl doff total seq ack data)).
  { split; unfold frame_at, total_of, ihl_of; cbn [fr_dst fr_src fr_pre fr_ipck fr_src_ip fr_dst_ip fr_ipopts fr_ports fr_seq fr_ack
      fr_mid fr_tck fr_urg fr_opts fr_payload fr_rest]; rewrite ?length_slice by lia; try lia.
    - rewrite read16_slice by lia. exact Ety.
    - exists b0. rewrite lookup_slice by lia. split; [exact Eb0|]. fold ihl. lia.
    - rewrite lookup_slice by lia. exact Epr.
    - exists tl. rewrite read16_slice by lia. split; [exact Etl|]. fold total. lia.
    - exists d. rewrite lookup_slice by lia. rewrite Nat.add_0_r. split; [exact Ed|]. fold doff. lia.
    - split; by eapply read_be32_range. }
  assert (Hfl : flat (frame_at ihl doff total seq ack data) = data) by (apply flat_frame_at; try done; lia).
  exists (frame_at ihl doff total seq ack data). split; [done|]. split; [done|]. pose proof (parse_flat _ Hok) as P. rewrite Hfl, E0 in P. by injection P.
Qed.

Lemma frame_parse_total data : is_bytes data -> exists r, parse_l2l3l4 data = Some r.
Proof.
  intros Hb. unfold parse_l2l3l4. destruct (Nat.ltb_spec (length data) 14); [by eexists|].
  destruct (read_be16_some data 12) as [ty ->]; [lia|]. cbn [mbind option_bind]. destruct (negb _); [by eexists|].
  destruct (Nat.ltb_spec (length data) (14 + 20)); [by eexists|]. destruct (lookup_some data 14) as [b0 ->]; [lia|]. cbn [mbind option_bind].
  destruct (Nat.ltb_spec (Z.to_nat (Z.land b0 0x0f) * 4) 20); [by eexists|].
  destruct (Nat.ltb_spec (length data) (14 + Z.to_nat (Z.land b0 0x0f) * 4)); [by eexists|]. cbn [orb].
  destruct (lookup_some data (14 + 9)) as [pr ->]; [lia|]. cbn [mbind option_bind]. destruct (negb _); [by eexists|].
  rewrite !get_slice_some by lia. cbn [mbind option_bind]. destruct (read_be16_some data (14 + 2)) as [tl ->]; [lia|]. cbn [mbind option_bind].
  destruct (Nat.ltb_spec (length data) (14 + Z.to_nat tl)); [by eexists|].
  destruct (Nat.ltb_spec (length data) (14 + Z.to_nat (Z.land b0 0x0f) * 4 + 20)); [by eexists|].
  destruct (read_be16_some data (14 + Z.to_nat (Z.land b0 0x0f) * 4)) as [sp ->]; [lia|]. cbn [mbind option_bind].
  destruct (read_be16_some data (14 + Z.to_nat (Z.land b0 0x0f) * 4 + 2)) as [dp ->]; [lia|]. cbn [mbind option_bind].
  destruct (lookup_some data (14 + Z.to_nat (Z.land b0 0x0f) * 4 + 12)) as [d ->]; [lia|]. cbn [mbind option_bind].
  destruct (_ || _)%nat; [by eexists|]. destruct (lookup_some data (14 + Z.to_nat (Z.land b0 0x0f) * 4 + 13)) as [fl ->]; [lia|]. cbn [mbind option_bind].
  destruct (read_be32_some data (14 + Z.to_nat (Z.land b0 0x0f) * 4 + 4)) as [sq ->]; [lia|]. cbn [mbind option_bind].
  destruct (read_be32_some data (14 + Z.to_nat (Z.land b0 0x0f) * 4 + 8)) as [ak ->]; [lia|]. by eexists.
Qed.

(** ** Edits *)

(** What rewriting does to the numbers of a frame, and the addresses it sets. *)
Record Edits := mkEdits {
  ed_seq : Z -> Z;
  ed_ack : Z -> Z;
  ed_tsval : Z -> Z;
  ed_tsecr : Z -> Z;
  ed_our : list Z;
  ed_their : list Z
}.

Definition visit (e : Edits) (kind : OptionKind) (body : list Z) : list Z :=
  match kind, body with
  | Timestamps, [a; b; c; d; x; y; z; w] =>
      to_be32 (ed_tsval e (from_be32 a b c d)) ++
      (if negb (from_be32 x y z w =? 0) then to_be32 (ed_tsecr e (from_be32 x y z w)) else [x; y; z; w])
  | Sack, _ => rewrite_blocks (ed_ack e) body
  | _, _ => body
  end.

Definition edited (e : Edits) (opts : list Z) (f : Frame) : Frame :=
  f <| fr_dst := ed_their e |> <| fr_src := ed_our e |> <| fr_seq ::= ed_seq e |>
    <| fr_ack ::= fun a => if negb (Z.land (flags_of f) TCP_FLAG_ACK =? 0) then ed_ack e a else a |> <| fr_opts := opts |>.

Definition ip_sum (f : Frame) : list Z := to_be16 (internet_checksum (ip_header (f <| fr_ipck := [0; 0] |>))).
Definition tcp_sum (f : Frame) : list Z :=
  to_be16 (default 0 (tcp_checksum (fr_src_ip f) (fr_dst_ip f) (u16 (Z.of_nat (length (tcp_part f)))) (tcp_part (f <| fr_tck := [0; 0] |>)))).
Definition checksummed (f : Frame) : Frame := f <| fr_ipck := ip_sum f |> <| fr_tck := tcp_sum f |>.

(** *** Walks *)

Section Walks.
Context {E : Type}.
Implicit Types (v w : OptionKind -> list Z -> list Z).

Definition keeps_length v : Prop := forall k b, length (v k b) = length b.

Lemma walk_length n v : keeps_length v -> forall opts r, walk_options_mut (E := E) n v opts = Ok r -> length r = length opts.
Proof.
  intros Hv. induction n as [|n IH]; intros opts r; [by intros [= <-]|]. destruct opts as [|kind rest]; [by intros [= <-]|].
  cbn [walk_options_mut]. destruct (_ =? OPT_KIND_EOL); [by intros [= <-]|]. destruct (_ =? OPT_KIND_NOP).
  { destruct (walk_options_mut n v rest) as [r'|] eqn:Er; [|done]. intros [= <-]. cbn [length]. f_equal. by apply IH. }
  destruct rest as [|len tail]; [by intros [= <-]|]. destruct ((_ <? 2) || _)%nat eqn:Eg; [by intros [= <-]|].
  apply orb_false_iff in Eg as [G1 G2]. apply Nat.ltb_ge in G1, G2. cbn [length] in G2.
  destruct (_ && _); [done|]. destruct (walk_options_mut n v _) as [r'|] eqn:Er; [|done]. intros [= <-]. apply IH in Er.
  cbn [length]. rewrite length_app, Hv, Er, length_take, length_drop. lia.
Qed.

(** The walk and the visits see the same options. *)
Lemma walk_agree n v : forall opts,
  match walk_options_mut (E := E) n v opts, walk_options (E := E) n opts with
  | Ok _, Ok _ => True | Err e, Err e' => e = e' | _, _ => False
  end.
Proof.
  induction n as [|n IH]; intros opts; [done|]. destruct opts as [|kind rest]; [done|]. cbn [walk_options_mut walk_options].
  destruct (_ =? OPT_KIND_EOL); [done|]. destruct (_ =? OPT_KIND_NOP).
  { specialize (IH rest). destruct (walk_options_mut n v rest), (walk_options n rest); done. }
  destruct rest as [|len tail]; [done|]. destruct (_ || _); [done|]. destruct (_ && _); [done|].
  specialize (IH (drop (Z.to_nat len - 2) tail)). destruct (walk_options_mut n v _), (walk_options n _); done.
Qed.

(** Visitors that agree on bytes do the same to bytes. *)
Lemma walk_ext n v w : (forall k b, is_bytes b -> v k b = w k b) -> forall opts, is_bytes opts ->
  walk_options_mut (E := E) n v opts = walk_options_mut n w opts.
Proof.
  intros Hv. induction n as [|n IH]; intros opts Hb; [done|]. destruct opts as [|kind rest]; [done|]. cbn [walk_options_mut].
  apply Forall_cons in Hb as [_ Hb]. destruct (_ =? OPT_KIND_EOL); [done|]. destruct (_ =? OPT_KIND_NOP); [by rewrite IH|].
  destruct rest as [|len tail]; [done|]. apply Forall_cons in Hb as [_ Hb]. destruct (_ || _); [done|]. destruct (_ && _); [done|].
  rewrite IH by (by apply Forall_drop). rewrite Hv by (by apply Forall_take). done.
Qed.

(** One walk after another. *)
Lemma walk_compose n v w : keeps_length v -> forall opts r, walk_options_mut (E := E) n v opts = Ok r ->
  walk_options_mut (E := E) n w r = walk_options_mut n (fun k b => w k (v k b)) opts.
Proof.
  intros Hv. induction n as [|n IH]; intros opts r; [by intros [= <-]|]. destruct opts as [|kind rest]; [by intros [= <-]|].
  cbn [walk_options_mut]. destruct (kind =? OPT_KIND_EOL) eqn:E1; [intros [= <-]; cbn [walk_options_mut]; by rewrite E1|].
  destruct (kind =? OPT_KIND_NOP) eqn:E2.
  { destruct (walk_options_mut n v rest) as [r'|] eqn:Er; [|done]. intros [= <-]. cbn [walk_options_mut]. rewrite E1, E2.
    by rewrite (IH _ _ Er). }
  destruct rest as [|len tail]; [intros [= <-]; cbn [walk_options_mut]; by rewrite E1, E2|].
  destruct (((Z.to_nat len <? 2) || (length (kind :: len :: tail) <? Z.to_nat len))%nat) eqn:Eg.
  { intros [= <-]. cbn [walk_options_mut]. by rewrite E1, E2, Eg. }
  destruct (_ && _) eqn:E3; [done|]. destruct (walk_options_mut n v _) as [r'|] eqn:Er; [|done].
  pose proof (walk_length _ _ Hv _ _ Er) as Hl. rewrite length_drop in Hl.
  intros [= <-]. cbn [walk_options_mut]. rewrite E1, E2.
  apply orb_false_iff in Eg as [G1 G2]. apply Nat.ltb_ge in G1, G2. cbn [length] in G2.
  set (bl := (Z.to_nat len - 2)%nat) in *. set (body := v (kind_from_raw kind) (take bl tail)).
  assert (Hbl : length body = bl) by (unfold body; rewrite Hv, length_take; lia).
  cbn [length]. rewrite length_app, Hbl, Hl.
  rewrite (proj2 (Nat.ltb_ge (Z.to_nat len) 2)) by lia. rewrite (proj2 (Nat.ltb_ge (S (S (bl + (length tail - bl)))) (Z.to_nat len))) by lia.
  cbn [orb]. rewrite E3, (drop_app_length' _ _ _ (eq_sym Hbl)), (take_app_length' _ _ _ (eq_sym Hbl)). by rewrite (IH _ _ Er).
Qed.

(** The visits after a walk are the visits before, each body rewritten. *)
Lemma visits_after n v : keeps_length v -> forall opts r, walk_options_mut (E := E) n v opts = Ok r ->
  exists vs, walk_options (E := E) n opts = Ok vs /\ walk_options (E := E) n r = Ok (map (fun x => (x.1, v x.1 x.2)) vs).
Proof.
  intros Hv. induction n as [|n IH]; intros opts r; [intros [= <-]; by exists []|]. destruct opts as [|kind rest]; [intros [= <-]; by exists []|].
  cbn [walk_options_mut walk_options]. destruct (kind =? OPT_KIND_EOL) eqn:E1; [intros [= <-]; exists []; cbn [walk_options]; by rewrite E1|].
  destruct (kind =? OPT_KIND_NOP) eqn:E2.
  { destruct (walk_options_mut n v rest) as [r'|] eqn:Er; [|done]. intros [= <-]. cbn [walk_options]. rewrite E1, E2. by apply IH. }
  destruct rest as [|len tail]; [intros [= <-]; exists []; cbn [walk_options]; by rewrite E1, E2|].
  destruct (((Z.to_nat len <? 2) || (length (kind :: len :: tail) <? Z.to_nat len))%nat) eqn:Eg.
  { intros [= <-]. exists []. cbn [walk_options]. by rewrite E1, E2, Eg. }
  destruct (_ && _) eqn:E3; [done|]. destruct (walk_options_mut n v _) as [r'|] eqn:Er; [|done].
  pose proof (walk_length _ _ Hv _ _ Er) as Hl. rewrite length_drop in Hl. destruct (IH _ _ Er) as (vs & V1 & V2).
  intros [= <-]. exists ((kind_from_raw kind, take (Z.to_nat len - 2) tail) :: vs). rewrite V1. split; [done|].
  cbn [walk_options]. rewrite E1, E2. apply orb_false_iff in Eg as [G1 G2]. apply Nat.ltb_ge in G1, G2. cbn [length] in G2.
  set (bl := (Z.to_nat len - 2)%nat) in *. set (body := v (kind_from_raw kind) (take bl tail)).
  assert (Hbl : length body = bl) by (unfold body; rewrite Hv, length_take; lia).
  cbn [length]. rewrite length_app, Hbl, Hl.
  rewrite (proj2 (Nat.ltb_ge (Z.to_nat len) 2)) by lia. rewrite (proj2 (Nat.ltb_ge (S (S (bl + (length tail - bl)))) (Z.to_nat len))) by lia.
  cbn [orb]. rewrite E3, (drop_app_length' _ _ _ (eq_sym Hbl)), (take_app_length' _ _ _ (eq_sym Hbl)). by rewrite V2.
Qed.
End Walks.

(** *** Writing a part *)

Lemma write_part (data old new p q data' : list Z) i : data = p ++ old ++ q -> i = length p -> length old = length new ->
  data' = p ++ new ++ q -> write_at i new data = Some data'.
Proof. intros -> -> Hl ->. by apply write_mid. Qed.

Ltac flat_tac := unfold flat, tcp_prefix, tcp_part; cbn [field_set fr_dst fr_src fr_pre fr_ipck fr_src_ip fr_dst_ip fr_ipopts fr_ports fr_seq fr_ack
    fr_mid fr_tck fr_urg fr_opts fr_payload fr_rest]; rewrite <- ?app_assoc; reflexivity.
Ltac lens := rewrite ?length_app, ?length_to_be32, ?length_to_be16, ?length_prefix by done; cbn [length]; lia.

Section Writes.
Context (f : Frame) (Hf : frame_ok f).

Lemma write_seq v : write_at (14 + ihl_of f + 4) (to_be32 v) (flat f) = Some (flat (f <| fr_seq := v |>)).
Proof.
  destruct Hf. eapply (write_part _ (to_be32 (fr_seq f)) _ (tcp_prefix f ++ fr_ports f)
    (to_be32 (fr_ack f) ++ fr_mid f ++ fr_tck f ++ fr_urg f ++ fr_opts f ++ fr_payload f ++ fr_rest f)); [flat_tac|lens|done|flat_tac].
Qed.
Lemma write_ack v : write_at (14 + ihl_of f + 8) (to_be32 v) (flat f) = Some (flat (f <| fr_ack := v |>)).
Proof.
  destruct Hf. eapply (write_part _ (to_be32 (fr_ack f)) _ (tcp_prefix f ++ fr_ports f ++ to_be32 (fr_seq f))
    (fr_mid f ++ fr_tck f ++ fr_urg f ++ fr_opts f ++ fr_payload f ++ fr_rest f)); [flat_tac|lens|done|flat_tac].
Qed.
Definition opts_prefix : list Z := tcp_prefix f ++ fr_ports f ++ to_be32 (fr_seq f) ++ to_be32 (fr_ack f) ++ fr_mid f ++ fr_tck f ++ fr_urg f.
Lemma length_opts_prefix : length opts_prefix = (14 + ihl_of f + 20)%nat.
Proof. destruct Hf. unfold opts_prefix. lens. Qed.
Lemma get_opts : get_slice (14 + ihl_of f + 20) (14 + ihl_of f + (20 + length (fr_opts f))) (flat f) = Some (fr_opts f).
Proof.
  replace (flat f) with (opts_prefix ++ fr_opts f ++ (fr_payload f ++ fr_rest f)) by (unfold opts_prefix; flat_tac).
  apply slice_mid; [by rewrite length_opts_prefix|lia].
Qed.
Lemma write_opts o : length o = length (fr_opts f) -> write_at (14 + ihl_of f + 20) o (flat f) = Some (flat (f <| fr_opts := o |>)).
Proof.
  intros Ho. eapply (write_part _ (fr_opts f) _ opts_prefix (fr_payload f ++ fr_rest f)); [unfold opts_prefix; flat_tac| |done|unfold opts_prefix; flat_tac].
  by rewrite length_opts_prefix.
Qed.
Lemma write_dst m : length m = 6%nat -> write_at 0 m (flat f) = Some (flat (f <| fr_dst := m |>)).
Proof. destruct Hf. intros Hm. eapply (write_part _ (fr_dst f) _ []); [flat_tac|done|lia|flat_tac]. Qed.
Lemma write_src m : length m = 6%nat -> write_at 6 m (flat f) = Some (flat (f <| fr_src := m |>)).
Proof. destruct Hf. intros Hm. eapply (write_part _ (fr_src f) _ (fr_dst f)); [flat_tac|lens|lia|flat_tac]. Qed.
Lemma write_ipck c : length c = 2%nat -> write_at (14 + 10) c (flat f) = Some (flat (f <| fr_ipck := c |>)).
Proof. destruct Hf. intros Hc. eapply (write_part _ (fr_ipck f) _ (fr_dst f ++ fr_src f ++ fr_pre f)); [flat_tac|lens|lia|flat_tac]. Qed.
Lemma write_tck c : length c = 2%nat -> write_at (14 + ihl_of f + 16) c (flat f) = Some (flat (f <| fr_tck := c |>)).
Proof.
  destruct Hf. intros Hc. eapply (write_part _ (fr_tck f) _ (tcp_prefix f ++ fr_ports f ++ to_be32 (fr_seq f) ++ to_be32 (fr_ack f) ++ fr_mid f)
    (fr_urg f ++ fr_opts f ++ fr_payload f ++ fr_rest f)); [flat_tac|lens|lia|flat_tac].
Qed.
Lemma get_ip_header : get_slice 14 (14 + ihl_of f) (flat f) = Some (ip_header f).
Proof.
  destruct Hf. unfold ip_header.
  replace (flat f) with ((fr_dst f ++ fr_src f ++ take 2 (fr_pre f)) ++ (drop 2 (fr_pre f) ++ fr_ipck f ++ fr_src_ip f ++ fr_dst_ip f ++ fr_ipopts f)
    ++ (tcp_part f ++ fr_rest f)).
  - apply slice_mid; rewrite ?length_app, ?length_take, ?length_drop; unfold ihl_of; lia.
  - unfold flat. rewrite <- !app_assoc. do 2 f_equal. rewrite (app_assoc (take 2 _)), take_drop. done.
Qed.
Lemma get_tcp : get_slice (14 + ihl_of f) (14 + ihl_of f + length (tcp_part f)) (flat f) = Some (tcp_part f).
Proof. rewrite (at_tcp f). apply slice_mid; [by rewrite (length_prefix f Hf)|done]. Qed.
End Writes.

(** The parts an edit may change without moving the others. *)
Definition same_shape (f g : Frame) : Prop :=
  length (fr_dst g) = 6%nat /\ length (fr_src g) = 6%nat /\ length (fr_ipck g) = 2%nat /\ length (fr_tck g) = 2%nat /\
  length (fr_opts g) = length (fr_opts f) /\ is_u32 (fr_seq g) /\ is_u32 (fr_ack g) /\
  (fr_pre g, fr_src_ip g, fr_dst_ip g, fr_ipopts g, fr_ports g, fr_mid g, fr_urg g, fr_payload g, fr_rest g) =
  (fr_pre f, fr_src_ip f, fr_dst_ip f, fr_ipopts f, fr_ports f, fr_mid f, fr_urg f, fr_payload f, fr_rest f).

Lemma shape_ok f g : frame_ok f -> same_shape f g -> frame_ok g.
Proof.
  intros [] (S1 & S2 & S3 & S4 & S5 & S6 & S7 & S8). injection S8 as E1 E2 E3 E4 E5 E6 E7 E8 E9.
  split; unfold total_of, ihl_of in *; rewrite ?E1, ?E2, ?E3, ?E4, ?E5, ?E6, ?E7, ?E8, ?S5; auto.
Qed.

Lemma length_sums f : length (ip_sum f) = 2%nat /\ length (tcp_sum f) = 2%nat.
Proof. done. Qed.

(** The last step of a rewrite. *)
Lemma recompute_flat fo f : frame_ok f -> fo_tcp_off fo = (14 + ihl_of f)%nat -> fo_ip_total_len fo = total_of f ->
  fo_src_ip fo = fr_src_ip f -> fo_dst_ip fo = fr_dst_ip f -> recompute_checksums fo (flat f) = Some (flat (checksummed f)).
Proof.
  intros Hf E1 E2 E3 E4. pose proof (length_tcp f Hf) as Lt.
  assert (Hs : forall a b, length a = 2%nat -> length b = 2%nat -> frame_ok (f <| fr_ipck := a |> <| fr_tck := b |>)).
  { intros a b Ha Hb. eapply shape_ok; [exact Hf|]. pose proof Hf as []. unfold same_shape. cbn. split_and!; tauto. }
  assert (Hs1 : forall a, length a = 2%nat -> frame_ok (f <| fr_ipck := a |>)).
  { intros a Ha. eapply shape_ok; [exact Hf|]. pose proof Hf as []. unfold same_shape. cbn. split_and!; tauto. }
  destruct (tcp_checksum (fr_src_ip f) (fr_dst_ip f) (u16 (Z.of_nat (length (tcp_part f)))) (tcp_part (f <| fr_tck := [0; 0] |>))) as [ck|] eqn:Eck.
  2: { exfalso. destruct Hf. unfold tcp_checksum in Eck.
       destruct (read_be16_some (fr_src_ip f) 0) as [? Er1], (read_be16_some (fr_src_ip f) 2) as [? Er2],
         (read_be16_some (fr_dst_ip f) 0) as [? Er3], (read_be16_some (fr_dst_ip f) 2) as [? Er4]; try lia.
       by rewrite Er1, Er2, Er3, Er4 in Eck. }
  unfold recompute_checksums. rewrite E1, E2, E3, E4. replace (14 + ihl_of f - 14)%nat with (ihl_of f) by lia.
  replace (total_of f - ihl_of f)%nat with (length (tcp_part f)) by (rewrite Lt; unfold total_of; lia).
  rewrite (write_ipck f Hf) by done. cbn [mbind option_bind].
  rewrite (get_ip_header (f <| fr_ipck := [0; 0] |>) (Hs1 [0; 0] eq_refl)
    : get_slice 14 (14 + ihl_of f) (flat (f <| fr_ipck := [0; 0] |>)) = _). cbn [mbind option_bind].
  change (to_be16 (internet_checksum (ip_header (f <| fr_ipck := [0; 0] |>)))) with (ip_sum f).
  rewrite (write_ipck (f <| fr_ipck := [0; 0] |>) (Hs1 [0; 0] eq_refl)) by done. cbn [mbind option_bind].
  set (g := f <| fr_ipck := ip_sum f |>). change (flat (f <| fr_ipck := [0; 0] |> <| fr_ipck := ip_sum f |>)) with (flat g).
  pose proof (Hs1 (ip_sum f) eq_refl) as Hg. pose proof (Hs (ip_sum f) [0; 0] eq_refl eq_refl) as Hg0.
  rewrite (write_tck g Hg [0; 0] eq_refl : write_at (14 + ihl_of f + 16) [0; 0] (flat g) = _). cbn [mbind option_bind].
  pose proof (get_tcp (g <| fr_tck := [0; 0] |>) Hg0) as G.
  assert (Lg : length (tcp_part (g <| fr_tck := [0; 0] |>)) = length (tcp_part f)) by exact (eq_trans (length_tcp _ Hg0) (eq_sym Lt)).
  rewrite Lg in G. rewrite (G : get_slice (14 + ihl_of f) (14 + ihl_of f + length (tcp_part f)) _ = _). cbn [mbind option_bind].
  change (tcp_part (g <| fr_tck := [0; 0] |>)) with (tcp_part (f <| fr_tck := [0; 0] |>)). rewrite Eck. cbn [mbind option_bind].
  rewrite (write_tck (g <| fr_tck := [0; 0] |>) Hg0 (to_be16 ck) eq_refl
    : write_at (14 + ihl_of f + 16) (to_be16 ck) (flat (g <| fr_tck := [0; 0] |>)) = _).
  unfold checksummed, tcp_sum. rewrite Eck. reflexivity.
Qed.

(** ** The rewrite as an edit *)

Lemma to_from_be32 a b c d : is_u8 a -> is_u8 b -> is_u8 c -> is_u8 d -> to_be32 (from_be32 a b c d) = [a; b; c; d].
Proof.
  intros Ha Hb Hc Hd. unfold to_be32, from_be32. repeat f_equal; unfold is_u8, two8 in *; Z.to_euclidean_division_equations; lia.
Qed.

(** Eight bytes of a list, or fewer than eight. *)
Lemma list_block_ind (P : list Z -> Prop) : (forall l, (length l < 8)%nat -> P l) ->
  (forall a b c d e g h i l, P l -> P (a :: b :: c :: d :: e :: g :: h :: i :: l)) -> forall l, P l.
Proof.
  intros H1 H2 l. remember (length l) as n eqn:En. revert l En. induction n as [n IH] using lt_wf_ind. intros l ->.
  do 8 (destruct l as [|? l]; [apply H1; cbn; lia|]). apply H2. eapply IH; [|reflexivity]. cbn. lia.
Qed.

Lemma blocks_short f l : (length l < 8)%nat -> rewrite_blocks f l = l.
Proof. intros Hl. do 8 (destruct l as [|? l]; [done|]). cbn in Hl. lia. Qed.

Lemma blocks_length f l : length (rewrite_blocks f l) = length l.
Proof.
  induction l as [l Hl|a b c d e g h i l IH] using list_block_ind; [by rewrite blocks_short|].
  cbn [rewrite_blocks]. rewrite !length_app, !length_to_be32, IH. cbn [length]. lia.
Qed.

Lemma blocks_id l : is_bytes l -> rewrite_blocks (fun x => x) l = l.
Proof.
  induction l as [l Hl|a b c d e g h i l IH] using list_block_ind; intros Hb; [by apply blocks_short|].
  repeat (apply Forall_cons in Hb as [? Hb]). cbn [rewrite_blocks]. rewrite !to_from_be32, IH by done. done.
Qed.

Lemma blocks_cons g x y l : is_u32 x -> is_u32 y ->
  rewrite_blocks g (to_be32 x ++ to_be32 y ++ l) = to_be32 (g x) ++ to_be32 (g y) ++ rewrite_blocks g l.
Proof.
  intros Hx Hy. rewrite <- (from_to_be32 x Hx) at 2. rewrite <- (from_to_be32 y Hy) at 2. reflexivity.
Qed.

Lemma blocks_compose f g l : (forall x, is_u32 (f x)) ->
  rewrite_blocks g (rewrite_blocks f l) = rewrite_blocks (fun x => g (f x)) l.
Proof.
  intros Hf. induction l as [l Hl|a b c d e h i j l IH] using list_block_ind; [by rewrite (blocks_short f), !blocks_short|].
  change (rewrite_blocks f (a :: b :: c :: d :: e :: h :: i :: j :: l)) with
    (to_be32 (f (from_be32 a b c d)) ++ to_be32 (f (from_be32 e h i j)) ++ rewrite_blocks f l).
  rewrite blocks_cons by apply Hf. by rewrite IH.
Qed.

Lemma blocks_ext f g l : is_bytes l -> (forall x, is_u32 x -> f x = g x) -> rewrite_blocks f l = rewrite_blocks g l.
Proof.
  intros Hb Hfg. induction l as [l Hl|a b c d e h i j l IH] using list_block_ind; [by rewrite !blocks_short|].
  repeat (apply Forall_cons in Hb as [? Hb]). cbn [rewrite_blocks].
  rewrite IH by done. rewrite !Hfg by (by apply from_be32_range). done.
Qed.

Lemma visit_length e : keeps_length (visit e).
Proof.
  intros k b. unfold visit. destruct k; try done; [apply blocks_length|].
  do 8 (destruct b as [|? b]; [done|]). destruct b; [|done]. rewrite length_app, length_to_be32. by destruct (negb _).
Qed.

Section Rewrite.
Context (opts : CanonicalizationOptions) (st : FlowState).

(** The edits of the second pass for a direction. *)
Definition edits_of (inst_key reverse_key : FlowKey) (iss : Z) (is_low : bool) : Edits := {|
  ed_seq := fun x => wadd32 (canonical_iss opts) (wsub32 x iss);
  ed_ack := fun x => match fs_iss st !! reverse_key with Some r => wadd32 (canonical_iss opts) (wsub32 x r) | None => x end;
  ed_tsval := fun x => wadd32 (canonical_ts_base opts) (wsub32 x (default x (fs_ts_base st !! inst_key)));
  ed_tsecr := fun x => match fs_ts_base st !! reverse_key with Some b => wadd32 (canonical_ts_base opts) (wsub32 x b) | None => x end;
  ed_our := if is_low then canonical_src_mac opts else canonical_dst_mac opts;
  ed_their := if is_low then canonical_dst_mac opts else canonical_src_mac opts
|}.

Lemma rewrite_option_visit inst rev iss low k b : is_bytes b -> rewrite_option opts st inst rev k b = visit (edits_of inst rev iss low) k b.
Proof.
  intros Hb. unfold rewrite_option, visit, edits_of. cbn [ed_seq ed_ack ed_tsval ed_tsecr]. destruct k; try done.
  - destruct (fs_iss st !! rev); [done|]. by rewrite blocks_id.
  - do 8 (destruct b as [|? b]; [done|]). destruct b; [|done]. repeat (apply Forall_cons in Hb as [? Hb]). f_equal.
    destruct (negb _); [|done]. destruct (fs_ts_base st !! rev); [done|]. by rewrite to_from_be32.
Qed.

Definition macs_ok : Prop := length (canonical_src_mac opts) = 6%nat /\ length (canonical_dst_mac opts) = 6%nat.

(** The direction of a frame, and its keys under a count of the openings. *)
Definition tuple_of (f : Frame) : ConnTuple := (classify_direction (fr_src_ip f) (port_at 0 f) (fr_dst_ip f) (port_at 2 f)).1.
Definition low_of (f : Frame) : bool := (classify_direction (fr_src_ip f) (port_at 0 f) (fr_dst_ip f) (port_at 2 f)).2.
Definition key_of (count : gmap ConnTuple Z) (f : Frame) : FlowKey := mkFlowKey (tuple_of f) (instance_of count (tuple_of f)) (low_of f).
Definition flip_key (k : FlowKey) : FlowKey := mkFlowKey (fk_tuple k) (fk_instance k) (negb (fk_is_low k)).
Definition opened (iss : gmap FlowKey Z) (f : Frame) (count : gmap ConnTuple Z) : gmap ConnTuple Z :=
  observe_syn iss (tuple_of f) (low_of f) (offsets f) count.

Lemma rewrite_flat {E} f count : frame_ok f -> is_bytes (fr_opts f) -> macs_ok ->
  rewrite_frame (E := E) (flat f) opts st count =
  let count := opened (fs_iss st) f count in
  match fs_iss st !! key_of count f with
  | None => Some (Ok (flat f, count))
  | Some iss =>
      let e := edits_of (key_of count f) (flip_key (key_of count f)) iss (low_of f) in
      match walk_options_mut (length (fr_opts f)) (visit e) (fr_opts f) with
      | Err x => Some (Err x)
      | Ok o => Some (Ok (flat (checksummed (edited e o f)), count))
      end
  end.
Proof.
  intros Hf Hb [Hm1 Hm2]. unfold rewrite_frame. rewrite (parse_flat f Hf). cbn [mbind option_bind].
  change (fo_src_ip (offsets f)) with (fr_src_ip f). change (fo_dst_ip (offsets f)) with (fr_dst_ip f).
  change (fo_src_port (offsets f)) with (port_at 0 f). change (fo_dst_port (offsets f)) with (port_at 2 f).
  unfold key_of, opened, tuple_of, low_of, flip_key. destruct (classify_direction _ _ _ _) as [t low]. cbn [fst snd fk_tuple fk_instance fk_is_low].
  cbv zeta. set (count' := observe_syn (fs_iss st) t low (offsets f) count). set (inst := mkFlowKey t (instance_of count' t) low).
  set (rev := mkFlowKey t (instance_of count' t) (negb low)).
  change (fs_iss st !! {| fk_tuple := t; fk_instance := instance_of count' t; fk_is_low := low |}) with (fs_iss st !! inst).
  destruct (fs_iss st !! inst) as [iss|]; [|done].
  change (fo_tcp_off (offsets f)) with (14 + ihl_of f)%nat. change (fo_tcp_data_off (offsets f)) with (20 + length (fr_opts f))%nat.
  change (fo_seq (offsets f)) with (fr_seq f). change (fo_ack (offsets f)) with (fr_ack f). change (fo_flags (offsets f)) with (flags_of f).
  set (e := edits_of inst rev iss low). change (wadd32 (canonical_iss opts) (wsub32 (fr_seq f) iss)) with (ed_seq e (fr_seq f)).
  rewrite (write_seq f Hf). cbn [mbind option_bind]. set (f1 := f <| fr_seq ::= ed_seq e |>).
  change (flat (f <| fr_seq := ed_seq e (fr_seq f) |>)) with (flat f1).
  assert (H1 : frame_ok f1).
  { eapply shape_ok; [exact Hf|]. pose proof Hf as []. unfold same_shape, f1. cbn. split_and!; try tauto. apply wadd32_range. }
  set (f2 := f1 <| fr_ack ::= fun a => if negb (Z.land (flags_of f) TCP_FLAG_ACK =? 0) then ed_ack e a else a |>).
  assert (H2 : frame_ok f2).
  { eapply shape_ok; [exact H1|]. pose proof H1 as []. unfold same_shape, f2. cbn. split_and!; try tauto.
    change (is_u32 (if negb (Z.land (flags_of f) TCP_FLAG_ACK =? 0) then ed_ack e (fr_ack f1) else fr_ack f1)).
    pose proof (proj2 (fk_nums _ H1)) as Ha. destruct (negb (Z.land _ _ =? 0)); [|exact Ha].
    change (ed_ack e (fr_ack f1)) with (match fs_iss st !! rev with Some r => wadd32 (canonical_iss opts) (wsub32 (fr_ack f1) r) | None => fr_ack f1 end).
    destruct (fs_iss st !! rev); [apply wadd32_range|exact Ha]. }
  match goal with |- mbind _ ?x = _ => assert (x = Some (flat f2)) as -> end.
  { unfold f2. destruct (negb (Z.land _ _ =? 0)); [|done]. change (ed_ack e (fr_ack f1)) with
      (match fs_iss st !! rev with Some r => wadd32 (canonical_iss opts) (wsub32 (fr_ack f) r) | None => fr_ack f end).
    cbn [field_set ed_ack e edits_of]. destruct (fs_iss st !! rev) as [r|]; [|done]. exact (write_ack f1 H1 _). }
  cbn [mbind option_bind]. rewrite (get_opts f2 H2 : get_slice (14 + ihl_of f + 20) (14 + ihl_of f + (20 + length (fr_opts f))) (flat f2) = Some (fr_opts f)).
  cbn [mbind option_bind].
  rewrite (walk_ext _ (rewrite_option opts st inst rev) (visit e)) by (done || intros; by apply rewrite_option_visit).
  destruct (walk_options_mut _ (visit e) (fr_opts f)) as [o|x] eqn:Ew; [|done]. apply walk_length in Ew; [|apply visit_length].
  rewrite (write_opts f2 H2 o Ew : write_at (14 + ihl_of f + 20) o (flat f2) = _). cbn [mbind option_bind].
  set (f3 := f2 <| fr_opts := o |>).
  assert (H3 : frame_ok f3).
  { eapply shape_ok; [exact H2|]. pose proof H2 as []. unfold same_shape, f3. cbn. split_and!; first [tauto|exact Ew]. }
  assert (Hmac : length (ed_our e) = 6%nat /\ length (ed_their e) = 6%nat) by (unfold e; cbn; by destruct low).
  assert (Em : (if low then (canonical_src_mac opts, canonical_dst_mac opts) else (canonical_dst_mac opts, canonical_src_mac opts)) =
    (ed_our e, ed_their e)) by (unfold e; cbn; by destruct low).
  rewrite Em. destruct Hmac as [Hm3 Hm4]. rewrite (write_dst f3 H3 _ Hm4). cbn [mbind option_bind].
  set (f4 := f3 <| fr_dst := ed_their e |>).
  assert (H4 : frame_ok f4).
  { eapply shape_ok; [exact H3|]. pose proof H3 as []. unfold same_shape, f4. cbn. split_and!; tauto. }
  rewrite (write_src f4 H4 _ Hm3). cbn [mbind option_bind]. set (f5 := f4 <| fr_src := ed_our e |>).
  assert (H5 : frame_ok f5).
  { eapply shape_ok; [exact H4|]. pose proof H4 as []. unfold same_shape, f5. cbn. split_and!; tauto. }
  rewrite (recompute_flat (offsets f) f5 H5); [reflexivity|reflexivity| |reflexivity|reflexivity].
  change (total_of f = (ihl_of f + 20 + length o + length (fr_payload f))%nat). unfold total_of. rewrite Ew. reflexivity.
Qed.
End Rewrite.

(** ** The first pass as a run *)

(** What a frame pins. *)
Definition ts_pinned (k : FlowKey) (vs : list (OptionKind * list Z)) (m : gmap FlowKey Z) : gmap FlowKey Z :=
  foldl (fun m v => pin_ts k v m) m vs.
Definition pinned (f : Frame) (vs : list (OptionKind * list Z)) (s : FlowState) : FlowState :=
  let count := opened (fs_iss s) f (fs_syn_count s) in
  mkFlowState (or_insert (key_of count f) (fr_seq f) (fs_iss s)) (ts_pinned (key_of count f) vs (fs_ts_base s)) count.

Lemma discover_flat {E} f s : frame_ok f ->
  discover_pins (E := E) (flat f) s =
  Some (match walk_options (length (fr_opts f)) (fr_opts f) with Ok vs => Ok (pinned f vs s) | Err e => Err e end).
Proof.
  intros Hf. unfold discover_pins. rewrite (parse_flat f Hf). cbn [mbind option_bind].
  change (fo_src_ip (offsets f)) with (fr_src_ip f). change (fo_dst_ip (offsets f)) with (fr_dst_ip f).
  change (fo_src_port (offsets f)) with (port_at 0 f). change (fo_dst_port (offsets f)) with (port_at 2 f).
  change (fo_tcp_off (offsets f)) with (14 + ihl_of f)%nat. change (fo_tcp_data_off (offsets f)) with (20 + length (fr_opts f))%nat.
  unfold pinned, key_of, opened, tuple_of, low_of. destruct (classify_direction _ _ _ _) as [t low]. cbn [fst snd]. cbv zeta.
  destruct (Nat.ltb_spec 20 (20 + length (fr_opts f))) as [Hl|Hl].
  - rewrite (get_opts f Hf). cbn [mbind option_bind]. by destruct (walk_options _ _).
  - destruct (fr_opts f); [reflexivity|cbn in Hl; lia].
Qed.

(** A packet is a frame or is left alone. *)
Lemma packet_cases data : is_bytes data ->
  parse_l2l3l4 data = Some None \/ exists f, frame_ok f /\ data = flat f /\ is_bytes (fr_opts f).
Proof.
  intros Hb. destruct (frame_parse_total data Hb) as [[fo|] E]; [right|by left]. destruct (parse_inv _ _ Hb E) as (f & Hf & -> & _).
  exists f. split_and!; [done|done|]. unfold flat, tcp_part, is_bytes in Hb. rewrite !Forall_app in Hb. tauto.
Qed.

Lemma lookup_or_insert `{Countable K} (k k' : K) v m :
  or_insert k v m !! k' = match m !! k' with Some x => Some x | None => if decide (k = k') then Some v else None end.
Proof.
  unfold or_insert. destruct (m !! k) as [x|] eqn:E.
  - destruct (m !! k') eqn:E'; [done|]. destruct (decide (k = k')) as [->|]; [congruence|done].
  - destruct (decide (k = k')) as [->|Hn]; [by rewrite lookup_insert_eq, E|]. rewrite lookup_insert_ne by done. destruct (m !! k'); done.
Qed.
Lemma or_insert_sub `{Countable K} (k : K) v m : m ⊆ or_insert k v m.
Proof. apply map_subseteq_spec. intros k' x E. by rewrite lookup_or_insert, E. Qed.
Lemma ts_pinned_sub k vs m : m ⊆ ts_pinned k vs m.
Proof.
  revert m. induction vs as [|[kd b] vs IH]; intros m; [done|]. cbn. etrans; [|apply IH].
  unfold pin_ts. repeat case_match; first [done|apply or_insert_sub].
Qed.

(** A state some packets later: pins stay, instances move on, and an instance left behind gets no pin. *)
Record later (n : Z) (s s' : FlowState) : Prop := {
  la_iss : fs_iss s ⊆ fs_iss s';
  la_ts : fs_ts_base s ⊆ fs_ts_base s';
  la_inst : forall t, instance_of (fs_syn_count s) t <= instance_of (fs_syn_count s') t <= instance_of (fs_syn_count s) t + n;
  la_left : forall k, fk_instance k < instance_of (fs_syn_count s) (fk_tuple k) -> fs_iss s' !! k = fs_iss s !! k
}.
Definition counted (m : Z) (s : FlowState) : Prop := forall t, 0 <= instance_of (fs_syn_count s) t <= m.

Lemma later_refl n s : 0 <= n -> later n s s.
Proof. intros Hn. split; try done. intros t. lia. Qed.
Lemma later_trans n m s1 s2 s3 : later n s1 s2 -> later m s2 s3 -> later (n + m) s1 s3.
Proof.
  intros [A1 A2 A3 A4] [B1 B2 B3 B4]. split; [by etrans|by etrans| |].
  - intros t. specialize (A3 t). specialize (B3 t). lia.
  - intros k Hk. rewrite B4, A4; [done|done|]. specialize (A3 (fk_tuple k)). lia.
Qed.
Lemma counted_later n m s s' : counted m s -> later n s s' -> counted (m + n) s'.
Proof. intros Hs [_ _ H _] t. specialize (Hs t). specialize (H t). lia. Qed.

Lemma instance_of_insert t t' v m : instance_of (<[t := v]> m) t' = if decide (t = t') then v else instance_of m t'.
Proof. unfold instance_of. destruct (decide (t = t')) as [->|Hn]; [by rewrite lookup_insert_eq|by rewrite lookup_insert_ne]. Qed.

(** Whether a frame opens an instance. *)
Definition opens (iss : gmap FlowKey Z) (f : Frame) (count : gmap ConnTuple Z) : bool :=
  negb (Z.land (flags_of f) TCP_FLAG_SYN =? 0) && (Z.land (flags_of f) TCP_FLAG_ACK =? 0) &&
  negb (bool_decide (iss !! key_of count f = Some (fr_seq f))).
Lemma opened_opens iss f count :
  opened iss f count = if opens iss f count then <[tuple_of f := wadd32 (instance_of count (tuple_of f)) 1]> count else count.
Proof.
  unfold opened, observe_syn, opens, key_of. change (fo_flags (offsets f)) with (flags_of f). change (fo_seq (offsets f)) with (fr_seq f).
  by destruct (negb (Z.land _ TCP_FLAG_SYN =? 0)), (Z.land _ TCP_FLAG_ACK =? 0), (bool_decide _).
Qed.

Lemma instance_opened iss f count m t : (forall t, 0 <= instance_of count t <= m) -> m + 1 < two32 ->
  instance_of (opened iss f count) t = instance_of count t + (if decide (tuple_of f = t) then Z.b2z (opens iss f count) else 0).
Proof.
  intros Hs Hm. rewrite opened_opens. destruct (opens _ _ _); [|cbn; case_decide; lia].
  rewrite instance_of_insert. case_decide as Ht; [|lia]. subst t. specialize (Hs (tuple_of f)). cbn. unfold wadd32, u32. rewrite Z.mod_small; lia.
Qed.

Lemma pinned_later f vs s m : counted m s -> m + 1 < two32 -> later 1 s (pinned f vs s).
Proof.
  intros Hs Hm. unfold pinned. pose proof (instance_opened (fs_iss s) f (fs_syn_count s) m) as Hi.
  split; cbn [fs_iss fs_ts_base fs_syn_count]; [apply or_insert_sub|apply ts_pinned_sub| |].
  - intros t. rewrite Hi by done. case_decide; [destruct (opens _ _ _); cbn; lia|lia].
  - intros k Hk. rewrite lookup_or_insert. destruct (fs_iss s !! k); [done|]. case_decide as E; [|done]. exfalso. subst k.
    cbn [key_of fk_instance fk_tuple] in Hk. rewrite Hi in Hk by done. rewrite decide_True in Hk by done. destruct (opens _ _ _); cbn in Hk; lia.
Qed.

(** Replayed with the final pins, a frame opens an instance where it did in the first pass. *)
Lemma opens_replay f vs s sf n m : counted m s -> m + 1 < two32 -> later n (pinned f vs s) sf ->
  opens (fs_iss sf) f (fs_syn_count s) = opens (fs_iss s) f (fs_syn_count s).
Proof.
  intros Hs Hm Hl. pose proof (pinned_later f vs s m Hs Hm) as H1. unfold opens at 1.
  destruct (opens (fs_iss s) f (fs_syn_count s)) eqn:Eo; unfold opens in Eo.
  - apply andb_true_iff in Eo as [E1 E2]. rewrite E1. cbn [andb]. apply negb_true_iff, bool_decide_eq_false in E2.
    apply negb_true_iff, bool_decide_eq_false. pose proof (la_left _ _ _ Hl (key_of (fs_syn_count s) f)) as L.
    pose proof (instance_opened (fs_iss s) f (fs_syn_count s) m (tuple_of f) Hs Hm) as Hi. rewrite decide_True in Hi by done.
    assert (Ho : opens (fs_iss s) f (fs_syn_count s) = true).
    { unfold opens. rewrite E1. cbn [andb]. by apply negb_true_iff, bool_decide_eq_false. }
    rewrite Ho in Hi. cbn [Z.b2z] in Hi. cbn [pinned fs_syn_count key_of fk_instance fk_tuple] in L. rewrite L by lia.
    unfold pinned. cbn [fs_iss]. rewrite lookup_or_insert. destruct (fs_iss s !! key_of _ _); [done|]. case_decide as E; [|done].
    exfalso. apply (f_equal fk_instance) in E. cbn [key_of fk_instance] in E. lia.
  - destruct (_ && (Z.land _ TCP_FLAG_ACK =? 0)) eqn:E1; [|done]. cbn [andb] in *.
    apply negb_false_iff, bool_decide_eq_true in Eo. apply negb_false_iff, bool_decide_eq_true.
    eapply lookup_weaken; [exact Eo|]. exact (transitivity (la_iss _ _ _ H1) (la_iss _ _ _ Hl)).
Qed.

(** ** Both passes over a capture *)

Fixpoint write_all {E W} (write : Packet -> W -> result W E) (ps : list Packet) (out : W) : result W (CanonError E) :=
  match ps with
  | [] => Ok out
  | p :: ps => match write p out with Ok out => write_all write ps out | Err e => Err (CePcap e) end
  end.

Section Passes.
Context {E : Type} (opts : CanonicalizationOptions) (Hmacs : macs_ok opts).

(** The packets of a capture and what the passes make of them, [sf] the state the first pass ends in. *)
Inductive passes (sf : FlowState) : FlowState -> list Packet -> list Packet -> Prop :=
  | passes_nil : passes sf sf [] []
  | passes_opaque s p ps ps' : parse_l2l3l4 (pp_data p) = Some None -> passes sf s ps ps' -> passes sf s (p :: ps) (p :: ps')
  | passes_frame s ts ol f vs iss o k e ps ps' :
      frame_ok f -> is_bytes (fr_opts f) -> walk_options (E := E) (length (fr_opts f)) (fr_opts f) = Ok vs ->
      k = key_of (fs_syn_count (pinned f vs s)) f -> fs_iss sf !! k = Some iss ->
      e = edits_of opts sf k (flip_key k) iss (low_of f) ->
      walk_options_mut (E := E) (length (fr_opts f)) (visit e) (fr_opts f) = Ok o ->
      passes sf (pinned f vs s) ps ps' ->
      passes sf s (mkPacket ts ol (flat f) :: ps) (mkPacket ts ol (flat (checksummed (edited e o f))) :: ps').

Lemma pinned_key f vs s : exists iss, fs_iss (pinned f vs s) !! key_of (fs_syn_count (pinned f vs s)) f = Some iss.
Proof.
  unfold pinned. cbn [fs_iss fs_syn_count]. rewrite lookup_or_insert, decide_True by done. case_match; by eexists.
Qed.

(** A malformed option, the only complaint of the passes themselves. *)
Definition malformed (data : list Z) (n : nat) : Prop :=
  exists f, frame_ok f /\ data = flat f /\ walk_options (E := E) (length (fr_opts f)) (fr_opts f) = Err (MalformedSackOption n).

Lemma walk_errors n o x : walk_options (E := E) n o = Err x -> exists k, x = MalformedSackOption k /\ (k mod 8)%nat <> 0%nat.
Proof.
  revert o. induction n as [|n IH]; intros o; [done|]. destruct o as [|kind rest]; [done|]. cbn [walk_options].
  destruct (_ =? OPT_KIND_EOL); [done|]. destruct (_ =? OPT_KIND_NOP); [apply IH|]. destruct rest as [|len tail]; [done|].
  destruct (_ || _); [done|]. destruct (_ && _) eqn:Eg.
  - intros [= <-]. eexists. split; [done|]. apply andb_true_iff in Eg as [_ Eg]. by apply negb_true_iff, Nat.eqb_neq in Eg.
  - destruct (walk_options n _) as [r|y] eqn:Ew; [done|]. intros [= <-]. exact (IH _ Ew).
Qed.

(** The first pass: it ends, complaining only of a malformed option. *)
Lemma discover_run ps : forall s m, Forall (fun p => is_bytes (pp_data p)) ps -> counted m s -> m + zlen ps < two32 ->
  (exists sf, discover_all (E := E) (map Ok ps) s = Some (Ok sf) /\ later (zlen ps) s sf) \/
  (exists p n, p ∈ ps /\ discover_all (E := E) (map Ok ps) s = Some (Err (MalformedSackOption n)) /\ malformed (pp_data p) n).
Proof.
  induction ps as [|p ps IH]; intros s m Hb Hs Hm; [left; exists s; split; [done|by apply later_refl]|].
  apply Forall_cons in Hb as [Hp Hb]. unfold zlen in *. cbn [length] in Hm. cbn [map discover_all].
  assert (Hlen : Z.of_nat (length (p :: ps)) = 1 + Z.of_nat (length ps)) by (cbn; lia).
  destruct (packet_cases _ Hp) as [Eo|(f & Hf & Ef & Ho)].
  - unfold discover_pins at 1 2. rewrite Eo. cbn [mbind option_bind].
    destruct (IH s m Hb Hs) as [(sf & -> & Hl)|(q & n & Hq & -> & Hq')]; [lia| |].
    + left. exists sf. split; [done|]. rewrite Hlen. eapply later_trans; [by apply later_refl|done].
    + right. exists q, n. split_and!; [by constructor|done|done].
  - rewrite Ef, (discover_flat f s Hf). cbn [mbind option_bind].
    destruct (walk_options (E := E) (length (fr_opts f)) (fr_opts f)) as [vs|x] eqn:Ew.
    + pose proof (pinned_later f vs s m Hs) as Hl. destruct (IH (pinned f vs s) (m + 1) Hb) as [(sf & -> & Hl')|(q & n & Hq & -> & Hq')];
        [eapply counted_later; [exact Hs|apply Hl; lia]|lia| |].
      * left. exists sf. split; [done|]. rewrite Hlen. eapply later_trans; [apply Hl; lia|done].
      * right. exists q, n. split_and!; [by constructor|done|done].
    + destruct (walk_errors _ _ _ Ew) as (n & -> & _). right. exists p, n. split_and!; [by constructor|done|]. by exists f.
Qed.

(** The second pass: it finds the pins of the first, and writes every packet. *)
Lemma passes_run ps : forall s m sf, Forall (fun p => is_bytes (pp_data p)) ps -> counted m s -> m + zlen ps < two32 ->
  discover_all (E := E) (map Ok ps) s = Some (Ok sf) ->
  exists ps', passes sf s ps ps' /\
    forall W (write : Packet -> W -> result W E) out,
      rewrite_all write opts sf (map Ok ps) (fs_syn_count s) out = Some (write_all write ps' out).
Proof.
  induction ps as [|p ps IH]; intros s m sf Hb Hs Hm; [intros [= <-]; exists []; split; [constructor|done]|].
  apply Forall_cons in Hb as [Hp Hb]. unfold zlen in *. cbn [length] in Hm. cbn [map discover_all].
  destruct (packet_cases _ Hp) as [Eo|(f & Hf & Ef & Ho)].
  - unfold discover_pins at 1. rewrite Eo. cbn [mbind option_bind]. intros Hd. destruct (IH s m sf Hb Hs) as (ps' & Hps & Hw); [lia|done|].
    exists (p :: ps'). split; [by constructor|]. intros W write out. cbn [rewrite_all]. unfold rewrite_frame. rewrite Eo. cbn [mbind option_bind write_all].
    destruct p as [ts ol data]. cbn [pp_ts pp_orig_len pp_data]. destruct (write _ out) as [out'|]; [apply Hw|done].
  - rewrite Ef, (discover_flat f s Hf). cbn [mbind option_bind].
    destruct (walk_options (E := E) (length (fr_opts f)) (fr_opts f)) as [vs|x] eqn:Ew; [|done]. intros Hd.
    pose proof (pinned_later f vs s m Hs ltac:(lia)) as Hl1. pose proof (counted_later _ _ _ _ Hs Hl1) as Hs1.
    assert (Hl2 : later (zlen ps) (pinned f vs s) sf).
    { destruct (discover_run ps (pinned f vs s) (m + 1)) as [(sf' & E' & ?)|(q & n & _ & E' & _)]; [done|done|unfold zlen; lia| |]; congruence. }
    destruct (IH (pinned f vs s) (m + 1) sf Hb Hs1) as (ps' & Hps & Hw); [lia|done|].
    destruct (pinned_key f vs s) as [iss Hi]. set (k := key_of (fs_syn_count (pinned f vs s)) f) in *.
    assert (Hi' : fs_iss sf !! k = Some iss) by (eapply lookup_weaken; [exact Hi|apply Hl2]).
    set (e := edits_of opts sf k (flip_key k) iss (low_of f)).
    pose proof (walk_agree (E := E) (length (fr_opts f)) (visit e) (fr_opts f)) as Ha. rewrite Ew in Ha.
    destruct (walk_options_mut _ (visit e) (fr_opts f)) as [o|] eqn:Eo; [|done].
    exists (mkPacket (pp_ts p) (pp_orig_len p) (flat (checksummed (edited e o f))) :: ps'). split.
    { destruct p as [ts ol data]. cbn [pp_data] in Ef. subst data. by eapply passes_frame. }
    intros W write out. cbn [rewrite_all]. rewrite Ef, (rewrite_flat opts sf f (fs_syn_count s) Hf Ho Hmacs). cbv zeta.
    assert (Ec : opened (fs_iss sf) f (fs_syn_count s) = fs_syn_count (pinned f vs s)).
    { unfold pinned. cbn [fs_syn_count]. rewrite !opened_opens. rewrite (opens_replay f vs s sf (zlen ps) m Hs) by (done || lia). done. }
    rewrite Ec. fold k. rewrite Hi'. fold e. rewrite Eo. cbn [mbind option_bind write_all].
    destruct (write _ out) as [out'|]; [apply Hw|done].
Qed.

Lemma passes_sub sf s ps ps' : passes sf s ps ps' -> fs_iss s ⊆ fs_iss sf /\ fs_ts_base s ⊆ fs_ts_base sf.
Proof.
  induction 1 as [|s p ps ps' _ _ IH|s ts ol f vs iss o k e ps ps' _ _ _ _ _ _ _ _ [I1 I2]]; [done|done|].
  split; (etrans; [|eassumption]); [apply or_insert_sub|apply ts_pinned_sub].
Qed.
End Passes.

(** ** The timestamp a frame pins *)

Fixpoint first_ts (vs : list (OptionKind * list Z)) : option Z :=
  match vs with
  | [] => None
  | (Timestamps, [a; b; c; d; _; _; _; _]) :: _ => Some (from_be32 a b c d)
  | _ :: vs => first_ts vs
  end.

Lemma ts_pinned_lookup k vs m k' :
  ts_pinned k vs m !! k' = match m !! k' with Some x => Some x | None => if decide (k = k') then first_ts vs else None end.
Proof.
  revert m. induction vs as [|[kd b] vs IH]; intros m; [cbn; by destruct (m !! k'), (decide (k = k'))|].
  unfold ts_pinned. cbn [foldl]. fold (ts_pinned k vs (pin_ts k (kd, b) m)). rewrite IH. cbn [pin_ts first_ts].
  destruct kd; try reflexivity. do 8 (destruct b as [|? b]; [reflexivity|]). destruct b; [|reflexivity].
  rewrite lookup_or_insert. destruct (m !! k'); [done|]. by destruct (decide (k = k')).
Qed.

Lemma first_ts_visit e vs : (forall x, is_u32 (ed_tsval e x)) ->
  first_ts (map (fun x => (x.1, visit e x.1 x.2)) vs) = ed_tsval e <$> first_ts vs.
Proof.
  intros He. induction vs as [|[kd b] vs IH]; [done|]. cbn [map fst snd]. destruct kd; try exact IH.
  do 8 (destruct b as [|? b]; [exact IH|]). destruct b as [|? b]; [|exact IH].
  change (first_ts ((Timestamps, visit e Timestamps [z; z0; z1; z2; z3; z4; z5; z6]) :: map (fun x => (x.1, visit e x.1 x.2)) vs) =
    Some (ed_tsval e (from_be32 z z0 z1 z2))). rewrite <- (from_to_be32 (ed_tsval e _) (He _)).
  unfold visit. destruct (negb _); reflexivity.
Qed.

Lemma first_ts_some vs a b c d x y z w : (Timestamps, [a; b; c; d; x; y; z; w]) ∈ vs -> is_Some (first_ts vs).
Proof.
  induction vs as [|[kd l] vs IH]; intros Hin; [by apply elem_of_nil in Hin|]. apply elem_of_cons in Hin as [[= <- <-]|Hin]; [by eexists|].
  specialize (IH Hin). cbn [first_ts]. destruct kd; try exact IH. do 8 (destruct l as [|? l]; [exact IH|]). destruct l; [by eexists|exact IH].
Qed.

(** Visitors that agree on the options there are do the same. *)
Lemma walk_ext_visits {E} n v w : forall opts vs, walk_options (E := E) n opts = Ok vs -> Forall (fun x => v x.1 x.2 = w x.1 x.2) vs ->
  walk_options_mut (E := E) n v opts = walk_options_mut n w opts.
Proof.
  induction n as [|n IH]; intros opts vs; [done|]. destruct opts as [|kind rest]; [done|]. cbn [walk_options walk_options_mut].
  destruct (_ =? OPT_KIND_EOL); [done|]. destruct (_ =? OPT_KIND_NOP); [intros Ev Hv; by rewrite (IH _ _ Ev Hv)|].
  destruct rest as [|len tail]; [done|]. destruct (_ || _); [done|]. destruct (_ && _); [done|].
  destruct (walk_options n _) as [vs'|] eqn:Ev; [|done]. intros [= <-] Hv. apply Forall_cons in Hv as [H1 H2]. cbn [fst snd] in H1.
  by rewrite (IH _ _ Ev H2), H1.
Qed.

Lemma walk_bytes {E} n opts vs : is_bytes opts -> walk_options (E := E) n opts = Ok vs -> Forall (fun x => is_bytes x.2) vs.
Proof.
  revert opts vs. induction n as [|n IH]; intros opts vs Hb; [by intros [= <-]|]. destruct opts as [|kind rest]; [by intros [= <-]|].
  cbn [walk_options]. apply Forall_cons in Hb as [_ Hb]. destruct (_ =? OPT_KIND_EOL); [by intros [= <-]|].
  destruct (_ =? OPT_KIND_NOP); [by apply IH|]. destruct rest as [|len tail]; [by intros [= <-]|]. apply Forall_cons in Hb as [_ Hb].
  destruct (_ || _); [by intros [= <-]|]. destruct (_ && _); [done|]. destruct (walk_options n _) as [r|] eqn:Ew; [|done]. intros [= <-].
  constructor; [by apply Forall_take|]. eapply IH; [|exact Ew]. by apply Forall_drop.
Qed.

(** A visitor that leaves the options there are alone leaves the bytes alone. *)
Lemma walk_id {E} n v : forall opts vs, walk_options (E := E) n opts = Ok vs -> Forall (fun x => v x.1 x.2 = x.2) vs ->
  walk_options_mut (E := E) n v opts = Ok opts.
Proof.
  induction n as [|n IH]; intros opts vs; [done|]. destruct opts as [|kind rest]; [done|]. cbn [walk_options walk_options_mut].
  destruct (_ =? OPT_KIND_EOL); [done|]. destruct (_ =? OPT_KIND_NOP); [intros Ev Hv; by rewrite (IH _ _ Ev Hv)|].
  destruct rest as [|len tail]; [done|]. destruct (_ || _); [done|]. destruct (_ && _); [done|].
  destruct (walk_options n _) as [vs'|] eqn:Ev; [|done]. intros [= <-] Hv. apply Forall_cons in Hv as [H1 H2]. cbn [fst snd] in H1.
  by rewrite (IH _ _ Ev H2), H1, take_drop.
Qed.

(** The parts of a frame are determined by its bytes. *)
Lemma to_be32_inj x y : is_u32 x -> is_u32 y -> to_be32 x = to_be32 y -> x = y.
Proof. intros Hx Hy E. rewrite <- (from_to_be32 x Hx), <- (from_to_be32 y Hy). unfold to_be32 in E. by injection E as -> -> -> ->. Qed.

Ltac app_split H := apply app_inj_1 in H as [? H]; [|congruence].

Lemma flat_inj f g : frame_ok f -> frame_ok g -> flat f = flat g -> f = g.
Proof.
  intros [F1 F2 F3 F4 F5 F6 F7 F8 F9 F10 _ (b & Eb & Ib) _ (t & Et & It) (d & Ed & Id) [Fs Fa]]
    [G1 G2 G3 G4 G5 G6 G7 G8 G9 G10 _ (b' & Eb' & Ib') _ (t' & Et' & It') (d' & Ed' & Id') [Gs Ga]] H.
  unfold flat, tcp_part in H. rewrite <- !app_assoc in H.
  app_split H. app_split H. app_split H. app_split H. app_split H. app_split H.
  assert (Ei : length (fr_ipopts f) = length (fr_ipopts g)) by (unfold ihl_of in *; assert (b' = b) as -> by congruence; lia).
  app_split H. app_split H. apply app_inj_1 in H as [Hs H]; [|done]. apply app_inj_1 in H as [Ha H]; [|done].
  app_split H. app_split H. app_split H. apply to_be32_inj in Hs; [|done|done]. apply to_be32_inj in Ha; [|done|done].
  assert (Eo : length (fr_opts f) = length (fr_opts g)) by (assert (d' = d) as -> by congruence; lia).
  app_split H. assert (Ep : length (fr_payload f) = length (fr_payload g)) by (unfold total_of, ihl_of in *; assert (t' = t) as -> by congruence; lia).
  app_split H. destruct f, g; cbn in *. by subst.
Qed.

(** ** Normalising twice *)

Definition pin (k : FlowKey) (v : option Z) (m : gmap FlowKey Z) : gmap FlowKey Z :=
  match v with Some v => or_insert k v m | None => m end.
Lemma lookup_pin k v m k' : pin k v m !! k' = match m !! k' with Some x => Some x | None => if decide (k = k') then v else None end.
Proof. unfold pin. destruct v; [apply lookup_or_insert|]. by destruct (m !! k'), (decide (k = k')). Qed.
Lemma ts_pinned_pin k vs m : ts_pinned k vs m = pin k (first_ts vs) m.
Proof. apply map_eq. intros k'. by rewrite ts_pinned_lookup, lookup_pin. Qed.

Definition now (c : gmap ConnTuple Z) (t : ConnTuple) (low : bool) : FlowKey := mkFlowKey t (instance_of c t) low.

(** Every pin of an open instance of one run has its counterpart in the other. *)
Definition covers (cA cB : gmap ConnTuple Z) (mA mB : gmap FlowKey Z) : Prop :=
  forall t low, is_Some (mA !! now cA t low) -> is_Some (mB !! now cB t low).
(** No instance to come has a pin. *)
Definition no_future (c : gmap ConnTuple Z) (m : gmap FlowKey Z) : Prop :=
  forall k, is_Some (m !! k) -> fk_instance k <= instance_of c (fk_tuple k).
Definition all_are (v : Z) (m : gmap FlowKey Z) : Prop := forall k x, m !! k = Some x -> x = v.

Section Follow.
Context (cA cB cA' cB' : gmap ConnTuple Z) (t : ConnTuple) (low : bool) (a b : bool).
Context (HA : forall t', instance_of cA' t' = instance_of cA t' + (if decide (t = t') then Z.b2z a else 0)).
Context (HB : forall t', instance_of cB' t' = instance_of cB t' + (if decide (t = t') then Z.b2z b else 0)).
Context (Hab : b = true -> a = true) (mA mB : gmap FlowKey Z) (Hc : covers cA cB mA mB) (Hn : no_future cA mA).

Lemma now_same (c c' : gmap ConnTuple Z) (x : bool) t' l : (forall t', instance_of c' t' = instance_of c t' + (if decide (t = t') then Z.b2z x else 0)) ->
  t' <> t \/ x = false -> now c' t' l = now c t' l.
Proof. intros H Ht. unfold now. f_equal. rewrite H. case_decide; [destruct Ht; [congruence|]; subst x; cbn|]; lia. Qed.

Lemma opened_missing l : a = true -> mA !! now cA' t l = None.
Proof.
  intros Ea. destruct (mA !! now cA' t l) eqn:E; [|done]. exfalso. specialize (Hn _ (mk_is_Some _ _ E)). cbn in Hn.
  rewrite HA, decide_True in Hn by done. rewrite Ea in Hn. cbn in Hn. lia.
Qed.

Lemma missing : mB !! now cB' t low = None -> mA !! now cA' t low = None.
Proof.
  destruct (sumbool_of_bool a) as [Ea|Ea]; [intros _; by apply opened_missing|]. assert (Eb : b = false) by (apply not_true_iff_false; intros Eb; specialize (Hab Eb); congruence).
  rewrite (now_same cA cA' a t low HA) by (by right). rewrite (now_same cB cB' b t low HB) by (by right).
  intros E. specialize (Hc t low). destruct (mA !! now cA t low); [|done]. rewrite E in Hc. by destruct (Hc (mk_is_Some _ _ eq_refl)).
Qed.

Lemma follow vA vB v : (is_Some vA -> is_Some vB) -> all_are v mB -> (mA !! now cA' t low = None -> forall x, vB = Some x -> x = v) ->
  covers cA' cB' (pin (now cA' t low) vA mA) (pin (now cB' t low) vB mB) /\ no_future cA' (pin (now cA' t low) vA mA) /\
  all_are v (pin (now cB' t low) vB mB).
Proof.
  intros Hv Hall Hx. split_and!.
  - intros t' l Hs. rewrite lookup_pin in Hs |- *. destruct (mB !! now cB' t' l) eqn:EB; [done|].
    destruct (decide (now cB' t low = now cB' t' l)) as [E|E].
    { assert (t' = t /\ l = low) as [-> ->] by (unfold now in E; by injection E). rewrite missing in Hs by done. rewrite decide_True in Hs by done. auto. }
    destruct (decide (t' = t)) as [->|Ht].
    + assert (Hl : l <> low) by (intros ->; done). rewrite (decide_False (P := now cA' t low = now cA' t l)) in Hs by (unfold now; congruence).
      destruct (sumbool_of_bool a) as [Ea|Ea]; [rewrite opened_missing in Hs by done; by destruct Hs|].
      assert (Eb : b = false) by (apply not_true_iff_false; intros Eb; specialize (Hab Eb); congruence).
      rewrite (now_same cA cA' a t l HA) in Hs by (by right). rewrite (now_same cB cB' b t l HB) in EB by (by right).
      specialize (Hc t l). destruct (mA !! now cA t l); [|by destruct Hs]. rewrite EB in Hc. exact (Hc (mk_is_Some _ _ eq_refl)).
    + rewrite (decide_False (P := now cA' t low = now cA' t' l)) in Hs by (unfold now; congruence).
      rewrite (now_same cA cA' a t' l HA) in Hs by (by left). rewrite (now_same cB cB' b t' l HB) in EB by (by left).
      specialize (Hc t' l). destruct (mA !! now cA t' l); [|by destruct Hs]. rewrite EB in Hc. exact (Hc (mk_is_Some _ _ eq_refl)).
  - intros k Hk. rewrite lookup_pin in Hk. destruct (mA !! k) eqn:E.
    + specialize (Hn _ (mk_is_Some _ _ E)). rewrite HA. case_decide; [unfold Z.b2z; destruct a; lia|lia].
    + case_decide as Ek; [subst k; cbn; lia|by destruct Hk].
  - intros k x. rewrite lookup_pin. destruct (mB !! k) eqn:E; [intros [= <-]; by eapply Hall|]. case_decide as Ek; [|done]. subst k.
    apply Hx. by apply missing.
Qed.
End Follow.

Lemma shift_self c x : is_u32 c -> wadd32 c (wsub32 x x) = c.
Proof. unfold is_u32, wadd32, wsub32, u32, two32. intros H. rewrite Z.sub_diag. change (0 mod 4294967296) with 0. rewrite Z.add_0_r. by apply Z.mod_small. Qed.
Lemma shift_back c x : is_u32 x -> wadd32 c (wsub32 x c) = x.
Proof.
  unfold is_u32, wadd32, wsub32, u32, two32. intros H. rewrite Zplus_mod_idemp_r. replace (c + (x - c)) with x by lia. by apply Z.mod_small.
Qed.

Section Twice.
Context {E : Type} (opts : CanonicalizationOptions) (Hmacs : macs_ok opts).
Context (Hiss : is_u32 (canonical_iss opts)) (Hts : is_u32 (canonical_ts_base opts)).

(** A run over the original and one over the result, both so far. *)
Record shadows (s u : FlowState) : Prop := {
  sh_iss : covers (fs_syn_count s) (fs_syn_count u) (fs_iss s) (fs_iss u);
  sh_ts : covers (fs_syn_count s) (fs_syn_count u) (fs_ts_base s) (fs_ts_base u);
  sh_iss_new : no_future (fs_syn_count s) (fs_iss s);
  sh_ts_new : no_future (fs_syn_count s) (fs_ts_base s);
  sh_iss_all : all_are (canonical_iss opts) (fs_iss u);
  sh_ts_all : all_are (canonical_ts_base opts) (fs_ts_base u)
}.

Section Step.
Context (f : Frame) (vs : list (OptionKind * list Z)) (s u sf : FlowState) (m : Z) (iss : Z) (o : list Z).
Context (Hs : counted m s) (Hu : counted m u) (Hm : m + 1 < two32) (Hsh : shadows s u).
Let s' := pinned f vs s.
Let k := key_of (fs_syn_count s') f.
Let e := edits_of opts sf k (flip_key k) iss (low_of f).
Let g := checksummed (edited e o f).
Let vs' := map (fun x => (x.1, visit e x.1 x.2)) vs.
Context (Hi : fs_iss sf !! k = Some iss) (Hsub : fs_iss s' ⊆ fs_iss sf /\ fs_ts_base s' ⊆ fs_ts_base sf).

Lemma final_iss_of : fs_iss s !! k = None -> iss = fr_seq f.
Proof.
  intros Hk. assert (E1 : fs_iss s' !! k = Some (fr_seq f)) by (unfold s', pinned; cbn [fs_iss]; rewrite lookup_or_insert, decide_True by done;
    change (key_of (opened (fs_iss s) f (fs_syn_count s)) f) with k; by rewrite Hk).
  assert (E2 := lookup_weaken _ _ _ _ E1 (proj1 Hsub)). congruence.
Qed.

Lemma shadow_opens : opens (fs_iss u) g (fs_syn_count u) = true -> opens (fs_iss s) f (fs_syn_count s) = true.
Proof.
  unfold opens. change (flags_of g) with (flags_of f). destruct (_ && (Z.land _ TCP_FLAG_ACK =? 0)) eqn:E1; [|done]. cbn [andb].
  intros Hb. apply negb_true_iff, bool_decide_eq_false in Hb. apply negb_true_iff, bool_decide_eq_false. intros Ha. apply Hb.
  assert (Eo : opens (fs_iss s) f (fs_syn_count s) = false).
  { unfold opens. rewrite E1. cbn [andb]. by apply negb_false_iff, bool_decide_eq_true. }
  assert (Ek : k = key_of (fs_syn_count s) f) by (unfold k, s', pinned; cbn [fs_syn_count]; by rewrite opened_opens, Eo).
  assert (Ei : fs_iss s' !! k = Some (fr_seq f)).
  { unfold s', pinned. cbn [fs_iss]. change (key_of (opened (fs_iss s) f (fs_syn_count s)) f) with k. rewrite lookup_or_insert, Ek, Ha. done. }
  assert (iss = fr_seq f) as Hq by (pose proof (lookup_weaken _ _ _ _ Ei (proj1 Hsub)); congruence).
  change (fr_seq g) with (wadd32 (canonical_iss opts) (wsub32 (fr_seq f) iss)). rewrite Hq, shift_self by done.
  change (key_of (fs_syn_count u) g) with (now (fs_syn_count u) (tuple_of f) (low_of f)).
  destruct (sh_iss _ _ Hsh (tuple_of f) (low_of f)) as [x Hx]; [exists (fr_seq f); exact Ha|]. rewrite Hx. f_equal. exact (sh_iss_all _ _ Hsh _ _ Hx).
Qed.

Lemma shadow_step : shadows s' (pinned g vs' u).
Proof.
  destruct Hsh as [H1 H2 H3 H4 H5 H6].
  set (cA' := opened (fs_iss s) f (fs_syn_count s)). set (cB' := opened (fs_iss u) g (fs_syn_count u)).
  pose proof (instance_opened (fs_iss s) f (fs_syn_count s) m) as HA. pose proof (instance_opened (fs_iss u) g (fs_syn_count u) m) as HB.
  change (tuple_of g) with (tuple_of f) in HB.
  pose proof (follow (fs_syn_count s) (fs_syn_count u) cA' cB' (tuple_of f) (low_of f) _ _ (fun t => HA t Hs Hm) (fun t => HB t Hu Hm) shadow_opens) as F.
  destruct (F (fs_iss s) (fs_iss u) H1 H3 (Some (fr_seq f)) (Some (fr_seq g)) (canonical_iss opts)) as (A1 & A2 & A3); [by eexists|done| |].
  { intros Hk x [= <-]. change (fr_seq g) with (wadd32 (canonical_iss opts) (wsub32 (fr_seq f) iss)).
    rewrite final_iss_of by exact Hk. by apply shift_self. }
  assert (Ht : forall x, is_u32 (ed_tsval e x)) by (intros x; apply wadd32_range).
  destruct (F (fs_ts_base s) (fs_ts_base u) H2 H4 (first_ts vs) (first_ts vs') (canonical_ts_base opts)) as (B1 & B2 & B3).
  { unfold vs'. rewrite first_ts_visit by done. by destruct (first_ts vs). }
  { done. }
  { intros Hk x. unfold vs'. rewrite first_ts_visit by done. destruct (first_ts vs) as [v|] eqn:Ev; [|done]. intros [= <-].
    assert (E1 : fs_ts_base s' !! k = Some v).
    { unfold s', pinned. cbn [fs_ts_base]. change (key_of (opened (fs_iss s) f (fs_syn_count s)) f) with k. rewrite ts_pinned_lookup, decide_True by done.
      change k with (now cA' (tuple_of f) (low_of f)). by rewrite Hk. }
    unfold e, edits_of. cbn [ed_tsval]. rewrite (lookup_weaken _ _ _ _ E1 (proj2 Hsub)). by apply shift_self. }
  rewrite <- !ts_pinned_pin in *. split; assumption.
Qed.
End Step.

(** *** What the passes write *)

Lemma edit_ok e o f : frame_ok f -> length (ed_our e) = 6%nat -> length (ed_their e) = 6%nat -> length o = length (fr_opts f) ->
  is_u32 (ed_seq e (fr_seq f)) -> is_u32 (ed_ack e (fr_ack f)) -> frame_ok (edited e o f) /\ frame_ok (checksummed (edited e o f)).
Proof.
  intros Hf H1 H2 H3 H4 H5.
  assert (Ha : is_u32 (fr_ack (edited e o f))).
  { change (is_u32 (if negb (Z.land (flags_of f) TCP_FLAG_ACK =? 0) then ed_ack e (fr_ack f) else fr_ack f)).
    destruct (negb _); [done|]. by destruct (fk_nums _ Hf). }
  split; (eapply shape_ok; [exact Hf|]); pose proof Hf as []; unfold same_shape; split_and!; first [done|tauto|exact H3|exact H4|exact Ha].
Qed.

Lemma edits_ok st k iss f : frame_ok f -> length (ed_our (edits_of opts st k (flip_key k) iss (low_of f))) = 6%nat /\
  length (ed_their (edits_of opts st k (flip_key k) iss (low_of f))) = 6%nat /\
  is_u32 (ed_seq (edits_of opts st k (flip_key k) iss (low_of f)) (fr_seq f)) /\
  is_u32 (ed_ack (edits_of opts st k (flip_key k) iss (low_of f)) (fr_ack f)).
Proof.
  intros Hf. destruct Hmacs as [M1 M2]. cbn [ed_our ed_their ed_seq ed_ack edits_of]. split_and!; try by destruct (low_of f).
  - apply wadd32_range.
  - destruct (fs_iss st !! _); [apply wadd32_range|]. by destruct (fk_nums _ Hf).
Qed.

Lemma blocks_bytes f l : is_bytes l -> is_bytes (rewrite_blocks f l).
Proof.
  induction l as [l Hl|a b c d e h i j l IH] using list_block_ind; intros Hb; [by rewrite blocks_short|].
  repeat (apply Forall_cons in Hb as [? Hb]). cbn [rewrite_blocks]. apply Forall_app; split; [apply to_be32_bytes|].
  apply Forall_app; split; [apply to_be32_bytes|by apply IH].
Qed.
Lemma visit_bytes e kd b : is_bytes b -> is_bytes (visit e kd b).
Proof.
  intros Hb. unfold visit. destruct kd; try done; [by apply blocks_bytes|].
  do 8 (destruct b as [|? b]; [done|]). destruct b; [|done]. apply Forall_app; split; [apply to_be32_bytes|].
  destruct (negb _); [apply to_be32_bytes|]. by do 4 (apply Forall_cons in Hb as [_ Hb]).
Qed.
Lemma walk_visit_bytes e n : forall l r, is_bytes l -> walk_options_mut (E := E) n (visit e) l = Ok r -> is_bytes r.
Proof.
  induction n as [|n IH]; intros l r Hb; [by intros [= <-]|]. destruct l as [|kind rest]; [by intros [= <-]|]. cbn [walk_options_mut].
  pose proof Hb as Hb0. apply Forall_cons in Hb as [Hk Hb]. destruct (_ =? OPT_KIND_EOL); [by intros [= <-]|]. destruct (_ =? OPT_KIND_NOP).
  { destruct (walk_options_mut n _ rest) as [r'|] eqn:Er; [|done]. intros [= <-]. constructor; [done|exact (IH _ _ Hb Er)]. }
  destruct rest as [|len tail]; [by intros [= <-]|]. apply Forall_cons in Hb as [Hl Hb]. destruct (_ || _); [by intros [= <-]|].
  destruct (_ && _); [done|]. destruct (walk_options_mut n _ _) as [r'|] eqn:Er; [|done]. intros [= <-].
  do 2 (constructor; [done|]). apply Forall_app; split; [by apply visit_bytes, Forall_take|]. eapply IH; [|exact Er]. by apply Forall_drop.
Qed.

Definition normal_frame (h : Frame) : Prop :=
  (frame_ok h /\ frame_ok (checksummed h)) /\ is_bytes (fr_opts h) /\ fr_src h = (if low_of h then canonical_src_mac opts else canonical_dst_mac opts) /\
  fr_dst h = (if low_of h then canonical_dst_mac opts else canonical_src_mac opts).
Definition normal_packet (p : Packet) : Prop :=
  parse_l2l3l4 (pp_data p) = Some None \/ exists h, normal_frame h /\ pp_data p = flat (checksummed h).

Lemma passes_normal sf s ps ps' : passes (E := E) opts sf s ps ps' -> Forall normal_packet ps'.
Proof.
  induction 1 as [|s p ps ps' Ep _ IH|s ts ol f vs iss o k e ps ps' Hf Hb Ew Ek Ei -> Eo _ IH]; [done|constructor; [by left|done]|].
  constructor; [right|done]. exists (edited (edits_of opts sf k (flip_key k) iss (low_of f)) o f). split; [|done].
  destruct (edits_ok sf k iss f Hf) as (H1 & H2 & H3 & H4). pose proof (walk_length _ _ (visit_length _) _ _ Eo) as Hl.
  split; [by eapply edit_ok|]. split; [exact (walk_visit_bytes _ _ _ _ Hb Eo)|done].
Qed.

(** Over its own result the first pass finds canonical values only. *)
Lemma passes_shadow sf s ps ps' : passes (E := E) opts sf s ps ps' -> forall u m, counted m s -> counted m u -> m + zlen ps < two32 -> shadows s u ->
  exists uf, discover_all (E := E) (map Ok ps') u = Some (Ok uf) /\
    all_are (canonical_iss opts) (fs_iss uf) /\ all_are (canonical_ts_base opts) (fs_ts_base uf).
Proof.
  induction 1 as [|s p ps ps' Ep _ IH|s ts ol f vs iss o k e ps ps' Hf Hb Ew Ek Ei -> Eo Hp IH]; intros u m Hs Hu Hm Hsh.
  - exists u. split_and!; [done|apply Hsh|apply Hsh].
  - cbn [map discover_all]. unfold discover_pins at 1. rewrite Ep. cbn [mbind option_bind]. apply (IH u m); try done.
    unfold zlen in *. cbn [length] in Hm. lia.
  - unfold zlen in *. cbn [length] in Hm. cbn [map discover_all pp_data]. set (e := edits_of opts sf k (flip_key k) iss (low_of f)) in *.
    destruct (edits_ok sf k iss f Hf) as (H1 & H2 & H3 & H4). pose proof (walk_length _ _ (visit_length _) _ _ Eo) as Hl.
    assert (Hg : frame_ok (checksummed (edited e o f))) by (by eapply edit_ok).
    rewrite (discover_flat _ _ Hg). cbn [mbind option_bind]. change (fr_opts (checksummed (edited e o f))) with o. rewrite Hl.
    destruct (visits_after _ _ (visit_length e) _ _ Eo) as (vs0 & V1 & V2). rewrite Ew in V1. injection V1 as <-. rewrite V2.
    pose proof (passes_sub _ _ _ _ _ Hp) as Hsub. rewrite Ek in Ei.
    apply (IH _ (m + 1)); [eapply counted_later; [exact Hs|eapply pinned_later; [exact Hs|lia]]|
      eapply counted_later; [exact Hu|eapply pinned_later; [exact Hu|lia]]|lia|].
    unfold e. rewrite Ek. eapply shadow_step; try eassumption. lia.
Qed.

Lemma edits_identity uf k iss f vs : frame_ok f -> fs_iss uf !! k = Some iss ->
  all_are (canonical_iss opts) (fs_iss uf) -> all_are (canonical_ts_base opts) (fs_ts_base uf) ->
  is_bytes (fr_opts f) -> walk_options (E := E) (length (fr_opts f)) (fr_opts f) = Ok vs -> (is_Some (first_ts vs) -> is_Some (fs_ts_base uf !! k)) ->
  let e := edits_of opts uf k (flip_key k) iss (low_of f) in
  ed_seq e (fr_seq f) = fr_seq f /\ ed_ack e (fr_ack f) = fr_ack f /\
  walk_options_mut (E := E) (length (fr_opts f)) (visit e) (fr_opts f) = Ok (fr_opts f).
Proof.
  intros Hf Hi A1 A2 Hb Hw Ht. pose proof (fk_nums _ Hf) as [Ns Na]. rewrite (A1 _ _ Hi). cbn [ed_seq ed_ack edits_of].
  split_and!; [by apply shift_back| |].
  { destruct (fs_iss uf !! flip_key k) as [r|] eqn:Er; [|done]. rewrite (A1 _ _ Er). by apply shift_back. }
  eapply walk_id; [exact Hw|]. apply Forall_forall. intros [kd b] Hin. cbn [fst snd].
  pose proof (proj1 (Forall_forall _ _) (walk_bytes _ _ _ Hb Hw) _ Hin) as Hbb. cbn [snd] in Hbb. unfold visit. destruct kd; try done.
  - cbn [ed_ack edits_of]. destruct (fs_iss uf !! flip_key k) as [r|] eqn:Er; [|by apply blocks_id].
    rewrite (A1 _ _ Er). rewrite (blocks_ext _ (fun x => x)); [by apply blocks_id|done|]. intros x Hx. by apply shift_back.
  - do 8 (destruct b as [|? b]; [done|]). destruct b; [|done]. destruct (Ht (first_ts_some _ _ _ _ _ _ _ _ _ Hin)) as [w Ew].
    cbn [ed_tsval ed_tsecr edits_of]. rewrite Ew. cbn [default]. rewrite (A2 _ _ Ew). do 8 (apply Forall_cons in Hbb as [? Hbb]).
    rewrite shift_back by (by apply from_be32_range). rewrite to_from_be32 by done. cbn [app]. do 4 f_equal.
    destruct (negb _); [|done]. destruct (fs_ts_base uf !! flip_key k) as [r|] eqn:Er.
    + rewrite (A2 _ _ Er), shift_back by (by apply from_be32_range). by apply to_from_be32.
    + by apply to_from_be32.
Qed.

Lemma checksummed_twice h : frame_ok h -> frame_ok (checksummed h) -> checksummed (checksummed h) = checksummed h.
Proof.
  intros H1 H2. assert (El : length (tcp_part (checksummed h)) = length (tcp_part h)) by (by rewrite !length_tcp).
  unfold checksummed at 1. unfold tcp_sum at 1. rewrite El. reflexivity.
Qed.

(** And then the second pass changes nothing. *)
Lemma passes_fixed uf u qs qs' : passes (E := E) opts uf u qs qs' -> Forall normal_packet qs ->
  all_are (canonical_iss opts) (fs_iss uf) -> all_are (canonical_ts_base opts) (fs_ts_base uf) -> qs' = qs.
Proof.
  intros Hp Hn A1 A2. induction Hp as [|u p qs qs' Ep _ IH|u ts ol f vs iss o k e qs qs' Hf Hb Ew Ek Ei -> Eo Hp IH]; [done| |].
  { apply Forall_cons in Hn as [_ Hn]. f_equal. by apply IH. }
  apply Forall_cons in Hn as [Hn1 Hn]. rewrite (IH Hn). f_equal. f_equal.
  destruct Hn1 as [Ep|(h & ((Hh0 & Hh) & _ & Hsrc & Hdst) & Eh)]; [cbn [pp_data] in Ep; rewrite (parse_flat f Hf) in Ep; done|].
  cbn [pp_data] in Eh. apply flat_inj in Eh; [|done|done]. f_equal.
  destruct (edits_identity uf k iss f vs) as (I1 & I2 & I3); try done.
  { intros [x Hx]. destruct (passes_sub _ _ _ _ _ Hp) as [_ Hsub]. exists (default x (fs_ts_base (pinned f vs u) !! k)).
    eapply lookup_weaken; [|exact Hsub]. rewrite Ek. unfold pinned. cbn [fs_ts_base fs_syn_count].
    rewrite ts_pinned_lookup, Hx, decide_True by done. by destruct (fs_ts_base u !! _). }
  assert (Ho : o = fr_opts f) by congruence. subst o.
  assert (Eh' : edited (edits_of opts uf k (flip_key k) iss (low_of f)) (fr_opts f) f = f).
  { subst f. change (low_of (checksummed h)) with (low_of h) in *. unfold edited. cbn [ed_our ed_their edits_of]. rewrite <- Hsrc, <- Hdst.
    set (e := edits_of _ _ _ _ _ _) in *. destruct (checksummed h) eqn:Ec. cbn in I1, I2 |- *. rewrite I1. 
    assert (Es : fr_src (checksummed h) = fr_src h) by done. assert (Ed : fr_dst (checksummed h) = fr_dst h) by done.
    rewrite Ec in Es, Ed. cbn in Es, Ed. rewrite Es, Ed. f_equal. destruct (negb _); [exact I2|done]. }
  rewrite Eh'. subst f. by apply checksummed_twice.
Qed.

Lemma passes_bytes sf s ps ps' : is_bytes (canonical_src_mac opts) -> is_bytes (canonical_dst_mac opts) -> passes (E := E) opts sf s ps ps' ->
  Forall (fun p => is_bytes (pp_data p)) ps -> Forall (fun p => is_bytes (pp_data p)) ps'.
Proof.
  intros M1 M2. induction 1 as [|s p ps ps' Ep _ IH|s ts ol f vs iss o k e ps ps' Hf Hb Ew Ek Ei -> Eo _ IH]; [done| |];
    intros Hall; apply Forall_cons in Hall as [Hp Hall]; (constructor; [|by apply IH]); [done|].
  cbn [pp_data] in Hp |- *. apply (walk_visit_bytes _ _ _ _ Hb) in Eo. unfold flat, tcp_part, is_bytes in Hp |- *. rewrite !Forall_app in Hp |- *.
  cbn [checksummed edited field_set fr_dst fr_src fr_pre fr_ipck fr_src_ip fr_dst_ip fr_ipopts fr_ports fr_seq fr_ack fr_mid fr_tck fr_urg fr_opts fr_payload fr_rest
    ed_our ed_their edits_of].
  split_and!; try tauto; try apply to_be32_bytes; try apply to_be16_bytes; by destruct (low_of f).
Qed.
End Twice.

(** ** The checksums are the stack's *)

Lemma sum_words_pairs l : forall s, is_bytes l -> sum_words s l = csum_tail (csum_pairs s l).
Proof.
  induction l as [|x|x y l IH] using list_pair_ind; intros s Hb; [done| |].
  - apply Forall_cons in Hb as [Hx _]. cbn. rewrite Z.shiftl_mul_pow2 by lia. unfold from_be16, u32. rewrite (Z.mod_small (x * 2 ^ 8)); [f_equal; lia|].
    unfold is_u8, two8 in Hx. unfold two32. lia.
  - do 2 (apply Forall_cons in Hb as [_ Hb]). cbn [sum_words csum_pairs]. by apply IH.
Qed.

Lemma tool_internet_checksum l : is_bytes l -> internet_checksum l = Ip.internet_checksum [l].
Proof. intros Hb. unfold internet_checksum, Ip.internet_checksum. rewrite csum_fold_concat. cbn [fst snd carry_bytes app concat]. by rewrite app_nil_r, sum_words_pairs. Qed.

Lemma tool_tcp_checksum src dst len l : length src = 4%nat -> length dst = 4%nat -> is_u16 len -> is_bytes l ->
  tcp_checksum src dst len l = Some (Ip.internet_checksum [src; dst; [0; IPPROTO_TCP]; to_be16 len; l]).
Proof.
  intros Hs Hd Hn Hb. do 4 (destruct src as [|? src]; [done|]). destruct src; [|done]. do 4 (destruct dst as [|? dst]; [done|]). destruct dst; [|done].
  unfold tcp_checksum, Ip.internet_checksum. rewrite csum_fold_concat. cbn -[sum_words fold_carries csum_pairs wadd32 from_be16 Z.div Z.modulo].
  do 3 f_equal. rewrite sum_words_pairs by done. rewrite app_nil_r. cbn [csum_pairs]. rewrite (from_to_be16 len Hn). reflexivity.
Qed.

Lemma flat_parts f : is_bytes (flat f) -> is_bytes (ip_header (f <| fr_ipck := [0; 0] |>)) /\ is_bytes (tcp_part (f <| fr_tck := [0; 0] |>)).
Proof.
  intros H. assert (Hz : is_bytes [0; 0]) by (repeat constructor; unfold is_u8, two8; lia).
  unfold flat, tcp_part, is_bytes in H. rewrite !Forall_app in H. unfold ip_header, tcp_part, is_bytes.
  cbn [field_set fr_pre fr_ipck fr_src_ip fr_dst_ip fr_ipopts fr_ports fr_seq fr_ack fr_mid fr_tck fr_urg fr_opts fr_payload]. rewrite !Forall_app.
  destruct H as (_ & _ & H3 & _ & H5). pose proof (Forall_drop _ 2 _ H3). unfold is_bytes in Hz. tauto.
Qed.

(** The stack's own test of the IP header accepts a checksummed frame. *)
Lemma checksummed_ip_ok f : frame_ok f -> is_bytes (flat f) -> ip_csum_matches (drop 14 (flat (checksummed f))) (ihl_of f) = Some true.
Proof.
  intros Hf Hb. destruct (flat_parts f Hb) as [Hi _].
  assert (E : drop 14 (flat (checksummed f)) = drop 2 (fr_pre f) ++ (internet_checksum (ip_header (f <| fr_ipck := [0; 0] |>)) / 256) mod 256 ::
    internet_checksum (ip_header (f <| fr_ipck := [0; 0] |>)) mod 256 :: (fr_src_ip f ++ fr_dst_ip f ++ fr_ipopts f) ++ (tcp_part (checksummed f) ++ fr_rest f)).
  { unfold flat. change (fr_dst (checksummed f)) with (fr_dst f). change (fr_src (checksummed f)) with (fr_src f). change (fr_pre (checksummed f)) with (fr_pre f).
    rewrite (app_assoc (fr_dst f)). change 14%nat with (12 + 2)%nat. rewrite <- drop_drop.
    rewrite drop_app_length' by (destruct Hf; rewrite length_app; lia). rewrite drop_app_le by (destruct Hf; lia). rewrite <- !app_assoc. reflexivity. }
  rewrite E. destruct Hf as [F1 F2 F3 F4 F5 F6 F7 F8 F9 F10 _ (b & Eb & Ib) _ _ _ _].
  rewrite ip_csum_matches_split; [|rewrite length_drop; lia|rewrite !length_app; unfold ihl_of; lia|].
  - rewrite (tool_internet_checksum _ Hi). rewrite from_to_be16; [|exact (not16_range _)]. f_equal. apply Z.eqb_eq. reflexivity.
  - pose proof (land_low b 4 ltac:(lia)) as Hl. change (Z.land b (Z.ones 4)) with (Z.land b 0x0f) in Hl. unfold ihl_of in *. lia.
Qed.

Lemma checksummed_tcp_ok f : frame_ok f -> is_bytes (flat f) -> fr_tck (checksummed f) =
  to_be16 (Ip.internet_checksum [fr_src_ip f; fr_dst_ip f; [0; IPPROTO_TCP]; to_be16 (Z.of_nat (length (tcp_part f))); tcp_part (f <| fr_tck := [0; 0] |>)]).
Proof.
  intros Hf Hb. destruct (flat_parts f Hb) as [_ Ht]. pose proof (length_tcp f Hf) as Hl. destruct Hf as [F1 F2 F3 F4 F5 F6 F7 F8 F9 F10 _ _ _ (t & Et & It) _ _].
  assert (Hn : is_u16 (Z.of_nat (length (tcp_part f)))).
  { assert (is_u16 t) by (apply (read_be16_range (fr_pre f) 4 t); [|done]; unfold flat, is_bytes in Hb; rewrite !Forall_app in Hb; tauto).
    unfold is_u16, two16 in *. unfold total_of, ihl_of in It. lia. }
  change (fr_tck (checksummed f)) with (tcp_sum f). unfold tcp_sum. unfold u16. rewrite Z.mod_small by exact Hn. by rewrite tool_tcp_checksum.
Qed.

(** ** The same traffic under other numbers *)

(** [g] is [f] as other stacks would have numbered it: every number of a direction moved by one
    amount, the echoes by the peer's, any MAC addresses, any checksums. *)
Section Relabel.
Context (sigma tau : FlowKey -> Z).

Definition moved (k : FlowKey) (src dst : list Z) : Edits := {|
  ed_seq := fun x => wadd32 x (sigma k); ed_ack := fun x => wadd32 x (sigma (flip_key k));
  ed_tsval := fun x => wadd32 x (tau k); ed_tsecr := fun x => wadd32 x (tau (flip_key k));
  ed_our := src; ed_their := dst |}.

Definition relabelled (k : FlowKey) (f g : Frame) (o : list Z) : Prop :=
  exists src dst c1 c2, g = edited (moved k src dst) o f <| fr_ipck := c1 |> <| fr_tck := c2 |>.
Definition options_moved {E} (k : FlowKey) (f : Frame) (o : list Z) : Prop :=
  walk_options_mut (E := E) (length (fr_opts f)) (visit (moved k [] [])) (fr_opts f) = Ok o.
(** No echo of a real timestamp becomes the absent one. *)
Definition echo_ok (k : FlowKey) (v : OptionKind * list Z) : bool :=
  match v with
  | (Timestamps, [_; _; _; _; x; y; z; w]) => (from_be32 x y z w =? 0) || negb (wadd32 (from_be32 x y z w) (tau (flip_key k)) =? 0)
  | _ => true
  end.

(** Two captures frame by frame, the first passes over them in [s] and [u]. *)
Inductive same_traffic {E} : FlowState -> FlowState -> list Packet -> list Packet -> Prop :=
  | same_nil s u : same_traffic s u [] []
  | same_opaque s u p q ps qs : parse_l2l3l4 (pp_data p) = Some None -> pp_data q = pp_data p ->
      same_traffic s u ps qs -> same_traffic s u (p :: ps) (q :: qs)
  | same_frame s u p q ps qs f g k vs ws o : frame_ok f -> frame_ok g -> is_bytes (fr_opts f) -> pp_data p = flat f -> pp_data q = flat g ->
      walk_options (E := E) (length (fr_opts f)) (fr_opts f) = Ok vs -> walk_options (E := E) (length (fr_opts g)) (fr_opts g) = Ok ws ->
      k = key_of (fs_syn_count (pinned f vs s)) f -> key_of (fs_syn_count (pinned g ws u)) g = k ->
      options_moved (E := E) k f o -> relabelled k f g o -> forallb (echo_ok k) vs = true ->
      same_traffic (pinned f vs s) (pinned g ws u) ps qs -> same_traffic s u (p :: ps) (q :: qs).

Record relabelled_states (s u : FlowState) : Prop := {
  rs_inst : forall t, instance_of (fs_syn_count u) t = instance_of (fs_syn_count s) t;
  rs_iss : forall k, fs_iss u !! k = (fun x => wadd32 x (sigma k)) <$> fs_iss s !! k;
  rs_ts : forall k, fs_ts_base u !! k = (fun x => wadd32 x (tau k)) <$> fs_ts_base s !! k
}.

Lemma moved_walk {E} k src dst f o : options_moved (E := E) k f o ->
  walk_options_mut (E := E) (length (fr_opts f)) (visit (moved k src dst)) (fr_opts f) = Ok o.
Proof. done. Qed.

Lemma relabelled_opts k f g o : relabelled k f g o -> fr_opts g = o.
Proof. by intros (? & ? & ? & ? & ->). Qed.

Lemma relabel_step {E} s u f g k vs ws o : relabelled_states s u -> frame_ok f ->
  walk_options (E := E) (length (fr_opts f)) (fr_opts f) = Ok vs -> walk_options (E := E) (length (fr_opts g)) (fr_opts g) = Ok ws ->
  k = key_of (fs_syn_count (pinned f vs s)) f -> key_of (fs_syn_count (pinned g ws u)) g = k ->
  options_moved (E := E) k f o -> relabelled k f g o -> relabelled_states (pinned f vs s) (pinned g ws u).
Proof.
  intros [R1 R2 R3] Hf Ev Ew Ek Ek' Ho Hg. pose proof (relabelled_opts _ _ _ _ Hg) as Eo. rewrite Eo in Ew.
  pose proof (walk_length _ _ (visit_length _) _ _ Ho) as Hl. rewrite Hl in Ew.
  destruct (visits_after _ _ (visit_length _) _ _ Ho) as (vs0 & V1 & V2). rewrite Ev in V1. injection V1 as <-. rewrite Ew in V2. injection V2 as V2.
  destruct Hg as (src & dst & c1 & c2 & Hg).
  assert (Et : tuple_of g = tuple_of f) by (by subst g). assert (Es : fr_seq g = wadd32 (fr_seq f) (sigma k)) by (by subst g).
  assert (Ht : first_ts ws = (fun x => wadd32 x (tau k)) <$> first_ts vs).
  { rewrite V2. apply (first_ts_visit (moved k [] [])). intros x. apply wadd32_range. }
  split.
  - intros t. destruct (decide (tuple_of f = t)) as [<-|Hn].
    + rewrite Ek in Ek'. apply (f_equal fk_instance) in Ek'. cbn [key_of fk_instance] in Ek'. by rewrite Et in Ek'.
    + unfold pinned. cbn [fs_syn_count]. rewrite !opened_opens, Et. specialize (R1 t).
      destruct (opens _ g _), (opens _ f _); rewrite ?instance_of_insert, ?decide_False by done; exact R1.
  - intros k'. unfold pinned in *. cbn [fs_iss fs_syn_count] in *. rewrite !lookup_or_insert, R2, Ek', <- Ek, Es.
    destruct (fs_iss s !! k'); [done|]. cbn. case_decide; [by subst k'|done].
  - intros k'. unfold pinned in *. cbn [fs_ts_base fs_syn_count] in *. rewrite !ts_pinned_lookup, R3, Ek', <- Ek, Ht.
    destruct (fs_ts_base s !! k'); [done|]. cbn. case_decide; [by subst k'|done].
Qed.

Lemma same_states {E} s u ps qs : same_traffic (E := E) s u ps qs -> relabelled_states s u -> exists sf uf,
  discover_all (E := E) (map Ok ps) s = Some (Ok sf) /\ discover_all (E := E) (map Ok qs) u = Some (Ok uf) /\ relabelled_states sf uf.
Proof.
  induction 1 as [s u|s u p q ps qs Ep Eq _ IH|s u p q ps qs f g k vs ws o Hf Hg Hb Ep Eq Ev Ew Ek Ek' Ho Hr _ _ IH]; intros Hs; cbn [map discover_all].
  - by exists s, u.
  - unfold discover_pins at 1 2. rewrite Eq, Ep. cbn [mbind option_bind]. by apply IH.
  - rewrite Ep, Eq, (discover_flat _ _ Hf), (discover_flat _ _ Hg), Ev, Ew. cbn [mbind option_bind]. apply IH. by eapply relabel_step.
Qed.

(** *** One frame *)

Lemma visit_ts e a b : is_u32 a -> is_u32 b ->
  visit e Timestamps (to_be32 a ++ to_be32 b) = to_be32 (ed_tsval e a) ++ (if negb (b =? 0) then to_be32 (ed_tsecr e b) else to_be32 b).
Proof.
  intros Ha Hb. set (fa := from_be32 ((a / 16777216) mod 256) ((a / 65536) mod 256) ((a / 256) mod 256) (a mod 256)).
  set (fb := from_be32 ((b / 16777216) mod 256) ((b / 65536) mod 256) ((b / 256) mod 256) (b mod 256)).
  assert (fa = a) as Ea by (by apply from_to_be32). assert (fb = b) as Eb by (by apply from_to_be32).
  change (to_be32 (ed_tsval e fa) ++ (if negb (fb =? 0) then to_be32 (ed_tsecr e fb) else to_be32 b) =
    to_be32 (ed_tsval e a) ++ (if negb (b =? 0) then to_be32 (ed_tsecr e b) else to_be32 b)). by rewrite Ea, Eb.
Qed.

Lemma shift_shift c x r d : wadd32 c (wsub32 (wadd32 x d) (wadd32 r d)) = wadd32 c (wsub32 x r).
Proof.
  unfold wadd32, wsub32, u32. rewrite <- Zminus_mod. do 3 f_equal. lia.
Qed.

(** Where nothing is pinned nothing is moved. *)
Definition only_pinned (sf : FlowState) : Prop :=
  forall k, (fs_iss sf !! k = None -> sigma k = 0) /\ (fs_ts_base sf !! k = None -> tau k = 0).

Lemma add_0 x : is_u32 x -> wadd32 x 0 = x.
Proof. unfold is_u32, wadd32, u32. intros H. rewrite Z.add_0_r. by apply Z.mod_small. Qed.

Section OneFrame.
Context (opts : CanonicalizationOptions) (sf uf : FlowState) (Hst : relabelled_states sf uf) (Hz : only_pinned sf).
Context (k : FlowKey) (ia ib : Z) (low : bool) (Ha : fs_iss sf !! k = Some ia) (Hb : fs_iss uf !! k = Some ib).

Lemma moved_seq src dst x : ed_seq (edits_of opts uf k (flip_key k) ib low) (ed_seq (moved k src dst) x) = ed_seq (edits_of opts sf k (flip_key k) ia low) x.
Proof.
  cbn [ed_seq edits_of moved]. rewrite (rs_iss _ _ Hst), Ha in Hb. injection Hb as <-. apply shift_shift.
Qed.

Lemma moved_ack src dst x : is_u32 x ->
  ed_ack (edits_of opts uf k (flip_key k) ib low) (ed_ack (moved k src dst) x) = ed_ack (edits_of opts sf k (flip_key k) ia low) x.
Proof.
  intros Hx. cbn [ed_ack edits_of moved]. rewrite (rs_iss _ _ Hst). destruct (fs_iss sf !! flip_key k) as [r|] eqn:Er; cbn [fmap option_fmap option_map].
  - apply shift_shift.
  - rewrite (proj1 (Hz (flip_key k)) Er). by apply add_0.
Qed.

Lemma moved_tsval src dst x : ed_tsval (edits_of opts uf k (flip_key k) ib low) (ed_tsval (moved k src dst) x) = ed_tsval (edits_of opts sf k (flip_key k) ia low) x.
Proof.
  cbn [ed_tsval edits_of moved]. rewrite (rs_ts _ _ Hst). destruct (fs_ts_base sf !! k) as [r|]; cbn [fmap option_fmap option_map default]; [apply shift_shift|].
  unfold wadd32, wsub32, u32. by rewrite !Z.sub_diag.
Qed.

Lemma moved_tsecr src dst x : is_u32 x ->
  ed_tsecr (edits_of opts uf k (flip_key k) ib low) (ed_tsecr (moved k src dst) x) = ed_tsecr (edits_of opts sf k (flip_key k) ia low) x.
Proof.
  intros Hx. cbn [ed_tsecr edits_of moved]. rewrite (rs_ts _ _ Hst). destruct (fs_ts_base sf !! flip_key k) as [r|] eqn:Er; cbn [fmap option_fmap option_map].
  - apply shift_shift.
  - rewrite (proj2 (Hz (flip_key k)) Er). by apply add_0.
Qed.

Lemma moved_visit src dst kd b : is_bytes b -> echo_ok k (kd, b) = true ->
  visit (edits_of opts uf k (flip_key k) ib low) kd (visit (moved k src dst) kd b) = visit (edits_of opts sf k (flip_key k) ia low) kd b.
Proof.
  intros Hbb He. destruct kd; try done.
  - unfold visit. rewrite blocks_compose by (intros x; apply wadd32_range). apply blocks_ext; [done|]. apply moved_ack.
  - do 8 (destruct b as [|? b]; [done|]). destruct b; [|done]. do 8 (apply Forall_cons in Hbb as [? Hbb]).
    assert (Hv : is_u32 (from_be32 z z0 z1 z2)) by (by apply from_be32_range). assert (Hr : is_u32 (from_be32 z3 z4 z5 z6)) by (by apply from_be32_range).
    assert (Eb : [z; z0; z1; z2; z3; z4; z5; z6] = to_be32 (from_be32 z z0 z1 z2) ++ to_be32 (from_be32 z3 z4 z5 z6)) by (by rewrite !to_from_be32).
    cbn [echo_ok] in He. rewrite Eb. revert Hv Hr He. generalize (from_be32 z z0 z1 z2), (from_be32 z3 z4 z5 z6). intros v r Hv Hr He.
    rewrite !(visit_ts _ v r) by done. destruct (r =? 0) eqn:Er; cbn [negb].
    + rewrite visit_ts by (done || apply wadd32_range). rewrite Er. cbn [negb]. by rewrite moved_tsval.
    + cbn [orb] in He. rewrite visit_ts by apply wadd32_range. change (ed_tsecr (moved k src dst) r) with (wadd32 r (tau (flip_key k))) at 1.
      rewrite He. by rewrite moved_tsval, moved_tsecr.
Qed.
End OneFrame.

Lemma checksummed_ignores h c1 c2 : length c2 = length (fr_tck h) -> checksummed (h <| fr_ipck := c1 |> <| fr_tck := c2 |>) = checksummed h.
Proof.
  intros Hl. unfold checksummed at 1. unfold tcp_sum at 1.
  assert (El : length (tcp_part (h <| fr_ipck := c1 |> <| fr_tck := c2 |>)) = length (tcp_part h)).
  { unfold tcp_part. cbn [field_set fr_ports fr_seq fr_ack fr_mid fr_tck fr_urg fr_opts fr_payload]. rewrite !length_app, Hl. reflexivity. }
  rewrite El. reflexivity.
Qed.

Lemma frame_ext f g : fr_dst f = fr_dst g -> fr_src f = fr_src g -> fr_pre f = fr_pre g -> fr_ipck f = fr_ipck g -> fr_src_ip f = fr_src_ip g ->
  fr_dst_ip f = fr_dst_ip g -> fr_ipopts f = fr_ipopts g -> fr_ports f = fr_ports g -> fr_seq f = fr_seq g -> fr_ack f = fr_ack g ->
  fr_mid f = fr_mid g -> fr_tck f = fr_tck g -> fr_urg f = fr_urg g -> fr_opts f = fr_opts g -> fr_payload f = fr_payload g -> fr_rest f = fr_rest g -> f = g.
Proof. destruct f, g; cbn. by intros -> -> -> -> -> -> -> -> -> -> -> -> -> -> -> ->. Qed.

Lemma edited_edited ea eb em oa o f c1 c2 : ed_seq eb (ed_seq em (fr_seq f)) = ed_seq ea (fr_seq f) ->
  ed_ack eb (ed_ack em (fr_ack f)) = ed_ack ea (fr_ack f) -> ed_our eb = ed_our ea -> ed_their eb = ed_their ea ->
  edited eb oa (edited em o f <| fr_ipck := c1 |> <| fr_tck := c2 |>) = edited ea oa f <| fr_ipck := c1 |> <| fr_tck := c2 |>.
Proof.
  intros H1 H2 H3 H4. apply frame_ext; try reflexivity; [exact H4|exact H3|exact H1|].
  change ((if negb (Z.land (flags_of f) TCP_FLAG_ACK =? 0)
      then ed_ack eb (if negb (Z.land (flags_of f) TCP_FLAG_ACK =? 0) then ed_ack em (fr_ack f) else fr_ack f)
      else if negb (Z.land (flags_of f) TCP_FLAG_ACK =? 0) then ed_ack em (fr_ack f) else fr_ack f) =
    (if negb (Z.land (flags_of f) TCP_FLAG_ACK =? 0) then ed_ack ea (fr_ack f) else fr_ack f)).
  destruct (negb _); [exact H2|done].
Qed.

(** A frame and its relabelling are rewritten to the same bytes. *)
Lemma relabelled_same {E} opts sf uf k ia ib f g vs o oa ob : relabelled_states sf uf -> only_pinned sf -> frame_ok f -> frame_ok g ->
  is_bytes (fr_opts f) -> walk_options (E := E) (length (fr_opts f)) (fr_opts f) = Ok vs -> forallb (echo_ok k) vs = true ->
  options_moved (E := E) k f o -> relabelled k f g o -> fs_iss sf !! k = Some ia -> fs_iss uf !! k = Some ib ->
  walk_options_mut (E := E) (length (fr_opts f)) (visit (edits_of opts sf k (flip_key k) ia (low_of f))) (fr_opts f) = Ok oa ->
  walk_options_mut (E := E) (length (fr_opts g)) (visit (edits_of opts uf k (flip_key k) ib (low_of g))) (fr_opts g) = Ok ob ->
  checksummed (edited (edits_of opts uf k (flip_key k) ib (low_of g)) ob g) = checksummed (edited (edits_of opts sf k (flip_key k) ia (low_of f)) oa f).
Proof.
  intros Hst Hz Hf Hg Hb Ev He Ho (src & dst & c1 & c2 & Eg) Hia Hib Ea Eb.
  assert (El : low_of g = low_of f) by (by subst g). assert (Eog : fr_opts g = o) by (by subst g). rewrite El, Eog in *.
  pose proof (walk_length _ _ (visit_length _) _ _ Ho) as Hl. rewrite Hl in Eb.
  rewrite (walk_compose _ _ _ (visit_length _) _ _ Ho) in Eb.
  rewrite (walk_ext_visits _ _ (visit (edits_of opts sf k (flip_key k) ia (low_of f))) _ _ Ev) in Eb.
  2: { apply Forall_forall. intros [kd b] Hin. cbn [fst snd]. apply (moved_visit opts sf uf Hst Hz k ia ib (low_of f)).
       - exact (proj1 (Forall_forall _ _) (walk_bytes _ _ _ Hb Ev) _ Hin).
       - rewrite forallb_forall in He. apply He. by apply list_elem_of_In. }
  assert (ob = oa) as -> by congruence.
  assert (Hc : length c2 = 2%nat) by (pose proof (fk_tck _ Hg) as Ht; by subst g).
  set (ea := edits_of opts sf k (flip_key k) ia (low_of f)) in *. set (eb := edits_of opts uf k (flip_key k) ib (low_of f)) in *.
  assert (Ee : edited eb oa g = (edited ea oa f) <| fr_ipck := c1 |> <| fr_tck := c2 |>).
  { subst g. apply edited_edited; [by apply moved_seq| |done|done]. apply moved_ack; try done. exact (proj2 (fk_nums _ Hf)). }
  rewrite Ee. apply checksummed_ignores. rewrite Hc. symmetry. exact (fk_tck _ Hf).
Qed.

Lemma passes_opaque_inv {E} opts sf s p ps out : passes (E := E) opts sf s (p :: ps) out -> parse_l2l3l4 (pp_data p) = Some None ->
  exists ps', out = p :: ps' /\ passes (E := E) opts sf s ps ps'.
Proof.
  intros H Ep. inversion H as [|? ? ? ps' _ Hp|? ? ? f ? ? ? ? ? ? ? Hf]; subst; [by exists ps'|].
  cbn [pp_data] in Ep. by rewrite (parse_flat f Hf) in Ep.
Qed.

Lemma passes_frame_inv {E} opts sf s p ps out f vs : passes (E := E) opts sf s (p :: ps) out -> frame_ok f -> pp_data p = flat f ->
  walk_options (E := E) (length (fr_opts f)) (fr_opts f) = Ok vs ->
  let k := key_of (fs_syn_count (pinned f vs s)) f in
  exists iss o ps', fs_iss sf !! k = Some iss /\
    walk_options_mut (E := E) (length (fr_opts f)) (visit (edits_of opts sf k (flip_key k) iss (low_of f))) (fr_opts f) = Ok o /\
    out = mkPacket (pp_ts p) (pp_orig_len p) (flat (checksummed (edited (edits_of opts sf k (flip_key k) iss (low_of f)) o f))) :: ps' /\
    passes (E := E) opts sf (pinned f vs s) ps ps'.
Proof.
  intros H Hf Ep Ev. inversion H as [|? ? ? ? Eo|? ts ol f' vs' iss o k' e' ? ps' Hf' Hb Ev' Ek Ei Ee Eo Hp]; subst.
  - rewrite Ep, (parse_flat f Hf) in Eo. done.
  - cbn [pp_data] in Ep. apply flat_inj in Ep; [|done|done]. subst f'. assert (vs' = vs) as -> by congruence. exists iss, o, ps'. done.
Qed.

Lemma same_passes {E} opts sf uf s u ps qs : same_traffic (E := E) s u ps qs -> relabelled_states sf uf -> only_pinned sf -> forall ps' qs',
  passes (E := E) opts sf s ps ps' -> passes (E := E) opts uf u qs qs' -> map pp_data ps' = map pp_data qs'.
Proof.
  intros H Hst Hz. induction H as [s u|s u p q ps qs Ep Eq _ IH|s u p q ps qs f g k vs ws o Hf Hg Hb Ep Eq Ev Ew Ek Ek' Ho Hr He _ IH]; intros ps' qs' Hp Hq.
  - inversion Hp. by inversion Hq.
  - apply passes_opaque_inv in Hp as (ps1 & -> & Hp); [|done]. apply passes_opaque_inv in Hq as (qs1 & -> & Hq); [|by rewrite Eq].
    cbn [map]. rewrite Eq. f_equal. by apply IH.
  - destruct (passes_frame_inv _ _ _ _ _ _ _ _ Hp Hf Ep Ev) as (ia & oa & ps1 & Ia & Oa & -> & Hp1).
    destruct (passes_frame_inv _ _ _ _ _ _ _ _ Hq Hg Eq Ew) as (ib & ob & qs1 & Ib & Ob & -> & Hq1).
    cbn [map pp_data]. rewrite Ek' in Ib, Ob |- *. rewrite <- Ek in Ia, Oa |- *. f_equal; [|by apply IH].
    f_equal. symmetry. by eapply relabelled_same.
Qed.
End Relabel.

(** ** The tool *)

Record options_ok (opts : CanonicalizationOptions) : Prop := {
  oo_macs : macs_ok opts;
  oo_src : is_bytes (canonical_src_mac opts);
  oo_dst : is_bytes (canonical_dst_mac opts);
  oo_iss : is_u32 (canonical_iss opts);
  oo_ts : is_u32 (canonical_ts_base opts)
}.

Lemma counted_default : counted 0 flow_state_default.
Proof. intros t. unfold instance_of. cbn. rewrite lookup_empty. cbn. lia. Qed.

Section Tool.
Context {E Header W : Type} (read : list Z -> result (Header * list (result Packet E)) E).
Context (with_header : Header -> result W E) (write : Packet -> W -> result W E) (into_bytes : W -> list Z).
Context (opts : CanonicalizationOptions) (Hopts : options_ok opts).

(** What the reader makes of a capture: whole packets of bytes, fewer than the instance counter can count. *)
Definition capture (bytes : list Z) (h : Header) (ps : list Packet) : Prop :=
  read bytes = Ok (h, map Ok ps) /\ Forall (fun p => is_bytes (pp_data p)) ps /\ zlen ps < two32.

Definition canonicalize (bytes : list Z) : option (result (list Z) (CanonError E)) :=
  canonicalize_pcap read with_header write into_bytes bytes opts.

(** What it writes, of these packets. *)
Definition written (h : Header) (ps : list Packet) : result (list Z) (CanonError E) :=
  match with_header h with
  | Err e => Err (CePcap e)
  | Ok w => match write_all write ps w with Ok w => Ok (into_bytes w) | Err e => Err e end
  end.

Lemma canonicalize_run bytes h ps : capture bytes h ps ->
  (exists sf ps', discover_all (E := E) (map Ok ps) flow_state_default = Some (Ok sf) /\ passes (E := E) opts sf flow_state_default ps ps' /\
     canonicalize bytes = Some (written h ps')) \/
  (exists p n, p ∈ ps /\ canonicalize bytes = Some (Err (MalformedSackOption n)) /\ malformed (E := E) (pp_data p) n /\
     discover_all (E := E) (map Ok ps) flow_state_default = Some (Err (MalformedSackOption n))).
Proof.
  intros (Hr & Hb & Hn). unfold canonicalize, canonicalize_pcap. rewrite Hr.
  destruct (discover_run (E := E) ps flow_state_default 0 Hb counted_default) as [(sf & E1 & _)|(p & n & Hp & E1 & E2)]; [lia| |].
  - left. destruct (passes_run (E := E) opts (oo_macs _ Hopts) ps flow_state_default 0 sf Hb counted_default) as (ps' & Hps & Hw); [lia|done|].
    exists sf, ps'. split_and!; [done|done|]. rewrite E1. cbn [mbind option_bind]. unfold written. destruct (with_header h) as [w|]; [|done].
    change (∅ : gmap ConnTuple Z) with (fs_syn_count flow_state_default). rewrite Hw. cbn [mbind option_bind]. by destruct (write_all _ _ _).
  - right. exists p, n. rewrite E1. done.
Qed.

(** What becomes of a packet, [sf] the pins of the first pass. *)
Inductive normalised (sf : FlowState) : Packet -> Packet -> Prop :=
  | normalised_opaque p : parse_l2l3l4 (pp_data p) = Some None -> normalised sf p p
  | normalised_frame ts ol f k iss o g : frame_ok f -> frame_ok g -> fk_tuple k = tuple_of f -> fk_is_low k = low_of f -> fs_iss sf !! k = Some iss ->
      walk_options_mut (E := E) (length (fr_opts f)) (visit (edits_of opts sf k (flip_key k) iss (low_of f))) (fr_opts f) = Ok o ->
      g = edited (edits_of opts sf k (flip_key k) iss (low_of f)) o f <| fr_ipck := fr_ipck g |> <| fr_tck := fr_tck g |> ->
      ip_csum_matches (drop 14 (flat g)) (ihl_of g) = Some true ->
      fr_tck g = to_be16 (Ip.internet_checksum [fr_src_ip g; fr_dst_ip g; [0; IPPROTO_TCP]; to_be16 (Z.of_nat (length (tcp_part g)));
        tcp_part (g <| fr_tck := [0; 0] |>)]) ->
      normalised sf (mkPacket ts ol (flat f)) (mkPacket ts ol (flat g)).

Lemma passes_normalised sf s ps ps' : passes (E := E) opts sf s ps ps' -> Forall (fun p => is_bytes (pp_data p)) ps -> Forall2 (normalised sf) ps ps'.
Proof.
  destruct Hopts as [Hm Hs Hd Hi Ht].
  induction 1 as [|s p ps ps' Ep _ IH|s ts ol f vs iss o k e ps ps' Hf Hb Ew Ek Ei -> Eo _ IH]; [done| |];
    intros Hall; apply Forall_cons in Hall as [Hp Hall]; (constructor; [|by apply IH]); [by constructor|].
  cbn [pp_data] in Hp. set (e := edits_of opts sf k (flip_key k) iss (low_of f)) in *.
  destruct (edits_ok opts Hm sf k iss f Hf) as (H1 & H2 & H3 & H4). pose proof (walk_length _ _ (visit_length _) _ _ Eo) as Hl.
  destruct (edit_ok e o f Hf H1 H2 Hl H3 H4) as [Hg1 Hg2].
  assert (Hgb : is_bytes (flat (edited e o f))).
  { apply (walk_visit_bytes _ _ _ _ Hb) in Eo. unfold flat, tcp_part, is_bytes in Hp |- *. rewrite !Forall_app in Hp |- *.
    assert (is_bytes (ed_our e) /\ is_bytes (ed_their e)) as [Ho1 Ho2] by (unfold e; cbn; by destruct (low_of f)).
    change (fr_dst (edited e o f)) with (ed_their e). change (fr_src (edited e o f)) with (ed_our e). change (fr_opts (edited e o f)) with o.
    change (fr_pre (edited e o f)) with (fr_pre f). change (fr_ipck (edited e o f)) with (fr_ipck f). change (fr_src_ip (edited e o f)) with (fr_src_ip f).
    change (fr_dst_ip (edited e o f)) with (fr_dst_ip f). change (fr_ipopts (edited e o f)) with (fr_ipopts f). change (fr_ports (edited e o f)) with (fr_ports f).
    change (fr_mid (edited e o f)) with (fr_mid f). change (fr_tck (edited e o f)) with (fr_tck f). change (fr_urg (edited e o f)) with (fr_urg f).
    change (fr_payload (edited e o f)) with (fr_payload f). change (fr_rest (edited e o f)) with (fr_rest f).
    split_and!; try tauto; apply to_be32_bytes. }
  eapply (normalised_frame sf ts ol f k iss o (checksummed (edited e o f))); try done.
  - by rewrite Ek.
  - by rewrite Ek.
  - apply (checksummed_ip_ok _ Hg1 Hgb).
  - rewrite (checksummed_tcp_ok _ Hg1 Hgb). replace (length (tcp_part (checksummed (edited e o f)))) with (length (tcp_part (edited e o f))) by (by rewrite !length_tcp).
    reflexivity.
Qed.


(** A writer's output is read back as what was written. *)
Definition reads_back : Prop := forall h w ps w', with_header h = Ok w -> write_all write ps w = Ok w' -> read (into_bytes w') = Ok (h, map Ok ps).

(** Normalising a normalised capture changes nothing: whatever the capture holds - frames
    of any protocol, interleaved connections, reused ports, repeated openings, echoes of
    timestamps nobody sent - a second run of the tool over its own output gives that output back. *)
Theorem canonicalize_idempotent (Hrt : reads_back) bytes h ps out : capture bytes h ps ->
  canonicalize bytes = Some (Ok out) -> canonicalize out = Some (Ok out).
Proof.
  intros Hc Hout. pose proof Hopts as [Hm Hs Hd Hi Ht]. pose proof Hc as (_ & Hb & Hn).
  destruct (canonicalize_run _ _ _ Hc) as [(sf & ps' & _ & Hp & E1)|(p & n & _ & E1 & _)]; [|by rewrite Hout in E1].
  rewrite Hout in E1. unfold written in E1. destruct (with_header h) as [w|] eqn:Ew; [|done].
  destruct (write_all write ps' w) as [w'|] eqn:Ew'; [|done]. injection E1 as ->. pose proof (Hrt _ _ _ _ Ew Ew') as Hr.
  assert (Hc' : capture (into_bytes w') h ps').
  { split; [done|]. split; [exact (passes_bytes opts _ _ _ _ Hs Hd Hp Hb)|]. assert (length ps' = length ps) as El by (clear -Hp; induction Hp; cbn; lia).
    unfold zlen in *. lia. }
  destruct (passes_shadow opts Hm Hi Ht _ _ _ _ Hp flow_state_default 0 counted_default counted_default) as (uf & Eu & A1 & A2); [lia| |].
  { assert (Hn1 : forall k : FlowKey, ~ is_Some ((∅ : gmap FlowKey Z) !! k)) by (intros k; rewrite lookup_empty; by intros []).
    split; [intros t l H; by destruct (Hn1 _ H)|intros t l H; by destruct (Hn1 _ H)|intros k H; by destruct (Hn1 _ H)|
      intros k H; by destruct (Hn1 _ H)|intros k x H; by destruct (Hn1 _ (mk_is_Some _ _ H))|intros k x H; by destruct (Hn1 _ (mk_is_Some _ _ H))]. }
  destruct (canonicalize_run _ _ _ Hc') as [(uf' & qs & Eu' & Hq & E2)|(p & n & _ & _ & _ & E2)].
  - assert (uf' = uf) as -> by congruence. rewrite E2, (passes_fixed opts _ _ _ _ Hq (passes_normal opts Hm _ _ _ _ Hp) A1 A2).
    unfold written. by rewrite Ew, Ew'.
  - exfalso. congruence.
Qed.

End Tool.

(** ** A capture *)

Module Sample.

(** A file format: per packet its time, its length on the wire, its length here, its bytes. *)
Fixpoint records (fuel : nat) (l : list Z) : list Packet :=
  match fuel, l with
  | S fuel, ts :: ol :: n :: l => mkPacket ts ol (take (Z.to_nat n) l) :: records fuel (drop (Z.to_nat n) l)
  | _, _ => []
  end.
Definition read (l : list Z) : result (unit * list (result Packet unit)) unit := Ok (tt, map Ok (records (length l) l)).
Definition with_header (_ : unit) : result (list Z) unit := Ok [].
Definition write (p : Packet) (out : list Z) : result (list Z) unit :=
  Ok (out ++ pp_ts p :: pp_orig_len p :: Z.of_nat (length (pp_data p)) :: pp_data p).
Definition file (ps : list Packet) : list Z := concat (map (fun p => pp_ts p :: pp_orig_len p :: Z.of_nat (length (pp_data p)) :: pp_data p) ps).

Lemma records_file ps : forall n, (length (file ps) <= n)%nat -> records n (file ps) = ps.
Proof.
  induction ps as [|[ts ol d] ps IH]; intros n Hn; [by destruct n|]. unfold file in *. cbn [map concat pp_ts pp_orig_len pp_data app] in *.
  cbn [length] in Hn. rewrite length_app in Hn. destruct n as [|n]; [lia|]. cbn [records]. rewrite Nat2Z.id, take_app_length, drop_app_length.
  f_equal. apply IH. lia.
Qed.
Lemma write_file ps : forall w, write_all write ps w = Ok (w ++ file ps).
Proof.
  induction ps as [|p ps IH]; intros w; cbn [write_all write file map concat]; [by rewrite app_nil_r|]. rewrite IH. unfold file. cbn [map concat].
  by rewrite <- app_assoc.
Qed.
Lemma read_file : reads_back read with_header write (fun w => w).
Proof.
  intros h w ps w' [= <-]. rewrite write_file. intros [= <-]. destruct h. unfold read. do 3 f_equal. by apply records_file.
Qed.

(** A three-way handshake with timestamps, an ARP frame before it. *)
Definition client_ip : list Z := [10; 0; 0; 1].
Definition server_ip : list Z := [10; 0; 0; 2].
Definition client_ports : list Z := [0x9c; 0x40; 0x1f; 0x90].
Definition server_ports : list Z := [0x1f; 0x90; 0x9c; 0x40].
Definition segment (src dst ports : list Z) (flags seq ack tsval tsecr : Z) : Frame :=
  mkFrame [2; 9; 9; 9; 9; 1] [2; 9; 9; 9; 9; 2] [8; 0; 0x45; 0; 0; 52; 0; 0; 0x40; 0; 64; 6] [1; 2] src dst [] ports seq ack
    [0x80; flags; 0xff; 0xff] [3; 4] [0; 0] ([1; 1; 8; 10] ++ to_be32 tsval ++ to_be32 tsecr) [] [].
Definition syn : Frame := segment client_ip server_ip client_ports 0x02 0xfffffffe 0 500 0.
Definition syn_ack : Frame := segment server_ip client_ip server_ports 0x12 7000 0xffffffff 90 500.
Definition ack : Frame := segment client_ip server_ip client_ports 0x10 0xffffffff 7001 501 90.
Definition arp : list Z := replicate 12 0 ++ [8; 6] ++ replicate 28 0.

Definition low_key : FlowKey := mkFlowKey (tuple_of syn) 1 true.
Definition high_key : FlowKey := mkFlowKey (tuple_of syn) 1 false.
Definition sigma (k : FlowKey) : Z := if decide (k = low_key) then 5000 else if decide (k = high_key) then 0x80000000 else 0.
Definition tau (k : FlowKey) : Z := if decide (k = low_key) then 123456 else if decide (k = high_key) then 0xfffffffe else 0.

(** The same handshake as other stacks would number it. *)
Definition other_opts (k : FlowKey) (f : Frame) : list Z :=
  match walk_options_mut (E := unit) (length (fr_opts f)) (visit (moved sigma tau k [] [])) (fr_opts f) with Ok o => o | Err _ => [] end.
Definition other (k : FlowKey) (f : Frame) : Frame :=
  edited (moved sigma tau k [6; 6; 6; 6; 6; 6] [4; 4; 4; 4; 4; 4]) (other_opts k f) f <| fr_ipck := [0; 0] |> <| fr_tck := [9; 9] |>.

Definition handshake : list Packet := [mkPacket 1 42 arp; mkPacket 2 66 (flat syn); mkPacket 3 66 (flat syn_ack); mkPacket 4 66 (flat ack)].
Definition other_handshake : list Packet :=
  [mkPacket 11 42 arp; mkPacket 12 66 (flat (other low_key syn)); mkPacket 13 66 (flat (other high_key syn_ack)); mkPacket 14 66 (flat (other low_key ack))].

Lemma canon_ok : options_ok canon_default.
Proof. split; [done|repeat constructor; unfold is_u8, two8; lia..|by split|by split]. Qed.
Lemma bytes_ok ps : forallb (fun p => forallb (fun b => (0 <=? b) && (b <? 256)) (pp_data p)) ps = true -> Forall (fun p => is_bytes (pp_data p)) ps.
Proof.
  rewrite forallb_forall. intros H. apply Forall_forall. intros p Hp. apply list_elem_of_In, H in Hp. rewrite forallb_forall in Hp.
  apply Forall_forall. intros b Hb. apply list_elem_of_In, Hp in Hb. unfold is_u8, two8. lia.
Qed.
Lemma segment_ok src dst ports flags seq ack a b : length src = 4%nat -> length dst = 4%nat -> length ports = 4%nat -> is_u32 seq -> is_u32 ack ->
  frame_ok (segment src dst ports flags seq ack a b).
Proof. intros H1 H2 H3 H4 H5. split; try done; [by exists 0x45|by exists 52|by exists 0x80]. Qed.
Lemma file_capture ps : Forall (fun p => is_bytes (pp_data p)) ps -> zlen ps < two32 -> capture read (file ps) tt ps.
Proof. intros H1 H2. split; [|done]. unfold read. do 3 f_equal. by apply records_file. Qed.

Lemma handshake_capture : capture read (file handshake) tt handshake.
Proof. apply file_capture; [apply bytes_ok; by vm_compute|done]. Qed.
Lemma other_capture : capture read (file other_handshake) tt other_handshake.
Proof. apply file_capture; [apply bytes_ok; by vm_compute|done]. Qed.

Lemma other_ok k f : frame_ok f -> length (other_opts k f) = length (fr_opts f) -> frame_ok (other k f).
Proof.
  intros Hf Hl. assert (Ha : is_u32 (fr_ack (other k f))).
  { change (is_u32 (if negb (Z.land (flags_of f) TCP_FLAG_ACK =? 0) then wadd32 (fr_ack f) (sigma (flip_key k)) else fr_ack f)).
    destruct (negb _); [apply wadd32_range|apply (fk_nums _ Hf)]. }
  eapply shape_ok; [exact Hf|]. pose proof Hf as []. unfold same_shape. split_and!; first [done|exact Hl|exact Ha|apply wadd32_range].
Qed.

Lemma same_handshake : same_traffic (E := unit) sigma tau flow_state_default flow_state_default handshake other_handshake.
Proof.
  assert (H1 : frame_ok syn) by (by apply segment_ok). assert (H2 : frame_ok syn_ack) by (by apply segment_ok).
  assert (H3 : frame_ok ack) by (by apply segment_ok).
  assert (Hb : forall l, forallb (fun b => (0 <=? b) && (b <? 256)) l = true -> is_bytes l).
  { intros l H. rewrite forallb_forall in H. apply Forall_forall. intros b Hin. apply list_elem_of_In, H in Hin. unfold is_u8, two8. lia. }
  apply same_opaque; [by vm_compute|done|].
  eapply (same_frame sigma tau _ _ _ _ _ _ syn (other low_key syn) low_key _ _ (other_opts low_key syn) H1);
    [by apply other_ok|by apply Hb|done|done|by vm_compute|by vm_compute|by vm_compute|by vm_compute|by vm_compute| |by vm_compute|].
  { by exists [6; 6; 6; 6; 6; 6], [4; 4; 4; 4; 4; 4], [0; 0], [9; 9]. }
  eapply (same_frame sigma tau _ _ _ _ _ _ syn_ack (other high_key syn_ack) high_key _ _ (other_opts high_key syn_ack) H2);
    [by apply other_ok|by apply Hb|done|done|by vm_compute|by vm_compute|by vm_compute|by vm_compute|by vm_compute| |by vm_compute|].
  { by exists [6; 6; 6; 6; 6; 6], [4; 4; 4; 4; 4; 4], [0; 0], [9; 9]. }
  eapply (same_frame sigma tau _ _ _ _ _ _ ack (other low_key ack) low_key _ _ (other_opts low_key ack) H3);
    [by apply other_ok|by apply Hb|done|done|by vm_compute|by vm_compute|by vm_compute|by vm_compute|by vm_compute| |by vm_compute|apply same_nil].
  by exists [6; 6; 6; 6; 6; 6], [4; 4; 4; 4; 4; 4], [0; 0], [9; 9].
Qed.

Lemma handshake_pinned sf : discover_all (E := unit) (map Ok handshake) flow_state_default = Some (Ok sf) -> only_pinned sigma tau sf.
Proof.
  intros H. assert (Hl : fs_iss sf !! low_key <> None /\ fs_ts_base sf !! low_key <> None /\ fs_iss sf !! high_key <> None /\ fs_ts_base sf !! high_key <> None).
  { assert (Hb : match discover_all (E := unit) (map Ok handshake) flow_state_default with
      Some (Ok s) => bool_decide (fs_iss s !! low_key <> None) && bool_decide (fs_ts_base s !! low_key <> None) &&
        bool_decide (fs_iss s !! high_key <> None) && bool_decide (fs_ts_base s !! high_key <> None) | _ => false end = true) by (by vm_compute).
    rewrite H in Hb. rewrite !andb_true_iff, !bool_decide_eq_true in Hb. tauto. }
  intros k. unfold sigma, tau. split; intros Hk; repeat case_decide; subst; tauto.
Qed.
End Sample.


Lemma canonicalize_idempotent_witness : exists out,
  canonicalize Sample.read Sample.with_header Sample.write (fun w => w) canon_default (Sample.file Sample.handshake) = Some (Ok out) /\
  out <> Sample.file Sample.handshake /\
  canonicalize Sample.read Sample.with_header Sample.write (fun w => w) canon_default out = Some (Ok out).
Proof.
  assert (Hd : match canonicalize Sample.read Sample.with_header Sample.write (fun w => w) canon_default (Sample.file Sample.handshake) with
      Some (Ok o) => negb (bool_decide (o = Sample.file Sample.handshake)) | _ => false end = true) by (by vm_compute).
  destruct (canonicalize Sample.read Sample.with_header Sample.write (fun w => w) canon_default (Sample.file Sample.handshake)) as [[out|x]|] eqn:E; [|discriminate Hd|discriminate Hd].
  exists out. split; [reflexivity|]. split; [exact (proj1 (bool_decide_eq_false _) (proj1 (negb_true_iff _) Hd))|].
  exact (canonicalize_idempotent _ _ _ _ _ Sample.canon_ok Sample.read_file _ _ _ _ Sample.handshake_capture E).
Defined.

